(* ===== verification/_CoqProject ===== *)
-Q . S2P
Prelude.v
CMem.v
Riscv.v
Spinlock.v
Kalloc.v
Vm.v
PageTable.v
AddrSpace.v
Cow.v
Uvm.v
Uvmcopy.v
Freewalk.v
ProcPt.v
VmDec.v
Isolation.v
Que.v
KState.v
Printf.v
Proc.v
KWp.v
KDemo.v
Sched.v
RoundRobin.v
Bio.v
Log.v
BioWp.v
BioSpec.v
BioOps.v
Cache.v
BlockData.v
LogSpec.v
LogCrash.v
Virtio.v
VirtioSpec.v
VirtioDisk.v
Fs.v
Console.v
File.v
PipeSpec.v
Fork.v
Sysarg.v
Exec.v
Sysproc.v
Sysfile.v
Syscall.v
Trap.v
AlarmSpec.v
Boot.v
User.v
Ulib.v
UlibSpec.v
Grep.v
Umalloc.v
UmallocSpec.v
Programs.v
ProgSpec.v
Sh.v
ShLex.v
ShGrammar.v
ShSpec.v
Asm.v
AsmSpec.v
Mkfs.v
MkfsSpec.v
MkfsImage.v
UtBasic.v
UtProc.v
UtFiles.v
UtMem.v
UtDriver.v
UtStress.v
