(* ===== verification/Prelude.v ===== *)
(** * A verification of xv6 with copy-on-write, new schedulers and alarms

    The program is an operating system kernel for RISC-V ([kernel/]), the
    programs that run on it ([user/]) and the builder of its disk image
    ([mkfs/]).  This development translates it into Rocq definitions and
    proves what makes its parts correct.

    ** The parts of the program and how they interact

    A hart starts in [entry.S] and [start.c] and reaches [main], which sets up
    the page allocator, the kernel's page table, the process table, traps and
    devices, makes the first process and enters the scheduler.  The scheduler
    picks a process by the policy the kernel was built with and switches to it
    ([swtch.S]).  The process runs in user space until a trap brings it back
    through the trampoline to [usertrap], which performs a system call, copies
    a page shared copy-on-write, handles a device, delivers an alarm or gives
    up the CPU.  System calls read and write user memory through [copyin] and
    [copyout] and reach processes, pipes, and the file system, which is built
    in layers: path names and directories, inodes, the log, the buffer cache,
    the disk driver.  User programs make system calls through the stubs of
    [usys.pl] and share a small library and an allocator.

    ** How code is modelled

    A C function is a function of the monad [M S A] of this file: it passes
    the state [S] along and ends in an [Ok] result, in [Panic] when it calls
    [panic], in [Fault] when it runs into undefined behaviour (a null pointer,
    a signed overflow, an index out of range, a division by zero), in [Gone]
    when control leaves for good ([exit], [exec], the return to user space),
    or in [OutOfFuel].  Integers are in [Z] with the conversions to the C types
    written out ([u8] to [u64], [i32]); memory is a map from addresses to bytes
    ([CMem]).  [wp m Q s] is total correctness: run from [s], [m] returns and
    the result satisfies [Q].

    Loops are [while], with fuel for 2^64 iterations.  No loop of the program
    that ends needs more, since each is driven by a counter of at most 64 bits
    or by the length of a list in memory; the fuel is counted in binary, so it
    costs nothing, and the rules [wp_while] and [wp_while_idx] ask for a
    variant below 2^64 and conclude that the loop ends.  The parser of the
    shell recurses on fuel that is a multiple of the length of the command
    line, which [ShGrammar] proves to be enough.

    The kernel is followed as one thread of it sees it: [K] of [KState] has
    all shared structures.  What is outside that thread is a parameter: the
    class [Env] has the switch to other threads ([swtch], [run]), device
    registers and linker symbols; [Layout] the addresses of the kernel image;
    [Vio] the registers of the disk.  A user program runs on its own memory
    against the class [Sys], the kernel as it sees it; [mkfs] runs against
    [Host], the files of the build host.  What a theorem needs of a parameter
    is a class of laws ([LayoutOk], [DiskOk], [TimeSharing], [DeviceOk],
    [Alone], [Sink], [Stream], [Brk], [HostOk]), and every such theorem has a
    concrete instance.

    ** The files

    - This file, [CMem] (memory and [kernel/string.c]) and [Riscv]
      ([kernel/riscv.h], [kernel/memlayout.h]) are the base.
    - [Spinlock]: [kernel/spinlock.c], and the interleavings of its memory
      accesses on any number of CPUs as a step relation.
    - [Kalloc]: [kernel/kalloc.c].  [Vm]: [kernel/vm.c], [cowfault] of
      [kernel/trap.c] and the page tables of processes.  [PageTable],
      [AddrSpace], [Cow], [Uvm], [Uvmcopy], [Freewalk], [ProcPt] say what the
      operations mean for the address spaces that share memory; [VmDec]
      decides the invariants of a concrete memory; [Isolation] has the
      theorems.
    - [KState]: the kernel's structures and locks ([kernel/proc.h],
      [kernel/file.h], [kernel/buf.h], [kernel/fs.h], [kernel/virtio.h] and
      the static variables of the C files).  [KWp] has the rules for locks and
      for loops over the process table, [KDemo] a concrete kernel.
    - [Printf], [Console]: [kernel/printf.c], [kernel/console.c],
      [kernel/uart.c], [kernel/plic.c].
    - [Proc], [Fork], [Que]: [kernel/proc.c].  [Sched] and [RoundRobin] have
      the theorems on the schedulers.
    - [Bio], [Log], [Fs]: [kernel/sleeplock.c], [kernel/bio.c],
      [kernel/log.c], [kernel/fs.c].  [BioWp], [BioSpec], [BioOps] and [Cache]
      turn the buffer cache into a view of the disk, [BlockData], [LogSpec]
      and [LogCrash] verify the log against it.
    - [Virtio]: [kernel/virtio_disk.c].  [VirtioSpec] and [VirtioDisk] have
      its protocol and that it transfers blocks as the disk of [BioWp] does,
      up to its own state and the processes it wakes up.
    - [File], [PipeSpec]: [kernel/file.c], [kernel/pipe.c].  [Exec]:
      [kernel/exec.c].  [Sysarg], [Syscall], [Sysproc], [Sysfile]:
      [kernel/syscall.c], [kernel/sysproc.c], [kernel/sysfile.c].  [Trap]:
      [kernel/trap.c].  [Boot]: [kernel/main.c].
    - [AlarmSpec]: the alarms of [Trap], [Proc] and [Syscall].
    - [Asm], [AsmSpec]: the assembly files and [kernel/start.c], as
      instructions of a small machine.
    - [User], [Ulib], [Umalloc], [Grep], [Programs], [Sh]: the stubs, the
      library, the allocator and the programs under [user/]; [UlibSpec],
      [UmallocSpec], [ProgSpec], [ShLex], [ShGrammar], [ShSpec] verify them.
    - [UtBasic], [UtProc], [UtFiles], [UtMem], [UtDriver]: the tests of
      [user/usertests.c] and what runs them.  [UtStress]: [user/cowtest.c] and
      [user/grind.c].
    - [Mkfs]: [mkfs/mkfs.c] on a host that is the class [Host].  [MkfsSpec]
      says what its operations do to the files in an image, [MkfsImage] what
      image it builds.

    ** What the theorems show

    - Memory: processes never see each other's writes although fork shares
      their pages, [copyin] and [copyout] transfer exactly the user's bytes,
      and [copyout] stops only where memory cannot be written; memory that a
      process gets is zero and its own, page tables give back every page, the
      allocator hands out fresh pages.
    - Locks: a spin lock has one owner in every interleaving, and interrupts
      are off while one is held.
    - Scheduling: what each policy runs, that round robin runs every process
      in every round, where the lottery is unfair; the feedback queues are
      queues until they overflow.
    - Storage: a transaction is atomic whenever the machine stops, recovery
      can be repeated, the disk driver never mixes up its descriptors and
      implements the transfers the cache relies on.
    - Assembly: traps, interrupts and context switches keep the registers, and
      the clock is armed.
    - Alarms: the code that an alarm interrupts goes on with every register it
      had.
    - Pipes are queues of bytes, and lose one only when the reader's memory
      cannot be written.
    - The image that [mkfs] builds has every file with its content, in the
      layout that the kernel reads.
    - User programs: the allocator's blocks never overlap, the shell parses
      exactly its grammar, grep prints the lines that match and decides the
      language of its pattern, wc counts, printed numbers are read back.

    ** Not modelled

    - The linker scripts, and the declarations of [kernel/defs.h],
      [kernel/types.h] and [user/user.h].
    - [kernel/ramdisk.c], which the kernel does not link and which uses fields
      [struct buf] does not have.
    - [user/alarmtest.c]: its handlers run between any two instructions of the
      program, and one test looks at a machine register.  What it tests is
      proved of the kernel in [AlarmSpec].
    - Of the inline assembly in [kernel/riscv.h]: TLB flushes, which have no
      effect on the page tables in memory.  Reading and writing control
      registers are fields of the kernel's state ([KState]) and of the machine
      ([Asm]).
    - Devices, beyond what the laws of the classes say of them, and the memory
      model of the CPUs: [__sync_synchronize] has no counterpart.

    ** This file

    Machine integers, the monad, loops and their rules, components of a larger
    state, record update, and the tactics [wp_steps] (symbolic execution) and
    [rsimpl] (fields of updated records) with the hint database [xv6_op]. *)

From stdpp Require Import base list gmap strings.
From Stdlib Require Import ZArith Lia.

#[global] Open Scope Z_scope.

(** ** Machine integers

    A C integer is a [Z] kept in the range of its type; the functions below
    are the conversions to the fixed-width types of [kernel/types.h]. *)

Definition u8 (x : Z) : Z := x mod 2 ^ 8.
Definition u16 (x : Z) : Z := x mod 2 ^ 16.
Definition u32 (x : Z) : Z := x mod 2 ^ 32.
Definition u64 (x : Z) : Z := x mod 2 ^ 64.
Definition i32 (x : Z) : Z := (x + 2 ^ 31) mod 2 ^ 32 - 2 ^ 31.

Definition INT_MAX : Z := 2 ^ 31 - 1.
Definition INT_MIN : Z := - 2 ^ 31.

Lemma u8_range x : 0 <= u8 x < 256.
Proof. unfold u8. change (2 ^ 8) with 256. apply Z.mod_pos_bound. lia. Qed.

Lemma u32_range x : 0 <= u32 x < 2 ^ 32.
Proof. unfold u32. apply Z.mod_pos_bound. lia. Qed.

Lemma u64_range x : 0 <= u64 x < 2 ^ 64.
Proof. unfold u64. apply Z.mod_pos_bound. lia. Qed.

Lemma u8_small x : 0 <= x < 256 -> u8 x = x.
Proof. intros. unfold u8. apply Z.mod_small. exact H. Qed.

Lemma u32_small x : 0 <= x < 2 ^ 32 -> u32 x = x.
Proof. intros. unfold u32. apply Z.mod_small. exact H. Qed.

Lemma u64_small x : 0 <= x < 2 ^ 64 -> u64 x = x.
Proof. intros. unfold u64. apply Z.mod_small. exact H. Qed.

Lemma u8_u8 x : u8 (u8 x) = u8 x.
Proof. apply u8_small, u8_range. Qed.

Lemma i32_small x : INT_MIN <= x <= INT_MAX -> i32 x = x.
Proof. unfold i32, INT_MIN, INT_MAX. intros. rewrite Z.mod_small; lia. Qed.

Lemma i32_range x : INT_MIN <= i32 x <= INT_MAX.
Proof.
  unfold i32, INT_MIN, INT_MAX.
  pose proof (Z.mod_pos_bound (x + 2 ^ 31) (2 ^ 32) ltac:(lia)). lia.
Qed.

(** ** Outcomes of kernel code

    [Ok a s]: the function returned [a] in state [s].
    [Panic msg]: it called [panic(msg)], which prints and spins for ever.
    [Fault]: it ran into undefined behaviour (a null dereference, a signed
    overflow, an array index out of range, a division by zero).
    [Gone why s]: control left the code for good in state [s]: a program
    called [exit] or [exec], a CPU entered the scheduler or user space.
    [OutOfFuel]: a loop did not finish within [FUEL] iterations. *)

Inductive res (S A : Type) : Type :=
| Ok (a : A) (s : S)
| Panic (msg : string)
| Fault
| Gone (why : Z) (s : S)
| OutOfFuel.

Arguments Ok {S A} a s.
Arguments Panic {S A} msg.
Arguments Fault {S A}.
Arguments Gone {S A} why s.
Arguments OutOfFuel {S A}.

(** The kernel monad: explicit state passing with the outcomes above. *)
Definition M (S A : Type) : Type := S -> res S A.

Section monad.
Context {S : Type}.

#[global] Instance M_ret : MRet (M S) := fun A a s => Ok a s.

#[global] Instance M_bind : MBind (M S) := fun A B f m s =>
  match m s with
  | Ok a s' => f a s'
  | Panic msg => Panic msg
  | Fault => Fault
  | Gone c s' => Gone c s'
  | OutOfFuel => OutOfFuel
  end.

Definition get : M S S := fun s => Ok s s.
Definition gets {A} (f : S -> A) : M S A := fun s => Ok (f s) s.
Definition modify (f : S -> S) : M S unit := fun s => Ok tt (f s).
Definition panic {A} (msg : string) : M S A := fun _ => Panic msg.
Definition fault {A} : M S A := fun _ => Fault.
Definition leave {A} (why : Z) : M S A := fun s => Gone why s.
Definition out_of_fuel {A} : M S A := fun _ => OutOfFuel.
Definition when (b : bool) (m : M S unit) : M S unit := if b then m else mret tt.

(** Signed [int] arithmetic: overflow is undefined behaviour. *)
Definition int_op (x : Z) : M S Z :=
  if (INT_MIN <=? x) && (x <=? INT_MAX) then mret x else fault.

(** A pointer that the code dereferences without a check. *)
Definition nonnull (p : Z) : M S unit := if p =? 0 then fault else mret tt.

(** ** Weakest preconditions (total correctness)

    [wp m Q s]: run from [s], [m] returns normally, in a state and with a
    result that satisfy [Q]. *)
Definition wp {A} (m : M S A) (Q : A -> S -> Prop) (s : S) : Prop :=
  match m s with Ok a s' => Q a s' | _ => False end.

Lemma wp_ret {A} (a : A) Q s : wp (mret a) Q s <-> Q a s.
Proof. done. Qed.

Lemma wp_bind {A B} (m : M S A) (f : A -> M S B) Q s :
  wp (m ≫= f) Q s <-> wp m (fun a => wp (f a) Q) s.
Proof. unfold wp, mbind, M_bind. by destruct (m s). Qed.

Lemma bind_Ok {A B} (m : M S A) (f : A -> M S B) s a s' :
  m s = Ok a s' -> (m ≫= f) s = f a s'.
Proof. unfold mbind, M_bind. by intros ->. Qed.

Lemma bind_Panic {A B} (m : M S A) (f : A -> M S B) s msg :
  m s = Panic msg -> (m ≫= f) s = Panic msg.
Proof. unfold mbind, M_bind. by intros ->. Qed.

Lemma wp_get Q s : wp get Q s <-> Q s s.
Proof. done. Qed.

Lemma wp_gets {A} (f : S -> A) Q s : wp (gets f) Q s <-> Q (f s) s.
Proof. done. Qed.

Lemma wp_modify f Q s : wp (modify f) Q s <-> Q tt (f s).
Proof. done. Qed.

Lemma wp_when b m (Q : unit -> S -> Prop) s :
  wp (when b m) Q s <-> if b then wp m Q s else Q tt s.
Proof. by destruct b. Qed.

Lemma wp_int_op x Q s : wp (int_op x) Q s <-> INT_MIN <= x <= INT_MAX /\ Q x s.
Proof.
  unfold int_op.
  destruct (Z.leb_spec INT_MIN x), (Z.leb_spec x INT_MAX); simpl;
    split; intros H'; try (by destruct H'); try (destruct H'; lia); try done; try lia.
Qed.

Lemma wp_nonnull p Q s : wp (nonnull p) Q s <-> p <> 0 /\ Q tt s.
Proof.
  unfold nonnull. destruct (Z.eqb_spec p 0); split; intros H'; try done; try tauto.
Qed.

Lemma wp_mono {A} (m : M S A) (Q Q' : A -> S -> Prop) s :
  wp m Q s -> (forall a s', Q a s' -> Q' a s') -> wp m Q' s.
Proof. unfold wp. destruct (m s); auto. Qed.

Lemma wp_conj {A} (m : M S A) (Q Q' : A -> S -> Prop) s :
  wp m Q s -> wp m Q' s -> wp m (fun a s' => Q a s' /\ Q' a s') s.
Proof. unfold wp. destruct (m s); auto. Qed.

Lemma wp_ok {A} (m : M S A) Q s : wp m Q s <-> exists a s', m s = Ok a s' /\ Q a s'.
Proof.
  unfold wp. destruct (m s) as [a s'|msg| |c s'|]; split; intros H;
    try (by destruct H as (? & ? & ? & ?)); try done; [by eauto|].
  destruct H as (a' & s'' & E & H). by inversion E; subst.
Qed.

Lemma wp_result {A} (m : M S A) Q s r s' : wp m Q s -> m s = Ok r s' -> Q r s'.
Proof. unfold wp. intros Hwp Heq. by rewrite Heq in Hwp. Qed.

Lemma wp_unit (m : M S unit) (Q : S -> Prop) s : wp m (fun _ => Q) s -> exists s', m s = Ok tt s' /\ Q s'.
Proof. intros ([] & s' & H & HQ)%wp_ok. eauto. Qed.

Lemma wp_eq {A} (m : M S A) (Q : A -> S -> Prop) s a s' :
  m s = Ok a s' -> Q a s' -> wp m Q s.
Proof. unfold wp. by intros ->. Qed.

(** ** Loops

    [while body st] runs a C loop: [body] returns [inl st'] to go round
    again with loop variables [st'], and [inr r] to leave the loop.  The
    fuel is [2^64] iterations, counted in binary so that it costs nothing
    to evaluate; every loop of the sources steps a counter of at most 64
    bits. *)

Context {St R : Type}.

Fixpoint loop_pos (p : positive) (body : St -> M S (St + R)) (st : St) : M S (St + R) :=
  match p with
  | xH => body st
  | xO q =>
      r ← loop_pos q body st;
      match r with inl st' => loop_pos q body st' | inr r' => mret (inr r') end
  | xI q =>
      r ← body st;
      match r with
      | inr r' => mret (inr r')
      | inl st' =>
          r ← loop_pos q body st';
          match r with inl st'' => loop_pos q body st'' | inr r' => mret (inr r') end
      end
  end.

Definition FUEL : positive := 2 ^ 64.

Lemma lt_fuel z : z < 2 ^ 64 -> z < Z.pos FUEL.
Proof. done. Qed.

Definition while (body : St -> M S (St + R)) (st : St) : M S R :=
  r ← loop_pos FUEL body st;
  match r with inl _ => out_of_fuel | inr r' => mret r' end.

(** The same loop with unary fuel, used to reason about [while]. *)
Fixpoint loop_nat (n : nat) (body : St -> M S (St + R)) (st : St) : M S (St + R) :=
  match n with
  | O => mret (inl st)
  | Datatypes.S n' =>
      r ← body st;
      match r with inl st' => loop_nat n' body st' | inr r' => mret (inr r') end
  end.

Lemma loop_nat_add n m body st s :
  loop_nat (n + m) body st s =
  (r ← loop_nat n body st;
   match r with inl st' => loop_nat m body st' | inr r' => mret (inr r') end) s.
Proof.
  revert st s. induction n as [|n IH]; intros st s; [done|].
  cbn [loop_nat Nat.add]. unfold mbind, M_bind.
  by destruct (body st s) as [[st'|r] s'|msg| |c s'|].
Qed.

Lemma loop_pos_nat p body st s :
  loop_pos p body st s = loop_nat (Pos.to_nat p) body st s.
Proof.
  revert st s. induction p as [p IH|p IH|]; intros st s.
  - replace (Pos.to_nat p~1) with (1 + (Pos.to_nat p + Pos.to_nat p))%nat by lia.
    cbn [loop_pos Nat.add loop_nat]. unfold mbind, M_bind.
    destruct (body st s) as [[st'|r] s'|msg| |c s'|]; try done.
    rewrite loop_nat_add, IH. unfold mbind, M_bind.
    destruct (loop_nat (Pos.to_nat p) body st' s') as [[st''|r] s''|msg| |c s''|]; try done.
  - replace (Pos.to_nat p~0) with (Pos.to_nat p + Pos.to_nat p)%nat by lia.
    cbn [loop_pos]. rewrite loop_nat_add. unfold mbind, M_bind. rewrite IH.
    destruct (loop_nat (Pos.to_nat p) body st s) as [[st''|r] s''|msg| |c s''|]; try done.
  - change (Pos.to_nat 1) with 1%nat. cbn [loop_pos loop_nat]. unfold mbind, M_bind.
    by destruct (body st s) as [[st''|r] s''|msg| |c s''|].
Qed.

(** One unrolling at a time: enough fuel [n] for the result, then [while]
    has it too. *)
Lemma while_nat n body st s r s' :
  loop_nat n body st s = Ok (inr r) s' ->
  Z.of_nat n <= Z.pos FUEL ->
  while body st s = Ok r s'.
Proof.
  intros Hn Hle. unfold while, mbind, M_bind. rewrite loop_pos_nat.
  replace (Pos.to_nat FUEL) with (n + (Pos.to_nat FUEL - n))%nat by lia.
  rewrite loop_nat_add. unfold mbind, M_bind. by rewrite Hn.
Qed.

(** The loop rule: an invariant [I], a variant [mu] that every iteration
    decreases, and the postcondition on exit.  The conclusion includes
    termination. *)
Lemma wp_while (I : St -> S -> Prop) (mu : St -> nat) (Q : R -> S -> Prop) body st s :
  (forall st s, I st s ->
     wp (body st) (fun r s' =>
       match r with
       | inl st' => I st' s' /\ (mu st' < mu st)%nat
       | inr r' => Q r' s'
       end) s) ->
  I st s -> Z.of_nat (mu st) < Z.pos FUEL ->
  wp (while body st) Q s.
Proof.
  intros Hbody HI Hfuel.
  assert (exists r s', loop_nat (Datatypes.S (mu st)) body st s = Ok (inr r) s' /\ Q r s')
    as (r & s' & Hl & HQ).
  { clear Hfuel. remember (mu st) as k eqn:Hk.
    assert (mu st <= k)%nat as Hle by lia. clear Hk. revert st s Hle HI.
    induction k as [|k IH]; intros st s Hle HI; specialize (Hbody st s HI) as Hb;
      apply wp_ok in Hb as ([st'|r] & s' & Hb & Hpost).
    - destruct Hpost. lia.
    - exists r, s'. split; [|done]. cbn [loop_nat]. unfold mbind, M_bind. by rewrite Hb.
    - destruct Hpost as [HI' Hlt].
      destruct (IH st' s' ltac:(lia) HI') as (r & s'' & Hl & HQ).
      exists r, s''. split; [|done].
      change (loop_nat (Datatypes.S (Datatypes.S k)) body st)
        with (r ← body st; match r with inl st' => loop_nat (Datatypes.S k) body st'
                                     | inr r' => mret (inr r') end).
      unfold mbind, M_bind. by rewrite Hb.
    - exists r, s'. split; [|done]. cbn [loop_nat]. unfold mbind, M_bind. by rewrite Hb. }
  apply wp_ok. exists r, s'. split; [|done].
  eapply while_nat; [exact Hl|lia].
Qed.

(** The same with the variant as an index of the invariant. *)
Lemma wp_while_idx (I : nat -> St -> S -> Prop) (Q : R -> S -> Prop) body k st s :
  (forall k st s, I k st s ->
     wp (body st) (fun r s' =>
       match r with
       | inl st' => exists k', (k' < k)%nat /\ I k' st' s'
       | inr r' => Q r' s'
       end) s) ->
  I k st s -> Z.of_nat k < Z.pos FUEL ->
  wp (while body st) Q s.
Proof.
  intros Hbody HI Hfuel.
  assert (forall m k st s, (k <= m)%nat -> I k st s ->
    exists r s', loop_nat (Datatypes.S m) body st s = Ok (inr r) s' /\ Q r s') as Hgen.
  { clear st s k HI Hfuel. induction m as [|m IH]; intros k st s Hle HI; specialize (Hbody k st s HI) as Hb;
      apply wp_ok in Hb as ([st'|r] & s' & Hb & Hpost);
      try (exists r, s'; split; [|done]; cbn [loop_nat]; unfold mbind, M_bind; by rewrite Hb);
      destruct Hpost as (k' & Hlt & HI'); [lia|].
    destruct (IH k' st' s' ltac:(lia) HI') as (r & s'' & Hl & HQ). exists r, s''. split; [|done].
    change (loop_nat (Datatypes.S (Datatypes.S m)) body st)
      with (r ← body st; match r with inl st' => loop_nat (Datatypes.S m) body st' | inr r' => mret (inr r') end).
    unfold mbind, M_bind. by rewrite Hb. }
  destruct (Hgen k k st s ltac:(lia) HI) as (r & s' & Hl & HQ). apply wp_ok. exists r, s'. split; [|done].
  eapply while_nat; [exact Hl|lia].
Qed.

(** A loop that leaves in its first iteration. *)
Lemma wp_while_once (Q : R -> S -> Prop) body st s :
  wp (body st) (fun r s' => match r with inl _ => False | inr r' => Q r' s' end) s ->
  wp (while body st) Q s.
Proof.
  intros H. apply (wp_while (fun st' s' => st' = st /\ s' = s) (fun _ => 0%nat)); [|done|done].
  intros st' s' [-> ->]. eapply wp_mono; [exact H|]. by intros [] ?.
Qed.

End monad.

(** [for] loops over a list of indices, run for their effect. *)
Fixpoint for_each {S X : Type} (l : list X) (body : X -> M S unit) : M S unit :=
  match l with
  | [] => mret tt
  | x :: l' => body x ;; for_each l' body
  end.

(** [for] loops that may [return] early: [Some r] leaves the function with
    [r], [None] goes on. *)
Fixpoint for_first {S X R : Type} (l : list X) (body : X -> M S (option R)) : M S (option R) :=
  match l with
  | [] => mret None
  | x :: l' =>
      r ← body x;
      match r with Some v => mret (Some v) | None => for_first l' body end
  end.

(** [for] loops with loop variables: [inl st] goes on with [st], [inr r]
    leaves the loop (or the function) with [r]. *)
Fixpoint for_st {S X St R : Type} (l : list X) (body : X -> St -> M S (St + R)) (st : St) : M S (St + R) :=
  match l with
  | [] => mret (inl st)
  | x :: l' =>
      r ← body x st;
      match r with inl st' => for_st l' body st' | inr v => mret (inr v) end
  end.

(** ** Components of a larger state

    A [lens S T] says where the state [S] of a component sits inside the
    state [T] of its client; [zoom] runs the component's code there. *)
Record lens (S T : Type) := Lens {
  lget : T -> S;
  lset : S -> T -> T;
}.
Arguments Lens {S T} _ _.
Arguments lget {S T} _ _.
Arguments lset {S T} _ _ _.

Definition zoom {S T A : Type} (l : lens S T) (m : M S A) : M T A := fun t =>
  match m (lget l t) with
  | Ok a s => Ok a (lset l s t)
  | Panic msg => Panic msg
  | Fault => Fault
  | Gone c s => Gone c (lset l s t)
  | OutOfFuel => OutOfFuel
  end.

Lemma wp_zoom {S T A} (l : lens S T) (m : M S A) Q t :
  wp (zoom l m) Q t <-> wp m (fun a s => Q a (lset l s t)) (lget l t).
Proof. unfold wp, zoom. by destruct (m (lget l t)). Qed.

Arguments wp : simpl never.
Arguments while : simpl never.
Arguments loop_pos : simpl never.

(** ** Loop rules *)

Lemma wp_for_each {S X : Type} (I : list X -> S -> Prop) (l : list X) (body : X -> M S unit) s :
  (forall done x todo s, l = done ++ x :: todo -> I done s ->
     wp (body x) (fun _ s' => I (done ++ [x]) s') s) ->
  I [] s -> wp (for_each l body) (fun _ s' => I l s') s.
Proof.
  intros Hbody HI.
  assert (forall todo done s, l = done ++ todo -> I done s ->
    wp (for_each todo body) (fun _ s' => I l s') s) as Hgen.
  { induction todo as [|x todo IH]; intros dn s0 Hl HI0.
    - apply wp_ret. by rewrite Hl, app_nil_r.
    - cbn [for_each]. apply wp_bind. eapply wp_mono; [by eapply Hbody|].
      intros [] s1 H1. apply (IH (dn ++ [x])); [|done]. by rewrite Hl, <- app_assoc. }
  by apply (Hgen l []).
Qed.

(** A search loop: the postcondition is established either by the first
    element that returns, or, with the invariant, by the end of the list. *)
Lemma wp_for_first {S X R : Type} (I : list X -> S -> Prop) (Q : option R -> S -> Prop)
    (l : list X) (body : X -> M S (option R)) s :
  (forall done x todo s, l = done ++ x :: todo -> I done s ->
     wp (body x) (fun r s' =>
       match r with Some v => Q (Some v) s' | None => I (done ++ [x]) s' end) s) ->
  I [] s -> (forall s', I l s' -> Q None s') ->
  wp (for_first l body) Q s.
Proof.
  intros Hbody HI Hend.
  assert (forall todo done s, l = done ++ todo -> I done s ->
    wp (for_first todo body) Q s) as Hgen.
  { induction todo as [|x todo IH]; intros dn s0 Hl HI0.
    - apply wp_ret, Hend. by rewrite Hl, app_nil_r.
    - cbn [for_first]. apply wp_bind. eapply wp_mono; [by eapply Hbody|].
      intros [v|] s1 H1; [by apply wp_ret|].
      apply (IH (dn ++ [x])); [|done]. by rewrite Hl, <- app_assoc. }
  by apply (Hgen l []).
Qed.

Lemma wp_for_st {S X St R : Type} (I : list X -> St -> S -> Prop) (Q : St + R -> S -> Prop)
    (l : list X) (body : X -> St -> M S (St + R)) st s :
  (forall done x todo st s, l = done ++ x :: todo -> I done st s ->
     wp (body x st) (fun r s' =>
       match r with inl st' => I (done ++ [x]) st' s' | inr v => Q (inr v) s' end) s) ->
  I [] st s -> (forall st' s', I l st' s' -> Q (inl st') s') ->
  wp (for_st l body st) Q s.
Proof.
  intros Hbody HI Hend.
  assert (forall todo done st s, l = done ++ todo -> I done st s ->
    wp (for_st todo body st) Q s) as Hgen.
  { induction todo as [|x todo IH]; intros dn st0 s0 Hl HI0.
    - apply wp_ret, Hend. by rewrite Hl, app_nil_r.
    - cbn [for_st]. apply wp_bind. eapply wp_mono; [by eapply Hbody|].
      intros [st1|v] s1 H1; [|by apply wp_ret].
      apply (IH (dn ++ [x])); [|done]. by rewrite Hl, <- app_assoc. }
  by apply (Hgen l []).
Qed.

(** ** Record update

    [r <| f := v |>] is the record [r] with field [f] set to [v]: a C
    assignment [r->f = v].  A record type declares its eta-expansion as a
    [Settable] instance, from which the setter of each field is derived. *)
Class Settable (R : Type) := { mk_eta : R -> R }.

Class Setter {R T : Type} (proj : R -> T) := { set_field : (T -> T) -> R -> R }.

Ltac derive_setter :=
  lazymatch goal with
  | |- @Setter ?R ?T ?proj =>
      constructor; let f := fresh "f" in let r := fresh "r" in intros f r;
      let e := constr:(_ : Settable R) in
      let e := eval hnf in e in
      let eta := eval cbv [mk_eta] in (@mk_eta R e r) in
      lazymatch eval pattern (proj r) in eta with
      | ?g _ => let t := eval cbv beta in (g (f (proj r))) in exact t
      end
  end.

#[export] Hint Extern 0 (Setter _) => derive_setter : typeclass_instances.

Declare Scope record_scope.
Delimit Scope record_scope with record.
#[global] Open Scope record_scope.

#[warnings="-postfix-notation-not-level-1"]
Notation "r <| f := v |>" := (set_field (proj := f) (fun _ => v) r)
  (at level 12, left associativity, f constr at level 0, v at level 99) : record_scope.
#[warnings="-postfix-notation-not-level-1"]
Notation "r <| f ::= g |>" := (set_field (proj := f) g r)
  (at level 12, left associativity, f constr at level 0, g at level 99) : record_scope.

(** ** Proof automation *)

(** State updates that symbolic execution looks into. *)
Create HintDb xv6_op.

(** One step of symbolic execution of the statement in front. *)
Ltac wp_step :=
  lazymatch goal with
  | |- wp (mbind _ _) _ _ => apply wp_bind
  | |- wp (mret _) _ _ => apply wp_ret
  | |- wp get _ _ => apply wp_get
  | |- wp (gets _) _ _ => apply wp_gets
  | |- wp (modify _) _ _ => apply wp_modify
  | |- wp (when _ _) _ _ => apply wp_when
  | |- wp (zoom _ _) _ _ => apply wp_zoom
  | |- wp (int_op _) _ _ => apply wp_int_op
  | |- wp (nonnull _) _ _ => apply wp_nonnull
  | |- wp _ _ _ => progress autounfold with xv6_op
  end.

Ltac wp_steps := repeat (wp_step; cbv beta).

(** Fields of updated records. *)
Ltac rsimpl_step :=
  match goal with
  | |- context [?pr (set_field (proj := ?pr) ?f ?r)] =>
      change (pr (set_field (proj := pr) f r)) with (f (pr r))
  | |- context [?pr (set_field (proj := ?pr') ?f ?r)] =>
      change (pr (set_field (proj := pr') f r)) with (pr r)
  end.
Ltac rsimpl := repeat (rsimpl_step; cbv beta).

Ltac rsimpl_in_step H :=
  match type of H with
  | context [?pr (set_field (proj := ?pr) ?f ?r)] =>
      change (pr (set_field (proj := pr) f r)) with (f (pr r)) in H
  | context [?pr (set_field (proj := ?pr') ?f ?r)] =>
      change (pr (set_field (proj := pr') f r)) with (pr r) in H
  end.
Ltac rsimpl_in H := repeat (rsimpl_in_step H; cbv beta in H).

(** Turn boolean comparisons of the code into propositions. *)
Ltac zb :=
  repeat match goal with
  | H : (_ =? _) = true |- _ => apply Z.eqb_eq in H
  | H : (_ =? _) = false |- _ => apply Z.eqb_neq in H
  | H : (_ <? _) = true |- _ => apply Z.ltb_lt in H
  | H : (_ <? _) = false |- _ => apply Z.ltb_ge in H
  | H : (_ <=? _) = true |- _ => apply Z.leb_le in H
  | H : (_ <=? _) = false |- _ => apply Z.leb_gt in H
  | H : negb _ = true |- _ => apply negb_true_iff in H
  | H : negb _ = false |- _ => apply negb_false_iff in H
  | H : _ && _ = true |- _ => apply andb_true_iff in H as [? ?]
  | H : _ || _ = false |- _ => apply orb_false_iff in H as [? ?]
  end.

(** Case analysis on the test of the first conditional of the goal. *)
Ltac case_if :=
  match goal with
  | |- context [if ?b then _ else _] =>
      lazymatch type of b with
      | bool => let E := fresh "E" in destruct b eqn:E
      end
  end.

(** The database of facts about the components' definitions. *)
Create HintDb xv6.
#[export] Hint Resolve u8_range u32_range u64_range : xv6.
