(* ===== verification/CMem.v ===== *)
(** * CMem: byte-addressed memory and [kernel/string.c]

    Physical memory is a finite map from addresses to bytes (an address that
    was never written reads as 0).  Multi-byte loads and stores are
    little-endian, as on RISC-V.  [Module CString] translates the loops of
    [kernel/string.c] on that memory and proves what they compute. *)

From stdpp Require Import base list gmap strings.
From Stdlib Require Import ZArith Lia.
From S2P Require Import Prelude.

Abbreviation mem := (gmap Z Z).

Definition rd8 (m : mem) (a : Z) : Z := u8 (default 0 (m !! a)).
Definition wr8 (m : mem) (a v : Z) : mem := <[a := u8 v]> m.

(** Little-endian words of [n] bytes. *)
Fixpoint rdle (m : mem) (a : Z) (n : nat) : Z :=
  match n with
  | O => 0
  | S n' => rd8 m a + 256 * rdle m (a + 1) n'
  end.

Fixpoint wrle (m : mem) (a : Z) (n : nat) (v : Z) : mem :=
  match n with
  | O => m
  | S n' => wrle (wr8 m a v) (a + 1) n' (v / 256)
  end.

Definition load64 (m : mem) (a : Z) : Z := rdle m a 8.
Definition store64 (m : mem) (a v : Z) : mem := wrle m a 8 v.
Definition load32 (m : mem) (a : Z) : Z := rdle m a 4.
Definition store32 (m : mem) (a v : Z) : mem := wrle m a 4 v.

(** A run of bytes, read into and written from a kernel buffer. *)
Fixpoint rdbytes (m : mem) (a : Z) (n : nat) : list Z :=
  match n with
  | O => []
  | S n' => rd8 m a :: rdbytes m (a + 1) n'
  end.

Fixpoint wrbytes (m : mem) (a : Z) (l : list Z) : mem :=
  match l with
  | [] => m
  | b :: l' => wrbytes (wr8 m a b) (a + 1) l'
  end.

Arguments rd8 : simpl never.
Arguments wr8 : simpl never.
Arguments load64 : simpl never.
Arguments store64 : simpl never.

(** ** Reading after writing *)

Lemma rd8_range m a : 0 <= rd8 m a < 256.
Proof. apply u8_range. Qed.

Lemma rd8_wr8 m a v x : rd8 (wr8 m a v) x = if x =? a then u8 v else rd8 m x.
Proof.
  unfold rd8, wr8. destruct (Z.eqb_spec x a) as [->|].
  - rewrite lookup_insert_eq. apply u8_u8.
  - by rewrite lookup_insert_ne.
Qed.

Lemma rd8_wrle m a n v x :
  rd8 (wrle m a n v) x =
  if (a <=? x) && (x <? a + Z.of_nat n) then u8 (v / 256 ^ (x - a)) else rd8 m x.
Proof.
  revert m a v. induction n as [|n IH]; intros m a v; cbn [wrle].
  - destruct (Z.leb_spec a x), (Z.ltb_spec x (a + Z.of_nat 0)); simpl; try done; lia.
  - rewrite IH, rd8_wr8.
    destruct (Z.leb_spec (a + 1) x), (Z.ltb_spec x (a + 1 + Z.of_nat n)),
      (Z.eqb_spec x a), (Z.leb_spec a x), (Z.ltb_spec x (a + Z.of_nat (S n)));
      simpl; try lia; try done; subst.
    + rewrite Z.div_div by lia. f_equal. f_equal.
      rewrite <- Z.pow_succ_r by lia. f_equal. lia.
    + rewrite Z.sub_diag. by rewrite Z.div_1_r.
Qed.

Lemma rd8_wrle_out m a n v x :
  x < a \/ a + Z.of_nat n <= x -> rd8 (wrle m a n v) x = rd8 m x.
Proof.
  intros. rewrite rd8_wrle.
  destruct (Z.leb_spec a x), (Z.ltb_spec x (a + Z.of_nat n)); simpl; try done; lia.
Qed.

Lemma rdle_range m a n : 0 <= rdle m a n < 256 ^ Z.of_nat n.
Proof.
  revert a. induction n as [|n IH]; intros a; cbn [rdle]; [done|].
  pose proof (rd8_range m a). specialize (IH (a + 1)).
  rewrite Nat2Z.inj_succ, Z.pow_succ_r by lia. lia.
Qed.

Lemma load64_range m a : 0 <= load64 m a < 2 ^ 64.
Proof. apply (rdle_range m a 8). Qed.

Lemma rdle_ext m m' a n :
  (forall x, a <= x < a + Z.of_nat n -> rd8 m x = rd8 m' x) -> rdle m a n = rdle m' a n.
Proof.
  revert a. induction n as [|n IH]; intros a H; cbn [rdle]; [done|].
  rewrite (H a) by lia. f_equal. f_equal. apply IH. intros. apply H. lia.
Qed.

Lemma rdle_wrle m a n v : rdle (wrle m a n v) a n = v mod 256 ^ Z.of_nat n.
Proof.
  assert (forall k b w m', (forall x, b <= x < b + Z.of_nat k -> rd8 m' x = u8 (w / 256 ^ (x - b))) ->
    rdle m' b k = w mod 256 ^ Z.of_nat k) as Hgen.
  { induction k as [|k IH]; intros b w m' H; cbn [rdle].
    - by rewrite Z.mod_1_r.
    - rewrite (H b) by lia. rewrite Z.sub_diag, Z.div_1_r.
      rewrite (IH (b + 1) (w / 256)).
      + unfold u8. change (2 ^ 8) with 256.
        rewrite Nat2Z.inj_succ, Z.pow_succ_r by lia.
        rewrite (Z.rem_mul_r w 256) by lia. done.
      + intros x Hx. rewrite H by lia. rewrite Z.div_div by lia. f_equal. f_equal.
        rewrite <- Z.pow_succ_r by lia. f_equal. lia. }
  apply Hgen. intros x Hx. rewrite rd8_wrle.
  destruct (Z.leb_spec a x), (Z.ltb_spec x (a + Z.of_nat n)); simpl; try done; lia.
Qed.

Lemma load64_store64_eq m a v : 0 <= v < 2 ^ 64 -> load64 (store64 m a v) a = v.
Proof. intros. unfold load64, store64. rewrite rdle_wrle. by apply Z.mod_small. Qed.

Lemma load64_store64_ne m a b v :
  a + 8 <= b \/ b + 8 <= a -> load64 (store64 m a v) b = load64 m b.
Proof. intros. apply rdle_ext. intros. apply rd8_wrle_out. lia. Qed.

Lemma rd8_store64_out m a v x : x < a \/ a + 8 <= x -> rd8 (store64 m a v) x = rd8 m x.
Proof. intros. by apply rd8_wrle_out. Qed.

Lemma load64_ext m m' a :
  (forall x, a <= x < a + 8 -> rd8 m x = rd8 m' x) -> load64 m a = load64 m' a.
Proof. intros. by apply rdle_ext. Qed.

(** The bytes of a word. *)
Lemma rdle_byte m a n i : 0 <= i < Z.of_nat n -> u8 (rdle m a n / 256 ^ i) = rd8 m (a + i).
Proof.
  revert a i. induction n as [|n IH]; intros a i Hi; [lia|]. cbn [rdle]. pose proof (rd8_range m a) as Hb.
  destruct (decide (i = 0)) as [->|Hne].
  - rewrite Z.pow_0_r, Z.div_1_r, Z.add_0_r. unfold u8. change (2 ^ 8) with 256. rewrite (Z.mul_comm 256 (rdle _ _ _)), Z.mod_add by lia.
    by apply Z.mod_small.
  - replace i with (Z.succ (i - 1)) at 1 by lia. rewrite Z.pow_succ_r, <- Z.div_div by lia.
    rewrite (Z.mul_comm 256 (rdle m (a + 1) n)), Z.div_add, (Z.div_small (rd8 m a)), Z.add_0_l by lia. rewrite IH by lia. f_equal. lia.
Qed.

(** A word copied from [c] to [a]. *)
Lemma rd8_copy64 m m' a c x :
  rd8 (store64 m' a (load64 m c)) x = if (a <=? x) && (x <? a + 8) then rd8 m (c + (x - a)) else rd8 m' x.
Proof.
  unfold store64. rewrite rd8_wrle. change (Z.of_nat 8) with 8. destruct ((a <=? x) && (x <? a + 8)) eqn:Hc; [|done].
  apply andb_true_iff in Hc as [?%Z.leb_le ?%Z.ltb_lt]. unfold load64. apply rdle_byte. lia.
Qed.

Lemma load64_zero m a : (forall x, a <= x < a + 8 -> rd8 m x = 0) -> load64 m a = 0.
Proof. intros H. unfold load64, rdle. rewrite !H by lia. done. Qed.

Lemma length_rdbytes m a n : length (rdbytes m a n) = n.
Proof. revert a. induction n; intros; simpl; auto. Qed.

Lemma rdbytes_lookup m a n i :
  (i < n)%nat -> rdbytes m a n !! i = Some (rd8 m (a + Z.of_nat i)).
Proof.
  revert a i. induction n as [|n IH]; intros a [|i] Hi; try lia; cbn [rdbytes].
  - simpl. by rewrite Z.add_0_r.
  - simpl. rewrite IH by lia. f_equal. f_equal. lia.
Qed.

Lemma rdbytes_ext m m' a n :
  (forall x, a <= x < a + Z.of_nat n -> rd8 m x = rd8 m' x) -> rdbytes m a n = rdbytes m' a n.
Proof.
  revert a. induction n as [|n IH]; intros a H; cbn [rdbytes]; [done|].
  f_equal; [apply H; lia|apply IH; intros; apply H; lia].
Qed.

Lemma rdbytes_app m a n k :
  rdbytes m a (n + k) = rdbytes m a n ++ rdbytes m (a + Z.of_nat n) k.
Proof.
  revert a. induction n as [|n IH]; intros a; simpl.
  - by rewrite Z.add_0_r.
  - rewrite IH. do 3 f_equal. lia.
Qed.

Lemma rd8_wrbytes m a l x :
  rd8 (wrbytes m a l) x =
  if (a <=? x) && (x <? a + Z.of_nat (length l))
  then u8 (nth (Z.to_nat (x - a)) l 0) else rd8 m x.
Proof.
  revert m a. induction l as [|b l IH]; intros m a; cbn [wrbytes length].
  - destruct (Z.leb_spec a x), (Z.ltb_spec x (a + Z.of_nat 0)); simpl; try done; lia.
  - rewrite IH, rd8_wr8.
    destruct (Z.leb_spec (a + 1) x), (Z.ltb_spec x (a + 1 + Z.of_nat (length l))),
      (Z.eqb_spec x a), (Z.leb_spec a x), (Z.ltb_spec x (a + Z.of_nat (S (length l))));
      simpl; try lia; try done; subst.
    + replace (Z.to_nat (x - a)) with (S (Z.to_nat (x - (a + 1)))) by lia. done.
    + by rewrite Z.sub_diag.
Qed.

Lemma rd8_wrbytes_out m a l x :
  x < a \/ a + Z.of_nat (length l) <= x -> rd8 (wrbytes m a l) x = rd8 m x.
Proof.
  intros. rewrite rd8_wrbytes.
  destruct (Z.leb_spec a x), (Z.ltb_spec x (a + Z.of_nat (length l))); simpl; try done; lia.
Qed.

Lemma rdbytes_wrbytes m a l :
  Forall (fun b => 0 <= b < 256) l -> rdbytes (wrbytes m a l) a (length l) = l.
Proof.
  intros Hl. apply list_eq. intros i. destruct (decide (i < length l)%nat) as [Hi|Hi].
  - rewrite rdbytes_lookup by done. rewrite rd8_wrbytes.
    destruct (Z.leb_spec a (a + Z.of_nat i)), (Z.ltb_spec (a + Z.of_nat i) (a + Z.of_nat (length l)));
      simpl; try lia.
    replace (Z.to_nat (a + Z.of_nat i - a)) with i by lia.
    destruct (lookup_lt_is_Some_2 l i Hi) as [b Hb].
    rewrite (nth_lookup_Some _ _ _ _ Hb), Hb. f_equal. apply u8_small.
    by apply (Forall_lookup_1 _ _ _ _ Hl Hb).
  - rewrite !lookup_ge_None_2; [done|lia|rewrite length_rdbytes; lia].
Qed.

(** ** [kernel/string.c] *)
Module CString.

(** [for(i = 0; i < n; i++) cdst[i] = c;], [k] iterations left.  [i] is an
    [int] and [n] an unsigned one: that [i] would overflow for [n] above
    [INT_MAX] is not modelled, the kernel sets at most a page. *)
Fixpoint memset_loop (m : mem) (cdst c i : Z) (k : nat) : mem :=
  match k with
  | O => m
  | S k' => memset_loop (wr8 m (cdst + i) c) cdst c (i + 1) k'
  end.

Definition memset (m : mem) (dst c n : Z) : mem :=
  memset_loop m dst c 0 (Z.to_nat (u32 n)).

Fixpoint memcmp_loop (m : mem) (s1 s2 : Z) (k : nat) : Z :=
  match k with
  | O => 0
  | S k' =>
      if negb (rd8 m s1 =? rd8 m s2) then rd8 m s1 - rd8 m s2
      else memcmp_loop m (s1 + 1) (s2 + 1) k'
  end.

Definition memcmp (m : mem) (v1 v2 n : Z) : Z := memcmp_loop m v1 v2 (Z.to_nat (u32 n)).

(** [while(n-- > 0) *--d = *--s;] *)
Fixpoint memmove_down (m : mem) (d s : Z) (k : nat) : mem :=
  match k with
  | O => m
  | S k' => memmove_down (wr8 m (d - 1) (rd8 m (s - 1))) (d - 1) (s - 1) k'
  end.

(** [while(n-- > 0) *d++ = *s++;] *)
Fixpoint memmove_up (m : mem) (d s : Z) (k : nat) : mem :=
  match k with
  | O => m
  | S k' => memmove_up (wr8 m d (rd8 m s)) (d + 1) (s + 1) k'
  end.

Definition memmove (m : mem) (dst src n : Z) : mem :=
  let n := u32 n in
  if n =? 0 then m
  else if (src <? dst) && (dst <? src + n)
  then memmove_down m (dst + n) (src + n) (Z.to_nat n)
  else memmove_up m dst src (Z.to_nat n).

Definition memcpy (m : mem) (dst src n : Z) : mem := memmove m dst src n.

(** [while(n > 0 && *p && *p == *q) n--, p++, q++;] and the two returns. *)
Fixpoint strncmp_loop (m : mem) (p q : Z) (k : nat) : Z :=
  match k with
  | O => 0
  | S k' =>
      if negb (rd8 m p =? 0) && (rd8 m p =? rd8 m q)
      then strncmp_loop m (p + 1) (q + 1) k'
      else rd8 m p - rd8 m q
  end.

Definition strncmp (m : mem) (p q n : Z) : Z := strncmp_loop m p q (Z.to_nat (u32 n)).

(** The second loop of [strncpy]: [while(n-- > 0) *s++ = 0;]. *)
Fixpoint strncpy_pad (m : mem) (s : Z) (k : nat) : mem :=
  match k with
  | O => m
  | S k' => strncpy_pad (wr8 m s 0) (s + 1) k'
  end.

(** The first one: [while(n-- > 0 && ( *s++ = *t++) != 0);]. *)
Fixpoint strncpy_loop (m : mem) (s t : Z) (k : nat) : mem :=
  match k with
  | O => m
  | S k' =>
      let c := rd8 m t in
      let m' := wr8 m s c in
      if c =? 0 then strncpy_pad m' (s + 1) k' else strncpy_loop m' (s + 1) (t + 1) k'
  end.

Definition strncpy (m : mem) (s t n : Z) : mem := strncpy_loop m s t (Z.to_nat n).

(** [while(--n > 0 && ( *s++ = *t++) != 0); *s = 0;], with [n - 1 = k]. *)
Fixpoint safestrcpy_loop (m : mem) (s t : Z) (k : nat) : mem :=
  match k with
  | O => wr8 m s 0
  | S k' =>
      let c := rd8 m t in
      let m' := wr8 m s c in
      if c =? 0 then wr8 m' (s + 1) 0 else safestrcpy_loop m' (s + 1) (t + 1) k'
  end.

Definition safestrcpy (m : mem) (s t n : Z) : mem :=
  if n <=? 0 then m else safestrcpy_loop m s t (Z.to_nat (n - 1)).

Definition strlen (s : Z) : M mem Z :=
  while (fun n =>
    m ← get;
    if rd8 m (s + n) =? 0 then mret (inr n)
    else n' ← int_op (n + 1); mret (inl n')) 0.

(** *** The C string at [p], cut at [n] bytes: the abstract value the
    string functions compare and copy. *)
Fixpoint cstr (m : mem) (p : Z) (n : nat) : list Z :=
  match n with
  | O => []
  | S n' => if rd8 m p =? 0 then [] else rd8 m p :: cstr m (p + 1) n'
  end.

Arguments memset : simpl never.
Arguments memmove : simpl never.
Arguments strncpy : simpl never.
Arguments safestrcpy : simpl never.

(** *** What the loops write *)

Lemma rd8_memset_loop m dst c i k x :
  rd8 (memset_loop m dst c i k) x =
  if (dst + i <=? x) && (x <? dst + i + Z.of_nat k) then u8 c else rd8 m x.
Proof.
  revert m i. induction k as [|k IH]; intros m i; cbn [memset_loop].
  - destruct (Z.leb_spec (dst + i) x), (Z.ltb_spec x (dst + i + Z.of_nat 0)); simpl; try done; lia.
  - rewrite IH, rd8_wr8.
    destruct (Z.leb_spec (dst + (i + 1)) x), (Z.ltb_spec x (dst + (i + 1) + Z.of_nat k)),
      (Z.eqb_spec x (dst + i)), (Z.leb_spec (dst + i) x),
      (Z.ltb_spec x (dst + i + Z.of_nat (S k))); simpl; try lia; done.
Qed.

Lemma rd8_memset m dst c n x :
  0 <= n < 2 ^ 32 ->
  rd8 (memset m dst c n) x = if (dst <=? x) && (x <? dst + n) then u8 c else rd8 m x.
Proof.
  intros. unfold memset. rewrite rd8_memset_loop, u32_small by done.
  rewrite Z.add_0_r, Z2Nat.id by lia. done.
Qed.

Lemma rd8_memset_in m dst c n x : 0 <= n < 2 ^ 32 -> dst <= x < dst + n -> rd8 (memset m dst c n) x = u8 c.
Proof.
  intros Hn Hx. rewrite rd8_memset by done.
  destruct (Z.leb_spec dst x), (Z.ltb_spec x (dst + n)); try lia. done.
Qed.

Lemma rd8_memset_out m dst c n x : 0 <= n < 2 ^ 32 -> ~ (dst <= x < dst + n) -> rd8 (memset m dst c n) x = rd8 m x.
Proof.
  intros Hn Hx. rewrite rd8_memset by done.
  destruct (Z.leb_spec dst x), (Z.ltb_spec x (dst + n)); try lia; done.
Qed.

Lemma rd8_memmove_up m d s k x :
  d <= s \/ s + Z.of_nat k <= d ->
  rd8 (memmove_up m d s k) x =
  if (d <=? x) && (x <? d + Z.of_nat k) then rd8 m (s + (x - d)) else rd8 m x.
Proof.
  revert m d s. induction k as [|k IH]; intros m d s H; cbn [memmove_up].
  - destruct (Z.leb_spec d x), (Z.ltb_spec x (d + Z.of_nat 0)); simpl; try done; lia.
  - rewrite IH by lia. rewrite !rd8_wr8.
    destruct (Z.leb_spec (d + 1) x), (Z.ltb_spec x (d + 1 + Z.of_nat k)),
      (Z.eqb_spec x d), (Z.leb_spec d x), (Z.ltb_spec x (d + Z.of_nat (S k)));
      simpl; try lia; try done.
    + destruct (Z.eqb_spec (s + 1 + (x - (d + 1))) d); [lia|]. f_equal. lia.
    + subst. rewrite Z.sub_diag, Z.add_0_r. apply u8_u8.
Qed.

Lemma rd8_memmove_down m d s k x :
  s <= d ->
  rd8 (memmove_down m d s k) x =
  if (d - Z.of_nat k <=? x) && (x <? d) then rd8 m (s - (d - x)) else rd8 m x.
Proof.
  revert m d s. induction k as [|k IH]; intros m d s H; cbn [memmove_down].
  - destruct (Z.leb_spec (d - Z.of_nat 0) x), (Z.ltb_spec x d); simpl; try done; lia.
  - rewrite IH by lia. rewrite !rd8_wr8.
    destruct (Z.leb_spec (d - 1 - Z.of_nat k) x), (Z.ltb_spec x (d - 1)),
      (Z.eqb_spec x (d - 1)), (Z.leb_spec (d - Z.of_nat (S k)) x), (Z.ltb_spec x d);
      simpl; try lia; try done.
    + destruct (Z.eqb_spec (s - 1 - (d - 1 - x)) (d - 1)); [lia|]. f_equal. lia.
    + subst. replace (s - (d - (d - 1))) with (s - 1) by lia. apply u8_u8.
Qed.

(** Whatever the overlap, the destination gets the bytes the source had
    before the call, and no other byte changes. *)
Lemma rd8_memmove m dst src n x :
  0 <= n < 2 ^ 32 ->
  rd8 (memmove m dst src n) x =
  if (dst <=? x) && (x <? dst + n) then rd8 m (src + (x - dst)) else rd8 m x.
Proof.
  intros Hn. unfold memmove. rewrite u32_small by done.
  destruct (Z.eqb_spec n 0) as [->|].
  { destruct (Z.leb_spec dst x), (Z.ltb_spec x (dst + 0)); simpl; try done; lia. }
  destruct (Z.ltb_spec src dst), (Z.ltb_spec dst (src + n)); simpl;
    rewrite ?rd8_memmove_up, ?rd8_memmove_down by lia; rewrite Z2Nat.id by lia; try done.
  replace (dst + n - n) with dst by lia.
  replace (src + n - (dst + n - x)) with (src + (x - dst)) by lia. done.
Qed.

Lemma rdbytes_memmove m dst src n :
  0 <= n < 2 ^ 32 ->
  rdbytes (memmove m dst src n) dst (Z.to_nat n) = rdbytes m src (Z.to_nat n).
Proof.
  intros Hn. apply list_eq. intros i. destruct (decide (i < Z.to_nat n)%nat).
  - rewrite !rdbytes_lookup by done. rewrite rd8_memmove by done.
    destruct (Z.leb_spec dst (dst + Z.of_nat i)), (Z.ltb_spec (dst + Z.of_nat i) (dst + n));
      simpl; try lia.
    do 2 f_equal. lia.
  - rewrite !lookup_ge_None_2; [done|rewrite length_rdbytes; lia..].
Qed.

Lemma memcmp_loop_eq0 m s1 s2 k :
  memcmp_loop m s1 s2 k = 0 <-> rdbytes m s1 k = rdbytes m s2 k.
Proof.
  revert s1 s2. induction k as [|k IH]; intros s1 s2; cbn [memcmp_loop rdbytes]; [done|].
  destruct (Z.eqb_spec (rd8 m s1) (rd8 m s2)) as [E|E]; simpl.
  - rewrite IH. split; [by intros ->; rewrite E|by intros [=]].
  - split; [lia|by intros [=]].
Qed.

Lemma strncmp_loop_eq0 m p q k :
  strncmp_loop m p q k = 0 <-> cstr m p k = cstr m q k.
Proof.
  revert p q. induction k as [|k IH]; intros p q; cbn [strncmp_loop cstr]; [done|].
  destruct (Z.eqb_spec (rd8 m p) 0) as [Ep|Ep], (Z.eqb_spec (rd8 m p) (rd8 m q)) as [E|E],
    (Z.eqb_spec (rd8 m q) 0) as [Eq|Eq]; simpl; try lia.
  all: try (rewrite IH; split; [by intros ->; rewrite E|by intros [=]]).
  all: split; intros H; try lia; try done; by inversion H.
Qed.

Lemma cstr_ext m m' p n :
  (forall x, p <= x < p + Z.of_nat n -> rd8 m x = rd8 m' x) -> cstr m p n = cstr m' p n.
Proof.
  revert p. induction n as [|n IH]; intros p H; cbn [cstr]; [done|].
  rewrite <- (H p) by lia. case_if; [done|]. f_equal. apply IH. intros. apply H. lia.
Qed.

Lemma length_cstr m p n : (length (cstr m p n) <= n)%nat.
Proof. revert p. induction n; intros; simpl; [lia|]. case_if; simpl; [lia|]. specialize (IHn (p + 1)). lia. Qed.

Lemma cstr_nonzero m p n : Forall (fun b => b <> 0) (cstr m p n).
Proof. revert p. induction n; intros; simpl; [done|]. case_if; [done|]. zb. by constructor. Qed.

Lemma rd8_strncpy_pad m s k x :
  rd8 (strncpy_pad m s k) x = if (s <=? x) && (x <? s + Z.of_nat k) then 0 else rd8 m x.
Proof.
  revert m s. induction k as [|k IH]; intros m s; cbn [strncpy_pad].
  - destruct (Z.leb_spec s x), (Z.ltb_spec x (s + Z.of_nat 0)); simpl; try done; lia.
  - rewrite IH, rd8_wr8.
    destruct (Z.leb_spec (s + 1) x), (Z.ltb_spec x (s + 1 + Z.of_nat k)), (Z.eqb_spec x s),
      (Z.leb_spec s x), (Z.ltb_spec x (s + Z.of_nat (S k))); simpl; try lia; done.
Qed.

Lemma rd8_strncpy_loop m s t k x :
  s + Z.of_nat k <= t \/ t + Z.of_nat k <= s ->
  rd8 (strncpy_loop m s t k) x =
  if (s <=? x) && (x <? s + Z.of_nat k)
  then nth (Z.to_nat (x - s)) (cstr m t k) 0 else rd8 m x.
Proof.
  revert m s t. induction k as [|k IH]; intros m s t H; cbn [strncpy_loop cstr].
  - destruct (Z.leb_spec s x), (Z.ltb_spec x (s + Z.of_nat 0)); simpl; try done; lia.
  - destruct (Z.eqb_spec (rd8 m t) 0) as [E|E].
    + rewrite rd8_strncpy_pad, rd8_wr8, E.
      destruct (Z.leb_spec (s + 1) x), (Z.ltb_spec x (s + 1 + Z.of_nat k)), (Z.eqb_spec x s),
        (Z.leb_spec s x), (Z.ltb_spec x (s + Z.of_nat (S k))); simpl; try lia; try done;
        by destruct (Z.to_nat (x - s)).
    + rewrite IH by lia. rewrite rd8_wr8.
      rewrite (cstr_ext (wr8 m s (rd8 m t)) m).
      2:{ intros y Hy. rewrite rd8_wr8. destruct (Z.eqb_spec y s); [lia|done]. }
      destruct (Z.leb_spec (s + 1) x), (Z.ltb_spec x (s + 1 + Z.of_nat k)), (Z.eqb_spec x s),
        (Z.leb_spec s x), (Z.ltb_spec x (s + Z.of_nat (S k))); simpl; try lia; try done.
      * replace (Z.to_nat (x - s)) with (S (Z.to_nat (x - (s + 1)))) by lia. done.
      * subst. rewrite Z.sub_diag. simpl. apply u8_u8.
Qed.

Lemma rd8_safestrcpy_loop_out m s t k x :
  x < s \/ s + Z.of_nat k < x -> rd8 (safestrcpy_loop m s t k) x = rd8 m x.
Proof.
  revert m s t. induction k as [|k IH]; intros m s t H; cbn [safestrcpy_loop].
  - rewrite rd8_wr8. destruct (Z.eqb_spec x s); [lia|done].
  - case_if.
    + rewrite !rd8_wr8.
      destruct (Z.eqb_spec x (s + 1)), (Z.eqb_spec x s); try lia; done.
    + rewrite IH by lia. rewrite rd8_wr8. destruct (Z.eqb_spec x s); [lia|done].
Qed.

Lemma cstr_safestrcpy_loop m s t k :
  s + Z.of_nat k < t \/ t + Z.of_nat k <= s ->
  cstr (safestrcpy_loop m s t k) s (S k) = cstr m t k.
Proof.
  revert m s t. induction k as [|k IH]; intros m s t H; cbn [safestrcpy_loop].
  - cbn [cstr]. rewrite rd8_wr8, Z.eqb_refl. done.
  - cbn [cstr]. destruct (Z.eqb_spec (rd8 m t) 0) as [E|E].
    + rewrite E, rd8_wr8.
      destruct (Z.eqb_spec s (s + 1)); [lia|]. by rewrite rd8_wr8, Z.eqb_refl.
    + rewrite rd8_safestrcpy_loop_out by lia. rewrite rd8_wr8, Z.eqb_refl.
      unfold rd8 at 1. rewrite u8_u8. change (u8 (default 0 (m !! t))) with (rd8 m t).
      destruct (Z.eqb_spec (rd8 m t) 0); [done|]. f_equal; [apply u8_u8|].
      specialize (IH (wr8 m s (rd8 m t)) (s + 1) (t + 1) ltac:(lia)).
      cbn [cstr] in IH. rewrite IH. apply cstr_ext.
      intros y Hy. rewrite rd8_wr8. destruct (Z.eqb_spec y s); [lia|done].
Qed.

(** The string [strncpy] leaves at [s]: padded with zeroes up to [k]. *)
Lemma cstr_padded m s k l :
  (length l <= k)%nat -> Forall (fun b => b <> 0) l ->
  (forall i, (i < k)%nat -> rd8 m (s + Z.of_nat i) = nth i l 0) -> cstr m s k = l.
Proof.
  revert s l. induction k as [|k IH]; intros s l Hl Hz Hm; [by destruct l; [|cbn in Hl; lia]|].
  cbn [cstr]. pose proof (Hm 0%nat ltac:(lia)) as H0. rewrite Z.add_0_r in H0. rewrite H0.
  destruct l as [|b l]; cbn [nth]; [done|]. apply Forall_cons in Hz as [Hb Hz].
  destruct (Z.eqb_spec b 0); [done|]. f_equal. apply IH; [cbn in Hl; lia|done|].
  intros i Hi. specialize (Hm (S i) ltac:(lia)). cbn [nth] in Hm. rewrite <- Hm. f_equal. lia.
Qed.

(** C32: [memmove] on any two buffers, overlapping or not: the destination
    gets the bytes the source had before the call, and no other byte of
    memory changes. *)
Theorem memmove_overlap m dst src n :
  0 <= n < 2 ^ 32 ->
  rdbytes (memmove m dst src n) dst (Z.to_nat n) = rdbytes m src (Z.to_nat n) /\
  forall x, ~ (dst <= x < dst + n) -> rd8 (memmove m dst src n) x = rd8 m x.
Proof.
  intros Hn. split; [by apply rdbytes_memmove|]. intros x Hx. rewrite rd8_memmove by done.
  destruct (Z.leb_spec dst x), (Z.ltb_spec x (dst + n)); cbn; try done; lia.
Qed.

(** C33: a name stored with [strncpy] is found again by [strncmp], with or
    without room for the terminator: after [strncpy(s, t, n)] on disjoint
    buffers, [strncmp] of any [q] elsewhere against [s] is 0 exactly when [q]
    and the copied string [t] are the same string up to [n] bytes. *)
Theorem strncpy_strncmp m s t q n :
  0 <= n <= INT_MAX -> (s + n <= t \/ t + n <= s) -> (s + n <= q \/ q + n <= s) ->
  strncmp (strncpy m s t n) q s n = 0 <-> cstr m q (Z.to_nat n) = cstr m t (Z.to_nat n).
Proof.
  intros Hn Ht Hq. unfold strncmp, strncpy. rewrite u32_small by (unfold INT_MAX in *; lia).
  rewrite strncmp_loop_eq0. set (k := Z.to_nat n) in *.
  assert (forall x, rd8 (strncpy_loop m s t k) x = if (s <=? x) && (x <? s + Z.of_nat k)
    then nth (Z.to_nat (x - s)) (cstr m t k) 0 else rd8 m x) as E by (intros x; apply rd8_strncpy_loop; lia).
  rewrite (cstr_padded _ s k (cstr m t k)); [|apply length_cstr|apply cstr_nonzero|].
  - rewrite (cstr_ext _ m); [done|]. intros x Hx. rewrite E.
    destruct (Z.leb_spec s x), (Z.ltb_spec x (s + Z.of_nat k)); cbn; try done; lia.
  - intros i Hi. rewrite E.
    destruct (Z.leb_spec s (s + Z.of_nat i)), (Z.ltb_spec (s + Z.of_nat i) (s + Z.of_nat k)); cbn; try lia.
    f_equal. lia.
Qed.

Lemma memmove_overlap_witness :
  rdbytes (memmove (wrbytes ∅ 10 [1; 2; 3; 4]) 11 10 3) 11 3 = [1; 2; 3].
Proof. exact (proj1 (memmove_overlap (wrbytes ∅ 10 [1; 2; 3; 4]) 11 10 3 ltac:(lia))). Defined.

Lemma strncpy_strncmp_witness :
  strncmp (strncpy (wrbytes (wrbytes ∅ 100 [97; 98; 0]) 200 [97; 98; 0]) 300 100 14) 200 300 14 = 0.
Proof.
  exact (proj2 (strncpy_strncmp (wrbytes (wrbytes ∅ 100 [97; 98; 0]) 200 [97; 98; 0]) 300 100 200 14
    ltac:(done) ltac:(lia) ltac:(lia)) ltac:(reflexivity)).
Defined.

Lemma wp_strlen m s n (k : nat) (Q : Z -> mem -> Prop) :
  (k < n)%nat -> length (cstr m s n) = k -> Z.of_nat k <= INT_MAX ->
  Q (Z.of_nat k) m -> wp (strlen s) Q m.
Proof.
  intros Hk Hlen Hmax HQ. unfold strlen.
  apply (wp_while (fun i m' => m' = m /\ 0 <= i <= Z.of_nat k /\
     length (cstr m (s + i) (n - Z.to_nat i)) = (k - Z.to_nat i)%nat)
     (fun i => (k - Z.to_nat i)%nat)).
  2:{ rewrite Z.add_0_r, Nat.sub_0_r. repeat split; [lia..|]. by rewrite Nat.sub_0_r. }
  2:{ unfold INT_MAX in Hmax. change (Z.pos FUEL) with (2 ^ 64). lia. }
  intros i m' (-> & Hi & Hl). wp_steps.
  destruct (n - Z.to_nat i)%nat as [|r] eqn:Hr; [lia|]. cbn [cstr] in Hl.
  case_if.
  - wp_steps. simpl in Hl. by replace i with (Z.of_nat k) by lia.
  - wp_steps. simpl in Hl. unfold INT_MAX, INT_MIN in *.
    split; [lia|]. wp_steps. repeat split; try lia.
    replace (n - Z.to_nat (i + 1))%nat with r by lia.
    replace (s + (i + 1)) with (s + i + 1) by lia. lia.
Qed.

End CString.

(** The proofs of the other files use the lemmas above, never the loops. *)
#[global] Opaque CString.memset CString.memmove CString.strncpy CString.safestrcpy
  CString.strlen load64 store64.
