(* ===== verification/Riscv.v ===== *)
(** * Riscv: page and page-table-entry arithmetic, physical and virtual layout

    The macros of [kernel/riscv.h] (pages, Sv39 page-table entries and
    indices) and of [kernel/memlayout.h] (device and memory addresses), with
    the lemmas on their bits that the page-table code relies on. *)

From stdpp Require Import base list gmap.
From Stdlib Require Import ZArith Lia.
From S2P Require Import Prelude.

(** ** [kernel/riscv.h] *)

Definition PGSIZE : Z := 4096.
Definition PGSHIFT : Z := 12.

Definition PGROUNDUP (sz : Z) : Z := Z.land (u64 (sz + PGSIZE - 1)) (Z.lnot (PGSIZE - 1)).
Definition PGROUNDDOWN (a : Z) : Z := Z.land a (Z.lnot (PGSIZE - 1)).

Definition PTE_V : Z := Z.shiftl 1 0.
Definition PTE_R : Z := Z.shiftl 1 1.
Definition PTE_W : Z := Z.shiftl 1 2.
Definition PTE_X : Z := Z.shiftl 1 3.
Definition PTE_U : Z := Z.shiftl 1 4.
Definition PTE_COW : Z := Z.shiftl 1 8.

Definition PA2PTE (pa : Z) : Z := u64 (Z.shiftl (Z.shiftr pa 12) 10).
Definition PTE2PA (pte : Z) : Z := u64 (Z.shiftl (Z.shiftr pte 10) 12).
Definition PTE_FLAGS (pte : Z) : Z := Z.land pte 0x3FF.

Definition PXMASK : Z := 0x1FF.
Definition PXSHIFT (level : Z) : Z := PGSHIFT + 9 * level.
Definition PX (level va : Z) : Z := Z.land (Z.shiftr va (PXSHIFT level)) PXMASK.

Definition MAXVA : Z := Z.shiftl 1 (9 + 9 + 9 + 12 - 1).

Definition SATP_SV39 : Z := Z.shiftl 8 60.
Definition MAKE_SATP (pagetable : Z) : Z := Z.lor SATP_SV39 (Z.shiftr pagetable 12).

Definition SSTATUS_SPP : Z := Z.shiftl 1 8.
Definition SSTATUS_SPIE : Z := Z.shiftl 1 5.
Definition SSTATUS_SIE : Z := Z.shiftl 1 1.

(** ** [kernel/memlayout.h] *)

Definition UART0 : Z := 0x10000000.
Definition UART0_IRQ : Z := 10.
Definition VIRTIO0 : Z := 0x10001000.
Definition VIRTIO0_IRQ : Z := 1.
Definition PLIC : Z := 0x0c000000.
Definition KERNBASE : Z := 0x80000000.
Definition PHYSTOP : Z := KERNBASE + 128 * 1024 * 1024.
Definition TRAMPOLINE : Z := MAXVA - PGSIZE.
Definition KSTACK (p : Z) : Z := TRAMPOLINE - (p + 1) * 2 * PGSIZE.
Definition TRAPFRAME : Z := TRAMPOLINE - PGSIZE.

(** ** Addresses that the linker fixes ([kernel/kernel.ld]): the end of the
    kernel's text, the first address after the kernel, and the trampoline
    page. *)
Class Layout := {
  etext : Z;
  kend : Z;
  trampoline : Z;
}.

(** What [kernel.ld] guarantees: the kernel is loaded at [KERNBASE], text
    first, and [etext] and the trampoline are page-aligned. *)
Class LayoutOk (L : Layout) := {
  etext_lo : KERNBASE < etext;
  etext_aligned : etext mod PGSIZE = 0;
  kend_lo : etext <= kend;
  kend_hi : kend <= PHYSTOP;
  trampoline_lo : KERNBASE <= trampoline;
  trampoline_hi : trampoline < etext;
  trampoline_aligned : trampoline mod PGSIZE = 0;
}.

(** ** Bit tests

    [pte & f] as a C condition. *)
Definition has (x f : Z) : bool := negb (Z.land x f =? 0).

Lemma has_testbit x k : 0 <= k -> has x (Z.shiftl 1 k) = Z.testbit x k.
Proof.
  intros Hk. unfold has. rewrite Z.shiftl_1_l.
  assert (forall n, Z.testbit (Z.land x (2 ^ k)) n = Z.testbit x k && (k =? n)) as Hb.
  { intros n. rewrite Z.land_spec, Z.pow2_bits_eqb by done.
    destruct (Z.eqb_spec k n) as [->|]; [done|by rewrite !andb_false_r]. }
  destruct (Z.eqb_spec (Z.land x (2 ^ k)) 0) as [E|E].
  - specialize (Hb k). rewrite E, Z.bits_0, Z.eqb_refl, andb_true_r in Hb. done.
  - destruct (Z.testbit x k) eqn:Ex; [done|]. exfalso. apply E.
    apply Z.bits_inj'. intros n _. by rewrite Hb, Z.bits_0.
Qed.

(** The flags tested and set by the page-table code, as bit numbers. *)
Lemma has_V x : has x PTE_V = Z.testbit x 0.
Proof. by apply has_testbit. Qed.
Lemma has_W x : has x PTE_W = Z.testbit x 2.
Proof. by apply has_testbit. Qed.
Lemma has_U x : has x PTE_U = Z.testbit x 4.
Proof. by apply has_testbit. Qed.
Lemma has_COW x : has x PTE_COW = Z.testbit x 8.
Proof. by apply has_testbit. Qed.

(** ** Page rounding *)

Lemma PGROUNDDOWN_eq a : PGROUNDDOWN a = PGSIZE * (a / PGSIZE).
Proof.
  unfold PGROUNDDOWN, PGSIZE. change (4096 - 1) with (Z.ones 12).
  rewrite <- Z.ldiff_land, Z.ldiff_ones_r, Z.shiftl_mul_pow2, Z.shiftr_div_pow2 by lia.
  change (2 ^ 12) with 4096. lia.
Qed.

Lemma PGROUNDDOWN_bounds a : PGROUNDDOWN a <= a < PGROUNDDOWN a + PGSIZE.
Proof. rewrite PGROUNDDOWN_eq. unfold PGSIZE. Z.div_mod_to_equations. lia. Qed.

Lemma PGROUNDDOWN_aligned a : PGROUNDDOWN a mod PGSIZE = 0.
Proof. rewrite PGROUNDDOWN_eq, Z.mul_comm. apply Z.mod_mul. done. Qed.

Lemma PGROUNDDOWN_id a : a mod PGSIZE = 0 -> PGROUNDDOWN a = a.
Proof. rewrite PGROUNDDOWN_eq. unfold PGSIZE. intros. Z.div_mod_to_equations. lia. Qed.

Lemma PGROUNDUP_eq sz :
  0 <= sz -> sz + PGSIZE - 1 < 2 ^ 64 -> PGROUNDUP sz = PGSIZE * ((sz + PGSIZE - 1) / PGSIZE).
Proof.
  intros ? H. unfold PGROUNDUP. rewrite u64_small by (unfold PGSIZE in *; lia).
  apply PGROUNDDOWN_eq.
Qed.

Lemma PGROUNDUP_bounds sz :
  0 <= sz -> sz + PGSIZE - 1 < 2 ^ 64 -> sz <= PGROUNDUP sz < sz + PGSIZE.
Proof.
  intros. rewrite PGROUNDUP_eq by done. unfold PGSIZE. Z.div_mod_to_equations. lia.
Qed.

Lemma PGROUNDUP_aligned sz : PGROUNDUP sz mod PGSIZE = 0.
Proof. apply (PGROUNDDOWN_aligned (u64 (sz + PGSIZE - 1))). Qed.

Lemma PGROUNDUP_id sz : 0 <= sz -> sz + PGSIZE - 1 < 2 ^ 64 -> sz mod PGSIZE = 0 -> PGROUNDUP sz = sz.
Proof.
  intros. rewrite PGROUNDUP_eq by done. unfold PGSIZE in *. Z.div_mod_to_equations. lia.
Qed.

(** ** Page-table entries *)

(** Physical page addresses a PTE can hold: page-aligned, 56 bits. *)
Definition page_addr (pa : Z) : Prop := 0 <= pa < 2 ^ 56 /\ pa mod PGSIZE = 0.

Lemma PA2PTE_eq pa : page_addr pa -> PA2PTE pa = pa / 4.
Proof.
  unfold page_addr, PGSIZE, PA2PTE. intros [H Ha].
  rewrite Z.shiftl_mul_pow2, Z.shiftr_div_pow2 by lia.
  change (2 ^ 12) with 4096. change (2 ^ 10) with 1024.
  rewrite u64_small; Z.div_mod_to_equations; lia.
Qed.

Lemma PA2PTE_low pa k : 0 <= k < 10 -> Z.testbit (PA2PTE pa) k = false.
Proof.
  intros. unfold PA2PTE, u64. rewrite Z.mod_pow2_bits_low by lia.
  apply Z.shiftl_spec_low. lia.
Qed.

(** Physical address and flags both survive the encoding. *)
Lemma PTE2PA_PA2PTE pa flags :
  page_addr pa -> 0 <= flags < 1024 -> PTE2PA (Z.lor (PA2PTE pa) flags) = pa.
Proof.
  intros Hpa Hf. unfold PTE2PA. rewrite Z.shiftr_lor.
  rewrite (Z.shiftr_div_pow2 flags), (Z.div_small flags) by (try lia; done).
  rewrite Z.lor_0_r, PA2PTE_eq by done. unfold page_addr, PGSIZE in Hpa.
  rewrite Z.shiftl_mul_pow2, Z.shiftr_div_pow2 by lia.
  change (2 ^ 12) with 4096. change (2 ^ 10) with 1024.
  rewrite u64_small; Z.div_mod_to_equations; lia.
Qed.

Lemma PTE_FLAGS_PA2PTE pa flags :
  0 <= flags < 1024 -> PTE_FLAGS (Z.lor (PA2PTE pa) flags) = flags.
Proof.
  intros Hf. unfold PTE_FLAGS. change 0x3FF with (Z.ones 10).
  apply Z.bits_inj'. intros n Hn. rewrite Z.land_spec, Z.lor_spec.
  destruct (Z.lt_ge_cases n 10).
  - rewrite PA2PTE_low, Z.ones_spec_low by lia. by rewrite andb_true_r.
  - rewrite Z.ones_spec_high by lia. rewrite andb_false_r.
    symmetry. destruct (decide (flags = 0)) as [->|]; [apply Z.bits_0|].
    apply Z.bits_above_log2; [lia|]. apply Z.log2_lt_pow2; [lia|].
    apply Z.lt_le_trans with (2 ^ 10); [lia|]. apply Z.pow_le_mono_r; lia.
Qed.

Lemma PTE_range pa flags :
  page_addr pa -> 0 <= flags < 1024 -> 0 <= Z.lor (PA2PTE pa) flags < 2 ^ 64.
Proof.
  intros Hpa Hf. rewrite PA2PTE_eq by done. unfold page_addr, PGSIZE in Hpa.
  split; [apply Z.lor_nonneg; split; [apply Z.div_pos|]; lia|].
  destruct (decide (Z.lor (pa / 4) flags = 0)) as [->|]; [done|].
  apply Z.log2_lt_cancel. rewrite Z.log2_lor by (try apply Z.div_pos; lia).
  change (Z.log2 (2 ^ 64)) with 64.
  assert (pa / 4 < 2 ^ 54) by (Z.div_mod_to_equations; lia).
  assert (forall x w, 0 <= x < 2 ^ w -> 0 < w -> Z.log2 x < w) as Hl.
  { intros x w Hx Hn0. destruct (decide (x = 0)) as [->|]; [done|]. apply Z.log2_lt_pow2; lia. }
  pose proof (Hl (pa / 4) 54 ltac:(split; [apply Z.div_pos; lia|done]) ltac:(lia)).
  pose proof (Hl flags 10 ltac:(lia) ltac:(lia)). lia.
Qed.

Lemma flags_lor a b : 0 <= a < 1024 -> 0 <= b < 1024 -> 0 <= Z.lor a b < 1024.
Proof.
  intros Ha Hb. split; [apply Z.lor_nonneg; lia|].
  destruct (decide (Z.lor a b = 0)) as [->|]; [done|].
  assert (forall x, 0 <= x < 1024 -> Z.log2 x < 10) as Hl.
  { intros x Hx. destruct (decide (x = 0)) as [->|]; [done|]. apply Z.log2_lt_pow2; lia. }
  apply Z.log2_lt_cancel. rewrite Z.log2_lor by lia. change (Z.log2 1024) with 10.
  pose proof (Hl a Ha). pose proof (Hl b Hb). lia.
Qed.

Lemma PTE_flag_bit pa flags k :
  0 <= k < 10 -> Z.testbit (Z.lor (PA2PTE pa) flags) k = Z.testbit flags k.
Proof. intros. rewrite Z.lor_spec, PA2PTE_low by done. done. Qed.

Lemma PTE2PA_page pte : page_addr (PTE2PA pte mod 2 ^ 56).
Proof.
  unfold page_addr. split; [apply Z.mod_pos_bound; lia|].
  unfold PTE2PA, u64, PGSIZE. rewrite Z.shiftl_mul_pow2 by lia.
  change (2 ^ 12) with 4096. Z.div_mod_to_equations. lia.
Qed.

Lemma PTE2PA_aligned pte : PTE2PA pte mod PGSIZE = 0.
Proof.
  unfold PTE2PA, u64, PGSIZE. rewrite Z.shiftl_mul_pow2 by lia.
  change (2 ^ 12) with 4096. Z.div_mod_to_equations. lia.
Qed.

Lemma PTE2PA_bits x y : (forall k, 10 <= k -> Z.testbit x k = Z.testbit y k) -> PTE2PA x = PTE2PA y.
Proof.
  intros H. unfold PTE2PA. do 2 f_equal. apply Z.bits_inj'. intros n Hn.
  rewrite !Z.shiftr_spec by done. apply H. lia.
Qed.

Lemma PTE_FLAGS_bit x k : 0 <= k < 10 -> Z.testbit (PTE_FLAGS x) k = Z.testbit x k.
Proof.
  intros. unfold PTE_FLAGS. change 0x3FF with (Z.ones 10). rewrite Z.land_spec, Z.ones_spec_low by lia.
  apply andb_true_r.
Qed.

Lemma PTE_FLAGS_range x : 0 <= PTE_FLAGS x < 1024.
Proof. unfold PTE_FLAGS. change 0x3FF with (Z.ones 10). rewrite Z.land_ones by lia. apply Z.mod_pos_bound. lia. Qed.

Lemma bits_high v n : 0 <= v < 2 ^ 64 -> 64 <= n -> Z.testbit v n = false.
Proof.
  intros Hv Hn. destruct (decide (v = 0)) as [->|]; [apply Z.bits_0|]. apply Z.bits_above_log2; [lia|].
  apply Z.lt_le_trans with 64; [|lia]. apply Z.log2_lt_pow2; lia.
Qed.

Lemma range_bits x : (forall n, 64 <= n -> Z.testbit x n = false) -> 0 <= x < 2 ^ 64.
Proof.
  intros H. replace x with (x mod 2 ^ 64); [apply Z.mod_pos_bound; lia|].
  apply Z.bits_inj'. intros n Hn. destruct (Z.lt_ge_cases n 64).
  - by rewrite Z.mod_pow2_bits_low.
  - rewrite Z.mod_pow2_bits_high by lia. by rewrite H.
Qed.

Lemma land_range v m : 0 <= v < 2 ^ 64 -> 0 <= Z.land v m < 2 ^ 64.
Proof. intros Hv. apply range_bits. intros n Hn. by rewrite Z.land_spec, (bits_high v). Qed.

(** The entry [uvmcopy] leaves behind: not writable, marked. *)
Definition cow_mark (v : Z) : Z := Z.lor (Z.land v (Z.lnot PTE_W)) PTE_COW.

Lemma cow_mark_bit v k : 0 <= k -> Z.testbit (cow_mark v) k =
  if k =? 2 then false else if k =? 8 then true else Z.testbit v k.
Proof.
  intros Hk. unfold cow_mark. rewrite Z.lor_spec, Z.land_spec, Z.lnot_spec by done.
  change PTE_W with (2 ^ 2). change PTE_COW with (2 ^ 8). rewrite !Z.pow2_bits_eqb by lia.
  destruct (Z.eqb_spec 2 k), (Z.eqb_spec 8 k), (Z.eqb_spec k 2), (Z.eqb_spec k 8); try lia;
    cbn; rewrite ?andb_false_r, ?andb_true_r, ?orb_true_r, ?orb_false_r; done.
Qed.

Lemma cow_mark_spec v : 0 <= v < 2 ^ 64 ->
  0 <= cow_mark v < 2 ^ 64 /\ PTE2PA (cow_mark v) = PTE2PA v /\ has (cow_mark v) PTE_V = has v PTE_V /\
  has (cow_mark v) PTE_U = has v PTE_U /\ has (cow_mark v) PTE_COW = true /\ has (cow_mark v) PTE_W = false.
Proof.
  intros Hv. split.
  { apply range_bits. intros n Hn. rewrite cow_mark_bit by lia.
    destruct (Z.eqb_spec n 2), (Z.eqb_spec n 8); try lia. by apply bits_high. }
  split_and!.
  - apply PTE2PA_bits. intros k Hk. rewrite cow_mark_bit by lia.
    destruct (Z.eqb_spec k 2), (Z.eqb_spec k 8); try lia; done.
  - by rewrite !has_V, cow_mark_bit.
  - by rewrite !has_U, cow_mark_bit.
  - by rewrite has_COW, cow_mark_bit.
  - by rewrite has_W, cow_mark_bit.
Qed.

(** ** Sv39 indices *)

Lemma PX_eq level va : 0 <= level -> PX level va = (va / 2 ^ (12 + 9 * level)) mod 512.
Proof.
  intros. unfold PX, PXMASK, PXSHIFT, PGSHIFT. change 0x1FF with (Z.ones 9).
  rewrite Z.land_ones, Z.shiftr_div_pow2 by lia. done.
Qed.

Lemma PX_range level va : 0 <= level -> 0 <= PX level va < 512.
Proof. intros. rewrite PX_eq by done. apply Z.mod_pos_bound. lia. Qed.

(** The three indices and the offset are the whole address. *)
Lemma PX_split va :
  0 <= va < MAXVA ->
  va = PX 2 va * 2 ^ 30 + PX 1 va * 2 ^ 21 + PX 0 va * 2 ^ 12 + va mod PGSIZE.
Proof.
  intros H. change MAXVA with (2 ^ 38) in H. rewrite !PX_eq by lia.
  change (12 + 9 * 2) with 30. change (12 + 9 * 1) with 21. change (12 + 9 * 0) with 12.
  unfold PGSIZE. Z.div_mod_to_equations. lia.
Qed.

Lemma PX2_range va : 0 <= va < MAXVA -> PX 2 va < 256.
Proof.
  intros H. change MAXVA with (2 ^ 38) in H. rewrite PX_eq by lia. change (12 + 9 * 2) with 30.
  Z.div_mod_to_equations. lia.
Qed.

(** The page address with given indices. *)
Lemma PX_make i j k :
  0 <= i < 256 -> 0 <= j < 512 -> 0 <= k < 512 ->
  let va := i * 2 ^ 30 + j * 2 ^ 21 + k * 2 ^ 12 in
  0 <= va < MAXVA /\ va mod PGSIZE = 0 /\ PX 2 va = i /\ PX 1 va = j /\ PX 0 va = k.
Proof.
  intros Hi Hj Hk va. change MAXVA with (2 ^ 38). rewrite !PX_eq by lia.
  change (12 + 9 * 2) with 30. change (12 + 9 * 1) with 21. change (12 + 9 * 0) with 12.
  unfold va, PGSIZE. repeat split; try lia; Z.div_mod_to_equations; lia.
Qed.

(** Two addresses with the same indices are on the same page. *)
Lemma PX_inj va vb :
  0 <= va < MAXVA -> 0 <= vb < MAXVA ->
  PX 2 va = PX 2 vb -> PX 1 va = PX 1 vb -> PX 0 va = PX 0 vb ->
  PGROUNDDOWN va = PGROUNDDOWN vb.
Proof.
  intros Ha Hb H2 H1 H0. rewrite !PGROUNDDOWN_eq.
  apply PX_split in Ha. apply PX_split in Hb.
  rewrite H2, H1, H0 in Ha. unfold PGSIZE in *. Z.div_mod_to_equations. lia.
Qed.

Lemma PX_same_page level va vb :
  0 <= level -> PGROUNDDOWN va = PGROUNDDOWN vb -> PX level va = PX level vb.
Proof.
  intros Hl H. rewrite !PX_eq by done. rewrite !PGROUNDDOWN_eq in H.
  unfold PGSIZE in H. f_equal.
  rewrite Z.pow_add_r by lia. rewrite <- !Z.div_div by lia.
  change (2 ^ 12) with 4096. f_equal. lia.
Qed.

#[global] Opaque PGROUNDUP PGROUNDDOWN PA2PTE PTE2PA PX.

(** ** A small layout

    Sixteen pages of free memory: the concrete machine of the witnesses. *)
Module Tiny.

#[export] Instance layout : Layout := {
  etext := KERNBASE + 2 * PGSIZE;
  kend := PHYSTOP - 16 * PGSIZE;
  trampoline := KERNBASE;
}.

#[export] Instance layout_ok : LayoutOk layout.
Proof. by split; vm_compute. Qed.

Definition page (k : Z) : Z := PHYSTOP - (16 - k) * PGSIZE.

End Tiny.
