(* ===== verification/Spinlock.v ===== *)
(** * Spinlock: [kernel/spinlock.c]

    [Module Spinlock] has the locks as the code has them: [push_off] and
    [pop_off] with their nesting count, the atomic swap, the [cpu] field that
    [holding] looks at.  Its operations are also run one memory access at a
    time by any number of CPUs ([step]); rule induction over that relation
    gives mutual exclusion and the interrupt discipline.

    [Module SeqLock] is the view a single thread has of a lock, used by the
    other components: taking a lock the thread holds already, or releasing
    one it does not hold, is the [panic] of the code, and between [acquire]
    and [release] nobody else touches the protected state. *)

From stdpp Require Import base list gmap strings functions.
From Stdlib Require Import ZArith Lia.
From S2P Require Import Prelude.

Module Spinlock.

(** The per-CPU state the lock code uses: [sstatus.SIE] and two fields of
    [struct cpu] ([kernel/proc.h]). *)
Record cpu := mkCpu {
  sie : bool;       (* interrupts enabled? *)
  noff : Z;         (* depth of push_off() nesting *)
  intena : bool;    (* were interrupts enabled before push_off()? *)
}.
#[export] Instance cpu_settable : Settable cpu :=
  {| mk_eta := fun c => mkCpu (sie c) (noff c) (intena c) |}.

(** [struct spinlock]; [lk_cpu] is the CPU holding the lock, if any. *)
Record spinlock := mkLock {
  locked : Z;
  lk_cpu : option nat;
}.
#[export] Instance spinlock_settable : Settable spinlock :=
  {| mk_eta := fun l => mkLock (locked l) (lk_cpu l) |}.

(** The machine: the CPUs by hart id, the locks by address. *)
Record mach := mkMach {
  cpus : nat -> cpu;
  locks : Z -> spinlock;
}.
#[export] Instance mach_settable : Settable mach :=
  {| mk_eta := fun m => mkMach (cpus m) (locks m) |}.

Definition upd_cpu (c : nat) (f : cpu -> cpu) : M mach unit :=
  modify (fun m => m <| cpus ::= fun cs => <[c := f (cs c)]> cs |>).
Definition upd_lock (lk : Z) (f : spinlock -> spinlock) : M mach unit :=
  modify (fun m => m <| locks ::= fun ls => <[lk := f (ls lk)]> ls |>).

(** [kernel/riscv.h]: the interrupt-enable bit of this CPU. *)
Definition intr_get (c : nat) : M mach bool := gets (fun m => sie (cpus m c)).
Definition intr_on (c : nat) : M mach unit := upd_cpu c (fun x => x <| sie := true |>).
Definition intr_off (c : nat) : M mach unit := upd_cpu c (fun x => x <| sie := false |>).

Definition initlock (lk : Z) : M mach unit :=
  upd_lock lk (fun l => l <| locked := 0 |> <| lk_cpu := None |>).

Definition push_off (c : nat) : M mach unit :=
  old ← intr_get c;
  intr_off c;;
  m ← get;
  when (noff (cpus m c) =? 0) (upd_cpu c (fun x => x <| intena := old |>));;
  upd_cpu c (fun x => x <| noff := noff x + 1 |>).

Definition pop_off (c : nat) : M mach unit :=
  i ← intr_get c;
  if (i : bool) then panic "pop_off - interruptible" else
  m ← get;
  if noff (cpus m c) <? 1 then panic "pop_off" else
  upd_cpu c (fun x => x <| noff := noff x - 1 |>);;
  m ← get;
  when ((noff (cpus m c) =? 0) && intena (cpus m c)) (intr_on c).

Definition holding (c : nat) (lk : Z) : M mach bool :=
  gets (fun m => negb (locked (locks m lk) =? 0) && bool_decide (lk_cpu (locks m lk) = Some c)).

(** [acquire], up to the spin loop. *)
Definition acquire_begin (c : nat) (lk : Z) : M mach unit :=
  push_off c;;
  h ← holding c lk;
  if (h : bool) then panic "acquire" else mret tt.

(** [__sync_lock_test_and_set(&lk->locked, 1)]: the old value. *)
Definition test_and_set (lk : Z) : M mach Z :=
  old ← gets (fun m => locked (locks m lk));
  upd_lock lk (fun l => l <| locked := 1 |>);;
  mret old.

(** [lk->cpu = mycpu();] *)
Definition acquire_end (c : nat) (lk : Z) : M mach unit :=
  upd_lock lk (fun l => l <| lk_cpu := Some c |>).

Definition acquire (c : nat) (lk : Z) : M mach unit :=
  acquire_begin c lk;;
  while (fun _ : unit =>
    old ← test_and_set lk;
    if old =? 0 then mret (inr tt) else mret (inl tt)) tt;;
  acquire_end c lk.

(** [release], up to clearing [lk->cpu]. *)
Definition release_begin (c : nat) (lk : Z) : M mach unit :=
  h ← holding c lk;
  if (h : bool) then upd_lock lk (fun l => l <| lk_cpu := None |>) else panic "release".

(** [__sync_lock_release(&lk->locked)] *)
Definition release_store (lk : Z) : M mach unit :=
  upd_lock lk (fun l => l <| locked := 0 |>).

Definition release (c : nat) (lk : Z) : M mach unit :=
  release_begin c lk;;
  release_store lk;;
  pop_off c.

(** ** CPUs running lock code concurrently

    Where a CPU is in [acquire] or [release] of a lock: spinning, past the
    swap, past clearing [lk->cpu], or before [pop_off].  What comes before
    the swap in [acquire] ([push_off] and [holding]) is one step, and so are
    [holding] and the clearing of [lk->cpu] in [release]; the swap, the store
    to [lk->cpu] after it and the store that frees the lock are steps of their
    own. *)
Inductive ploc := Idle | Spin (lk : Z) | Got (lk : Z) | Clr (lk : Z) | Rel.

(** The control state of a CPU: its location, the locks it has acquired and
    not yet released, and the [push_off]s it called by itself. *)
Record thr := mkThr { loc : ploc; held : list Z; depth : nat }.

Definition sys : Type := mach * (nat -> thr).

Inductive step : sys -> sys -> Prop :=
| step_acquire c lk m m' ts h d :
    ts c = mkThr Idle h d -> acquire_begin c lk m = Ok tt m' ->
    step (m, ts) (m', <[c := mkThr (Spin lk) h d]> ts)
| step_spin c lk m m' ts h d v :
    ts c = mkThr (Spin lk) h d -> test_and_set lk m = Ok v m' -> v <> 0 ->
    step (m, ts) (m', ts)
| step_swap c lk m m' ts h d :
    ts c = mkThr (Spin lk) h d -> test_and_set lk m = Ok 0 m' ->
    step (m, ts) (m', <[c := mkThr (Got lk) h d]> ts)
| step_own c lk m m' ts h d :
    ts c = mkThr (Got lk) h d -> acquire_end c lk m = Ok tt m' ->
    step (m, ts) (m', <[c := mkThr Idle (lk :: h) d]> ts)
| step_clear c lk m m' ts h d :
    ts c = mkThr Idle h d -> lk ∈ h -> release_begin c lk m = Ok tt m' ->
    step (m, ts) (m', <[c := mkThr (Clr lk) h d]> ts)
| step_store c lk m m' ts h d :
    ts c = mkThr (Clr lk) h d -> release_store lk m = Ok tt m' ->
    step (m, ts) (m', <[c := mkThr Rel (filter (fun l => l <> lk) h) d]> ts)
| step_released c m m' ts h d :
    ts c = mkThr Rel h d -> pop_off c m = Ok tt m' ->
    step (m, ts) (m', <[c := mkThr Idle h d]> ts)
| step_push c m m' ts h d :
    ts c = mkThr Idle h d -> push_off c m = Ok tt m' ->
    step (m, ts) (m', <[c := mkThr Idle h (S d)]> ts)
| step_pop c m m' ts h d :
    ts c = mkThr Idle h (S d) -> pop_off c m = Ok tt m' ->
    step (m, ts) (m', <[c := mkThr Idle h d]> ts)
| step_intr c m m' ts (on : bool) :
    ts c = mkThr Idle [] 0 -> (if on then intr_on c else intr_off c) m = Ok tt m' ->
    step (m, ts) (m', <[c := mkThr Idle [] 0]> ts).

(** After boot: every lock is free, no CPU is in lock code. *)
Definition init_ok (s : sys) : Prop :=
  (forall lk, locked (locks s.1 lk) = 0 /\ lk_cpu (locks s.1 lk) = None) /\
  (forall c, noff (cpus s.1 c) = 0 /\ s.2 c = mkThr Idle [] 0).

Definition reachable (s : sys) : Prop := exists s0, init_ok s0 /\ rtc step s0 s.

(** ** The invariant *)

(** [lk] has been swapped in by this CPU and not stored back. *)
Definition owns (t : thr) (lk : Z) : Prop := lk ∈ held t \/ loc t = Got lk.

Definition pending (l : ploc) : Z :=
  match l with Idle | Clr _ => 0 | Spin _ | Got _ | Rel => 1 end.

Record inv (s : sys) : Prop := {
  inv_noff : forall c, noff (cpus s.1 c) =
    Z.of_nat (depth (s.2 c)) + Z.of_nat (length (held (s.2 c))) + pending (loc (s.2 c));
  inv_sie : forall c, 0 < noff (cpus s.1 c) -> sie (cpus s.1 c) = false;
  inv_free : forall c lk, locked (locks s.1 lk) = 0 -> ~ owns (s.2 c) lk;
  inv_uniq : forall c c' lk, owns (s.2 c) lk -> owns (s.2 c') lk -> c = c';
  inv_cpu : forall c lk, lk ∈ held (s.2 c) -> loc (s.2 c) <> Clr lk ->
    lk_cpu (locks s.1 lk) = Some c;
  inv_cpu' : forall c lk, lk_cpu (locks s.1 lk) = Some c ->
    lk ∈ held (s.2 c) /\ loc (s.2 c) <> Clr lk;
  inv_nodup : forall c, NoDup (held (s.2 c));
  inv_got : forall c lk, loc (s.2 c) = Got lk -> lk ∉ held (s.2 c);
  inv_clr : forall c lk, loc (s.2 c) = Clr lk -> lk ∈ held (s.2 c);
}.

(** ** Effects of the operations *)

Lemma fn_ins_eq {A} (f : nat -> A) c x : <[c := x]> f c = x.
Proof. apply fn_lookup_insert. Qed.
Lemma fn_ins_ne {A} (f : nat -> A) c c' x : c' <> c -> <[c := x]> f c' = f c'.
Proof. intros. by apply fn_lookup_insert_ne. Qed.
Lemma fnZ_ins_eq {A} (f : Z -> A) c x : <[c := x]> f c = x.
Proof. apply fn_lookup_insert. Qed.
Lemma fnZ_ins_ne {A} (f : Z -> A) c c' x : c' <> c -> <[c := x]> f c' = f c'.
Proof. intros. by apply fn_lookup_insert_ne. Qed.

(** What a CPU-local operation leaves alone. *)
Definition frame (c : nat) (m m' : mach) : Prop :=
  locks m' = locks m /\ forall c', c' <> c -> cpus m' c' = cpus m c'.

Lemma push_off_spec c m :
  exists m', push_off c m = Ok tt m' /\ frame c m m' /\
    sie (cpus m' c) = false /\ noff (cpus m' c) = noff (cpus m c) + 1 /\
    intena (cpus m' c) = (if noff (cpus m c) =? 0 then sie (cpus m c) else intena (cpus m c)).
Proof.
  unfold push_off, intr_get, intr_off, upd_cpu, get, gets, modify, when, mbind, M_bind, mret, M_ret.
  cbn. rewrite fn_ins_eq. cbn.
  destruct (noff (cpus m c) =? 0); cbn; eexists; (split; [reflexivity|]); cbn;
    rewrite !fn_ins_eq; cbn; (split; [|done]); split; try done;
    intros c' Hc; cbn; by rewrite !fn_ins_ne.
Qed.

Lemma pop_off_inv c m m' :
  pop_off c m = Ok tt m' ->
  sie (cpus m c) = false /\ 1 <= noff (cpus m c) /\ frame c m m' /\
  noff (cpus m' c) = noff (cpus m c) - 1 /\ intena (cpus m' c) = intena (cpus m c) /\
  sie (cpus m' c) = (noff (cpus m' c) =? 0) && intena (cpus m c).
Proof.
  unfold pop_off, intr_get, intr_on, upd_cpu, get, gets, modify, when, mbind, M_bind, mret, M_ret, panic.
  cbn. destruct (sie (cpus m c)) eqn:Es; [done|].
  destruct (Z.ltb_spec (noff (cpus m c)) 1); [done|]. cbn. rewrite fn_ins_eq. cbn.
  destruct ((noff (cpus m c) - 1 =? 0) && intena (cpus m c)) eqn:E; intros [= <-]; cbn;
    rewrite !fn_ins_eq; cbn; rewrite ?Es, ?E; repeat split; try done; try lia;
    intros c' Hc; cbn; by rewrite !fn_ins_ne.
Qed.

Lemma pop_off_ok c m :
  sie (cpus m c) = false -> 1 <= noff (cpus m c) -> exists m', pop_off c m = Ok tt m'.
Proof.
  intros Es Hn. unfold pop_off, intr_get, intr_on, upd_cpu, get, gets, modify, when, mbind, M_bind.
  cbn. rewrite Es. destruct (Z.ltb_spec (noff (cpus m c)) 1); [lia|]. cbn. rewrite fn_ins_eq. cbn.
  destruct (_ && _); eexists; reflexivity.
Qed.

Lemma acquire_begin_inv c lk m m' :
  acquire_begin c lk m = Ok tt m' ->
  frame c m m' /\ sie (cpus m' c) = false /\ noff (cpus m' c) = noff (cpus m c) + 1 /\
  ~ (locked (locks m lk) <> 0 /\ lk_cpu (locks m lk) = Some c).
Proof.
  unfold acquire_begin, holding, gets, mbind, M_bind.
  destruct (push_off_spec c m) as (m1 & -> & [Hl Hc] & Hs & Hn & _). rewrite Hl.
  destruct (Z.eqb_spec (locked (locks m lk)) 0), (bool_decide _) eqn:E; cbn; try done;
    intros [= <-]; repeat split; try done; try tauto.
  all: apply bool_decide_eq_false in E; tauto.
Qed.

Ltac fn_solve :=
  repeat first
  [ rewrite fn_ins_eq in * | rewrite fnZ_ins_eq in *
  | rewrite fn_ins_ne in * by done | rewrite fnZ_ins_ne in * by done ].

Lemma init_inv s : init_ok s -> inv s.
Proof.
  intros [Hl Hc].
  assert (forall c lk, ~ owns (s.2 c) lk) as Hno.
  { intros c lk. destruct (Hc c) as [_ ->]. intros [H|H]; [by apply elem_of_nil in H|done]. }
  assert (forall c lk, lk ∉ held (s.2 c)) as Hnh.
  { intros c lk H. apply (Hno c lk). by left. }
  split; intros; try (by apply Hno); try (by destruct (Hno c lk)); try (by destruct (Hnh c lk));
    destruct (Hc c) as [Hn Ht].
  - by rewrite Hn, Ht.
  - lia.
  - destruct (Hl lk). congruence.
  - rewrite Ht. apply NoDup_nil_2.
  - by rewrite Ht in H.
  - by rewrite Ht in H.
Qed.

(** An operation that only changes CPU [c], from location [l] to [l']. *)
Lemma inv_local m m' ts c l l' h d d' :
  inv (m, ts) -> ts c = mkThr l h d -> frame c m m' ->
  (forall lk, l <> Got lk /\ l <> Clr lk /\ l' <> Got lk /\ l' <> Clr lk) ->
  noff (cpus m' c) = Z.of_nat d' + Z.of_nat (length h) + pending l' ->
  (0 < noff (cpus m' c) -> sie (cpus m' c) = false) ->
  inv (m', <[c := mkThr l' h d']> ts).
Proof.
  intros [I1 I2 I3 I4 I5 I6 I7 I8 I9] Hts [Hl Hc] Hloc Hn Hs; cbn in *.
  assert (forall c' lk, owns (<[c := mkThr l' h d']> ts c') lk <-> owns (ts c') lk) as Hown.
  { intros c' lk. destruct (decide (c' = c)) as [->|]; fn_solve; [|done].
    rewrite Hts. unfold owns. cbn. destruct (Hloc lk) as (? & ? & ? & ?). tauto. }
  assert (forall c', held (<[c := mkThr l' h d']> ts c') = held (ts c')) as Hheld.
  { intros c'. destruct (decide (c' = c)) as [->|]; fn_solve; [|done]. by rewrite Hts. }
  assert (forall c' lk, loc (<[c := mkThr l' h d']> ts c') = Clr lk <-> loc (ts c') = Clr lk) as Hclr.
  { intros c' lk. destruct (decide (c' = c)) as [->|]; fn_solve; [|done].
    rewrite Hts. cbn. destruct (Hloc lk) as (? & ? & ? & ?). tauto. }
  assert (forall c' lk, loc (<[c := mkThr l' h d']> ts c') = Got lk <-> loc (ts c') = Got lk) as Hgot.
  { intros c' lk. destruct (decide (c' = c)) as [->|]; fn_solve; [|done].
    rewrite Hts. cbn. destruct (Hloc lk) as (? & ? & ? & ?). tauto. }
  split; cbn; intros; rewrite ?Hl, ?Hheld in *; rewrite ?Hown, ?Hclr, ?Hgot in *; eauto.
  - destruct (decide (c0 = c)) as [->|]; fn_solve; [rewrite Hn|rewrite Hc by done]; try done.
    by rewrite Hts.
  - destruct (decide (c0 = c)) as [->|]; [by apply Hs|]. rewrite Hc in * by done. by apply I2.
Qed.

(** Stores to one lock: what [lk] becomes, and that the rest stays. *)
Definition lock_effect (lk : Z) (m m' : mach) (v : Z) (o : option nat) : Prop :=
  cpus m' = cpus m /\ locked (locks m' lk) = v /\ lk_cpu (locks m' lk) = o /\
  forall l, l <> lk -> locks m' l = locks m l.

Lemma upd_lock_effect lk f m m' :
  upd_lock lk f m = Ok tt m' ->
  lock_effect lk m m' (locked (f (locks m lk))) (lk_cpu (f (locks m lk))).
Proof.
  intros [= <-]. unfold lock_effect. cbn. rewrite fnZ_ins_eq. repeat split.
  intros l Hl. by rewrite fnZ_ins_ne.
Qed.

Lemma test_and_set_inv lk m v m' :
  test_and_set lk m = Ok v m' ->
  v = locked (locks m lk) /\ lock_effect lk m m' 1 (lk_cpu (locks m lk)).
Proof.
  intros [= <- <-]. split; [done|]. unfold lock_effect. cbn. rewrite fnZ_ins_eq. repeat split.
  intros l Hl. by rewrite fnZ_ins_ne.
Qed.

Lemma release_begin_inv c lk m m' :
  release_begin c lk m = Ok tt m' ->
  locked (locks m lk) <> 0 /\ lk_cpu (locks m lk) = Some c /\
  lock_effect lk m m' (locked (locks m lk)) None.
Proof.
  unfold release_begin, holding, gets, mbind, M_bind. cbn.
  destruct (Z.eqb_spec (locked (locks m lk)) 0), (bool_decide _) eqn:E; cbn; try done.
  apply bool_decide_eq_true in E. intros H%upd_lock_effect. done.
Qed.

(** Preservation when CPU [c] stores to [lk]: the parts of the invariant that
    do not depend on who owns [lk]. *)
Ltac cpu_cases c :=
  match goal with
  | |- context [<[c := _]> _ ?x] => destruct (decide (x = c)) as [->|]; fn_solve
  | H : context [<[c := _]> _ ?x] |- _ => destruct (decide (x = c)) as [->|]; fn_solve
  end.

Ltac lock_cases lk :=
  match goal with
  | l : Z |- _ => lazymatch l with lk => fail | _ => destruct (decide (l = lk)) as [->|] end
  end.

Lemma inv_swap m m' ts c lk h d :
  inv (m, ts) -> ts c = mkThr (Spin lk) h d -> test_and_set lk m = Ok 0 m' ->
  inv (m', <[c := mkThr (Got lk) h d]> ts).
Proof.
  intros [I1 I2 I3 I4 I5 I6 I7 I8 I9] Hts (E & Ec & E1 & E2 & E3)%test_and_set_inv; cbn in *.
  assert (forall c', ~ owns (ts c') lk) as Hfree by (intros c'; by apply I3).
  assert (lk ∉ h) as Hnin.
  { intros Hin. apply (Hfree c). left. by rewrite Hts. }
  assert (forall l, lk_cpu (locks m' l) = lk_cpu (locks m l)) as Hcpu.
  { intros l. destruct (decide (l = lk)) as [->|]; [done|]. by rewrite E3. }
  assert (forall c' lk', owns (<[c := mkThr (Got lk) h d]> ts c') lk' ->
     owns (ts c') lk' \/ (c' = c /\ lk' = lk)) as Hown.
  { intros c' lk'. destruct (decide (c' = c)) as [->|]; fn_solve; [|tauto].
    rewrite Hts. unfold owns. cbn. intros [?|[= ->]]; tauto. }
  split; cbn; intros; rewrite ?Hcpu, ?Ec in *; eauto.
  - cpu_cases c; [|done]. by rewrite I1, Hts.
  - lock_cases lk; [lia|]. rewrite E3 in H by done.
    intros [Ho|[_ ?]]%Hown; [by apply (I3 c0 lk0)|done].
  - apply Hown in H as [Ho|[Hc1 Hl1]], H0 as [Ho'|[Hc2 Hl2]]; subst; eauto; exfalso; by eapply Hfree.
  - cpu_cases c; [|by apply I5]. apply I5; by rewrite Hts.
  - apply I6 in H as [H H']. cpu_cases c; [|done]. by rewrite Hts in H.
  - cpu_cases c; [|done]. specialize (I7 c). by rewrite Hts in I7.
  - cpu_cases c; [|by apply I8]. cbn in *. by injection H as ->.
  - cpu_cases c; [done|by apply I9].
Qed.

Lemma inv_own m m' ts c lk h d :
  inv (m, ts) -> ts c = mkThr (Got lk) h d -> acquire_end c lk m = Ok tt m' ->
  inv (m', <[c := mkThr Idle (lk :: h) d]> ts).
Proof.
  intros [I1 I2 I3 I4 I5 I6 I7 I8 I9] Hts (Ec & E1 & E2 & E3)%upd_lock_effect; cbn in *.
  assert (owns (ts c) lk) as Hoc by (right; by rewrite Hts).
  assert (lk ∉ h) as Hnin by (specialize (I8 c lk); rewrite Hts in I8; by apply I8).
  assert (forall l, locked (locks m' l) = locked (locks m l)) as Hlk.
  { intros l. destruct (decide (l = lk)) as [->|]; [done|]. by rewrite E3. }
  assert (forall c' lk', owns (<[c := mkThr Idle (lk :: h) d]> ts c') lk' <-> owns (ts c') lk') as Hown.
  { intros c' lk'. destruct (decide (c' = c)) as [->|]; fn_solve; [|done].
    rewrite Hts. unfold owns. cbn. rewrite elem_of_cons. split.
    - intros [[->|]|]; try tauto; done.
    - intros [|[= ->]]; tauto. }
  split; cbn; intros; rewrite ?Hlk, ?Hown, ?Ec in *; eauto.
  - cpu_cases c; [|done]. rewrite I1, Hts. cbn. lia.
  - destruct (decide (lk0 = lk)) as [->|]; [rewrite E2|rewrite E3 by done].
    + cpu_cases c; [done|]. f_equal. apply (I4 _ _ lk); [done|by left].
    + cpu_cases c; [|by apply I5]. cbn in *. apply elem_of_cons in H as [->|H]; [done|].
      apply I5; by rewrite Hts.
  - destruct (decide (lk0 = lk)) as [->|]; [rewrite E2 in H|rewrite E3 in H by done].
    + injection H as <-. fn_solve. cbn. split; [left|done].
    + apply I6 in H as [H H']. cpu_cases c; [|done]. rewrite Hts in H. split; [by right|done].
  - cpu_cases c; [|done]. constructor; [done|]. specialize (I7 c). by rewrite Hts in I7.
  - cpu_cases c; [done|by apply I8].
  - cpu_cases c; [done|by apply I9].
Qed.

Lemma inv_clear m m' ts c lk h d :
  inv (m, ts) -> ts c = mkThr Idle h d -> lk ∈ h -> release_begin c lk m = Ok tt m' ->
  inv (m', <[c := mkThr (Clr lk) h d]> ts).
Proof.
  intros [I1 I2 I3 I4 I5 I6 I7 I8 I9] Hts Hin (_ & Hc & Ec & E1 & E2 & E3)%release_begin_inv; cbn in *.
  assert (owns (ts c) lk) as Hoc by (left; by rewrite Hts).
  assert (forall l, locked (locks m' l) = locked (locks m l)) as Hlk.
  { intros l. destruct (decide (l = lk)) as [->|]; [done|]. by rewrite E3. }
  assert (forall c' lk', owns (<[c := mkThr (Clr lk) h d]> ts c') lk' <-> owns (ts c') lk') as Hown.
  { intros c' lk'. destruct (decide (c' = c)) as [->|]; fn_solve; [|done].
    rewrite Hts. unfold owns. cbn. split; (intros [|]; [tauto|done]). }
  split; cbn; intros; rewrite ?Hlk, ?Hown, ?Ec in *; eauto.
  - cpu_cases c; [|done]. by rewrite I1, Hts.
  - destruct (decide (lk0 = lk)) as [->|]; [|rewrite E3 by done].
    + cpu_cases c; [done|]. exfalso. apply n. apply (I4 _ _ lk); [by left|done].
    + cpu_cases c; [|by apply I5]. apply I5; by rewrite Hts.
  - destruct (decide (lk0 = lk)) as [->|]; [congruence|rewrite E3 in H by done].
    apply I6 in H as [H H']. cpu_cases c; [|done]. rewrite Hts in H.
    split; [done|]. cbn. congruence.
  - cpu_cases c; [|done]. specialize (I7 c). by rewrite Hts in I7.
  - cpu_cases c; [done|by apply I8].
  - cpu_cases c; [|by apply I9]. cbn in *. by injection H as ->.
Qed.

(** Removing a lock from a duplicate-free list of held locks. *)
Lemma length_filter_ne (lk : Z) (h : list Z) :
  NoDup h -> lk ∈ h -> S (length (filter (fun l => l <> lk) h)) = length h.
Proof.
  induction 1 as [|x h Hx Hnd IH]; intros Hin; [by apply elem_of_nil in Hin|].
  rewrite filter_cons. destruct (decide (x <> lk)) as [Hne|He].
  - cbn. f_equal. apply IH. by apply elem_of_cons in Hin as [->|].
  - apply dec_stable in He. subst. cbn. f_equal. f_equal.
    clear -Hx. induction h as [|y h IH]; [done|].
    apply not_elem_of_cons in Hx as [? ?]. rewrite filter_cons, decide_True by done.
    f_equal. by apply IH.
Qed.

Lemma inv_store m m' ts c lk h d :
  inv (m, ts) -> ts c = mkThr (Clr lk) h d -> release_store lk m = Ok tt m' ->
  inv (m', <[c := mkThr Rel (filter (fun l => l <> lk) h) d]> ts).
Proof.
  intros [I1 I2 I3 I4 I5 I6 I7 I8 I9] Hts (Ec & E1 & E2 & E3)%upd_lock_effect; cbn in *.
  assert (lk ∈ h) as Hin by (specialize (I9 c lk); rewrite Hts in I9; by apply I9).
  assert (NoDup h) as Hnd by (specialize (I7 c); by rewrite Hts in I7).
  assert (owns (ts c) lk) as Hoc by (left; by rewrite Hts).
  assert (forall l, lk_cpu (locks m' l) = lk_cpu (locks m l)) as Hcpu.
  { intros l. destruct (decide (l = lk)) as [->|]; [done|]. by rewrite E3. }
  assert (forall c' lk', owns (<[c := mkThr Rel (filter (fun l => l <> lk) h) d]> ts c') lk' ->
     owns (ts c') lk' /\ lk' <> lk) as Hown.
  { intros c' lk'. destruct (decide (c' = c)) as [->|]; fn_solve.
    - rewrite Hts. unfold owns. cbn. rewrite list_elem_of_filter. intros [[? ?]|]; [tauto|done].
    - intros Ho. split; [done|]. intros ->. apply n. by apply (I4 _ _ lk). }
  split; cbn; intros; rewrite ?Hcpu, ?Ec in *; eauto.
  - cpu_cases c; [|done]. rewrite I1, Hts. cbn. pose proof (length_filter_ne _ _ Hnd Hin). lia.
  - intros [Ho Hne]%Hown. rewrite E3 in H by done. by apply (I3 c0 lk0).
  - apply Hown in H as [? _], H0 as [? _]. eauto.
  - cpu_cases c; [|by apply I5]. cbn in *. apply list_elem_of_filter in H as [? ?].
    apply I5; rewrite Hts; [done|]. by intros [= ->].
  - destruct (I6 _ _ H) as [Hh Hl]. cpu_cases c; [|done]. rewrite Hts in Hh, Hl. cbn in *.
    split; [|done]. apply list_elem_of_filter. split; [congruence|done].
  - cpu_cases c; [|done]. by apply list.NoDup_filter.
  - cpu_cases c; [done|by apply I8].
  - cpu_cases c; [done|by apply I9].
Qed.

Lemma inv_step s s' : inv s -> step s s' -> inv s'.
Proof.
  intros Hinv Hst. destruct Hst as
    [c lk m m' ts h d Hts H|c lk m m' ts h d v Hts H Hv|c lk m m' ts h d Hts H
    |c lk m m' ts h d Hts H|c lk m m' ts h d Hts Hin H|c lk m m' ts h d Hts H
    |c m m' ts h d Hts H|c m m' ts h d Hts H|c m m' ts h d Hts H|c m m' ts on Hts H];
    pose proof (inv_noff _ Hinv c) as In; cbn in In; rewrite Hts in In; cbn in In.
  - apply acquire_begin_inv in H as (Hf & Hs & Hn & _).
    eapply inv_local; eauto; cbn; lia || done.
  - (* spinning leaves a locked lock locked *)
    apply test_and_set_inv in H as (Ev & Ec & E1 & E2 & E3).
    assert (forall l, lk_cpu (locks m' l) = lk_cpu (locks m l)) as Hcpu.
    { intros l. destruct (decide (l = lk)) as [->|]; [done|]. by rewrite E3. }
    destruct Hinv as [I1 I2 I3 I4 I5 I6 I7 I8 I9].
    split; cbn in *; intros; rewrite ?Hcpu, ?Ec in *; eauto.
    destruct (decide (lk0 = lk)) as [->|]; [lia|]. rewrite E3 in H by done. by apply I3.
  - by eapply inv_swap.
  - by eapply inv_own.
  - by eapply inv_clear.
  - by eapply inv_store.
  - apply pop_off_inv in H as (_ & _ & Hf & Hn & _ & Hs).
    eapply inv_local; eauto; cbn; [lia|]. intros ?. rewrite Hs.
    destruct (Z.eqb_spec (noff (cpus m' c)) 0); [lia|done].
  - destruct (push_off_spec c m) as (m1 & E & Hf & Hs & Hn & _).
    rewrite E in H. injection H as <-. eapply inv_local; eauto; cbn; lia || done.
  - apply pop_off_inv in H as (_ & _ & Hf & Hn & _ & Hs).
    eapply inv_local; eauto; cbn; [lia|]. intros ?. rewrite Hs.
    destruct (Z.eqb_spec (noff (cpus m' c)) 0); [lia|done].
  - assert (frame c m m' /\ noff (cpus m' c) = noff (cpus m c)) as [Hf Hn].
    { destruct on; injection H as <-; cbn; rewrite fn_ins_eq; cbn; (split; [split|]; try done);
        intros; cbn; by rewrite fn_ins_ne. }
    eapply inv_local; eauto; cbn; lia || done.
Qed.

Lemma reachable_inv s : reachable s -> inv s.
Proof.
  intros (s0 & Hi & Hr). apply init_inv in Hi. revert Hi.
  induction Hr as [|s1 s2 s3 Hst _ IH]; [done|]. intros Hi. by eapply IH, inv_step.
Qed.

(** ** What the invariant gives *)

(** C12: two CPUs never both own a lock, whatever the interleaving of the
    memory accesses of [acquire] and [release]: between the swap of
    [acquire] and the store of [release] the lock belongs to one CPU. *)
Theorem mutual_exclusion s c c' lk :
  reachable s -> owns (s.2 c) lk -> owns (s.2 c') lk -> c = c'.
Proof. intros Hr. apply (inv_uniq _ (reachable_inv _ Hr)). Qed.

(** C27: a CPU that holds a lock, or is in the middle of taking or releasing
    one, runs with interrupts disabled. *)
Theorem interrupts_off s c :
  reachable s -> (held (s.2 c) <> [] \/ loc (s.2 c) <> Idle) -> sie (cpus s.1 c) = false.
Proof.
  intros Hr%reachable_inv Hh. apply (inv_sie _ Hr). rewrite (inv_noff _ Hr).
  destruct Hh as [Hh|Hh].
  - destruct (held (s.2 c)); [done|]. cbn. destruct (loc (s.2 c)); cbn; lia.
  - pose proof (inv_clr _ Hr c) as Hc. destruct (loc (s.2 c)) as [|lk|lk|lk|]; cbn; try lia; [done|].
    specialize (Hc lk eq_refl). destruct (held (s.2 c)); [by apply elem_of_nil in Hc|]. cbn. lia.
Qed.

(** C28: [release] of a lock the CPU holds does not panic, and neither does the
    [pop_off] at its end. *)
Theorem release_no_panic s c lk h d :
  reachable s -> s.2 c = mkThr Idle h d -> lk ∈ h ->
  exists m', release c lk s.1 = Ok tt m'.
Proof.
  intros Hr%reachable_inv Ht Hin. destruct s as [m ts]. cbn in *.
  pose proof (inv_cpu _ Hr c lk) as Hc. cbn in Hc. rewrite Ht in Hc. specialize (Hc Hin ltac:(done)).
  assert (locked (locks m lk) <> 0) as Hl.
  { intros E. apply (inv_free _ Hr c lk E). left. cbn. by rewrite Ht. }
  pose proof (inv_noff _ Hr c) as Hn. cbn in Hn. rewrite Ht in Hn. cbn in Hn.
  assert (0 < noff (cpus m c)) as Hp.
  { destruct h; [by apply elem_of_nil in Hin|]. cbn in Hn. lia. }
  unfold release, release_begin, holding, gets, mbind, M_bind. cbn.
  destruct (Z.eqb_spec (locked (locks m lk)) 0); [done|].
  rewrite bool_decide_eq_true_2 by done. cbn. apply pop_off_ok; cbn; [|lia].
  by apply (inv_sie _ Hr).
Qed.

(** Nested [push_off]s are undone by as many [pop_off]s, which restore the
    interrupt state the first one saw. *)
Lemma push_pop_step c m :
  exists m1, push_off c m = Ok tt m1 /\ 
    (0 <= noff (cpus m c) -> (0 < noff (cpus m c) -> sie (cpus m c) = false) ->
     exists m2, pop_off c m1 = Ok tt m2 /\ sie (cpus m2 c) = sie (cpus m c) /\
       noff (cpus m2 c) = noff (cpus m c) /\ locks m2 = locks m).
Proof.
  destruct (push_off_spec c m) as (m1 & E & [Hl Hf] & Hs & Hn & Hi). exists m1. split; [done|].
  intros H0 H1. destruct (pop_off_ok c m1) as [m2 E2]; [done|lia|].
  exists m2. split; [done|]. apply pop_off_inv in E2 as (_ & _ & [Hl2 _] & Hn2 & _ & Hs2).
  rewrite Hs2, Hn2, Hi, Hn, Hl2. repeat split; try lia; try done.
  replace (noff (cpus m c) + 1 - 1) with (noff (cpus m c)) by lia.
  destruct (Z.eqb_spec (noff (cpus m c)) 0); cbn; [done|]. symmetry. apply H1. lia.
Qed.

(** ** [acquire] run to its end *)

(** With the lock free, [acquire] returns and the CPU holds it. *)
Lemma acquire_free c lk m :
  locked (locks m lk) = 0 -> lk_cpu (locks m lk) = None ->
  exists m', acquire c lk m = Ok tt m' /\
    locked (locks m' lk) = 1 /\ lk_cpu (locks m' lk) = Some c /\
    sie (cpus m' c) = false /\ noff (cpus m' c) = noff (cpus m c) + 1.
Proof.
  intros Hl Hc. unfold acquire.
  destruct (push_off_spec c m) as (m1 & Ep & [Hf _] & Hs & Hn & _).
  erewrite (bind_Ok (acquire_begin c lk)).
  2:{ unfold acquire_begin. erewrite bind_Ok by exact Ep.
      unfold holding, gets, mbind, M_bind. by rewrite Hf, Hl. }
  erewrite (bind_Ok (while _ _)).
  2:{ apply (while_nat 1); [|done]. cbn.
      unfold test_and_set, gets, upd_lock, modify, mbind, M_bind, mret, M_ret. by rewrite Hf, Hl. }
  unfold acquire_end, upd_lock, modify.
  eexists. split; [reflexivity|]. cbn. rewrite fnZ_ins_eq. cbn. rewrite fnZ_ins_eq. done.
Qed.

(** A CPU that takes a lock it holds already panics. *)
Lemma acquire_held c lk m :
  locked (locks m lk) <> 0 -> lk_cpu (locks m lk) = Some c -> acquire c lk m = Panic "acquire".
Proof.
  intros Hl Hc. destruct (push_off_spec c m) as (m1 & Ep & [Hf _] & _).
  unfold acquire. apply bind_Panic. unfold acquire_begin. erewrite bind_Ok by exact Ep.
  unfold holding, gets, mbind, M_bind. rewrite Hf, Hc.
  rewrite bool_decide_eq_true_2 by done. destruct (Z.eqb_spec (locked (locks m lk)) 0); done.
Qed.

(** ** A run of one CPU, for the witnesses: CPU 0 takes lock 7 *)

Definition boot : sys := (mkMach (fun _ => mkCpu true 0 false) (fun _ => mkLock 0 None), fun _ => mkThr Idle [] 0).

Lemma boot_acquired :
  exists s, reachable s /\ s.2 0%nat = mkThr Idle [7] 0.
Proof.
  unfold reachable.
  eexists. split.
  - exists boot. split; [done|].
    eapply rtc_l; [by eapply (step_acquire 0 7)|].
    eapply rtc_l; [by eapply (step_swap 0 7)|].
    eapply rtc_l; [by eapply (step_own 0 7)|]. apply rtc_refl.
  - done.
Qed.

Lemma mutual_exclusion_witness :
  exists s, reachable s /\ owns (s.2 0%nat) 7 /\ forall c, owns (s.2 c) 7 -> 0%nat = c.
Proof.
  destruct boot_acquired as (s & Hr & Ht). assert (owns (s.2 0%nat) 7) as Ho by (left; rewrite Ht; left).
  exists s. split; [exact Hr|]. split; [exact Ho|]. intros c Hc. exact (mutual_exclusion s 0 c 7 Hr Ho Hc).
Defined.

Lemma interrupts_off_witness : exists s, reachable s /\ sie (cpus s.1 0%nat) = false.
Proof.
  destruct boot_acquired as (s & Hr & Ht). exists s. split; [exact Hr|].
  apply (interrupts_off s 0 Hr). left. by rewrite Ht.
Defined.

Lemma release_no_panic_witness : exists s m', reachable s /\ release 0 7 s.1 = Ok tt m'.
Proof.
  destruct boot_acquired as (s & Hr & Ht).
  destruct (release_no_panic s 0 7 [7] 0 Hr Ht ltac:(left)) as [m' E]. exists s, m'. split; [exact Hr|exact E].
Defined.

End Spinlock.

(** ** A thread's view of a spin lock

    [l] is where the lock bit sits in the state of the component. *)
Module SeqLock.

Definition acquire {S : Type} (l : lens bool S) : M S unit :=
  s ← get;
  if lget l s then panic "acquire" else modify (lset l true).

Definition release {S : Type} (l : lens bool S) : M S unit :=
  s ← get;
  if lget l s then modify (lset l false) else panic "release".

Lemma wp_seq_acquire {S} (l : lens bool S) (Q : unit -> S -> Prop) s :
  wp (acquire l) Q s <-> lget l s = false /\ Q tt (lset l true s).
Proof.
  unfold acquire, wp, get, modify, panic, mbind, M_bind.
  destruct (lget l s); split; intros H; try done; by destruct H.
Qed.

Lemma wp_seq_release {S} (l : lens bool S) (Q : unit -> S -> Prop) s :
  wp (release l) Q s <-> lget l s = true /\ Q tt (lset l false s).
Proof.
  unfold release, wp, get, modify, panic, mbind, M_bind.
  destruct (lget l s); split; intros H; try done; by destruct H.
Qed.

End SeqLock.
