(* ===== verification/Kalloc.v ===== *)
(** * Kalloc: the physical page allocator of [kernel/kalloc.c]

    Free pages form a linked list threaded through their first eight bytes;
    [num_ref_to_page] counts the users of every page, so that copy-on-write
    can share one.  [kmem_inv] relates the memory, the list and the counts;
    the operations are specified against it, on every branch. *)

From stdpp Require Import base list gmap strings.
From Stdlib Require Import ZArith Lia.
From S2P Require Import Prelude CMem Riscv Spinlock.
Import CString.

(** The allocator's state: physical memory, [kmem.freelist],
    [num_ref_to_page] (an array the C program starts out with zeroed) and
    [kmem.lock]. *)
Record kst := mkK {
  kmem_mem : mem;
  freelist : Z;
  num_ref_to_page : gmap Z Z;
  kmem_lock : bool;
}.
#[export] Instance kst_settable : Settable kst :=
  {| mk_eta := fun s => mkK (kmem_mem s) (freelist s) (num_ref_to_page s) (kmem_lock s) |}.

Definition num_ref (s : kst) (i : Z) : Z := default 0 (num_ref_to_page s !! i).
Definition set_num_ref (i v : Z) : M kst unit :=
  modify (fun s => s <| num_ref_to_page ::= fun r => <[i := v]> r |>).
Definition set_mem (f : mem -> mem) : M kst unit := modify (fun s => s <| kmem_mem ::= f |>).

#[export] Hint Unfold set_num_ref set_mem : xv6_op.

Definition kmem_lk : lens bool kst := Lens kmem_lock (fun b s => s <| kmem_lock := b |>).
Definition acquire_kmem : M kst unit := SeqLock.acquire kmem_lk.
Definition release_kmem : M kst unit := SeqLock.release kmem_lk.

Section kalloc.
Context `{L : Layout}.

(** The sanity check all entry points make. *)
Definition bad_pa (pa : Z) : bool :=
  negb (pa mod PGSIZE =? 0) || (pa <? kend) || (PHYSTOP <=? pa).

Definition kfree_original (pa : Z) : M kst unit :=
  if bad_pa pa then panic "kfree" else
  set_mem (fun m => memset m pa 1 PGSIZE);;
  acquire_kmem;;
  s ← get;
  set_mem (fun m => store64 m pa (freelist s));;
  modify (fun s => s <| freelist := pa |>);;
  release_kmem.

Definition kalloc : M kst Z :=
  acquire_kmem;;
  s ← get;
  let r := freelist s in
  if negb (r =? 0) then
    if negb (num_ref s (r / PGSIZE) =? 0) then
      release_kmem;; mret 0
    else
      set_num_ref (r / PGSIZE) 1;;
      modify (fun s => s <| freelist := load64 (kmem_mem s) r |>);;
      release_kmem;;
      set_mem (fun m => memset m r 5 PGSIZE);;
      mret r
  else
    release_kmem;; mret r.

Definition increase_num_ref (pa : Z) : M kst unit :=
  if bad_pa pa then panic "increase_num_ref" else
  acquire_kmem;;
  s ← get;
  n ← int_op (num_ref s (pa / PGSIZE) + 1);
  set_num_ref (pa / PGSIZE) n;;
  release_kmem.

Definition kfree (pa : Z) : M kst unit :=
  if bad_pa pa then panic "decrease_num_ref" else
  s ← get;
  if num_ref s (pa / PGSIZE) <=? 0
  then panic "decrease_num_ref: num_ref_to_page[pa/PGSIZE] == 0" else
  acquire_kmem;;
  s ← get;
  set_num_ref (pa / PGSIZE) (num_ref s (pa / PGSIZE) - 1);;
  s ← get;
  if num_ref s (pa / PGSIZE) =? 0 then
    release_kmem;; kfree_original pa
  else
    release_kmem.

Definition freerange (pa_start pa_end : Z) : M kst unit :=
  while (fun p =>
    if p + PGSIZE <=? pa_end then
      set_num_ref (p / PGSIZE) 1;;
      kfree p;;
      mret (inl (p + PGSIZE))
    else mret (inr tt)) (PGROUNDUP pa_start).

Definition kinit : M kst unit :=
  modify (fun s => s <| kmem_lock := false |>);;
  freerange kend PHYSTOP.

(** ** The invariant *)

(** A page the allocator manages. *)
Definition page_ok (p : Z) : Prop := p mod PGSIZE = 0 /\ kend <= p < PHYSTOP.

Definition in_page (p x : Z) : Prop := p <= x < p + PGSIZE.

(** The [struct run] list starting at [h] goes through the pages [l]. *)
Fixpoint chain (m : mem) (h : Z) (l : list Z) : Prop :=
  match l with
  | [] => h = 0
  | p :: l' => h = p /\ chain m (load64 m p) l'
  end.

Record kmem_inv (s : kst) (l : list Z) : Prop := {
  ki_lock : kmem_lock s = false;
  ki_chain : chain (kmem_mem s) (freelist s) l;
  ki_nodup : NoDup l;
  ki_pages : forall p, p ∈ l -> page_ok p;
  ki_free : forall p, p ∈ l -> num_ref s (p / PGSIZE) = 0;
  ki_ref : forall i, 0 <= num_ref s i;
}.

(** Memory that changed on page [p] only. *)
Definition changed_page (p : Z) (s s' : kst) : Prop :=
  forall x, ~ in_page p x -> rd8 (kmem_mem s') x = rd8 (kmem_mem s) x.

Lemma bad_pa_ok p : bad_pa p = false <-> page_ok p.
Proof.
  unfold bad_pa, page_ok. rewrite !orb_false_iff, negb_false_iff, Z.eqb_eq, Z.ltb_ge, Z.leb_gt.
  tauto.
Qed.

Lemma bad_pa_bad p : ~ page_ok p -> bad_pa p = true.
Proof. intros H. destruct (bad_pa p) eqn:E; [done|]. by apply bad_pa_ok in E. Qed.

(** Distinct pages do not overlap, and have distinct numbers. *)
Lemma page_disjoint p q x :
  p mod PGSIZE = 0 -> q mod PGSIZE = 0 -> p <> q -> in_page p x -> ~ in_page q x.
Proof. unfold in_page, PGSIZE. intros. Z.div_mod_to_equations. lia. Qed.

Lemma page_number_inj p q :
  p mod PGSIZE = 0 -> q mod PGSIZE = 0 -> p / PGSIZE = q / PGSIZE -> p = q.
Proof. unfold PGSIZE. intros. Z.div_mod_to_equations. lia. Qed.

Lemma chain_ext m m' h l :
  (forall p, p ∈ l -> load64 m p = load64 m' p) -> chain m h l -> chain m' h l.
Proof.
  revert h. induction l as [|p l IH]; intros h H; cbn [chain]; [done|].
  intros [-> Hc]. split; [done|]. rewrite <- H by left. apply IH; [|done].
  intros q Hq. apply H. by right.
Qed.

(** The list survives a write to a page that is not on it. *)
Lemma chain_frame m m' h l p :
  p mod PGSIZE = 0 -> p ∉ l -> (forall q, q ∈ l -> page_ok q) ->
  (forall x, ~ in_page p x -> rd8 m' x = rd8 m x) -> chain m h l -> chain m' h l.
Proof.
  intros Hp Hnin Hok Hm. apply chain_ext. intros q Hq. apply load64_ext. intros x Hx.
  symmetry. apply Hm. destruct (Hok q Hq) as [Hq0 _].
  apply (page_disjoint q p); [done|done|congruence|]. unfold in_page, PGSIZE. lia.
Qed.

(** The invariant does not look at pages in use. *)
Lemma kmem_inv_mem s l f :
  (forall p x, p ∈ l -> in_page p x -> rd8 (f (kmem_mem s)) x = rd8 (kmem_mem s) x) ->
  kmem_inv s l -> kmem_inv (s <| kmem_mem ::= f |>) l.
Proof.
  intros Hm [Hlk Hch Hnd Hpg Hfr Hrf]. split; try done.
  eapply chain_ext; [|exact Hch]. intros p Hp. symmetry. apply load64_ext. intros x Hx.
  apply (Hm p); [done|]. unfold in_page, PGSIZE. lia.
Qed.

Lemma kmem_inv_page s l p f :
  p mod PGSIZE = 0 -> p ∉ l ->
  (forall x, ~ in_page p x -> rd8 (f (kmem_mem s)) x = rd8 (kmem_mem s) x) ->
  kmem_inv s l -> kmem_inv (s <| kmem_mem ::= f |>) l.
Proof.
  intros Hp Hnin Hm Hi. apply kmem_inv_mem; [|done]. intros q x Hq Hx. apply Hm.
  apply (page_disjoint q p); [apply (ki_pages _ _ Hi q Hq)|done|congruence|done].
Qed.

(** ** Reference counts after an update *)

Lemma num_ref_set s i v j :
  num_ref (s <| num_ref_to_page ::= fun r => <[i := v]> r |>) j = if j =? i then v else num_ref s j.
Proof.
  unfold num_ref. cbn. destruct (Z.eqb_spec j i) as [->|].
  - by rewrite lookup_insert_eq.
  - by rewrite lookup_insert_ne.
Qed.

(** The counts of [s'] are those of [s] except page [p]'s, which is [v]. *)
Definition ref_upd (s s' : kst) (p v : Z) : Prop :=
  forall j, num_ref s' j = if j =? p / PGSIZE then v else num_ref s j.

Lemma ref_upd_intro s s' p v :
  num_ref_to_page s' = <[p / PGSIZE := v]> (num_ref_to_page s) -> ref_upd s s' p v.
Proof.
  intros E j. unfold num_ref. rewrite E. destruct (Z.eqb_spec j (p / PGSIZE)) as [->|].
  - by rewrite lookup_insert_eq.
  - by rewrite lookup_insert_ne.
Qed.

Lemma ref_upd_at s s' p v : ref_upd s s' p v -> num_ref s' (p / PGSIZE) = v.
Proof. intros H. rewrite H. by rewrite Z.eqb_refl. Qed.

Lemma ref_upd_other s s' p v q :
  ref_upd s s' p v -> p mod PGSIZE = 0 -> q mod PGSIZE = 0 -> q <> p ->
  num_ref s' (q / PGSIZE) = num_ref s (q / PGSIZE).
Proof.
  intros H Hp Hq Hne. rewrite H. destruct (Z.eqb_spec (q / PGSIZE) (p / PGSIZE)) as [E|]; [|done].
  by apply page_number_inj in E.
Qed.

(** ** Specifications *)

Context {LO : LayoutOk L}.

Lemma page_ok_pos p : page_ok p -> 0 < p < 2 ^ 32.
Proof.
  intros [_ H]. pose proof etext_lo. pose proof kend_lo.
  unfold PHYSTOP, KERNBASE in *. lia.
Qed.

Lemma page_ok_addr p : page_ok p -> page_addr p.
Proof. intros H. pose proof (page_ok_pos p H). split; [lia|apply H]. Qed.

Lemma wp_kalloc s l (Q : Z -> kst -> Prop) :
  kmem_inv s l ->
  match l with
  | [] => Q 0 s
  | p :: l' => forall s', kmem_inv s' l' -> ref_upd s s' p 1 -> changed_page p s s' ->
      (forall x, in_page p x -> rd8 (kmem_mem s') x = 5) -> Q p s'
  end ->
  wp kalloc Q s.
Proof.
  intros [Hlk Hch Hnd Hpg Hfr Hrf] HQ. unfold kalloc, acquire_kmem, release_kmem.
  wp_steps. apply SeqLock.wp_seq_acquire. split; [done|]. wp_steps. cbn.
  destruct l as [|p l].
  - cbn in Hch. rewrite Hch, Z.eqb_refl. cbn. wp_steps. apply SeqLock.wp_seq_release. split; [done|].
    wp_steps. destruct s. cbn in *. subst. done.
  - destruct Hch as [Hf Hch]. pose proof (Hpg p ltac:(left)) as Hp.
    pose proof (page_ok_pos p Hp) as Hpos. apply NoDup_cons in Hnd as [Hnin Hnd].
    rewrite Hf. destruct (Z.eqb_spec p 0); [lia|]. cbn.
    replace (num_ref _ _) with 0 by (symmetry; apply Hfr; left). cbn.
    wp_steps. apply SeqLock.wp_seq_release. split; [done|]. wp_steps. cbn.
    set (s' := _ : kst).
    assert (forall x, rd8 (kmem_mem s') x = if (p <=? x) && (x <? p + PGSIZE) then 5 else rd8 (kmem_mem s) x)
      as Hrd by (intros x; apply rd8_memset; done).
    assert (ref_upd s s' p 1) as Hru by (by apply ref_upd_intro).
    assert (changed_page p s s') as Hcp.
    { intros x Hx. rewrite Hrd. unfold in_page in Hx.
      destruct (Z.leb_spec p x), (Z.ltb_spec x (p + PGSIZE)); cbn; try done; lia. }
    apply HQ; try done.
    + split; try done.
      * apply (chain_frame (kmem_mem s) _ _ _ p); try done; [apply Hp|]. intros q Hq. apply Hpg. by right.
      * intros q Hq. apply Hpg. by right.
      * intros q Hq. erewrite (ref_upd_other s s' p); try done.
        -- apply Hfr. by right.
        -- apply Hp.
        -- apply Hpg. by right.
        -- congruence.
      * intros i. rewrite Hru. case_if; [done|apply Hrf].
    + intros x Hx. rewrite Hrd. unfold in_page in Hx.
      destruct (Z.leb_spec p x), (Z.ltb_spec x (p + PGSIZE)); cbn; try done; lia.
Qed.

(** The last reference puts the page back on the free list; an earlier one
    only decrements the count and leaves memory alone. *)
Lemma wp_kfree s l p (Q : unit -> kst -> Prop) :
  kmem_inv s l -> page_ok p -> 0 < num_ref s (p / PGSIZE) ->
  (forall s', ref_upd s s' p (num_ref s (p / PGSIZE) - 1) ->
     (if num_ref s (p / PGSIZE) =? 1 then kmem_inv s' (p :: l) /\ changed_page p s s'
      else kmem_inv s' l /\ kmem_mem s' = kmem_mem s) -> Q tt s') ->
  wp (kfree p) Q s.
Proof.
  intros [Hlk Hch Hnd Hpg Hfr Hrf] Hp Hpos HQ. unfold kfree, acquire_kmem, release_kmem.
  pose proof (proj2 (bad_pa_ok p) Hp) as Hb. rewrite Hb. wp_steps.
  destruct (Z.leb_spec (num_ref s (p / PGSIZE)) 0); [lia|]. wp_steps.
  apply SeqLock.wp_seq_acquire. split; [done|]. wp_steps.
  assert (p ∉ l) as Hnin by (intros Hin; apply Hfr in Hin; lia).
  set (n := num_ref s (p / PGSIZE)) in *.
  rewrite num_ref_set, Z.eqb_refl. change (num_ref (lset kmem_lk true s) (p / PGSIZE)) with n.
  destruct (Z.eqb_spec (n - 1) 0) as [E|E].
  - wp_steps. apply SeqLock.wp_seq_release. split; [done|].
    unfold kfree_original, acquire_kmem, release_kmem. rewrite Hb. wp_steps.
    apply SeqLock.wp_seq_acquire. split; [done|]. wp_steps. apply SeqLock.wp_seq_release. split; [done|].
    set (s' := _ : kst).
    assert (changed_page p s s') as Hcp.
    { intros x Hx. cbn. unfold in_page, PGSIZE in Hx.
      change (kmem_mem s') with (store64 (memset (kmem_mem s) p 1 PGSIZE) p (freelist s)).
      rewrite rd8_store64_out by lia.
      rewrite rd8_memset by done. unfold PGSIZE.
      destruct (Z.leb_spec p x), (Z.ltb_spec x (p + 4096)); cbn; try done; lia. }
    assert (ref_upd s s' p (n - 1)) as Hru by (by apply ref_upd_intro).
    apply HQ; [done|]. destruct (Z.eqb_spec n 1); [|lia]. split; [|done]. split; try done.
    + cbn [chain]. split; [done|].
      change (kmem_mem s') with (store64 (memset (kmem_mem s) p 1 PGSIZE) p (freelist s)) in *.
      rewrite load64_store64_eq.
      * apply (chain_frame (kmem_mem s) _ _ _ p); try done. apply Hp.
      * destruct l as [|q l]; cbn in Hch; [lia|]. destruct Hch as [-> _].
        pose proof (page_ok_pos q (Hpg q ltac:(left))). lia.
    + by constructor.
    + intros q Hq. apply elem_of_cons in Hq as [->|Hq]; [done|by apply Hpg].
    + intros q Hq. apply elem_of_cons in Hq as [->|Hq].
      * rewrite (ref_upd_at _ _ _ _ Hru). lia.
      * erewrite (ref_upd_other s s' p); try done; [by apply Hfr|apply Hp|by apply Hpg|congruence].
    + intros i. rewrite Hru. case_if; [lia|apply Hrf].
  - wp_steps. apply SeqLock.wp_seq_release. split; [done|].
    set (s' := _ : kst).
    assert (ref_upd s s' p (n - 1)) as Hru by (by apply ref_upd_intro).
    apply HQ; [done|]. destruct (Z.eqb_spec n 1); [lia|]. split; [|done]. split; try done.
    + intros q Hq. erewrite (ref_upd_other s s' p); try done; [by apply Hfr|apply Hp|by apply Hpg|congruence].
    + intros i. rewrite Hru. case_if; [lia|apply Hrf].
Qed.

Lemma wp_increase_num_ref s l p (Q : unit -> kst -> Prop) :
  kmem_inv s l -> page_ok p -> p ∉ l -> num_ref s (p / PGSIZE) < INT_MAX ->
  (forall s', kmem_inv s' l -> ref_upd s s' p (num_ref s (p / PGSIZE) + 1) ->
     kmem_mem s' = kmem_mem s -> Q tt s') ->
  wp (increase_num_ref p) Q s.
Proof.
  intros [Hlk Hch Hnd Hpg Hfr Hrf] Hp Hnin Hmax HQ.
  unfold increase_num_ref, acquire_kmem, release_kmem.
  rewrite (proj2 (bad_pa_ok p) Hp). wp_steps. apply SeqLock.wp_seq_acquire. split; [done|]. wp_steps.
  change (num_ref (lset kmem_lk true s) (p / PGSIZE)) with (num_ref s (p / PGSIZE)).
  pose proof (Hrf (p / PGSIZE)). split; [unfold INT_MIN, INT_MAX in *; lia|].
  wp_steps. apply SeqLock.wp_seq_release. split; [done|]. set (s' := _ : kst).
  assert (ref_upd s s' p (num_ref s (p / PGSIZE) + 1)) as Hru by (by apply ref_upd_intro).
  apply HQ; try done. split; try done.
  - intros q Hq. erewrite (ref_upd_other s s' p); try done; [by apply Hfr|apply Hp|by apply Hpg|congruence].
  - intros i. rewrite Hru. case_if; [lia|apply Hrf].
Qed.

(** ** Boot *)

Lemma kmem_inv_set_ref s l p v :
  kmem_inv s l -> page_ok p -> p ∉ l -> 0 <= v ->
  kmem_inv (s <| num_ref_to_page ::= fun r => <[p / PGSIZE := v]> r |>) l.
Proof.
  intros [Hlk Hch Hnd Hpg Hfr Hrf] Hp Hnin Hv. set (s' := _ : kst).
  assert (ref_upd s s' p v) as Hru by (by apply ref_upd_intro).
  split; try done.
  - intros q Hq. erewrite (ref_upd_other s s' p); try done; [by apply Hfr|apply Hp|by apply Hpg|congruence].
  - intros i. rewrite Hru. case_if; [done|apply Hrf].
Qed.

(** C29: [kinit] builds the free list. From the zeroed state the kernel boots
    with, it returns, and exactly the pages between [end] and [PHYSTOP] are
    on the free list, each once and with no reference. *)
Theorem kinit_all_free s :
  freelist s = 0 -> (forall i, num_ref s i = 0) ->
  wp kinit (fun _ s' => exists l, kmem_inv s' l /\ forall p, p ∈ l <-> page_ok p) s.
Proof.
  intros Hfl Hr. unfold kinit, freerange. wp_steps.
  pose proof etext_lo. pose proof kend_lo. pose proof kend_hi.
  assert (0 <= kend < 2 ^ 32) as Hk by (unfold PHYSTOP, KERNBASE in *; lia).
  pose proof (PGROUNDUP_bounds (@kend L) ltac:(lia) ltac:(unfold PGSIZE; lia)) as Hb.
  apply (wp_while (fun p s => p mod PGSIZE = 0 /\ PGROUNDUP kend <= p /\
      (forall i, num_ref s i = 0) /\
      exists l, kmem_inv s l /\ forall q, q ∈ l <-> page_ok q /\ q < p)
    (fun p => Z.to_nat (PHYSTOP - p))).
  - intros p s1 (Hp0 & Hp1 & Hr1 & l & Hi & Hl).
    destruct (Z.leb_spec (p + PGSIZE) PHYSTOP) as [Hle|Hgt].
    + assert (page_ok p) as Hp by (split; [done|unfold PGSIZE in *; lia]).
      assert (p ∉ l) as Hnin by (rewrite Hl; intros [_ ?]; lia).
      wp_steps. set (s2 := _ : kst).
      assert (ref_upd s1 s2 p 1) as Hru by (by apply ref_upd_intro).
      pose proof (kmem_inv_set_ref s1 l p 1 Hi Hp Hnin ltac:(lia)) as Hi2.
      assert (num_ref s2 (p / PGSIZE) = 1) as E1 by (apply (ref_upd_at _ _ _ _ Hru)).
      apply (wp_kfree s2 l); [done|done|lia|]. rewrite E1. cbn.
      intros s3 Hru3 [Hi3 _]. wp_steps. repeat split.
      * revert Hp0. unfold PGSIZE. intros. Z.div_mod_to_equations. lia.
      * unfold PGSIZE. lia.
      * intros i. rewrite Hru3, Hru. rewrite Hr1. by destruct (i =? p / PGSIZE).
      * exists (p :: l). split; [done|]. intros q. rewrite elem_of_cons, Hl.
        split; [intros [->|[? ?]]; (split; [done|unfold PGSIZE; lia])|].
        intros [Hq ?]. destruct (decide (q = p)); [by left|]. right. split; [done|].
        destruct Hq as [Hq _]. revert Hq Hp0. unfold PGSIZE in *. intros. Z.div_mod_to_equations. lia.
      * unfold PGSIZE in *. lia.
    + wp_steps. exists l. split; [done|]. intros q. rewrite Hl. split; [tauto|].
      intros Hq. split; [done|]. destruct Hq as [Hq ?]. revert Hq Hp0 Hgt.
      unfold PHYSTOP, KERNBASE, PGSIZE in *. intros. Z.div_mod_to_equations. lia.
  - repeat split; try done.
    + apply PGROUNDUP_aligned.
    + exists []. split.
      * split; try done; [apply NoDup_nil_2|intros p Hp; by apply elem_of_nil in Hp..|].
        intros i. specialize (Hr i). unfold num_ref in *. cbn. lia.
      * intros q. rewrite elem_of_nil. split; [done|]. intros [[Hq1 Hq2] Hq3].
        pose proof (PGROUNDUP_aligned kend) as Ha. revert Hq1 Hq3 Ha Hb Hq2.
        unfold PGSIZE. intros. Z.div_mod_to_equations. lia.
  - unfold PHYSTOP, KERNBASE in *. change (Z.pos FUEL) with (2 ^ 64). lia.
Qed.

(** Error paths: a bad address, and a page nobody uses. *)
Lemma kfree_bad s p : ~ page_ok p -> kfree p s = Panic "decrease_num_ref".
Proof. intros H. unfold kfree. by rewrite bad_pa_bad. Qed.

Lemma kfree_unused s p :
  page_ok p -> num_ref s (p / PGSIZE) <= 0 ->
  kfree p s = Panic "decrease_num_ref: num_ref_to_page[pa/PGSIZE] == 0".
Proof.
  intros Hp Hr. unfold kfree. rewrite (proj2 (bad_pa_ok p) Hp).
  unfold get, mbind, M_bind. destruct (Z.leb_spec (num_ref s (p / PGSIZE)) 0); [done|lia].
Qed.

Lemma increase_num_ref_bad s p : ~ page_ok p -> increase_num_ref p s = Panic "increase_num_ref".
Proof. intros H. unfold increase_num_ref. by rewrite bad_pa_bad. Qed.

(** C30: allocation. While the free list [p :: l] is not empty [kalloc] returns
    its head, takes it off the list, gives it one reference and fills it
    with 5s; memory outside that page and the other counts stay the same.
    On the empty list it returns 0 and changes nothing. *)
Theorem kalloc_fresh s l :
  kmem_inv s l ->
  wp kalloc (fun r s' =>
    match l with
    | [] => r = 0 /\ s' = s
    | p :: l' => r = p /\ kmem_inv s' l' /\ num_ref s' (p / PGSIZE) = 1 /\ changed_page p s s' /\
        (forall x, in_page p x -> rd8 (kmem_mem s') x = 5) /\
        forall j, j <> p / PGSIZE -> num_ref s' j = num_ref s j
    end) s.
Proof.
  intros Hi. eapply wp_kalloc; [done|]. destruct l as [|p l]; [done|].
  intros s' Hi' Hr Hc H5. split; [done|]. split; [done|]. split; [by eapply ref_upd_at|].
  do 2 (split; [done|]). intros j Hj. rewrite Hr. by destruct (Z.eqb_spec j (p / PGSIZE)).
Qed.

(** C31: the last [kfree] of a page in use makes it the next page [kalloc]
    returns, and freeing it a second time instead is the panic of the code. *)
Theorem kfree_reuse s l p :
  kmem_inv s l -> page_ok p -> num_ref s (p / PGSIZE) = 1 ->
  wp (kfree p;; kalloc) (fun r s' => r = p /\ kmem_inv s' l) s /\
  (kfree p;; kfree p) s = Panic "decrease_num_ref: num_ref_to_page[pa/PGSIZE] == 0".
Proof.
  intros Hi Hp Hn. split.
  - apply wp_bind. eapply wp_kfree; [done|done|lia|]. rewrite Hn. cbn. intros s1 _ [Hi1 _].
    eapply wp_kalloc; [exact Hi1|]. by intros s2 Hi2 _ _ _.
  - assert (wp (kfree p) (fun _ s' => num_ref s' (p / PGSIZE) = 0) s) as (u & s1 & E & H0)%wp_ok.
    { eapply wp_kfree; [done|done|lia|]. rewrite Hn. cbn. intros s1 Hr _. by apply ref_upd_at in Hr. }
    destruct u. erewrite bind_Ok by exact E. apply kfree_unused; [done|lia].
Qed.

End kalloc.

(** ** Witnesses: three free pages, one page in use *)
Import Tiny.

Definition three_free : kst :=
  mkK (store64 (store64 ∅ (page 1) (page 2)) (page 2) (page 3)) (page 1) {[page 0 / PGSIZE := 1]} false.

Lemma page_5 : page_ok (page 5).
Proof. split; done. Qed.

Lemma three_free_inv : kmem_inv three_free [page 1; page 2; page 3].
Proof.
  split; [done|by vm_compute| | | |].
  - apply (bool_decide_eq_true_1 (NoDup [page 1; page 2; page 3])). vm_compute. reflexivity.
  - intros p Hp. rewrite !elem_of_cons, elem_of_nil in Hp. destruct Hp as [->|[->|[->|[]]]]; split; done.
  - intros p Hp. rewrite !elem_of_cons, elem_of_nil in Hp. destruct Hp as [->|[->|[->|[]]]]; done.
  - intros i. unfold num_ref, three_free. cbn [num_ref_to_page].
    destruct ({[page 0 / PGSIZE := 1]} !! i) as [n|] eqn:E; [|done].
    apply lookup_singleton_Some in E as [_ <-]. done.
Qed.

Lemma kinit_all_free_witness :
  exists u s' l, kinit (mkK ∅ 0 ∅ false) = Ok u s' /\ kmem_inv s' l /\ page 5 ∈ l.
Proof.
  destruct (proj1 (wp_ok _ _ _) (kinit_all_free (mkK ∅ 0 ∅ false) eq_refl ltac:(done))) as (u & s' & E & l & Hi & Hl).
  exists u, s', l. split; [exact E|]. split; [exact Hi|]. exact (proj2 (Hl _) page_5).
Defined.

Lemma kalloc_fresh_witness : exists s', kalloc three_free = Ok (page 1) s' /\ kmem_inv s' [page 2; page 3].
Proof.
  destruct (proj1 (wp_ok _ _ _) (kalloc_fresh three_free _ three_free_inv)) as (r & s' & E & -> & Hi & _).
  exists s'. split; [exact E|exact Hi].
Defined.

Lemma kfree_reuse_witness :
  (kfree (page 0);; kfree (page 0)) three_free = Panic "decrease_num_ref: num_ref_to_page[pa/PGSIZE] == 0".
Proof. exact (proj2 (kfree_reuse three_free _ (page 0) three_free_inv ltac:(split; done) ltac:(done))). Defined.
