(* ===== verification/Vm.v ===== *)
(** * Vm: page tables and user memory, [kernel/vm.c]

    The operations of [kernel/vm.c] on the page tables held in physical
    memory, the copy-on-write fault handler of [kernel/trap.c] that
    [copyout] calls, and the page-table functions of [kernel/proc.c].  They
    run in the allocator's state: every page-table page and every user page
    comes from [kalloc].

    A kernel buffer is a list of bytes.  [sfence_vma] only flushes the TLB,
    which has no state here.  Pointers are physical addresses; 0 is NULL. *)

From stdpp Require Import base list gmap strings.
From Stdlib Require Import ZArith Lia.
From S2P Require Import Prelude CMem Riscv Spinlock Kalloc.
Import CString.

(** [kernel/param.h] *)
Definition NPROC : nat := 64.

Definition read64 (a : Z) : M kst Z := gets (fun s => load64 (kmem_mem s) a).
Definition write64 (a v : Z) : M kst unit := set_mem (fun m => store64 m a v).
Definition memset_at (p c n : Z) : M kst unit :=
  nonnull p;; set_mem (fun m => memset m p c n).

#[export] Hint Unfold read64 write64 memset_at : xv6_op.

Section vm.
Context `{L : Layout}.

(** The loop of [walk]: [level] levels are left above the last one. *)
Fixpoint walk_loop (level : nat) (pagetable va : Z) (alloc : bool) : M kst Z :=
  match level with
  | O => mret (pagetable + 8 * PX 0 va)
  | S level' =>
      let pte := pagetable + 8 * PX (Z.of_nat level) va in
      v ← read64 pte;
      if has v PTE_V then walk_loop level' (PTE2PA v) va alloc
      else if negb alloc then mret 0
      else
        pt ← kalloc;
        if pt =? 0 then mret 0 else
        memset_at pt 0 PGSIZE;;
        write64 pte (Z.lor (PA2PTE pt) PTE_V);;
        walk_loop level' pt va alloc
  end.

Definition walk (pagetable va : Z) (alloc : bool) : M kst Z :=
  if MAXVA <=? va then panic "walk" else walk_loop 2 pagetable va alloc.

Definition walkaddr (pagetable va : Z) : M kst Z :=
  if MAXVA <=? va then mret 0 else
  pte ← walk pagetable va false;
  if pte =? 0 then mret 0 else
  v ← read64 pte;
  if negb (has v PTE_V) then mret 0 else
  if negb (has v PTE_U) then mret 0 else
  mret (PTE2PA v).

Definition mappages (pagetable va size pa perm : Z) : M kst Z :=
  if size =? 0 then panic "mappages: size" else
  let last := PGROUNDDOWN (u64 (va + size - 1)) in
  while (fun '(a, pa) =>
    pte ← walk pagetable a true;
    if pte =? 0 then mret (inr (-1)) else
    v ← read64 pte;
    if has v PTE_V then panic "mappages: remap" else
    write64 pte (Z.lor (Z.lor (PA2PTE pa) perm) PTE_V);;
    if a =? last then mret (inr 0)
    else mret (inl (u64 (a + PGSIZE), u64 (pa + PGSIZE)))) (PGROUNDDOWN va, pa).

Definition kvmmap (kpgtbl va pa sz perm : Z) : M kst unit :=
  r ← mappages kpgtbl va sz pa perm;
  if negb (r =? 0) then panic "kvmmap" else mret tt.

Definition uvmunmap (pagetable va npages : Z) (do_free : bool) : M kst unit :=
  if negb (va mod PGSIZE =? 0) then panic "uvmunmap: not aligned" else
  while (fun a =>
    if negb (a <? u64 (va + npages * PGSIZE)) then mret (inr tt) else
    pte ← walk pagetable a false;
    if pte =? 0 then panic "uvmunmap: walk" else
    v ← read64 pte;
    if negb (has v PTE_V) then panic "uvmunmap: not mapped" else
    if PTE_FLAGS v =? PTE_V then panic "uvmunmap: not a leaf" else
    when do_free (kfree (PTE2PA v));;
    write64 pte 0;;
    mret (inl (u64 (a + PGSIZE)))) va.

Definition uvmcreate : M kst Z :=
  pagetable ← kalloc;
  if pagetable =? 0 then mret 0 else
  memset_at pagetable 0 PGSIZE;;
  mret pagetable.

Definition uvmfirst (pagetable : Z) (src : list Z) (sz : Z) : M kst unit :=
  if PGSIZE <=? sz then panic "uvmfirst: more than a page" else
  pa ← kalloc;
  memset_at pa 0 PGSIZE;;
  mappages pagetable 0 PGSIZE pa (Z.lor (Z.lor (Z.lor PTE_W PTE_R) PTE_X) PTE_U);;
  set_mem (fun m => wrbytes m pa (take (Z.to_nat sz) src)).

Definition uvmdealloc (pagetable oldsz newsz : Z) : M kst Z :=
  if oldsz <=? newsz then mret oldsz else
  when (PGROUNDUP newsz <? PGROUNDUP oldsz)
    (let npages := i32 ((PGROUNDUP oldsz - PGROUNDUP newsz) / PGSIZE) in
     uvmunmap pagetable (PGROUNDUP newsz) (u64 npages) true);;
  mret newsz.

Definition uvmalloc (pagetable oldsz newsz xperm : Z) : M kst Z :=
  if newsz <? oldsz then mret oldsz else
  let oldsz := PGROUNDUP oldsz in
  while (fun a =>
    if negb (a <? newsz) then mret (inr newsz) else
    pa ← kalloc;
    if pa =? 0 then
      uvmdealloc pagetable a oldsz;;
      mret (inr 0)
    else
    memset_at pa 0 PGSIZE;;
    r ← mappages pagetable a PGSIZE pa (Z.lor (Z.lor PTE_R PTE_U) xperm);
    if negb (r =? 0) then
      kfree pa;;
      uvmdealloc pagetable a oldsz;;
      mret (inr 0)
    else mret (inl (u64 (a + PGSIZE)))) oldsz.

(** [freewalk] recurses once per page-table level. *)
Fixpoint freewalk_rec (depth : nat) (pagetable : Z) : M kst unit :=
  match depth with
  | O => out_of_fuel
  | S depth' =>
      for_each (seqZ 0 512) (fun i =>
        pte ← read64 (pagetable + 8 * i);
        if has pte PTE_V && (Z.land pte (Z.lor (Z.lor PTE_R PTE_W) PTE_X) =? 0) then
          freewalk_rec depth' (PTE2PA pte);;
          write64 (pagetable + 8 * i) 0
        else if has pte PTE_V then panic "freewalk: leaf"
        else mret tt);;
      kfree pagetable
  end.

Definition freewalk (pagetable : Z) : M kst unit := freewalk_rec 3 pagetable.

Definition uvmfree (pagetable sz : Z) : M kst unit :=
  when (0 <? sz) (uvmunmap pagetable 0 (PGROUNDUP sz / PGSIZE) true);;
  freewalk pagetable.

Definition uvmcopy (old new sz : Z) : M kst Z :=
  while (fun i =>
    if negb (i <? sz) then mret (inr 0) else
    pte ← walk old i false;
    if pte =? 0 then panic "uvmcopy: pte should exist" else
    v ← read64 pte;
    if negb (has v PTE_V) then panic "uvmcopy: page not present" else
    let pa := PTE2PA v in
    v ← read64 pte;
    write64 pte (Z.land v (Z.lnot PTE_W));;
    v ← read64 pte;
    write64 pte (Z.lor v PTE_COW);;
    v ← read64 pte;
    let flags := PTE_FLAGS v in
    increase_num_ref pa;;
    r ← mappages new i PGSIZE pa flags;
    if negb (r =? 0) then
      uvmunmap new 0 (i / PGSIZE) true;;
      mret (inr (-1))
    else mret (inl (u64 (i + PGSIZE)))) 0.

Definition uvmclear (pagetable va : Z) : M kst unit :=
  pte ← walk pagetable va false;
  if pte =? 0 then panic "uvmclear" else
  v ← read64 pte;
  write64 pte (Z.land v (Z.lnot PTE_U)).

(** [kernel/trap.c]: the copy-on-write fault handler. *)
Definition cowfault (pagetable va : Z) : M kst Z :=
  if MAXVA <=? va then mret (-1) else
  if va =? 0 then mret (-1) else
  pte ← walk pagetable va false;
  if pte =? 0 then mret (-1) else
  v ← read64 pte;
  if negb (has v PTE_U) || negb (has v PTE_V) then mret (-1) else
  if negb (has v PTE_COW) then mret 0 else
  let pa := PTE2PA v in
  pa_new ← kalloc;
  if pa_new =? 0 then mret (-1) else
  set_mem (fun m => memmove m pa_new pa PGSIZE);;
  write64 pte (Z.lor (Z.lor (Z.lor (Z.lor (Z.lor (PA2PTE pa_new) PTE_U) PTE_V) PTE_W) PTE_X) PTE_R);;
  v ← read64 pte;
  write64 pte (Z.land v (Z.lnot PTE_COW));;
  kfree pa;;
  mret 0.

(** [src] is the kernel buffer, [len] bytes of it. *)
Definition copyout (pagetable dstva : Z) (src : list Z) : M kst Z :=
  while (fun '(dstva, src) =>
    let len := Z.of_nat (length src) in
    if negb (0 <? len) then mret (inr 0) else
    let va0 := PGROUNDDOWN dstva in
    if MAXVA <? va0 then mret (inr (-1)) else
    r ← cowfault pagetable va0;
    if r <? 0 then mret (inr (-1)) else
    pa0 ← walkaddr pagetable va0;
    if pa0 =? 0 then mret (inr (-1)) else
    let n := PGSIZE - (dstva - va0) in
    let n := if len <? n then len else n in
    set_mem (fun m => wrbytes m (pa0 + (dstva - va0)) (take (Z.to_nat n) src));;
    mret (inl (u64 (va0 + PGSIZE), drop (Z.to_nat n) src))) (dstva, src).

(** The bytes copied so far are the second component of the result. *)
Definition copyin (pagetable srcva len : Z) : M kst (Z * list Z) :=
  while (fun '(srcva, len, dst) =>
    if negb (0 <? len) then mret (inr (0, dst)) else
    let va0 := PGROUNDDOWN srcva in
    pa0 ← walkaddr pagetable va0;
    if pa0 =? 0 then mret (inr (-1, dst)) else
    let n := PGSIZE - (srcva - va0) in
    let n := if len <? n then len else n in
    bs ← gets (fun s => rdbytes (kmem_mem s) (pa0 + (srcva - va0)) (Z.to_nat n));
    mret (inl (u64 (va0 + PGSIZE), len - n, dst ++ bs))) (srcva, len, []).

(** The inner loop of [copyinstr] over one page: the bytes stored, whether
    the terminator was seen. *)
Fixpoint copyinstr_page (m : mem) (p : Z) (n : nat) : list Z * bool :=
  match n with
  | O => ([], false)
  | S n' =>
      if rd8 m p =? 0 then ([0], true)
      else let '(l, got) := copyinstr_page m (p + 1) n' in (rd8 m p :: l, got)
  end.

Definition copyinstr (pagetable srcva max : Z) : M kst (Z * list Z) :=
  while (fun '(srcva, max, dst) =>
    if negb (0 <? max) then mret (inr (-1, dst)) else
    let va0 := PGROUNDDOWN srcva in
    pa0 ← walkaddr pagetable va0;
    if pa0 =? 0 then mret (inr (-1, dst)) else
    let n := PGSIZE - (srcva - va0) in
    let n := if max <? n then max else n in
    '(bs, got_null) ← gets (fun s => copyinstr_page (kmem_mem s) (pa0 + (srcva - va0)) (Z.to_nat n));
    if (got_null : bool) then mret (inr (0, dst ++ bs))
    else mret (inl (u64 (va0 + PGSIZE), max - n, dst ++ bs))) (srcva, max, []).

(** [kernel/proc.c]: the page tables of processes. *)
Definition proc_mapstacks (kpgtbl : Z) : M kst unit :=
  for_each (seqZ 0 (Z.of_nat NPROC)) (fun p =>
    pa ← kalloc;
    if pa =? 0 then panic "kalloc" else
    kvmmap kpgtbl (KSTACK p) pa PGSIZE (Z.lor PTE_R PTE_W)).

Definition kvmmake : M kst Z :=
  kpgtbl ← kalloc;
  memset_at kpgtbl 0 PGSIZE;;
  kvmmap kpgtbl UART0 UART0 PGSIZE (Z.lor PTE_R PTE_W);;
  kvmmap kpgtbl VIRTIO0 VIRTIO0 PGSIZE (Z.lor PTE_R PTE_W);;
  kvmmap kpgtbl PLIC PLIC 0x400000 (Z.lor PTE_R PTE_W);;
  kvmmap kpgtbl KERNBASE KERNBASE (etext - KERNBASE) (Z.lor PTE_R PTE_X);;
  kvmmap kpgtbl etext etext (PHYSTOP - etext) (Z.lor PTE_R PTE_W);;
  kvmmap kpgtbl TRAMPOLINE trampoline PGSIZE (Z.lor PTE_R PTE_X);;
  proc_mapstacks kpgtbl;;
  mret kpgtbl.

Definition proc_pagetable (trapframe : Z) : M kst Z :=
  pagetable ← uvmcreate;
  if pagetable =? 0 then mret 0 else
  r ← mappages pagetable TRAMPOLINE PGSIZE trampoline (Z.lor PTE_R PTE_X);
  if r <? 0 then uvmfree pagetable 0;; mret 0 else
  r ← mappages pagetable TRAPFRAME PGSIZE trapframe (Z.lor PTE_R PTE_W);
  if r <? 0 then
    uvmunmap pagetable TRAMPOLINE 1 false;;
    uvmfree pagetable 0;;
    mret 0
  else mret pagetable.

Definition proc_freepagetable (pagetable sz : Z) : M kst unit :=
  uvmunmap pagetable TRAMPOLINE 1 false;;
  uvmunmap pagetable TRAPFRAME 1 false;;
  uvmfree pagetable sz.

End vm.
