(* ===== verification/PageTable.v ===== *)
(** * PageTable: what the page tables in memory mean

    [pt_rep m T] says that the three-level table at [t_root T] in memory [m]
    consists of exactly the pages named by [T]; [pte_at m T va] is the
    page-table entry it holds for [va] (0 when a level is missing).  The
    operations of [Vm] are specified by what they do to [pte_at]. *)

From stdpp Require Import base list gmap strings.
From Stdlib Require Import ZArith Lia.
From S2P Require Import Prelude CMem Riscv Spinlock Kalloc Vm.
Import CString.

(** The page-table pages of an address space: the root, the pages that its
    valid entries point to, and the pages those point to. *)
Record ptree := mkT {
  t_root : Z;
  t_l1 : gmap Z Z;
  t_l0 : gmap (Z * Z) Z;
}.

Definition idx (i : Z) : Prop := 0 <= i < 512.

Definition pt_page (T : ptree) (p : Z) : Prop :=
  p = t_root T \/ (exists i, t_l1 T !! i = Some p) \/ (exists k, t_l0 T !! k = Some p).

(** The entry at address [a] points to page [t] of the next level, or is
    invalid. *)
Definition entry (m : mem) (a : Z) (o : option Z) : Prop :=
  match o with
  | Some t => has (load64 m a) PTE_V = true /\ PTE2PA (load64 m a) = t /\
      Z.land (load64 m a) (Z.lor (Z.lor PTE_R PTE_W) PTE_X) = 0
  | None => has (load64 m a) PTE_V = false
  end.

(** The address of the last-level entry for [va], and the entry. *)
Definition leaf (T : ptree) (va : Z) : option Z :=
  (fun u => u + 8 * PX 0 va) <$> t_l0 T !! (PX 2 va, PX 1 va).
Definition pte_at (m : mem) (T : ptree) (va : Z) : Z :=
  match leaf T va with Some a => load64 m a | None => 0 end.

Section pagetable.
Context `{L : Layout}.

Record pt_rep (m : mem) (T : ptree) : Prop := {
  pr_l1 : forall i, idx i -> entry m (t_root T + 8 * i) (t_l1 T !! i);
  pr_l0 : forall i t j, t_l1 T !! i = Some t -> idx j -> entry m (t + 8 * j) (t_l0 T !! (i, j));
  pr_idx1 : forall i t, t_l1 T !! i = Some t -> 0 <= i < 256;
  pr_idx0 : forall i j u, t_l0 T !! (i, j) = Some u -> idx j /\ is_Some (t_l1 T !! i);
  pr_ok : forall p, pt_page T p -> page_ok p;
  pr_inj1 : forall i i' p, t_l1 T !! i = Some p -> t_l1 T !! i' = Some p -> i = i';
  pr_inj0 : forall k k' p, t_l0 T !! k = Some p -> t_l0 T !! k' = Some p -> k = k';
  pr_root1 : forall i, t_l1 T !! i <> Some (t_root T);
  pr_root0 : forall k, t_l0 T !! k <> Some (t_root T);
  pr_l1_l0 : forall i k p, t_l1 T !! i = Some p -> t_l0 T !! k <> Some p;
}.

Lemma idx_PX level va : 0 <= level -> idx (PX level va).
Proof. apply PX_range. Qed.

Lemma entry_in_page p i x : idx i -> p + 8 * i <= x < p + 8 * i + 8 -> in_page p x.
Proof. unfold idx, in_page, PGSIZE. lia. Qed.

Lemma rd8_store_page p j m v x :
  idx j -> ~ in_page p x -> rd8 (store64 m (p + 8 * j) v) x = rd8 m x.
Proof. unfold idx, in_page, PGSIZE. intros. apply rd8_store64_out. lia. Qed.

Lemma pt_page_root T : pt_page T (t_root T).
Proof. by left. Qed.
Lemma pt_page_l1 T i t : t_l1 T !! i = Some t -> pt_page T t.
Proof. right. left. eauto. Qed.
Lemma pt_page_l0 T k u : t_l0 T !! k = Some u -> pt_page T u.
Proof. right. right. eauto. Qed.
Hint Resolve pt_page_root pt_page_l1 pt_page_l0 idx_PX : core.

(** The table only depends on the bytes of its own pages. *)
Lemma pt_rep_frame m m' T :
  (forall p x, pt_page T p -> in_page p x -> rd8 m' x = rd8 m x) ->
  pt_rep m T -> pt_rep m' T.
Proof.
  intros Hm [H1 H0 Hi1 Hi0 Hok]. split; try done.
  - intros i Hi. specialize (H1 i Hi). unfold entry in *.
    rewrite (load64_ext m' m); [done|]. intros x Hx. eapply Hm; [done|by eapply entry_in_page].
  - intros i t j Ht Hj. specialize (H0 i t j Ht Hj). unfold entry in *.
    rewrite (load64_ext m' m); [done|]. intros x Hx. eapply Hm; [by eapply pt_page_l1|by eapply entry_in_page].
Qed.

Lemma leaf_page T va a :
  leaf T va = Some a -> exists u, t_l0 T !! (PX 2 va, PX 1 va) = Some u /\ a = u + 8 * PX 0 va /\ pt_page T u.
Proof.
  unfold leaf. destruct (t_l0 T !! _) as [u|] eqn:E; [|done]. intros [= <-]. eauto.
Qed.

Lemma leaf_in_page T va a x :
  leaf T va = Some a -> a <= x < a + 8 -> exists p, pt_page T p /\ in_page p x.
Proof.
  intros (u & Hu & -> & Hp)%leaf_page Hx. exists u. split; [done|]. eapply entry_in_page; [|done]. by apply idx_PX.
Qed.

Lemma pte_at_frame m m' T va :
  (forall p x, pt_page T p -> in_page p x -> rd8 m' x = rd8 m x) ->
  pte_at m' T va = pte_at m T va.
Proof.
  intros Hm. unfold pte_at. destruct (leaf T va) as [a|] eqn:E; [|done].
  apply load64_ext. intros x Hx. destruct (leaf_in_page T va a x E Hx) as (p & Hp & Hin). eauto.
Qed.

(** Same page, same entry. *)
Lemma leaf_same_page T va vb : PGROUNDDOWN va = PGROUNDDOWN vb -> leaf T va = leaf T vb.
Proof.
  intros H. unfold leaf. by rewrite !(PX_same_page _ va vb) by (done || lia).
Qed.

(** Different pages, different entries, and they do not overlap. *)
Lemma leaf_apart m T va vb a b :
  pt_rep m T -> 0 <= va < MAXVA -> 0 <= vb < MAXVA -> leaf T va = Some a -> leaf T vb = Some b ->
  PGROUNDDOWN va <> PGROUNDDOWN vb -> a + 8 <= b \/ b + 8 <= a.
Proof.
  intros HR Hva Hvb (u & Hu & -> & Hpu)%leaf_page (v & Hv & -> & Hpv)%leaf_page Hne.
  pose proof (PX_range 0 va ltac:(lia)). pose proof (PX_range 0 vb ltac:(lia)).
  destruct (decide (u = v)) as [->|Huv].
  - pose proof (pr_inj0 _ _ HR _ _ _ Hu Hv) as [= E2 E1].
    destruct (decide (PX 0 va = PX 0 vb)) as [E0|]; [|lia].
    exfalso. apply Hne. by apply PX_inj.
  - apply pr_ok with (p := u) in HR as Hu'; [|done]. apply pr_ok with (p := v) in HR as Hv'; [|done].
    destruct Hu' as [Hu0 _], Hv' as [Hv0 _]. unfold PGSIZE in *. Z.div_mod_to_equations. lia.
Qed.

(** ** [walk] without allocation *)

Lemma read64_run a s : read64 a s = Ok (load64 (kmem_mem s) a) s.
Proof. done. Qed.

Lemma walk_noalloc s T va :
  pt_rep (kmem_mem s) T -> 0 <= va < MAXVA ->
  walk (t_root T) va false s = Ok (default 0 (leaf T va)) s.
Proof.
  intros HR Hva. unfold walk. destruct (Z.leb_spec MAXVA va); [lia|].
  cbn [walk_loop]. unfold leaf.
  pose proof (pr_l1 _ _ HR (PX 2 va) ltac:(by apply idx_PX)) as E2. unfold entry in E2.
  erewrite bind_Ok by apply read64_run. change (Z.of_nat 2) with 2. cbn [negb].
  destruct (t_l1 T !! PX 2 va) as [t|] eqn:Et.
  - destruct E2 as (-> & -> & _). erewrite bind_Ok by apply read64_run. change (Z.of_nat 1) with 1.
    pose proof (pr_l0 _ _ HR _ _ (PX 1 va) Et ltac:(by apply idx_PX)) as E1. unfold entry in E1.
    destruct (t_l0 T !! _) as [u|]; [|by rewrite E1]. by destruct E1 as (-> & -> & _).
  - rewrite E2. destruct (t_l0 T !! _) as [u|] eqn:E0; [|done].
    apply (pr_idx0 _ _ HR) in E0 as [_ [? ?]]. congruence.
Qed.

Lemma walk_toobig root va alloc s : MAXVA <= va -> walk root va alloc s = Panic "walk".
Proof. intros. unfold walk. by destruct (Z.leb_spec MAXVA va); [|lia]. Qed.

Lemma wp_walk_noalloc s T va (Q : Z -> kst -> Prop) :
  pt_rep (kmem_mem s) T -> 0 <= va < MAXVA -> Q (default 0 (leaf T va)) s ->
  wp (walk (t_root T) va false) Q s.
Proof. intros HR Hva HQ. eapply wp_eq; [by apply walk_noalloc|done]. Qed.

(** ** Growing the table *)

Context {LO : LayoutOk L}.

(** A leaf address is never NULL. *)
Lemma leaf_nonzero m T va a : pt_rep m T -> leaf T va = Some a -> a <> 0.
Proof.
  intros HR (u & Hu & -> & Hp)%leaf_page. pose proof (page_ok_pos _ (pr_ok _ _ HR _ Hp)).
  pose proof (PX_range 0 va ltac:(lia)). lia.
Qed.

Lemma wp_walk_leaf s T va (Q : Z -> kst -> Prop) :
  pt_rep (kmem_mem s) T -> 0 <= va < MAXVA ->
  (leaf T va = None -> Q 0 s) ->
  (forall a, leaf T va = Some a -> a <> 0 -> (forall m, load64 m a = pte_at m T va) -> Q a s) ->
  wp (walk (t_root T) va false) Q s.
Proof.
  intros HR Hva H0 H1. apply wp_walk_noalloc; [done|done|].
  destruct (leaf T va) as [a|] eqn:E; [|by apply H0].
  apply (H1 a); [done|by eapply leaf_nonzero|]. intros m. unfold pte_at. by rewrite E.
Qed.

Definition grow1 (T : ptree) (i t : Z) : ptree := mkT (t_root T) (<[i := t]> (t_l1 T)) (t_l0 T).
Definition grow0 (T : ptree) (i j u : Z) : ptree := mkT (t_root T) (t_l1 T) (<[(i, j) := u]> (t_l0 T)).

(** [m'] is [m] with page [t] zeroed and the entry at [a] pointing to it. *)
Record linked (m m' : mem) (a t : Z) : Prop := {
  lk_entry : load64 m' a = Z.lor (PA2PTE t) PTE_V;
  lk_zero : forall x, in_page t x -> rd8 m' x = 0;
  lk_same : forall x, ~ in_page t x -> ~ (a <= x < a + 8) -> rd8 m' x = rd8 m x;
}.

Lemma link_value t :
  page_ok t -> has (Z.lor (PA2PTE t) PTE_V) PTE_V = true /\ PTE2PA (Z.lor (PA2PTE t) PTE_V) = t /\
  Z.land (Z.lor (PA2PTE t) PTE_V) (Z.lor (Z.lor PTE_R PTE_W) PTE_X) = 0.
Proof.
  intros Ht. split_and!.
  - rewrite has_V, PTE_flag_bit by lia. done.
  - apply PTE2PA_PA2PTE; [by apply page_ok_addr|done].
  - apply Z.bits_inj'. intros n Hn. rewrite Z.land_spec, Z.bits_0.
    destruct (Z.lt_ge_cases n 10).
    + rewrite PTE_flag_bit by lia. rewrite <- Z.land_spec. apply Z.bits_0.
    + rewrite (Z.bits_above_log2 (Z.lor _ PTE_X)), andb_false_r; [done|done|].
      change (Z.log2 _) with 3. lia.
Qed.

Lemma zero_entry m a : load64 m a = 0 -> entry m a None.
Proof. unfold entry. by intros ->. Qed.

(** The entries of the other pages do not change when [t] is linked. *)
Lemma linked_load m m' a t b p :
  linked m m' a t -> page_ok p -> page_ok t -> p <> t ->
  (forall x, b <= x < b + 8 -> in_page p x) -> b + 8 <= a \/ a + 8 <= b ->
  load64 m' b = load64 m b.
Proof.
  intros [_ _ Hs] [Hp _] [Ht _] Hne Hin Hd. apply load64_ext. intros x Hx.
  apply Hs; [|lia]. by apply (page_disjoint p t); [..|apply Hin].
Qed.

Lemma linked_zero m m' a t j : linked m m' a t -> idx j -> load64 m' (t + 8 * j) = 0.
Proof.
  intros [_ Hz _] Hj. apply load64_zero. intros x Hx. apply Hz. by eapply entry_in_page.
Qed.

Section grow.
Context (m m' : mem) (T : ptree) (HR : pt_rep m T).

Lemma entry_apart p q i j :
  page_ok p -> page_ok q -> p <> q \/ i <> j -> idx i -> idx j ->
  p + 8 * i + 8 <= q + 8 * j \/ q + 8 * j + 8 <= p + 8 * i.
Proof.
  unfold idx, page_ok, PGSIZE. intros [Hp _] [Hq _] Hne Hi Hj. Z.div_mod_to_equations. lia.
Qed.

Lemma pt_grow1 i t :
  t_l1 T !! i = None -> idx i -> i < 256 -> page_ok t -> ~ pt_page T t ->
  linked m m' (t_root T + 8 * i) t -> pt_rep m' (grow1 T i t).
Proof.
  intros Hi Hx Hx2 Ht Hnew Hl. pose proof (pr_ok _ _ HR) as Hok.
  assert (forall p, pt_page T p -> p <> t) as Hne by (intros p Hp ->; done).
  assert (page_ok (t_root T)) as Hrt by auto.
  split; cbn.
  - intros j Hj. destruct (decide (j = i)) as [->|Hji].
    + rewrite lookup_insert_eq. unfold entry. rewrite (lk_entry _ _ _ _ Hl). by apply link_value.
    + rewrite lookup_insert_ne by done. pose proof (pr_l1 _ _ HR j Hj) as He. unfold entry in *.
      erewrite (linked_load m m'); [done|done|exact Hrt|done|auto| |].
      * intros x. by apply entry_in_page.
      * apply entry_apart; auto.
  - intros i' t' j Ht' Hj. destruct (decide (i' = i)) as [->|].
    + rewrite lookup_insert_eq in Ht'. injection Ht' as <-.
      destruct (t_l0 T !! (i, j)) as [u|] eqn:E0; [|by eapply zero_entry, linked_zero].
      apply (pr_idx0 _ _ HR) in E0 as [_ [? ?]]. congruence.
    + rewrite lookup_insert_ne in Ht' by done.
      pose proof (pr_l0 _ _ HR _ _ j Ht' Hj) as He. unfold entry in *.
      erewrite (linked_load m m' _ t _ t'); [done|done|eauto|done|eauto| |].
      * intros x. by apply entry_in_page.
      * apply entry_apart; eauto. left. intros ->. by apply (pr_root1 _ _ HR) in Ht'.
  - intros i' t'. destruct (decide (i' = i)) as [->|]; [intros _; unfold idx in Hx; lia|]. rewrite lookup_insert_ne by done.
    apply (pr_idx1 _ _ HR).
  - intros i' j u E0. apply (pr_idx0 _ _ HR) in E0 as [? Hs]. split; [done|].
    destruct (decide (i' = i)) as [->|]; [rewrite lookup_insert_eq; eauto|by rewrite lookup_insert_ne].
  - intros p [->|[[i' Hp]|[k Hp]]]; cbn in *; eauto.
    apply lookup_insert_Some in Hp as [[? <-]|[? Hp]]; eauto.
  - intros a b p [[??]|[? Ha]]%lookup_insert_Some [[??]|[? Hb]]%lookup_insert_Some; subst; try done.
    + by destruct (Hne _ (pt_page_l1 _ _ _ Hb)).
    + by destruct (Hne _ (pt_page_l1 _ _ _ Ha)).
    + by apply (pr_inj1 _ _ HR a b p).
  - apply (pr_inj0 _ _ HR).
  - intros a [[??]|[? Ha]]%lookup_insert_Some; [by eapply Hne|by apply (pr_root1 _ _ HR) in Ha].
  - apply (pr_root0 _ _ HR).
  - intros a k p [[? ->]|[? Ha]]%lookup_insert_Some Hk; [eapply Hne; [|done]; eauto|by eapply (pr_l1_l0 _ _ HR)].
Qed.

Lemma pt_grow0 i j t u :
  t_l1 T !! i = Some t -> t_l0 T !! (i, j) = None -> idx j -> page_ok u -> ~ pt_page T u ->
  linked m m' (t + 8 * j) u -> pt_rep m' (grow0 T i j u).
Proof.
  intros Hi H0 Hx Hu Hnew Hl. pose proof (pr_ok _ _ HR) as Hok.
  assert (forall p, pt_page T p -> p <> u) as Hne by (intros p Hp ->; done).
  assert (page_ok (t_root T)) as Hrt by auto. assert (page_ok t) as Ht by eauto.
  split; cbn.
  - intros k Hk. pose proof (pr_l1 _ _ HR k Hk) as He. unfold entry in *.
    erewrite (linked_load m m'); [done|done|exact Hrt|done|auto| |].
    + intros x. by apply entry_in_page.
    + apply entry_apart; auto. left. intros E. subst t. by apply (pr_root1 _ _ HR) in Hi.
  - intros i' t' k Ht' Hk. destruct (decide ((i', k) = (i, j))) as [[= -> ->]|Hij].
    + rewrite Hi in Ht'. injection Ht' as <-. rewrite lookup_insert_eq. unfold entry.
      rewrite (lk_entry _ _ _ _ Hl). by apply link_value.
    + rewrite lookup_insert_ne by congruence.
      pose proof (pr_l0 _ _ HR _ _ k Ht' Hk) as He. unfold entry in *.
      erewrite (linked_load m m' _ u _ t'); [done|done|eauto|done|eauto| |].
      * intros x. by apply entry_in_page.
      * apply entry_apart; eauto. destruct (decide (t' = t)) as [->|]; [|by left].
        pose proof (pr_inj1 _ _ HR _ _ _ Ht' Hi). subst. right. congruence.
  - apply (pr_idx1 _ _ HR).
  - intros i' k u' E0. destruct (decide ((i', k) = (i, j))) as [[= -> ->]|]; [eauto|].
    rewrite lookup_insert_ne in E0 by congruence. by apply (pr_idx0 _ _ HR) in E0.
  - intros p [->|[[i' Hp]|[k Hp]]]; cbn in *; eauto.
    apply lookup_insert_Some in Hp as [[? <-]|[? Hp]]; eauto.
  - apply (pr_inj1 _ _ HR).
  - intros a b p [[??]|[? Ha]]%lookup_insert_Some [[??]|[? Hb]]%lookup_insert_Some; subst; try done.
    + by destruct (Hne _ (pt_page_l0 _ _ _ Hb)).
    + by destruct (Hne _ (pt_page_l0 _ _ _ Ha)).
    + by apply (pr_inj0 _ _ HR a b p).
  - apply (pr_root1 _ _ HR).
  - intros a [[??]|[? Ha]]%lookup_insert_Some; [by eapply Hne|by apply (pr_root0 _ _ HR) in Ha].
  - intros a k p Ha [[? ->]|[? Hk]]%lookup_insert_Some; [eapply Hne; [|done]; eauto|by eapply (pr_l1_l0 _ _ HR)].
Qed.

(** Linking an empty page changes no entry. *)
Lemma pte_grow1 i t va :
  idx i -> page_ok t -> ~ pt_page T t -> linked m m' (t_root T + 8 * i) t ->
  pte_at m' (grow1 T i t) va = pte_at m T va.
Proof.
  intros Hx Ht Hnew Hl. unfold pte_at, leaf. cbn.
  destruct (t_l0 T !! _) as [u|] eqn:Eu; [|done]. cbn.
  eapply (linked_load m m' _ t _ u); [done|eapply pr_ok; eauto|done| | |].
  - intros ->. apply Hnew. eauto.
  - intros x. apply entry_in_page. by apply idx_PX.
  - apply entry_apart; [eapply pr_ok; eauto..| |by apply idx_PX|done].
    left. intros ->. by apply (pr_root0 _ _ HR) in Eu.
Qed.

Lemma pte_grow0 i j t u va :
  t_l1 T !! i = Some t -> t_l0 T !! (i, j) = None -> idx j -> page_ok u -> ~ pt_page T u ->
  linked m m' (t + 8 * j) u -> pte_at m' (grow0 T i j u) va = pte_at m T va.
Proof.
  intros Hi H0 Hx Hu Hnew Hl. unfold pte_at, leaf. cbn.
  destruct (decide ((PX 2 va, PX 1 va) = (i, j))) as [E|E].
  - rewrite E, lookup_insert_eq, H0. cbn. eapply linked_zero; [done|by apply idx_PX].
  - rewrite lookup_insert_ne by congruence. destruct (t_l0 T !! (PX 2 va, PX 1 va)) as [v|] eqn:Ev; [|done]. cbn.
    eapply (linked_load m m' _ u _ v); [done|eapply pr_ok; eauto|done| | |].
    + intros ->. apply Hnew. eauto.
    + intros x. apply entry_in_page. by apply idx_PX.
    + apply entry_apart; [eapply pr_ok; eauto..| |by apply idx_PX|done].
      left. intros ->. by eapply (pr_l1_l0 _ _ HR).
Qed.

End grow.

(** ** Address spaces and the allocator *)

(** [T] is the table at its root, none of its pages is free. *)
Record as_ok (s : kst) (l : list Z) (T : ptree) : Prop := {
  ao_inv : kmem_inv s l;
  ao_rep : pt_rep (kmem_mem s) T;
  ao_pages : forall p, pt_page T p -> p ∉ l;
}.

(** [T] became [T'], using up the first free pages; only memory of [T'] and
    the counts of the new pages changed. *)
Record grows (s : kst) (l : list Z) (T : ptree) (s' : kst) (l' : list Z) (T' : ptree) (taken : list Z) : Prop := {
  g_ok : as_ok s' l' T';
  g_list : l = taken ++ l';
  g_root : t_root T' = t_root T;
  g_pages : forall p, pt_page T' p <-> pt_page T p \/ p ∈ taken;
  g_mem : forall x, (forall p, pt_page T' p -> ~ in_page p x) -> rd8 (kmem_mem s') x = rd8 (kmem_mem s) x;
  g_ref_new : forall p, p ∈ taken -> num_ref s' (p / PGSIZE) = 1;
  g_ref : forall p, p mod PGSIZE = 0 -> p ∉ taken -> num_ref s' (p / PGSIZE) = num_ref s (p / PGSIZE);
}.

Definition same_ptes (m : mem) (T : ptree) (m' : mem) (T' : ptree) : Prop :=
  forall va, pte_at m' T' va = pte_at m T va.

Lemma grows_refl s l T : as_ok s l T -> grows s l T s l T [].
Proof.
  intros H. split; try done; try (intros p Hp; by apply elem_of_nil in Hp).
  intros p. rewrite elem_of_nil. tauto.
Qed.

Lemma grows_trans s l T s1 l1 T1 t1 s2 l2 T2 t2 :
  grows s l T s1 l1 T1 t1 -> grows s1 l1 T1 s2 l2 T2 t2 -> grows s l T s2 l2 T2 (t1 ++ t2).
Proof.
  intros [A1 B1 C1 D1 E1 F1 G1] [A2 B2 C2 D2 E2 F2 G2].
  pose proof (ki_nodup _ _ (ao_inv _ _ _ A1)) as _.
  assert (forall p, p ∈ t1 -> p mod PGSIZE = 0 /\ p ∉ t2) as Ht.
  { intros p Hp. assert (pt_page T1 p) as Hp1 by (apply D1; by right). split.
    - apply (pr_ok _ _ (ao_rep _ _ _ A1) p Hp1).
    - intros Hin. apply (ao_pages _ _ _ A1 p Hp1). rewrite B2. apply elem_of_app. by left. }
  split.
  - done.
  - by rewrite B1, B2, app_assoc.
  - congruence.
  - intros p. rewrite D2, D1, elem_of_app. tauto.
  - intros x Hx. rewrite E2 by done. apply E1. intros p Hp. apply Hx, D2. by left.
  - intros p [Hp|Hp]%elem_of_app; [|by apply F2].
    destruct (Ht p Hp) as [Hal Hnin]. rewrite G2 by done. by apply F1.
  - intros p Hal Hp. rewrite elem_of_app in Hp. rewrite G2 by tauto. apply G1; tauto.
Qed.

(** Allocating a page, zeroing it and storing its address at [a]. *)
Lemma wp_alloc_link s l T p j (k : Z -> M kst Z) (Q : Z -> kst -> Prop) :
  as_ok s l T -> pt_page T p -> idx j ->
  (l = [] -> Q 0 s) ->
  (forall t l' s', l = t :: l' -> kmem_inv s' l' -> ref_upd s s' t 1 -> page_ok t -> ~ pt_page T t ->
     linked (kmem_mem s) (kmem_mem s') (p + 8 * j) t -> wp (k t) Q s') ->
  wp (pt ← kalloc; if pt =? 0 then mret 0 else
      memset_at pt 0 PGSIZE;; write64 (p + 8 * j) (Z.lor (PA2PTE pt) PTE_V);; k pt) Q s.
Proof.
  intros [Hi Hr Hnf] Hp Hj H0 H1. apply wp_bind. eapply wp_kalloc; [done|].
  destruct l as [|t l']; [by apply wp_ret, H0|].
  intros s1 Hi1 Hru Hch _.
  pose proof (ki_pages _ _ Hi t ltac:(left)) as Ht. pose proof (page_ok_pos t Ht).
  assert (~ pt_page T t) as Hnew by (intros Hpt; apply (Hnf t Hpt); left).
  assert (page_ok p) as Hpo by (by apply (pr_ok _ _ Hr)).
  assert ((t ∉ l') /\ (p ∉ l')) as [Hnt Hnp].
  { pose proof (ki_nodup _ _ Hi) as [? _]%NoDup_cons. split; [done|].
    intros Hin. apply (Hnf p Hp). by right. }
  destruct (Z.eqb_spec t 0); [lia|]. wp_steps. split; [lia|]. wp_steps.
  set (v := Z.lor (PA2PTE t) PTE_V).
  assert (0 <= v < 2 ^ 64) as Hv by (apply PTE_range; [by apply page_ok_addr|done]).
  apply (H1 t l'); try done.
  - apply (kmem_inv_page _ _ p); [apply Hpo|done|by intros; apply rd8_store_page|].
    apply (kmem_inv_page _ _ t); [apply Ht|done|by intros; apply rd8_memset_out|done].
  - cbn. split.
    + by rewrite load64_store64_eq.
    + intros x Hx. rewrite (rd8_store_page p); [by rewrite rd8_memset_in|done|].
      apply (page_disjoint t p); [apply Ht|apply Hpo|congruence|done].
    + intros x Hx Hx2. rewrite rd8_store64_out by lia. rewrite rd8_memset_out by done. by apply Hch.
Qed.

(** Linking page [t] into [T] is growing. *)
Lemma grows_link s l T t l' s' T' p j :
  as_ok s l T -> l = t :: l' -> kmem_inv s' l' -> ref_upd s s' t 1 -> page_ok t ->
  pt_page T p -> idx j -> linked (kmem_mem s) (kmem_mem s') (p + 8 * j) t ->
  pt_rep (kmem_mem s') T' -> t_root T' = t_root T ->
  (forall q, pt_page T' q <-> pt_page T q \/ q = t) ->
  grows s l T s' l' T' [t].
Proof.
  intros [Hi Hr Hnf] -> Hi' Hru Ht Hp Hj Hl Hr' Hroot Hpg.
  pose proof (ki_nodup _ _ Hi) as [Hnt Hnd]%NoDup_cons.
  split; try done.
  - split; try done. intros q [Hq| ->]%Hpg; [|done]. intros Hin. apply (Hnf q Hq). by right.
  - intros q. rewrite list_elem_of_singleton. apply Hpg.
  - intros x Hx. apply (lk_same _ _ _ _ Hl).
    + apply Hx, Hpg. by right.
    + intros Hx'. eapply Hx; [apply Hpg; left; exact Hp|]. by eapply entry_in_page.
  - intros q ->%list_elem_of_singleton. by eapply ref_upd_at.
  - intros q Hq Hnin. rewrite list_elem_of_singleton in Hnin. eapply ref_upd_other; [done|apply Ht|done|done].
Qed.

Lemma pt_page_grow1 T i t q :
  t_l1 T !! i = None -> pt_page (grow1 T i t) q <-> pt_page T q \/ q = t.
Proof.
  intros Hi. unfold pt_page. cbn. split.
  - intros [->|[[i' [[??]|[? ?]]%lookup_insert_Some]|?]]; subst; eauto.
  - intros [[->|[[i' ?]|?]]| ->]; eauto.
    + right. left. exists i'. rewrite lookup_insert_ne; [done|congruence].
    + right. left. exists i. apply lookup_insert_eq.
Qed.

Lemma pt_page_grow0 T i j u q :
  t_l0 T !! (i, j) = None -> pt_page (grow0 T i j u) q <-> pt_page T q \/ q = u.
Proof.
  intros Hi. unfold pt_page. cbn. split.
  - intros [->|[?|[k [[??]|[? ?]]%lookup_insert_Some]]]; subst; eauto.
  - intros [[->|[?|[k ?]]]| ->]; eauto.
    + right. right. exists k. rewrite lookup_insert_ne; [done|congruence].
    + right. right. exists (i, j). apply lookup_insert_eq.
Qed.

(** One level of [walk], with the next level's page there at the end. *)
Lemma wp_descend1 s l T va (Q : Z -> kst -> Prop) :
  as_ok s l T -> 0 <= va < MAXVA ->
  (l = [] -> t_l1 T !! PX 2 va = None -> Q 0 s) ->
  (forall s' l' T' taken t, grows s l T s' l' T' taken -> (length taken <= 1)%nat ->
     same_ptes (kmem_mem s) T (kmem_mem s') T' -> t_l1 T' !! PX 2 va = Some t ->
     wp (walk_loop 1 t va true) Q s') ->
  wp (walk_loop 2 (t_root T) va true) Q s.
Proof.
  intros Ha Hva H0 H1. pose proof (PX2_range va Hva) as Hx2. pose proof (idx_PX 2 va ltac:(lia)) as Hx.
  pose proof (pr_l1 _ _ (ao_rep _ _ _ Ha) _ Hx) as He. cbn [walk_loop]. change (Z.of_nat 2) with 2. wp_steps.
  destruct (t_l1 T !! PX 2 va) as [t|] eqn:E; cbn in He.
  - destruct He as (-> & -> & _). eapply (H1 s l T []); [by apply grows_refl|cbn; lia|done|done].
  - rewrite He. cbn [negb]. eapply wp_alloc_link; [done|apply pt_page_root|done|by eauto|].
    intros t l' s' El Hi' Hru Ht Hnew Hl.
    eapply (H1 s' l' (grow1 T _ t) [t] t).
    + eapply grows_link; try done; [by eapply pt_grow1; [apply Ha|..]|].
      intros q. by apply pt_page_grow1.
    + done.
    + intros vb. by eapply pte_grow1; [apply Ha|..].
    + apply lookup_insert_eq.
Qed.

Lemma wp_descend0 s l T va t (Q : Z -> kst -> Prop) :
  as_ok s l T -> t_l1 T !! PX 2 va = Some t ->
  (l = [] -> t_l0 T !! (PX 2 va, PX 1 va) = None -> Q 0 s) ->
  (forall s' l' T' taken a, grows s l T s' l' T' taken -> (length taken <= 1)%nat ->
     same_ptes (kmem_mem s) T (kmem_mem s') T' -> leaf T' va = Some a -> Q a s') ->
  wp (walk_loop 1 t va true) Q s.
Proof.
  intros Ha Ht H0 H1. pose proof (idx_PX 1 va ltac:(lia)) as Hx.
  pose proof (pr_l0 _ _ (ao_rep _ _ _ Ha) _ _ _ Ht Hx) as He. cbn [walk_loop]. change (Z.of_nat 1) with 1. wp_steps.
  destruct (t_l0 T !! (PX 2 va, PX 1 va)) as [u|] eqn:E; cbn in He.
  - destruct He as (-> & -> & _). wp_steps. eapply (H1 s l T []); [by apply grows_refl|cbn; lia|done|].
    unfold leaf. by rewrite E.
  - rewrite He. cbn [negb]. eapply wp_alloc_link; [done|by eapply pt_page_l1|done|by eauto|].
    intros u l' s' El Hi' Hru Hu Hnew Hl. wp_steps.
    eapply (H1 s' l' (grow0 T _ _ u) [u]).
    + eapply (grows_link _ _ _ _ _ _ _ t); try done; [by eapply pt_page_l1|by eapply pt_grow0; [apply Ha|..]|].
      intros q. by apply pt_page_grow0.
    + done.
    + intros vb. by eapply pte_grow0; [apply Ha|..].
    + unfold leaf. cbn. by rewrite lookup_insert_eq.
Qed.

(** [walk] with [alloc]: the table grows by the missing pages, at most two, no entry
    changes, and the result is the address of the entry; 0 when memory has
    run out. *)
Lemma wp_walk_alloc s l T va (Q : Z -> kst -> Prop) :
  as_ok s l T -> 0 <= va < MAXVA ->
  (forall s' l' T' taken a, grows s l T s' l' T' taken -> (length taken <= 2)%nat ->
     same_ptes (kmem_mem s) T (kmem_mem s') T' ->
     (leaf T' va = Some a \/ a = 0 /\ l' = [] /\ leaf T' va = None) -> Q a s') ->
  wp (walk (t_root T) va true) Q s.
Proof.
  intros Ha Hva HQ. unfold walk. destruct (Z.leb_spec MAXVA va); [lia|].
  eapply wp_descend1; [done|done|..].
  - intros El En. eapply HQ; [by apply grows_refl|cbn; lia|done|]. right. split; [done|]. split; [done|].
    unfold leaf. destruct (t_l0 T !! _) as [u|] eqn:E; [|done].
    apply (pr_idx0 _ _ (ao_rep _ _ _ Ha)) in E as [_ [? ?]]. congruence.
  - intros s1 l1 T1 k1 t Hg1 Hk1 Hs1 Ht. eapply wp_descend0; [apply Hg1|done|..].
    + intros El En. eapply HQ; [done|lia|done|]. right. unfold leaf. by rewrite En.
    + intros s2 l2 T2 k2 a Hg2 Hk2 Hs2 Hl. eapply HQ; [by eapply grows_trans|rewrite length_app; lia| |by left].
      intros vb. by rewrite Hs2, Hs1.
Qed.

(** ** Storing an entry *)

Lemma store_leaf_frame m T va a v x :
  pt_rep m T -> leaf T va = Some a -> (forall p, pt_page T p -> ~ in_page p x) ->
  rd8 (store64 m a v) x = rd8 m x.
Proof.
  intros HR (u & Hu & -> & Hp)%leaf_page Hx. apply rd8_store_page; [by apply idx_PX|by apply Hx].
Qed.

Lemma pt_store m T va a v : pt_rep m T -> leaf T va = Some a -> pt_rep (store64 m a v) T.
Proof.
  intros HR (u & Hu & -> & Hp)%leaf_page.
  assert (forall p i, pt_page T p -> p <> u -> idx i ->
    load64 (store64 m (u + 8 * PX 0 va) v) (p + 8 * i) = load64 m (p + 8 * i)) as Hld.
  { intros p i Hpp Hne Hi. apply load64_store64_ne.
    apply entry_apart; try (by apply (pr_ok _ _ HR)); try (by apply idx_PX); [by left; congruence|done]. }
  split; try apply HR.
  - intros i Hi. unfold entry. rewrite Hld; [by apply (pr_l1 _ _ HR)|done| |done].
    intros E. rewrite <- E in Hu. by apply (pr_root0 _ _ HR) in Hu.
  - intros i t j Ht Hj. unfold entry. rewrite Hld; [by apply (pr_l0 _ _ HR)|by eapply pt_page_l1| |done].
    intros ->. by apply (pr_l1_l0 _ _ HR _ _ _ Ht) in Hu.
Qed.

Lemma pte_store m T va a v vb :
  pt_rep m T -> 0 <= va < MAXVA -> 0 <= vb < MAXVA -> leaf T va = Some a -> 0 <= v < 2 ^ 64 ->
  pte_at (store64 m a v) T vb = if PGROUNDDOWN vb =? PGROUNDDOWN va then v else pte_at m T vb.
Proof.
  intros HR Hva Hvb Ha Hv. unfold pte_at. destruct (Z.eqb_spec (PGROUNDDOWN vb) (PGROUNDDOWN va)) as [E|E].
  - rewrite (leaf_same_page _ _ _ E), Ha. by apply load64_store64_eq.
  - destruct (leaf T vb) as [b|] eqn:Eb; [|done]. apply load64_store64_ne.
    eapply (leaf_apart m T va vb); done || congruence.
Qed.

(** [m'], [T'] has the entries of [m], [T], but [f vb] where [P vb]. *)
Definition upd_ptes (m : mem) (T : ptree) (m' : mem) (T' : ptree) (P : Z -> bool) (f : Z -> Z) : Prop :=
  forall vb, 0 <= vb < MAXVA -> vb mod PGSIZE = 0 ->
    pte_at m' T' vb = if P vb then f vb else pte_at m T vb.

(** A store to an entry keeps [grows]. *)
Lemma grows_store s l T s' l' T' taken va a v :
  grows s l T s' l' T' taken -> leaf T' va = Some a ->
  grows s l T (s' <| kmem_mem ::= fun m => store64 m a v |>) l' T' taken.
Proof.
  intros [[Hi Hr Hnf] B C D E F G] Ha. split; try done.
  - split; [|by eapply pt_store|done].
    apply kmem_inv_mem; [|done]. intros q x Hq Hx. eapply store_leaf_frame; [done|done|].
    intros p Hp. apply (page_disjoint q p); [apply (ki_pages _ _ Hi q Hq)|apply (pr_ok _ _ Hr p Hp)| |done].
    intros ->. by apply (Hnf p).
  - intros x Hx. cbn. erewrite store_leaf_frame by done. by apply E.
Qed.

(** ** [mappages] *)

Definition map_range (lo hi : Z) (vb : Z) : bool := (lo <=? vb) && (vb <? hi).
Definition map_pte (lo pa perm : Z) (vb : Z) : Z :=
  Z.lor (Z.lor (PA2PTE (pa + (vb - lo))) perm) PTE_V.

Lemma leaf_range pa perm : page_addr pa -> 0 <= perm < 1024 -> 0 <= Z.lor (Z.lor (PA2PTE pa) perm) PTE_V < 2 ^ 64.
Proof. intros Hp Hf. rewrite <- Z.lor_assoc. apply PTE_range; [done|]. by apply flags_lor. Qed.

(** Storing the next entry of a range. *)
Lemma upd_next m T m1 T1 lo pa perm k a pte v :
  pt_rep m1 T1 -> upd_ptes m T m1 T1 (map_range lo (lo + k * PGSIZE)) (map_pte lo pa perm) ->
  lo mod PGSIZE = 0 -> 0 <= a < MAXVA -> a = lo + k * PGSIZE -> 0 <= k -> leaf T1 a = Some pte ->
  v = map_pte lo pa perm a -> 0 <= v < 2 ^ 64 ->
  upd_ptes m T (store64 m1 pte v) T1 (map_range lo (lo + (k + 1) * PGSIZE)) (map_pte lo pa perm).
Proof.
  intros HR Hu Hlo Ha Ea Hk Hl Hv Hvr vb Hvb Hal.
  assert (a mod PGSIZE = 0) as Haa by (subst a; revert Hlo; unfold PGSIZE; intros; Z.div_mod_to_equations; lia).
  rewrite (pte_store m1 T1 a pte), !PGROUNDDOWN_id, Hu by done. unfold map_range.
  destruct (Z.eqb_spec vb a) as [->|Hne].
  - destruct (Z.leb_spec lo a), (Z.ltb_spec a (lo + (k + 1) * PGSIZE)); cbn; try done; unfold PGSIZE in *; lia.
  - assert (vb < lo + (k + 1) * PGSIZE <-> vb < lo + k * PGSIZE) as Hiff.
    { revert Haa Hal Hne. unfold PGSIZE in *. intros. Z.div_mod_to_equations. lia. }
    destruct (Z.leb_spec lo vb), (Z.ltb_spec vb (lo + (k + 1) * PGSIZE)), (Z.ltb_spec vb (lo + k * PGSIZE)); cbn; try done; lia.
Qed.

(** On success all [n] pages are mapped; when memory runs out the first
    [k] of them are.  The page tables take at most two pages for each. *)
Lemma wp_mappages s l T va size pa perm n (Q : Z -> kst -> Prop) :
  let lo := PGROUNDDOWN va in
  as_ok s l T -> 0 <= va -> 0 < size -> 0 < n -> va + size <= MAXVA ->
  PGROUNDDOWN (va + size - 1) = lo + (n - 1) * PGSIZE ->
  pa mod PGSIZE = 0 -> 0 <= pa -> pa + n * PGSIZE <= 2 ^ 56 -> 0 <= perm < 1024 ->
  (forall vb, vb mod PGSIZE = 0 -> lo <= vb < lo + n * PGSIZE -> has (pte_at (kmem_mem s) T vb) PTE_V = false) ->
  (forall r s' l' T' taken k, grows s l T s' l' T' taken -> Z.of_nat (length taken) <= 2 * n ->
     upd_ptes (kmem_mem s) T (kmem_mem s') T' (map_range lo (lo + k * PGSIZE)) (map_pte lo pa perm) ->
     (r = 0 /\ k = n \/ r = -1 /\ 0 <= k < n /\ l' = []) -> Q r s') ->
  wp (mappages (t_root T) va size pa perm) Q s.
Proof.
  intros lo Ha Hva Hsz Hn Hmax Hlast Hpa Hpa0 Hpam Hperm Hfree HQ. unfold mappages.
  destruct (Z.eqb_spec size 0); [lia|].
  assert (MAXVA = 2 ^ 38) as EM by done.
  rewrite u64_small, Hlast by lia. fold lo.
  pose proof (PGROUNDDOWN_bounds va) as Hlo. pose proof (PGROUNDDOWN_aligned va) as Hal. fold lo in Hlo, Hal.
  pose proof (PGROUNDDOWN_bounds (va + size - 1)) as Hhi. rewrite Hlast in Hhi.
  assert (0 <= lo) as Hlo0 by (revert Hlo Hal; unfold PGSIZE; intros; Z.div_mod_to_equations; lia).
  assert (PGSIZE = 4096) as EP by done.
  apply (wp_while (fun '(a, pa1) s1 => exists k l1 T1 taken, 0 <= k < n /\ a = lo + k * PGSIZE /\
      pa1 = pa + k * PGSIZE /\ grows s l T s1 l1 T1 taken /\ Z.of_nat (length taken) <= 2 * k /\
      upd_ptes (kmem_mem s) T (kmem_mem s1) T1 (map_range lo (lo + k * PGSIZE)) (map_pte lo pa perm))
    (fun '(a, _) => Z.to_nat (lo + n * PGSIZE - a))).
  - intros [a pa1] s1 (k & l1 & T1 & taken1 & Hk & Ea & Epa & Hg & Htk & Hu).
    assert (a mod PGSIZE = 0) as Haa by (subst a; revert Hal; rewrite EP; intros; Z.div_mod_to_equations; lia).
    assert (0 <= a < MAXVA) as Ham by nia.
    rewrite <- (g_root _ _ _ _ _ _ _ Hg). wp_steps.
    eapply wp_walk_alloc; [apply Hg|lia|]. intros s2 l2 T2 taken2 pte Hg2 Htk2 Hs2 Hpte.
    assert (grows s l T s2 l2 T2 (taken1 ++ taken2)) as Hg' by (by eapply grows_trans).
    assert (upd_ptes (kmem_mem s) T (kmem_mem s2) T2 (map_range lo (lo + k * PGSIZE)) (map_pte lo pa perm)) as Hu2.
    { intros vb Hvb Hvb'. rewrite Hs2. by apply Hu. }
    destruct Hpte as [Hpte|(-> & -> & Hpte)].
    2: { wp_steps. eapply HQ; [exact Hg'|rewrite length_app; lia|exact Hu2|]. right. auto. }
    pose proof (leaf_nonzero _ _ _ _ (ao_rep _ _ _ (g_ok _ _ _ _ _ _ _ Hg2)) Hpte) as Hnz.
    destruct (Z.eqb_spec pte 0); [done|]. wp_steps.
    assert (load64 (kmem_mem s2) pte = pte_at (kmem_mem s2) T2 a) as El by (unfold pte_at; by rewrite Hpte).
    rewrite El, Hu2 by done. unfold map_range at 1.
    destruct (Z.leb_spec lo a), (Z.ltb_spec a (lo + k * PGSIZE)); cbn; try lia.
    rewrite Hfree by (done || nia). wp_steps.
    set (s3 := s2 <| kmem_mem ::= fun m => store64 m pte (Z.lor (Z.lor (PA2PTE pa1) perm) PTE_V) |>).
    assert (grows s l T s3 l2 T2 (taken1 ++ taken2)) as Hg3 by (by eapply grows_store).
    assert (upd_ptes (kmem_mem s) T (kmem_mem s3) T2 (map_range lo (lo + (k + 1) * PGSIZE)) (map_pte lo pa perm)) as Hu3.
    { eapply (upd_next _ _ _ _ _ _ _ _ a); [apply Hg2|exact Hu2|done|done|done|lia|done| |].
      { unfold map_pte. rewrite Ea, Epa. do 3 f_equal. lia. }
      rewrite Epa. apply leaf_range; [|done]. split; [nia|]. revert Hpa. rewrite EP. intros. Z.div_mod_to_equations. lia. }
    destruct (Z.eqb_spec a (lo + (n - 1) * PGSIZE)) as [El2|Enl].
    + wp_steps. eapply HQ; [exact Hg3|rewrite length_app; lia|exact Hu3|]. left. split; [done|]. nia.
    + wp_steps. rewrite !u64_small by nia. split; [|nia].
      exists (k + 1), l2, T2, (taken1 ++ taken2). do 3 (split; [nia|]). split; [done|]. split; [rewrite length_app; lia|done].
  - exists 0, l, T, []. split; [lia|]. split; [lia|]. split; [lia|]. split; [by apply grows_refl|]. split; [done|].
    intros vb Hvb _. unfold map_range. destruct (Z.leb_spec lo vb), (Z.ltb_spec vb (lo + 0 * PGSIZE)); cbn; try done; lia.
  - change (Z.pos FUEL) with (2 ^ 64). nia.
Qed.

End pagetable.
