(* ===== verification/AddrSpace.v ===== *)
(** * AddrSpace: which pages an address space owns, and what user code sees

    Several address spaces share physical memory.  [own A] is the multiset
    of pages an address space refers to (its page-table pages and its user
    pages), [vm_inv s l O] says that the reference counts of [kalloc.c] are
    exactly the references [O] and that every other page is free, and [space s l A F] that [A] is well-formed
    beside the references [F] of everybody else.  An operation on [A] is
    specified with [F] arbitrary: [keeps] says that it left the pages of [F]
    alone, so every other address space reads the same bytes as before. *)

From stdpp Require Import base list gmap gmultiset strings.
From Stdlib Require Import ZArith Lia.
From S2P Require Import Prelude CMem Riscv Spinlock Kalloc Vm PageTable.
Import CString.

(** An address space: its page tables, and the pages [uvmunmap] frees by
    (page-aligned) virtual address. *)
Record aspace := mkA {
  a_T : ptree;
  a_map : gmap Z Z;
}.

Definition pt_pages (T : ptree) : list Z :=
  t_root T :: (map_to_list (t_l1 T)).*2 ++ (map_to_list (t_l0 T)).*2.
Definition own_map (mp : gmap Z Z) : gmultiset Z := list_to_set_disj ((map_to_list mp).*2).
Definition own (A : aspace) : gmultiset Z := list_to_set_disj (pt_pages (a_T A)) ⊎ own_map (a_map A).

(** The physical page user code reaches at page [va], and the byte it reads
    at address [x]. *)
Definition upage (m : mem) (T : ptree) (va : Z) : option Z :=
  let pte := pte_at m T va in
  if has pte PTE_V && has pte PTE_U then Some (PTE2PA pte) else None.
Definition uview (m : mem) (T : ptree) (x : Z) : option Z :=
  if (0 <=? x) && (x <? MAXVA)
  then (fun pa => rd8 m (pa + (x - PGROUNDDOWN x))) <$> upage m T (PGROUNDDOWN x)
  else None.

(** Rearranging multisets of pages. *)
Lemma ms_assoc (X Y Z : gmultiset Z) : X ⊎ Y ⊎ Z = X ⊎ (Y ⊎ Z).
Proof. multiset_solver. Qed.
Lemma ms_swap (X Y Z : gmultiset Z) : X ⊎ (Y ⊎ Z) = Y ⊎ (X ⊎ Z).
Proof. multiset_solver. Qed.
Lemma ms_in_l (p : Z) (X Y : gmultiset Z) : p ∈ X -> p ∈ X ⊎ Y.
Proof. multiset_solver. Qed.
Lemma ms_in_r (p : Z) (X Y : gmultiset Z) : p ∈ Y -> p ∈ X ⊎ Y.
Proof. multiset_solver. Qed.
Lemma ms_in_singleton (p : Z) (Y : gmultiset Z) : p ∈ {[+ p +]} ⊎ Y.
Proof. multiset_solver. Qed.
#[export] Hint Resolve ms_in_l ms_in_r ms_in_singleton : xv6.

Section addrspace.
Context `{L : Layout} {LO : LayoutOk L}.

(** The allocator's counts are the references [O], and no page is lost. *)
Record vm_inv (s : kst) (l : list Z) (O : gmultiset Z) : Prop := {
  vi_k : kmem_inv s l;
  vi_ok : forall p, p ∈ O -> page_ok p;
  vi_ref : forall p, page_ok p -> num_ref s (p / PGSIZE) = Z.of_nat (multiplicity p O);
  vi_free : forall p, page_ok p -> p ∉ O -> p ∈ l;
}.

Record as_inv (m : mem) (A : aspace) (O : gmultiset Z) : Prop := {
  ai_rep : pt_rep m (a_T A);
  ai_pt : forall p, pt_page (a_T A) p -> multiplicity p O = 1%nat;
  ai_va : forall va pa, a_map A !! va = Some pa -> 0 <= va < MAXVA /\ va mod PGSIZE = 0;
  ai_map : forall va pa, a_map A !! va = Some pa ->
    has (pte_at m (a_T A) va) PTE_V = true /\ PTE_FLAGS (pte_at m (a_T A) va) <> PTE_V /\
    PTE2PA (pte_at m (a_T A) va) = pa;
  ai_user : forall va pa, 0 <= va < MAXVA -> va mod PGSIZE = 0 ->
    upage m (a_T A) va = Some pa -> a_map A !! va = Some pa;
  ai_excl : forall va pa, a_map A !! va = Some pa ->
    has (pte_at m (a_T A) va) PTE_COW = false -> multiplicity pa O = 1%nat;
}.

(** [A] beside the references [F]. *)
Definition space (s : kst) (l : list Z) (A : aspace) (F : gmultiset Z) : Prop :=
  vm_inv s l (own A ⊎ F) /\ as_inv (kmem_mem s) A (own A ⊎ F).

(** The pages of [F] are untouched, and exclusive ones stay so. *)
Definition keeps (m : mem) (O : gmultiset Z) (m' : mem) (O' F : gmultiset Z) : Prop :=
  forall p, p ∈ F -> (forall x, in_page p x -> rd8 m' x = rd8 m x) /\
    (multiplicity p O = 1%nat -> multiplicity p O' = 1%nat).

Lemma keeps_refl m O F : keeps m O m O F.
Proof. done. Qed.

Lemma keeps_trans m O m1 O1 m2 O2 F : keeps m O m1 O1 F -> keeps m1 O1 m2 O2 F -> keeps m O m2 O2 F.
Proof.
  intros H1 H2 p Hp. destruct (H1 p Hp) as [A1 B1], (H2 p Hp) as [A2 B2].
  split; [|auto]. intros x Hx. rewrite A2 by done. auto.
Qed.

(** ** Ownership *)

Lemma elem_of_pt_pages T p : p ∈ pt_pages T <-> pt_page T p.
Proof.
  unfold pt_pages, pt_page. rewrite elem_of_cons, elem_of_app, !list_elem_of_fmap.
  split.
  - intros [->|[[[i t] [-> H%elem_of_map_to_list]]|[[k t] [-> H%elem_of_map_to_list]]]]; eauto.
  - intros [->|[[i H]|[k H]]]; [by left|right; left|right; right].
    + exists (i, p). by rewrite elem_of_map_to_list.
    + exists (k, p). by rewrite elem_of_map_to_list.
Qed.

Lemma NoDup_snd_map_to_list {K} `{Countable K} (m : gmap K Z) :
  (forall i j p, m !! i = Some p -> m !! j = Some p -> i = j) -> NoDup (map_to_list m).*2.
Proof.
  intros Hinj. apply NoDup_fmap_2_strong; [|apply NoDup_map_to_list].
  intros [i p] [j q] Hi%elem_of_map_to_list Hj%elem_of_map_to_list E. cbn in E. subst q.
  f_equal. eauto.
Qed.

Lemma NoDup_pt_pages m T : pt_rep m T -> NoDup (pt_pages T).
Proof.
  intros HR. unfold pt_pages. constructor.
  - rewrite elem_of_app, !list_elem_of_fmap.
    intros [[[i t] [E H%elem_of_map_to_list]]|[[k t] [E H%elem_of_map_to_list]]]; cbn in E; subst t.
    + by apply (pr_root1 _ _ HR) in H.
    + by apply (pr_root0 _ _ HR) in H.
  - apply NoDup_app. split; [apply NoDup_snd_map_to_list, (pr_inj1 _ _ HR)|].
    split; [|apply NoDup_snd_map_to_list, (pr_inj0 _ _ HR)].
    intros p. rewrite !list_elem_of_fmap.
    intros [[i t] [E H%elem_of_map_to_list]] [[k u] [E' H'%elem_of_map_to_list]]. cbn in *. subst.
    by apply (pr_l1_l0 _ _ HR _ _ _ H) in H'.
Qed.

Lemma own_map_insert mp va pa : mp !! va = None -> own_map (<[va := pa]> mp) = {[+ pa +]} ⊎ own_map mp.
Proof.
  intros H. unfold own_map. erewrite list_to_set_disj_perm; [|by apply fmap_Permutation, map_to_list_insert].
  done.
Qed.

Lemma own_map_delete mp va pa : mp !! va = Some pa -> own_map mp = {[+ pa +]} ⊎ own_map (delete va mp).
Proof.
  intros H. rewrite <- (own_map_insert _ va) by apply lookup_delete_eq. by rewrite insert_delete_id.
Qed.

Lemma own_map_elem mp p : p ∈ own_map mp <-> exists va, mp !! va = Some p.
Proof.
  unfold own_map. rewrite elem_of_list_to_set_disj, list_elem_of_fmap. split.
  - intros [[va q] [-> H%elem_of_map_to_list]]. eauto.
  - intros [va H]. exists (va, p). by rewrite elem_of_map_to_list.
Qed.

Lemma own_elem A p : p ∈ own A <-> pt_page (a_T A) p \/ exists va, a_map A !! va = Some p.
Proof.
  unfold own. rewrite gmultiset_elem_of_disj_union, elem_of_list_to_set_disj, elem_of_pt_pages, own_map_elem.
  done.
Qed.

Lemma own_split T mp va p :
  mp !! va = None -> own (mkA T (<[va := p]> mp)) = {[+ p +]} ⊎ own (mkA T mp).
Proof. intros H. unfold own. cbn. rewrite own_map_insert by done. apply ms_swap. Qed.

Lemma own_pt A p : pt_page (a_T A) p -> p ∈ own A.
Proof. rewrite own_elem. eauto. Qed.
Lemma own_user A va p : a_map A !! va = Some p -> p ∈ own A.
Proof. rewrite own_elem. eauto. Qed.

Lemma mult_pos (p : Z) (O : gmultiset Z) : p ∈ O <-> (0 < multiplicity p O)%nat.
Proof. rewrite elem_of_multiplicity. lia. Qed.

Lemma mult_0 (p : Z) (O : gmultiset Z) : p ∉ O -> multiplicity p O = 0%nat.
Proof. rewrite mult_pos. lia. Qed.
Lemma mult_add_eq (p : Z) (O : gmultiset Z) : multiplicity p ({[+ p +]} ⊎ O) = S (multiplicity p O).
Proof. rewrite multiplicity_disj_union, multiplicity_singleton. by rewrite decide_True. Qed.
Lemma mult_add_ne (p q : Z) (O : gmultiset Z) : q <> p -> multiplicity q ({[+ p +]} ⊎ O) = multiplicity q O.
Proof. intros. rewrite multiplicity_disj_union, multiplicity_singleton. by rewrite decide_False. Qed.

Lemma mult_list (p : Z) (l : list Z) :
  NoDup l -> multiplicity p (list_to_set_disj l : gmultiset Z) = if decide (p ∈ l) then 1%nat else 0%nat.
Proof.
  induction l as [|q l IH]; intros Hnd.
  - apply mult_0. rewrite elem_of_list_to_set_disj. apply not_elem_of_nil.
  - apply NoDup_cons in Hnd as [Hq Hnd]. cbn [list_to_set_disj]. destruct (decide (p = q)) as [->|Hne].
    + rewrite mult_add_eq, IH, decide_False, decide_True by (done || left). done.
    + rewrite mult_add_ne, IH by done. apply decide_ext. rewrite elem_of_cons. tauto.
Qed.

(** ** The allocator, by ownership *)

Lemma vm_not_free s l O p : vm_inv s l O -> p ∈ O -> p ∉ l.
Proof.
  intros [Hk Hok Hr _] Hp Hin. pose proof (Hr p (Hok p Hp)) as E. rewrite mult_pos in Hp.
  rewrite (ki_free _ _ Hk p Hin) in E. lia.
Qed.

(** Writing to pages in use. *)
Lemma vm_inv_mem s l O f :
  vm_inv s l O ->
  (forall x, (forall p, p ∈ O -> ~ in_page p x) -> rd8 (f (kmem_mem s)) x = rd8 (kmem_mem s) x) ->
  vm_inv (s <| kmem_mem ::= f |>) l O.
Proof.
  intros Hv Hf. split; [|apply Hv..].
  apply kmem_inv_mem; [|apply Hv]. intros p x Hp Hx. apply Hf. intros q Hq.
  apply (page_disjoint p q); [apply (ki_pages _ _ (vi_k _ _ _ Hv) p Hp)|by apply (vi_ok _ _ _ Hv)| |done].
  intros ->. by apply (vm_not_free _ _ _ _ Hv Hq).
Qed.

Lemma wp_kalloc_own s l O (Q : Z -> kst -> Prop) :
  vm_inv s l O -> (l = [] -> Q 0 s) ->
  (forall p l' s', l = p :: l' -> vm_inv s' l' ({[+ p +]} ⊎ O) -> p ∉ O -> page_ok p ->
     changed_page p s s' -> Q p s') ->
  wp kalloc Q s.
Proof.
  intros Hv H0 H1. eapply wp_kalloc; [apply Hv|]. destruct l as [|p l']; [auto|].
  intros s' Hk Hru Hch _.
  pose proof (ki_pages _ _ (vi_k _ _ _ Hv) p ltac:(left)) as Hp.
  assert (p ∉ O) as Hnin by (intros Hin; apply (vm_not_free _ _ _ _ Hv Hin); left).
  apply (H1 p l' s'); try done. split; [done|..].
  - intros q [->%gmultiset_elem_of_singleton|Hq]%gmultiset_elem_of_disj_union; [done|]. by apply (vi_ok _ _ _ Hv).
  - intros q Hq. destruct (decide (q = p)) as [->|Hne].
    + by rewrite mult_add_eq, mult_0, (ref_upd_at _ _ _ _ Hru).
    + rewrite mult_add_ne by done. rewrite <- (vi_ref _ _ _ Hv q Hq).
      eapply ref_upd_other; [done|apply Hp|apply Hq|done].
  - intros q Hq Hn. assert (q ∈ p :: l') as [->|?]%elem_of_cons; [|by destruct Hn; apply ms_in_singleton|done].
    apply (vi_free _ _ _ Hv q Hq). intros ?. by apply Hn, ms_in_r.
Qed.

Lemma wp_kfree_own s l O p (Q : unit -> kst -> Prop) :
  vm_inv s l ({[+ p +]} ⊎ O) ->
  (forall s' l', vm_inv s' l' O -> changed_page p s s' ->
     (p ∈ O -> kmem_mem s' = kmem_mem s) -> Q tt s') ->
  wp (kfree p) Q s.
Proof.
  intros Hv HQ. assert (page_ok p) as Hp by (apply (vi_ok _ _ _ Hv); multiset_solver).
  pose proof (vi_ref _ _ _ Hv p Hp) as Hr. rewrite mult_add_eq in Hr.
  eapply wp_kfree; [apply Hv|done|lia|]. intros s' Hru Hcase.
  assert (forall l', kmem_inv s' l' -> (forall q, page_ok q -> q ∉ O -> q ∈ l') -> vm_inv s' l' O) as Hinv.
  { intros l' Hk Hfree. split; [done|intros q Hq; apply (vi_ok _ _ _ Hv); by apply ms_in_r| |done].
    intros q Hq. destruct (decide (q = p)) as [->|Hne].
    - rewrite (ref_upd_at _ _ _ _ Hru). lia.
    - rewrite (ref_upd_other _ _ _ _ q Hru) by (done || apply Hp || apply Hq).
      by rewrite (vi_ref _ _ _ Hv q Hq), mult_add_ne. }
  assert (forall q, page_ok q -> q ∉ O -> q <> p -> q ∈ l) as Hfree.
  { intros q Hq Hn Hne. apply (vi_free _ _ _ Hv q Hq).
    intros [?%gmultiset_elem_of_singleton|?]%gmultiset_elem_of_disj_union; done. }
  destruct (Z.eqb_spec (num_ref s (p / PGSIZE)) 1) as [E|E]; destruct Hcase as [Hk Hm].
  - apply (HQ s' (p :: l)); [apply Hinv; [done|]|done|rewrite mult_pos; lia].
    intros q Hq Hn. destruct (decide (q = p)) as [->|]; [left|right; by apply Hfree].
  - apply (HQ s' l); [apply Hinv; [done|]|by intros x _; rewrite Hm|done].
    intros q Hq Hn. apply Hfree; [done|done|]. intros ->. rewrite mult_pos in Hn. lia.
Qed.

Lemma wp_increase_own s l O p (Q : unit -> kst -> Prop) :
  vm_inv s l O -> p ∈ O -> num_ref s (p / PGSIZE) < INT_MAX ->
  (forall s', vm_inv s' l ({[+ p +]} ⊎ O) -> kmem_mem s' = kmem_mem s ->
     ref_upd s s' p (num_ref s (p / PGSIZE) + 1) -> Q tt s') ->
  wp (increase_num_ref p) Q s.
Proof.
  intros Hv Hp Hmax HQ. pose proof (vi_ok _ _ _ Hv p Hp) as Hpo.
  eapply wp_increase_num_ref; [apply Hv|done|by eapply vm_not_free|done|].
  intros s' Hk Hru Hm. apply HQ; try done. split; [done|..].
  - intros q [->%gmultiset_elem_of_singleton|Hq]%gmultiset_elem_of_disj_union; [done|]. by apply (vi_ok _ _ _ Hv).
  - intros q Hq. destruct (decide (q = p)) as [->|Hne].
    + rewrite mult_add_eq, (ref_upd_at _ _ _ _ Hru), (vi_ref _ _ _ Hv p Hpo). lia.
    + rewrite mult_add_ne, (ref_upd_other _ _ _ _ q Hru), (vi_ref _ _ _ Hv q Hq) by (done || apply Hpo || apply Hq). done.
  - intros q Hq Hn. apply (vi_free _ _ _ Hv q Hq). intros ?. by apply Hn, ms_in_r.
Qed.

(** ** Address spaces *)

Lemma space_as_ok s l A F : space s l A F -> as_ok s l (a_T A).
Proof.
  intros [Hv Ha]. split; [apply Hv|apply Ha|]. intros p Hp. eapply vm_not_free; [done|].
  apply gmultiset_elem_of_disj_union. left. by apply own_pt.
Qed.

(** Page-table pages are not user pages, and are nobody else's. *)
Lemma pt_not_user m A F p va : as_inv m A (own A ⊎ F) -> pt_page (a_T A) p -> a_map A !! va <> Some p.
Proof.
  intros Ha Hp Hm. pose proof (ai_pt _ _ _ Ha p Hp) as H1. unfold own in H1.
  rewrite !multiplicity_disj_union in H1.
  assert (p ∈ own_map (a_map A)) as H2 by (apply own_map_elem; eauto).
  assert (p ∈@{gmultiset Z} list_to_set_disj (pt_pages (a_T A))) as H3
    by (by rewrite elem_of_list_to_set_disj, elem_of_pt_pages).
  rewrite mult_pos in H2, H3. lia.
Qed.

Lemma excl_not_frame (p : Z) (O F : gmultiset Z) : p ∈ O -> multiplicity p (O ⊎ F) = 1%nat -> p ∉ F.
Proof. rewrite !mult_pos, multiplicity_disj_union. lia. Qed.

Lemma pte_page m T va : pte_at m T (PGROUNDDOWN va) = pte_at m T va.
Proof.
  unfold pte_at. rewrite (leaf_same_page T (PGROUNDDOWN va) va); [done|].
  apply PGROUNDDOWN_id, PGROUNDDOWN_aligned.
Qed.

Lemma upage_pte m T va pa :
  upage m T va = Some pa ->
  has (pte_at m T va) PTE_V = true /\ has (pte_at m T va) PTE_U = true /\ PTE2PA (pte_at m T va) = pa.
Proof.
  unfold upage. destruct (has _ PTE_V), (has _ PTE_U); cbn; try done. by intros [= <-].
Qed.

(** An address space only depends on its page-table pages. *)
Lemma as_inv_frame m A O m' O' :
  as_inv m A O ->
  (forall p x, pt_page (a_T A) p -> in_page p x -> rd8 m' x = rd8 m x) ->
  (forall p, p ∈ own A -> multiplicity p O = 1%nat -> multiplicity p O' = 1%nat) ->
  as_inv m' A O'.
Proof.
  intros [H1 H2 H3 H4 H5 H6] Hm HO.
  assert (forall va, pte_at m' (a_T A) va = pte_at m (a_T A) va) as Hp by (intros; by apply pte_at_frame).
  split.
  - by eapply pt_rep_frame.
  - intros p Hpp. apply HO; [by apply own_pt|auto].
  - done.
  - intros va pa. rewrite Hp. apply H4.
  - intros va pa. unfold upage. rewrite Hp. apply H5.
  - intros va pa Hva. rewrite Hp. intros Hc. apply HO; [by eapply own_user|]. by eapply H6.
Qed.

(** Other address spaces survive an operation that keeps the frame. *)
Lemma as_inv_keeps m B O m' O' F : as_inv m B O -> own B ⊆ F -> keeps m O m' O' F -> as_inv m' B O'.
Proof.
  intros Hb Hsub Hk. eapply as_inv_frame; [done|..].
  - intros p x Hp. apply Hk. eapply gmultiset_elem_of_subseteq; [by apply own_pt|done].
  - intros p Hp. apply Hk. by eapply gmultiset_elem_of_subseteq.
Qed.

Lemma uview_ext m T m' T' x :
  pte_at m' T' x = pte_at m T x ->
  (forall pa, upage m T (PGROUNDDOWN x) = Some pa -> 0 <= x < MAXVA -> forall y, in_page pa y -> rd8 m' y = rd8 m y) ->
  uview m' T' x = uview m T x.
Proof.
  intros Hp Hm. unfold uview. destruct (Z.leb_spec 0 x), (Z.ltb_spec x MAXVA); try done. cbn [andb].
  assert (upage m' T' (PGROUNDDOWN x) = upage m T (PGROUNDDOWN x)) as E
    by (unfold upage; by rewrite !pte_page, Hp).
  rewrite E. destruct (upage m T (PGROUNDDOWN x)) as [pa|]; [|done]. cbn. f_equal.
  eapply Hm; [done|lia|]. pose proof (PGROUNDDOWN_bounds x). unfold in_page. lia.
Qed.

(** The view of an address space only depends on its own pages. *)
Lemma PGROUNDDOWN_range x : 0 <= x < MAXVA -> 0 <= PGROUNDDOWN x < MAXVA.
Proof.
  pose proof (PGROUNDDOWN_bounds x). pose proof (PGROUNDDOWN_aligned x). unfold PGSIZE in *.
  intros. Z.div_mod_to_equations. lia.
Qed.

Lemma uview_frame m A O m' x :
  as_inv m A O -> (forall p y, p ∈ own A -> in_page p y -> rd8 m' y = rd8 m y) ->
  uview m' (a_T A) x = uview m (a_T A) x.
Proof.
  intros Ha Hm. apply uview_ext.
  - apply pte_at_frame. intros p y Hp. apply Hm. by apply own_pt.
  - intros pa Hu Hx y. apply Hm. eapply own_user, (ai_user _ _ _ Ha); [| |done].
    + by apply PGROUNDDOWN_range.
    + apply PGROUNDDOWN_aligned.
Qed.

(** Isolation: an operation that keeps the frame does not change what any
    other address space reads. *)
Lemma uview_keeps m B O m' O' F x :
  as_inv m B O -> own B ⊆ F -> keeps m O m' O' F -> uview m' (a_T B) x = uview m (a_T B) x.
Proof.
  intros Hb Hsub Hk. eapply uview_frame; [done|]. intros p y Hp. apply Hk. by eapply gmultiset_elem_of_subseteq.
Qed.

(** Page tables that grew, with the same entries. *)
Lemma as_inv_same m A O m' T' O' :
  as_inv m A O -> pt_rep m' T' -> (forall p, pt_page T' p -> multiplicity p O' = 1%nat) ->
  (forall vb p, a_map A !! vb = Some p -> multiplicity p O = 1%nat -> multiplicity p O' = 1%nat) ->
  (forall vb, 0 <= vb < MAXVA -> vb mod PGSIZE = 0 -> pte_at m' T' vb = pte_at m (a_T A) vb) ->
  as_inv m' (mkA T' (a_map A)) O'.
Proof.
  intros Ha HR Hpt Hex Hu.
  assert (forall vb pa, a_map A !! vb = Some pa -> pte_at m' T' vb = pte_at m (a_T A) vb) as Hold.
  { intros vb pa Hm. apply (ai_va _ _ _ Ha) in Hm as [? ?]. auto. }
  split; cbn; try done.
  - apply (ai_va _ _ _ Ha).
  - intros vb pa Hm. erewrite Hold by done. by apply (ai_map _ _ _ Ha).
  - intros vb pa Hr Hal. unfold upage. rewrite Hu by done. by apply (ai_user _ _ _ Ha).
  - intros vb pa Hm. erewrite Hold by done. intros Hc. eapply Hex; [done|]. by eapply (ai_excl _ _ _ Ha).
Qed.

(** ** Changing one entry *)

Definition set_page (mp : gmap Z Z) (va : Z) (o : option Z) : gmap Z Z :=
  match o with Some pa => <[va := pa]> mp | None => delete va mp end.

(** Entry [v] is right for an owned page, or for none. *)
Definition pte_ok (O : gmultiset Z) (v : Z) (o : option Z) : Prop :=
  match o with
  | Some pa => has v PTE_V = true /\ PTE_FLAGS v <> PTE_V /\ PTE2PA v = pa /\
      (has v PTE_COW = false -> multiplicity pa O = 1%nat)
  | None => has v PTE_V && has v PTE_U = false
  end.

Lemma set_page_eq mp va o : set_page mp va o !! va = o.
Proof. destruct o; cbn; [apply lookup_insert_eq|apply lookup_delete_eq]. Qed.
Lemma set_page_ne mp va o vb : vb <> va -> set_page mp va o !! vb = mp !! vb.
Proof. intros. destruct o; cbn; [by apply lookup_insert_ne|by apply lookup_delete_ne]. Qed.

Lemma as_inv_upd m A O m' T' O' va v o :
  as_inv m A O -> pt_rep m' T' -> (forall p, pt_page T' p -> multiplicity p O' = 1%nat) ->
  0 <= va < MAXVA -> va mod PGSIZE = 0 ->
  (forall vb p, vb <> va -> a_map A !! vb = Some p -> multiplicity p O = 1%nat -> multiplicity p O' = 1%nat) ->
  upd_ptes m (a_T A) m' T' (fun vb => vb =? va) (fun _ => v) -> pte_ok O' v o ->
  as_inv m' (mkA T' (set_page (a_map A) va o)) O'.
Proof.
  intros Ha HR Hpt Hva Hal Hex Hu Hv.
  assert (forall vb, 0 <= vb < MAXVA -> vb mod PGSIZE = 0 -> vb <> va -> pte_at m' T' vb = pte_at m (a_T A) vb) as Hne.
  { intros vb H1 H2 H3. rewrite Hu by done. by destruct (Z.eqb_spec vb va). }
  assert (pte_at m' T' va = v) as Heq by (rewrite Hu by done; by rewrite Z.eqb_refl).
  assert (forall vb pa, vb <> va -> set_page (a_map A) va o !! vb = Some pa ->
    a_map A !! vb = Some pa /\ pte_at m' T' vb = pte_at m (a_T A) vb) as Hold.
  { intros vb pa Hn. rewrite set_page_ne by done. intros Hm. split; [done|].
    apply (ai_va _ _ _ Ha) in Hm as [? ?]. auto. }
  split; cbn; try done.
  - intros vb pa. destruct (decide (vb = va)) as [->|Hn]; [done|].
    intros [Hm _]%Hold; [|done]. by apply (ai_va _ _ _ Ha) in Hm.
  - intros vb pa. destruct (decide (vb = va)) as [->|Hn].
    + rewrite set_page_eq, Heq. intros ->. cbn in Hv. tauto.
    + intros [Hm ->]%Hold; [|done]. by apply (ai_map _ _ _ Ha).
  - intros vb pa Hr Hal' Hup. destruct (decide (vb = va)) as [->|Hn].
    + rewrite set_page_eq. apply upage_pte in Hup as (H1 & H2 & H3). rewrite Heq in *.
      destruct o as [pa'|]; cbn in Hv; [|by rewrite H1, H2 in Hv]. f_equal. destruct Hv as (_ & _ & <- & _). done.
    + rewrite set_page_ne by done. apply (ai_user _ _ _ Ha); try done.
      unfold upage in *. by rewrite Hne in Hup.
  - intros vb pa. destruct (decide (vb = va)) as [->|Hn].
    + rewrite set_page_eq, Heq. intros ->. cbn in Hv. tauto.
    + intros [Hm E]%Hold; [|done]. rewrite E. intros Hc. eapply Hex; [done|done|]. by eapply (ai_excl _ _ _ Ha).
Qed.

End addrspace.
