(* ===== verification/Cow.v ===== *)
(** * Cow: copy-on-write, [copyout] and [copyin]

    The fault handler [cowfault] gives an address space its own copy of a
    shared page, and [copyout] calls it before it writes; the theorems say
    that neither ever changes what another address space reads.  [refused]
    says at which addresses [copyout] stops. *)

From stdpp Require Import base list gmap gmultiset strings.
From Stdlib Require Import ZArith Lia.
From S2P Require Import Prelude CMem Riscv Spinlock Kalloc Vm PageTable AddrSpace.
Import CString.

Section cow.
Context `{L : Layout} {LO : LayoutOk L}.

(** No page has become copy-on-write. *)
Definition cow_sub (m m' : mem) (T : ptree) : Prop :=
  forall x, 0 <= x < MAXVA -> has (pte_at m' T x) PTE_COW = true -> has (pte_at m T x) PTE_COW = true.

Lemma cow_sub_refl m T : cow_sub m m T.
Proof. by intros x _. Qed.

Lemma cow_sub_trans m1 m2 m3 T : cow_sub m1 m2 T -> cow_sub m2 m3 T -> cow_sub m1 m3 T.
Proof. intros H1 H2 x Hx H. apply H1, H2; done. Qed.

(** Why nothing can be stored at address [x] of a process: it is on the first
    page, which [cowfault] always refuses, or no user page is there, or the
    page is copy-on-write and in [s'] no page is free for the copy. *)
Definition refused (s : kst) (T : ptree) (x : Z) (s' : kst) : Prop :=
  PGROUNDDOWN x = 0 \/ uview (kmem_mem s) T x = None \/
  has (pte_at (kmem_mem s) T x) PTE_COW = true /\ freelist s' = 0.

Lemma refused_page s T x s' : refused s T (PGROUNDDOWN x) s' -> refused s T x s'.
Proof.
  unfold refused. rewrite (PGROUNDDOWN_id (PGROUNDDOWN x)) by apply PGROUNDDOWN_aligned. rewrite pte_page.
  intros [?|[Hu|?]]; [by left|right; left|by right; right]. revert Hu. unfold uview.
  rewrite (PGROUNDDOWN_id (PGROUNDDOWN x)) by apply PGROUNDDOWN_aligned.
  destruct (Z.leb_spec 0 x), (Z.ltb_spec x MAXVA); cbn [andb]; try done.
  pose proof (PGROUNDDOWN_range x ltac:(lia)). destruct (Z.leb_spec 0 (PGROUNDDOWN x)), (Z.ltb_spec (PGROUNDDOWN x) MAXVA); try lia.
  cbn [andb]. by destruct (upage _ _ _).
Qed.

Lemma no_free s l O : vm_inv s l O -> l = [] -> freelist s = 0.
Proof. intros Hv ->. exact (ki_chain _ _ (vi_k _ _ _ Hv)). Qed.

(** The entry [cowfault] installs. *)
Definition cow_pte (pa : Z) : Z := Z.lor (PA2PTE pa) 31.

Lemma cow_pte_eq pa :
  Z.land (Z.lor (Z.lor (Z.lor (Z.lor (Z.lor (PA2PTE pa) PTE_U) PTE_V) PTE_W) PTE_X) PTE_R) (Z.lnot PTE_COW)
  = cow_pte pa.
Proof.
  unfold cow_pte. rewrite <- !Z.lor_assoc.
  change (Z.lor PTE_U (Z.lor PTE_V (Z.lor PTE_W (Z.lor PTE_X PTE_R)))) with 31.
  apply Z.bits_inj'. intros n Hn. rewrite Z.land_spec, Z.lnot_spec by done.
  destruct (decide (n = 8)) as [->|].
  - rewrite PTE_flag_bit by lia. done.
  - change PTE_COW with (2 ^ 8). rewrite Z.pow2_bits_false by lia. by rewrite andb_true_r.
Qed.

Lemma cow_pte_flags pa :
  page_addr pa ->
  has (cow_pte pa) PTE_V = true /\ has (cow_pte pa) PTE_U = true /\ has (cow_pte pa) PTE_COW = false /\
  PTE_FLAGS (cow_pte pa) <> PTE_V /\ PTE2PA (cow_pte pa) = pa /\ 0 <= cow_pte pa < 2 ^ 64.
Proof.
  intros Hp. unfold cow_pte. rewrite has_V, has_U, has_COW, !PTE_flag_bit, PTE_FLAGS_PA2PTE, PTE2PA_PA2PTE by done.
  pose proof (PTE_range pa 31 Hp ltac:(lia)). repeat split; try done; apply H.
Qed.

(** ** Breaking the sharing of one page *)

Section break.
Context (s : kst) (l : list Z) (A : aspace) (F : gmultiset Z) (Hsp : space s l A F).
Context (va pa a : Z) (Hva : 0 <= va < MAXVA) (Hal : va mod PGSIZE = 0).
Context (Hleaf : leaf (a_T A) va = Some a) (Hpa : a_map A !! va = Some pa).

Let R := own (mkA (a_T A) (delete va (a_map A))) ⊎ F.
Let O := own A ⊎ F.

Lemma break_O : O = {[+ pa +]} ⊎ R.
Proof.
  unfold O, R, own. cbn. rewrite (own_map_delete _ _ _ Hpa), ms_swap. apply ms_assoc.
Qed.

Lemma break_O' pn : own (mkA (a_T A) (<[va := pn]> (a_map A))) ⊎ F = {[+ pn +]} ⊎ R.
Proof.
  unfold R. rewrite <- insert_delete_eq, own_split by apply lookup_delete_eq. apply ms_assoc.
Qed.

Lemma break_user vb p : vb <> va -> a_map A !! vb = Some p -> p ∈ R.
Proof.
  intros Hne Hp. unfold R. apply gmultiset_elem_of_disj_union. left. eapply (own_user _ vb). cbn.
  by rewrite lookup_delete_ne.
Qed.

Lemma break_pt p : pt_page (a_T A) p -> p ∈ R.
Proof. intros Hp. unfold R. apply gmultiset_elem_of_disj_union. left. by apply own_pt. Qed.

(** The memory after the new page [pn] is filled, the entry stored and [pa]
    released. *)
Definition broken (m' : mem) (pn : Z) : Prop :=
  (forall p x, p ∈ R -> ~ pt_page (a_T A) p -> in_page p x -> rd8 m' x = rd8 (kmem_mem s) x) /\
  (forall x, in_page pn x -> rd8 m' x = rd8 (kmem_mem s) (pa + (x - pn))) /\
  pt_rep m' (a_T A) /\
  (forall vb, 0 <= vb < MAXVA ->
     pte_at m' (a_T A) vb = if PGROUNDDOWN vb =? va then cow_pte pn else pte_at (kmem_mem s) (a_T A) vb).

Context (s' : kst) (l' : list Z) (pn : Z) (Hpn : page_ok pn) (Hnew : pn ∉ O).
Context (Hv' : vm_inv s' l' ({[+ pn +]} ⊎ R)) (Hb : broken (kmem_mem s') pn).

Let A' := mkA (a_T A) (<[va := pn]> (a_map A)).

Lemma break_mult p : p <> pa -> p <> pn -> multiplicity p ({[+ pn +]} ⊎ R) = multiplicity p O.
Proof. intros. rewrite break_O, !mult_add_ne by done. done. Qed.

Lemma break_not_pn p : p ∈ O -> p <> pn.
Proof. congruence. Qed.

Lemma break_R_O p : p ∈ R -> p ∈ O.
Proof. intros. rewrite break_O. by apply ms_in_r. Qed.

Lemma break_as_inv : as_inv (kmem_mem s') A' (own A' ⊎ F).
Proof.
  unfold A'. rewrite break_O'. destruct Hsp as [Hv Ha], Hb as (_ & _ & HR & Hpte).
  pose proof (cow_pte_flags pn (page_ok_addr _ Hpn)) as (F1 & F2 & F3 & F4 & F5 & F6).
  apply (as_inv_upd (kmem_mem s) A O _ _ _ va (cow_pte pn) (Some pn)); try done.
  - intros p Hp. rewrite break_mult; [by apply (ai_pt _ _ _ Ha)|..].
    + intros ->. by eapply pt_not_user.
    + by apply break_not_pn, break_R_O, break_pt.
  - intros vb p Hne Hp H1. pose proof (break_user _ _ Hne Hp) as Hin.
    rewrite break_mult; [done| |by apply break_not_pn, break_R_O].
    intros ->. rewrite break_O, mult_add_eq in H1. rewrite mult_pos in Hin. lia.
  - intros vb Hvb Hvb'. rewrite Hpte, PGROUNDDOWN_id by done. done.
  - split_and!; try done. intros _. rewrite mult_add_eq, mult_0; [done|]. by intros ?%break_R_O.
Qed.

Lemma break_keeps : keeps (kmem_mem s) O (kmem_mem s') (own A' ⊎ F) F.
Proof.
  destruct Hsp as [Hv Ha], Hb as (Hm & _). unfold A'. rewrite break_O'. intros p Hp.
  assert (p ∈ R) as HpR by (by apply ms_in_r). split.
  - intros x. apply Hm; [done|]. intros Hpt. eapply excl_not_frame; [by apply own_pt|by apply (ai_pt _ _ _ Ha)|done].
  - intros H1. rewrite break_mult; [done| |by apply break_not_pn, break_R_O].
    intros ->. eapply excl_not_frame; [|done|done]. by eapply own_user.
Qed.

Lemma break_views x : has (pte_at (kmem_mem s) (a_T A) va) PTE_U = true ->
  uview (kmem_mem s') (a_T A) x = uview (kmem_mem s) (a_T A) x.
Proof.
  intros HU. destruct Hsp as [Hv Ha], Hb as (Hm & Hc & HR & Hpte).
  destruct (decide (0 <= x < MAXVA)) as [Hx|Hx].
  2: { unfold uview. destruct (Z.leb_spec 0 x), (Z.ltb_spec x MAXVA); try done; lia. }
  destruct (decide (PGROUNDDOWN x = va)) as [E|E].
  - unfold uview, upage. rewrite E. rewrite Hpte, PGROUNDDOWN_id, Z.eqb_refl by done.
    pose proof (cow_pte_flags pn (page_ok_addr _ Hpn)) as (-> & -> & _ & _ & -> & _).
    destruct (ai_map _ _ _ Ha va pa Hpa) as (-> & _ & ->). rewrite HU.
    case_if; [|done]. cbn. f_equal. pose proof (PGROUNDDOWN_bounds x).
    rewrite Hc by (unfold in_page; lia). f_equal. lia.
  - apply uview_ext.
    + rewrite Hpte by done. by destruct (Z.eqb_spec (PGROUNDDOWN x) va).
    + intros pb Hup _ y Hy. apply (ai_user _ _ _ Ha) in Hup; [|by apply PGROUNDDOWN_range|apply PGROUNDDOWN_aligned].
      apply (Hm pb); [by eapply break_user| |done]. intros Hpt. by eapply pt_not_user.
Qed.

End break.

(** The steps of [cowfault] once the entry is found to be copy-on-write. *)
Section copy.
Context (s : kst) (l : list Z) (A : aspace) (F : gmultiset Z) (Hsp : space s l A F).
Context (va pa a : Z) (Hva : 0 <= va < MAXVA) (Hal : va mod PGSIZE = 0).
Context (Hleaf : leaf (a_T A) va = Some a) (Hpa : a_map A !! va = Some pa).

Let R := own (mkA (a_T A) (delete va (a_map A))) ⊎ F.
Context (s1 : kst) (l1 : list Z) (pn : Z) (Hpn : page_ok pn) (Hnew : pn ∉ own A ⊎ F).
Context (Hv1 : vm_inv s1 l1 ({[+ pn +]} ⊎ (own A ⊎ F))) (Hch : changed_page pn s s1).

Let w := Z.lor (Z.lor (Z.lor (Z.lor (Z.lor (PA2PTE pn) PTE_U) PTE_V) PTE_W) PTE_X) PTE_R.
Let m2 := memmove (kmem_mem s1) pn pa PGSIZE.
Let m3 := store64 (store64 m2 a w) a (cow_pte pn).

(** Pages in use keep their bytes, except the page of the entry. *)
Lemma copy_frame p x : p ∈ own A ⊎ F -> in_page p x -> rd8 m2 x = rd8 (kmem_mem s) x.
Proof.
  intros Hp Hx. assert (~ in_page pn x) as Hn.
  { apply (page_disjoint p pn); [|apply Hpn|congruence|done]. by apply (vi_ok _ _ _ (proj1 Hsp)). }
  unfold m2. rewrite rd8_memmove by done. unfold in_page in Hn.
  rewrite (proj2 (andb_false_iff _ _)); [by apply Hch|].
  destruct (Z.leb_spec pn x), (Z.ltb_spec x (pn + PGSIZE)); try lia; auto.
Qed.

Lemma copy_rep2 : pt_rep m2 (a_T A).
Proof.
  eapply pt_rep_frame; [|apply (proj2 Hsp)]. intros p x Hp. apply copy_frame. apply ms_in_l. by apply own_pt.
Qed.

Lemma copy_store p x : ~ pt_page (a_T A) p -> p mod PGSIZE = 0 -> in_page p x -> rd8 m3 x = rd8 m2 x.
Proof.
  intros Hp Hpal Hx. unfold m3.
  assert (forall q, pt_page (a_T A) q -> ~ in_page q x) as Hn.
  { intros q Hq. apply (page_disjoint p q); [done| |congruence|done].
    apply (pr_ok _ _ copy_rep2 q Hq). }
  rewrite (store_leaf_frame _ (a_T A) va a); [|by eapply pt_store; [apply copy_rep2|]|done|done].
  by rewrite (store_leaf_frame _ (a_T A) va a); [|apply copy_rep2|..].
Qed.

Lemma copy_broken : broken s A F va pa m3 pn.
Proof.
  pose proof (page_ok_addr _ Hpn) as Hpp.
  pose proof (cow_pte_flags pn Hpp) as (_ & _ & _ & _ & _ & Hr).
  assert (pt_rep (store64 m2 a w) (a_T A)) as HR3 by (eapply pt_store; [apply copy_rep2|done]).
  assert (pn mod PGSIZE = 0) as Hpn0 by apply Hpn.
  split_and!.
  - intros p x Hp Hnp Hx. fold R in Hp.
    assert (p ∈ own A ⊎ F) as HpO by (rewrite (break_O A F va pa Hpa); by apply ms_in_r).
    rewrite (copy_store p); [by apply (copy_frame p)|done| |done]. by apply (vi_ok _ _ _ (proj1 Hsp)).
  - intros x Hx. rewrite (copy_store pn); [|intros Hp; apply Hnew, ms_in_l; by apply own_pt|done|done].
    unfold m2. rewrite rd8_memmove by done. unfold in_page in Hx.
    destruct (Z.leb_spec pn x), (Z.ltb_spec x (pn + PGSIZE)); try lia. cbn. apply Hch.
    assert (pa ∈ own A ⊎ F) as Hin by (apply ms_in_l; by eapply own_user).
    apply (page_disjoint pa pn); [by apply (vi_ok _ _ _ (proj1 Hsp))|done|congruence|unfold in_page; lia].
  - by eapply pt_store.
  - intros vb Hvb. unfold m3. rewrite (pte_store _ (a_T A) va a) by done.
    rewrite (PGROUNDDOWN_id va) by done. destruct (Z.eqb_spec (PGROUNDDOWN vb) va) as [E|E]; [done|].
    transitivity (pte_at m2 (a_T A) vb).
    + unfold pte_at. destruct (leaf (a_T A) vb) as [b|] eqn:Eb; [|done]. apply load64_store64_ne.
      eapply (leaf_apart m2 (a_T A) va vb); [apply copy_rep2|done|done|done|done|].
      rewrite (PGROUNDDOWN_id va) by done. congruence.
    + apply pte_at_frame. intros p x Hp. apply copy_frame. apply ms_in_l. by apply own_pt.
Qed.

(** Releasing [pa] does not disturb this. *)
Lemma broken_kfree m4 :
  (forall x, ~ in_page pa x -> rd8 m4 x = rd8 m3 x) -> (pa ∈ {[+ pn +]} ⊎ R -> m4 = m3) ->
  broken s A F va pa m4 pn.
Proof.
  intros H1 H2. destruct (decide (pa ∈ {[+ pn +]} ⊎ R)) as [Hin|Hnin].
  { rewrite H2 by done. apply copy_broken. }
  destruct copy_broken as (B1 & B2 & B3 & B4).
  assert (page_ok pa) as [Hpa0 _].
  { apply (vi_ok _ _ _ (proj1 Hsp)), ms_in_l. by eapply own_user. }
  assert (forall p x, p ∈ {[+ pn +]} ⊎ R -> in_page p x -> rd8 m4 x = rd8 m3 x) as Hm.
  { intros p x Hp Hx. apply H1. apply (page_disjoint p pa); [|done|congruence|done].
    apply (vi_ok _ _ _ Hv1). rewrite (break_O A F va pa Hpa), ms_swap. by apply ms_in_r. }
  assert (forall p x, pt_page (a_T A) p -> in_page p x -> rd8 m4 x = rd8 m3 x) as Hpt.
  { intros p x Hp. apply Hm, ms_in_r. by apply break_pt. }
  split_and!.
  - intros p x Hp Hnp Hx. rewrite (Hm p) by (done || by apply ms_in_r). by apply (B1 p).
  - intros x Hx. rewrite (Hm pn) by (done || apply ms_in_singleton). by apply B2.
  - by eapply pt_rep_frame.
  - intros vb Hvb. rewrite <- B4 by done. by apply pte_at_frame.
Qed.

Lemma copy_vm :
  vm_inv (s1 <| kmem_mem ::= fun m => memmove m pn pa PGSIZE |> <| kmem_mem ::= fun m => store64 m a w |>
          <| kmem_mem ::= fun m => store64 m a (cow_pte pn) |>) l1 ({[+ pn +]} ⊎ (own A ⊎ F)).
Proof.
  assert (forall x, (forall p, p ∈ {[+ pn +]} ⊎ (own A ⊎ F) -> ~ in_page p x) ->
    forall p, pt_page (a_T A) p -> ~ in_page p x) as Hpt.
  { intros x Hx p Hp. apply Hx, ms_in_r, ms_in_l. by apply own_pt. }
  repeat apply vm_inv_mem; [done|..].
  - intros x Hx. rewrite rd8_memmove by done. specialize (Hx pn (ms_in_singleton _ _)). unfold in_page in Hx.
    destruct (Z.leb_spec pn x), (Z.ltb_spec x (pn + PGSIZE)); try done; lia.
  - intros x Hx. eapply store_leaf_frame; [apply copy_rep2|done|by apply Hpt].
  - intros x Hx. eapply store_leaf_frame; [|done|by apply Hpt]. by eapply pt_store; [apply copy_rep2|].
Qed.

Lemma wp_copy_finish (s3 : kst) :
  kmem_mem s3 = m3 -> vm_inv s3 l1 ({[+ pn +]} ⊎ (own A ⊎ F)) ->
  has (pte_at (kmem_mem s) (a_T A) va) PTE_U = true ->
  wp (kfree pa) (fun _ s' => exists l' A', space s' l' A' F /\ a_T A' = a_T A /\ dom (a_map A') = dom (a_map A) /\
    keeps (kmem_mem s) (own A ⊎ F) (kmem_mem s') (own A' ⊎ F) F /\
    (forall x, uview (kmem_mem s') (a_T A) x = uview (kmem_mem s) (a_T A) x) /\
    cow_sub (kmem_mem s) (kmem_mem s') (a_T A) /\
    upage (kmem_mem s') (a_T A) va = Some pn /\
    has (pte_at (kmem_mem s') (a_T A) va) PTE_COW = false) s3.
Proof.
  intros Em Hv3 HU. rewrite (break_O A F va pa Hpa), ms_swap in Hv3.
  eapply wp_kfree_own; [exact Hv3|]. intros s4 l4 Hv4 Hch4 Hm4.
  assert (broken s A F va pa (kmem_mem s4) pn) as Hb.
  { apply broken_kfree; [intros x Hx; rewrite <- Em; by apply Hch4|].
    intros Hin. rewrite <- Em. by apply Hm4. }
  exists l4, (mkA (a_T A) (<[va := pn]> (a_map A))). split_and!.
  - split; [by rewrite break_O'|by eapply break_as_inv].
  - done.
  - cbn. rewrite dom_insert_lookup_L; [done|by eexists].
  - by eapply break_keeps.
  - intros x. by eapply break_views.
  - destruct Hb as (_ & _ & _ & Hp). intros vb Hvb. rewrite Hp by done. case_if; [|done].
    by destruct (cow_pte_flags pn (page_ok_addr _ Hpn)) as (_ & _ & -> & _).
  - destruct Hb as (_ & _ & _ & Hp). unfold upage. rewrite Hp, PGROUNDDOWN_id, Z.eqb_refl by done.
    by destruct (cow_pte_flags pn (page_ok_addr _ Hpn)) as (-> & -> & _ & _ & -> & _).
  - destruct Hb as (_ & _ & _ & Hp). rewrite Hp, PGROUNDDOWN_id, Z.eqb_refl by done.
    by destruct (cow_pte_flags pn (page_ok_addr _ Hpn)) as (_ & _ & -> & _).
Qed.

End copy.

(** ** [cowfault] *)

(** What [cowfault] does to address space [A] beside [F]: the views of [A]
    and of everybody else stay, and on success the page of [va] is [A]'s
    own. *)
Definition cow_post (s : kst) (A : aspace) (F : gmultiset Z) (va r : Z) (s' : kst) : Prop :=
  exists l' A', space s' l' A' F /\ a_T A' = a_T A /\ dom (a_map A') = dom (a_map A) /\
    keeps (kmem_mem s) (own A ⊎ F) (kmem_mem s') (own A' ⊎ F) F /\
    (forall x, uview (kmem_mem s') (a_T A) x = uview (kmem_mem s) (a_T A) x) /\
    cow_sub (kmem_mem s) (kmem_mem s') (a_T A) /\
    (r = 0 /\ is_Some (upage (kmem_mem s') (a_T A) (PGROUNDDOWN va)) /\
       has (pte_at (kmem_mem s') (a_T A) va) PTE_COW = false \/
     r = -1 /\ s' = s /\ refused s (a_T A) va s).

Lemma cow_post_same s l A F va r :
  space s l A F ->
  (r = 0 /\ is_Some (upage (kmem_mem s) (a_T A) (PGROUNDDOWN va)) /\
   has (pte_at (kmem_mem s) (a_T A) va) PTE_COW = false \/ r = -1 /\ refused s (a_T A) va s) -> cow_post s A F va r s.
Proof.
  intros Hs Hr. exists l, A. do 5 (split; [done|]). split; [apply cow_sub_refl|]. destruct Hr as [?|[? ?]]; auto.
Qed.

Lemma cow_post_refused s l A F va :
  space s l A F -> refused s (a_T A) va s -> cow_post s A F va (-1) s.
Proof. intros Hs Hr. eapply cow_post_same; [done|by right]. Qed.

Lemma refused_entry s T va s' : has (pte_at (kmem_mem s) T va) PTE_U && has (pte_at (kmem_mem s) T va) PTE_V = false -> refused s T va s'.
Proof.
  intros H. right; left. unfold uview, upage. rewrite pte_page. case_if; [|done].
  rewrite andb_comm, H. done.
Qed.

Lemma wp_cowfault s l A F va :
  space s l A F -> 0 <= va -> wp (cowfault (t_root (a_T A)) va) (cow_post s A F va) s.
Proof.
  intros Hsp Hva. unfold cowfault.
  destruct (Z.leb_spec MAXVA va) as [Hge|Hlt].
  { apply wp_ret. eapply cow_post_refused; [done|]. right; left. unfold uview.
    destruct (Z.ltb_spec va MAXVA); [lia|]. by rewrite andb_false_r. }
  destruct (Z.eqb_spec va 0) as [->|Hnz0]. { apply wp_ret. eapply cow_post_refused; [done|by left]. }
  destruct Hsp as [Hv Ha] eqn:EHs. clear EHs.
  apply wp_bind, wp_walk_leaf; [apply Ha|lia|intros Hno; apply wp_ret; eapply cow_post_refused; [done|]|].
  { apply refused_entry. unfold pte_at. by rewrite Hno. }
  intros a El Hnz Eld. destruct (Z.eqb_spec a 0); [done|].
  wp_steps. rewrite Eld. set (v := pte_at (kmem_mem s) (a_T A) va) in *.
  destruct (has v PTE_U) eqn:EU; cbn [negb orb].
  2: { apply wp_ret. eapply cow_post_refused; [done|]. apply refused_entry. fold v. by rewrite EU. }
  destruct (has v PTE_V) eqn:EV; cbn [negb orb].
  2: { apply wp_ret. eapply cow_post_refused; [done|]. apply refused_entry. fold v. by rewrite EU, EV. }
  set (va0 := PGROUNDDOWN va) in *.
  assert (pte_at (kmem_mem s) (a_T A) va0 = v) as Ev0 by apply pte_page.
  assert (upage (kmem_mem s) (a_T A) va0 = Some (PTE2PA v)) as Eup
    by (unfold upage; by rewrite Ev0, EU, EV).
  destruct (has v PTE_COW) eqn:EC; cbn [negb].
  2: { apply wp_ret. eapply cow_post_same; [done|left]. fold va0. by rewrite Eup. }
  assert (0 <= va0 < MAXVA) as Hva0 by (apply PGROUNDDOWN_range; lia).
  assert (va0 mod PGSIZE = 0) as Hal by apply PGROUNDDOWN_aligned.
  assert (leaf (a_T A) va0 = Some a) as El0
    by (rewrite <- El; apply leaf_same_page; by rewrite PGROUNDDOWN_id).
  pose proof (ai_user _ _ _ Ha va0 _ Hva0 Hal Eup) as Hpa. set (pa := PTE2PA v) in *.
  wp_steps. eapply wp_kalloc_own; [done|..].
  { intros Hl. apply wp_ret. eapply cow_post_refused; [done|]. right; right. split; [done|by eapply no_free]. }
  intros pn l1 s1 -> Hv1 Hnew Hpn Hch. pose proof (page_ok_pos _ Hpn).
  destruct (Z.eqb_spec pn 0); [lia|]. wp_steps.
  set (w := Z.lor (Z.lor (Z.lor (Z.lor (Z.lor (PA2PTE pn) PTE_U) PTE_V) PTE_W) PTE_X) PTE_R).
  change (load64 _ a) with (load64 (store64 (memmove (kmem_mem s1) pn pa PGSIZE) a w) a).
  assert (0 <= w < 2 ^ 64) as Hw.
  { unfold w. rewrite <- !Z.lor_assoc. by apply PTE_range; [apply page_ok_addr|]. }
  rewrite load64_store64_eq by done. replace (Z.land w (Z.lnot PTE_COW)) with (cow_pte pn) by (symmetry; apply cow_pte_eq).
  eapply wp_mono.
  { eapply wp_copy_finish; [exact Hsp|exact Hva0|done|done|done|done|done|done|exact Hch|reflexivity| |].
    - by eapply copy_vm.
    - by rewrite Ev0. }
  intros [] s4 (l4 & A4 & H1 & H2 & H3 & H4 & H5 & H6 & H7 & H8). apply wp_ret.
  exists l4, A4. do 6 (split; [done|]). left. split; [done|]. split; [by eexists|]. by rewrite <- pte_page.
Qed.

(** ** [walkaddr] *)

Lemma user_page s l A F va pa :
  space s l A F -> 0 <= va < MAXVA -> va mod PGSIZE = 0 -> upage (kmem_mem s) (a_T A) va = Some pa ->
  a_map A !! va = Some pa /\ page_ok pa.
Proof.
  intros [Hv Ha] Hva Hal Hu. pose proof (ai_user _ _ _ Ha _ _ Hva Hal Hu) as Hm.
  split; [done|]. apply (vi_ok _ _ _ Hv), ms_in_l. by eapply own_user.
Qed.

Lemma wp_walkaddr s l A F va (Q : Z -> kst -> Prop) :
  space s l A F -> 0 <= va -> va mod PGSIZE = 0 ->
  (MAXVA <= va \/ upage (kmem_mem s) (a_T A) va = None -> Q 0 s) ->
  (forall pa, va < MAXVA -> upage (kmem_mem s) (a_T A) va = Some pa -> page_ok pa -> Q pa s) ->
  wp (walkaddr (t_root (a_T A)) va) Q s.
Proof.
  intros Hsp Hva Hal H0 H1. unfold walkaddr. destruct (Z.leb_spec MAXVA va).
  { apply wp_ret. auto. }
  apply wp_bind, wp_walk_leaf; [apply (proj2 Hsp)|lia|..].
  - intros El. apply wp_ret, H0. right. unfold upage, pte_at. by rewrite El.
  - intros a El Hnz Eld. destruct (Z.eqb_spec a 0); [done|]. wp_steps. rewrite Eld.
    destruct (has _ PTE_V) eqn:EV; cbn [negb].
    2: { apply wp_ret, H0. right. unfold upage. by rewrite EV. }
    destruct (has _ PTE_U) eqn:EU; cbn [negb].
    2: { apply wp_ret, H0. right. unfold upage. by rewrite EV, EU. }
    apply wp_ret.
    assert (upage (kmem_mem s) (a_T A) va = Some (PTE2PA (pte_at (kmem_mem s) (a_T A) va))) as Hu
      by (unfold upage; by rewrite EV, EU).
    apply H1; [done|done|]. by eapply user_page.
Qed.

(** ** Writing to a page of one's own *)

(** [f] with the bytes [bs] stored from [dst] on. *)
Definition patch (f : Z -> option Z) (dst : Z) (bs : list Z) (x : Z) : option Z :=
  if (dst <=? x) && (x <? dst + Z.of_nat (length bs))
  then Some (u8 (nth (Z.to_nat (x - dst)) bs 0)) else f x.

Lemma patch_nil f dst x : patch f dst [] x = f x.
Proof.
  unfold patch. cbn [length]. destruct (Z.leb_spec dst x), (Z.ltb_spec x (dst + Z.of_nat 0)); try done; lia.
Qed.

Lemma patch_app f dst a b x :
  patch (patch f dst a) (dst + Z.of_nat (length a)) b x = patch f dst (a ++ b) x.
Proof.
  unfold patch. rewrite length_app.
  destruct (Z.leb_spec (dst + Z.of_nat (length a)) x), (Z.ltb_spec x (dst + Z.of_nat (length a) + Z.of_nat (length b))),
    (Z.leb_spec dst x), (Z.ltb_spec x (dst + Z.of_nat (length a + length b))), (Z.ltb_spec x (dst + Z.of_nat (length a)));
    cbn; try lia; try done; do 2 f_equal;
    first [by rewrite app_nth1 by lia|rewrite app_nth2 by lia; f_equal; lia].
Qed.

Lemma patch_ext f g dst bs x : f x = g x -> patch f dst bs x = patch g dst bs x.
Proof. unfold patch. intros ->. done. Qed.

Section write.
Context (s : kst) (l : list Z) (A : aspace) (F : gmultiset Z) (Hsp : space s l A F).
Context (dst pa : Z) (bs : list Z) (Hdst : 0 <= dst < MAXVA).
Let va0 := PGROUNDDOWN dst.
Context (Hup : upage (kmem_mem s) (a_T A) va0 = Some pa).
Context (Hcow : has (pte_at (kmem_mem s) (a_T A) va0) PTE_COW = false).
Context (Hfit : dst + Z.of_nat (length bs) <= va0 + PGSIZE).
Let m' := wrbytes (kmem_mem s) (pa + (dst - va0)) bs.

Lemma write_page : a_map A !! va0 = Some pa /\ page_ok pa /\ multiplicity pa (own A ⊎ F) = 1%nat.
Proof.
  destruct (user_page s l A F va0 pa) as [Hm Hok]; [done| | |done|].
  - by apply PGROUNDDOWN_range.
  - apply PGROUNDDOWN_aligned.
  - split; [done|]. split; [done|]. by eapply (ai_excl _ _ _ (proj2 Hsp)).
Qed.

Lemma write_out x : ~ in_page pa x -> rd8 m' x = rd8 (kmem_mem s) x.
Proof.
  intros Hx. apply rd8_wrbytes_out. pose proof (PGROUNDDOWN_bounds dst). unfold in_page in Hx. lia.
Qed.

Lemma write_other p x : p <> pa -> p ∈ own A ⊎ F -> in_page p x -> rd8 m' x = rd8 (kmem_mem s) x.
Proof.
  intros Hne Hp Hx. apply write_out. apply (page_disjoint p pa); [|apply write_page|done|done].
  by apply (vi_ok _ _ _ (proj1 Hsp)).
Qed.

Lemma write_pt p x : pt_page (a_T A) p -> in_page p x -> rd8 m' x = rd8 (kmem_mem s) x.
Proof.
  intros Hp. apply write_other; [|apply ms_in_l; by apply own_pt].
  intros ->. eapply (pt_not_user _ A F pa va0); [apply (proj2 Hsp)|done|apply write_page].
Qed.

Lemma write_space : space (s <| kmem_mem ::= fun m => wrbytes m (pa + (dst - va0)) bs |>) l A F.
Proof.
  destruct Hsp as [Hv Ha]. split.
  - apply vm_inv_mem; [done|]. intros x Hx. apply write_out, Hx, ms_in_l. eapply own_user, write_page.
  - eapply as_inv_frame; [done|apply write_pt|done].
Qed.

Lemma write_keeps : keeps (kmem_mem s) (own A ⊎ F) m' (own A ⊎ F) F.
Proof.
  intros p Hp. split; [|done]. intros x. apply write_other; [|by apply ms_in_r].
  intros ->. eapply excl_not_frame; [eapply own_user| |]; [apply write_page..|done].
Qed.

Lemma write_cow : cow_sub (kmem_mem s) m' (a_T A).
Proof. intros x _. rewrite (pte_at_frame (kmem_mem s) m' (a_T A) x); [done|apply write_pt]. Qed.

Lemma write_view x : uview m' (a_T A) x = patch (uview (kmem_mem s) (a_T A)) dst bs x.
Proof.
  assert (forall vb, pte_at m' (a_T A) vb = pte_at (kmem_mem s) (a_T A) vb) as Hpte.
  { intros vb. apply pte_at_frame. apply write_pt. }
  pose proof (PGROUNDDOWN_bounds dst) as Hb. fold va0 in Hb.
  destruct (decide (PGROUNDDOWN x = va0)) as [E|E].
  - pose proof (PGROUNDDOWN_bounds x) as Hx. rewrite E in Hx.
    assert (0 <= x < MAXVA) as Hxr.
    { pose proof (PGROUNDDOWN_range dst Hdst) as Hr. pose proof (PGROUNDDOWN_aligned dst) as Ha. fold va0 in Hr, Ha.
      change MAXVA with (2 ^ 38) in *. unfold PGSIZE in *. Z.div_mod_to_equations. lia. }
    unfold patch, uview, upage. rewrite E, !Hpte. unfold upage in Hup.
    destruct (Z.leb_spec 0 x), (Z.ltb_spec x MAXVA); try lia. cbn [andb].
    case_if; [|done]. injection Hup as ->. cbn. unfold m'. rewrite rd8_wrbytes.
    destruct (Z.leb_spec dst x), (Z.ltb_spec x (dst + Z.of_nat (length bs))),
      (Z.leb_spec (pa + (dst - va0)) (pa + (x - va0))),
      (Z.ltb_spec (pa + (x - va0)) (pa + (dst - va0) + Z.of_nat (length bs))); cbn; try lia; try done.
    do 3 f_equal. lia.
  - transitivity (uview (kmem_mem s) (a_T A) x).
    + apply uview_ext; [apply Hpte|]. intros pb Hpb Hx y.
      destruct (user_page s l A F (PGROUNDDOWN x) pb) as [Hm _]; [done|by apply PGROUNDDOWN_range|apply PGROUNDDOWN_aligned|done|].
      apply write_other; [|apply ms_in_l; by eapply own_user]. intros ->.
      destruct write_page as (Hm0 & _ & H1). rewrite (break_O A F va0 pa Hm0), mult_add_eq in H1.
      pose proof (break_user A F va0 _ _ E Hm) as Hin. rewrite mult_pos in Hin. lia.
    + unfold patch. destruct (Z.leb_spec dst x), (Z.ltb_spec x (dst + Z.of_nat (length bs))); cbn; try done.
      exfalso. apply E. unfold va0 in *. pose proof (PGROUNDDOWN_bounds x) as Hx.
      pose proof (PGROUNDDOWN_aligned x). pose proof (PGROUNDDOWN_aligned dst).
      unfold PGSIZE in *. Z.div_mod_to_equations. lia.
Qed.

End write.

(** ** [copyout] *)

(** The first [k] bytes of [src] have been stored at [dst]. *)
Definition out_post (s : kst) (A : aspace) (F : gmultiset Z) (dst : Z) (bs : list Z) (s' : kst) : Prop :=
  exists l' A', space s' l' A' F /\ a_T A' = a_T A /\ dom (a_map A') = dom (a_map A) /\
    keeps (kmem_mem s) (own A ⊎ F) (kmem_mem s') (own A' ⊎ F) F /\
    cow_sub (kmem_mem s) (kmem_mem s') (a_T A) /\
    forall x, uview (kmem_mem s') (a_T A) x = patch (uview (kmem_mem s) (a_T A)) dst bs x.

Lemma out_post_refl s l A F dst : space s l A F -> out_post s A F dst [] s.
Proof. intros H. exists l, A. do 4 (split; [done|]). split; [apply cow_sub_refl|]. intros x. by rewrite patch_nil. Qed.

(** Following [out_post] by an operation with unchanged views, or by one
    more chunk. *)
Lemma out_post_app s A F dst bs s1 l1 A1 s2 l2 A2 cs :
  space s1 l1 A1 F -> a_T A1 = a_T A -> dom (a_map A1) = dom (a_map A) ->
  keeps (kmem_mem s) (own A ⊎ F) (kmem_mem s1) (own A1 ⊎ F) F -> cow_sub (kmem_mem s) (kmem_mem s1) (a_T A) ->
  (forall x, uview (kmem_mem s1) (a_T A) x = patch (uview (kmem_mem s) (a_T A)) dst bs x) ->
  space s2 l2 A2 F -> a_T A2 = a_T A1 -> dom (a_map A2) = dom (a_map A1) ->
  keeps (kmem_mem s1) (own A1 ⊎ F) (kmem_mem s2) (own A2 ⊎ F) F -> cow_sub (kmem_mem s1) (kmem_mem s2) (a_T A) ->
  (forall x, uview (kmem_mem s2) (a_T A) x =
     patch (uview (kmem_mem s1) (a_T A)) (dst + Z.of_nat (length bs)) cs x) ->
  out_post s A F dst (bs ++ cs) s2.
Proof.
  intros _ E1 D1 K1 C1 V1 S2 E2 D2 K2 C2 V2. exists l2, A2. split; [done|].
  split; [congruence|]. split; [congruence|]. split; [by eapply keeps_trans|]. split; [by eapply cow_sub_trans|].
  intros x. rewrite V2, <- patch_app. by apply patch_ext.
Qed.

(** An address refused after some bytes were stored was refused before. *)
Lemma out_post_refused s A F dst bs s1 x s2 :
  out_post s A F dst bs s1 -> refused s1 (a_T A) x s2 -> refused s (a_T A) x s2.
Proof.
  intros (l' & A' & _ & _ & _ & _ & C & V) [?|[Hu|[Hc Hf]]]; [by left|right; left|].
  - rewrite V in Hu. revert Hu. unfold patch. by case_if.
  - destruct (decide (0 <= x < MAXVA)) as [Hx|Hx]; [right; right; split; [by apply C|done]|]. right; left.
    unfold uview. destruct (Z.leb_spec 0 x), (Z.ltb_spec x MAXVA); try done; lia.
Qed.

(** [copyout] stores all of [src], or a part of it up to an address that is
    refused. *)
Lemma wp_copyout s l A F dstva src :
  space s l A F -> 0 <= dstva < 2 ^ 64 -> Z.of_nat (length src) < 2 ^ 64 ->
  wp (copyout (t_root (a_T A)) dstva src) (fun r s' => exists k,
    out_post s A F dstva (take k src) s' /\
    (r = 0 /\ k = length src \/
     r = -1 /\ (k < length src)%nat /\ refused s (a_T A) (dstva + Z.of_nat k) s')) s.
Proof.
  intros Hsp Hd Hlen. unfold copyout.
  apply (wp_while (fun '(d, bs) s1 => exists k, (k <= length src)%nat /\ bs = drop k src /\
      0 <= d < 2 ^ 64 /\ (bs <> [] -> d = dstva + Z.of_nat k) /\ out_post s A F dstva (take k src) s1)
    (fun '(_, bs) => length bs)).
  - intros [d bs] s1 (k & Hk & -> & Hdr & Hdk & l1 & A1 & S1 & T1 & D1 & K1 & C1 & V1).
    rewrite length_drop. destruct (Z.ltb_spec 0 (Z.of_nat (length src - k))) as [Hlt|]; cbn [negb].
    2: { wp_steps. exists k. split; [by exists l1, A1|]. left. split; [done|lia]. }
    assert (d = dstva + Z.of_nat k) as ->.
    { apply Hdk. intros E%(f_equal length). rewrite length_drop in E. cbn in E. lia. }
    set (d := dstva + Z.of_nat k) in *. set (va0 := PGROUNDDOWN d).
    pose proof (PGROUNDDOWN_bounds d) as Hb. fold va0 in Hb. pose proof (PGROUNDDOWN_aligned d) as Hal. fold va0 in Hal.
    assert (0 <= va0) as Hva0 by (revert Hal Hb Hdr; unfold PGSIZE; intros; Z.div_mod_to_equations; lia).
    assert (forall s', out_post s A F dstva (take k src) s' -> refused s' (a_T A) va0 s' -> exists k0, out_post s A F dstva (take k0 src) s' /\
      (-1 = 0 /\ k0 = length src \/ -1 = -1 /\ (k0 < length src)%nat /\ refused s (a_T A) (dstva + Z.of_nat k0) s')) as Hfail.
    { intros s' H' Hr'. exists k. split; [done|]. right. split; [done|]. split; [lia|]. eapply out_post_refused; [done|]. by apply refused_page. }
    destruct (Z.ltb_spec MAXVA va0).
    { wp_steps. apply Hfail; [by exists l1, A1|]. right; left. unfold uview. destruct (Z.ltb_spec va0 MAXVA); [lia|]. by rewrite andb_false_r. }
    wp_steps. replace (t_root (a_T A)) with (t_root (a_T A1)) by (by rewrite T1). eapply wp_mono; [by apply (wp_cowfault s1 l1 A1 F va0)|].
    intros r s2 (l2 & A2 & S2 & T2 & D2 & K2 & V2 & C2 & Hr). rewrite T1 in C2.
    assert (out_post s A F dstva (take k src) s2) as HP2.
    { rewrite <- (app_nil_r (take k src)).
      apply (out_post_app s A F dstva (take k src) s1 l1 A1 s2 l2 A2); try done.
      intros x. by rewrite patch_nil, <- T1. }
    destruct Hr as [(-> & [pa Hup] & Hcow)|(-> & -> & Href)]; cbn.
    2: { wp_steps. apply Hfail; [done|]. by rewrite <- T1. }
    wp_steps. replace (t_root (a_T A1)) with (t_root (a_T A2)) by (by rewrite T2). eapply (wp_walkaddr s2 l2 A2 F); [done|done|done|..].
    { intros Hno. cbn. wp_steps. apply Hfail; [done|]. right; left. unfold uview. rewrite PGROUNDDOWN_id by done. rewrite T2, T1 in Hno.
      destruct Hno as [?| ->]; [destruct (Z.ltb_spec va0 MAXVA); [lia|]; by rewrite andb_false_r|by case_if]. }
    intros pa' Hva0m Hup' Hpo. pose proof (page_ok_pos _ Hpo). destruct (Z.eqb_spec pa' 0); [lia|].
    assert (d < MAXVA) as Hdm.
    { revert Hva0m Hal Hb. change MAXVA with (2 ^ 38). unfold PGSIZE. intros. Z.div_mod_to_equations. lia. }
    wp_steps. set (c := if _ <? _ then _ else _).
    assert (0 < c <= PGSIZE - (d - va0) /\ c <= Z.of_nat (length src - k)) as Hc by (unfold c; case_if; zb; lia).
    assert (c = PGSIZE - (d - va0) \/ c = Z.of_nat (length src - k)) as Hc' by (unfold c; case_if; zb; lia).
    clearbody c. set (nn := Z.to_nat c). rewrite drop_drop.
    assert (length (take nn (drop k src)) = nn) as Hlc by (rewrite length_take, length_drop; lia).
    rewrite (PGROUNDDOWN_id va0) in Hup by done. rewrite <- T2 in Hcow.
    split; [|rewrite length_drop; lia].
    exists (k + nn)%nat. split; [lia|]. split; [done|]. split; [apply u64_range|]. split.
    + intros Hne. rewrite u64_small; [|change MAXVA with (2 ^ 38) in *; unfold PGSIZE in *; lia].
      destruct Hc' as [->| ->]; [unfold d in *; lia|]. destruct Hne. apply drop_ge. lia.
    + assert (take (k + nn) src = take k src ++ take nn (drop k src)) as ->.
      { apply (app_inv_tail (drop (k + nn) src)). rewrite take_drop, <- app_assoc, <- drop_drop, !take_drop. done. }
      rewrite T1 in T2. assert (length (take k src) = k) as Hlk by (rewrite length_take; lia).
      apply (out_post_app s A F dstva (take k src) s1 l1 A1 _ l2 A2); try done.
      * apply write_space; try done; lia.
      * congruence.
      * eapply keeps_trans; [exact K2|]. eapply write_keeps; try done; lia.
      * eapply cow_sub_trans; [exact C2|]. rewrite <- T2. eapply write_cow; try done; lia.
      * intros x. rewrite Hlk. fold d. rewrite <- T2. cbn. rewrite (write_view s2 l2 A2 F S2 d pa'); try done; try lia.
        apply patch_ext. rewrite T2, <- T1. apply V2.
  - exists 0%nat. rewrite drop_0. split; [lia|]. split; [done|]. split; [done|]. split; [lia|]. by eapply out_post_refl.
  - change (Z.pos FUEL) with (2 ^ 64). lia.
Qed.

(** ** [copyin] *)

(** The [n] bytes user code reads at [a], if all of them are mapped. *)
Fixpoint uread (m : mem) (T : ptree) (a : Z) (n : nat) : option (list Z) :=
  match n with
  | O => Some []
  | S n' => b ← uview m T a; bs ← uread m T (a + 1) n'; Some (b :: bs)
  end.

Lemma uread_app m T a n k :
  uread m T a (n + k) = bs ← uread m T a n; cs ← uread m T (a + Z.of_nat n) k; Some (bs ++ cs).
Proof.
  revert a. induction n as [|n IH]; intros a; cbn [uread Nat.add].
  - rewrite Z.add_0_r. cbn. by destruct (uread m T a k).
  - destruct (uview m T a) as [b|]; [|done]. cbn. rewrite IH.
    destruct (uread m T (a + 1) n) as [bs|]; [|done]. cbn.
    replace (a + 1 + Z.of_nat n) with (a + Z.of_nat (S n)) by lia.
    by destruct (uread m T (a + Z.of_nat (S n)) k).
Qed.

Lemma uread_some m T a n bs :
  length bs = n -> (forall i b, bs !! i = Some b -> uview m T (a + Z.of_nat i) = Some b) -> uread m T a n = Some bs.
Proof.
  revert a bs. induction n as [|n IH]; intros a [|b bs] Hl Hv; try done. cbn [uread].
  pose proof (Hv 0%nat b eq_refl) as H0. rewrite Z.add_0_r in H0. rewrite H0. cbn.
  rewrite (IH _ bs); [done|by injection Hl|]. intros i c Hi. rewrite <- (Hv (S i) c) by done. f_equal. lia.
Qed.

(** Addresses on page [va0]. *)
Lemma same_page va0 x : va0 mod PGSIZE = 0 -> va0 <= x < va0 + PGSIZE -> PGROUNDDOWN x = va0.
Proof.
  pose proof (PGROUNDDOWN_bounds x). pose proof (PGROUNDDOWN_aligned x).
  unfold PGSIZE in *. intros. Z.div_mod_to_equations. lia.
Qed.

Lemma uread_page m T va0 pa a n :
  0 <= va0 < MAXVA -> va0 mod PGSIZE = 0 -> upage m T va0 = Some pa ->
  va0 <= a -> a + Z.of_nat n <= va0 + PGSIZE -> uread m T a n = Some (rdbytes m (pa + (a - va0)) n).
Proof.
  intros Hr Hal Hu Ha Hn. apply uread_some; [apply length_rdbytes|]. intros i b Hb.
  assert (i < n)%nat as Hi by (apply lookup_lt_Some in Hb; by rewrite length_rdbytes in Hb).
  rewrite rdbytes_lookup in Hb by done. injection Hb as <-. unfold uview.
  rewrite (same_page va0) by (done || lia). rewrite Hu.
  destruct (Z.leb_spec 0 (a + Z.of_nat i)), (Z.ltb_spec (a + Z.of_nat i) MAXVA); cbn; try lia.
  - do 2 f_equal. lia.
  - exfalso. change MAXVA with (2 ^ 38) in *. unfold PGSIZE in *. Z.div_mod_to_equations. lia.
Qed.

Lemma uread_unmapped m T a n : uview m T a = None -> (0 < n)%nat -> uread m T a n = None.
Proof. destruct n; [lia|]. cbn [uread]. by intros ->. Qed.

Lemma wp_copyin s l A F srcva len (Q : Z * list Z -> kst -> Prop) :
  space s l A F -> 0 <= srcva < 2 ^ 64 -> 0 <= len < 2 ^ 64 ->
  match uread (kmem_mem s) (a_T A) srcva (Z.to_nat len) with
  | Some bs => Q (0, bs) s
  | None => forall bs, Q (-1, bs) s
  end ->
  wp (copyin (t_root (a_T A)) srcva len) Q s.
Proof.
  intros Hsp Hsv Hlen HQ. unfold copyin.
  apply (wp_while (fun '(a, rest, dst) s1 => s1 = s /\ exists k, Z.of_nat k + rest = len /\ 0 <= rest /\
      0 <= a < 2 ^ 64 /\ (0 < rest -> a = srcva + Z.of_nat k) /\
      uread (kmem_mem s) (a_T A) srcva k = Some dst)
    (fun '(_, rest, _) => Z.to_nat rest)).
  - intros [[a rest] dst] s1 (-> & k & Hk & Hrest & Har & Ha & Hrd).
    assert (forall j, Z.of_nat j = rest -> uread (kmem_mem s) (a_T A) srcva (Z.to_nat len) =
      cs ← uread (kmem_mem s) (a_T A) (srcva + Z.of_nat k) j; Some (dst ++ cs)) as Hsplit.
    { intros j Hj. replace (Z.to_nat len) with (k + j)%nat by lia. rewrite uread_app, Hrd. done. }
    destruct (Z.ltb_spec 0 rest) as [Hpos|Hz]; cbn [negb].
    2: { wp_steps. rewrite (Hsplit 0%nat) in HQ by lia. cbn in HQ. by rewrite app_nil_r in HQ. }
    rewrite <- Ha in Hsplit by done. specialize (Hsplit (Z.to_nat rest) ltac:(lia)).
    set (va0 := PGROUNDDOWN a).
    pose proof (PGROUNDDOWN_bounds a) as Hb. fold va0 in Hb. pose proof (PGROUNDDOWN_aligned a) as Hal. fold va0 in Hal.
    assert (0 <= va0) as Hva0 by (revert Hal Hb Har; unfold PGSIZE; intros; Z.div_mod_to_equations; lia).
    wp_steps. eapply (wp_walkaddr s l A F); [done|done|done|..].
    { intros Hno. cbn. wp_steps.
      assert (uview (kmem_mem s) (a_T A) a = None) as Hnone.
      { unfold uview. fold va0. destruct Hno as [Hno| ->]; [|by case_if].
        destruct (Z.leb_spec 0 a), (Z.ltb_spec a MAXVA); try done; lia. }
      rewrite Hsplit, (uread_unmapped _ _ _ _ Hnone) in HQ by lia. apply HQ. }
    intros pa Hm Hup Hpo. pose proof (page_ok_pos _ Hpo). destruct (Z.eqb_spec pa 0); [lia|].
    wp_steps. set (c := if _ <? _ then _ else _).
    assert (0 < c <= PGSIZE - (a - va0) /\ c <= rest) as Hc by (unfold c; case_if; zb; lia).
    assert (c = PGSIZE - (a - va0) \/ c = rest) as Hc' by (unfold c; case_if; zb; lia).
    clearbody c. split; [|lia]. split; [done|]. exists (k + Z.to_nat c)%nat.
    split; [lia|]. split; [lia|]. split; [apply u64_range|]. split.
    + intros Hr. rewrite u64_small; [lia|]. change MAXVA with (2 ^ 38) in *. unfold PGSIZE in *. lia.
    + rewrite uread_app, Hrd. cbn. rewrite <- Ha by done.
      by rewrite (uread_page _ _ va0 pa) by (done || lia).
  - split; [done|]. exists 0%nat. split_and!; try done; try lia.
  - change (Z.pos FUEL) with (2 ^ 64). lia.
Qed.

End cow.
