(* ===== verification/Uvm.v ===== *)
(** * Uvm: allocating and freeing user memory

    What [uvmunmap], [uvmdealloc], [mappages] for one page and [uvmalloc] of
    [kernel/vm.c] do to the address spaces of [AddrSpace]: which pages come
    and go, and that the reference counts of all others stay. *)

From stdpp Require Import base list gmap gmultiset strings.
From Stdlib Require Import ZArith Lia.
From S2P Require Import Prelude CMem Riscv Spinlock Kalloc Vm PageTable AddrSpace Cow.
Import CString.

Section uvm.
Context `{L : Layout} {LO : LayoutOk L}.

(** ** [uvmunmap] *)

(** One iteration: the page at [va] is released and its entry cleared. *)
Section unmap1.
Context (s : kst) (l : list Z) (A : aspace) (F : gmultiset Z) (Hsp : space s l A F).
Context (va pa a : Z) (Hva : 0 <= va < MAXVA) (Hal : va mod PGSIZE = 0).
Context (Hleaf : leaf (a_T A) va = Some a) (Hpa : a_map A !! va = Some pa).
Let A0 := mkA (a_T A) (delete va (a_map A)).
Let R := own A0 ⊎ F.
Context (s1 : kst) (l1 : list Z) (Hv1 : vm_inv s1 l1 R) (Hch : changed_page pa s s1).
Context (Hsame : pa ∈ R -> kmem_mem s1 = kmem_mem s).

Lemma unmap1_same p x : p ∈ R -> in_page p x -> rd8 (kmem_mem s1) x = rd8 (kmem_mem s) x.
Proof.
  intros Hp Hx. destruct (decide (pa ∈ R)) as [Hin|Hnin]; [by rewrite Hsame|].
  apply Hch. apply (page_disjoint p pa); [by apply (vi_ok _ _ _ Hv1)| |congruence|done].
  apply (vi_ok _ _ _ (proj1 Hsp)), ms_in_l. by eapply own_user.
Qed.

Lemma unmap1_pt p x : pt_page (a_T A) p -> in_page p x -> rd8 (kmem_mem s1) x = rd8 (kmem_mem s) x.
Proof. intros Hp. apply unmap1_same. by apply break_pt. Qed.

Lemma unmap1_rep : pt_rep (kmem_mem s1) (a_T A).
Proof. eapply pt_rep_frame; [apply unmap1_pt|apply (proj2 Hsp)]. Qed.

Lemma unmap1_pte vb : 0 <= vb < MAXVA ->
  pte_at (store64 (kmem_mem s1) a 0) (a_T A) vb =
  if PGROUNDDOWN vb =? va then 0 else pte_at (kmem_mem s) (a_T A) vb.
Proof.
  intros Hvb. rewrite (pte_store _ (a_T A) va a); [|apply unmap1_rep|done..].
  rewrite (PGROUNDDOWN_id va) by done. case_if; [done|]. apply pte_at_frame, unmap1_pt.
Qed.

Lemma unmap1_mult p : p <> pa -> multiplicity p R = multiplicity p (own A ⊎ F).
Proof. intros. rewrite (break_O A F va pa Hpa). by rewrite mult_add_ne. Qed.

Lemma unmap1_space : space (s1 <| kmem_mem ::= fun m => store64 m a 0 |>) l1 A0 F.
Proof.
  destruct Hsp as [Hv Ha]. split.
  - apply vm_inv_mem; [done|]. intros x Hx. eapply store_leaf_frame; [apply unmap1_rep|done|].
    intros p Hp. apply Hx. by apply break_pt.
  - apply (as_inv_upd (kmem_mem s) A (own A ⊎ F) _ _ _ va 0 None); try done.
    + by eapply pt_store; [apply unmap1_rep|].
    + intros p Hp. fold A0 R. rewrite unmap1_mult; [by apply (ai_pt _ _ _ Ha)|]. intros ->. by eapply pt_not_user.
    + intros vb p Hne Hp H1. fold A0 R. destruct (decide (p = pa)) as [->|]; [|by rewrite unmap1_mult].
      rewrite (break_O A F va pa Hpa), mult_add_eq in H1.
      pose proof (break_user A F va _ _ Hne Hp) as Hin. rewrite mult_pos in Hin. lia.
    + intros vb Hvb Hvb'. cbn. rewrite unmap1_pte, PGROUNDDOWN_id by done. done.
Qed.

Lemma unmap1_out p x : p ∈ R -> ~ pt_page (a_T A) p -> in_page p x ->
  rd8 (store64 (kmem_mem s1) a 0) x = rd8 (kmem_mem s) x.
Proof.
  intros Hp Hnp Hx. rewrite (store_leaf_frame _ (a_T A) va a); [by apply (unmap1_same p)|apply unmap1_rep|done|].
  intros q Hq. apply (page_disjoint p q); [by apply (vi_ok _ _ _ Hv1)|by apply (pr_ok _ _ unmap1_rep)|congruence|done].
Qed.

Lemma unmap1_keeps : keeps (kmem_mem s) (own A ⊎ F) (store64 (kmem_mem s1) a 0) R F.
Proof.
  destruct Hsp as [Hv Ha]. intros p Hp. assert (p ∈ R) as HpR by (by apply ms_in_r). split.
  - intros x. apply unmap1_out; [done|]. intros Hpt.
    eapply excl_not_frame; [by apply own_pt|by apply (ai_pt _ _ _ Ha)|done].
  - intros H1. rewrite unmap1_mult; [done|]. intros ->. eapply excl_not_frame; [by eapply own_user|done|done].
Qed.

Lemma unmap1_view x :
  uview (store64 (kmem_mem s1) a 0) (a_T A) x =
  if PGROUNDDOWN x =? va then None else uview (kmem_mem s) (a_T A) x.
Proof.
  destruct (decide (0 <= x < MAXVA)) as [Hx|Hx].
  2: { unfold uview. destruct (Z.leb_spec 0 x), (Z.ltb_spec x MAXVA); try lia; cbn [andb]; by destruct (_ =? _). }
  destruct (Z.eqb_spec (PGROUNDDOWN x) va) as [E|E].
  - unfold uview, upage. rewrite E, unmap1_pte, PGROUNDDOWN_id, Z.eqb_refl by done. by case_if.
  - apply uview_ext.
    + rewrite unmap1_pte by done. by destruct (Z.eqb_spec (PGROUNDDOWN x) va).
    + intros pb Hup _ y Hy. destruct (user_page s l A F (PGROUNDDOWN x) pb) as [Hm _]; try done.
      { by apply PGROUNDDOWN_range. } { apply PGROUNDDOWN_aligned. }
      apply (unmap1_out pb); [by eapply break_user| |done]. intros Hpt. eapply pt_not_user; [apply (proj2 Hsp)|done|done].
Qed.

End unmap1.

(** The pages from [va] to [hi] are gone. *)
Definition unmapped (s : kst) (A : aspace) (F : gmultiset Z) (va hi : Z) (s' : kst) (l' : list Z) (A' : aspace) : Prop :=
  space s' l' A' F /\ a_T A' = a_T A /\
  keeps (kmem_mem s) (own A ⊎ F) (kmem_mem s') (own A' ⊎ F) F /\
  (forall vb, a_map A' !! vb = if map_range va hi vb then None else a_map A !! vb) /\
  (forall vb, 0 <= vb < MAXVA -> vb mod PGSIZE = 0 ->
     pte_at (kmem_mem s') (a_T A) vb = if map_range va hi vb then 0 else pte_at (kmem_mem s) (a_T A) vb) /\
  (forall x, uview (kmem_mem s') (a_T A) x =
     if map_range va hi (PGROUNDDOWN x) then None else uview (kmem_mem s) (a_T A) x).

Lemma map_range_empty va vb : map_range va va vb = false.
Proof. unfold map_range. destruct (Z.leb_spec va vb), (Z.ltb_spec vb va); try done; lia. Qed.

Lemma map_range_empty' va vb : map_range va vb vb = false.
Proof. unfold map_range. rewrite Z.ltb_irrefl. apply andb_false_r. Qed.

Lemma map_range_next va a vb :
  va <= a -> va mod PGSIZE = 0 -> a mod PGSIZE = 0 -> vb mod PGSIZE = 0 ->
  map_range va (a + PGSIZE) vb = (vb =? a) || map_range va a vb.
Proof.
  intros. unfold map_range.
  assert (vb < a + PGSIZE <-> vb = a \/ vb < a) by (unfold PGSIZE in *; Z.div_mod_to_equations; lia).
  destruct (Z.leb_spec va vb), (Z.ltb_spec vb (a + PGSIZE)), (Z.eqb_spec vb a), (Z.ltb_spec vb a); cbn; try done; lia.
Qed.

Lemma map_range_lt va hi vb : map_range va hi vb = true <-> va <= vb < hi.
Proof. unfold map_range. destruct (Z.leb_spec va vb), (Z.ltb_spec vb hi); cbn; split; try done; lia. Qed.

Lemma unmapped_refl s l A F va : space s l A F -> unmapped s A F va va s l A.
Proof.
  intros H. split; [done|]. split; [done|]. split; [done|].
  split_and!; intros; by rewrite map_range_empty.
Qed.

(** One more page. *)
Lemma unmapped_next s A F va a s1 l1 A1 s2 l2 A2 :
  va <= a -> va mod PGSIZE = 0 -> a mod PGSIZE = 0 ->
  unmapped s A F va a s1 l1 A1 ->
  space s2 l2 A2 F -> a_T A2 = a_T A1 -> keeps (kmem_mem s1) (own A1 ⊎ F) (kmem_mem s2) (own A2 ⊎ F) F ->
  a_map A2 = delete a (a_map A1) ->
  (forall vb, 0 <= vb < MAXVA -> pte_at (kmem_mem s2) (a_T A1) vb =
     if PGROUNDDOWN vb =? a then 0 else pte_at (kmem_mem s1) (a_T A1) vb) ->
  (forall x, uview (kmem_mem s2) (a_T A1) x =
     if PGROUNDDOWN x =? a then None else uview (kmem_mem s1) (a_T A1) x) ->
  unmapped s A F va (a + PGSIZE) s2 l2 A2.
Proof.
  intros Hle Hva Ha (S1 & T1 & K1 & M1 & P1 & V1) S2 T2 K2 M2 P2 V2. rewrite T1 in *.
  split; [done|]. split; [done|]. split; [by eapply keeps_trans|]. split_and!.
  - intros vb. rewrite M2. destruct (decide (vb = a)) as [->|Hne].
    + rewrite lookup_delete_eq, map_range_next, Z.eqb_refl by done. done.
    + rewrite lookup_delete_ne, M1 by done. destruct (decide (vb mod PGSIZE = 0)) as [Hal|Hal].
      * rewrite map_range_next by done. by destruct (Z.eqb_spec vb a).
      * destruct (a_map A !! vb) as [q|] eqn:E; [|by repeat case_if].
        assert (a_map A1 !! vb = (if map_range va a vb then None else Some q)) as E1 by (by rewrite M1, E).
        destruct (map_range va a vb) eqn:Er.
        -- apply map_range_lt in Er. replace (map_range va (a + PGSIZE) vb) with true; [done|].
           symmetry. apply map_range_lt. unfold PGSIZE. lia.
        -- apply (ai_va _ _ _ (proj2 S1)) in E1 as [_ ?]. done.
  - intros vb Hvb Hal. rewrite P2, PGROUNDDOWN_id, map_range_next by done.
    destruct (Z.eqb_spec vb a); [done|]. cbn. by apply P1.
  - intros x. rewrite V2, map_range_next by (try done; apply PGROUNDDOWN_aligned).
    destruct (_ =? a); [done|]. cbn. apply V1.
Qed.

Lemma wp_uvmunmap s l A F va n (Q : unit -> kst -> Prop) :
  space s l A F -> va mod PGSIZE = 0 -> 0 <= va -> 0 <= n -> va + n * PGSIZE <= MAXVA ->
  (forall vb, vb mod PGSIZE = 0 -> va <= vb < va + n * PGSIZE -> is_Some (a_map A !! vb)) ->
  (forall s' l' A', unmapped s A F va (va + n * PGSIZE) s' l' A' -> Q tt s') ->
  wp (uvmunmap (t_root (a_T A)) va n true) Q s.
Proof.
  intros Hsp Hal Hva Hn Hmax Hmap HQ. unfold uvmunmap. rewrite Hal. cbn [Z.eqb negb].
  assert (MAXVA = 2 ^ 38) as EM by done. assert (PGSIZE = 4096) as EP by done.
  rewrite u64_small by nia.
  apply (wp_while (fun a s1 => a mod PGSIZE = 0 /\ va <= a <= va + n * PGSIZE /\
      exists l1 A1, unmapped s A F va a s1 l1 A1) (fun a => Z.to_nat (va + n * PGSIZE - a))).
  - intros a s1 (Haa & Har & l1 & A1 & Hu). destruct (Z.ltb_spec a (va + n * PGSIZE)) as [Hlt|Hge]; cbn [negb].
    2: { wp_steps. replace (va + n * PGSIZE) with a in HQ by lia. by eapply HQ. }
    pose proof Hu as (S1 & T1 & K1 & M1 & P1 & V1).
    destruct (Hmap a Haa ltac:(lia)) as [pa Hpa].
    assert (a_map A1 !! a = Some pa) as Hpa1.
    { rewrite M1. destruct (map_range va a a) eqn:E; [|done]. apply map_range_lt in E. lia. }
    destruct (ai_map _ _ _ (proj2 S1) a pa Hpa1) as (EV & EF & EP2).
    wp_steps. rewrite <- T1. apply wp_walk_leaf; [apply (proj2 S1)|lia|..].
    { intros El. unfold pte_at in EV. rewrite El in EV. done. }
    intros pte El Hnz Eld. destruct (Z.eqb_spec pte 0); [done|]. wp_steps. rewrite Eld, EV. cbn [negb].
    destruct (Z.eqb_spec (PTE_FLAGS (pte_at (kmem_mem s1) (a_T A1) a)) PTE_V); [done|].
    rewrite EP2. wp_steps. eapply (wp_kfree_own _ l1).
    { rewrite <- (break_O A1 F a pa Hpa1). apply S1. }
    intros s2 l2 Hv2 Hch2 Hsame2. wp_steps. rewrite u64_small by lia.
    split; [|lia]. split; [revert Haa; rewrite EP; intros; Z.div_mod_to_equations; lia|].
    split; [revert Haa Hal Hlt; rewrite EP; intros; Z.div_mod_to_equations; lia|].
    assert (0 <= a < MAXVA) as Ham by lia.
    eexists l2, (mkA (a_T A1) (delete a (a_map A1))). eapply unmapped_next; [lia|done|done|exact Hu|..].
    + by eapply unmap1_space.
    + done.
    + by eapply unmap1_keeps.
    + done.
    + by eapply unmap1_pte.
    + by eapply unmap1_view.
  - split; [done|]. split; [lia|]. exists l, A. by apply unmapped_refl.
  - change (Z.pos FUEL) with (2 ^ 64). lia.
Qed.

(** Page-aligned sizes. *)
Definition pages_of (sz : Z) : Z := PGROUNDUP sz / PGSIZE.

Lemma PGROUNDUP_range sz : 0 <= sz <= MAXVA -> 0 <= PGROUNDUP sz <= MAXVA.
Proof.
  intros H. change MAXVA with (2 ^ 38) in *. pose proof (PGROUNDUP_bounds sz ltac:(lia) ltac:(unfold PGSIZE; lia)).
  pose proof (PGROUNDUP_aligned sz). unfold PGSIZE in *. Z.div_mod_to_equations. lia.
Qed.

Lemma wp_uvmdealloc s l A F oldsz newsz (Q : Z -> kst -> Prop) :
  space s l A F -> 0 <= oldsz <= MAXVA -> 0 <= newsz ->
  (forall vb, vb mod PGSIZE = 0 -> PGROUNDUP newsz <= vb < PGROUNDUP oldsz -> is_Some (a_map A !! vb)) ->
  (oldsz <= newsz -> Q oldsz s) ->
  (newsz < oldsz -> forall s' l' A', unmapped s A F (PGROUNDUP newsz) (PGROUNDUP oldsz) s' l' A' -> Q newsz s') ->
  wp (uvmdealloc (t_root (a_T A)) oldsz newsz) Q s.
Proof.
  intros Hsp Ho Hnw Hmap H0 H1. unfold uvmdealloc. destruct (Z.leb_spec oldsz newsz) as [Hle|Hlt].
  { apply wp_ret. auto. }
  pose proof (PGROUNDUP_range oldsz ltac:(lia)). pose proof (PGROUNDUP_range newsz ltac:(lia)).
  pose proof (PGROUNDUP_aligned oldsz). pose proof (PGROUNDUP_aligned newsz).
  wp_steps. change MAXVA with (2 ^ 38) in *. destruct (Z.ltb_spec (PGROUNDUP newsz) (PGROUNDUP oldsz)) as [Hr|Hr].
  - set (n := (PGROUNDUP oldsz - PGROUNDUP newsz) / PGSIZE).
    assert (PGROUNDUP newsz + n * PGSIZE = PGROUNDUP oldsz) as En.
    { unfold n, PGSIZE in *. Z.div_mod_to_equations. lia. }
    assert (0 <= n < 2 ^ 27) as Hnr by (unfold PGSIZE in *; lia).
    rewrite i32_small by (unfold INT_MIN, INT_MAX; lia). rewrite u64_small by lia.
    eapply wp_uvmunmap; [done|done|lia|lia|rewrite En; change MAXVA with (2 ^ 38); lia|rewrite En; done|].
    rewrite En. intros s' l' A' Hu. wp_steps. by eapply H1.
  - wp_steps. eapply (H1 Hlt s l A).
    assert (PGROUNDUP oldsz = PGROUNDUP newsz) as ->; [|by apply unmapped_refl].
    pose proof (PGROUNDUP_bounds oldsz ltac:(lia) ltac:(unfold PGSIZE; lia)).
    pose proof (PGROUNDUP_bounds newsz ltac:(lia) ltac:(unfold PGSIZE; lia)).
    unfold PGSIZE in *. Z.div_mod_to_equations. lia.
Qed.

(** ** Growing page tables, by ownership *)

Section growing.
Context (s : kst) (l : list Z) (T : ptree) (s' : kst) (l' : list Z) (T' : ptree) (taken : list Z).
Context (Hg : grows s l T s' l' T' taken) (O : gmultiset Z) (Hv : vm_inv s l O).
Context (HT : forall p, pt_page T p -> p ∈ O) (HRT : pt_rep (kmem_mem s) T).

Let N : gmultiset Z := list_to_set_disj taken.

Lemma taken_free p : p ∈ taken -> p ∈ l.
Proof. intros Hp. rewrite (g_list _ _ _ _ _ _ _ Hg). apply elem_of_app. by left. Qed.

Lemma taken_new p : p ∈ O -> p ∉ taken.
Proof. intros Hp Ht%taken_free. by eapply vm_not_free. Qed.

Lemma taken_nodup : NoDup taken.
Proof.
  pose proof (ki_nodup _ _ (vi_k _ _ _ Hv)) as Hnd. rewrite (g_list _ _ _ _ _ _ _ Hg) in Hnd.
  by apply NoDup_app in Hnd as [? _].
Qed.

Lemma taken_page p : p ∈ taken -> page_ok p.
Proof. intros Hp. apply (ki_pages _ _ (vi_k _ _ _ Hv)). by apply taken_free. Qed.

Lemma mult_taken p : multiplicity p (N ⊎ O) = if decide (p ∈ taken) then 1%nat else multiplicity p O.
Proof.
  unfold N. rewrite multiplicity_disj_union, mult_list by apply taken_nodup.
  case_decide; [|done]. rewrite (mult_0 p O); [done|]. intros ?. by eapply taken_new.
Qed.

Lemma vm_grow : vm_inv s' l' (N ⊎ O).
Proof.
  split; [apply Hg|..].
  - intros p [Hp|Hp]%gmultiset_elem_of_disj_union; [|by apply (vi_ok _ _ _ Hv)].
    apply taken_page. by apply elem_of_list_to_set_disj.
  - intros p Hpo. rewrite mult_taken. case_decide as Hp.
    + by rewrite (g_ref_new _ _ _ _ _ _ _ Hg).
    + rewrite (g_ref _ _ _ _ _ _ _ Hg); [by apply (vi_ref _ _ _ Hv)|apply Hpo|done].
  - intros p Hpo Hn. assert (p ∈ l) as Hl by (apply (vi_free _ _ _ Hv p Hpo); intros ?; by apply Hn, ms_in_r).
    rewrite (g_list _ _ _ _ _ _ _ Hg) in Hl. apply elem_of_app in Hl as [Ht|?]; [|done].
    destruct Hn. apply ms_in_l. by apply elem_of_list_to_set_disj.
Qed.

Lemma grow_mem p x : p ∈ O -> ~ pt_page T p -> in_page p x -> rd8 (kmem_mem s') x = rd8 (kmem_mem s) x.
Proof.
  intros Hp Hnp Hx. apply (g_mem _ _ _ _ _ _ _ Hg). intros q Hq.
  apply (page_disjoint p q); [by apply (vi_ok _ _ _ Hv)|apply (pr_ok _ _ (ao_rep _ _ _ (g_ok _ _ _ _ _ _ _ Hg)) q Hq)| |done].
  intros ->. apply (g_pages _ _ _ _ _ _ _ Hg) in Hq as [?|Hq]; [done|]. by apply (taken_new q).
Qed.

Lemma own_grow mp : own (mkA T' mp) = N ⊎ own (mkA T mp).
Proof.
  assert (pt_pages T' ≡ₚ taken ++ pt_pages T) as Hp.
  { apply NoDup_Permutation.
    - eapply NoDup_pt_pages, (ao_rep _ _ _ (g_ok _ _ _ _ _ _ _ Hg)).
    - apply NoDup_app. split; [apply taken_nodup|]. split; [|by eapply NoDup_pt_pages].
      intros p Hp Hp2%elem_of_pt_pages. by apply (taken_new p); [apply HT|].
    - intros p. rewrite elem_of_app, !elem_of_pt_pages, (g_pages _ _ _ _ _ _ _ Hg). tauto. }
  unfold own, N. cbn [a_T a_map].
  assert ((list_to_set_disj (pt_pages T') : gmultiset Z) = list_to_set_disj (taken ++ pt_pages T)) as ->
    by (by apply list_to_set_disj_perm).
  rewrite list_to_set_disj_app. apply ms_assoc.
Qed.

End growing.

(** ** Mapping one page *)

(** What happened to the pages [O] in use, when only the page tables [T]
    were worked on. *)
Record stepped (s : kst) (O : gmultiset Z) (T : ptree) (s' : kst) (O' : gmultiset Z) : Prop := {
  st_mem : forall p x, p ∈ O -> ~ pt_page T p -> in_page p x -> rd8 (kmem_mem s') x = rd8 (kmem_mem s) x;
  st_mult : forall p, p ∈ O -> multiplicity p O' = multiplicity p O;
  st_ref : forall p, p ∈ O -> num_ref s' (p / PGSIZE) = num_ref s (p / PGSIZE);
}.

Lemma stepped_keeps s A F s' O' :
  as_inv (kmem_mem s) A (own A ⊎ F) -> stepped s (own A ⊎ F) (a_T A) s' O' ->
  keeps (kmem_mem s) (own A ⊎ F) (kmem_mem s') O' F.
Proof.
  intros Ha [Hm Hmu _] p Hp. assert (p ∈ own A ⊎ F) as HpO by (by apply ms_in_r). split.
  - intros x. apply Hm; [done|]. intros Hpt. eapply excl_not_frame; [by apply own_pt|by apply (ai_pt _ _ _ Ha)|done].
  - intros H1. by rewrite Hmu.
Qed.

Lemma keeps_sub m O m' O' F F' : keeps m O m' O' F -> F' ⊆ F -> keeps m O m' O' F'.
Proof. intros H Hs p Hp. apply H. by eapply gmultiset_elem_of_subseteq. Qed.

(** The pages an entry [o] takes out of the frame. *)
Definition with_page (o : option Z) (F : gmultiset Z) : gmultiset Z :=
  match o with Some p => {[+ p +]} ⊎ F | None => F end.

Lemma own_set_page T mp va o F :
  mp !! va = None -> own (mkA T (set_page mp va o)) ⊎ F = own (mkA T mp) ⊎ with_page o F.
Proof.
  intros Hn. destruct o as [p|]; cbn.
  - rewrite own_split by done. rewrite ms_assoc. apply ms_swap.
  - by rewrite delete_id.
Qed.

Definition map_ok (O : gmultiset Z) (pa perm : Z) (o : option Z) : Prop :=
  match o with
  | Some q => q = pa /\ Z.lor perm PTE_V <> PTE_V /\ (has perm PTE_COW = false -> multiplicity pa O = 1%nat)
  | None => has perm PTE_U = false
  end.

Definition new_pte (pa perm : Z) : Z := Z.lor (Z.lor (PA2PTE pa) perm) PTE_V.

Lemma new_pte_ok O pa perm o :
  page_addr pa -> 0 <= perm < 1024 -> map_ok O pa perm o -> pte_ok O (new_pte pa perm) o.
Proof.
  intros Hpa Hp Hok. unfold new_pte. rewrite <- Z.lor_assoc.
  assert (0 <= Z.lor perm PTE_V < 1024) as Hf by (by apply flags_lor).
  destruct o as [q|]; cbn in *.
  - destruct Hok as (-> & Hn & Hc). split_and!.
    + rewrite has_V, PTE_flag_bit, Z.lor_spec by lia. apply orb_true_r.
    + by rewrite PTE_FLAGS_PA2PTE.
    + by apply PTE2PA_PA2PTE.
    + rewrite has_COW, PTE_flag_bit, Z.lor_spec by lia. rewrite has_COW in Hc. rewrite orb_false_r. done.
  - rewrite has_U, PTE_flag_bit, Z.lor_spec, <- has_U by lia. rewrite Hok. apply andb_false_r.
Qed.

Section grow_space.
Context (s : kst) (l : list Z) (A : aspace) (F0 : gmultiset Z) (Hsp : space s l A F0).
Context (s' : kst) (l' : list Z) (T' : ptree) (taken : list Z) (Hg : grows s l (a_T A) s' l' T' taken).

Let N : gmultiset Z := list_to_set_disj taken.
Let O := own A ⊎ F0.

Lemma gs_pt p : pt_page (a_T A) p -> p ∈ O.
Proof. intros. apply ms_in_l. by apply own_pt. Qed.

Lemma gs_vm : vm_inv s' l' (N ⊎ O).
Proof. eapply vm_grow; [exact Hg|apply Hsp]. Qed.

Lemma gs_mult p : p ∈ O -> multiplicity p (N ⊎ O) = multiplicity p O.
Proof.
  intros Hp. unfold N. rewrite (mult_taken _ _ _ _ _ _ _ Hg O (proj1 Hsp)).
  rewrite decide_False; [done|]. eapply taken_new; [exact Hg|apply Hsp|done].
Qed.

Lemma gs_stepped : stepped s O (a_T A) s' (N ⊎ O).
Proof.
  split.
  - intros p x. eapply grow_mem; [done|apply Hsp].
  - apply gs_mult.
  - intros p Hp. apply (g_ref _ _ _ _ _ _ _ Hg); [by apply (vi_ok _ _ _ (proj1 Hsp))|].
    eapply taken_new; [exact Hg|apply Hsp|done].
Qed.

Lemma gs_own mp F : own (mkA (a_T A) mp) ⊎ F = O -> own (mkA T' mp) ⊎ F = N ⊎ O.
Proof.
  intros E. rewrite (own_grow _ _ _ _ _ _ _ Hg O (proj1 Hsp)); [|apply gs_pt|apply (proj2 Hsp)].
  rewrite ms_assoc. by f_equal.
Qed.

Lemma gs_pt_mult p : pt_page T' p -> multiplicity p (N ⊎ O) = 1%nat.
Proof.
  intros Hp. unfold N. rewrite (mult_taken _ _ _ _ _ _ _ Hg O (proj1 Hsp)). case_decide; [done|].
  apply (g_pages _ _ _ _ _ _ _ Hg) in Hp as [Hp|?]; [|done]. by apply (ai_pt _ _ _ (proj2 Hsp)).
Qed.

Lemma gs_user_mult vb p : a_map A !! vb = Some p -> multiplicity p O = 1%nat -> multiplicity p (N ⊎ O) = 1%nat.
Proof. intros Hm H1. rewrite gs_mult; [done|]. apply ms_in_l. by eapply own_user. Qed.

Lemma gs_rep : pt_rep (kmem_mem s') T'.
Proof. apply (ao_rep _ _ _ (g_ok _ _ _ _ _ _ _ Hg)). Qed.

(** The table grew without a change of entries. *)
Lemma gs_same :
  (forall vb, 0 <= vb < MAXVA -> vb mod PGSIZE = 0 -> pte_at (kmem_mem s') T' vb = pte_at (kmem_mem s) (a_T A) vb) ->
  space s' l' (mkA T' (a_map A)) F0 /\ stepped s O (a_T A) s' (own (mkA T' (a_map A)) ⊎ F0).
Proof.
  intros Hu. assert (own (mkA T' (a_map A)) ⊎ F0 = N ⊎ O) as E by (by apply gs_own).
  rewrite E. split; [|apply gs_stepped]. unfold space. rewrite E. split; [apply gs_vm|].
  eapply as_inv_same; [apply Hsp|apply gs_rep|apply gs_pt_mult|apply gs_user_mult|done].
Qed.

(** ... or with a new entry at [va]. *)
Lemma gs_set F va v o :
  F0 = with_page o F -> a_map A !! va = None -> 0 <= va < MAXVA -> va mod PGSIZE = 0 ->
  upd_ptes (kmem_mem s) (a_T A) (kmem_mem s') T' (fun vb => vb =? va) (fun _ => v) ->
  (forall O', multiplicity (PTE2PA v) O' = multiplicity (PTE2PA v) O -> pte_ok O' v o) ->
  (forall p, o = Some p -> p = PTE2PA v) ->
  space s' l' (mkA T' (set_page (a_map A) va o)) F /\
  stepped s O (a_T A) s' (own (mkA T' (set_page (a_map A) va o)) ⊎ F).
Proof.
  intros EF Hn Hva Hal Hu Hok Ho.
  assert (own (mkA T' (set_page (a_map A) va o)) ⊎ F = N ⊎ O) as E.
  { apply gs_own. rewrite own_set_page by done. by rewrite <- EF. }
  rewrite E. split; [|apply gs_stepped]. unfold space. rewrite E. split; [apply gs_vm|].
  eapply as_inv_upd; [apply Hsp|apply gs_rep|apply gs_pt_mult|done|done|by intros; eapply gs_user_mult|exact Hu|].
  destruct o as [p|]; [|by apply (Hok O)]. apply Hok, gs_mult.
  unfold O. rewrite EF, <- (Ho p) by done. cbn. apply ms_in_r, ms_in_singleton.
Qed.

End grow_space.

(** [mappages] for one page: the entry is installed, or memory ran out and
    nothing but the page tables has changed. *)
Lemma wp_mappages1 s l A F va pa perm o (Q : Z -> kst -> Prop) :
  space s l A (with_page o F) -> 0 <= va < MAXVA -> va mod PGSIZE = 0 ->
  has (pte_at (kmem_mem s) (a_T A) va) PTE_V = false ->
  page_addr pa -> pa + PGSIZE <= 2 ^ 56 -> 0 <= perm < 1024 -> map_ok (own A ⊎ with_page o F) pa perm o ->
  (forall s' l' T', space s' l' (mkA T' (set_page (a_map A) va o)) F -> t_root T' = t_root (a_T A) ->
     stepped s (own A ⊎ with_page o F) (a_T A) s' (own (mkA T' (set_page (a_map A) va o)) ⊎ F) ->
     upd_ptes (kmem_mem s) (a_T A) (kmem_mem s') T' (fun vb => vb =? va) (fun _ => new_pte pa perm) ->
     (length l <= length l' + 2)%nat -> Q 0 s') ->
  (forall s' l' T', space s' l' (mkA T' (a_map A)) (with_page o F) -> t_root T' = t_root (a_T A) ->
     stepped s (own A ⊎ with_page o F) (a_T A) s' (own (mkA T' (a_map A)) ⊎ with_page o F) ->
     upd_ptes (kmem_mem s) (a_T A) (kmem_mem s') T' (fun vb => false) (fun _ => 0) ->
     l' = [] -> (length l <= 2)%nat -> Q (-1) s') ->
  wp (mappages (t_root (a_T A)) va PGSIZE pa perm) Q s.
Proof.
  intros Hsp Hva Hal HV Hpa Hpam Hperm Hok H1 H0.
  assert (PGROUNDDOWN va = va) as Ed by (by apply PGROUNDDOWN_id).
  assert (PGROUNDDOWN (va + PGSIZE - 1) = va) as El by (apply same_page; [done|unfold PGSIZE; lia]).
  assert (va + PGSIZE <= MAXVA) as Hm.
  { change MAXVA with (2 ^ 38) in *. unfold PGSIZE in *. Z.div_mod_to_equations. lia. }
  assert (a_map A !! va = None) as Hn.
  { destruct (a_map A !! va) eqn:E; [|done]. apply (ai_map _ _ _ (proj2 Hsp)) in E as [E _]. congruence. }
  assert (0 <= Z.lor perm PTE_V < 1024) as Hf by (by apply flags_lor).
  eapply (wp_mappages _ _ _ _ _ _ _ 1); rewrite ?Ed.
  - by eapply space_as_ok.
  - lia.
  - done.
  - lia.
  - lia.
  - rewrite El. lia.
  - apply Hpa.
  - apply Hpa.
  - lia.
  - done.
  - intros vb Hvb Hr. replace vb with va; [done|]. unfold PGSIZE in *. Z.div_mod_to_equations. lia.
  - intros r s' l' T' taken k Hg Htk Hu Hr. pose proof (f_equal length (g_list _ _ _ _ _ _ _ Hg)) as Hlen. rewrite length_app in Hlen.
    pose proof (g_root _ _ _ _ _ _ _ Hg) as Hroot.
    destruct Hr as [[-> ->]|(-> & Hk & Hl)].
    + assert (upd_ptes (kmem_mem s) (a_T A) (kmem_mem s') T' (fun vb => vb =? va) (fun _ => new_pte pa perm)) as Hu1.
      { intros vb Hvb Hvb'. rewrite Hu by done. unfold map_range, map_pte, new_pte.
        assert (va <= vb < va + 1 * PGSIZE <-> vb = va) as Hiff.
        { unfold PGSIZE in *. Z.div_mod_to_equations. lia. }
        destruct (Z.leb_spec va vb), (Z.ltb_spec vb (va + 1 * PGSIZE)), (Z.eqb_spec vb va); cbn; try lia; try done.
        do 3 f_equal. lia. }
      assert (PTE2PA (new_pte pa perm) = pa) as Epa.
      { unfold new_pte. rewrite <- Z.lor_assoc. by apply PTE2PA_PA2PTE. }
      destruct (gs_set s l A _ Hsp s' l' T' taken Hg F va (new_pte pa perm) o) as [S1 St]; try done.
      * intros O' HO'. apply new_pte_ok; [done|done|]. rewrite Epa in HO'.
        destruct o; cbn in *; [|done]. by rewrite HO'.
      * intros p ->. rewrite Epa. apply Hok.
      * eapply H1; try done. lia.
    + assert (k = 0) as -> by lia.
      assert (upd_ptes (kmem_mem s) (a_T A) (kmem_mem s') T' (fun vb => false) (fun _ => 0)) as Hu0.
      { intros vb Hvb Hvb'. rewrite Hu, Z.mul_0_l, Z.add_0_r, map_range_empty by done. done. }
      destruct (gs_same s l A _ Hsp s' l' T' taken Hg) as [S1 St]; [done|]. eapply H0; try done. subst l'. cbn in Hlen. lia.
Qed.

(** ** Views after mapping *)

Lemma step_view s l A F0 s' O' T' x :
  space s l A F0 -> stepped s (own A ⊎ F0) (a_T A) s' O' ->
  pte_at (kmem_mem s') T' (PGROUNDDOWN x) = pte_at (kmem_mem s) (a_T A) (PGROUNDDOWN x) ->
  uview (kmem_mem s') T' x = uview (kmem_mem s) (a_T A) x.
Proof.
  intros Hsp St Hp. apply uview_ext; [by rewrite <- !(pte_page _ _ x)|].
  intros pa Hu Hx y Hy. destruct (user_page s l A F0 (PGROUNDDOWN x) pa) as [Hm _]; try done.
  { by apply PGROUNDDOWN_range. } { apply PGROUNDDOWN_aligned. }
  apply (st_mem _ _ _ _ _ St pa); [|intros Hpt; eapply pt_not_user; [apply (proj2 Hsp)|done|done]|done].
  apply ms_in_l. by eapply own_user.
Qed.

Lemma uview_out m T x : ~ (0 <= x < MAXVA) -> uview m T x = None.
Proof. intros H. unfold uview. destruct (Z.leb_spec 0 x), (Z.ltb_spec x MAXVA); try done; lia. Qed.

Lemma uview_same s l A F0 s' O' T' :
  space s l A F0 -> stepped s (own A ⊎ F0) (a_T A) s' O' ->
  upd_ptes (kmem_mem s) (a_T A) (kmem_mem s') T' (fun vb => false) (fun _ => 0) ->
  forall x, uview (kmem_mem s') T' x = uview (kmem_mem s) (a_T A) x.
Proof.
  intros Hsp St Hu x. destruct (decide (0 <= x < MAXVA)); [|by rewrite !uview_out].
  eapply step_view; [done|done|]. apply Hu; [by apply PGROUNDDOWN_range|apply PGROUNDDOWN_aligned].
Qed.

Lemma uview_map1 s l A F pa s' O' T' va perm :
  space s l A ({[+ pa +]} ⊎ F) -> stepped s (own A ⊎ ({[+ pa +]} ⊎ F)) (a_T A) s' O' ->
  page_addr pa -> 0 <= perm < 1024 -> 0 <= va < MAXVA -> va mod PGSIZE = 0 ->
  upd_ptes (kmem_mem s) (a_T A) (kmem_mem s') T' (fun vb => vb =? va) (fun _ => new_pte pa perm) ->
  forall x, uview (kmem_mem s') T' x =
    if PGROUNDDOWN x =? va
    then if has perm PTE_U then Some (rd8 (kmem_mem s) (pa + (x - va))) else None
    else uview (kmem_mem s) (a_T A) x.
Proof.
  intros Hsp St Hpa Hperm Hva Hal Hu x. destruct (decide (0 <= x < MAXVA)) as [Hx|Hx].
  2: { rewrite !uview_out by done. destruct (Z.eqb_spec (PGROUNDDOWN x) va); [|done].
       exfalso. pose proof (PGROUNDDOWN_bounds x). change MAXVA with (2 ^ 38) in *. unfold PGSIZE in *.
       Z.div_mod_to_equations. lia. }
  pose proof (PGROUNDDOWN_range x Hx) as Hr. pose proof (PGROUNDDOWN_aligned x) as Hxa.
  pose proof (Hu _ Hr Hxa) as Hpx. cbn in Hpx. destruct (Z.eqb_spec (PGROUNDDOWN x) va) as [E|E].
  - unfold uview, upage. rewrite Hpx. unfold new_pte. rewrite <- Z.lor_assoc.
    assert (0 <= Z.lor perm PTE_V < 1024) as Hf by (by apply flags_lor).
    rewrite has_V, has_U, !PTE_flag_bit, !Z.lor_spec, PTE2PA_PA2PTE, <- (has_U perm), orb_true_r by (done || lia).
    destruct (Z.leb_spec 0 x), (Z.ltb_spec x MAXVA); try lia. rewrite orb_false_r.
    destruct (has perm PTE_U); [|done]. cbn. f_equal. rewrite E.
    pose proof (PGROUNDDOWN_bounds x).
    assert (pa ∈ {[+ pa +]} ⊎ F) as Hin by apply ms_in_singleton.
    apply (st_mem _ _ _ _ _ St pa); [by apply ms_in_r| |unfold in_page; lia].
    intros Hpt. eapply excl_not_frame; [by apply own_pt|by apply (ai_pt _ _ _ (proj2 Hsp))|done].
  - by eapply step_view.
Qed.

(** ** [uvmalloc] *)

(** The same entry, or both invalid. *)
Definition pte_eqv (v w : Z) : Prop := v = w \/ has v PTE_V = false /\ has w PTE_V = false.

#[local] Instance pte_eqv_equiv : Equivalence pte_eqv.
Proof.
  split.
  - intros v. by left.
  - intros v w [->|[? ?]]; [by left|by right].
  - intros v w u [->|[? ?]] [->|[? ?]]; unfold pte_eqv; tauto.
Qed.

(** Every page in use is referred to as often as before. *)
Definition same_refs (A : aspace) (F : gmultiset Z) (A' : aspace) : Prop :=
  forall p, p ∈ own A ⊎ F -> multiplicity p (own A' ⊎ F) = multiplicity p (own A ⊎ F).

Lemma same_refs_in A F A' p : same_refs A F A' -> p ∈ own A ⊎ F -> p ∈ own A' ⊎ F.
Proof. intros H Hp. apply mult_pos. rewrite H by done. by apply mult_pos. Qed.

Lemma same_refs_trans A F A1 A2 : same_refs A F A1 -> same_refs A1 F A2 -> same_refs A F A2.
Proof. intros H1 H2 p Hp. rewrite H2 by (by eapply same_refs_in). by apply H1. Qed.

(** ... also when a page [pa] that was free is used on the way. *)
Lemma same_refs_page A F pa A' (O' : gmultiset Z) :
  pa ∉ own A ⊎ F ->
  (forall p, p ∈ own A ⊎ ({[+ pa +]} ⊎ F) -> multiplicity p O' = multiplicity p (own A ⊎ ({[+ pa +]} ⊎ F))) ->
  (forall p, p <> pa -> multiplicity p (own A' ⊎ F) = multiplicity p O') -> same_refs A F A'.
Proof.
  intros Hnew H1 H2 p Hp. assert (p <> pa) as Hne by congruence. rewrite H2 by done.
  rewrite H1 by (rewrite ms_swap; by apply ms_in_r). by rewrite ms_swap, mult_add_ne.
Qed.

(** The pages a part of a map refers to. *)
Lemma own_map_empty : own_map ∅ = ∅.
Proof. unfold own_map. by rewrite map_to_list_empty. Qed.

Lemma own_map_union mp mp' : mp ##ₘ mp' -> own_map (mp ∪ mp') = own_map mp ⊎ own_map mp'.
Proof.
  induction mp as [|va pa mp Hn IH] using map_ind; [intros _; by rewrite (left_id_L ∅ (∪)), own_map_empty, gmultiset_disj_union_left_id|].
  intros [Hn' Hd]%map_disjoint_insert_l. rewrite <- insert_union_l, !own_map_insert, IH by (done || by apply lookup_union_None).
  symmetry; apply ms_assoc.
Qed.

Lemma own_map_part mp mp' p :
  mp' ⊆ mp -> (forall va, mp !! va = Some p -> mp' !! va = Some p) -> multiplicity p (own_map mp') = multiplicity p (own_map mp).
Proof.
  intros Hs Hp. assert (own_map mp = own_map mp' ⊎ own_map (mp ∖ mp')) as ->.
  { rewrite <- own_map_union by (by apply map_disjoint_difference_r1). by rewrite map_difference_union. }
  rewrite multiplicity_disj_union, (mult_0 p (own_map (mp ∖ mp'))); [lia|].
  intros (va & [H1 H2]%lookup_difference_Some)%own_map_elem. by rewrite (Hp va H1) in H2.
Qed.

(** The pages from [lo] to [hi] are [A]'s own and zero. *)
Definition alloced (s : kst) (A : aspace) (F : gmultiset Z) (lo hi : Z) (s' : kst) (l' : list Z) (A' : aspace) : Prop :=
  space s' l' A' F /\ t_root (a_T A') = t_root (a_T A) /\
  keeps (kmem_mem s) (own A ⊎ F) (kmem_mem s') (own A' ⊎ F) F /\ same_refs A F A' /\
  (forall vb, map_range lo hi vb = false -> a_map A' !! vb = a_map A !! vb) /\
  (forall vb, vb mod PGSIZE = 0 -> map_range lo hi vb = true -> exists pa, a_map A' !! vb = Some pa /\ pa ∉ own A ⊎ F /\
     has (pte_at (kmem_mem s') (a_T A') vb) PTE_COW = false) /\
  (forall vb, 0 <= vb < MAXVA -> vb mod PGSIZE = 0 -> map_range lo hi vb = false ->
     pte_eqv (pte_at (kmem_mem s') (a_T A') vb) (pte_at (kmem_mem s) (a_T A) vb)) /\
  (forall x, uview (kmem_mem s') (a_T A') x =
     if map_range lo hi (PGROUNDDOWN x) then Some 0 else uview (kmem_mem s) (a_T A) x).

(** Nothing but page tables changed. *)
Definition unchanged (s : kst) (A : aspace) (F : gmultiset Z) (s' : kst) (l' : list Z) (A' : aspace) : Prop :=
  space s' l' A' F /\ t_root (a_T A') = t_root (a_T A) /\
  keeps (kmem_mem s) (own A ⊎ F) (kmem_mem s') (own A' ⊎ F) F /\ same_refs A F A' /\ a_map A' = a_map A /\
  (forall vb, 0 <= vb < MAXVA -> vb mod PGSIZE = 0 ->
     pte_eqv (pte_at (kmem_mem s') (a_T A') vb) (pte_at (kmem_mem s) (a_T A) vb)) /\
  (forall x, uview (kmem_mem s') (a_T A') x = uview (kmem_mem s) (a_T A) x).

Lemma alloced_refl s l A F lo : space s l A F -> alloced s A F lo lo s l A.
Proof.
  intros H. split; [done|]. split; [done|]. split; [done|]. split; [by intros p|].
  split_and!; intros *; rewrite map_range_empty; try done.
Qed.

(** Undoing an allocation. *)
Lemma alloced_unmapped s A F lo hi s1 l1 A1 s2 l2 A2 :
  alloced s A F lo hi s1 l1 A1 -> unmapped s1 A1 F lo hi s2 l2 A2 ->
  (forall vb, map_range lo hi vb = true -> a_map A !! vb = None) ->
  (forall vb, vb mod PGSIZE = 0 -> map_range lo hi vb = true -> has (pte_at (kmem_mem s) (a_T A) vb) PTE_V = false) ->
  unchanged s A F s2 l2 A2.
Proof.
  intros (S1 & R1 & K1 & U1 & M1 & I1 & P1 & V1) (S2 & T2 & K2 & M2 & P2 & V2) Hno Hz.
  split; [done|]. split; [congruence|]. split; [by eapply keeps_trans|]. split_and!.
  - intros p Hp. rewrite <- U1 by done. unfold own. rewrite T2, !multiplicity_disj_union. do 2 f_equal. apply own_map_part.
    + apply map_subseteq_spec. intros vb q. rewrite M2. by case_if.
    + intros vb Hvb. rewrite M2. destruct (map_range lo hi vb) eqn:E; [|done].
      destruct (I1 vb) as (pa & Hpa & Hnew & _); [by apply (ai_va _ _ _ (proj2 S1)) in Hvb as [_ ?]|done|]. congruence.
  - apply map_eq. intros vb. rewrite M2. destruct (map_range lo hi vb) eqn:E; [by rewrite Hno|by apply M1].
  - intros vb Hvb Hal. rewrite T2, P2 by done. destruct (map_range lo hi vb) eqn:E.
    + right. by rewrite Hz.
    + by apply P1.
  - intros x. rewrite T2, V2, V1. destruct (map_range lo hi (PGROUNDDOWN x)) eqn:E; [|done].
    unfold uview, upage. case_if; [|done]. rewrite Hz; [done|apply PGROUNDDOWN_aligned|done].
Qed.

Section uvmalloc.
Context (s : kst) (l : list Z) (A : aspace) (F : gmultiset Z) (Hsp : space s l A F).
Context (lo : Z) (Hlo : lo mod PGSIZE = 0) (Hlo0 : 0 <= lo) (xperm : Z) (Hx : 0 <= xperm < 1024).
Context (Hxc : has xperm PTE_COW = false).
Let perm := Z.lor (Z.lor PTE_R PTE_U) xperm.

Lemma ua_perm : 0 <= perm < 1024 /\ has perm PTE_U = true /\ has perm PTE_COW = false /\ Z.lor perm PTE_V <> PTE_V.
Proof.
  unfold perm. split; [by apply flags_lor|]. rewrite has_U, has_COW, !Z.lor_spec, <- (has_COW xperm), Hxc.
  split; [done|]. split; [done|]. intros E%(f_equal (fun z => Z.testbit z 1)). by rewrite !Z.lor_spec in E.
Qed.

(** One iteration: page [pa], zeroed, is mapped at [a]. *)
Lemma alloced_next a s1 l1 A1 pa s2 l2 s3 l3 T3 :
  alloced s A F lo a s1 l1 A1 -> lo <= a -> a mod PGSIZE = 0 -> a < MAXVA ->
  space s2 l2 A1 ({[+ pa +]} ⊎ F) -> page_ok pa -> pa ∉ own A1 ⊎ F ->
  changed_page pa s1 s2 -> (forall x, in_page pa x -> rd8 (kmem_mem s2) x = 0) ->
  space s3 l3 (mkA T3 (<[a := pa]> (a_map A1))) F -> t_root T3 = t_root (a_T A1) ->
  stepped s2 (own A1 ⊎ ({[+ pa +]} ⊎ F)) (a_T A1) s3 (own (mkA T3 (<[a := pa]> (a_map A1))) ⊎ F) ->
  upd_ptes (kmem_mem s2) (a_T A1) (kmem_mem s3) T3 (fun vb => vb =? a) (fun _ => new_pte pa perm) ->
  alloced s A F lo (a + PGSIZE) s3 l3 (mkA T3 (<[a := pa]> (a_map A1))).
Proof.
  intros (S1 & R1 & K1 & U1 & M1 & I1 & P1 & V1) Hle Ha Ham S2 Hpa Hnew Hch Hzero S3 R3 St Hu.
  destruct ua_perm as (Q1 & Q2 & Q3 & Q4).
  assert (forall p x, p ∈ own A1 ⊎ F -> in_page p x -> rd8 (kmem_mem s2) x = rd8 (kmem_mem s1) x) as Hm12.
  { intros p x Hp Hxp. apply Hch. apply (page_disjoint p pa); [by apply (vi_ok _ _ _ (proj1 S1))|apply Hpa|congruence|done]. }
  assert (forall vb, pte_at (kmem_mem s2) (a_T A1) vb = pte_at (kmem_mem s1) (a_T A1) vb) as Hp12.
  { intros vb. apply pte_at_frame. intros p x Hp. apply Hm12, ms_in_l. by apply own_pt. }
  split; [done|]. split; [by rewrite <- R1|]. split_and!.
  - eapply keeps_trans; [exact K1|]. intros p Hp. pose proof (ms_in_r p (own A1) F Hp) as HpO.
    destruct (stepped_keeps s2 A1 ({[+ pa +]} ⊎ F) s3 _ (proj2 S2) St p) as [Hm Hmu]; [by apply ms_in_r|].
    split; [intros x Hxp; rewrite Hm by done; by apply (Hm12 p)|].
    intros H1. apply Hmu. rewrite ms_swap, mult_add_ne; [done|]. congruence.
  - eapply same_refs_trans; [exact U1|]. eapply same_refs_page; [exact Hnew|apply St|done].
  - intros vb Hr. cbn. assert (vb <> a).
    { intros ->. apply not_true_iff_false in Hr. apply Hr. apply map_range_lt. unfold PGSIZE. lia. }
    rewrite lookup_insert_ne by done. apply M1. apply not_true_iff_false. intros Hr'. apply not_true_iff_false in Hr.
    apply Hr. apply map_range_lt. apply map_range_lt in Hr'. unfold PGSIZE. lia.
  - intros vb Hal. rewrite map_range_next by done. cbn. destruct (Z.eqb_spec vb a) as [->|]; cbn.
    + intros _. exists pa. rewrite lookup_insert_eq. split; [done|]. split; [intros ?; by eapply Hnew, same_refs_in|].
      rewrite Hu, Z.eqb_refl by (done || lia). unfold new_pte.
      rewrite <- Z.lor_assoc, has_COW, PTE_flag_bit, Z.lor_spec, <- has_COW by lia. by rewrite Q3.
    + intros Hr. rewrite lookup_insert_ne by done. destruct (I1 vb Hal Hr) as (q & Hq & Hq1 & Hq2). exists q. split; [done|]. split; [done|].
      destruct (ai_va _ _ _ (proj2 S1) _ _ Hq) as [Hvb _]. rewrite Hu by done. destruct (Z.eqb_spec vb a); [done|]. by rewrite Hp12.
  - intros vb Hvb Hal. rewrite map_range_next by done. cbn. intros [Hne Hr]%orb_false_iff.
    rewrite Hu, Hne, Hp12 by done. by apply P1.
  - intros x. cbn. rewrite (uview_map1 s2 l2 A1 F pa s3 _ T3 a perm) by (try done; by apply page_ok_addr || lia).
    rewrite map_range_next by (try done; apply PGROUNDDOWN_aligned).
    destruct (Z.eqb_spec (PGROUNDDOWN x) a) as [E|E]; cbn.
    + rewrite Q2. f_equal. apply Hzero. pose proof (PGROUNDDOWN_bounds x). unfold in_page. lia.
    + rewrite <- V1. eapply uview_frame; [apply S1|]. intros p y Hp. apply Hm12. by apply ms_in_l.
Qed.

End uvmalloc.

(** ** A page more, a page less *)

Lemma space_new_page s l A F s' l' pa :
  space s l A F -> vm_inv s' l' ({[+ pa +]} ⊎ (own A ⊎ F)) -> pa ∉ own A ⊎ F -> page_ok pa ->
  changed_page pa s s' -> space s' l' A ({[+ pa +]} ⊎ F).
Proof.
  intros [Hv Ha] Hv' Hnew Hpa Hch. unfold space. rewrite ms_swap. split; [done|].
  eapply as_inv_frame; [done|..].
  - intros p x Hp Hx. pose proof (ms_in_l p (own A) F (own_pt _ _ Hp)) as HpO.
    apply Hch. apply (page_disjoint p pa); [by apply (vi_ok _ _ _ Hv)|apply Hpa|congruence|done].
  - intros p Hp. pose proof (ms_in_l p (own A) F Hp) as HpO. rewrite mult_add_ne by congruence. done.
Qed.

Lemma space_drop_page s l A F s' l' pa :
  space s l A ({[+ pa +]} ⊎ F) -> vm_inv s' l' (own A ⊎ F) -> pa ∉ own A ->
  changed_page pa s s' -> space s' l' A F.
Proof.
  intros [Hv Ha] Hv' Hnew Hch. split; [done|]. rewrite ms_swap in Ha. eapply as_inv_frame; [exact Ha|..].
  - intros p x Hp Hx. apply Hch. apply (page_disjoint p pa); [apply (pr_ok _ _ (ai_rep _ _ _ Ha) p Hp)| | |done].
    + apply (vi_ok _ _ _ Hv). apply ms_in_r, ms_in_singleton.
    + intros ->. apply Hnew. by apply own_pt.
  - intros p Hp. rewrite mult_add_ne by congruence. done.
Qed.

(** Allocating a page for [A] and giving it back. *)
Lemma alloc_failed s1 l1 A1 F pa s2 l2 s3 l3 T3 s4 l4 :
  space s1 l1 A1 F -> pa ∉ own A1 ⊎ F -> page_ok pa -> changed_page pa s1 s2 ->
  space s2 l2 A1 ({[+ pa +]} ⊎ F) ->
  space s3 l3 (mkA T3 (a_map A1)) ({[+ pa +]} ⊎ F) -> t_root T3 = t_root (a_T A1) ->
  stepped s2 (own A1 ⊎ ({[+ pa +]} ⊎ F)) (a_T A1) s3 (own (mkA T3 (a_map A1)) ⊎ ({[+ pa +]} ⊎ F)) ->
  upd_ptes (kmem_mem s2) (a_T A1) (kmem_mem s3) T3 (fun vb => false) (fun _ => 0) ->
  vm_inv s4 l4 (own (mkA T3 (a_map A1)) ⊎ F) -> changed_page pa s3 s4 ->
  unchanged s1 A1 F s4 l4 (mkA T3 (a_map A1)).
Proof.
  intros S1 Hnew Hpa Hch S2 S3 R3 St Hu Hv4 Hch4. set (A3 := mkA T3 (a_map A1)) in *.
  assert (forall p x, p ∈ own A1 ⊎ F -> in_page p x -> rd8 (kmem_mem s2) x = rd8 (kmem_mem s1) x) as Hm12.
  { intros p x Hp Hxp. apply Hch. apply (page_disjoint p pa); [by apply (vi_ok _ _ _ (proj1 S1))|apply Hpa|congruence|done]. }
  assert (pa ∉ own A3 ⊎ F) as Hnew3.
  { rewrite mult_pos. pose proof (st_mult _ _ _ _ _ St pa) as E. rewrite !(ms_swap _ {[+ pa +]}), !mult_add_eq in E.
    rewrite (mult_0 pa (own A1 ⊎ F)) in E by done. specialize (E (ms_in_singleton _ _)). lia. }
  assert (pa ∉ own A3) as Hnew3' by (intros ?; by apply Hnew3, ms_in_l).
  assert (forall p x, p ∈ own A3 ⊎ F -> in_page p x -> rd8 (kmem_mem s4) x = rd8 (kmem_mem s3) x) as Hm34.
  { intros p x Hp Hxp. apply Hch4. apply (page_disjoint p pa); [by apply (vi_ok _ _ _ Hv4)|apply Hpa|congruence|done]. }
  assert (space s4 l4 A3 F) as S4 by (by eapply space_drop_page).
  split; [done|]. split; [done|]. split_and!.
  - intros p Hp. pose proof (ms_in_r p (own A1) F Hp) as HpO. pose proof (ms_in_r p (own A3) F Hp) as HpO3.
    assert (p <> pa) as Hne by congruence.
    destruct (stepped_keeps s2 A1 ({[+ pa +]} ⊎ F) s3 _ (proj2 S2) St p) as [Hm Hmu]; [by apply ms_in_r|].
    rewrite !(ms_swap _ {[+ pa +]}), !mult_add_ne in Hmu by done. split; [|done].
    intros x Hxp. by rewrite (Hm34 p), Hm, (Hm12 p).
  - eapply same_refs_page; [exact Hnew|apply St|]. intros p Hne. by rewrite (ms_swap (own A3)), mult_add_ne.
  - done.
  - intros vb Hvb Hal. left. unfold A3. cbn.
    transitivity (pte_at (kmem_mem s3) T3 vb).
    + apply pte_at_frame. intros p x Hp. apply Hm34, ms_in_l. by apply own_pt.
    + rewrite Hu by done. apply pte_at_frame. intros p x Hp. apply Hm12, ms_in_l. by apply own_pt.
  - intros x. transitivity (uview (kmem_mem s3) T3 x).
    + eapply (uview_frame _ A3); [apply S3|]. intros p y Hp. apply Hm34. by apply ms_in_l.
    + rewrite (uview_same s2 l2 A1 ({[+ pa +]} ⊎ F) s3 _ T3) by done.
      eapply uview_frame; [apply S1|]. intros p y Hp. apply Hm12. by apply ms_in_l.
Qed.

Lemma alloced_unchanged s A F lo hi s1 l1 A1 s2 l2 A2 :
  alloced s A F lo hi s1 l1 A1 -> unchanged s1 A1 F s2 l2 A2 -> alloced s A F lo hi s2 l2 A2.
Proof.
  intros (S1 & R1 & K1 & U1 & M1 & I1 & P1 & V1) (S2 & R2 & K2 & U2 & M2 & P2 & V2).
  split; [done|]. split; [congruence|]. split; [by eapply keeps_trans|]. split; [by eapply same_refs_trans|].
  rewrite M2. split_and!; try done.
  - intros vb Hal Hr. destruct (I1 vb Hal Hr) as (q & Hq & Hq1 & Hq2). exists q. split; [done|]. split; [done|].
    destruct (ai_va _ _ _ (proj2 S1) _ _ Hq) as [Hvb _]. destruct (P2 vb Hvb Hal) as [->|[_ Hn]]; [done|].
    apply (ai_map _ _ _ (proj2 S1)) in Hq as [Hv _]. congruence.
  - intros vb Hvb Hal Hr. rewrite P2 by done. by apply P1.
  - intros x. by rewrite V2.
Qed.

(** The clean-up of [uvmalloc]: the pages mapped so far are given back. *)
Lemma wp_alloc_undo s A F lo a s1 l1 A1 (Q : Z -> kst -> Prop) :
  alloced s A F lo a s1 l1 A1 -> 0 <= lo <= a -> a < MAXVA -> lo mod PGSIZE = 0 -> a mod PGSIZE = 0 ->
  (forall vb, map_range lo a vb = true -> a_map A !! vb = None) ->
  (forall vb, vb mod PGSIZE = 0 -> map_range lo a vb = true -> has (pte_at (kmem_mem s) (a_T A) vb) PTE_V = false) ->
  (forall s' l' A', unchanged s A F s' l' A' -> Q 0 s') ->
  wp (uvmdealloc (t_root (a_T A1)) a lo;; mret 0) Q s1.
Proof.
  intros Hal Hlo Ha Hl0 Ha0 Hno Hz HQ. apply wp_bind.
  assert (PGROUNDUP a = a) as Ea.
  { apply PGROUNDUP_id; [lia| |done]. change MAXVA with (2 ^ 38) in *. unfold PGSIZE. lia. }
  assert (PGROUNDUP lo = lo) as El.
  { apply PGROUNDUP_id; [lia| |done]. change MAXVA with (2 ^ 38) in *. unfold PGSIZE. lia. }
  eapply wp_uvmdealloc; [apply Hal|lia|lia|..]; rewrite ?Ea, ?El.
  - intros vb Hvb Hr. destruct Hal as (_ & _ & _ & _ & _ & I1 & _).
    destruct (I1 vb) as (q & -> & _); [done|by apply map_range_lt|done].
  - intros Hle. assert (a = lo) as -> by lia. wp_steps. eapply HQ. eapply alloced_unmapped; [done| |done|done].
    eapply unmapped_refl, Hal.
  - intros Hlt s2 l2 A2 Hun. wp_steps. eapply HQ. by eapply alloced_unmapped.
Qed.

Lemma pages_next lo a hi :
  lo mod PGSIZE = 0 -> a mod PGSIZE = 0 -> hi mod PGSIZE = 0 -> lo <= a < hi ->
  (a + PGSIZE - lo) / PGSIZE = (a - lo) / PGSIZE + 1 /\ (a - lo) / PGSIZE + 1 <= (hi - lo) / PGSIZE.
Proof.
  intros Hl Ha Hh Hr. replace (a + PGSIZE - lo) with (a - lo + 1 * PGSIZE) by lia. rewrite Z.div_add by done. split; [done|].
  apply Z.div_le_lower_bound; [done|]. unfold PGSIZE in *. Z.div_mod_to_equations. lia.
Qed.

(** It fails only when there are at most three free pages for each page asked
    for: the page itself and two for page tables. *)
Lemma wp_uvmalloc s l A F oldsz newsz xperm (Q : Z -> kst -> Prop) :
  space s l A F -> 0 <= oldsz -> newsz <= MAXVA -> 0 <= xperm < 1024 -> has xperm PTE_COW = false ->
  (forall vb, vb mod PGSIZE = 0 -> PGROUNDUP oldsz <= vb < newsz -> has (pte_at (kmem_mem s) (a_T A) vb) PTE_V = false) ->
  (newsz < oldsz -> Q oldsz s) ->
  (oldsz <= newsz -> forall s' l' A', alloced s A F (PGROUNDUP oldsz) (Z.max (PGROUNDUP oldsz) (PGROUNDUP newsz)) s' l' A' ->
     Q newsz s') ->
  (oldsz <= newsz -> forall s' l' A', unchanged s A F s' l' A' ->
     Z.of_nat (length l) <= 3 * ((PGROUNDUP newsz - PGROUNDUP oldsz) / PGSIZE) -> Q 0 s') ->
  wp (uvmalloc (t_root (a_T A)) oldsz newsz xperm) Q s.
Proof.
  intros Hsp Ho Hn Hx Hxc Hfree H0 H1 H2. unfold uvmalloc.
  destruct (Z.ltb_spec newsz oldsz); [apply wp_ret; auto|].
  pose proof (PGROUNDUP_range oldsz ltac:(lia)) as Hor. pose proof (PGROUNDUP_aligned oldsz) as Hoa.
  pose proof (PGROUNDUP_range newsz ltac:(lia)) as Hnr. pose proof (PGROUNDUP_aligned newsz) as Hna.
  assert (MAXVA = 2 ^ 38) as EM by done. assert (PGSIZE = 4096) as EP by done.
  pose proof (PGROUNDUP_bounds newsz ltac:(lia) ltac:(lia)) as Hnb.
  set (lo := PGROUNDUP oldsz) in *.
  assert (forall a, lo <= a <= newsz \/ a = lo -> forall vb, map_range lo a vb = true -> a_map A !! vb = None) as Hno.
  { intros a Ha vb Hr%map_range_lt. destruct (a_map A !! vb) eqn:E; [|done].
    destruct (ai_va _ _ _ (proj2 Hsp) _ _ E) as [_ Hal]. apply (ai_map _ _ _ (proj2 Hsp)) in E as [E _].
    rewrite Hfree in E by (done || lia). done. }
  apply (wp_while (fun a s1 => a mod PGSIZE = 0 /\ lo <= a /\ (a < newsz + PGSIZE \/ a = lo) /\
      exists l1 A1, alloced s A F lo a s1 l1 A1 /\ Z.of_nat (length l) <= Z.of_nat (length l1) + 3 * ((a - lo) / PGSIZE)) (fun a => Z.to_nat (newsz + PGSIZE - a))).
  - intros a s1 (Haa & Har & Har2 & l1 & A1 & Hal & Hcnt).
    destruct (Z.ltb_spec a newsz) as [Hlt|Hge]; cbn [negb].
    2: { wp_steps. eapply H1; [done|].
         replace (Z.max lo (PGROUNDUP newsz)) with a; [done|].
         revert Haa Hna. rewrite EP in *. intros. Z.div_mod_to_equations. lia. }
    destruct (pages_next lo a (PGROUNDUP newsz) Hoa Haa Hna ltac:(lia)) as [Hcs Hcn].
    destruct Hal as (S1 & R1 & Hrest) eqn:EHal. clear EHal. rewrite <- R1. wp_steps.
    assert (forall s' l' A', alloced s A F lo a s' l' A' -> Z.of_nat (length l) <= 3 * ((PGROUNDUP newsz - lo) / PGSIZE) ->
      wp (uvmdealloc (t_root (a_T A')) a lo;; mret (inr 0)) (fun r s'' =>
        match r with inl a' => (a' mod PGSIZE = 0 /\ lo <= a' /\ (a' < newsz + PGSIZE \/ a' = lo) /\
            (exists l1 A1, alloced s A F lo a' s'' l1 A1 /\ Z.of_nat (length l) <= Z.of_nat (length l1) + 3 * ((a' - lo) / PGSIZE))) /\ (Z.to_nat (newsz + PGSIZE - a') < Z.to_nat (newsz + PGSIZE - a))%nat
        | inr r' => Q r' s'' end) s') as Hundo.
    { intros s' l' A' Hal' Hfew. pose proof (wp_alloc_undo s A F lo a s' l' A' Q Hal' ltac:(lia) ltac:(lia) Hoa Haa) as Hw.
      rewrite wp_bind in Hw. apply wp_bind. eapply wp_mono; [apply Hw|done].
      - apply Hno. lia.
      - intros vb Hvb Hr%map_range_lt. apply Hfree; [done|lia].
      - intros s'' l'' A'' Hun. by eapply H2. }
    eapply wp_kalloc_own; [apply S1|intros ->; eapply Hundo; [done|cbn in Hcnt; lia]|].
    intros pa l2 s2 -> Hv2 Hnew Hpa Hch2. cbn [length] in Hcnt. pose proof (page_ok_pos _ Hpa). destruct (Z.eqb_spec pa 0); [lia|].
    wp_steps. split; [done|]. wp_steps.
    set (s3 := s2 <| kmem_mem ::= fun m => memset m pa 0 PGSIZE |>).
    assert (changed_page pa s1 s3) as Hch3.
    { intros x Hxp. unfold s3. cbn. rewrite rd8_memset_out by done. by apply Hch2. }
    assert (vm_inv s3 l2 ({[+ pa +]} ⊎ (own A1 ⊎ F))) as Hv3.
    { apply vm_inv_mem; [done|]. intros x Hxp. apply rd8_memset_out; [done|]. apply (Hxp pa), ms_in_singleton. }
    assert (space s3 l2 A1 ({[+ pa +]} ⊎ F)) as S3 by (by eapply space_new_page).
    destruct (ua_perm xperm Hx Hxc) as (Q1 & Q2 & Q3 & Q4). pose proof (page_ok_addr _ Hpa) as Hpaa.
    assert (pte_at (kmem_mem s3) (a_T A1) a = pte_at (kmem_mem s1) (a_T A1) a) as Ep3.
    { apply pte_at_frame. intros p x Hp Hxp. pose proof (ms_in_l p (own A1) F (own_pt _ _ Hp)) as HpO.
      apply Hch3. apply (page_disjoint p pa); [by apply (vi_ok _ _ _ (proj1 S1))|apply Hpa|congruence|done]. }
    eapply (wp_mappages1 s3 l2 A1 F a pa _ (Some pa)); [exact S3|lia|done| |done|lia|done| |..].
    + rewrite Ep3. destruct Hrest as (_ & _ & _ & _ & P1 & _). destruct (P1 a ltac:(lia) Haa) as [->|[-> _]]; try done.
      * apply map_range_empty'.
      * apply Hfree; [done|lia].
    + split; [done|]. split; [done|]. intros _. cbn [with_page]. rewrite ms_swap, mult_add_eq, mult_0; done.
    + intros s4 l4 T4 S4 R4 St4 Hu4 Hl4. cbn. wp_steps. rewrite u64_small by lia. split; [|lia].
      split; [by rewrite <- Zplus_mod_idemp_r, Z_mod_same_full, Z.add_0_r|]. split; [lia|]. split; [lia|].
      exists l4, (mkA T4 (<[a := pa]> (a_map A1))). split; [|rewrite Hcs; lia]. eapply (alloced_next s A F lo Hoa (proj1 Hor) xperm Hx Hxc a s1 _ A1 pa s3 l2 s4 l4 T4); try done; try lia.
      intros x Hxp. unfold s3. cbn. by rewrite rd8_memset_in.
    + intros s4 l4 T4 S4 R4 St4 Hu4 -> Hl4. cbn. wp_steps. eapply wp_kfree_own.
      { rewrite <- ms_swap. apply S4. }
      intros s5 l5 Hv5 Hch5 _. rewrite <- R4. eapply (Hundo s5 l5 (mkA T4 (a_map A1))).
      2: lia. eapply alloced_unchanged; [exact Hal|]. by eapply (alloc_failed s1 _ A1 F pa s3 l2 s4 [] T4).
  - split; [done|]. split; [lia|]. split; [by right|]. exists l, A. split; [by apply alloced_refl|]. rewrite Z.sub_diag, Z.div_0_l by done. lia.
  - change (Z.pos FUEL) with (2 ^ 64). lia.
Qed.

End uvm.
