(* ===== verification/Uvmcopy.v ===== *)
(** * Uvmcopy: sharing memory with a child, [uvmcopy] of [kernel/vm.c]

    Two address spaces side by side: [two s l A B F] says that [A] and [B]
    are both well-formed beside the references [F].  [uvmcopy] marks the
    pages of the parent copy-on-write and maps them in the child; neither
    the parent's view nor anybody else's changes, and the child sees what
    the parent sees. *)

From stdpp Require Import base list gmap gmultiset strings.
From Stdlib Require Import ZArith Lia.
From S2P Require Import Prelude CMem Riscv Spinlock Kalloc Vm PageTable AddrSpace Cow Uvm.
Import CString.

Section uvmcopy.
Context `{L : Layout} {LO : LayoutOk L}.

Definition two (s : kst) (l : list Z) (A B : aspace) (F : gmultiset Z) : Prop :=
  space s l A (own B ⊎ F) /\ as_inv (kmem_mem s) B (own A ⊎ (own B ⊎ F)).

Lemma two_sym s l A B F : two s l A B F -> two s l B A F.
Proof. intros [[Hv Ha] Hb]. unfold two, space. rewrite ms_swap. done. Qed.

Lemma two_left s l A B F : two s l A B F -> space s l A (own B ⊎ F).
Proof. by intros [? _]. Qed.
Lemma two_right s l A B F : two s l A B F -> space s l B (own A ⊎ F).
Proof. intros H%two_sym. by apply two_left in H. Qed.

Lemma ms_sub_l (X Y : gmultiset Z) : X ⊆ X ⊎ Y.
Proof. multiset_solver. Qed.
Lemma ms_sub_r (X Y : gmultiset Z) : Y ⊆ X ⊎ Y.
Proof. multiset_solver. Qed.

(** An operation on [A] alone. *)
Lemma two_step s l A B F s' l' A' :
  two s l A B F -> space s' l' A' (own B ⊎ F) ->
  keeps (kmem_mem s) (own A ⊎ (own B ⊎ F)) (kmem_mem s') (own A' ⊎ (own B ⊎ F)) (own B ⊎ F) ->
  two s' l' A' B F /\ keeps (kmem_mem s) (own A ⊎ (own B ⊎ F)) (kmem_mem s') (own A' ⊎ (own B ⊎ F)) F /\
  forall x, uview (kmem_mem s') (a_T B) x = uview (kmem_mem s) (a_T B) x.
Proof.
  intros [Hs Hb] Hs' Hk. split; [|split].
  - split; [done|]. eapply as_inv_keeps; [exact Hb|apply ms_sub_l|done].
  - eapply keeps_sub; [done|apply ms_sub_r].
  - intros x. eapply uview_keeps; [exact Hb|apply ms_sub_l|done].
Qed.

(** ** Marking a page of the parent *)

Section mark.
Context (s : kst) (l : list Z) (A : aspace) (F : gmultiset Z) (Hsp : space s l A F).
Context (va pa a v : Z) (Hva : 0 <= va < MAXVA) (Hal : va mod PGSIZE = 0).
Context (Hleaf : leaf (a_T A) va = Some a) (Hpa : a_map A !! va = Some pa).
Context (Hv : pte_at (kmem_mem s) (a_T A) va = v).
Context (w : Z) (s' : kst) (Hm' : kmem_mem s' = store64 (store64 (kmem_mem s) a w) a (cow_mark v)).

Lemma mark_range : 0 <= v < 2 ^ 64.
Proof. rewrite <- Hv. unfold pte_at. rewrite Hleaf. apply load64_range. Qed.

Lemma mark_rep1 : pt_rep (store64 (kmem_mem s) a w) (a_T A).
Proof. eapply pt_store; [apply (proj2 Hsp)|done]. Qed.

Lemma mark_pte vb : 0 <= vb < MAXVA ->
  pte_at (kmem_mem s') (a_T A) vb = if PGROUNDDOWN vb =? va then cow_mark v else pte_at (kmem_mem s) (a_T A) vb.
Proof.
  intros Hvb. rewrite Hm'. rewrite (pte_store _ (a_T A) va a);
    [|apply mark_rep1|done|done|done|apply cow_mark_spec, mark_range].
  rewrite (PGROUNDDOWN_id va) by done. destruct (Z.eqb_spec (PGROUNDDOWN vb) va); [done|].
  unfold pte_at. destruct (leaf (a_T A) vb) as [b|] eqn:Eb; [|done]. apply load64_store64_ne.
  eapply (leaf_apart _ (a_T A) va vb); try done; [apply (proj2 Hsp)|]. rewrite (PGROUNDDOWN_id va) by done. congruence.
Qed.

Lemma mark_out x : (forall p, pt_page (a_T A) p -> ~ in_page p x) -> rd8 (kmem_mem s') x = rd8 (kmem_mem s) x.
Proof.
  intros Hx. rewrite Hm'. rewrite (store_leaf_frame _ (a_T A) va a); [|apply mark_rep1|done|done].
  eapply store_leaf_frame; [apply (proj2 Hsp)|done|done].
Qed.

Lemma mark_other p x : p ∈ own A ⊎ F -> ~ pt_page (a_T A) p -> in_page p x -> rd8 (kmem_mem s') x = rd8 (kmem_mem s) x.
Proof.
  intros Hp Hnp Hx. apply mark_out. intros q Hq.
  apply (page_disjoint p q); [by apply (vi_ok _ _ _ (proj1 Hsp))|apply (pr_ok _ _ (ai_rep _ _ _ (proj2 Hsp)) q Hq)|congruence|done].
Qed.

Lemma mark_as_inv : as_inv (kmem_mem s') A (own A ⊎ F).
Proof.
  destruct (ai_map _ _ _ (proj2 Hsp) va pa Hpa) as (EV & EF & EP). rewrite Hv in *.
  destruct (cow_mark_spec v mark_range) as (_ & C2 & C3 & C4 & C5 & C6).
  assert (A = mkA (a_T A) (set_page (a_map A) va (Some pa))) as EA.
  { destruct A as [T mp]. cbn in *. by rewrite insert_id. }
  rewrite EA at 1. apply (as_inv_upd (kmem_mem s) A (own A ⊎ F) _ _ _ va (cow_mark v)); try done.
  - apply (proj2 Hsp).
  - rewrite Hm'. eapply pt_store; [apply mark_rep1|done].
  - apply (ai_pt _ _ _ (proj2 Hsp)).
  - intros vb Hvb Hvb'. rewrite mark_pte, PGROUNDDOWN_id by done. done.
  - split_and!; [by rewrite C3| |by rewrite C2|by rewrite C5].
    intros E%(f_equal (fun z => Z.testbit z 8)). rewrite PTE_FLAGS_bit, cow_mark_bit in E by lia. done.
Qed.

Lemma mark_keeps O : keeps (kmem_mem s) O (kmem_mem s') O F.
Proof.
  intros p Hp. split; [|done]. intros x. apply mark_other; [by apply ms_in_r|].
  intros Hpt. eapply excl_not_frame; [by apply own_pt|by apply (ai_pt _ _ _ (proj2 Hsp))|done].
Qed.

Lemma mark_view x : uview (kmem_mem s') (a_T A) x = uview (kmem_mem s) (a_T A) x.
Proof.
  destruct (decide (0 <= x < MAXVA)) as [Hx|Hx]; [|by rewrite !uview_out].
  assert (upage (kmem_mem s') (a_T A) (PGROUNDDOWN x) = upage (kmem_mem s) (a_T A) (PGROUNDDOWN x)) as Eu.
  { unfold upage. rewrite mark_pte by (by apply PGROUNDDOWN_range).
    rewrite (PGROUNDDOWN_id (PGROUNDDOWN x)) by apply PGROUNDDOWN_aligned.
    destruct (Z.eqb_spec (PGROUNDDOWN x) va) as [->|]; [|done].
    destruct (cow_mark_spec v mark_range) as (_ & -> & -> & -> & _). by rewrite Hv. }
  unfold uview. case_if; [|done]. rewrite Eu. destruct (upage (kmem_mem s) (a_T A) (PGROUNDDOWN x)) as [pb|] eqn:E2; [|done].
  cbn. f_equal. destruct (user_page s l A F (PGROUNDDOWN x) pb) as [Hm _]; try done.
  { by apply PGROUNDDOWN_range. } { apply PGROUNDDOWN_aligned. }
  apply (mark_other pb); [apply ms_in_l; by eapply own_user| |pose proof (PGROUNDDOWN_bounds x); unfold in_page; lia].
  intros Hpt. eapply pt_not_user; [apply (proj2 Hsp)|done|done].
Qed.

End mark.

(** ** One more reference to a marked page *)

Lemma as_inv_share m A G pa va :
  as_inv m A (own A ⊎ G) -> a_map A !! va = Some pa -> has (pte_at m (a_T A) va) PTE_COW = true ->
  as_inv m A ({[+ pa +]} ⊎ (own A ⊎ G)).
Proof.
  intros Ha Hpa Hc. split; try apply Ha.
  - intros p Hp. rewrite mult_add_ne; [by apply (ai_pt _ _ _ Ha)|]. intros ->. by eapply pt_not_user.
  - intros vb p Hp Hnc. assert (vb <> va) as Hne by congruence.
    pose proof (ai_excl _ _ _ Ha _ _ Hp Hnc) as H1. rewrite mult_add_ne; [done|]. intros ->.
    rewrite (break_O A G va pa Hpa), mult_add_eq in H1.
    pose proof (break_user A G va _ _ Hne Hp) as Hin. rewrite mult_pos in Hin. lia.
Qed.

Lemma as_inv_other m B G pa :
  as_inv m B (own B ⊎ G) -> pa ∈ G -> as_inv m B ({[+ pa +]} ⊎ (own B ⊎ G)).
Proof.
  intros Hb Hin. eapply as_inv_frame; [done|done|]. intros p Hp H1. rewrite mult_add_ne; [done|].
  intros ->. by eapply excl_not_frame.
Qed.

(** The state after [i] bytes' worth of pages. *)
Record copied (s : kst) (A B : aspace) (F : gmultiset Z) (i : Z) (s' : kst) (l' : list Z) (B' : aspace) : Prop := {
  cp_two : two s' l' A B' F;
  cp_root : t_root (a_T B') = t_root (a_T B);
  cp_keeps : keeps (kmem_mem s) (own A ⊎ (own B ⊎ F)) (kmem_mem s') (own A ⊎ (own B' ⊎ F)) F;
  cp_map : forall vb, a_map B' !! vb = if map_range 0 i vb then a_map A !! vb else a_map B !! vb;
  cp_pteA : forall vb, 0 <= vb < MAXVA -> vb mod PGSIZE = 0 -> map_range 0 i vb = false ->
    pte_at (kmem_mem s') (a_T A) vb = pte_at (kmem_mem s) (a_T A) vb;
  cp_pteB : forall vb, 0 <= vb < MAXVA -> vb mod PGSIZE = 0 -> map_range 0 i vb = false ->
    pte_at (kmem_mem s') (a_T B') vb = pte_at (kmem_mem s) (a_T B) vb;
  cp_cow : forall vb, 0 <= vb < MAXVA -> vb mod PGSIZE = 0 -> map_range 0 i vb = true ->
    has (pte_at (kmem_mem s') (a_T A) vb) PTE_W = false /\ has (pte_at (kmem_mem s') (a_T B') vb) PTE_W = false;
  cp_viewA : forall x, uview (kmem_mem s') (a_T A) x = uview (kmem_mem s) (a_T A) x;
  cp_viewB : forall x, uview (kmem_mem s') (a_T B') x =
    if map_range 0 i (PGROUNDDOWN x) then uview (kmem_mem s) (a_T A) x else uview (kmem_mem s) (a_T B) x;
  cp_ref : forall p, p ∈ own A -> num_ref s' (p / PGSIZE) <= num_ref s (p / PGSIZE) + i / PGSIZE;
}.

Lemma copied_refl s l A B F : two s l A B F -> copied s A B F 0 s l B.
Proof.
  intros H. split; try done; intros *; rewrite ?map_range_empty; try done. intros _. change (0 / PGSIZE) with 0. lia.
Qed.

(** One iteration that succeeds. *)
Section next.
Context (s : kst) (A B : aspace) (F : gmultiset Z) (i : Z) (s1 : kst) (l1 : list Z) (B1 : aspace).
Context (Hc : copied s A B F i s1 l1 B1) (Hi : 0 <= i < MAXVA) (Hal : i mod PGSIZE = 0).
Context (pa a v : Z) (Hleaf : leaf (a_T A) i = Some a) (Hpa : a_map A !! i = Some pa).
Context (Hv : pte_at (kmem_mem s1) (a_T A) i = v).
Context (w : Z) (s2 : kst) (Hm2 : kmem_mem s2 = store64 (store64 (kmem_mem s1) a w) a (cow_mark v)).
Context (Hn2 : num_ref_to_page s2 = num_ref_to_page s1) (Hv2 : vm_inv s2 l1 (own A ⊎ (own B1 ⊎ F))).

Lemma next_two2 : two s2 l1 A B1 F /\
  keeps (kmem_mem s1) (own A ⊎ (own B1 ⊎ F)) (kmem_mem s2) (own A ⊎ (own B1 ⊎ F)) F /\
  forall x, uview (kmem_mem s2) (a_T B1) x = uview (kmem_mem s1) (a_T B1) x.
Proof.
  pose proof (two_left _ _ _ _ _ (cp_two _ _ _ _ _ _ _ _ Hc)) as Hs.
  eapply two_step; [apply Hc|..].
  - split; [done|]. by eapply mark_as_inv.
  - by eapply mark_keeps.
Qed.

Context (s3 : kst) (Hm3 : kmem_mem s3 = kmem_mem s2).
Context (Hv3 : vm_inv s3 l1 ({[+ pa +]} ⊎ (own A ⊎ (own B1 ⊎ F)))).

Lemma next_B3 : space s3 l1 B1 ({[+ pa +]} ⊎ (own A ⊎ F)).
Proof.
  destruct next_two2 as [H2 _]. apply two_right in H2 as [_ Hb].
  unfold space. rewrite !(ms_swap (own B1)). split; [done|]. rewrite Hm3, (ms_swap (own A)).
  apply as_inv_other; [done|]. apply ms_in_l. by eapply own_user.
Qed.

Lemma next_A3 : as_inv (kmem_mem s3) A (own B1 ⊎ ({[+ pa +]} ⊎ (own A ⊎ F))).
Proof.
  destruct next_two2 as [H2 _]. apply two_left in H2 as [_ Ha].
  rewrite Hm3, !(ms_swap (own B1)). eapply as_inv_share; [done|done|].
  pose proof (two_left _ _ _ _ _ (cp_two _ _ _ _ _ _ _ _ Hc)) as Hs.
  rewrite (mark_pte s1 l1 A _ Hs i a v Hi Hal Hleaf Hv w s2 Hm2), PGROUNDDOWN_id, Z.eqb_refl by done.
  apply cow_mark_spec. rewrite <- Hv. unfold pte_at. rewrite Hleaf. apply load64_range.
Qed.

Lemma next_frame3 : keeps (kmem_mem s2) (own A ⊎ (own B1 ⊎ F)) (kmem_mem s3) (own B1 ⊎ ({[+ pa +]} ⊎ (own A ⊎ F))) F.
Proof.
  intros p Hp. rewrite Hm3. split; [done|]. rewrite !(ms_swap (own B1)). intros H1.
  rewrite mult_add_ne; [done|]. intros ->. rewrite <- ms_assoc in H1.
  eapply excl_not_frame; [|exact H1|done]. apply ms_in_l. by eapply own_user.
Qed.

(** The child's page tables could not grow; the new reference to [pa] is
    not given back. *)
Lemma next_fail s4 l4 T4 :
  let B4 := mkA T4 (a_map B1) in
  space s4 l4 B4 ({[+ pa +]} ⊎ (own A ⊎ F)) ->
  stepped s3 (own B1 ⊎ ({[+ pa +]} ⊎ (own A ⊎ F))) (a_T B1) s4 (own B4 ⊎ ({[+ pa +]} ⊎ (own A ⊎ F))) ->
  upd_ptes (kmem_mem s3) (a_T B1) (kmem_mem s4) T4 (fun vb => false) (fun _ => 0) ->
  two s4 l4 A B4 ({[+ pa +]} ⊎ F) /\
  keeps (kmem_mem s) (own A ⊎ (own B ⊎ F)) (kmem_mem s4) (own A ⊎ (own B4 ⊎ ({[+ pa +]} ⊎ F))) F /\
  (forall x, uview (kmem_mem s4) (a_T A) x = uview (kmem_mem s) (a_T A) x) /\
  (forall x, uview (kmem_mem s4) T4 x = uview (kmem_mem s1) (a_T B1) x).
Proof.
  intros B4 S4 St4 Hu4. pose proof (stepped_keeps _ _ _ _ _ (proj2 next_B3) St4) as K4.
  pose proof (two_left _ _ _ _ _ (cp_two _ _ _ _ _ _ _ _ Hc)) as Hs1.
  destruct next_two2 as (H2 & K2 & V2).
  assert (own A ⊆ {[+ pa +]} ⊎ (own A ⊎ F)) as Hsub by (etransitivity; [apply ms_sub_l|apply ms_sub_r]).
  assert (F ⊆ {[+ pa +]} ⊎ (own A ⊎ F)) as HsubF by (etransitivity; [apply ms_sub_r|apply ms_sub_r]).
  assert (own A ⊎ (own B4 ⊎ ({[+ pa +]} ⊎ F)) = own B4 ⊎ ({[+ pa +]} ⊎ (own A ⊎ F))) as EO
    by (rewrite (ms_swap (own A)); f_equal; apply ms_swap).
  split_and!.
  - apply two_sym. unfold two. rewrite (ms_swap (own A)). split; [done|].
    eapply as_inv_keeps; [exact next_A3|exact Hsub|exact K4].
  - rewrite EO. eapply keeps_trans; [apply Hc|]. eapply keeps_trans; [exact K2|].
    eapply (keeps_trans _ _ (kmem_mem s3) (own B1 ⊎ ({[+ pa +]} ⊎ (own A ⊎ F)))); [apply next_frame3|].
    by eapply keeps_sub.
  - intros x. rewrite <- (cp_viewA _ _ _ _ _ _ _ _ Hc).
    rewrite <- (mark_view s1 l1 A _ Hs1 i a v Hi Hal Hleaf Hv w s2 Hm2), <- Hm3.
    eapply uview_keeps; [exact next_A3|exact Hsub|exact K4].
  - intros x. rewrite <- V2, <- Hm3. eapply uview_same; [apply next_B3|exact St4|done].
Qed.

Context (Hr3 : ref_upd s2 s3 pa (num_ref s2 (pa / PGSIZE) + 1)).
Let perm := PTE_FLAGS (cow_mark v).
Context (s4 : kst) (l4 : list Z) (T4 : ptree).
Let B4 := mkA T4 (<[i := pa]> (a_map B1)).
Context (S4 : space s4 l4 B4 (own A ⊎ F)) (R4 : t_root T4 = t_root (a_T B1)).
Context (St4 : stepped s3 (own B1 ⊎ ({[+ pa +]} ⊎ (own A ⊎ F))) (a_T B1) s4 (own B4 ⊎ (own A ⊎ F))).
Context (Hu4 : upd_ptes (kmem_mem s3) (a_T B1) (kmem_mem s4) T4 (fun vb => vb =? i) (fun _ => new_pte pa perm)).

Lemma next_keeps4 : keeps (kmem_mem s3) (own B1 ⊎ ({[+ pa +]} ⊎ (own A ⊎ F))) (kmem_mem s4) (own B4 ⊎ (own A ⊎ F))
  ({[+ pa +]} ⊎ (own A ⊎ F)).
Proof. apply stepped_keeps; [apply next_B3|done]. Qed.

Lemma next_sub (X : gmultiset Z) : X ⊆ own A ⊎ F -> X ⊆ {[+ pa +]} ⊎ (own A ⊎ F).
Proof. intros H. etransitivity; [done|apply ms_sub_r]. Qed.

Lemma next_two4 : two s4 l4 A B4 F.
Proof.
  apply two_sym. split; [done|]. eapply as_inv_keeps; [apply next_A3| |].
  - apply next_sub, ms_sub_l.
  - apply next_keeps4.
Qed.

Lemma next_keeps : keeps (kmem_mem s) (own A ⊎ (own B ⊎ F)) (kmem_mem s4) (own A ⊎ (own B4 ⊎ F)) F.
Proof.
  eapply keeps_trans; [apply Hc|]. eapply keeps_trans; [apply next_two2|].
  eapply (keeps_trans _ _ (kmem_mem s3) (own B1 ⊎ ({[+ pa +]} ⊎ (own A ⊎ F)))).
  - apply next_frame3.
  - rewrite (ms_swap (own A)). eapply keeps_sub; [apply next_keeps4|apply next_sub, ms_sub_r].
Qed.

Lemma next_s1 : space s1 l1 A (own B1 ⊎ F).
Proof. apply two_left, Hc. Qed.

Lemma next_pteA vb : 0 <= vb < MAXVA -> vb mod PGSIZE = 0 ->
  pte_at (kmem_mem s4) (a_T A) vb = if vb =? i then cow_mark v else pte_at (kmem_mem s1) (a_T A) vb.
Proof.
  intros Hvb Hvb'. transitivity (pte_at (kmem_mem s3) (a_T A) vb).
  - apply pte_at_frame. intros p x Hp. apply next_keeps4. apply ms_in_r, ms_in_l. by apply own_pt.
  - rewrite Hm3, (mark_pte s1 l1 A _ next_s1 i a v Hi Hal Hleaf Hv w s2 Hm2), (PGROUNDDOWN_id vb) by done. done.
Qed.

Lemma next_viewA x : uview (kmem_mem s4) (a_T A) x = uview (kmem_mem s) (a_T A) x.
Proof.
  rewrite <- (cp_viewA _ _ _ _ _ _ _ _ Hc). transitivity (uview (kmem_mem s3) (a_T A) x).
  - eapply uview_keeps; [apply next_A3|apply next_sub, ms_sub_l|apply next_keeps4].
  - rewrite Hm3. eapply mark_view; [apply next_s1|done..].
Qed.

Lemma next_v : has v PTE_V = true /\ PTE2PA v = pa /\ 0 <= v < 2 ^ 64.
Proof.
  destruct (ai_map _ _ _ (proj2 next_s1) i pa Hpa) as (E1 & _ & E2). rewrite Hv in *. do 2 (split; [done|]).
  rewrite <- Hv. unfold pte_at. rewrite Hleaf. apply load64_range.
Qed.

Lemma next_pa : page_ok pa.
Proof. apply (vi_ok _ _ _ Hv3), ms_in_singleton. Qed.

Lemma next_viewB x : uview (kmem_mem s4) T4 x =
  if map_range 0 (i + PGSIZE) (PGROUNDDOWN x) then uview (kmem_mem s) (a_T A) x else uview (kmem_mem s) (a_T B) x.
Proof.
  rewrite map_range_next by (try done; try lia; apply PGROUNDDOWN_aligned).
  rewrite (uview_map1 s3 l1 B1 (own A ⊎ F) pa s4 (own B4 ⊎ (own A ⊎ F)) T4 i perm);
    [|apply next_B3|exact St4|apply page_ok_addr, next_pa|apply PTE_FLAGS_range|done|done|done].
  destruct (Z.eqb_spec (PGROUNDDOWN x) i) as [E|E]; cbn [orb].
  - rewrite <- (cp_viewA _ _ _ _ _ _ _ _ Hc).
    rewrite <- (mark_view s1 l1 A _ next_s1 i a v Hi Hal Hleaf Hv w s2 Hm2), <- Hm3.
    destruct next_v as (E1 & E2 & E3). destruct (cow_mark_spec v E3) as (_ & C2 & C3 & C4 & _).
    unfold uview, upage. rewrite E, Hm3.
    rewrite (mark_pte s1 l1 A _ next_s1 i a v Hi Hal Hleaf Hv w s2 Hm2), PGROUNDDOWN_id, Z.eqb_refl by done.
    rewrite C3, E1, C2, E2. unfold perm. rewrite (has_U (PTE_FLAGS _)), PTE_FLAGS_bit, <- has_U, C4 by lia.
    assert (0 <= x < MAXVA) as Hx.
    { pose proof (PGROUNDDOWN_bounds x) as Hb. rewrite E in Hb. change MAXVA with (2 ^ 38) in *. unfold PGSIZE in *.
      Z.div_mod_to_equations. lia. }
    destruct (Z.leb_spec 0 x), (Z.ltb_spec x MAXVA); try lia. cbn. by destruct (has v PTE_U).
  - rewrite <- (cp_viewB _ _ _ _ _ _ _ _ Hc), Hm3. apply next_two2.
Qed.

Lemma copied_next : copied s A B F (i + PGSIZE) s4 l4 B4.
Proof.
  assert (forall vb, map_range 0 (i + PGSIZE) vb = false -> vb <> i /\ map_range 0 i vb = false) as Hout.
  { intros vb Hr. split; [intros ->|apply not_true_iff_false; intros Hr']; apply not_true_iff_false in Hr; apply Hr;
      apply map_range_lt; [|apply map_range_lt in Hr']; unfold PGSIZE; lia. }
  destruct next_v as (E1 & E2 & E3). destruct (cow_mark_spec v E3) as (_ & _ & _ & _ & _ & C6).
  split.
  - apply next_two4.
  - unfold B4. cbn. rewrite R4. apply Hc.
  - apply next_keeps.
  - intros vb. unfold B4. cbn. destruct (decide (vb = i)) as [->|Hne].
    + rewrite lookup_insert_eq, map_range_next, Z.eqb_refl by (done || lia). done.
    + rewrite lookup_insert_ne, (cp_map _ _ _ _ _ _ _ _ Hc) by done.
      destruct (decide (vb mod PGSIZE = 0)) as [Hvb|Hvb].
      * rewrite map_range_next by (done || lia). by destruct (Z.eqb_spec vb i).
      * assert (a_map A !! vb = None) as EA.
        { destruct (a_map A !! vb) eqn:E; [|done]. by apply (ai_va _ _ _ (proj2 next_s1)) in E as [_ ?]. }
        rewrite EA. destruct (map_range 0 (i + PGSIZE) vb) eqn:Er; [|by apply Hout in Er as [_ ->]].
        destruct (map_range 0 i vb) eqn:Er1; [done|]. destruct (a_map B !! vb) eqn:EB; [|done].
        pose proof (cp_map _ _ _ _ _ _ _ _ Hc vb) as Em. rewrite Er1, EB in Em.
        apply (ai_va _ _ _ (proj2 (cp_two _ _ _ _ _ _ _ _ Hc))) in Em as [_ ?]. done.
  - intros vb Hvb Hal' [Hne Hr]%Hout. rewrite next_pteA by done. destruct (Z.eqb_spec vb i); [done|]. by apply Hc.
  - intros vb Hvb Hal' [Hne Hr]%Hout. unfold B4. cbn. rewrite Hu4 by done. destruct (Z.eqb_spec vb i); [done|].
    rewrite <- (cp_pteB _ _ _ _ _ _ _ _ Hc) by done. rewrite Hm3. apply pte_at_frame. intros p x Hp.
    assert (space s1 l1 A (own B1 ⊎ F)) as Hs1 by apply next_s1.
    apply (mark_keeps s1 l1 A _ Hs1 i a v Hleaf w s2 Hm2 ∅). apply ms_in_l. by apply own_pt.
  - intros vb Hvb Hal' Hr. rewrite map_range_next in Hr by (done || lia).
    rewrite next_pteA by done. unfold B4. cbn. rewrite Hu4 by done.
    destruct (Z.eqb_spec vb i) as [->|Hne]; cbn in Hr.
    + split; [done|]. unfold new_pte, perm. rewrite <- Z.lor_assoc, has_W, PTE_flag_bit, Z.lor_spec by lia.
      rewrite PTE_FLAGS_bit, <- has_W, C6 by lia. done.
    + rewrite Hm3. destruct (cp_cow _ _ _ _ _ _ _ _ Hc vb Hvb Hal' Hr) as [Ha Hb]. split; [done|].
      rewrite <- Hb. f_equal. apply pte_at_frame. intros p x Hp.
      apply (mark_keeps s1 l1 A _ next_s1 i a v Hleaf w s2 Hm2 ∅). apply ms_in_l. by apply own_pt.
  - apply next_viewA.
  - apply next_viewB.
  - intros p Hp. rewrite (st_ref _ _ _ _ _ St4) by (by apply ms_in_r, ms_in_r, ms_in_l).
    pose proof (cp_ref _ _ _ _ _ _ _ _ Hc p Hp) as Hr. rewrite Hr3.
    assert (num_ref s2 (p / PGSIZE) = num_ref s1 (p / PGSIZE)) as E by (unfold num_ref; by rewrite Hn2).
    assert ((i + PGSIZE) / PGSIZE = i / PGSIZE + 1) as -> by (unfold PGSIZE in *; Z.div_mod_to_equations; lia).
    case_if; zb; [|lia]. rewrite <- E0. lia.
Qed.

End next.

(** ** Failure *)

(** The child is as before, but one page [pa] of the parent has a reference
    too many: it stays in the frame. *)
Record uncopied (s : kst) (A B : aspace) (F : gmultiset Z) (pa : Z) (s' : kst) (l' : list Z) (B' : aspace) : Prop := {
  uc_two : two s' l' A B' ({[+ pa +]} ⊎ F);
  uc_leak : pa ∈ own A;
  uc_root : t_root (a_T B') = t_root (a_T B);
  uc_keeps : keeps (kmem_mem s) (own A ⊎ (own B ⊎ F)) (kmem_mem s') (own A ⊎ (own B' ⊎ ({[+ pa +]} ⊎ F))) F;
  uc_map : a_map B' = a_map B;
  uc_viewA : forall x, uview (kmem_mem s') (a_T A) x = uview (kmem_mem s) (a_T A) x;
  uc_viewB : forall x, uview (kmem_mem s') (a_T B') x = uview (kmem_mem s) (a_T B) x;
}.

(** The pages up to [i] are mapped in the child; they are unmapped again. *)
Lemma uncopy s A B F pa i s1 l1 B1 s2 l2 B2 :
  two s1 l1 A B1 ({[+ pa +]} ⊎ F) -> pa ∈ own A -> t_root (a_T B1) = t_root (a_T B) ->
  keeps (kmem_mem s) (own A ⊎ (own B ⊎ F)) (kmem_mem s1) (own A ⊎ (own B1 ⊎ ({[+ pa +]} ⊎ F))) F ->
  (forall vb, a_map B1 !! vb = if map_range 0 i vb then a_map A !! vb else a_map B !! vb) ->
  (forall x, uview (kmem_mem s1) (a_T A) x = uview (kmem_mem s) (a_T A) x) ->
  (forall x, map_range 0 i (PGROUNDDOWN x) = false -> uview (kmem_mem s1) (a_T B1) x = uview (kmem_mem s) (a_T B) x) ->
  (forall vb, vb mod PGSIZE = 0 -> map_range 0 i vb = true -> has (pte_at (kmem_mem s) (a_T B) vb) PTE_V = false) ->
  (forall vb, map_range 0 i vb = true -> a_map B !! vb = None) ->
  unmapped s1 B1 (own A ⊎ ({[+ pa +]} ⊎ F)) 0 i s2 l2 B2 ->
  uncopied s A B F pa s2 l2 B2.
Proof.
  intros H2 Hpa R1 K1 M1 VA VB HV HN (S2 & T2 & K2 & M2 & P2 & V2). apply two_sym in H2.
  destruct (two_step _ _ _ _ _ _ _ _ H2 S2 K2) as (H3 & K3 & V3). split.
  - by apply two_sym.
  - done.
  - congruence.
  - eapply keeps_trans; [exact K1|]. rewrite (ms_swap (own A) (own B1)), (ms_swap (own A) (own B2)).
    eapply keeps_sub; [exact K3|apply ms_sub_r].
  - apply map_eq. intros vb. rewrite M2, M1. destruct (map_range 0 i vb) eqn:E; [|done]. by rewrite HN.
  - intros x. by rewrite V3.
  - intros x. rewrite T2, V2. destruct (map_range 0 i (PGROUNDDOWN x)) eqn:E; [|by apply VB].
    unfold uview, upage. rewrite HV; [|apply PGROUNDDOWN_aligned|done]. by case_if.
Qed.

(** ** [uvmcopy] *)

(** The two read-modify-writes of an entry. *)
Lemma wp_mark_pte {R} s1 a v (k : Z -> M kst R) Q :
  load64 (kmem_mem s1) a = v -> 0 <= v < 2 ^ 64 ->
  wp (k (cow_mark v)) Q (s1 <| kmem_mem ::= fun m => store64 m a (Z.land v (Z.lnot PTE_W)) |>
                         <| kmem_mem ::= fun m => store64 m a (cow_mark v) |>) ->
  wp (v ← read64 a; write64 a (Z.land v (Z.lnot PTE_W));;
      v ← read64 a; write64 a (Z.lor v PTE_COW);;
      v ← read64 a; k v) Q s1.
Proof.
  intros El Hv Hk. wp_steps. rewrite El. cbn [kmem_mem set_field].
  rewrite (load64_store64_eq (kmem_mem s1)) by (by apply land_range). fold (cow_mark v).
  rewrite load64_store64_eq by (by apply cow_mark_spec). done.
Qed.

Lemma wp_uvmcopy s l A B F sz (Q : Z -> kst -> Prop) :
  two s l A B F -> 0 <= sz <= MAXVA ->
  (forall vb, vb mod PGSIZE = 0 -> 0 <= vb < sz -> is_Some (a_map A !! vb)) ->
  (forall vb, vb mod PGSIZE = 0 -> 0 <= vb < sz -> has (pte_at (kmem_mem s) (a_T B) vb) PTE_V = false) ->
  (forall p, p ∈ own A -> num_ref s (p / PGSIZE) + pages_of sz < INT_MAX) ->
  (forall s' l' B', copied s A B F (PGROUNDUP sz) s' l' B' -> Q 0 s') ->
  (forall s' l' B' pa, uncopied s A B F pa s' l' B' -> Q (-1) s') ->
  wp (uvmcopy (t_root (a_T A)) (t_root (a_T B)) sz) Q s.
Proof.
  intros H2 Hsz Hmap HV Href HQ0 HQ1. unfold uvmcopy.
  assert (MAXVA = 2 ^ 38) as EM by done. assert (PGSIZE = 4096) as EP by done.
  pose proof (PGROUNDUP_range sz Hsz) as Hur. pose proof (PGROUNDUP_aligned sz) as Hua.
  pose proof (PGROUNDUP_bounds sz ltac:(lia) ltac:(lia)) as Hub.
  assert (forall vb, 0 <= vb < sz -> a_map B !! vb = None) as HN.
  { intros vb Hr. destruct (a_map B !! vb) eqn:E; [|done]. destruct H2 as [_ Hb].
    destruct (ai_va _ _ _ Hb _ _ E) as [_ Hal]. apply (ai_map _ _ _ Hb) in E as [E _]. by rewrite HV in E. }
  apply (wp_while (fun i s1 => i mod PGSIZE = 0 /\ 0 <= i <= PGROUNDUP sz /\
      exists l1 B1, copied s A B F i s1 l1 B1) (fun i => Z.to_nat (PGROUNDUP sz - i))).
  - intros i s1 (Hia & Hir & l1 & B1 & Hc).
    destruct (Z.ltb_spec i sz) as [Hlt|Hge]; cbn [negb].
    2: { wp_steps. replace (PGROUNDUP sz) with i in HQ0; [by eapply HQ0|].
         revert Hia Hua. rewrite EP in *. intros. Z.div_mod_to_equations. lia. }
    pose proof (two_left _ _ _ _ _ (cp_two _ _ _ _ _ _ _ _ Hc)) as Hs1.
    destruct (Hmap i Hia ltac:(lia)) as [pa Hpa]. assert (0 <= i < MAXVA) as Him by lia.
    destruct (ai_map _ _ _ (proj2 Hs1) i pa Hpa) as (EV & EF & EPA).
    rewrite wp_bind. apply wp_walk_leaf; [apply (proj2 Hs1)|lia|..].
    { intros El. unfold pte_at in EV. rewrite El in EV. done. }
    intros a El Hnz Eld. destruct (Z.eqb_spec a 0); [done|].
    rewrite wp_bind. apply wp_gets. rewrite Eld, EV. cbn [negb].
    set (v := pte_at (kmem_mem s1) (a_T A) i) in *.
    assert (0 <= v < 2 ^ 64) as Hvr by (unfold v; rewrite <- Eld; apply load64_range).
    apply (wp_mark_pte _ _ v); [apply Eld|done|]. set (w := Z.land v (Z.lnot PTE_W)).
    set (s2 := s1 <| kmem_mem ::= fun m => store64 m a w |> <| kmem_mem ::= fun m => store64 m a (cow_mark v) |>).
    assert (vm_inv s2 l1 (own A ⊎ (own B1 ⊎ F))) as Hv2.
    { assert (forall x, (forall p, p ∈ own A ⊎ (own B1 ⊎ F) -> ~ in_page p x) -> forall p, pt_page (a_T A) p -> ~ in_page p x) as Hpt.
      { intros x Hx p Hp. apply Hx, ms_in_l. by apply own_pt. }
      repeat apply vm_inv_mem; [apply Hs1|..].
      - intros x Hx. eapply store_leaf_frame; [apply (proj2 Hs1)|done|by apply Hpt].
      - intros x Hx. eapply store_leaf_frame; [eapply pt_store; [apply (proj2 Hs1)|done]|done|by apply Hpt]. }
    assert (num_ref s2 (pa / PGSIZE) + 1 < INT_MAX) as Hr2.
    { assert (pa ∈ own A) as Hin by (by eapply own_user).
      pose proof (cp_ref _ _ _ _ _ _ _ _ Hc pa Hin) as H1. pose proof (Href pa Hin) as H3.
      change (num_ref s2) with (num_ref s1). unfold pages_of in H3.
      revert H1 H3 Hia Hua. rewrite EP in *. intros. Z.div_mod_to_equations. lia. }
    rewrite wp_bind. rewrite EPA. eapply wp_increase_own; [done|apply ms_in_l; by eapply own_user|lia|].
    intros s3 Hv3 Hm3 Hr3.
    rewrite <- (cp_root _ _ _ _ _ _ _ _ Hc), wp_bind.
    assert (kmem_mem s2 = store64 (store64 (kmem_mem s1) a w) a (cow_mark v)) as Hm2 by done.
    pose proof (next_B3 s A B F i s1 l1 B1 Hc Him Hia pa a v El Hpa eq_refl w s2 Hm2 Hv2 s3 Hm3 Hv3) as S3.
    assert (page_ok pa) as Hpo by (apply (vi_ok _ _ _ Hv3), ms_in_singleton).
    pose proof (page_ok_pos _ Hpo) as Hpp. pose proof (PTE_FLAGS_range (cow_mark v)) as Hfr.
    destruct (cow_mark_spec v Hvr) as (C1 & C2 & C3 & C4 & C5 & C6).
    eapply (wp_mappages1 s3 l1 B1 (own A ⊎ F) i pa _ (Some pa)); [exact S3|done|done| |by apply page_ok_addr|lia|done| |..].
    + rewrite Hm3. assert (pte_at (kmem_mem s2) (a_T B1) i = pte_at (kmem_mem s1) (a_T B1) i) as ->.
      { apply pte_at_frame. intros p x Hp. apply (mark_keeps s1 l1 A _ Hs1 i a v El w s2 Hm2 ∅).
        apply ms_in_l. by apply own_pt. }
      rewrite (cp_pteB _ _ _ _ _ _ _ _ Hc); [apply HV; [done|lia]|done|done|apply map_range_empty'].
    + split; [done|]. split.
      * intros E%(f_equal (fun z => Z.testbit z 8)). rewrite Z.lor_spec, PTE_FLAGS_bit, <- has_COW, C5 in E by lia. done.
      * rewrite has_COW, PTE_FLAGS_bit, <- has_COW, C5 by lia. done.
    + intros s4 l4 T4 S4 R4 St4 Hu4 _. cbn [Z.eqb negb]. wp_steps. rewrite u64_small by lia. split; [|lia].
      split; [revert Hia; rewrite EP; intros; Z.div_mod_to_equations; lia|].
      split; [revert Hia Hua; rewrite EP in *; intros; Z.div_mod_to_equations; lia|].
      eexists _, _.
      exact (copied_next s A B F i s1 l1 B1 Hc Him Hia pa a v El Hpa eq_refl w s2 Hm2 eq_refl Hv2 s3 Hm3 Hv3 Hr3 s4 l4 T4 S4 R4 St4 Hu4).
    + intros s4 l4 T4 S4 R4 St4 Hu4 -> _. cbn [Z.eqb negb]. wp_steps. rewrite <- R4.
      destruct (next_fail s A B F i s1 l1 B1 Hc Him Hia pa a v El Hpa eq_refl w s2 Hm2 Hv2 s3 Hm3 Hv3 s4 [] T4 S4 St4 Hu4)
        as (H4 & K4 & VA4 & VB4).
      assert (i / PGSIZE * PGSIZE = i) as Eii by (rewrite EP in *; Z.div_mod_to_equations; lia).
      eapply (wp_uvmunmap s4 [] (mkA T4 (a_map B1)) (own A ⊎ ({[+ pa +]} ⊎ F))); rewrite ?Eii; try lia; try done.
      * by apply two_right in H4.
      * intros vb Hvb Hr. cbn. rewrite (cp_map _ _ _ _ _ _ _ _ Hc). rewrite (proj2 (map_range_lt 0 i vb)) by lia.
        apply Hmap; [done|lia].
      * intros s5 l5 B5 Hun. wp_steps. eapply HQ1. eapply (uncopy s A B F pa i s4 []); try done.
        -- by eapply own_user.
        -- cbn. rewrite R4. apply Hc.
        -- apply Hc.
        -- intros x Hx. cbn. rewrite VB4, (cp_viewB _ _ _ _ _ _ _ _ Hc), Hx. done.
        -- intros vb Hvb Hr%map_range_lt. apply HV; [done|lia].
        -- intros vb Hr%map_range_lt. apply HN. lia.
  - split; [done|]. split; [lia|]. exists l, B. by apply copied_refl.
  - change (Z.pos FUEL) with (2 ^ 64). lia.
Qed.

End uvmcopy.
