(* ===== verification/Freewalk.v ===== *)
(** * Freewalk: tearing down page tables

    [freewalk] of [kernel/vm.c] visits the three levels of a page table and
    releases every page of it.  [wp_free_level] is the proof of one level,
    with the level below as a hypothesis; it is used three times. *)

From stdpp Require Import base list gmap gmultiset strings.
From Stdlib Require Import ZArith Lia.
From S2P Require Import Prelude CMem Riscv Spinlock Kalloc Vm PageTable AddrSpace Cow Uvm.
Import CString.

Section freewalk.
Context `{L : Layout} {LO : LayoutOk L}.

Abbreviation slots := (seqZ 0 512).

Definition lst (l : list Z) : gmultiset Z := list_to_set_disj l.

#[local] Arguments lst : simpl never.

Lemma lst_app l k : lst (l ++ k) = lst l ⊎ lst k.
Proof. apply list_to_set_disj_app. Qed.
Lemma lst_cons p l : lst (p :: l) = {[+ p +]} ⊎ lst l.
Proof. done. Qed.
Lemma lst_nil O : lst [] ⊎ O = O.
Proof. unfold lst. cbn [list_to_set_disj]. by rewrite (left_id_L ∅ (⊎)). Qed.
Lemma lst_elem p l : p ∈ lst l <-> p ∈ l.
Proof. apply elem_of_list_to_set_disj. Qed.

(** Memory is the same outside the pages [ps]. *)
Definition same_but (ps : list Z) (m m' : mem) : Prop :=
  forall x, (forall p, p ∈ ps -> ~ in_page p x) -> rd8 m' x = rd8 m x.

Lemma same_but_mono ps qs m m' : same_but ps m m' -> ps ⊆ qs -> same_but qs m m'.
Proof. intros H Hs x Hx. apply H. auto. Qed.

Lemma same_but_trans ps m m1 m2 : same_but ps m m1 -> same_but ps m1 m2 -> same_but ps m m2.
Proof. intros H1 H2 x Hx. rewrite H2 by done. by apply H1. Qed.

(** Freeing the subtree below one slot. *)
Definition frees (d : nat) (c : Z) (ps : list Z) (m0 : mem) : Prop :=
  forall s l O, vm_inv s l (lst ps ⊎ O) ->
    (forall p x, p ∈ ps -> in_page p x -> rd8 (kmem_mem s) x = rd8 m0 x) ->
    wp (freewalk_rec d c) (fun _ s' => exists l', vm_inv s' l' O /\ same_but ps (kmem_mem s) (kmem_mem s')) s.

Section level.
Context (d : nat) (t : Z) (P : Z -> list Z) (C : gmap Z Z) (m0 : mem).
Context (Hent : forall j, idx j -> entry m0 (t + 8 * j) (C !! j)).
Context (Hsub : forall j c, C !! j = Some c -> idx j -> frees d c (P j) m0).
Context (Hnone : forall j, C !! j = None -> P j = []).
Context (Hnd : NoDup (t :: (slots ≫= P))).
Context (Hok : forall p, p ∈ t :: (slots ≫= P) -> page_ok p).

Let pages := t :: (slots ≫= P).

(** The state when the slots [todo] are left. *)
Record left_ (s : kst) (O : gmultiset Z) (todo : list Z) (s' : kst) : Prop := {
  lf_vm : exists l', vm_inv s' l' (lst (t :: (todo ≫= P)) ⊎ O);
  lf_mem : same_but pages (kmem_mem s) (kmem_mem s');
  lf_sub : forall j p x, j ∈ todo -> p ∈ P j -> in_page p x -> rd8 (kmem_mem s') x = rd8 m0 x;
  lf_ent : forall j, j ∈ todo -> load64 (kmem_mem s') (t + 8 * j) = load64 m0 (t + 8 * j);
}.

Lemma page_apart p q x : p ∈ pages -> q ∈ pages -> p <> q -> in_page p x -> ~ in_page q x.
Proof. intros Hp%Hok Hq%Hok Hne. apply page_disjoint; [apply Hp|apply Hq|done]. Qed.

Lemma slot_pages j p : idx j -> p ∈ P j -> p ∈ pages /\ p <> t.
Proof.
  intros Hj Hp. assert (p ∈ slots ≫= P) as Hin.
  { apply list_elem_of_bind. exists j. split; [done|]. apply elem_of_seqZ. unfold idx in Hj. lia. }
  split; [by right|]. apply NoDup_cons in Hnd as [Hn _]. congruence.
Qed.

Lemma slots_disjoint j k p : idx j -> idx k -> p ∈ P j -> p ∈ P k -> j = k.
Proof.
  intros Hj Hk Hpj Hpk. destruct (decide (j = k)) as [|Hne]; [done|]. exfalso.
  apply NoDup_cons in Hnd as [_ Hn].
  assert (forall a b : Z, idx a -> idx b -> a < b -> p ∈ P a -> p ∈ P b -> False) as Hab.
  { intros a b Ha Hb Hlt Hpa Hpb. unfold idx in *.
    replace 512 with (a + 1 + (512 - a - 1)) in Hn by lia.
    rewrite seqZ_app, bind_app in Hn by lia. apply NoDup_app in Hn as (_ & Hd & _).
    apply (Hd p); apply list_elem_of_bind; [exists a|exists b]; (split; [done|]); apply elem_of_seqZ; lia. }
  destruct (Z.lt_ge_cases j k); [by eapply (Hab j k)|eapply (Hab k j); try done; lia].
Qed.

(** One slot. *)
Lemma wp_slot s O j todo s1 :
  left_ s O (j :: todo) s1 -> idx j -> j ∉ todo -> (forall k, k ∈ todo -> idx k) ->
  wp (pte ← read64 (t + 8 * j);
      if has pte PTE_V && (Z.land pte (Z.lor (Z.lor PTE_R PTE_W) PTE_X) =? 0) then
        freewalk_rec d (PTE2PA pte);; write64 (t + 8 * j) 0
      else if has pte PTE_V then panic "freewalk: leaf" else mret tt)
     (fun _ s2 => left_ s O todo s2) s1.
Proof.
  intros [[l1 Hv] Hm Hs He] Hj Hnin Htodo. wp_steps. rewrite He by left. pose proof (Hent j Hj) as Hej.
  destruct (C !! j) as [c|] eqn:Ec; cbn in Hej.
  - destruct Hej as (E1 & E2 & E3). rewrite E1, E3, E2. cbn [andb Z.eqb]. wp_steps.
    cbn [mbind list_bind] in Hv. rewrite lst_cons, lst_app, ms_assoc, ms_assoc, (ms_swap {[+ t +]}) in Hv.
    eapply wp_mono; [apply (Hsub j c Ec Hj s1 l1 _ Hv)|].
    { intros p x Hp. apply (Hs j); [left|done]. }
    intros [] s2 (l2 & Hv2 & Hm2). cbv beta.
    assert (forall p x, p ∈ pages -> p ∉ P j -> in_page p x -> rd8 (kmem_mem s2) x = rd8 (kmem_mem s1) x) as Hkeep.
    { intros p x Hp Hnp Hx. apply Hm2. intros q Hq. apply (page_apart p q); [done|by apply (slot_pages j)|congruence|done]. }
    wp_steps. split; [|cbn..].
    + exists l2. rewrite lst_cons, ms_assoc. apply vm_inv_mem; [done|]. intros x Hx. apply rd8_store_page; [done|].
      apply Hx. rewrite <- ms_assoc. apply ms_in_l, ms_in_singleton.
    + eapply same_but_trans; [exact Hm|]. intros x Hx. rewrite (rd8_store_page t); [|done|apply Hx; left].
      apply Hm2. intros p Hp. apply Hx. by apply (slot_pages j).
    + intros k p x Hk Hp Hx. pose proof (Htodo k Hk) as Hik. destruct (slot_pages k p Hik Hp) as [Hpp Hpt].
      rewrite (rd8_store_page t); [|done|by apply (page_apart p t); [|left|..]].
      rewrite (Hkeep p); [apply (Hs k p); [by right|done|done]|done| |done].
      intros Hpj. assert (j = k) by (by eapply slots_disjoint). congruence.
    + intros k Hk. pose proof (Htodo k Hk) as Hik. rewrite load64_store64_ne.
      * rewrite <- He by (by right). apply load64_ext. intros x Hx. apply (Hkeep t); [left| |].
        -- intros Hpj. by destruct (slot_pages j t Hj Hpj).
        -- by eapply entry_in_page.
      * apply entry_apart; try done; [apply Hok; left..|]. right. congruence.
  - rewrite Hej. cbn [andb]. wp_steps. split.
    + exists l1. cbn [mbind list_bind] in Hv. by rewrite (Hnone j Ec) in Hv.
    + done.
    + intros k p x Hk. apply Hs. by right.
    + intros k Hk. apply He. by right.
Qed.

Lemma wp_free_level : frees (S d) t pages m0.
Proof.
  intros s l O Hv Hm. cbn [freewalk_rec]. apply wp_bind.
  eapply wp_mono.
  - apply (wp_for_each (fun done s' => left_ s O (drop (length done) slots) s')).
    + intros dn j todo s1 E Hl. rewrite E, length_app. cbn [length].
      assert (drop (length dn) slots = j :: todo) as Ed by (rewrite E; apply drop_app_length).
      replace (drop (length dn + 1) (dn ++ j :: todo)) with todo
        by (by rewrite <- drop_drop, drop_app_length).
      pose proof (NoDup_seqZ 0 512) as Hnd'. rewrite E in Hnd', Hl. rewrite drop_app_length in Hl.
      apply NoDup_app in Hnd' as (_ & _ & [Hnin _]%NoDup_cons).
      assert (forall k, k ∈ j :: todo -> idx k) as Hidx.
      { intros k Hk. unfold idx. assert (k ∈ slots) as Hk'%elem_of_seqZ by (rewrite E; apply elem_of_app; by right). lia. }
      apply wp_slot; [done|apply Hidx; left|done|]. intros k Hk. apply Hidx. by right.
    + cbn [length]. rewrite drop_0. split.
      * by exists l.
      * done.
      * intros j p x Hj Hp. apply Hm. right. apply list_elem_of_bind. eauto.
      * intros j Hj%elem_of_seqZ. apply load64_ext. intros x Hx. apply (Hm t); [left|].
        eapply entry_in_page; [|done]. unfold idx. lia.
  - intros [] s1 [[l1 Hv1] Hm1 _ _]. rewrite drop_ge in Hv1 by done. cbn [mbind list_bind] in Hv1.
    rewrite lst_cons, ms_assoc in Hv1. eapply wp_kfree_own; [exact Hv1|].
    intros s2 l2 Hv2 Hch _. exists l2. split; [by rewrite lst_nil in Hv2|].
    eapply same_but_trans; [exact Hm1|]. intros x Hx. apply Hch. apply Hx. left.
Qed.

End level.

(** ** The three levels *)

Definition sub0 (T : ptree) (i j : Z) : list Z :=
  match t_l0 T !! (i, j) with Some u => [u] | None => [] end.
Definition sub1 (T : ptree) (i : Z) : list Z :=
  match t_l1 T !! i with Some t => t :: (slots ≫= sub0 T i) | None => [] end.

(** No valid entry on the last level. *)
Definition no_leaves (m : mem) (T : ptree) : Prop :=
  forall va, 0 <= va < MAXVA -> va mod PGSIZE = 0 -> has (pte_at m T va) PTE_V = false.

Section tree.
Context (m : mem) (T : ptree) (HR : pt_rep m T) (Hno : no_leaves m T).

Lemma elem_sub0 i j p : p ∈ sub0 T i j <-> t_l0 T !! (i, j) = Some p.
Proof.
  unfold sub0. destruct (t_l0 T !! (i, j)) as [u|]; rewrite ?list_elem_of_singleton.
  - split; congruence.
  - split; [by intros ?%elem_of_nil|done].
Qed.

Lemma elem_sub0s i p : p ∈ slots ≫= sub0 T i -> exists j, t_l0 T !! (i, j) = Some p.
Proof. intros (j & Hp & _)%list_elem_of_bind. exists j. by apply elem_sub0. Qed.

Lemma elem_sub1 i p : p ∈ sub1 T i -> t_l1 T !! i = Some p \/ exists j, t_l0 T !! (i, j) = Some p.
Proof.
  unfold sub1. destruct (t_l1 T !! i) as [t|] eqn:E; [|by intros ?%elem_of_nil].
  intros [->|?%elem_sub0s]%elem_of_cons; eauto.
Qed.

Lemma NoDup_sub0 i t : t_l1 T !! i = Some t -> NoDup (t :: (slots ≫= sub0 T i)).
Proof.
  intros Ht. constructor.
  - intros (j & Hj)%elem_sub0s. by apply (pr_l1_l0 _ _ HR _ _ _ Ht) in Hj.
  - apply NoDup_bind.
    + intros j k p _ _ Hj%elem_sub0 Hk%elem_sub0. pose proof (pr_inj0 _ _ HR _ _ _ Hj Hk). congruence.
    + intros j _. unfold sub0. case_match; [apply NoDup_singleton|constructor].
    + apply NoDup_seqZ.
Qed.

Lemma NoDup_sub1 : NoDup (t_root T :: (slots ≫= sub1 T)).
Proof.
  constructor.
  - intros (i & [Hp|[j Hp]]%elem_sub1 & _)%list_elem_of_bind.
    + by apply (pr_root1 _ _ HR) in Hp.
    + by apply (pr_root0 _ _ HR) in Hp.
  - apply NoDup_bind.
    + intros i k p _ _ [Hi|[j Hi]]%elem_sub1 [Hk|[j' Hk]]%elem_sub1.
      * by eapply (pr_inj1 _ _ HR).
      * by apply (pr_l1_l0 _ _ HR _ _ _ Hi) in Hk.
      * by apply (pr_l1_l0 _ _ HR _ _ _ Hk) in Hi.
      * pose proof (pr_inj0 _ _ HR _ _ _ Hi Hk). congruence.
    + intros i _. unfold sub1. case_match; [by apply NoDup_sub0|constructor].
    + apply NoDup_seqZ.
Qed.

Lemma pt_pages_tree : pt_pages T ≡ₚ t_root T :: (slots ≫= sub1 T).
Proof.
  apply NoDup_Permutation; [by eapply NoDup_pt_pages|apply NoDup_sub1|].
  intros p. rewrite elem_of_pt_pages, elem_of_cons, list_elem_of_bind. split.
  - intros [->|[[i Hp]|[[i j] Hp]]]; [by left|right; exists i..].
    + split; [unfold sub1; rewrite Hp; left|]. apply elem_of_seqZ. pose proof (pr_idx1 _ _ HR _ _ Hp). lia.
    + destruct (pr_idx0 _ _ HR _ _ _ Hp) as [Hj [t Ht]]. split.
      * unfold sub1. rewrite Ht. right. apply list_elem_of_bind. exists j. split; [by apply elem_sub0|].
        apply elem_of_seqZ. unfold idx in Hj. lia.
      * apply elem_of_seqZ. pose proof (pr_idx1 _ _ HR _ _ Ht). lia.
  - intros [->|(i & [Hp|[j Hp]]%elem_sub1 & _)]; unfold pt_page; eauto.
Qed.

Lemma frees_leaf i j u : t_l0 T !! (i, j) = Some u -> frees 1 u (sub0 T i j) m.
Proof.
  intros Hu. unfold sub0. rewrite Hu.
  assert (slots ≫= (fun _ : Z => @nil Z) = []) as En by done.
  assert (frees 1 u (u :: (slots ≫= (fun _ : Z => []))) m) as Hf; [|by rewrite En in Hf].
  destruct (pr_idx0 _ _ HR _ _ _ Hu) as [Hj [t Ht]]. pose proof (pr_idx1 _ _ HR _ _ Ht) as Hi.
  assert (page_ok u) as Hok by (eapply (pr_ok _ _ HR), pt_page_l0; done).
  apply (wp_free_level 0 u (fun _ => []) ∅ m); rewrite ?En; try done.
  - intros k Hk. rewrite lookup_empty. cbn. unfold idx in *.
    destruct (PX_make i j k Hi Hj Hk) as (Hr & Hal & E2 & E1 & E0).
    rewrite <- (Hno _ Hr Hal). f_equal. unfold pte_at, leaf. rewrite E2, E1, E0, Hu. done.
  - apply NoDup_singleton.
  - by intros p ->%list_elem_of_singleton.
Qed.

Lemma frees_mid i t : t_l1 T !! i = Some t -> frees 2 t (sub1 T i) m.
Proof.
  intros Ht. unfold sub1. rewrite Ht.
  set (C := list_to_map ((fun j => (j, default 0 (t_l0 T !! (i, j)))) <$>
              filter (fun j => is_Some (t_l0 T !! (i, j))) slots) : gmap Z Z).
  assert (forall j, idx j -> C !! j = t_l0 T !! (i, j)) as HC.
  { intros j Hj. unfold C. destruct (t_l0 T !! (i, j)) as [u|] eqn:E.
    - apply elem_of_list_to_map_1.
      + rewrite <- list_fmap_compose. apply NoDup_fmap_2; [by intros ? ?|]. apply list.NoDup_filter, NoDup_seqZ.
      + apply list_elem_of_fmap. exists j. rewrite E. split; [done|]. apply list_elem_of_filter. rewrite E.
        split; [by eexists|]. apply elem_of_seqZ. unfold idx in Hj. lia.
    - apply not_elem_of_list_to_map_1. rewrite <- list_fmap_compose. intros (k & -> & [[? Hk] _]%list_elem_of_filter)%list_elem_of_fmap.
      cbn in E. congruence. }
  assert (forall j c, C !! j = Some c -> idx j) as HCi.
  { intros j c Hj. apply elem_of_list_to_map_2, list_elem_of_fmap in Hj as (k & [= -> _] & [_ Hk%elem_of_seqZ]%list_elem_of_filter).
    unfold idx. lia. }
  apply (wp_free_level 1 t (sub0 T i) C m).
  - intros j Hj. rewrite HC by done. by apply (pr_l0 _ _ HR).
  - intros j c Hc Hj. rewrite HC in Hc by done. by apply frees_leaf.
  - intros j Hc. unfold sub0. destruct (t_l0 T !! (i, j)) eqn:E; [|done].
    destruct (pr_idx0 _ _ HR _ _ _ E) as [Hj _]. rewrite HC in Hc by done. congruence.
  - by apply NoDup_sub0.
  - intros p [->|[j Hj]%elem_sub0s]%elem_of_cons; apply (pr_ok _ _ HR); [by eapply pt_page_l1|by eapply pt_page_l0].
Qed.

Lemma frees_root : frees 3 (t_root T) (t_root T :: (slots ≫= sub1 T)) m.
Proof.
  apply (wp_free_level 2 (t_root T) (sub1 T) (t_l1 T) m).
  - apply (pr_l1 _ _ HR).
  - intros i c Hc _. by apply frees_mid.
  - intros i Hi. unfold sub1. by rewrite Hi.
  - apply NoDup_sub1.
  - intros p Hp. apply (pr_ok _ _ HR). apply elem_of_pt_pages. by rewrite pt_pages_tree.
Qed.

End tree.

(** [freewalk] gives back every page of the table and touches nothing else. *)
Lemma wp_freewalk s l A F :
  space s l A F -> a_map A = ∅ -> no_leaves (kmem_mem s) (a_T A) ->
  wp (freewalk (t_root (a_T A))) (fun _ s' => exists l', vm_inv s' l' F /\
    forall p x, p ∈ F -> in_page p x -> rd8 (kmem_mem s') x = rd8 (kmem_mem s) x) s.
Proof.
  intros Hsp He Hno. unfold freewalk.
  assert (own A = lst (t_root (a_T A) :: (slots ≫= sub1 (a_T A)))) as Eo.
  { unfold own. rewrite He. unfold own_map. rewrite map_to_list_empty. cbn [fmap list_fmap list_to_set_disj].
    rewrite (right_id_L ∅ (⊎)). apply list_to_set_disj_perm. eapply pt_pages_tree, (proj2 Hsp). }
  destruct Hsp as [Hv Ha]. pose proof Hv as Hv'. rewrite Eo in Hv'.
  eapply wp_mono; [apply (frees_root _ _ (ai_rep _ _ _ Ha) Hno s l F Hv'); done|].
  intros [] s' (l' & Hv2 & Hm). exists l'. split; [done|]. intros p x Hp Hx. apply Hm.
  intros q Hq. rewrite <- (lst_elem q), <- Eo in Hq.
  assert (pt_page (a_T A) q) as Hpt.
  { apply own_elem in Hq as [?|[va Hva]]; [done|]. by rewrite He, lookup_empty in Hva. }
  apply (page_disjoint p q); [apply (vi_ok _ _ _ Hv); by apply ms_in_r|apply (vi_ok _ _ _ Hv); by apply ms_in_l| |done].
  intros ->. eapply excl_not_frame; [by apply own_pt|by apply (ai_pt _ _ _ Ha)|done].
Qed.

End freewalk.
