(* ===== verification/ProcPt.v ===== *)
(** * ProcPt: the address spaces of processes

    [upt s l A F sz tf] is the invariant of a process's page table
    ([kernel/proc.c], [proc_pagetable]): every page below [sz] is mapped and
    owned, the trampoline and the trapframe are mapped at the top without
    [PTE_U], nothing else is.  [proc_pagetable] establishes it,
    [proc_freepagetable] and [uvmfree] give all its pages back. *)

From stdpp Require Import base list gmap gmultiset strings.
From Stdlib Require Import ZArith Lia.
From S2P Require Import Prelude CMem Riscv Spinlock Kalloc Vm PageTable AddrSpace Cow Uvm Uvmcopy Freewalk.
Import CString.

Section procpt.
Context `{L : Layout} {LO : LayoutOk L}.

(** Unmapping one page that is not owned. *)
Lemma wp_uvmunmap_special s l A F va (Q : unit -> kst -> Prop) :
  space s l A F -> va mod PGSIZE = 0 -> 0 <= va < MAXVA -> a_map A !! va = None ->
  has (pte_at (kmem_mem s) (a_T A) va) PTE_V = true -> PTE_FLAGS (pte_at (kmem_mem s) (a_T A) va) <> PTE_V ->
  (forall s', space s' l A F ->
     keeps (kmem_mem s) (own A ⊎ F) (kmem_mem s') (own A ⊎ F) F ->
     (forall vb, 0 <= vb < MAXVA -> vb mod PGSIZE = 0 ->
        pte_at (kmem_mem s') (a_T A) vb = if vb =? va then 0 else pte_at (kmem_mem s) (a_T A) vb) -> Q tt s') ->
  wp (uvmunmap (t_root (a_T A)) va 1 false) Q s.
Proof.
  intros Hsp Hal Hva Hn EV EF HQ. unfold uvmunmap. rewrite Hal. cbn [Z.eqb negb].
  assert (MAXVA = 2 ^ 38) as EM by done. assert (PGSIZE = 4096) as EP by done.
  assert (va + PGSIZE <= MAXVA) as Hle by (rewrite EM, EP in *; Z.div_mod_to_equations; lia).
  rewrite u64_small by lia.
  apply (wp_while (fun a s1 => a = va /\ s1 = s \/ a = va + PGSIZE /\ Q tt s1)
    (fun a => Z.to_nat (va + PGSIZE - a))).
  - intros a s1 [[-> ->]|[-> HQ1]].
    2: { destruct (Z.ltb_spec (va + PGSIZE) (va + 1 * PGSIZE)); [lia|]. wp_steps. done. }
    destruct (Z.ltb_spec va (va + 1 * PGSIZE)); [|lia]. cbn [negb]. wp_steps.
    apply wp_walk_leaf; [apply (proj2 Hsp)|lia|..].
    { intros El. unfold pte_at in EV. rewrite El in EV. done. }
    intros pte El Hnz Eld. destruct (Z.eqb_spec pte 0); [done|]. wp_steps. rewrite Eld, EV. cbn [negb].
    destruct (Z.eqb_spec (PTE_FLAGS (pte_at (kmem_mem s) (a_T A) va)) PTE_V); [done|].
    wp_steps. rewrite u64_small by lia. split; [right; split; [done|]|lia].
    pose proof (ai_rep _ _ _ (proj2 Hsp)) as HR.
    assert (forall p x, p ∈ own A ⊎ F -> ~ pt_page (a_T A) p -> in_page p x ->
      rd8 (store64 (kmem_mem s) pte 0) x = rd8 (kmem_mem s) x) as Hout.
    { intros p x Hp Hnp Hx. eapply store_leaf_frame; [done|done|]. intros q Hq.
      apply (page_disjoint p q); [by apply (vi_ok _ _ _ (proj1 Hsp))|apply (pr_ok _ _ HR q Hq)|congruence|done]. }
    assert (forall vb, 0 <= vb < MAXVA -> vb mod PGSIZE = 0 -> pte_at (store64 (kmem_mem s) pte 0) (a_T A) vb =
      if vb =? va then 0 else pte_at (kmem_mem s) (a_T A) vb) as Hpte.
    { intros vb Hvb Hvb'. rewrite (pte_store _ (a_T A) va pte), !PGROUNDDOWN_id by done. done. }
    apply HQ.
    + split.
      * apply vm_inv_mem; [apply Hsp|]. intros x Hx. eapply store_leaf_frame; [done|done|].
        intros p Hp. apply Hx, ms_in_l. by apply own_pt.
      * assert (A = mkA (a_T A) (set_page (a_map A) va None)) as EA.
        { destruct A as [T mp]. cbn in *. by rewrite delete_id. }
        rewrite EA at 1. apply (as_inv_upd (kmem_mem s) A (own A ⊎ F) _ _ _ va 0); try done.
        -- apply (proj2 Hsp).
        -- by eapply pt_store.
        -- apply (ai_pt _ _ _ (proj2 Hsp)).
    + intros p Hp. split; [|done]. intros x. apply Hout; [by apply ms_in_r|]. intros Hpt.
      eapply excl_not_frame; [by apply own_pt|by apply (ai_pt _ _ _ (proj2 Hsp))|done].
    + exact Hpte.
  - by left.
  - change (Z.pos FUEL) with (2 ^ 64). lia.
Qed.

(** ** [uvmfree] *)

(** The pages below [sz] are owned, and no other entry is valid. *)
Definition user_only (s : kst) (A : aspace) (sz : Z) : Prop :=
  (forall vb, vb mod PGSIZE = 0 -> 0 <= vb < PGROUNDUP sz -> is_Some (a_map A !! vb)) /\
  (forall vb, 0 <= vb < MAXVA -> vb mod PGSIZE = 0 -> PGROUNDUP sz <= vb ->
     has (pte_at (kmem_mem s) (a_T A) vb) PTE_V = false).

Lemma wp_uvmfree s l A F sz :
  space s l A F -> 0 <= sz <= MAXVA -> user_only s A sz ->
  wp (uvmfree (t_root (a_T A)) sz) (fun _ s' => exists l', vm_inv s' l' F /\
    forall p x, p ∈ F -> in_page p x -> rd8 (kmem_mem s') x = rd8 (kmem_mem s) x) s.
Proof.
  intros Hsp Hsz [Hmap Hinv]. unfold uvmfree. assert (MAXVA = 2 ^ 38) as EM by done.
  assert (forall s1 l1 A1, unmapped s A F 0 (PGROUNDUP sz) s1 l1 A1 ->
    wp (freewalk (t_root (a_T A))) (fun _ s' => exists l', vm_inv s' l' F /\
      forall p x, p ∈ F -> in_page p x -> rd8 (kmem_mem s') x = rd8 (kmem_mem s) x) s1) as Hfw.
  { intros s1 l1 A1 (S1 & T1 & K1 & M1 & P1 & _). rewrite <- T1. eapply wp_mono.
    - eapply (wp_freewalk s1 l1 A1 F); [done|..].
      + apply map_empty. intros vb. rewrite M1. destruct (map_range 0 (PGROUNDUP sz) vb) eqn:E; [done|].
        destruct (a_map A !! vb) eqn:Em; [|done]. exfalso.
        destruct (ai_va _ _ _ (proj2 Hsp) _ _ Em) as [Hr Hal]. apply (ai_map _ _ _ (proj2 Hsp)) in Em as [Em _].
        rewrite Hinv in Em; [done|done|done|]. apply not_true_iff_false in E. rewrite map_range_lt in E. lia.
      + intros va Hva Hal. rewrite T1, P1 by done. destruct (map_range 0 (PGROUNDUP sz) va) eqn:E; [done|].
        apply Hinv; [done|done|]. apply not_true_iff_false in E. rewrite map_range_lt in E. lia.
    - intros [] s2 (l2 & Hv2 & Hm2). exists l2. split; [done|]. intros p x Hp Hx.
      rewrite (Hm2 p) by done. by apply (K1 p). }
  pose proof (PGROUNDUP_range sz Hsz) as Hr. pose proof (PGROUNDUP_aligned sz) as Hal.
  pose proof (PGROUNDUP_bounds sz ltac:(lia) ltac:(unfold PGSIZE; lia)) as Hb.
  wp_steps. destruct (Z.ltb_spec 0 sz).
  - assert (PGROUNDUP sz / PGSIZE * PGSIZE = PGROUNDUP sz) as En
      by (revert Hal; unfold PGSIZE; intros; Z.div_mod_to_equations; lia).
    assert (0 <= PGROUNDUP sz / PGSIZE) as Hn by (apply Z.div_pos; [lia|done]).
    eapply wp_uvmunmap; rewrite ?Z.add_0_l, ?En; try done; lia.
  - assert (PGROUNDUP sz = 0) as E0 by (revert Hal; unfold PGSIZE in *; intros; Z.div_mod_to_equations; lia).
    apply (Hfw s l A). rewrite E0. by apply unmapped_refl.
Qed.

(** ** [proc_pagetable] and [proc_freepagetable] *)

Definition TRAMPOLINE_pte : Z := new_pte trampoline (Z.lor PTE_R PTE_X).
Definition TRAPFRAME_pte (tf : Z) : Z := new_pte tf (Z.lor PTE_R PTE_W).

Record upt (s : kst) (l : list Z) (A : aspace) (F : gmultiset Z) (sz tf : Z) : Prop := {
  up_space : space s l A F;
  up_sz : 0 <= sz <= TRAPFRAME;
  up_tf : page_ok tf;
  up_user : forall vb, vb mod PGSIZE = 0 -> 0 <= vb < PGROUNDUP sz -> is_Some (a_map A !! vb);
  up_tramp : pte_at (kmem_mem s) (a_T A) TRAMPOLINE = TRAMPOLINE_pte;
  up_frame : pte_at (kmem_mem s) (a_T A) TRAPFRAME = TRAPFRAME_pte tf;
  up_special : a_map A !! TRAMPOLINE = None /\ a_map A !! TRAPFRAME = None;
  up_free : forall vb, vb mod PGSIZE = 0 -> PGROUNDUP sz <= vb < TRAPFRAME ->
    has (pte_at (kmem_mem s) (a_T A) vb) PTE_V = false;
}.

Lemma trampoline_addr : page_addr trampoline /\ trampoline + PGSIZE <= 2 ^ 56.
Proof.
  pose proof trampoline_lo. pose proof trampoline_hi. pose proof kend_lo. pose proof kend_hi.
  unfold page_addr. split; [split; [|apply trampoline_aligned]|];
    unfold PHYSTOP, KERNBASE, PGSIZE in *; lia.
Qed.

Lemma special_flags pa perm :
  page_addr pa -> 0 <= perm < 1024 -> Z.lor perm PTE_V <> PTE_V ->
  has (new_pte pa perm) PTE_V = true /\ PTE_FLAGS (new_pte pa perm) <> PTE_V.
Proof.
  intros Hpa Hp Hne. unfold new_pte. rewrite <- Z.lor_assoc.
  rewrite has_V, PTE_flag_bit, Z.lor_spec, PTE_FLAGS_PA2PTE by (try apply flags_lor; (done || lia)).
  by rewrite orb_true_r.
Qed.

Lemma special_range : 0 <= TRAPFRAME < MAXVA /\ 0 <= TRAMPOLINE < MAXVA /\ TRAPFRAME mod PGSIZE = 0 /\
  TRAMPOLINE mod PGSIZE = 0 /\ TRAMPOLINE = TRAPFRAME + PGSIZE /\ TRAMPOLINE + PGSIZE = MAXVA.
Proof. by vm_compute. Qed.

Lemma wp_proc_freepagetable s l A F sz tf :
  upt s l A F sz tf ->
  wp (proc_freepagetable (t_root (a_T A)) sz) (fun _ s' => exists l', vm_inv s' l' F /\
    forall p x, p ∈ F -> in_page p x -> rd8 (kmem_mem s') x = rd8 (kmem_mem s) x) s.
Proof.
  intros [Hsp Hsz Htf Hu Htr Hfr [Hn1 Hn2] Hno]. unfold proc_freepagetable.
  destruct special_range as (R1 & R2 & R3 & R4 & R5 & R6). destruct trampoline_addr as [Ha1 _].
  destruct (special_flags trampoline (Z.lor PTE_R PTE_X) Ha1 ltac:(done) ltac:(done)) as [F1 F2].
  destruct (special_flags tf (Z.lor PTE_R PTE_W) (page_ok_addr _ Htf) ltac:(done) ltac:(done)) as [F3 F4].
  apply wp_bind. eapply wp_uvmunmap_special; [exact Hsp|done|done|done|by rewrite Htr|by rewrite Htr|].
  intros s1 S1 K1 P1. apply wp_bind.
  assert (pte_at (kmem_mem s1) (a_T A) TRAPFRAME = TRAPFRAME_pte tf) as E1.
  { rewrite P1 by done. destruct (Z.eqb_spec TRAPFRAME TRAMPOLINE); [unfold PGSIZE in *; lia|done]. }
  eapply wp_uvmunmap_special; [exact S1|done|done|done|by rewrite E1|by rewrite E1|].
  intros s2 S2 K2 P2. eapply wp_mono.
  - eapply (wp_uvmfree s2 l A F); [done|lia|]. split; [done|].
    intros vb Hvb Hal Hge. rewrite P2 by done. destruct (Z.eqb_spec vb TRAPFRAME); [done|].
    rewrite P1 by done. destruct (Z.eqb_spec vb TRAMPOLINE); [done|].
    apply Hno; [done|]. unfold PGSIZE in *. Z.div_mod_to_equations. lia.
  - intros [] s3 (l3 & Hv3 & Hm3). exists l3. split; [done|]. intros p x Hp Hx.
    rewrite (Hm3 p) by done. destruct (K2 p Hp) as [-> _]; [|done]. by apply (K1 p).
Qed.

(** An empty page table. *)
Definition empty_as (p : Z) : aspace := mkA (mkT p ∅ ∅) ∅.

Lemma pte_empty m p va : pte_at m (mkT p ∅ ∅) va = 0.
Proof. unfold pte_at, leaf. cbn. by rewrite lookup_empty. Qed.

Lemma pt_page_empty p q : pt_page (mkT p ∅ ∅) q <-> q = p.
Proof.
  unfold pt_page. cbn. split; [|by left]. intros [?|[[? E]|[? E]]]; [done|by rewrite lookup_empty in E..].
Qed.

Lemma pt_rep_empty m p : page_ok p -> (forall x, in_page p x -> rd8 m x = 0) -> pt_rep m (mkT p ∅ ∅).
Proof.
  intros Hp Hz. split; cbn; try (by intros *; rewrite ?lookup_empty).
  - intros i Hi. rewrite lookup_empty. apply zero_entry, load64_zero. intros x Hx. apply Hz. by eapply entry_in_page.
  - by intros q ->%pt_page_empty.
Qed.

Lemma empty_own p : own (empty_as p) = {[+ p +]}.
Proof.
  unfold own, own_map, empty_as, pt_pages. cbn [a_T a_map t_root t_l1 t_l0]. rewrite !map_to_list_empty.
  cbn [fmap list_fmap app list_to_set_disj]. by rewrite !(right_id_L ∅ (⊎)).
Qed.

Lemma empty_space s l p F :
  vm_inv s l ({[+ p +]} ⊎ F) -> p ∉ F -> (forall x, in_page p x -> rd8 (kmem_mem s) x = 0) -> space s l (empty_as p) F.
Proof.
  intros Hv Hn Hz. unfold space. rewrite empty_own. split; [done|].
  assert (page_ok p) as Hp by (apply (vi_ok _ _ _ Hv), ms_in_singleton).
  split; unfold empty_as; cbn [a_T a_map]; try (by intros *; rewrite lookup_empty).
  - by apply pt_rep_empty.
  - intros q ->%pt_page_empty. by rewrite mult_add_eq, mult_0.
Qed.

Lemma wp_uvmcreate s l F (Q : Z -> kst -> Prop) :
  vm_inv s l F -> (l = [] -> Q 0 s) ->
  (forall s' l' p, space s' l' (empty_as p) F -> p <> 0 ->
     (forall q x, q ∈ F -> in_page q x -> rd8 (kmem_mem s') x = rd8 (kmem_mem s) x) ->
     (forall q, q ∈ F -> multiplicity q (own (empty_as p) ⊎ F) = multiplicity q F) -> Q p s') ->
  wp uvmcreate Q s.
Proof.
  intros Hv H0 H1. unfold uvmcreate. wp_steps. eapply wp_kalloc_own; [done|intros ->; cbn; wp_steps; auto|].
  intros p l' s1 -> Hv1 Hn Hp Hch. pose proof (page_ok_pos _ Hp). destruct (Z.eqb_spec p 0); [lia|].
  wp_steps. split; [done|]. wp_steps. eapply (H1 _ l'); [|done|..].
  - apply empty_space; [|done|].
    + apply vm_inv_mem; [done|]. intros x Hx. apply rd8_memset_out; [done|]. apply (Hx p), ms_in_singleton.
    + intros x Hx. cbn. by rewrite rd8_memset_in.
  - intros q x Hq Hx. cbn. assert (~ in_page p x).
    { apply (page_disjoint q p); [by apply (vi_ok _ _ _ Hv)|apply Hp|congruence|done]. }
    rewrite rd8_memset_out by done. by apply Hch.
  - intros q Hq. rewrite empty_own, mult_add_ne by congruence. done.
Qed.

Lemma PGROUNDUP_0 : PGROUNDUP 0 = 0.
Proof. by apply PGROUNDUP_id. Qed.

(** What a failed [proc_pagetable] leaves behind. *)
Definition released (s : kst) (F : gmultiset Z) (s' : kst) : Prop :=
  exists l', vm_inv s' l' F /\ forall p x, p ∈ F -> in_page p x -> rd8 (kmem_mem s') x = rd8 (kmem_mem s) x.

Lemma released_trans s F s1 s2 :
  (forall p x, p ∈ F -> in_page p x -> rd8 (kmem_mem s1) x = rd8 (kmem_mem s) x) -> released s1 F s2 -> released s F s2.
Proof. intros H1 (l2 & Hv & Hm). exists l2. split; [done|]. intros p x Hp Hx. rewrite (Hm p) by done. by apply (H1 p). Qed.

Lemma special_map_ok O pa perm : has perm PTE_U = false -> map_ok O pa perm None.
Proof. done. Qed.

Lemma wp_proc_pagetable s l F tf (Q : Z -> kst -> Prop) :
  vm_inv s l F -> page_ok tf ->
  (forall s', released s F s' -> Q 0 s') ->
  (forall s' l' A, upt s' l' A F 0 tf -> a_map A = ∅ -> t_root (a_T A) <> 0 ->
     (forall p x, p ∈ F -> in_page p x -> rd8 (kmem_mem s') x = rd8 (kmem_mem s) x) ->
     (forall p, p ∈ F -> multiplicity p (own A ⊎ F) = multiplicity p F) -> Q (t_root (a_T A)) s') ->
  wp (proc_pagetable tf) Q s.
Proof.
  intros Hv Htf H0 H1. unfold proc_pagetable. pose proof (page_ok_pos _ Htf) as Hpos.
  destruct special_range as (R1 & R2 & R3 & R4 & R5 & R6). destruct trampoline_addr as [Ha1 Ha2].
  apply wp_bind. eapply wp_uvmcreate; [done|..].
  { intros _. cbn. wp_steps. apply H0. exists l. done. }
  intros s1 l1 p S1 Hp0 M1 U1. destruct (Z.eqb_spec p 0); [done|].
  assert (forall q, q ∈ F -> q ∈ own (empty_as p) ⊎ F) as HF by (intros; by apply ms_in_r).
  assert (forall A, t_root (a_T A) = p -> a_map A = ∅ -> forall s2 l2, space s2 l2 A F ->
    (forall vb, 0 <= vb < MAXVA -> vb mod PGSIZE = 0 -> has (pte_at (kmem_mem s2) (a_T A) vb) PTE_V = false) ->
    (forall q x, q ∈ F -> in_page q x -> rd8 (kmem_mem s2) x = rd8 (kmem_mem s) x) ->
    wp (uvmfree p 0;; mret 0) Q s2) as Hfail.
  { intros A Er Em s2 l2 S2 Hz M2. apply wp_bind. rewrite <- Er. eapply wp_mono; [apply (wp_uvmfree s2 l2 A F 0 S2)|].
    - done.
    - split; [|by auto]. intros vb _ Hr. rewrite PGROUNDUP_0 in Hr. lia.
    - intros [] s3 Hrel. wp_steps. apply H0. eapply released_trans; [exact M2|done]. }
  apply wp_bind. change p with (t_root (a_T (empty_as p))) at 1.
  eapply (wp_mappages1 s1 l1 (empty_as p) F TRAMPOLINE trampoline (Z.lor PTE_R PTE_X) None);
    [exact S1|done|done| |done|done|done|done|..].
  { cbn. by rewrite pte_empty. }
  2: { intros s2 l2 T2 S2 E2 St2 Hu2 _ _. cbn [Z.ltb Z.compare]. eapply (Hfail (mkA T2 (a_map (empty_as p)))); try done.
       - intros vb Hvb Hal. rewrite Hu2 by done. cbn. by rewrite pte_empty.
       - intros q x Hq Hx. rewrite <- (M1 q) by done.
         by apply (stepped_keeps _ _ _ _ _ (proj2 S1) St2 q). }
  intros s2 l2 T2 S2 E2 St2 Hu2 _. cbn [Z.ltb Z.compare].
  set (A2 := mkA T2 (set_page (a_map (empty_as p)) TRAMPOLINE None)) in *.
  assert (a_map A2 = ∅) as EA2 by (unfold A2; cbn; apply delete_empty).
  pose proof (stepped_keeps _ _ _ _ _ (proj2 S1) St2) as K2.
  assert (forall q x, q ∈ F -> in_page q x -> rd8 (kmem_mem s2) x = rd8 (kmem_mem s) x) as M2.
  { intros q x Hq Hx. rewrite <- (M1 q) by done. by apply (K2 q). }
  apply wp_bind. change p with (t_root (a_T (empty_as p))) at 1. rewrite <- E2. change T2 with (a_T A2).
  assert (forall vb, 0 <= vb < MAXVA -> vb mod PGSIZE = 0 -> vb <> TRAMPOLINE -> pte_at (kmem_mem s2) (a_T A2) vb = 0) as Hz2.
  { intros vb Hvb Hal Hne. unfold A2. cbn. rewrite Hu2 by done. destruct (Z.eqb_spec vb TRAMPOLINE); [done|]. apply pte_empty. }
  assert (TRAPFRAME <> TRAMPOLINE) as Hne by (unfold PGSIZE in *; lia).
  assert (pte_at (kmem_mem s2) (a_T A2) TRAMPOLINE = TRAMPOLINE_pte) as Etr.
  { unfold A2. cbn. rewrite Hu2, Z.eqb_refl by done. done. }
  eapply (wp_mappages1 s2 l2 A2 F TRAPFRAME tf (Z.lor PTE_R PTE_W) None);
    [exact S2|done|done| |by apply page_ok_addr|unfold PGSIZE; lia|done|done|..].
  { by rewrite Hz2. }
  - intros s3 l3 T3 S3 E3 St3 Hu3 _. cbn [Z.ltb Z.compare]. wp_steps.
    set (A3 := mkA T3 (set_page (a_map A2) TRAPFRAME None)) in *.
    assert (a_map A3 = ∅) as EA3 by (unfold A3; cbn [set_page a_map]; rewrite EA2; apply delete_empty).
    assert (t_root (a_T A3) = p) as Er by (unfold A3; cbn; rewrite E3; unfold A2; cbn; by rewrite E2).
    rewrite <- Er. apply (H1 s3 l3 A3); [|done|congruence|..].
    + assert (forall vb, 0 <= vb < MAXVA -> vb mod PGSIZE = 0 -> pte_at (kmem_mem s3) (a_T A3) vb =
        if vb =? TRAPFRAME then TRAPFRAME_pte tf else pte_at (kmem_mem s2) (a_T A2) vb) as P3.
      { intros vb Hvb Hal. unfold A3. cbn. by rewrite Hu3. }
      split; try done.
      * intros vb _ Hr. rewrite PGROUNDUP_0 in Hr. lia.
      * rewrite P3 by done. destruct (Z.eqb_spec TRAMPOLINE TRAPFRAME); [congruence|done].
      * by rewrite P3, Z.eqb_refl.
      * intros vb Hal Hr. rewrite PGROUNDUP_0 in Hr. rewrite P3 by (done || lia).
        destruct (Z.eqb_spec vb TRAPFRAME); [lia|]. rewrite Hz2; [done|lia|done|]. unfold PGSIZE in *. lia.
    + intros q x Hq Hx. rewrite <- (M2 q) by done. by apply (stepped_keeps _ _ _ _ _ (proj2 S2) St3 q).
    + intros q Hq. rewrite (st_mult _ _ _ _ _ St3) by (by apply ms_in_r). rewrite (st_mult _ _ _ _ _ St2) by auto. by apply U1.
  - intros s3 l3 T3 S3 E3 St3 Hu3 _ _. cbn [Z.ltb Z.compare].
    set (A3 := mkA T3 (a_map A2)) in *. destruct (special_flags trampoline (Z.lor PTE_R PTE_X) Ha1 ltac:(done) ltac:(done)) as [F1 F2].
    assert (forall vb, 0 <= vb < MAXVA -> vb mod PGSIZE = 0 -> pte_at (kmem_mem s3) (a_T A3) vb = pte_at (kmem_mem s2) (a_T A2) vb) as P3.
    { intros vb Hvb Hal. unfold A3. cbn. by rewrite Hu3. }
    assert (t_root (a_T A3) = p) as Er by (unfold A3; cbn; rewrite E3; unfold A2; cbn; by rewrite E2).
    apply wp_bind. rewrite <- Er at 1.
    eapply wp_uvmunmap_special; [exact S3|done|done|unfold A3; cbn [a_map]; by rewrite EA2|by rewrite P3, Etr|by rewrite P3, Etr|].
    intros s4 S4 K4 P4. eapply (Hfail A3); try done.
    + intros vb Hvb Hal. rewrite P4 by done. destruct (Z.eqb_spec vb TRAMPOLINE); [done|]. by rewrite P3, Hz2.
    + intros q x Hq Hx. destruct (K4 q Hq) as [-> _]; [|done]. rewrite <- (M2 q) by done.
      by apply (stepped_keeps _ _ _ _ _ (proj2 S2) St3 q).
Qed.

End procpt.
