(* ===== verification/VmDec.v ===== *)
(** * VmDec: deciding the address-space invariants

    Boolean versions of [pt_rep], [kmem_inv], [vm_inv], [as_inv] and
    [space], with their soundness: the invariants of a concrete memory are
    established by evaluation. *)

From stdpp Require Import base list gmap gmultiset strings.
From Stdlib Require Import ZArith Lia.
From S2P Require Import Prelude CMem Riscv Spinlock Kalloc Vm PageTable AddrSpace.

Definition va_of (i j k : Z) : Z := i * 2 ^ 30 + j * 2 ^ 21 + k * 2 ^ 12.

(** Memory is sparse: a slot of page [t] none of whose bytes is present
    holds 0.  [slotsb m t f] checks [f] on the other slots. *)
Definition slotsb (m : mem) (t : Z) (f : Z -> bool) : bool :=
  forallb (fun '(x, _) => negb ((t <=? x) && (x <? t + PGSIZE)) || f ((x - t) / 8)) (map_to_list m).

Lemma load64_present m a : load64 m a <> 0 -> exists x, a <= x < a + 8 /\ is_Some (m !! x).
Proof.
  intros Hl. destruct (decide (Exists (fun x => is_Some (m !! x)) (seqZ a 8))) as [He|He].
  - apply Exists_exists in He as (x & Hx%elem_of_seqZ & Hs). exists x. split; [lia|done].
  - exfalso. apply Hl, load64_zero. intros x Hx. unfold rd8. destruct (m !! x) eqn:E; [|done].
    exfalso. apply He, Exists_exists. exists x. split; [apply elem_of_seqZ; lia|by eexists].
Qed.

Section dec.
Context `{L : Layout} {LO : LayoutOk L}.

(** ** Boolean invariants *)

Definition page_okb (p : Z) : bool := (p mod PGSIZE =? 0) && (kend <=? p) && (p <? PHYSTOP).

Definition entryb (m : mem) (a : Z) (o : option Z) : bool :=
  let v := load64 m a in
  match o with
  | Some t => has v PTE_V && (PTE2PA v =? t) && (Z.land v (Z.lor (Z.lor PTE_R PTE_W) PTE_X) =? 0)
  | None => negb (has v PTE_V)
  end.

Definition pt_repb (m : mem) (T : ptree) : bool :=
  slotsb m (t_root T) (fun i => entryb m (t_root T + 8 * i) (t_l1 T !! i)) &&
  forallb (fun '(i, t) => (0 <=? i) && (i <? 256) && entryb m (t_root T + 8 * i) (Some t) &&
    slotsb m t (fun j => entryb m (t + 8 * j) (t_l0 T !! (i, j)))) (map_to_list (t_l1 T)) &&
  forallb (fun '(i, j, u) => (0 <=? j) && (j <? 512) &&
    match t_l1 T !! i with Some t => entryb m (t + 8 * j) (Some u) | None => false end) (map_to_list (t_l0 T)) &&
  forallb page_okb (pt_pages T) && bool_decide (NoDup (pt_pages T)).

Fixpoint chainb (m : mem) (h : Z) (l : list Z) : bool :=
  match l with
  | [] => h =? 0
  | p :: l' => (h =? p) && chainb m (load64 m p) l'
  end.

Definition kmem_invb (s : kst) (l : list Z) : bool :=
  negb (kmem_lock s) && chainb (kmem_mem s) (freelist s) l && bool_decide (NoDup l) &&
  forallb (fun p => page_okb p && (num_ref s (p / PGSIZE) =? 0)) l &&
  forallb (fun '(_, n) => 0 <=? n) (map_to_list (num_ref_to_page s)).

(** The pages [kinit] finds. *)
Definition all_pages : list Z :=
  (fun k => PGROUNDUP kend + k * PGSIZE) <$> seqZ 0 ((PHYSTOP - PGROUNDUP kend) / PGSIZE).

Definition vm_invb (s : kst) (l : list Z) (O : gmultiset Z) : bool :=
  kmem_invb s l && forallb page_okb (elements O) &&
  forallb (fun p => (num_ref s (p / PGSIZE) =? Z.of_nat (multiplicity p O)) &&
    (bool_decide (p ∈ O) || bool_decide (p ∈ l))) all_pages.

Definition as_invb (m : mem) (A : aspace) (O : gmultiset Z) : bool :=
  pt_repb m (a_T A) &&
  forallb (fun p => multiplicity p O =? 1)%nat (pt_pages (a_T A)) &&
  forallb (fun '(va, pa) => let v := pte_at m (a_T A) va in
    (0 <=? va) && (va <? MAXVA) && (va mod PGSIZE =? 0) && has v PTE_V && negb (PTE_FLAGS v =? PTE_V) &&
    (PTE2PA v =? pa) && (has v PTE_COW || (multiplicity pa O =? 1)%nat)) (map_to_list (a_map A)) &&
  forallb (fun '(i, j, u) => slotsb m u (fun k => let v := load64 m (u + 8 * k) in
    negb (has v PTE_V && has v PTE_U) || bool_decide (a_map A !! va_of i j k = Some (PTE2PA v))))
    (map_to_list (t_l0 (a_T A))).

Definition spaceb (s : kst) (l : list Z) (A : aspace) (F : gmultiset Z) : bool :=
  vm_invb s l (own A ⊎ F) && as_invb (kmem_mem s) A (own A ⊎ F).

(** ** Soundness *)

Lemma forallb_elem {X} (f : X -> bool) (l : list X) x : forallb f l = true -> x ∈ l -> f x = true.
Proof. rewrite forallb_forall. intros H Hx. apply H. by apply list_elem_of_In. Qed.

Lemma forallb_map {K V} `{Countable K} (f : K * V -> bool) (m : gmap K V) k v :
  forallb f (map_to_list m) = true -> m !! k = Some v -> f (k, v) = true.
Proof. intros Hf Hk. eapply forallb_elem; [done|]. by apply elem_of_map_to_list. Qed.

Lemma page_okb_sound p : page_okb p = true -> page_ok p.
Proof. unfold page_okb, page_ok. intros H. zb. lia. Qed.

Lemma entryb_sound m a o : entryb m a o = true -> entry m a o.
Proof.
  unfold entryb, entry. destruct o; intros H.
  - apply andb_true_iff in H as [H H3]. apply andb_true_iff in H as [H1 H2]. zb. done.
  - by apply negb_true_iff in H.
Qed.

(** A slot is checked, or holds 0. *)
Lemma slotsb_sound m t f j :
  slotsb m t f = true -> idx j -> f j = true \/ load64 m (t + 8 * j) = 0.
Proof.
  intros Hf Hj. destruct (decide (load64 m (t + 8 * j) = 0)) as [|Hnz]; [by right|left].
  destruct (load64_present _ _ Hnz) as (x & Hx & [b Hb]). apply (forallb_map _ _ _ _ Hf) in Hb.
  unfold idx, PGSIZE in *.
  destruct (Z.leb_spec t x), (Z.ltb_spec x (t + 4096)); try lia. cbn [negb andb orb] in Hb.
  replace j with ((x - t) / 8); [done|]. Z.div_mod_to_equations. lia.
Qed.

Lemma entry_slots m t (C : Z -> option Z) j :
  slotsb m t (fun i => entryb m (t + 8 * i) (C i)) = true -> idx j ->
  (forall c, C j = Some c -> entryb m (t + 8 * j) (Some c) = true) -> entry m (t + 8 * j) (C j).
Proof.
  intros Hs Hj Hc. destruct (slotsb_sound _ _ _ j Hs Hj) as [H|H]; [by apply entryb_sound|].
  destruct (C j) as [c|] eqn:E; [by apply entryb_sound, Hc|]. unfold entry. by rewrite H.
Qed.

Lemma snd_inj {K} `{Countable K} (m : gmap K Z) i j p :
  NoDup (map_to_list m).*2 -> m !! i = Some p -> m !! j = Some p -> i = j.
Proof.
  intros Hnd Hi%elem_of_map_to_list Hj%elem_of_map_to_list.
  apply list_elem_of_lookup in Hi as [a Ha], Hj as [b Hb].
  assert (a = b) as ->.
  { eapply NoDup_lookup; [exact Hnd|rewrite list_lookup_fmap, Ha; done|rewrite list_lookup_fmap, Hb; done]. }
  congruence.
Qed.

Lemma pt_repb_sound m T : pt_repb m T = true -> pt_rep m T.
Proof.
  unfold pt_repb. intros H. apply andb_true_iff in H as [H Hnd]. apply andb_true_iff in H as [H Hok].
  apply andb_true_iff in H as [H H0]. apply andb_true_iff in H as [Hr H1].
  apply bool_decide_eq_true in Hnd. unfold pt_pages in Hnd. apply NoDup_cons in Hnd as [Hroot Hnd].
  apply NoDup_app in Hnd as (Hn1 & Hd & Hn0). rewrite elem_of_app, !list_elem_of_fmap in Hroot.
  assert (forall i p, t_l1 T !! i = Some p -> p ∈ (map_to_list (t_l1 T)).*2) as I1.
  { intros i p Hp. apply list_elem_of_fmap. exists (i, p). split; [done|]. by apply elem_of_map_to_list. }
  assert (forall k p, t_l0 T !! k = Some p -> p ∈ (map_to_list (t_l0 T)).*2) as I0.
  { intros k p Hp. apply list_elem_of_fmap. exists (k, p). split; [done|]. by apply elem_of_map_to_list. }
  split.
  - intros i Hi. apply (entry_slots _ _ (fun i => t_l1 T !! i)); [done|done|]. intros t Ht.
    apply (forallb_map _ _ _ _ H1) in Ht. by zb.
  - intros i t j Ht Hj. pose proof Ht as Ht'. apply (forallb_map _ _ _ _ H1) in Ht. apply andb_true_iff in Ht as [_ Ht].
    apply (entry_slots _ _ (fun j => t_l0 T !! (i, j))); [done|done|]. intros u Hu.
    apply (forallb_map _ _ _ _ H0) in Hu. cbv beta iota in Hu. rewrite Ht' in Hu. by zb.
  - intros i t Ht. apply (forallb_map _ _ _ _ H1) in Ht. zb. lia.
  - intros i j u Hu. apply (forallb_map _ _ _ _ H0) in Hu. apply andb_true_iff in Hu as [Hj Hs].
    split; [unfold idx; zb; lia|]. by destruct (t_l1 T !! i).
  - intros p Hp%elem_of_pt_pages. by apply page_okb_sound, (forallb_elem _ _ p Hok).
  - intros i j p. by apply snd_inj.
  - intros k k' p. by apply snd_inj.
  - intros i Hi%I1. apply Hroot. left. by apply list_elem_of_fmap in Hi.
  - intros k Hk%I0. apply Hroot. right. by apply list_elem_of_fmap in Hk.
  - intros i k p Hi%I1 Hk%I0. by apply (Hd p).
Qed.

Lemma chainb_sound m h l : chainb m h l = true -> chain m h l.
Proof.
  revert h. induction l as [|p l IH]; cbn; intros h H; [by apply Z.eqb_eq|].
  apply andb_true_iff in H as [H1 H2]. zb. auto.
Qed.

Lemma kmem_invb_sound s l : kmem_invb s l = true -> kmem_inv s l.
Proof.
  unfold kmem_invb. intros H. apply andb_true_iff in H as [H H4]. apply andb_true_iff in H as [H H3].
  apply andb_true_iff in H as [H H2]. apply andb_true_iff in H as [H0 H1].
  apply bool_decide_eq_true in H2. split; [by apply negb_true_iff|by apply chainb_sound|done|..].
  - intros p Hp. apply (forallb_elem _ _ p H3) in Hp. apply andb_true_iff in Hp as [Hp _]. by apply page_okb_sound.
  - intros p Hp. apply (forallb_elem _ _ p H3) in Hp. apply andb_true_iff in Hp as [_ Hp]. by zb.
  - intros i. unfold num_ref. destruct (num_ref_to_page s !! i) as [n|] eqn:E; [|done].
    apply (forallb_map _ _ _ _ H4) in E. by zb.
Qed.

Lemma elem_all_pages p : page_ok p -> p ∈ all_pages.
Proof.
  intros [Hal Hr]. unfold all_pages. apply list_elem_of_fmap.
  pose proof etext_lo. pose proof kend_lo. pose proof kend_hi.
  assert (0 <= kend < 2 ^ 32) as Hk by (unfold PHYSTOP, KERNBASE in *; lia).
  pose proof (PGROUNDUP_bounds (@kend L) ltac:(lia) ltac:(unfold PGSIZE; lia)) as Hb.
  pose proof (PGROUNDUP_aligned (@kend L)) as Ha.
  exists ((p - PGROUNDUP kend) / PGSIZE). rewrite elem_of_seqZ.
  assert (PHYSTOP mod PGSIZE = 0) as Hs by done. unfold PGSIZE in *. clear -Hal Hr Hb Ha Hs.
  split; Z.div_mod_to_equations; lia.
Qed.

Lemma vm_invb_sound s l O : vm_invb s l O = true -> vm_inv s l O.
Proof.
  unfold vm_invb. intros H. apply andb_true_iff in H as [H H3]. apply andb_true_iff in H as [H1%kmem_invb_sound H2].
  assert (forall p, page_ok p -> num_ref s (p / PGSIZE) = Z.of_nat (multiplicity p O) /\ (p ∈ O \/ p ∈ l)) as Hp.
  { intros p Hp%elem_all_pages. apply (forallb_elem _ _ p H3) in Hp. apply andb_true_iff in Hp as [Ha Hb].
    zb. split; [done|]. apply orb_true_iff in Hb as [Hb|Hb]; apply bool_decide_eq_true in Hb; auto. }
  split; [done|..].
  - intros p Hin%gmultiset_elem_of_elements. by apply page_okb_sound, (forallb_elem _ _ p H2).
  - intros p Hpo. by apply Hp.
  - intros p Hpo Hn. by destruct (Hp p Hpo) as [_ [?|?]].
Qed.

Lemma as_invb_sound m A O : as_invb m A O = true -> as_inv m A O.
Proof.
  unfold as_invb. intros H. apply andb_true_iff in H as [H H4]. apply andb_true_iff in H as [H H3].
  apply andb_true_iff in H as [H1 H2]. pose proof (pt_repb_sound _ _ H1) as HR.
  assert (forall va pa, a_map A !! va = Some pa ->
    (0 <= va < MAXVA /\ va mod PGSIZE = 0) /\ (has (pte_at m (a_T A) va) PTE_V = true /\
    PTE_FLAGS (pte_at m (a_T A) va) <> PTE_V /\ PTE2PA (pte_at m (a_T A) va) = pa) /\
    (has (pte_at m (a_T A) va) PTE_COW = false -> multiplicity pa O = 1%nat)) as Hm.
  { intros va pa Hva. apply (forallb_map _ _ _ _ H3) in Hva. apply andb_true_iff in Hva as [Hva Hc].
    zb. split; [lia|]. split; [done|]. intros E. rewrite E in Hc. by apply Nat.eqb_eq in Hc. }
  split; [done|..].
  - intros p Hp%elem_of_pt_pages. apply (forallb_elem _ _ p H2) in Hp. by apply Nat.eqb_eq in Hp.
  - intros va pa Hva. by destruct (Hm _ _ Hva) as (? & _).
  - intros va pa Hva. by destruct (Hm _ _ Hva) as (_ & ? & _).
  - intros va pa Hva Hal. unfold upage, pte_at, leaf. destruct (t_l0 (a_T A) !! _) as [u|] eqn:E; [|done]. cbn.
    apply (forallb_map _ _ _ _ H4) in E. cbv beta iota in E.
    apply (slotsb_sound _ _ _ (PX 0 va)) in E as [E| ->]; cbv beta zeta in *; [|done|by apply idx_PX].
    assert (va_of (PX 2 va) (PX 1 va) (PX 0 va) = va) as Eva.
    { unfold va_of. rewrite (PX_split va) at 4 by done. lia. }
    rewrite Eva in E. case_if; [|done]. intros [= <-]. cbn in E. by apply bool_decide_eq_true in E.
  - intros va pa Hva. by destruct (Hm _ _ Hva) as (_ & _ & ?).
Qed.

Lemma spaceb_sound s l A F : spaceb s l A F = true -> space s l A F.
Proof. intros [H1%vm_invb_sound H2%as_invb_sound]%andb_true_iff. done. Qed.

End dec.
