(* ===== verification/Isolation.v ===== *)
(** * Isolation: the theorems on address spaces

    Memory isolation between processes under copy-on-write, the exactness of
    [copyin] and [copyout], and that page tables give back every page.  The
    witnesses are about [Demo], a small machine with a process before and
    after a fork. *)

From stdpp Require Import base list gmap gmultiset strings.
From Stdlib Require Import ZArith Lia.
From S2P Require Import Prelude CMem Riscv Spinlock Kalloc Vm PageTable AddrSpace Cow Uvm Uvmcopy Freewalk ProcPt VmDec.
Import CString.

(** ** A small machine

    Sixteen pages.  [s0]: two processes, each with its page table, its
    trapframe, the trampoline and one user page at address [PGSIZE], which
    they share copy-on-write; the other pages are free.  [s1]: one process
    with user pages at addresses 0 and [PGSIZE], and an empty page table. *)

Module Demo.

Import Tiny.

(** A page table with root [r]: low addresses through [t], [u], the top two
    pages through [t'], [u']; user page number [k] has entry [v]. *)
Definition table (r t u t' u' tf k v : Z) (m : mem) : mem :=
  let m := store64 m r (Z.lor (PA2PTE t) PTE_V) in
  let m := store64 m t (Z.lor (PA2PTE u) PTE_V) in
  let m := store64 m (u + 8 * k) v in
  let m := store64 m (r + 8 * 255) (Z.lor (PA2PTE t') PTE_V) in
  let m := store64 m (t' + 8 * 511) (Z.lor (PA2PTE u') PTE_V) in
  let m := store64 m (u' + 8 * 511) TRAMPOLINE_pte in
  store64 m (u' + 8 * 510) (TRAPFRAME_pte tf).

Definition tree (r t u t' u' : Z) : ptree :=
  mkT r {[0 := t; 255 := t']} {[(0, 0) := u; (255, 511) := u']}.

(** The shared page, holding "hi", and its entry. *)
Definition shared : Z := page 10.
Definition cow_entry : Z := Z.lor (PA2PTE shared) (Z.lor (Z.lor PTE_V PTE_R) (Z.lor PTE_U PTE_COW)).

Definition m0 : mem :=
  let m := wrbytes ∅ shared [104; 105] in
  let m := table (page 0) (page 1) (page 2) (page 3) (page 4) (page 11) 1 cow_entry m in
  let m := table (page 5) (page 6) (page 7) (page 8) (page 9) (page 12) 1 cow_entry m in
  let m := store64 m (page 13) (page 14) in
  store64 m (page 14) (page 15).

Definition s0 : kst :=
  mkK m0 (page 13)
    (list_to_map ((page 10 / PGSIZE, 2) :: ((fun k => (page k / PGSIZE, 1)) <$> [0; 1; 2; 3; 4; 5; 6; 7; 8; 9; 11; 12])))
    false.

Definition l0 : list Z := [page 13; page 14; page 15].
Definition A0 : aspace := mkA (tree (page 0) (page 1) (page 2) (page 3) (page 4)) {[PGSIZE := shared]}.
Definition B0 : aspace := mkA (tree (page 5) (page 6) (page 7) (page 8) (page 9)) {[PGSIZE := shared]}.
(** The trapframes belong to the kernel. *)
Definition F0 : gmultiset Z := {[+ page 11; page 12 +]}.

Lemma two0 : two s0 l0 A0 B0 F0.
Proof.
  split; [apply spaceb_sound|apply as_invb_sound]; vm_compute; reflexivity.
Qed.

(** Before the fork. *)
Definition chain (l : list Z) (m : mem) : mem :=
  foldr (fun '(p, q) m => store64 m p q) m (zip l (tail l)).

Definition user_entry (pa : Z) : Z := Z.lor (PA2PTE pa) (Z.lor (Z.lor PTE_V PTE_R) (Z.lor PTE_U PTE_W)).

Definition l1 : list Z := page <$> [6; 7; 8; 9; 13; 14; 15].

Definition m1 : mem :=
  let m := table (page 0) (page 1) (page 2) (page 3) (page 4) (page 11) 0 (user_entry shared) (wrbytes ∅ shared [104; 105]) in
  chain l1 (store64 m (page 2 + 8) (user_entry (page 12))).

Definition s1 : kst :=
  mkK m1 (page 6) (list_to_map ((fun k => (page k / PGSIZE, 1)) <$> [0; 1; 2; 3; 4; 5; 10; 11; 12])) false.

Definition A1 : aspace := mkA (tree (page 0) (page 1) (page 2) (page 3) (page 4)) {[0 := shared; PGSIZE := page 12]}.
Definition B1 : aspace := mkA (mkT (page 5) ∅ ∅) ∅.
Definition F1 : gmultiset Z := {[+ page 11 +]}.

Lemma two1 : two s1 l1 A1 B1 F1.
Proof.
  split; [apply spaceb_sound|apply as_invb_sound]; vm_compute; reflexivity.
Qed.

Lemma first_pages vb : vb mod PGSIZE = 0 -> 0 <= vb < 2 * PGSIZE -> vb = 0 \/ vb = PGSIZE.
Proof. unfold PGSIZE. intros Hm Hr. Z.div_mod_to_equations. lia. Qed.

Lemma refs1 p : p ∈ own A1 -> num_ref s1 (p / PGSIZE) + pages_of (2 * PGSIZE) < INT_MAX.
Proof.
  intros _. assert (map_Forall (fun _ n => n = 1) (num_ref_to_page s1)) as H.
  { apply (bool_decide_eq_true_1 (map_Forall (fun _ n => n = 1) (num_ref_to_page s1))). vm_compute. reflexivity. }
  change (pages_of (2 * PGSIZE)) with 2. unfold num_ref.
  destruct (num_ref_to_page s1 !! (p / PGSIZE)) as [n|] eqn:E; cbn; [|done]. by rewrite (H _ _ E).
Qed.

(** The second page can be written. *)
Lemma writable1 x s' : PGSIZE <= x < 2 * PGSIZE -> ~ refused s1 (a_T A1) x s'.
Proof.
  intros Hx. assert (PGROUNDDOWN x = PGSIZE) as E by (apply same_page; [done|lia]).
  assert (has (pte_at (kmem_mem s1) (a_T A1) PGSIZE) PTE_COW = false) as Hc by (vm_compute; reflexivity).
  assert (upage (kmem_mem s1) (a_T A1) PGSIZE = Some (page 12)) as Hu by (vm_compute; reflexivity).
  unfold refused. rewrite E, <- (pte_page _ _ x), E, Hc. intros [?|[Hn|[? _]]]; [done| |done]. revert Hn. unfold uview.
  assert ((0 <=? x) && (x <? MAXVA) = true) as ->.
  { change MAXVA with (2 ^ 38). unfold PGSIZE in *. destruct (Z.leb_spec 0 x), (Z.ltb_spec x (2 ^ 38)); lia. }
  rewrite E, Hu. generalize (kmem_mem s1). intros m Hn. discriminate Hn.
Qed.

End Demo.

Section theorems.
Context `{L : Layout} {LO : LayoutOk L}.

(** C1: memory isolation of [copyout]. Whatever the destination address and
    the bytes, [copyout] into the address space [A] returns (it never panics,
    faults or loops), and every other address space [B] is still well-formed
    and reads exactly the bytes it read before; [A] itself reads the bytes
    copied so far at the destination (all of them when the result is 0) and
    its old bytes everywhere else.  It stops early only at an address that is
    on page 0, is not mapped for user access, or is on a copy-on-write page
    when no page is free. *)
Theorem copyout_isolation s l A B F dstva src :
  two s l A B F -> 0 <= dstva < 2 ^ 64 -> Z.of_nat (length src) < 2 ^ 64 ->
  wp (copyout (t_root (a_T A)) dstva src) (fun r s' => exists k l' A',
    (r = 0 /\ k = length src \/ r = -1 /\ (k < length src)%nat /\ refused s (a_T A) (dstva + Z.of_nat k) s') /\
    two s' l' A' B F /\ a_T A' = a_T A /\
    (forall x, uview (kmem_mem s') (a_T A) x = patch (uview (kmem_mem s) (a_T A)) dstva (take k src) x) /\
    (forall x, uview (kmem_mem s') (a_T B) x = uview (kmem_mem s) (a_T B) x)) s.
Proof.
  intros H2 Hd Hl. pose proof (two_left _ _ _ _ _ H2) as Hs.
  eapply wp_mono; [by apply (wp_copyout s l A (own B ⊎ F))|].
  intros r s' (k & (l' & A' & S' & T' & _ & K' & _ & V') & Hr).
  destruct (two_step _ _ _ _ _ _ _ _ H2 S' K') as (H2' & _ & VB).
  exists k, l', A'. do 3 (split; [done|]). done.
Qed.

(** C7: [uvmcopy] as [fork] uses it. It returns, and either (result 0) the
    child maps the parent's pages and reads the same bytes as the parent
    below [sz], both without write permission, or (result -1, out of memory)
    the child reads what it read before, but one page [pa] of the parent
    keeps a reference that nobody holds; the parent's view and every other
    address space's stay the same in both cases. *)
Theorem uvmcopy_shares s l A B F sz :
  two s l A B F -> 0 <= sz <= MAXVA ->
  (forall vb, vb mod PGSIZE = 0 -> 0 <= vb < sz -> is_Some (a_map A !! vb)) ->
  (forall vb, vb mod PGSIZE = 0 -> 0 <= vb < sz -> has (pte_at (kmem_mem s) (a_T B) vb) PTE_V = false) ->
  (forall p, p ∈ own A -> num_ref s (p / PGSIZE) + pages_of sz < INT_MAX) ->
  wp (uvmcopy (t_root (a_T A)) (t_root (a_T B)) sz) (fun r s' => exists l' B' F',
    two s' l' A B' F' /\ F ⊆ F' /\
    (forall x, uview (kmem_mem s') (a_T A) x = uview (kmem_mem s) (a_T A) x) /\
    (forall p x, p ∈ F -> in_page p x -> rd8 (kmem_mem s') x = rd8 (kmem_mem s) x) /\
    (r = 0 /\ F' = F /\
       (forall x, 0 <= PGROUNDDOWN x < sz -> uview (kmem_mem s') (a_T B') x = uview (kmem_mem s) (a_T A) x) /\
       (forall va, 0 <= va < sz -> va mod PGSIZE = 0 ->
          has (pte_at (kmem_mem s') (a_T A) va) PTE_W = false /\ has (pte_at (kmem_mem s') (a_T B') va) PTE_W = false) \/
     r = -1 /\ (exists pa, pa ∈ own A /\ F' = {[+ pa +]} ⊎ F) /\
       forall x, uview (kmem_mem s') (a_T B') x = uview (kmem_mem s) (a_T B) x)) s.
Proof.
  intros H2 Hsz Hm HV Hr. eapply wp_uvmcopy; [done|done|done|done|done|..].
  - intros s' l' B' C. exists l', B', F. split; [apply C|]. split; [done|]. split; [apply C|].
    split; [intros p x Hp; by apply (cp_keeps _ _ _ _ _ _ _ _ C p)|]. left. do 2 (split; [done|]).
    pose proof (PGROUNDUP_bounds sz ltac:(lia) ltac:(change MAXVA with (2 ^ 38) in *; unfold PGSIZE; lia)) as Hb. split.
    + intros x Hx. rewrite (cp_viewB _ _ _ _ _ _ _ _ C). rewrite (proj2 (map_range_lt _ _ _)) by lia. done.
    + intros va Hva Hal. apply (cp_cow _ _ _ _ _ _ _ _ C); [lia|done|apply map_range_lt; lia].
  - intros s' l' B' pa U. exists l', B', ({[+ pa +]} ⊎ F). split; [apply U|]. split; [apply ms_sub_r|].
    split; [apply U|]. split; [intros p x Hp; by apply (uc_keeps _ _ _ _ _ _ _ _ U p)|]. right. split; [done|].
    split; [exists pa; split; [apply U|done]|apply U].
Qed.


(** C14: [cowfault] returns for every address; nobody's view changes, and
    when it returns 0 the page is the faulting address space's alone: it is
    not copy-on-write any more and its reference is the only one to it.  When
    it returns -1 nothing has changed, and the address is on page 0, is not
    mapped for user access, or no page was free for the copy. *)
Theorem cowfault_private s l A B F va :
  two s l A B F -> 0 <= va ->
  wp (cowfault (t_root (a_T A)) va) (fun r s' => exists l' A',
    two s' l' A' B F /\ a_T A' = a_T A /\
    (forall x, uview (kmem_mem s') (a_T A) x = uview (kmem_mem s) (a_T A) x) /\
    (forall x, uview (kmem_mem s') (a_T B) x = uview (kmem_mem s) (a_T B) x) /\
    (r = 0 /\ (exists pa, upage (kmem_mem s') (a_T A) (PGROUNDDOWN va) = Some pa /\ num_ref s' (pa / PGSIZE) = 1) \/
     r = -1 /\ s' = s /\ refused s (a_T A) va s)) s.
Proof.
  intros H2 Hva. pose proof (two_left _ _ _ _ _ H2) as Hs. destruct (Z.leb_spec MAXVA va) as [Hge|Hlt].
  { unfold cowfault. rewrite (proj2 (Z.leb_le _ _) Hge). apply wp_ret. exists l, A. do 4 (split; [done|]). right.
    do 2 (split; [done|]). right; left. apply uview_out. lia. }
  eapply wp_mono; [by apply (wp_cowfault s l A (own B ⊎ F))|].
  intros r s' (l' & A' & S' & T' & _ & K' & V' & _ & Hr).
  destruct (two_step _ _ _ _ _ _ _ _ H2 S' K') as (H2' & _ & VB).
  exists l', A'. do 4 (split; [done|]). destruct Hr as [(-> & [pa Hp] & Hc)|(-> & -> & Href)]; [left|by right].
  split; [done|]. exists pa. split; [done|]. rewrite <- T' in Hp, Hc.
  destruct (user_page s' l' A' _ _ _ S' (PGROUNDDOWN_range va (conj Hva Hlt)) (PGROUNDDOWN_aligned va) Hp) as [Hm Hok].
  rewrite <- pte_page in Hc. rewrite (vi_ref _ _ _ (proj1 S') pa Hok).
  by rewrite (ai_excl _ _ _ (proj2 S') _ _ Hm Hc).
Qed.

(** C16: [copyin] is exact: it returns 0 and the bytes user code reads at
    [srcva], [len] of them, when all are mapped for user access, and -1 when
    one is not; it changes nothing. *)
Theorem copyin_exact s l A F srcva len :
  space s l A F -> 0 <= srcva < 2 ^ 64 -> 0 <= len < 2 ^ 64 ->
  wp (copyin (t_root (a_T A)) srcva len) (fun r s' => s' = s /\
    match uread (kmem_mem s) (a_T A) srcva (Z.to_nat len) with
    | Some bs => r = (0, bs)
    | None => r.1 = -1
    end) s.
Proof.
  intros Hs Ha Hl. eapply wp_copyin; [done|done|done|].
  destruct (uread _ _ _ _); done.
Qed.

(** C18: what [copyout] stores, [copyin] reads back: when [copyout] returns 0,
    a [copyin] of as many bytes from the same address returns 0 and exactly
    these bytes.  And [copyout] does return 0, unless one of the addresses is
    on page 0, is not mapped for user access, or is on a copy-on-write page
    when no page is free for the copy. *)
Theorem copyout_copyin_roundtrip s l A F va src :
  space s l A F -> 0 <= va < 2 ^ 64 -> Z.of_nat (length src) < 2 ^ 64 -> Forall (fun b => 0 <= b < 256) src ->
  wp (r ← copyout (t_root (a_T A)) va src; q ← copyin (t_root (a_T A)) va (Z.of_nat (length src)); mret (r, q))
     (fun '(r, q) s' => r = 0 /\ q = (0, src) \/
        r = -1 /\ exists k, (k < length src)%nat /\ refused s (a_T A) (va + Z.of_nat k) s') s.
Proof.
  intros Hs Ha Hl Hb. apply wp_bind. eapply wp_mono; [by apply (wp_copyout s l A F)|].
  intros r s' (k & (l' & A' & S' & T' & _ & _ & _ & V') & Hr). rewrite <- T' at 1. apply wp_bind.
  eapply wp_copyin; [done|done|lia|]. rewrite T', Nat2Z.id. destruct Hr as [[-> ->]|(-> & Hk & Href)].
  2: { destruct (uread _ _ _ _); intros; apply wp_ret; right; eauto. }
  rewrite (uread_some _ _ _ _ src); [apply wp_ret; by left|done|].
  intros i b Hi. rewrite V', take_ge by lia. unfold patch.
  pose proof (lookup_lt_Some _ _ _ Hi). rewrite Forall_lookup in Hb. specialize (Hb i b Hi).
  destruct (Z.leb_spec va (va + Z.of_nat i)), (Z.ltb_spec (va + Z.of_nat i) (va + Z.of_nat (length src))); try lia.
  cbn [andb]. replace (Z.to_nat (va + Z.of_nat i - va)) with i by lia.
  by rewrite (nth_lookup_Some _ _ _ _ Hi), u8_small.
Qed.

(** C17: the life of a page table. Creating one with [proc_pagetable] for a
    trapframe and freeing it again with [proc_freepagetable] never panics,
    and afterwards exactly the pages that were free are free. *)
Theorem proc_pagetable_lifecycle s l F tf :
  vm_inv s l F -> page_ok tf ->
  wp (pt ← proc_pagetable tf; if pt =? 0 then mret tt else proc_freepagetable pt 0)
     (fun _ s' => exists l', vm_inv s' l' F /\ (forall p, p ∈ l' <-> p ∈ l) /\
       forall p x, p ∈ F -> in_page p x -> rd8 (kmem_mem s') x = rd8 (kmem_mem s) x) s.
Proof.
  intros Hv Htf. assert (forall l' s', vm_inv s' l' F -> forall p, p ∈ l' <-> p ∈ l) as Hl.
  { intros l' s' Hv' p. split; intros Hp.
    - apply (vi_free _ _ _ Hv); [by apply (ki_pages _ _ (vi_k _ _ _ Hv'))|].
      intros Hin. by eapply (vm_not_free _ _ _ _ Hv').
    - apply (vi_free _ _ _ Hv'); [by apply (ki_pages _ _ (vi_k _ _ _ Hv))|].
      intros Hin. by eapply (vm_not_free _ _ _ _ Hv). }
  apply wp_bind. eapply wp_proc_pagetable; [done|done|..].
  - intros s' (l' & Hv' & Hm). cbn [Z.eqb]. wp_steps. exists l'. split; [done|]. split; [by eapply Hl|done].
  - intros s' l' A U _ Hnz Hm _. destruct (Z.eqb_spec (t_root (a_T A)) 0); [done|].
    eapply wp_mono; [by eapply wp_proc_freepagetable|]. intros [] s2 (l2 & Hv2 & Hm2).
    exists l2. split; [done|]. split; [by eapply Hl|]. intros p x Hp Hx. rewrite (Hm2 p) by done. by apply (Hm p).
Qed.

(** The counts of the pages in use, when [A] became [A']. *)
Lemma same_counts s l A B F s' l' A' p :
  two s l A B F -> space s' l' A' (own B ⊎ F) -> same_refs A (own B ⊎ F) A' ->
  p ∈ own A ⊎ (own B ⊎ F) -> num_ref s' (p / PGSIZE) = num_ref s (p / PGSIZE).
Proof.
  intros H2 S' U Hp. destruct (two_left _ _ _ _ _ H2) as [Hv _]. pose proof (vi_ok _ _ _ Hv p Hp) as Hok.
  by rewrite (vi_ref _ _ _ Hv p Hok), (vi_ref _ _ _ (proj1 S') p Hok), U.
Qed.

(** A page that [uvmalloc] added: it was free, and has one reference. *)
Lemma alloced_private s l A F lo hi s' l' A' vb :
  space s l A F -> alloced s A F lo hi s' l' A' -> 0 <= vb < MAXVA -> vb mod PGSIZE = 0 -> map_range lo hi vb = true ->
  exists pa, upage (kmem_mem s') (a_T A') vb = Some pa /\ pa ∈ l /\ num_ref s' (pa / PGSIZE) = 1.
Proof.
  intros Hs (S' & _ & _ & _ & _ & I' & _ & V') Hvb Hal Hr. specialize (V' vb). rewrite PGROUNDDOWN_id, Hr in V' by done.
  unfold uview in V'. rewrite PGROUNDDOWN_id in V' by done.
  destruct (upage (kmem_mem s') (a_T A') vb) as [pa|] eqn:Eu; [|by destruct (_ && _)]. exists pa. split; [done|].
  destruct (user_page s' l' A' F vb pa S' Hvb Hal Eu) as [Hm Hok]. destruct (I' vb Hal Hr) as (q & Hq & Hnew & Hc).
  assert (q = pa) as -> by congruence. split; [by apply (vi_free _ _ _ (proj1 Hs))|].
  by rewrite (vi_ref _ _ _ (proj1 S') pa Hok), (ai_excl _ _ _ (proj2 S') _ _ Hm Hc).
Qed.

(** C19: [uvmalloc] either returns [newsz], and the process then reads zeros in
    the pages from [oldsz] to [newsz], each of them a page that was free and
    to which its page table has the only reference; or it returns 0, and the
    process has exactly the user pages it had and reads what it read (pages
    that went into its page tables stay there).  The latter only happens when
    there are at most three free pages for each page asked for.  Either way
    other processes read what they read, and no reference count of a page in
    use changes. *)
Theorem uvmalloc_zeroed s l A B F oldsz newsz xperm :
  two s l A B F -> 0 <= oldsz <= newsz -> newsz <= MAXVA -> 0 <= xperm < 1024 -> has xperm PTE_COW = false ->
  (forall vb, vb mod PGSIZE = 0 -> PGROUNDUP oldsz <= vb < newsz -> has (pte_at (kmem_mem s) (a_T A) vb) PTE_V = false) ->
  wp (uvmalloc (t_root (a_T A)) oldsz newsz xperm) (fun r s' => exists l' A',
    two s' l' A' B F /\ t_root (a_T A') = t_root (a_T A) /\
    (forall x, uview (kmem_mem s') (a_T B) x = uview (kmem_mem s) (a_T B) x) /\
    (forall p, p ∈ own A ⊎ (own B ⊎ F) -> num_ref s' (p / PGSIZE) = num_ref s (p / PGSIZE)) /\
    (r = newsz /\ (forall x, uview (kmem_mem s') (a_T A') x =
        if map_range (PGROUNDUP oldsz) (Z.max (PGROUNDUP oldsz) (PGROUNDUP newsz)) (PGROUNDDOWN x)
        then Some 0 else uview (kmem_mem s) (a_T A) x) /\
       (forall vb, vb mod PGSIZE = 0 -> PGROUNDUP oldsz <= vb < PGROUNDUP newsz ->
          exists pa, upage (kmem_mem s') (a_T A') vb = Some pa /\ pa ∈ l /\ num_ref s' (pa / PGSIZE) = 1) \/
     r = 0 /\ a_map A' = a_map A /\ (forall x, uview (kmem_mem s') (a_T A') x = uview (kmem_mem s) (a_T A) x) /\
       Z.of_nat (length l) <= 3 * ((PGROUNDUP newsz - PGROUNDUP oldsz) / PGSIZE))) s.
Proof.
  intros H2 Ho Hn Hx Hc Hfree. pose proof (two_left _ _ _ _ _ H2) as Hs.
  pose proof (PGROUNDUP_range oldsz ltac:(lia)). pose proof (PGROUNDUP_range newsz ltac:(lia)).
  eapply wp_uvmalloc; [exact Hs|lia|done|done|done|done|lia|..].
  - intros _ s' l' A' Hal. pose proof Hal as (S' & R' & K' & U' & _ & _ & _ & V').
    destruct (two_step _ _ _ _ _ _ _ _ H2 S' K') as (H2' & _ & VB). exists l', A'. do 3 (split; [done|]).
    split; [intros p; by eapply same_counts|]. left. split; [done|]. split; [done|].
    intros vb Hvb Hr. eapply alloced_private; [exact Hs|exact Hal|lia|done|]. apply map_range_lt. lia.
  - intros _ s' l' A' (S' & R' & K' & U' & M' & _ & V') Hfew.
    destruct (two_step _ _ _ _ _ _ _ _ H2 S' K') as (H2' & _ & VB). exists l', A'. do 3 (split; [done|]).
    split; [intros p; by eapply same_counts|]. by right.
Qed.

End theorems.

(** ** Witnesses on the small machine *)
Import Tiny Demo.

Lemma map1 vb : vb mod PGSIZE = 0 -> 0 <= vb < 2 * PGSIZE -> is_Some (a_map A1 !! vb).
Proof. intros Hm Hr. destruct (first_pages vb Hm Hr) as [-> | ->]; by eexists. Qed.

Lemma free1 vb : vb mod PGSIZE = 0 -> 0 <= vb < 2 * PGSIZE -> has (pte_at (kmem_mem s1) (a_T B1) vb) PTE_V = false.
Proof. intros Hm Hr. by destruct (first_pages vb Hm Hr) as [-> | ->]. Qed.

Lemma copyout_isolation_witness :
  exists r s', copyout (page 0) (PGSIZE + 1) [111] s0 = Ok r s' /\
    forall x, uview (kmem_mem s') (a_T B0) x = uview (kmem_mem s0) (a_T B0) x.
Proof.
  destruct (proj1 (wp_ok _ _ _) (copyout_isolation s0 l0 A0 B0 F0 (PGSIZE + 1) [111] two0 ltac:(done) ltac:(done)))
    as (r & s' & E & k & l' & A' & _ & _ & _ & _ & V).
  exists r, s'. split; [exact E|exact V].
Defined.

Lemma uvmcopy_shares_witness :
  exists r s', uvmcopy (page 0) (page 5) (2 * PGSIZE) s1 = Ok r s' /\
    forall x, uview (kmem_mem s') (a_T A1) x = uview (kmem_mem s1) (a_T A1) x.
Proof.
  destruct (proj1 (wp_ok _ _ _) (uvmcopy_shares s1 l1 A1 B1 F1 (2 * PGSIZE) two1 ltac:(done) map1 free1 refs1))
    as (r & s' & E & l' & B' & F' & _ & _ & V & _).
  exists r, s'. split; [exact E|exact V].
Defined.


Lemma cowfault_private_witness :
  exists r s', cowfault (page 0) PGSIZE s0 = Ok r s' /\
    forall x, uview (kmem_mem s') (a_T B0) x = uview (kmem_mem s0) (a_T B0) x.
Proof.
  destruct (proj1 (wp_ok _ _ _) (cowfault_private s0 l0 A0 B0 F0 PGSIZE two0 ltac:(done)))
    as (r & s' & E & l' & A' & _ & _ & _ & V & _).
  exists r, s'. split; [exact E|exact V].
Defined.

Lemma copyin_exact_witness :
  exists r, copyin (page 0) PGSIZE 2 s0 = Ok r s0.
Proof.
  destruct (proj1 (wp_ok _ _ _) (copyin_exact s0 l0 A0 (own B0 ⊎ F0) PGSIZE 2 (two_left _ _ _ _ _ two0) ltac:(done) ltac:(done)))
    as (r & s' & E & -> & _).
  exists r. exact E.
Defined.

Lemma copyout_copyin_roundtrip_witness :
  exists s', (r ← copyout (page 0) (PGSIZE + 1) [111; 112]; q ← copyin (page 0) (PGSIZE + 1) 2; mret (r, q)) s1 =
    Ok (0, (0, [111; 112])) s'.
Proof.
  destruct (proj1 (wp_ok _ _ _) (copyout_copyin_roundtrip s1 l1 A1 (own B1 ⊎ F1) (PGSIZE + 1) [111; 112]
    (two_left _ _ _ _ _ two1) ltac:(done) ltac:(done) ltac:(repeat constructor; done))) as ([r q] & s' & E & Hr).
  destruct Hr as [[-> ->]|(_ & k & Hk & Href)]; [by exists s'|]. cbn [length] in Hk.
  destruct (writable1 (PGSIZE + 1 + Z.of_nat k) s'); [unfold PGSIZE; lia|exact Href].
Defined.

Lemma proc_pagetable_lifecycle_witness :
  exists r s', (pt ← proc_pagetable (page 11); if pt =? 0 then mret tt else proc_freepagetable pt 0) s1 = Ok r s' /\
    exists l', vm_inv s' l' (own A1 ⊎ (own B1 ⊎ F1)) /\ forall p, p ∈ l' <-> p ∈ l1.
Proof.
  destruct (proj1 (wp_ok _ _ _) (proc_pagetable_lifecycle s1 l1 (own A1 ⊎ (own B1 ⊎ F1)) (page 11)
    (proj1 (two_left _ _ _ _ _ two1)) ltac:(split; done))) as (r & s' & E & l' & V & El & _).
  exists r, s'. split; [exact E|]. exists l'. split; [exact V|exact El].
Defined.

Lemma uvmalloc_zeroed_witness :
  exists s' A', uvmalloc (page 5) 0 PGSIZE PTE_W s1 = Ok PGSIZE s' /\ t_root (a_T A') = page 5 /\
    uview (kmem_mem s') (a_T A') 0 = Some 0 /\
    exists pa, upage (kmem_mem s') (a_T A') 0 = Some pa /\ pa ∈ l1 /\ num_ref s' (pa / PGSIZE) = 1.
Proof.
  destruct (proj1 (wp_ok _ _ _) (uvmalloc_zeroed s1 l1 B1 A1 F1 0 PGSIZE PTE_W (two_sym _ _ _ _ _ two1)
    ltac:(done) ltac:(done) ltac:(done) ltac:(done) ltac:(intros vb Hm Hr; apply (free1 vb Hm); change (PGROUNDUP 0) with 0 in Hr; unfold PGSIZE in *; lia)))
    as (r & s' & E & l' & A' & _ & Hroot & _ & _ & [(-> & V & P)|(_ & _ & _ & Hfew)]).
  - exists s', A'. split; [exact E|]. split; [exact Hroot|]. split; [exact (V 0)|].
    destruct (P 0 eq_refl ltac:(vm_compute; split; [discriminate|reflexivity])) as (pa & Hu & Hpa & Hr). exists pa. split; [exact Hu|]. split; [exact Hpa|exact Hr].
  - exfalso. revert Hfew. change (~ 7 <= 3). lia.
Defined.
