(* ===== verification/Que.v ===== *)
(** * Que: the ring buffers of the multi-level feedback queue

    [struct que] of [kernel/proc.h] and its operations ([kernel/proc.c]): an
    array of [NPROC] process pointers used as a ring.  [que_rep] says which
    list of processes a ring holds; against it the operations are those of a
    double-ended queue, as long as the ring is not full.  Nothing in
    [que_push] checks that: [que_push_full] has what happens then. *)

From stdpp Require Import base list functions strings.
From Stdlib Require Import ZArith Lia.
From S2P Require Import Prelude CMem Riscv Spinlock Kalloc Vm.

Abbreviation NPROCZ := (Z.of_nat NPROC).

(** A process pointer is an index into [proc[]], [None] is 0. *)
Record que := mkQue {
  head : Z;
  tail : Z;
  size : Z;
  que_procs : Z -> option nat;
}.
#[export] Instance que_settable : Settable que :=
  {| mk_eta := fun q => mkQue (head q) (tail q) (size q) (que_procs q) |}.

(** [que_init] puts a [struct que] into a page of its own: the three [int]
    fields are the first twelve bytes.  The result of [kalloc] is not
    checked. *)
Definition que_init `{L : Layout} : M kst Z :=
  que ← kalloc;
  nonnull que;;
  set_mem (fun m => store32 m que 0);;
  set_mem (fun m => store32 m (que + 4) 0);;
  set_mem (fun m => store32 m (que + 8) 0);;
  mret que.

(** An access to [que->procs[i]]. *)
Definition in_array (i : Z) : M que unit :=
  if (0 <=? i) && (i <? NPROCZ) then mret tt else fault.

Definition que_push (p : option nat) : M que unit :=
  q ← get;
  when (size q =? 0) (modify (fun q => q <| head := 0 |> <| tail := 0 |>));;
  q ← get;
  in_array (tail q);;
  modify (fun q => q <| que_procs ::= fun a => <[tail q := p]> a |>);;
  modify (fun q => q <| tail := Z.rem (tail q + 1) NPROCZ |>);;
  n ← int_op (size q + 1);
  modify (fun q => q <| size := n |>).

Definition que_pop : M que (option nat) :=
  q ← get;
  if size q =? 0 then mret None else
  in_array (head q);;
  let p := que_procs q (head q) in
  modify (fun q => q <| head := Z.rem (head q + 1) NPROCZ |>);;
  n ← int_op (size q - 1);
  modify (fun q => q <| size := n |>);;
  mret p.

Definition que_front : M que (option nat) :=
  q ← get;
  if size q =? 0 then mret None else
  in_array (head q);;
  mret (que_procs q (head q)).

Definition que_empty : M que bool := gets (fun q => size q =? 0).

Definition que_pushfront (p : option nat) : M que unit :=
  q ← get;
  when (size q =? 0) (modify (fun q => q <| head := 0 |> <| tail := 0 |>));;
  modify (fun q => q <| head := Z.rem (head q - 1 + NPROCZ) NPROCZ |>);;
  q ← get;
  in_array (head q);;
  modify (fun q => q <| que_procs ::= fun a => <[head q := p]> a |>);;
  n ← int_op (size q + 1);
  modify (fun q => q <| size := n |>).

(** ** The list in a ring *)

Definition slot (h : Z) (i : nat) : Z := (h + Z.of_nat i) mod NPROCZ.

Record que_rep (q : que) (l : list nat) : Prop := {
  qr_size : size q = Z.of_nat (length l);
  qr_max : size q <= NPROCZ;
  qr_head : 0 <= head q < NPROCZ;
  qr_tail : size q <> 0 -> tail q = slot (head q) (length l);
  qr_procs : forall i p, l !! i = Some p -> que_procs q (slot (head q) i) = Some p;
}.

Lemma in_array_ok i (Q : unit -> que -> Prop) q : 0 <= i < NPROCZ -> Q tt q -> wp (in_array i) Q q.
Proof.
  intros Hi HQ. unfold in_array. destruct (Z.leb_spec 0 i), (Z.ltb_spec i NPROCZ); cbn; try lia. done.
Qed.

Lemma slot_range h i : 0 <= slot h i < NPROCZ.
Proof. apply Z.mod_pos_bound. done. Qed.

Lemma slot_0 h : 0 <= h < NPROCZ -> slot h 0 = h.
Proof. intros. unfold slot. rewrite Z.add_0_r. by apply Z.mod_small. Qed.

Lemma slot_inj h i j : (i < NPROC)%nat -> (j < NPROC)%nat -> slot h i = slot h j -> i = j.
Proof.
  unfold slot, NPROC. intros Hi Hj E.
  Z.div_mod_to_equations. lia.
Qed.

Lemma slot_S h i : Z.rem (slot h i + 1) NPROCZ = slot h (S i).
Proof.
  pose proof (slot_range h i). rewrite Z.rem_mod_nonneg by lia. unfold slot.
  rewrite Zplus_mod_idemp_l. f_equal. lia.
Qed.

(** The slots after advancing the head, and after moving it back. *)
Lemma slot_next h i : 0 <= h < NPROCZ -> slot (Z.rem (h + 1) NPROCZ) i = slot h (S i).
Proof.
  intros Hh. rewrite Z.rem_mod_nonneg by lia. unfold slot. rewrite Zplus_mod_idemp_l. f_equal. lia.
Qed.

Lemma slot_prev h i : 0 <= h < NPROCZ -> slot (Z.rem (h - 1 + NPROCZ) NPROCZ) (S i) = slot h i.
Proof.
  intros Hh. rewrite Z.rem_mod_nonneg by (unfold NPROC in *; lia). unfold slot. rewrite Zplus_mod_idemp_l.
  replace (h - 1 + NPROCZ + Z.of_nat (S i)) with (h + Z.of_nat i + 1 * NPROCZ) by lia.
  by rewrite Z.mod_add.
Qed.

Lemma NPROC_eq : NPROC = 64%nat.
Proof. done. Qed.

(** ** The operations on the list *)

Lemma que_rep_empty q : head q = 0 -> size q = 0 -> que_rep q [].
Proof. intros H1 H2. split; rewrite ?H1, ?H2; try done. Qed.

(** The first statement of both pushes: after it [tail] is right even for
    the empty ring. *)
Lemma que_reset q l :
  que_rep q l ->
  exists h, 0 <= h < NPROCZ /\ (forall i x, l !! i = Some x -> que_procs q (slot h i) = Some x) /\
    (forall Q : unit -> que -> Prop,
      Q tt (mkQue h (slot h (length l)) (size q) (que_procs q)) ->
      wp (when (size q =? 0) (modify (fun q => q <| head := 0 |> <| tail := 0 |>))) Q q).
Proof.
  intros [Hs Hm Hh Ht Hp]. destruct (Z.eqb_spec (size q) 0) as [E|E].
  - destruct l; [|cbn in Hs; lia]. exists 0. split; [done|]. split; [done|].
    intros Q' HQ'. wp_steps. done.
  - exists (head q). do 2 (split; [done|]). intros Q' HQ'. wp_steps. rewrite <- Ht in HQ' by done. by destruct q.
Qed.

Lemma wp_que_push q l p (Q : unit -> que -> Prop) :
  que_rep q l -> (length l < NPROC)%nat -> (forall q', que_rep q' (l ++ [p]) -> Q tt q') ->
  wp (que_push (Some p)) Q q.
Proof.
  intros Hrep Hlen HQ. unfold que_push. apply wp_bind, wp_get, wp_bind.
  destruct (que_reset q l Hrep) as (h & Hh' & Hp' & Hw). destruct Hrep as [Hs Hm Hh Ht Hp].
  apply Hw. wp_steps. apply in_array_ok; [apply slot_range|]. wp_steps. cbn.
  pose proof NPROC_eq. split; [unfold INT_MIN, INT_MAX; lia|]. wp_steps. apply HQ.
  split; cbn; rewrite ?length_app; cbn [length].
  - lia.
  - lia.
  - done.
  - intros _. rewrite slot_S. f_equal. lia.
  - intros i x Hi. destruct (decide (i = length l)) as [->|Hn].
    + rewrite list_lookup_middle in Hi by done. injection Hi as <-. apply fn_lookup_insert.
    + assert (i < length l)%nat by (apply lookup_lt_Some in Hi; rewrite length_app in Hi; cbn in Hi; lia).
      rewrite lookup_app_l in Hi by done.
      rewrite fn_lookup_insert_ne; [by apply Hp'|]. intros E. apply slot_inj in E; lia.
Qed.

Lemma wp_que_pop q l (Q : option nat -> que -> Prop) :
  que_rep q l ->
  match l with
  | [] => Q None q
  | p :: l' => forall q', que_rep q' l' -> Q (Some p) q'
  end ->
  wp que_pop Q q.
Proof.
  intros [Hs Hm Hh Ht Hp] HQ. unfold que_pop. wp_steps. destruct l as [|p l].
  - rewrite Hs. cbn. by wp_steps.
  - cbn [length] in *. destruct (Z.eqb_spec (size q) 0); [lia|]. wp_steps. apply in_array_ok; [done|]. wp_steps.
    pose proof NPROC_eq. split; [unfold INT_MIN, INT_MAX; lia|]. wp_steps.
    pose proof (Hp 0%nat p eq_refl) as H0. rewrite slot_0 in H0 by done. rewrite H0. apply HQ.
    split; cbn; [lia|lia|..].
    + rewrite Z.rem_mod_nonneg by lia. by apply Z.mod_pos_bound.
    + intros _. rewrite Ht by done. by rewrite slot_next.
    + intros i x Hi. rewrite slot_next by done. by apply Hp.
Qed.

Lemma wp_que_front q l (Q : option nat -> que -> Prop) :
  que_rep q l -> Q (l !! 0%nat) q -> wp que_front Q q.
Proof.
  intros [Hs Hm Hh Ht Hp] HQ. unfold que_front. wp_steps. destruct l as [|p l].
  - rewrite Hs. cbn. by wp_steps.
  - cbn [length] in *. destruct (Z.eqb_spec (size q) 0); [lia|]. wp_steps. apply in_array_ok; [done|]. wp_steps.
    pose proof (Hp 0%nat p eq_refl) as H0. rewrite slot_0 in H0 by done. by rewrite H0.
Qed.

Lemma que_rep_empty_iff q l : que_rep q l -> (size q =? 0) = bool_decide (l = []).
Proof.
  intros [Hs _ _ _ _]. rewrite Hs. by destruct l.
Qed.

Lemma wp_que_pushfront q l p (Q : unit -> que -> Prop) :
  que_rep q l -> (length l < NPROC)%nat -> (forall q', que_rep q' (p :: l) -> Q tt q') ->
  wp (que_pushfront (Some p)) Q q.
Proof.
  intros Hrep Hlen HQ. unfold que_pushfront. apply wp_bind, wp_get, wp_bind.
  destruct (que_reset q l Hrep) as (h & Hh' & Hp' & Hw). destruct Hrep as [Hs Hm Hh Ht Hp].
  apply Hw. wp_steps. cbn. set (h' := Z.rem (h - 1 + NPROCZ) NPROCZ).
  pose proof NPROC_eq as EN. assert (0 <= h' < NPROCZ) as Hr.
  { unfold h'. rewrite Z.rem_mod_nonneg by lia. apply Z.mod_pos_bound. done. }
  apply in_array_ok; [done|]. wp_steps. cbn. split; [unfold INT_MIN, INT_MAX; lia|].
  wp_steps. apply HQ. split; cbn; [lia|lia|done|..].
  - intros _. symmetry. by apply slot_prev.
  - intros [|i] x Hi; cbn in Hi.
    + injection Hi as ->. rewrite slot_0 by done. apply fn_lookup_insert.
    + rewrite fn_lookup_insert_ne; [unfold h'; rewrite slot_prev by done; by apply Hp'|].
      intros E. rewrite <- (slot_0 h') in E at 1 by done.
      apply slot_inj in E; [lia|lia|]. apply lookup_lt_Some in Hi. lia.
Qed.

(** ** Refinement: a ring is a bounded double-ended queue *)

Inductive qop := Push (p : nat) | PushFront (p : nat) | Pop | Front | Empty.

(** What a call returns. *)
Inductive qret := RUnit | RProc (p : option nat) | RBool (b : bool).

Definition q_exec (o : qop) : M que qret :=
  match o with
  | Push p => que_push (Some p);; mret RUnit
  | PushFront p => que_pushfront (Some p);; mret RUnit
  | Pop => p ← que_pop; mret (RProc p)
  | Front => p ← que_front; mret (RProc p)
  | Empty => b ← que_empty; mret (RBool b)
  end.

(** The abstract queue. *)
Definition q_spec (o : qop) (l : list nat) : qret * list nat :=
  match o with
  | Push p => (RUnit, l ++ [p])
  | PushFront p => (RUnit, p :: l)
  | Pop => (RProc (list.head l), list.tail l)
  | Front => (RProc (list.head l), l)
  | Empty => (RBool (bool_decide (l = [])), l)
  end.

Definition pushes (o : qop) : bool := match o with Push _ | PushFront _ => true | _ => false end.

Fixpoint q_run (os : list qop) : M que (list qret) :=
  match os with
  | [] => mret []
  | o :: os' => r ← q_exec o; rs ← q_run os'; mret (r :: rs)
  end.

Fixpoint q_specs (os : list qop) (l : list nat) : list qret * list nat :=
  match os with
  | [] => ([], l)
  | o :: os' => let '(r, l1) := q_spec o l in let '(rs, l2) := q_specs os' l1 in (r :: rs, l2)
  end.

(** No push finds the queue full. *)
Fixpoint q_fits (os : list qop) (l : list nat) : bool :=
  match os with
  | [] => true
  | o :: os' => (negb (pushes o) || bool_decide (length l < NPROC)%nat) && q_fits os' (q_spec o l).2
  end.

Lemma q_exec_spec o q l :
  que_rep q l -> negb (pushes o) || bool_decide (length l < NPROC)%nat = true ->
  wp (q_exec o) (fun r q' => r = (q_spec o l).1 /\ que_rep q' (q_spec o l).2) q.
Proof.
  intros Hr Hf. destruct o as [p|p| | |]; cbn [pushes negb orb q_exec q_spec fst snd] in *;
    try apply bool_decide_eq_true in Hf; apply wp_bind.
  - eapply wp_que_push; [done|done|]. intros q' Hr'. by wp_steps.
  - eapply wp_que_pushfront; [done|done|]. intros q' Hr'. by wp_steps.
  - eapply wp_que_pop; [done|]. destruct l; [by wp_steps|]. intros q' Hr'. by wp_steps.
  - eapply wp_que_front; [done|]. wp_steps. split; [by destruct l|done].
  - unfold que_empty. wp_steps. by rewrite (que_rep_empty_iff q l Hr).
Qed.

Lemma que_rep_b q l :
  (size q =? Z.of_nat (length l)) && (size q <=? NPROCZ) && (0 <=? head q) && (head q <? NPROCZ) &&
  ((size q =? 0) || (tail q =? slot (head q) (length l))) &&
  forallb (fun '(i, p) => bool_decide (que_procs q (slot (head q) i) = Some p)) (zip (seq 0 (length l)) l) = true ->
  que_rep q l.
Proof.
  rewrite !andb_true_iff, forallb_forall. intros (((((H1 & H2) & H3) & H4) & H5) & H6). zb.
  split; [done|done|lia|..].
  - intros Hn. apply orb_true_iff in H5 as [H5|H5]; zb; done.
  - intros i p Hi. specialize (H6 (i, p)). cbn in H6. apply bool_decide_eq_true in H6; [done|].
    apply list_elem_of_In, (list_elem_of_lookup_2 _ i). apply lookup_zip_Some. split; [|done].
    apply lookup_seq. split; [lia|]. by eapply lookup_lt_Some.
Qed.

(** C26: [struct que] implements a double-ended queue of processes. Whatever
    the sequence of calls of [que_push], [que_pushfront], [que_pop],
    [que_front] and [que_empty], if no push finds [NPROC] processes in the
    queue, then the calls all return, with the results of the abstract queue,
    and the ring then holds the abstract queue's list. *)
Theorem que_refines_queue os q l :
  que_rep q l -> q_fits os l = true ->
  wp (q_run os) (fun rs q' => rs = (q_specs os l).1 /\ que_rep q' (q_specs os l).2) q.
Proof.
  revert q l. induction os as [|o os IH]; intros q l Hr Hf; cbn [q_run q_specs q_fits] in *; [done|].
  apply andb_true_iff in Hf as [Ho Hf]. apply wp_bind. eapply wp_mono; [by apply q_exec_spec|].
  intros r q1 [-> Hr1]. destruct (q_spec o l) as [r l1]. cbn [fst snd] in *.
  apply wp_bind. eapply wp_mono; [by apply IH|]. intros rs q2 [-> Hr2]. wp_steps.
  by destruct (q_specs os l1).
Qed.

(** In a full ring every cell of the array holds a process of the list. *)
Lemma full_cells q l i :
  que_rep q l -> length l = NPROC -> 0 <= i < NPROCZ -> exists p, p ∈ l /\ que_procs q i = Some p.
Proof.
  intros [_ _ Hh _ Hp] Hl Hi. set (j := Z.to_nat ((i - head q) mod NPROCZ)).
  assert (slot (head q) j = i /\ (j < NPROC)%nat) as [Ej Hj].
  { unfold slot, j. unfold NPROC in *. Z.div_mod_to_equations. lia. }
  destruct (lookup_lt_is_Some_2 l j) as [p Ep]; [lia|]. exists p. split; [by eapply list_elem_of_lookup_2|].
  by rewrite <- Ej, (Hp j p Ep).
Qed.

(** C38: [que_push] does not notice that the ring is full.  The process [p]
    pushed on top of the [NPROC] processes [p0 :: l] takes the place of the
    oldest, [p0]: the next [que_pop] returns [p] instead of [p0], and leaves
    a ring with [l] and [p] once more.  So [p] has been queued twice, and [p0]
    once: nothing in the array refers to it any more (unless it was there
    another time). *)
Theorem que_push_full q p0 l p :
  que_rep q (p0 :: l) -> S (length l) = NPROC ->
  wp (que_push (Some p);; que_pop) (fun r q' => r = Some p /\ que_rep q' (l ++ [p]) /\
    (p0 ∉ l -> p0 <> p -> forall i, 0 <= i < NPROCZ -> que_procs q' i <> Some p0)) q.
Proof.
  intros [Hs Hm Hh Ht Hp] Hl. cbn [length] in *. pose proof NPROC_eq.
  unfold que_push, que_pop. wp_steps. destruct (Z.eqb_spec (size q) 0); [lia|]. wp_steps.
  assert (forall h, 0 <= h < NPROCZ -> slot h NPROC = h) as Hwrap.
  { intros h Hr. unfold slot. rewrite Z.add_mod, Z.mod_same, Z.add_0_r, Z.mod_mod by done. by apply Z.mod_small. }
  assert (tail q = head q) as Et by (rewrite Ht, Hl by done; by apply Hwrap).
  rewrite Et. apply in_array_ok; [done|]. wp_steps. split; [unfold INT_MIN, INT_MAX; lia|]. wp_steps. cbn.
  destruct (Z.eqb_spec (size q + 1) 0); [lia|]. wp_steps. apply in_array_ok; [done|]. wp_steps.
  split; [unfold INT_MIN, INT_MAX; lia|]. wp_steps. rewrite Et. cbn. split; [apply fn_lookup_insert|].
  set (q' := mkQue _ _ _ _). assert (que_rep q' (l ++ [p])) as Hrep.
  { assert (0 <= Z.rem (head q + 1) NPROCZ < NPROCZ) as Hr by (rewrite Z.rem_mod_nonneg by lia; by apply Z.mod_pos_bound).
    split; cbn; rewrite ?length_app; cbn [length]; [lia|lia|done|..].
    - intros _. replace (length l + 1)%nat with NPROC by lia. by rewrite Hwrap.
    - intros i x Hi. rewrite slot_next by done. destruct (decide (i = length l)) as [->|Hn].
      + rewrite list_lookup_middle in Hi by done. injection Hi as <-. rewrite Hl, Hwrap by done. apply fn_lookup_insert.
      + assert (i < length l)%nat by (apply lookup_lt_Some in Hi; rewrite length_app in Hi; cbn in Hi; lia).
        rewrite lookup_app_l in Hi by done. rewrite fn_lookup_insert_ne; [by apply (Hp (S i))|].
        intros E. rewrite <- (slot_0 (head q)) in E at 1 by done. apply slot_inj in E; lia. }
  split; [done|]. intros Hn Hne i Hi. destruct (full_cells q' _ i Hrep) as (x & Hx & Ex); [rewrite length_app; cbn; lia|done|].
  change (que_procs q' i <> Some p0). rewrite Ex. intros [= ->]. apply elem_of_app in Hx as [?|?%list_elem_of_singleton]; done.
Qed.

Definition ring0 : que := mkQue 0 0 0 (fun _ => None).
Definition ring_full : que := mkQue 0 0 NPROCZ (fun i => Some (Z.to_nat i)).

Lemma ring_full_rep : que_rep ring_full (seq 0 64).
Proof. apply que_rep_b. vm_compute. reflexivity. Qed.

Lemma que_refines_queue_witness :
  exists q', q_run [Push 3; Push 5; PushFront 7; Pop; Pop; Empty] ring0 =
    Ok [RUnit; RUnit; RUnit; RProc (Some 7%nat); RProc (Some 3%nat); RBool false] q' /\ que_rep q' [5%nat].
Proof.
  destruct (proj1 (wp_ok _ _ _) (que_refines_queue [Push 3; Push 5; PushFront 7; Pop; Pop; Empty] ring0 []
    (que_rep_empty ring0 eq_refl eq_refl) eq_refl)) as (rs & q' & E & -> & Hr).
  exists q'. split; [exact E|exact Hr].
Defined.

Lemma que_push_full_witness :
  exists q', (que_push (Some 99%nat);; que_pop) ring_full = Ok (Some 99%nat) q' /\ que_rep q' (seq 1 63 ++ [99%nat]) /\
    forall i, 0 <= i < NPROCZ -> que_procs q' i <> Some 0%nat.
Proof.
  destruct (proj1 (wp_ok _ _ _) (que_push_full ring_full 0 (seq 1 63) 99
    ring_full_rep eq_refl)) as (r & q' & E & -> & Hr & H0).
  exists q'. split; [exact E|]. split; [exact Hr|]. apply H0; [|done]. intros Hin%elem_of_seq. lia.
Defined.
