(* ===== verification/KState.v ===== *)
(** * KState: the state of the kernel

    The data structures the kernel's threads share, as [kernel/proc.h],
    [kernel/file.h], [kernel/buf.h], [kernel/fs.h], [kernel/log.c],
    [kernel/pipe.c] and [kernel/console.c] declare them, and the spin locks
    that protect them.

    The model follows one thread of the kernel on its CPU.  What the other
    threads do while this one has given up the CPU is the parameter [swtch]
    of the class [Env] (the assembly routine that saves one context and
    restores another): a thread that calls it finds, when it returns, whatever
    state they left.

    Tables ([proc[]], [ftable.file[]], [itable.inode[]], [bcache.buf[]]) are
    functions of the index, a pointer into a table is the index, a pointer
    that may be null an [option].  The addresses of kernel objects are only
    compared (as sleep channels); distinct small numbers stand for them. *)

From stdpp Require Import base list gmap functions strings.
From Stdlib Require Import ZArith Lia.
From S2P Require Import Prelude CMem Riscv Spinlock Kalloc Vm Que.

(** In the files that use these large records, field accesses to updated
    records are simplified by [rsimpl], not by [cbn]. *)
#[global] Arguments set_field : simpl never.

(** ** [kernel/param.h] *)
Definition NCPU : Z := 8.
Definition NOFILE : nat := 16.
Definition NFILE : nat := 100.
Definition NINODE : nat := 50.
Definition NDEV : Z := 10.
Definition ROOTDEV : Z := 1.
Definition MAXARG : Z := 32.
Definition MAXOPBLOCKS : Z := 10.
Definition LOGSIZE : Z := MAXOPBLOCKS * 3.
Definition NBUF : nat := Z.to_nat (MAXOPBLOCKS * 3).
Definition MAXPATH : Z := 128.
Definition MLFQ_LEVELS : nat := 5.

(** ** [kernel/proc.h] *)

Record context := mkContext {
  ctx_ra : Z;
  ctx_sp : Z;
  ctx_s : list Z;    (* s0 .. s11 *)
}.
#[export] Instance context_settable : Settable context :=
  {| mk_eta := fun c => mkContext (ctx_ra c) (ctx_sp c) (ctx_s c) |}.

Inductive procstate := UNUSED | USED | SLEEPING | RUNNABLE | RUNNING | ZOMBIE.

#[export] Instance procstate_eq_dec : EqDecision procstate.
Proof. solve_decision. Defined.

Record proc := mkProc {
  p_lock : bool;
  p_state : procstate;
  p_chan : Z;
  p_killed : Z;
  p_xstate : Z;
  p_pid : Z;
  p_parent : option nat;
  p_kstack : Z;
  p_sz : Z;
  p_pagetable : Z;
  p_trapframe : Z;
  p_context : context;
  p_ofile : nat -> option nat;
  p_cwd : option nat;
  p_name : list Z;
  p_mask : Z;
  p_alarm_ticks : Z;
  p_current_ticks : Z;
  p_alarm_flag : Z;
  p_trapframe_backup : Z;
  p_alarm_handler : Z;
  p_a0_backup : Z;
  p_start_ticks : Z;
  p_tickets : Z;
  p_run_ticks : Z;
  p_sleep_ticks : Z;
  p_ready_ticks : Z;
  p_num_scheduled : Z;
  p_static_priority : Z;
  p_rtime : Z;
  p_ctime : Z;
  p_etime : Z;
  p_curr_q : Z;
  p_q_ticks : nat -> Z;
  p_cq_rticks : Z;
  p_q_enter_time : Z;
  p_qued_fl : Z;
}.
#[export] Instance proc_settable : Settable proc :=
  {| mk_eta := fun p => mkProc (p_lock p) (p_state p) (p_chan p) (p_killed p) (p_xstate p) (p_pid p)
       (p_parent p) (p_kstack p) (p_sz p) (p_pagetable p) (p_trapframe p) (p_context p) (p_ofile p)
       (p_cwd p) (p_name p) (p_mask p) (p_alarm_ticks p) (p_current_ticks p) (p_alarm_flag p)
       (p_trapframe_backup p) (p_alarm_handler p) (p_a0_backup p) (p_start_ticks p) (p_tickets p)
       (p_run_ticks p) (p_sleep_ticks p) (p_ready_ticks p) (p_num_scheduled p) (p_static_priority p)
       (p_rtime p) (p_ctime p) (p_etime p) (p_curr_q p) (p_q_ticks p) (p_cq_rticks p)
       (p_q_enter_time p) (p_qued_fl p) |}.

(** [struct cpu] of the CPU the thread runs on, with its interrupt-enable
    bit ([sstatus.SIE]) and its number. *)
Record kcpu := mkKcpu {
  c_proc : option nat;
  c_noff : Z;
  c_intena : bool;
  c_sie : bool;
  c_id : Z;
}.
#[export] Instance kcpu_settable : Settable kcpu :=
  {| mk_eta := fun c => mkKcpu (c_proc c) (c_noff c) (c_intena c) (c_sie c) (c_id c) |}.

(** Supervisor control registers. *)
Record csrs := mkCsrs {
  sepc : Z;
  scause : Z;
  stval : Z;
  sstatus : Z;
  stvec : Z;
  satp : Z;
  sip : Z;
}.
#[export] Instance csrs_settable : Settable csrs :=
  {| mk_eta := fun c => mkCsrs (sepc c) (scause c) (stval c) (sstatus c) (stvec c) (satp c) (sip c) |}.

(** ** [kernel/sleeplock.h] *)
Record sleeplock := mkSleeplock {
  sl_locked : Z;
  sl_lk : bool;      (* the spin lock that protects it *)
  sl_pid : Z;
}.
#[export] Instance sleeplock_settable : Settable sleeplock :=
  {| mk_eta := fun l => mkSleeplock (sl_locked l) (sl_lk l) (sl_pid l) |}.

(** ** [kernel/file.h], [kernel/pipe.c] *)
Inductive ftype := FD_NONE | FD_PIPE | FD_INODE | FD_DEVICE.

#[export] Instance ftype_eq_dec : EqDecision ftype.
Proof. solve_decision. Defined.

Record file := mkFile {
  f_type : ftype;
  f_ref : Z;
  f_readable : Z;
  f_writable : Z;
  f_pipe : Z;               (* address of the struct pipe *)
  f_ip : option nat;
  f_off : Z;
  f_major : Z;
}.
#[export] Instance file_settable : Settable file :=
  {| mk_eta := fun f => mkFile (f_type f) (f_ref f) (f_readable f) (f_writable f) (f_pipe f)
       (f_ip f) (f_off f) (f_major f) |}.

Record pipe := mkPipe {
  pi_lock : bool;
  pi_data : Z -> Z;
  pi_nread : Z;
  pi_nwrite : Z;
  pi_readopen : Z;
  pi_writeopen : Z;
}.
#[export] Instance pipe_settable : Settable pipe :=
  {| mk_eta := fun p => mkPipe (pi_lock p) (pi_data p) (pi_nread p) (pi_nwrite p) (pi_readopen p) (pi_writeopen p) |}.

Record inode := mkInode {
  i_dev : Z;
  i_inum : Z;
  i_ref : Z;
  i_lock : sleeplock;
  i_valid : Z;
  i_type : Z;
  i_major : Z;
  i_minor : Z;
  i_nlink : Z;
  i_size : Z;
  i_addrs : nat -> Z;
}.
#[export] Instance inode_settable : Settable inode :=
  {| mk_eta := fun i => mkInode (i_dev i) (i_inum i) (i_ref i) (i_lock i) (i_valid i) (i_type i)
       (i_major i) (i_minor i) (i_nlink i) (i_size i) (i_addrs i) |}.

(** [ftable], and the pipes by address. *)
Record ftab := mkFtab {
  ft_lock : bool;
  ft_file : nat -> file;
  ft_pipe : Z -> pipe;
}.
#[export] Instance ftab_settable : Settable ftab :=
  {| mk_eta := fun f => mkFtab (ft_lock f) (ft_file f) (ft_pipe f) |}.

(** ** [kernel/fs.h] *)
Definition BSIZE : Z := 1024.
Definition ROOTINO : Z := 1.
Definition FSMAGIC : Z := 0x10203040.
Definition NDIRECT : nat := 12.
Definition NINDIRECT : Z := BSIZE / 4.
Definition MAXFILE : Z := Z.of_nat NDIRECT + NINDIRECT.
Definition DIRSIZ : Z := 14.
(** [sizeof(struct dinode)], [sizeof(struct dirent)] *)
Definition DINODE_SIZE : Z := 64.
Definition DIRENT_SIZE : Z := 16.
Definition IPB : Z := BSIZE / DINODE_SIZE.
Definition BPB : Z := BSIZE * 8.
(** [kernel/stat.h] *)
Definition T_DIR : Z := 1.
Definition T_FILE : Z := 2.
Definition T_DEVICE : Z := 3.

Record superblock := mkSb {
  sb_magic : Z;
  sb_size : Z;
  sb_nblocks : Z;
  sb_ninodes : Z;
  sb_nlog : Z;
  sb_logstart : Z;
  sb_inodestart : Z;
  sb_bmapstart : Z;
}.
#[export] Instance superblock_settable : Settable superblock :=
  {| mk_eta := fun s => mkSb (sb_magic s) (sb_size s) (sb_nblocks s) (sb_ninodes s) (sb_nlog s)
       (sb_logstart s) (sb_inodestart s) (sb_bmapstart s) |}.

Definition IBLOCK (i : Z) (sb : superblock) : Z := u32 (i / IPB + sb_inodestart sb).
Definition BBLOCK (b : Z) (sb : superblock) : Z := u32 (b / BPB + sb_bmapstart sb).

(** [itable], and the superblock in memory. *)
Record itab := mkItab {
  it_lock : bool;
  it_inode : nat -> inode;
  it_sb : superblock;
}.
#[export] Instance itab_settable : Settable itab :=
  {| mk_eta := fun i => mkItab (it_lock i) (it_inode i) (it_sb i) |}.

(** ** [kernel/buf.h], [kernel/bio.c]

    Buffer [NBUF] is the list head [bcache.head].  The data of a block is a
    list of [BSIZE] bytes. *)
Record buf := mkBuf {
  b_valid : Z;
  b_disk : Z;
  b_dev : Z;
  b_blockno : Z;
  b_lock : sleeplock;
  b_refcnt : Z;
  b_prev : nat;
  b_next : nat;
  b_data : list Z;
}.
#[export] Instance buf_settable : Settable buf :=
  {| mk_eta := fun b => mkBuf (b_valid b) (b_disk b) (b_dev b) (b_blockno b) (b_lock b) (b_refcnt b)
       (b_prev b) (b_next b) (b_data b) |}.

Record bcache := mkBcache {
  bc_lock : bool;
  bc_buf : nat -> buf;
}.
#[export] Instance bcache_settable : Settable bcache :=
  {| mk_eta := fun b => mkBcache (bc_lock b) (bc_buf b) |}.

(** ** [kernel/log.c] *)
Record klog := mkLog {
  lg_lock : bool;
  lg_start : Z;
  lg_size : Z;
  lg_outstanding : Z;
  lg_committing : Z;
  lg_dev : Z;
  lh_n : Z;
  lh_block : Z -> Z;
}.
#[export] Instance klog_settable : Settable klog :=
  {| mk_eta := fun l => mkLog (lg_lock l) (lg_start l) (lg_size l) (lg_outstanding l) (lg_committing l)
       (lg_dev l) (lh_n l) (lh_block l) |}.

(** The disk: its blocks (absent ones are zero), and the writes it has
    performed, the latest first. *)
Record kdisk := mkDisk {
  d_block : gmap Z (list Z);
  d_writes : list (Z * list Z);
}.
#[export] Instance kdisk_settable : Settable kdisk :=
  {| mk_eta := fun d => mkDisk (d_block d) (d_writes d) |}.

(** ** [kernel/virtio.h], [kernel/virtio_disk.c] *)
Definition NUM : Z := 8.

Record virtq_desc := mkDesc {
  dc_addr : Z;
  dc_len : Z;
  dc_flags : Z;
  dc_next : Z;
}.
#[export] Instance virtq_desc_settable : Settable virtq_desc :=
  {| mk_eta := fun d => mkDesc (dc_addr d) (dc_len d) (dc_flags d) (dc_next d) |}.

Record virtq_avail := mkAvail {
  av_flags : Z;
  av_idx : Z;
  av_ring : Z -> Z;
}.
#[export] Instance virtq_avail_settable : Settable virtq_avail :=
  {| mk_eta := fun a => mkAvail (av_flags a) (av_idx a) (av_ring a) |}.

Record virtq_used := mkUsed {
  us_flags : Z;
  us_idx : Z;
  us_ring : Z -> Z * Z;      (* id and len *)
}.
#[export] Instance virtq_used_settable : Settable virtq_used :=
  {| mk_eta := fun u => mkUsed (us_flags u) (us_idx u) (us_ring u) |}.

Record virtio_blk_req := mkReq {
  rq_type : Z;
  rq_reserved : Z;
  rq_sector : Z;
}.
#[export] Instance virtio_blk_req_settable : Settable virtio_blk_req :=
  {| mk_eta := fun r => mkReq (rq_type r) (rq_reserved r) (rq_sector r) |}.

(** [struct disk].  The three parts of the queue, which the driver and the
    device share, are records beside the bytes of their pages; [vd_desc],
    [vd_avail] and [vd_used] are the addresses of the pages. *)
Record vdisk := mkVdisk {
  vd_desc : Z;
  vd_avail : Z;
  vd_used : Z;
  vd_free : Z -> Z;
  vd_used_idx : Z;
  vd_info_b : Z -> option nat;
  vd_info_status : Z -> Z;
  vd_ops : Z -> virtio_blk_req;
  vdisk_lock : bool;
  vq_desc : Z -> virtq_desc;
  vq_avail : virtq_avail;
  vq_used : virtq_used;
  vd_mmio : list (Z * Z);    (* writes to the registers of the device, the latest first *)
}.
#[export] Instance vdisk_settable : Settable vdisk :=
  {| mk_eta := fun d => mkVdisk (vd_desc d) (vd_avail d) (vd_used d) (vd_free d) (vd_used_idx d)
       (vd_info_b d) (vd_info_status d) (vd_ops d) (vdisk_lock d) (vq_desc d) (vq_avail d) (vq_used d)
       (vd_mmio d) |}.

(** ** [kernel/console.c], [kernel/uart.c], [kernel/printf.c] *)
Definition INPUT_BUF_SIZE : Z := 128.
Definition UART_TX_BUF_SIZE : Z := 32.

Record console := mkConsole {
  cons_lock : bool;
  cons_buf : Z -> Z;
  cons_r : Z;
  cons_w : Z;
  cons_e : Z;
  uart_tx_lock : bool;
  uart_tx_buf : Z -> Z;
  uart_tx_w : Z;
  uart_tx_r : Z;
  pr_lock : bool;
  pr_locking : bool;
  panicked : bool;
  uart_out : list Z;      (* what has been sent to the UART, the latest first *)
  uart_cfg : list (Z * Z);   (* writes to its control registers, the latest first *)
  plic_out : list (Z * Z);   (* writes to the PLIC, the latest first *)
  cons_installed : bool;     (* devsw[CONSOLE] has been set *)
}.
#[export] Instance console_settable : Settable console :=
  {| mk_eta := fun c => mkConsole (cons_lock c) (cons_buf c) (cons_r c) (cons_w c) (cons_e c)
       (uart_tx_lock c) (uart_tx_buf c) (uart_tx_w c) (uart_tx_r c) (pr_lock c) (pr_locking c)
       (panicked c) (uart_out c) (uart_cfg c) (plic_out c) (cons_installed c) |}.

(** ** The whole kernel *)
Record K := mkKernel {
  k_vm : kst;
  k_cpu : kcpu;
  k_csr : csrs;
  k_proc : nat -> proc;
  k_initproc : option nat;
  k_nextpid : Z;
  k_pid_lock : bool;
  k_wait_lock : bool;
  k_ticks : Z;
  k_tickslock : bool;
  k_mlfqs : nat -> que;
  k_rand : Z;             (* the static variable of rand() *)
  k_first : bool;         (* the static variable of forkret() *)
  k_ft : ftab;
  k_it : itab;
  k_bc : bcache;
  k_log : klog;
  k_disk : kdisk;
  k_vd : vdisk;
  k_con : console;
  k_kpgtbl : Z;           (* kernel_pagetable *)
  k_started : bool;       (* the static variable of main() *)
}.
#[export] Instance K_settable : Settable K :=
  {| mk_eta := fun k => mkKernel (k_vm k) (k_cpu k) (k_csr k) (k_proc k) (k_initproc k) (k_nextpid k)
       (k_pid_lock k) (k_wait_lock k) (k_ticks k) (k_tickslock k) (k_mlfqs k) (k_rand k) (k_first k)
       (k_ft k) (k_it k) (k_bc k) (k_log k) (k_disk k) (k_vd k) (k_con k) (k_kpgtbl k)
       (k_started k) |}.

(** ** The code at the boundary

    [swtch]: everything that happens from the moment this thread saves its
    context until it runs again ([kernel/swtch.S], the scheduler and the
    other threads).  [run p]: the same for the scheduler's thread, from
    switching to process [p] until [p] switches back.  [disk_rw b w]: the
    disk reads ([w = false]) or writes the data of buffer [b], as
    [virtio_disk_rw] has it do.  [read_reg]: reading a register of the
    UART.  [plic_reg]: reading the PLIC's claim register.  [disk_intr]: what
    [virtio_disk_intr] does when the disk has completed requests;
    [disk_init]: [virtio_disk_init].  The [sym_*] are
    addresses of code, fixed by the linker.  [junk i]: byte [i] of a local
    variable that has not been initialised. *)
Class Env := {
  swtch : M K unit;
  run : nat -> M K unit;
  disk_rw : nat -> bool -> M K unit;
  read_reg : Z -> M K Z;
  plic_reg : M K Z;
  disk_intr : M K unit;
  disk_init : M K unit;
  sym_forkret : Z;
  sym_usertrap : Z;
  sym_kernelvec : Z;
  sym_uservec : Z;
  sym_userret : Z;
  junk : Z -> Z;
}.

(** ** Access to the tables *)

Definition get_proc (p : nat) : M K proc := gets (fun s => k_proc s p).
Definition upd_proc (p : nat) (f : proc -> proc) : M K unit :=
  modify (fun s => s <| k_proc ::= fun t => <[p := f (t p)]> t |>).
Definition vm_lens : lens kst K := Lens k_vm (fun v s => s <| k_vm := v |>).
Definition vm {A} (m : M kst A) : M K A := zoom vm_lens m.
Definition upd_cpu (f : kcpu -> kcpu) : M K unit := modify (fun s => s <| k_cpu ::= f |>).
Definition upd_csr (f : csrs -> csrs) : M K unit := modify (fun s => s <| k_csr ::= f |>).
Definition mlfq_lens (i : nat) : lens que K :=
  Lens (fun s => k_mlfqs s i) (fun q s => s <| k_mlfqs ::= fun t => <[i := q]> t |>).

#[export] Hint Unfold get_proc vm upd_cpu upd_csr : xv6_op.

(** A C pointer that is dereferenced. *)
Definition deref {A} (o : option A) : M K A :=
  match o with Some a => mret a | None => fault end.

(** ** Spin locks of this CPU ([kernel/spinlock.c])

    The thread's view of a lock, with the interrupt bookkeeping that
    [sched] checks. *)
Definition push_off : M K unit :=
  c ← gets k_cpu;
  upd_cpu (fun c => c <| c_sie := false |>);;
  when (c_noff c =? 0) (upd_cpu (fun x => x <| c_intena := c_sie c |>));;
  upd_cpu (fun c => c <| c_noff := c_noff c + 1 |>).

Definition pop_off : M K unit :=
  c ← gets k_cpu;
  if c_sie c then panic "pop_off - interruptible" else
  if c_noff c <? 1 then panic "pop_off" else
  upd_cpu (fun c => c <| c_noff := c_noff c - 1 |>);;
  c ← gets k_cpu;
  when ((c_noff c =? 0) && c_intena c) (upd_cpu (fun c => c <| c_sie := true |>)).

Definition acquire (l : lens bool K) : M K unit :=
  push_off;;
  b ← gets (lget l);
  if (b : bool) then panic "acquire" else modify (lset l true).

Definition release (l : lens bool K) : M K unit :=
  b ← gets (lget l);
  if (b : bool) then modify (lset l false);; pop_off else panic "release".

Definition initlock (l : lens bool K) : M K unit := modify (lset l false).

(** The locks. *)
Definition pid_lk : lens bool K := Lens k_pid_lock (fun b s => s <| k_pid_lock := b |>).
Definition wait_lk : lens bool K := Lens k_wait_lock (fun b s => s <| k_wait_lock := b |>).
Definition ticks_lk : lens bool K := Lens k_tickslock (fun b s => s <| k_tickslock := b |>).
Definition proc_lk (p : nat) : lens bool K :=
  Lens (fun s => p_lock (k_proc s p))
    (fun b s => s <| k_proc ::= fun t => <[p := (t p) <| p_lock := b |>]> t |>).
Definition ft_lk : lens bool K :=
  Lens (fun s => ft_lock (k_ft s)) (fun b s => s <| k_ft ::= fun f => f <| ft_lock := b |> |>).
Definition it_lk : lens bool K :=
  Lens (fun s => it_lock (k_it s)) (fun b s => s <| k_it ::= fun f => f <| it_lock := b |> |>).
Definition bc_lk : lens bool K :=
  Lens (fun s => bc_lock (k_bc s)) (fun b s => s <| k_bc ::= fun f => f <| bc_lock := b |> |>).
Definition log_lk : lens bool K :=
  Lens (fun s => lg_lock (k_log s)) (fun b s => s <| k_log ::= fun f => f <| lg_lock := b |> |>).
Definition cons_lk : lens bool K :=
  Lens (fun s => cons_lock (k_con s)) (fun b s => s <| k_con ::= fun f => f <| cons_lock := b |> |>).
Definition uart_lk : lens bool K :=
  Lens (fun s => uart_tx_lock (k_con s)) (fun b s => s <| k_con ::= fun f => f <| uart_tx_lock := b |> |>).
Definition pr_lk : lens bool K :=
  Lens (fun s => pr_lock (k_con s)) (fun b s => s <| k_con ::= fun f => f <| pr_lock := b |> |>).
Definition pipe_lk (pi : Z) : lens bool K :=
  Lens (fun s => pi_lock (ft_pipe (k_ft s) pi))
    (fun b s => s <| k_ft ::= fun f => f <| ft_pipe ::= fun t => <[pi := (t pi) <| pi_lock := b |>]> t |> |>).

(** ** [myproc] *)
Definition myproc : M K (option nat) :=
  push_off;;
  p ← gets (fun s => c_proc (k_cpu s));
  pop_off;;
  mret p.
