(* ===== verification/Printf.v ===== *)
(** * Printf: kernel output, [kernel/printf.c] and the polling half of
      [kernel/uart.c]

    Characters go out through [uartputc_sync], which spins until the UART
    can take one.  The arguments of [printf] are a list; taking one of the
    wrong type is undefined behaviour, as [va_arg] has it.  For its callers
    [panic] is the outcome [Panic] of the monad; [kpanic] is its body. *)

From stdpp Require Import base list gmap functions strings.
From Stdlib Require Import ZArith Lia Ascii.
From S2P Require Import Prelude CMem Riscv Spinlock Kalloc Vm Que KState.

Definition bytes (s : string) : list Z := (fun a => Z.of_nat (nat_of_ascii a)) <$> String.list_ascii_of_string s.

Definition newline : string := String (ascii_of_nat 10) EmptyString.

Definition upd_con (f : console -> console) : M K unit := modify (fun s => s <| k_con ::= f |>).
#[export] Hint Unfold upd_con : xv6_op.

(** ** [kernel/uart.c] *)
(** The control registers, and the bits of their values. *)
Inductive uart_reg := RHR | THR | IER | FCR | LCR | LSR.

Definition uart_offset (r : uart_reg) : Z :=
  match r with
  | RHR => 0
  | THR => 0
  | IER => 1
  | FCR => 2
  | LCR => 3
  | LSR => 5
  end.
Coercion uart_offset : uart_reg >-> Z.

Inductive uart_flag :=
| IER_RX_ENABLE | IER_TX_ENABLE | FCR_FIFO_ENABLE | FCR_FIFO_CLEAR | LCR_EIGHT_BITS | LCR_BAUD_LATCH
| LSR_RX_READY | LSR_TX_IDLE.

Definition uart_bits (f : uart_flag) : Z :=
  match f with
  | IER_RX_ENABLE => Z.shiftl 1 0
  | IER_TX_ENABLE => Z.shiftl 1 1
  | FCR_FIFO_ENABLE => Z.shiftl 1 0
  | FCR_FIFO_CLEAR => Z.shiftl 3 1
  | LCR_EIGHT_BITS => Z.shiftl 3 0
  | LCR_BAUD_LATCH => Z.shiftl 1 7
  | LSR_RX_READY => Z.shiftl 1 0
  | LSR_TX_IDLE => Z.shiftl 1 5
  end.
Coercion uart_bits : uart_flag >-> Z.

(** [WriteReg(THR, c)] *)
Definition write_thr (c : Z) : M K unit := upd_con (fun k => k <| uart_out ::= cons (u8 c) |>).
#[export] Hint Unfold write_thr : xv6_op.

Section printf.
Context `{E : Env}.

Definition uartputc_sync (c : Z) : M K unit :=
  push_off;;
  s ← get;
  if panicked (k_con s) then out_of_fuel else
  while (fun _ : unit =>
    v ← read_reg LSR;
    if has v LSR_TX_IDLE then mret (inr tt) else mret (inl tt)) tt;;
  write_thr c;;
  pop_off.

(** ** [kernel/console.c] *)
Definition BACKSPACE : Z := 0x100.

Definition consputc (c : Z) : M K unit :=
  if c =? BACKSPACE then
    uartputc_sync 8;; uartputc_sync 32;; uartputc_sync 8
  else uartputc_sync c.

Definition putchars (l : list Z) : M K unit := for_each l consputc.

(** ** [kernel/printf.c] *)
Definition digits : list Z := bytes "0123456789abcdef".
Definition digit (i : Z) : Z := nth (Z.to_nat i) digits 0.

(** The first loop of [printint]: the digits of [x], least significant
    first, appended to [buf]. *)
Definition printint_digits (base x : Z) (buf : list Z) : M K (list Z) :=
  while (fun '(x, buf) =>
    let buf := buf ++ [digit (x mod base)] in
    let x := x / base in
    if x =? 0 then mret (inr buf) else mret (inl (x, buf))) (x, buf).

Definition printint (xx base : Z) (sign : bool) : M K unit :=
  let neg := sign && (xx <? 0) in
  x ← (if neg then n ← int_op (- xx); mret (u32 n) else mret (u32 xx));
  buf ← printint_digits base x [];
  let buf := if neg then buf ++ [45] else buf in
  putchars (rev buf).

Definition printptr (x : Z) : M K unit :=
  consputc 48;;
  consputc 120;;
  x ← while (fun '(i, x) =>
    if negb (i <? 16) then mret (inr x) else
    consputc (digit (Z.shiftr x 60));;
    mret (inl (i + 1, u64 (Z.shiftl x 4)))) (0, x);
  mret tt.

Inductive arg := AInt (z : Z) | APtr (z : Z) | AStr (s : option (list Z)).

(** The loop of [printf] over the rest of the format. *)
Fixpoint printf_loop (fmt : list Z) (ap : list arg) : M K unit :=
  match fmt with
  | [] => mret tt
  | c :: fmt' =>
      if c =? 0 then mret tt else
      if negb (c =? 37) then consputc c;; printf_loop fmt' ap else
      match fmt' with
      | [] => mret tt
      | c :: fmt' =>
          if c =? 0 then mret tt else
          if c =? 100 then
            match ap with AInt z :: ap => printint z 10 true;; printf_loop fmt' ap | _ => fault end
          else if c =? 120 then
            match ap with AInt z :: ap => printint z 16 true;; printf_loop fmt' ap | _ => fault end
          else if c =? 112 then
            match ap with APtr z :: ap => printptr z;; printf_loop fmt' ap | _ => fault end
          else if c =? 115 then
            match ap with
            | AStr o :: ap => putchars (default (bytes "(null)") o);; printf_loop fmt' ap
            | _ => fault
            end
          else if c =? 37 then consputc 37;; printf_loop fmt' ap
          else consputc 37;; consputc c;; printf_loop fmt' ap
      end
  end.

Definition printf (fmt : string) (ap : list arg) : M K unit :=
  s ← get;
  let locking := pr_locking (k_con s) in
  when locking (acquire pr_lk);;
  printf_loop (bytes fmt) ap;;
  when locking (release pr_lk).

Definition printfinit : M K unit :=
  initlock pr_lk;;
  upd_con (fun k => k <| pr_locking := true |>).

(** [panic], up to the loop in which the CPU stays. *)
Definition kpanic (s : string) : M K unit :=
  upd_con (fun k => k <| pr_locking := false |>);;
  printf "panic: " [];;
  printf s [];;
  printf newline [];;
  upd_con (fun k => k <| panicked := true |>);;
  leave 0.

End printf.
