(* ===== verification/Proc.v ===== *)
(** * Proc: processes, [kernel/proc.c]

    The process table, the context switch and what is built on it ([sched],
    [yield], [sleep], [wakeup], [wait]), the alarm calls and the five
    schedulers.  [fork], [exit], [userinit] and [forkret], which also use
    the file system, are in [Fork]. *)

From stdpp Require Import base list gmap functions strings.
From Stdlib Require Import ZArith Lia.
From S2P Require Import Prelude CMem Riscv Spinlock Kalloc Vm Que KState Printf.

(** ** Sleep channels *)
Definition chan_ticks : Z := 1.
Definition chan_log : Z := 2.
Definition chan_cons : Z := 3.
Definition chan_uart : Z := 4.
Definition chan_proc (p : nat) : Z := 0x100 + Z.of_nat p.
Definition chan_buf (b : nat) : Z := 0x200 + Z.of_nat b.
Definition chan_inode (i : nat) : Z := 0x300 + Z.of_nat i.
(** [&pi->nread], [&pi->nwrite] *)
Definition chan_nread (pi : Z) : Z := pi + 536.
Definition chan_nwrite (pi : Z) : Z := pi + 540.
(** A process pointer as a channel. *)
Definition chan_of (o : option nat) : Z := match o with Some p => chan_proc p | None => 0 end.

(** ** [struct trapframe]: the fields the code uses, at their offsets in the page *)
Inductive tf_field :=
| tf_kernel_satp | tf_kernel_sp | tf_kernel_trap | tf_epc | tf_kernel_hartid | tf_sp
| tf_a0 | tf_a1 | tf_a2 | tf_a3 | tf_a4 | tf_a5
| tf_a7.

Definition tf_offset (x : tf_field) : Z :=
  match x with
  | tf_kernel_satp => 0
  | tf_kernel_sp => 8
  | tf_kernel_trap => 16
  | tf_epc => 24
  | tf_kernel_hartid => 32
  | tf_sp => 48
  | tf_a0 => 112
  | tf_a1 => 120
  | tf_a2 => 128
  | tf_a3 => 136
  | tf_a4 => 144
  | tf_a5 => 152
  | tf_a7 => 168
  end.
Coercion tf_offset : tf_field >-> Z.

Definition TRAPFRAME_SIZE : Z := 288.

(** The bytes of an [int] in memory. *)
Definition int_bytes (x : Z) : list Z := rdbytes (store32 ∅ 0 x) 0 4.

(** [strcpy]-like functions on arrays outside the physical memory: the array
    [old] of [n] bytes and the string [src] are laid out one after the
    other. *)
Definition arr_safestrcpy (old src : list Z) (n : Z) : list Z :=
  rdbytes (CString.safestrcpy (wrbytes (wrbytes ∅ 0 old) n src) 0 n n) 0 (Z.to_nat n).

(** The C string in an array of bytes. *)
Fixpoint cstring (l : list Z) : list Z :=
  match l with [] => [] | c :: l' => if c =? 0 then [] else c :: cstring l' end.

Definition all_procs : list nat := seq 0 NPROC.

Section proc.
Context `{L : Layout} `{E : Env}.

Definition procinit : M K unit :=
  initlock pid_lk;;
  initlock wait_lk;;
  for_each all_procs (fun p =>
    initlock (proc_lk p);;
    upd_proc p (fun x => x <| p_state := UNUSED |>);;
    upd_proc p (fun x => x <| p_kstack := KSTACK (Z.of_nat p) |>)).

Definition mlfq_init : M K unit :=
  for_each (seq 0 MLFQ_LEVELS) (fun i =>
    modify (fun s => s <| k_mlfqs ::= fun t => <[i := (t i) <| head := 0 |>]> t |>);;
    modify (fun s => s <| k_mlfqs ::= fun t => <[i := (t i) <| tail := 0 |>]> t |>);;
    modify (fun s => s <| k_mlfqs ::= fun t => <[i := (t i) <| size := 0 |>]> t |>)).

Definition cpuid : M K Z := gets (fun s => c_id (k_cpu s)).

(** [myproc()], dereferenced. *)
Definition cur : M K nat := o ← myproc; deref o.

Definition allocpid : M K Z :=
  acquire pid_lk;;
  pid ← gets k_nextpid;
  n ← int_op (pid + 1);
  modify (fun s => s <| k_nextpid := n |>);;
  release pid_lk;;
  mret pid.

Definition freeproc (p : nat) : M K unit :=
  x ← get_proc p;
  when (negb (p_trapframe x =? 0)) (vm (kfree (p_trapframe x)));;
  upd_proc p (fun x => x <| p_trapframe := 0 |>);;
  when (negb (p_pagetable x =? 0)) (vm (proc_freepagetable (p_pagetable x) (p_sz x)));;
  when (negb (p_trapframe_backup x =? 0)) (vm (kfree (p_trapframe_backup x)));;
  upd_proc p (fun x => x <| p_pagetable := 0 |>);;
  upd_proc p (fun x => x <| p_sz := 0 |>);;
  upd_proc p (fun x => x <| p_pid := 0 |>);;
  upd_proc p (fun x => x <| p_parent := None |>);;
  upd_proc p (fun x => x <| p_name := 0 :: drop 1 (p_name x) |>);;
  upd_proc p (fun x => x <| p_chan := 0 |>);;
  upd_proc p (fun x => x <| p_killed := 0 |>);;
  upd_proc p (fun x => x <| p_xstate := 0 |>);;
  upd_proc p (fun x => x <| p_state := UNUSED |>);;
  upd_proc p (fun x => x <| p_alarm_flag := 0 |>);;
  upd_proc p (fun x => x <| p_alarm_ticks := 0 |>);;
  upd_proc p (fun x => x <| p_current_ticks := 0 |>);;
  upd_proc p (fun x => x <| p_alarm_handler := 0 |>);;
  upd_proc p (fun x => x <| p_start_ticks := 0 |>);;
  upd_proc p (fun x => x <| p_tickets := 0 |>);;
  upd_proc p (fun x => x <| p_sleep_ticks := 0 |>);;
  upd_proc p (fun x => x <| p_run_ticks := 0 |>);;
  upd_proc p (fun x => x <| p_ready_ticks := 0 |>);;
  upd_proc p (fun x => x <| p_static_priority := 0 |>);;
  upd_proc p (fun x => x <| p_num_scheduled := 0 |>);;
  upd_proc p (fun x => x <| p_curr_q := 0 |>);;
  upd_proc p (fun x => x <| p_qued_fl := 0 |>);;
  for_each (seq 0 MLFQ_LEVELS) (fun i => upd_proc p (fun x => x <| p_q_ticks ::= fun t => <[i := 0]> t |>));;
  upd_proc p (fun x => x <| p_q_enter_time := 0 |>);;
  upd_proc p (fun x => x <| p_cq_rticks := 0 |>).

Definition allocproc : M K (option nat) :=
  r ← for_first all_procs (fun p =>
    acquire (proc_lk p);;
    x ← get_proc p;
    if decide (p_state x = UNUSED) then mret (Some p)
    else release (proc_lk p);; mret None);
  match r with
  | None => mret None
  | Some p =>
      (* found: *)
      pid ← allocpid;
      upd_proc p (fun x => x <| p_pid := pid |>);;
      upd_proc p (fun x => x <| p_state := USED |>);;
      tf ← vm kalloc;
      upd_proc p (fun x => x <| p_trapframe := tf |>);;
      if tf =? 0 then freeproc p;; release (proc_lk p);; mret None else
      pt ← vm (proc_pagetable tf);
      upd_proc p (fun x => x <| p_pagetable := pt |>);;
      if pt =? 0 then freeproc p;; release (proc_lk p);; mret None else
      upd_proc p (fun x => x <| p_context := mkContext 0 0 (replicate 12 0) |>);;
      upd_proc p (fun x => x <| p_context ::= fun c => c <| ctx_ra := sym_forkret |> |>);;
      upd_proc p (fun x => x <| p_context ::= fun c => c <| ctx_sp := u64 (p_kstack x + PGSIZE) |> |>);;
      upd_proc p (fun x => x <| p_alarm_flag := 0 |>);;
      upd_proc p (fun x => x <| p_alarm_ticks := 0 |>);;
      upd_proc p (fun x => x <| p_current_ticks := 0 |>);;
      upd_proc p (fun x => x <| p_alarm_handler := 0 |>);;
      upd_proc p (fun x => x <| p_tickets := 1 |>);;
      upd_proc p (fun x => x <| p_sleep_ticks := 0 |>);;
      upd_proc p (fun x => x <| p_run_ticks := 0 |>);;
      upd_proc p (fun x => x <| p_ready_ticks := 0 |>);;
      upd_proc p (fun x => x <| p_static_priority := 60 |>);;
      upd_proc p (fun x => x <| p_num_scheduled := 0 |>);;
      ticks ← gets k_ticks;
      upd_proc p (fun x => x <| p_start_ticks := ticks |>);;
      upd_proc p (fun x => x <| p_rtime := 0 |>);;
      upd_proc p (fun x => x <| p_etime := 0 |>);;
      upd_proc p (fun x => x <| p_ctime := ticks |>);;
      upd_proc p (fun x => x <| p_curr_q := 0 |>);;
      for_each (seq 0 MLFQ_LEVELS) (fun i => upd_proc p (fun x => x <| p_q_ticks ::= fun t => <[i := 0]> t |>));;
      upd_proc p (fun x => x <| p_q_enter_time := ticks |>);;
      zoom (mlfq_lens 0) (que_push (Some p));;
      upd_proc p (fun x => x <| p_qued_fl := 1 |>);;
      upd_proc p (fun x => x <| p_cq_rticks := 0 |>);;
      mret (Some p)
  end.

Definition growproc (n : Z) : M K Z :=
  p ← cur;
  x ← get_proc p;
  let sz := p_sz x in
  if 0 <? n then
    sz ← vm (uvmalloc (p_pagetable x) sz (u64 (sz + n)) PTE_W);
    if sz =? 0 then mret (-1) else
    upd_proc p (fun x => x <| p_sz := sz |>);; mret 0
  else
    sz ← (if n <? 0 then vm (uvmdealloc (p_pagetable x) sz (u64 (sz + n))) else mret sz);
    upd_proc p (fun x => x <| p_sz := sz |>);; mret 0.

(** ** Switching threads *)

Definition sched : M K unit :=
  p ← cur;
  s ← get;
  if negb (p_lock (k_proc s p)) then panic "sched p->lock" else
  if negb (c_noff (k_cpu s) =? 1) then panic "sched locks" else
  if decide (p_state (k_proc s p) = RUNNING) then panic "sched running" else
  if c_sie (k_cpu s) then panic "sched interruptible" else
  let intena := c_intena (k_cpu s) in
  swtch;;
  upd_cpu (fun c => c <| c_intena := intena |>).

Definition yield : M K unit :=
  p ← cur;
  acquire (proc_lk p);;
  upd_proc p (fun x => x <| p_state := RUNNABLE |>);;
  sched;;
  release (proc_lk p).

Definition sleep (chan : Z) (lk : lens bool K) : M K unit :=
  p ← cur;
  acquire (proc_lk p);;
  release lk;;
  upd_proc p (fun x => x <| p_chan := chan |>);;
  upd_proc p (fun x => x <| p_state := SLEEPING |>);;
  sched;;
  upd_proc p (fun x => x <| p_chan := 0 |>);;
  release (proc_lk p);;
  acquire lk.

Definition wakeup (chan : Z) : M K unit :=
  for_each all_procs (fun p =>
    me ← myproc;
    if bool_decide (Some p = me) then mret tt else
    acquire (proc_lk p);;
    x ← get_proc p;
    when (bool_decide (p_state x = SLEEPING) && (p_chan x =? chan))
      (upd_proc p (fun x => x <| p_state := RUNNABLE |>));;
    release (proc_lk p)).

Definition kill (pid : Z) : M K Z :=
  r ← for_first all_procs (fun p =>
    acquire (proc_lk p);;
    x ← get_proc p;
    if p_pid x =? pid then
      upd_proc p (fun x => x <| p_killed := 1 |>);;
      when (bool_decide (p_state x = SLEEPING)) (upd_proc p (fun x => x <| p_state := RUNNABLE |>));;
      release (proc_lk p);;
      mret (Some 0)
    else release (proc_lk p);; mret None);
  mret (default (-1) r).

Definition setkilled (p : nat) : M K unit :=
  acquire (proc_lk p);;
  upd_proc p (fun x => x <| p_killed := 1 |>);;
  release (proc_lk p).

Definition killed (p : nat) : M K Z :=
  acquire (proc_lk p);;
  x ← get_proc p;
  release (proc_lk p);;
  mret (p_killed x).

Definition reparent (p : nat) : M K unit :=
  for_each all_procs (fun pp =>
    x ← get_proc pp;
    if bool_decide (p_parent x = Some p) then
      init ← gets k_initproc;
      upd_proc pp (fun x => x <| p_parent := init |>);;
      wakeup (chan_of init)
    else mret tt).

(** ** [wait] and [waitx] *)

(** The body of the loop over the table in [wait] called by [p]: [inr] is
    the return value, [inl] is [havekids]. *)
Definition wait_scan (addr : Z) (p pp : nat) (havekids : bool) : M K (bool + Z) :=
  x ← get_proc pp;
  if bool_decide (p_parent x = Some p) then
    acquire (proc_lk pp);;
    x ← get_proc pp;
    if decide (p_state x = ZOMBIE) then
      let pid := p_pid x in
      me ← get_proc p;
      r ← (if negb (addr =? 0) then vm (copyout (p_pagetable me) addr (int_bytes (p_xstate x))) else mret 0);
      if r <? 0 then
        release (proc_lk pp);;
        release wait_lk;;
        mret (inr (-1))
      else
      freeproc pp;;
      release (proc_lk pp);;
      release wait_lk;;
      mret (inr pid)
    else
    release (proc_lk pp);;
    mret (inl true)
  else mret (inl havekids).

Definition wait (addr : Z) : M K Z :=
  p ← cur;
  acquire wait_lk;;
  while (fun _ : unit =>
    r ← for_st all_procs (wait_scan addr p) false;
    match r with
    | inr pid => mret (inr pid)
    | inl havekids =>
        quit ← (if negb havekids then mret true else k ← killed p; mret (negb (k =? 0)));
        if (quit : bool) then release wait_lk;; mret (inr (-1)) else
        sleep (chan_proc p) wait_lk;;
        mret (inl tt)
    end) tt.

(** The values stored through [wtime] and [rtime] are the second component
    of the result, [None] when nothing was stored. *)
Definition waitx (addr : Z) : M K (Z * option (Z * Z)) :=
  p ← cur;
  acquire wait_lk;;
  while (fun _ : unit =>
    r ← for_st all_procs (fun np havekids =>
      x ← get_proc np;
      if bool_decide (p_parent x = Some p) then
        acquire (proc_lk np);;
        x ← get_proc np;
        if decide (p_state x = ZOMBIE) then
          let pid := p_pid x in
          let rtime := p_rtime x in
          let wtime := u32 (p_etime x - p_ctime x - p_rtime x) in
          me ← get_proc p;
          r ← (if negb (addr =? 0) then vm (copyout (p_pagetable me) addr (int_bytes (p_xstate x))) else mret 0);
          if r <? 0 then
            release (proc_lk np);;
            release wait_lk;;
            mret (inr (-1, Some (wtime, rtime)))
          else
          freeproc np;;
          release (proc_lk np);;
          release wait_lk;;
          mret (inr (pid, Some (wtime, rtime)))
        else
        release (proc_lk np);;
        mret (inl true)
      else mret (inl havekids)) false;
    match r with
    | inr v => mret (inr v)
    | inl havekids =>
        x ← get_proc p;
        if negb havekids || negb (p_killed x =? 0) then release wait_lk;; mret (inr (-1, None)) else
        sleep (chan_proc p) wait_lk;;
        mret (inl tt)
    end) tt.

(** ** Ticks and queues *)

Definition queue_switch : M K unit :=
  for_each (seq 1 (MLFQ_LEVELS - 1)) (fun q =>
    while (fun _ : unit =>
      e ← zoom (mlfq_lens q) que_empty;
      if (e : bool) then mret (inr tt) else
      o ← zoom (mlfq_lens q) que_front;
      p ← deref o;
      acquire (proc_lk p);;
      x ← get_proc p;
      ticks ← gets k_ticks;
      if bool_decide (p_state x = RUNNABLE) && (30 <? u64 (ticks - p_q_enter_time x)) then
        zoom (mlfq_lens q) que_pop;;
        n ← int_op (p_curr_q x - 1);
        upd_proc p (fun x => x <| p_curr_q := n |>);;
        upd_proc p (fun x => x <| p_cq_rticks := 0 |>);;
        zoom (mlfq_lens (q - 1)) (que_push (Some p));;
        release (proc_lk p);;
        mret (inl tt)
      else
        release (proc_lk p);;
        mret (inr tt)) tt).

(** An access to [p->q_ticks[i]] or [mlfqs[i]]. *)
Definition level (i : Z) : M K nat :=
  if (0 <=? i) && (i <? Z.of_nat MLFQ_LEVELS) then mret (Z.to_nat i) else fault.

Definition update_ticks : M K unit :=
  for_each all_procs (fun p =>
    acquire (proc_lk p);;
    x ← get_proc p;
    match p_state x with
    | RUNNING =>
        upd_proc p (fun x => x <| p_run_ticks := u64 (p_run_ticks x + 1) |>);;
        upd_proc p (fun x => x <| p_rtime := u32 (p_rtime x + 1) |>);;
        upd_proc p (fun x => x <| p_cq_rticks := u64 (p_cq_rticks x + 1) |>);;
        i ← level (p_curr_q x);
        upd_proc p (fun x => x <| p_q_ticks ::= fun t => <[i := u64 (t i + 1)]> t |>)
    | SLEEPING => upd_proc p (fun x => x <| p_sleep_ticks := u64 (p_sleep_ticks x + 1) |>)
    | RUNNABLE => upd_proc p (fun x => x <| p_ready_ticks := u64 (p_ready_ticks x + 1) |>)
    | _ => mret tt
    end;;
    release (proc_lk p));;
  queue_switch.

(** ** Schedulers

    Each is the body of the infinite loop of [scheduler], which turns
    interrupts on before every round. *)

(** [c->proc = p; swtch(&c->context, &p->context); c->proc = 0;] *)
Definition dispatch (p : nat) : M K unit :=
  upd_cpu (fun c => c <| c_proc := Some p |>);;
  run p;;
  upd_cpu (fun c => c <| c_proc := None |>).

(** The body of the loop of [fcfs_scheduler]. *)
Definition fcfs_step (p : nat) (st : option nat * Z) : M K (option nat * Z + unit) :=
  let '(min_proc, min_sticks) := st in
  acquire (proc_lk p);;
  x ← get_proc p;
  '(min_proc, min_sticks) ←
    (if decide (p_state x = RUNNABLE) then
       let '(min_proc, min_sticks) :=
         if min_sticks =? u64 (-1) then (Some p, p_start_ticks x) else (min_proc, min_sticks) in
       if p_start_ticks x <? min_sticks then
         m ← deref min_proc;
         release (proc_lk m);;
         mret (Some p, p_start_ticks x)
       else mret (min_proc, min_sticks)
     else mret (min_proc, min_sticks));
  when (negb (bool_decide (min_proc = Some p))) (release (proc_lk p));;
  mret (inl (min_proc, min_sticks)).

Definition fcfs_scheduler : M K unit :=
  r ← for_st all_procs fcfs_step (None, u64 (-1));
  match r with
  | inr _ => mret tt
  | inl (min_proc, min_sticks) =>
      if min_sticks =? u64 (-1) then mret tt else
      m ← deref min_proc;
      x ← get_proc m;
      if negb (bool_decide (p_state x = RUNNABLE)) then release (proc_lk m) else
      upd_proc m (fun x => x <| p_state := RUNNING |>);;
      dispatch m;;
      release (proc_lk m)
  end.

Definition round_robin_scheduler : M K unit :=
  for_each all_procs (fun p =>
    acquire (proc_lk p);;
    x ← get_proc p;
    when (bool_decide (p_state x = RUNNABLE))
      (upd_proc p (fun x => x <| p_state := RUNNING |>);;
       dispatch p);;
    release (proc_lk p)).

Definition rand : M K Z :=
  s ← get;
  let next := u64 (k_rand s * 1103515245 + k_ticks s) in
  modify (fun s => s <| k_rand := next |>);;
  mret (u32 (next / 65536) mod 32768).

(** The bodies of the two loops of [lottery_scheduler]: counting the tickets
    with all locks taken, and drawing. *)
Definition lottery_count (p : nat) (total_tickets : Z) : M K (Z + unit) :=
  acquire (proc_lk p);;
  x ← get_proc p;
  if decide (p_state x = RUNNABLE) then
    n ← int_op (total_tickets + p_tickets x); mret (inl n)
  else mret (inl total_tickets).

Definition lottery_draw (tochoose : Z) (p : nat) (st : Z * option nat) : M K (Z * option nat + unit) :=
  let '(curr, win) := st in
  x ← get_proc p;
  if decide (p_state x = RUNNABLE) then
    curr ← int_op (curr + p_tickets x);
    if (tochoose <=? curr) && bool_decide (win = None) then mret (inl (curr, Some p))
    else release (proc_lk p);; mret (inl (curr, win))
  else release (proc_lk p);; mret (inl (curr, win)).

Definition lottery_scheduler : M K unit :=
  r ← for_st all_procs lottery_count 0;
  match r with
  | inr _ => mret tt
  | inl total_tickets =>
      if total_tickets =? 0 then for_each all_procs (fun p => release (proc_lk p)) else
      r ← rand;
      let tochoose := Z.rem r total_tickets in
      w ← for_st all_procs (lottery_draw tochoose) (0, None);
      match w with
      | inl (_, Some win) =>
          x ← get_proc win;
          if negb (bool_decide (p_state x = RUNNABLE)) then release (proc_lk win) else
          upd_proc win (fun x => x <| p_state := RUNNING |>);;
          dispatch win;;
          release (proc_lk win)
      | _ => mret tt
      end
  end.

Definition dynamic_priority (x : proc) : M K Z :=
  let t := u64 (p_sleep_ticks x + p_run_ticks x) in
  niceness ← (if t =? 0 then mret 5 else int_op (i32 (p_sleep_ticks x / t) * 10));
  d ← int_op (p_static_priority x - niceness);
  DP ← int_op (d + 5);
  let DP := if 100 <? DP then 100 else DP in
  mret (if DP <? 0 then 0 else DP).

(** The body of the loop of [priority_scheduler]. *)
Definition priority_step (p : nat) (high_proc : option nat) : M K (option nat + unit) :=
  acquire (proc_lk p);;
  x ← get_proc p;
  high_proc ←
    (if decide (p_state x = RUNNABLE) then
       match high_proc with
       | None => mret (Some p)
       | Some h =>
           y ← get_proc h;
           high_priority ← dynamic_priority y;
           curr_priority ← dynamic_priority x;
           if curr_priority <? high_priority then release (proc_lk h);; mret (Some p)
           else if curr_priority =? high_priority then
             if p_num_scheduled x <? p_num_scheduled y then release (proc_lk h);; mret (Some p)
             else if p_num_scheduled x =? p_num_scheduled y then
               if p_start_ticks x <? p_start_ticks y then release (proc_lk h);; mret (Some p)
               else mret high_proc
             else mret high_proc
           else mret high_proc
       end
     else mret high_proc);
  when (negb (bool_decide (Some p = high_proc))) (release (proc_lk p));;
  mret (inl high_proc).

Definition priority_scheduler : M K unit :=
  r ← for_st all_procs priority_step None;
  match r with
  | inl (Some h) =>
      x ← get_proc h;
      when (bool_decide (p_state x = RUNNABLE))
        (upd_proc h (fun x => x <| p_state := RUNNING |>);;
         upd_proc h (fun x => x <| p_num_scheduled := u64 (p_num_scheduled x + 1) |>);;
         upd_proc h (fun x => x <| p_run_ticks := 0 |>);;
         upd_proc h (fun x => x <| p_sleep_ticks := 0 |>);;
         dispatch h);;
      release (proc_lk h)
  | _ => mret tt
  end.

Definition mlfq_scheduler : M K unit :=
  queue_switch;;
  for_each all_procs (fun p =>
    acquire (proc_lk p);;
    x ← get_proc p;
    when (bool_decide (p_state x = RUNNABLE) && (p_qued_fl x =? 0))
      (ticks ← gets k_ticks;
       upd_proc p (fun x => x <| p_q_enter_time := ticks |>);;
       upd_proc p (fun x => x <| p_cq_rticks := 0 |>);;
       upd_proc p (fun x => x <| p_qued_fl := 1 |>);;
       i ← level (p_curr_q x);
       zoom (mlfq_lens i) (que_push (Some p)));;
    release (proc_lk p));;
  torun ← for_first (seq 0 MLFQ_LEVELS) (fun q =>
    while (fun _ : unit =>
      e ← zoom (mlfq_lens q) que_empty;
      if (e : bool) then mret (inr None) else
      o ← zoom (mlfq_lens q) que_pop;
      p ← deref o;
      acquire (proc_lk p);;
      upd_proc p (fun x => x <| p_qued_fl := 0 |>);;
      x ← get_proc p;
      if decide (p_state x = RUNNABLE) then mret (inr (Some p)) else
      release (proc_lk p);;
      mret (inl tt)) tt);
  match torun with
  | None => mret tt
  | Some p =>
      upd_proc p (fun x => x <| p_state := RUNNING |>);;
      dispatch p;;
      ticks ← gets k_ticks;
      upd_proc p (fun x => x <| p_q_enter_time := ticks |>);;
      upd_proc p (fun x => x <| p_cq_rticks := 0 |>);;
      upd_proc p (fun x => x <| p_qued_fl := 1 |>);;
      x ← get_proc p;
      i ← level (p_curr_q x);
      zoom (mlfq_lens i) (que_push (Some p));;
      release (proc_lk p)
  end.

(** Which scheduler the kernel is built with ([SCHEDULER] in the Makefile). *)
Inductive policy := RR | FCFS | LBS | PBS | MLFQ.

Definition round (pol : policy) : M K unit :=
  match pol with
  | LBS => lottery_scheduler
  | RR => round_robin_scheduler
  | FCFS => fcfs_scheduler
  | PBS => priority_scheduler
  | MLFQ => mlfq_scheduler
  end.

(** [n] iterations of the loop of [scheduler]. *)
Fixpoint scheduler_rounds (pol : policy) (n : nat) : M K unit :=
  match n with
  | O => mret tt
  | S n' => upd_cpu (fun c => c <| c_sie := true |>);; round pol;; scheduler_rounds pol n'
  end.

Definition scheduler (pol : policy) (n : nat) : M K unit :=
  upd_cpu (fun c => c <| c_proc := None |>);;
  scheduler_rounds pol n.

(** ** Copying to and from user or kernel memory

    The kernel side of a copy is a variable of the caller ([Local], whose
    bytes the caller gets as a result) or an address in physical memory. *)
Inductive kdst := UserDst (va : Z) | KernDst (pa : Z) | Local.
Inductive ksrc := UserSrc (va : Z) | KernSrc (l : list Z).

Definition either_copyout (dst : kdst) (src : list Z) : M K Z :=
  p ← myproc;
  match dst with
  | UserDst va => p ← deref p; x ← get_proc p; vm (copyout (p_pagetable x) va src)
  | KernDst pa => vm (set_mem (fun m => wrbytes m pa src));; mret 0
  | Local => mret 0
  end.

Definition either_copyin (src : ksrc) (len : Z) : M K (Z * list Z) :=
  p ← myproc;
  match src with
  | UserSrc va => p ← deref p; x ← get_proc p; vm (copyin (p_pagetable x) va len)
  | KernSrc l => mret (0, take (Z.to_nat len) l)
  end.

Definition state_name (st : procstate) : list Z :=
  bytes match st with
  | UNUSED => "unused"
  | USED => "used"
  | SLEEPING => "sleep "
  | RUNNABLE => "runble"
  | RUNNING => "run   "
  | ZOMBIE => "zombie"
  end.

Definition procdump : M K unit :=
  printf newline [];;
  for_each all_procs (fun p =>
    x ← get_proc p;
    if decide (p_state x = UNUSED) then mret tt else
    printf "%d %s %s %d %d %d %d %d %d %d"
      ([AInt (p_pid x); AStr (Some (state_name (p_state x))); AStr (Some (cstring (p_name x)))] ++
       ((fun i => AInt (i32 (p_q_ticks x i))) <$> seq 0 5) ++
       [AInt (p_tickets x); AInt (p_static_priority x)]);;
    printf newline []).

(** ** System calls of this kernel: tracing, alarms, tickets, priorities *)

Definition trace (mask : Z) : M K unit :=
  p ← cur;
  upd_proc p (fun x => x <| p_mask := u32 mask |>).

Definition sigalarm (ticks handler : Z) : M K unit :=
  p ← cur;
  upd_proc p (fun x => x <| p_alarm_ticks := ticks |>);;
  upd_proc p (fun x => x <| p_alarm_handler := handler |>);;
  upd_proc p (fun x => x <| p_alarm_flag := 1 |>).

Definition copy_field (dst src off : Z) : M kst unit :=
  v ← read64 (src + off); write64 (dst + off) v.

Definition sigreturn : M K unit :=
  p ← cur;
  x ← get_proc p;
  let tf := p_trapframe x in
  let backup := p_trapframe_backup x in
  nonnull backup;;
  nonnull tf;;
  vm (copy_field backup tf tf_kernel_hartid);;
  vm (copy_field backup tf tf_kernel_satp);;
  vm (copy_field backup tf tf_kernel_trap);;
  vm (copy_field backup tf tf_kernel_sp);;
  vm (set_mem (fun m => CString.memmove m tf backup TRAPFRAME_SIZE));;
  vm (kfree backup);;
  upd_proc p (fun x => x <| p_trapframe_backup := 0 |>);;
  upd_proc p (fun x => x <| p_alarm_flag := 1 |>);;
  upd_proc p (fun x => x <| p_current_ticks := 0 |>);;
  when ((p_alarm_ticks x =? 0) && (p_alarm_handler x =? 0)) (upd_proc p (fun x => x <| p_alarm_flag := 0 |>));;
  a0 ← vm (read64 (tf + tf_a0));
  upd_proc p (fun x => x <| p_a0_backup := a0 |>).

Definition settickets (number : Z) : M K unit :=
  p ← cur;
  upd_proc p (fun x => x <| p_tickets := number |>).

Definition set_priority (priority pid : Z) : M K Z :=
  r ← for_first all_procs (fun p =>
    acquire (proc_lk p);;
    x ← get_proc p;
    if p_pid x =? pid then
      let old_priority := p_static_priority x in
      upd_proc p (fun x => x <| p_static_priority := priority |>);;
      upd_proc p (fun x => x <| p_run_ticks := 0 |>);;
      upd_proc p (fun x => x <| p_sleep_ticks := 0 |>);;
      release (proc_lk p);;
      when (priority <? old_priority) yield;;
      mret (Some old_priority)
    else release (proc_lk p);; mret None);
  mret (default (-1) r).

End proc.
