(* ===== verification/KWp.v ===== *)
(** * KWp: rules for the kernel's locks and threads

    What [acquire], [release], [myproc] and the loops over the process table
    do to the state, as rules for [wp].  Nested [push_off]s leave the
    interrupt bookkeeping of the CPU as it was, up to [ceq]: the saved
    interrupt state [intena] means nothing while no lock is held. *)

From stdpp Require Import base list gmap functions strings.
From Stdlib Require Import ZArith Lia.
From S2P Require Import Prelude CMem Riscv Spinlock Kalloc Vm Que KState Printf Proc.

(** ** The CPU *)

Definition c_push (c : kcpu) : kcpu :=
  mkKcpu (c_proc c) (c_noff c + 1) (if c_noff c =? 0 then c_sie c else c_intena c) false (c_id c).

Definition c_pop (c : kcpu) : kcpu :=
  mkKcpu (c_proc c) (c_noff c - 1) (c_intena c) (c_sie c || ((c_noff c - 1 =? 0) && c_intena c)) (c_id c).

(** Interrupts are off while a lock is held. *)
Definition cpu_ok (c : kcpu) : Prop := 0 <= c_noff c /\ (0 < c_noff c -> c_sie c = false).

Definition ceq (c c' : kcpu) : Prop :=
  c_proc c' = c_proc c /\ c_noff c' = c_noff c /\ c_sie c' = c_sie c /\ c_id c' = c_id c /\
  (c_noff c <> 0 -> c_intena c' = c_intena c).

#[export] Instance ceq_equiv : Equivalence ceq.
Proof.
  split.
  - by repeat split.
  - intros c c' (? & ? & ? & ? & H). repeat split; try congruence. intros Hn. symmetry. apply H. congruence.
  - intros c c' c'' (? & ? & ? & ? & H) (? & ? & ? & ? & H'). repeat split; try congruence.
    intros Hn. rewrite H' by congruence. by apply H.
Qed.

Lemma ceq_ok c c' : ceq c c' -> cpu_ok c -> cpu_ok c'.
Proof. intros (_ & Hn & Hs & _ & _) [? ?]. unfold cpu_ok. rewrite Hn, Hs. done. Qed.

Lemma c_push_ok c : cpu_ok c -> cpu_ok (c_push c).
Proof. intros [? ?]. split; cbn; [lia|done]. Qed.

(** Undoing a [push_off] after a balanced section. *)
Lemma c_pop_push c c' : cpu_ok c -> ceq (c_push c) c' -> ceq c (c_pop c').
Proof.
  intros [Hn Hs] (E1 & E2 & E3 & E4 & E5). cbn in *. unfold ceq. cbn. rewrite E1, E2, E3, E4, E5 by lia.
  replace (c_noff c + 1 - 1) with (c_noff c) by lia.
  destruct (Z.eqb_spec (c_noff c) 0); cbn; repeat split; try done; try lia.
  symmetry. apply Hs. lia.
Qed.

Lemma ceq_push c c' : ceq c c' -> ceq (c_push c) (c_push c').
Proof.
  intros (E1 & E2 & E3 & E4 & E5). unfold ceq. cbn. rewrite E1, E2, E3, E4. repeat split.
  intros _. destruct (Z.eqb_spec (c_noff c) 0) as [|Hn]; [done|auto].
Qed.

Lemma wp_push_off (Q : unit -> K -> Prop) s : Q tt (s <| k_cpu := c_push (k_cpu s) |>) -> wp push_off Q s.
Proof.
  intros HQ. unfold push_off. wp_steps. unfold c_push in HQ.
  destruct (c_noff (k_cpu s) =? 0); wp_steps; exact HQ.
Qed.

Lemma wp_pop_off (Q : unit -> K -> Prop) s :
  c_sie (k_cpu s) = false -> 1 <= c_noff (k_cpu s) ->
  Q tt (s <| k_cpu := c_pop (k_cpu s) |>) -> wp pop_off Q s.
Proof.
  intros Hs Hn HQ. unfold pop_off. wp_steps. rewrite Hs. destruct (Z.ltb_spec (c_noff (k_cpu s)) 1); [lia|].
  wp_steps. rsimpl. unfold c_pop in HQ. rewrite Hs in HQ. cbn [orb] in HQ.
  destruct ((c_noff (k_cpu s) - 1 =? 0) && c_intena (k_cpu s)); wp_steps; [exact HQ|].
  rewrite <- Hs in HQ. exact HQ.
Qed.

Lemma wp_myproc (Q : option nat -> K -> Prop) s :
  cpu_ok (k_cpu s) ->
  (forall c, ceq (k_cpu s) c -> Q (c_proc (k_cpu s)) (s <| k_cpu := c |>)) -> wp myproc Q s.
Proof.
  intros Hc HQ. unfold myproc. apply wp_bind, wp_push_off. apply wp_bind, wp_gets, wp_bind.
  pose proof (c_push_ok _ Hc) as Hp. destruct Hc as [Hn Hi].
  apply wp_pop_off; [done|rsimpl; cbn; lia|]. wp_steps.
  apply (HQ (c_pop (c_push (k_cpu s)))). by apply c_pop_push.
Qed.

Lemma wp_cur (Q : nat -> K -> Prop) s p :
  cpu_ok (k_cpu s) -> c_proc (k_cpu s) = Some p ->
  (forall c, ceq (k_cpu s) c -> Q p (s <| k_cpu := c |>)) -> wp cur Q s.
Proof.
  intros Hc Hp HQ. unfold cur. apply wp_bind, wp_myproc; [done|]. intros c Hcc. rewrite Hp. cbn [deref].
  apply wp_ret. by apply HQ.
Qed.

(** ** Locks *)

(** Where a lock bit sits: it can be set and read back, and does not involve
    the CPU. *)
Class LockOk (l : lens bool K) : Prop := {
  lo_get_set b s : lget l (lset l b s) = b;
  lo_get_cpu c s : lget l (s <| k_cpu := c |>) = lget l s;
  lo_cpu_set b s : k_cpu (lset l b s) = k_cpu s;
}.

#[export] Instance pid_lk_ok : LockOk pid_lk.
Proof. by split. Qed.
#[export] Instance wait_lk_ok : LockOk wait_lk.
Proof. by split. Qed.
#[export] Instance ticks_lk_ok : LockOk ticks_lk.
Proof. by split. Qed.
#[export] Instance proc_lk_ok p : LockOk (proc_lk p).
Proof. split; try done. intros b s. cbn. rsimpl. by rewrite fn_lookup_insert. Qed.
#[export] Instance ft_lk_ok : LockOk ft_lk.
Proof. by split. Qed.
#[export] Instance it_lk_ok : LockOk it_lk.
Proof. by split. Qed.
#[export] Instance bc_lk_ok : LockOk bc_lk.
Proof. by split. Qed.
#[export] Instance log_lk_ok : LockOk log_lk.
Proof. by split. Qed.
#[export] Instance cons_lk_ok : LockOk cons_lk.
Proof. by split. Qed.
#[export] Instance uart_lk_ok : LockOk uart_lk.
Proof. by split. Qed.
#[export] Instance pr_lk_ok : LockOk pr_lk.
Proof. by split. Qed.
#[export] Instance pipe_lk_ok pi : LockOk (pipe_lk pi).
Proof. split; try done. intros b s. cbn. rsimpl. by rewrite fn_lookup_insert. Qed.

Lemma wp_acquire l `{!LockOk l} (Q : unit -> K -> Prop) s :
  lget l s = false -> Q tt (lset l true (s <| k_cpu := c_push (k_cpu s) |>)) -> wp (acquire l) Q s.
Proof.
  intros Hl HQ. unfold acquire. apply wp_bind, wp_push_off. wp_steps. rewrite lo_get_cpu, Hl. by wp_steps.
Qed.

Lemma wp_release l `{!LockOk l} (Q : unit -> K -> Prop) s :
  lget l s = true -> c_sie (k_cpu s) = false -> 1 <= c_noff (k_cpu s) ->
  Q tt (lset l false s <| k_cpu := c_pop (k_cpu s) |>) -> wp (release l) Q s.
Proof.
  intros Hl Hs Hn HQ. unfold release. wp_steps. rewrite Hl. wp_steps.
  apply wp_pop_off; rewrite ?lo_cpu_set; done.
Qed.

(** A critical section: the body runs with the lock held and, whatever it
    does, leaves the CPU as it found it. *)
Lemma wp_section l `{!LockOk l} {A} (m : M K A) (Q : A -> K -> Prop) s :
  cpu_ok (k_cpu s) -> lget l s = false ->
  wp m (fun a s' => lget l s' = true /\ ceq (c_push (k_cpu s)) (k_cpu s') /\
    forall c, ceq (k_cpu s) c -> Q a (lset l false s' <| k_cpu := c |>))
    (lset l true (s <| k_cpu := c_push (k_cpu s) |>)) ->
  wp (acquire l;; a ← m; release l;; mret a) Q s.
Proof.
  intros Hc Hl Hm. apply wp_bind, wp_acquire; [done|done|]. apply wp_bind.
  eapply wp_mono; [exact Hm|]. intros a s' (Hl' & Hceq & HQ). apply wp_bind.
  pose proof (ceq_ok _ _ Hceq (c_push_ok _ Hc)) as [Hn Hi].
  assert (c_noff (k_cpu s') = c_noff (k_cpu s) + 1) as En by apply Hceq. destruct Hc as [Hn0 Hi0].
  apply wp_release; [done|done|apply Hi; lia|lia|]. wp_steps. apply HQ. by apply c_pop_push.
Qed.

(** ** The process table *)

(** The state with another process table and CPU. *)
Definition ps (s : K) (t : nat -> proc) (c : kcpu) : K := s <| k_proc := t |> <| k_cpu := c |>.

Lemma ps_id s : ps s (k_proc s) (k_cpu s) = s.
Proof. by destruct s. Qed.

Lemma ps_ps s t c t' c' : ps (ps s t c) t' c' = ps s t' c'.
Proof. done. Qed.

Ltac ksimpl_step :=
  first
  [ rsimpl_step
  | match goal with
    | |- context [k_proc (ps ?s ?t ?c)] => change (k_proc (ps s t c)) with t
    | |- context [k_cpu (ps ?s ?t ?c)] => change (k_cpu (ps s t c)) with c
    | |- context [?pr (ps ?s ?t ?c)] => change (pr (ps s t c)) with (pr s)
    | |- context [ps (ps ?s _ _) ?t ?c] => change (ps (ps s _ _) t c) with (ps s t c)
    end ].
Ltac ksimpl := repeat (ksimpl_step; cbv beta).

Ltac ksimpl_in_step H :=
  first
  [ rsimpl_in_step H
  | match type of H with
    | context [k_proc (ps ?s ?t ?c)] => change (k_proc (ps s t c)) with t in H
    | context [k_cpu (ps ?s ?t ?c)] => change (k_cpu (ps s t c)) with c in H
    | context [?pr (ps ?s ?t ?c)] => change (pr (ps s t c)) with (pr s) in H
    end ].
Ltac ksimpl_in H := repeat (ksimpl_in_step H; cbv beta in H).

(** [t'] is [t] with entry [p] replaced by [x]. *)
Definition upd_at {A} (t : nat -> A) (p : nat) (x : A) (t' : nat -> A) : Prop :=
  forall q, t' q = if decide (q = p) then x else t q.

Lemma upd_at_eq {A} (t : nat -> A) p x t' : upd_at t p x t' -> t' p = x.
Proof. intros H. rewrite H. by rewrite decide_True. Qed.

Lemma upd_at_ne {A} (t : nat -> A) p x t' q : upd_at t p x t' -> q <> p -> t' q = t q.
Proof. intros H Hq. rewrite H. by rewrite decide_False. Qed.

Lemma upd_at_fn {A} (t : nat -> A) p x : upd_at t p x (<[p := x]> t).
Proof.
  intros q. destruct (decide (q = p)) as [->|]; [apply fn_lookup_insert|by apply fn_lookup_insert_ne].
Qed.

Lemma upd_at_insert {A} (t t' : nat -> A) p x y : upd_at t p x t' -> upd_at t p y (<[p := y]> t').
Proof.
  intros H q. destruct (decide (q = p)) as [->|]; [apply fn_lookup_insert|].
  rewrite fn_lookup_insert_ne by done. by rewrite H, decide_False.
Qed.

(** Taking and releasing the lock of one process.  [s] is the state before
    the [acquire]; in between, the code has turned the process into [g]
    (written with its lock free). *)
Lemma wp_lock_proc s p (Q : unit -> K -> Prop) :
  p_lock (k_proc s p) = false ->
  (forall t, upd_at (k_proc s) p ((k_proc s p) <| p_lock := true |>) t -> Q tt (ps s t (c_push (k_cpu s)))) ->
  wp (acquire (proc_lk p)) Q s.
Proof.
  intros Hl HQ. apply wp_acquire; [apply _|done|].
  apply (HQ (<[p := (k_proc s p) <| p_lock := true |>]> (k_proc s))), upd_at_fn.
Qed.

Lemma wp_unlock_proc s p g t c (Q : unit -> K -> Prop) :
  cpu_ok (k_cpu s) -> ceq (c_push (k_cpu s)) c -> p_lock g = false ->
  upd_at (k_proc s) p (g <| p_lock := true |>) t ->
  (forall t' c', ceq (k_cpu s) c' -> upd_at (k_proc s) p g t' -> Q tt (ps s t' c')) ->
  wp (release (proc_lk p)) Q (ps s t c).
Proof.
  intros Hc Hcc Hg Ht HQ. pose proof (ceq_ok _ _ Hcc (c_push_ok _ Hc)) as [Hn Hi].
  assert (c_noff c = c_noff (k_cpu s) + 1) as En by apply Hcc. destruct Hc as [Hn0 Hi0] eqn:EHc.
  apply wp_release; [apply _|cbn; ksimpl; by rewrite (upd_at_eq _ _ _ _ Ht)|ksimpl; apply Hi; lia|ksimpl; lia|].
  apply (HQ (<[p := (t p) <| p_lock := false |>]> t) (c_pop c)).
  - by apply c_pop_push.
  - rewrite (upd_at_eq _ _ _ _ Ht). replace ((_ <| p_lock := true |>) <| p_lock := false |>) with g.
    + by eapply upd_at_insert.
    + by destruct g; cbn in *; subst.
Qed.

(** Assignments to fields of process [p]. *)
Lemma wp_upd_proc s p x t c f (Q : unit -> K -> Prop) :
  upd_at (k_proc s) p x t ->
  (forall t', upd_at (k_proc s) p (f x) t' -> Q tt (ps s t' c)) -> wp (upd_proc p f) Q (ps s t c).
Proof.
  intros Ht HQ. unfold upd_proc. wp_steps. apply (HQ (<[p := f (t p)]> t)).
  rewrite (upd_at_eq _ _ _ _ Ht). by eapply upd_at_insert.
Qed.

Lemma wp_upd_self s p f (Q : unit -> K -> Prop) :
  (forall t, upd_at (k_proc s) p (f (k_proc s p)) t -> Q tt (ps s t (k_cpu s))) -> wp (upd_proc p f) Q s.
Proof.
  intros HQ. unfold upd_proc. wp_steps. apply (HQ (<[p := f (k_proc s p)]> (k_proc s))), upd_at_fn.
Qed.

(** Symbolic execution, assignments to the process of a hypothesis
    [upd_at] included. *)
Ltac pstep :=
  lazymatch goal with
  | H : upd_at _ ?p _ ?t |- wp (upd_proc ?p _) _ (ps _ ?t _) =>
      apply (wp_upd_proc _ _ _ _ _ _ _ H); clear H; let t' := fresh "t" in intros t' H; cbv beta
  | |- _ => wp_step; cbv beta
  end.
Ltac psteps := repeat pstep.

Lemma elem_of_all_procs p : p ∈ all_procs <-> (p < NPROC)%nat.
Proof. unfold all_procs. rewrite elem_of_seq. lia. Qed.

Lemma NoDup_all_procs : NoDup all_procs.
Proof. apply NoDup_seq. Qed.

Lemma split_fresh {A} (l done todo : list A) x : NoDup l -> l = done ++ x :: todo -> (x ∉ done) /\ (x ∈ l).
Proof.
  intros Hn ->. apply NoDup_app in Hn as (_ & Hd & _). split; [|set_solver].
  intros Hx. by apply (Hd x Hx), elem_of_cons; left.
Qed.

(** A loop over the process table whose body turns each process [x] at [p]
    into [g p x]. *)
Lemma wp_each_proc (f : nat -> M K unit) (g : nat -> proc -> proc) s (Q : unit -> K -> Prop) :
  cpu_ok (k_cpu s) ->
  (forall p t c, (p < NPROC)%nat -> ceq (k_cpu s) c -> t p = k_proc s p ->
     wp (f p) (fun _ s' => exists t' c', ceq (k_cpu s) c' /\ upd_at t p (g p (k_proc s p)) t' /\ s' = ps s t' c') (ps s t c)) ->
  (forall t c, ceq (k_cpu s) c ->
     (forall q, t q = if decide (q < NPROC)%nat then g q (k_proc s q) else k_proc s q) -> Q tt (ps s t c)) ->
  wp (for_each all_procs f) Q s.
Proof.
  intros Hc Hf HQ. eapply wp_mono.
  { apply (wp_for_each (fun done s' => exists t c, s' = ps s t c /\ ceq (k_cpu s) c /\
      forall q, t q = if decide (q ∈ done) then g q (k_proc s q) else k_proc s q)).
    - intros done p todo s1 Hl (t & c & -> & Hcc & Ht).
      destruct (split_fresh _ _ _ _ NoDup_all_procs Hl) as [Hp Hin]. apply elem_of_all_procs in Hin.
      assert (t p = k_proc s p) as Etp by (rewrite Ht; by rewrite decide_False).
      eapply wp_mono; [by apply Hf|]. intros [] s2 (t' & c' & Hcc' & Hu & ->).
      exists t', c'. split; [done|]. split; [done|]. intros q. rewrite Hu.
      destruct (decide (q = p)) as [->|Hne].
      + rewrite decide_True; [done|]. set_solver.
      + rewrite Ht. destruct (decide (q ∈ done)) as [Hd|Hd].
        * rewrite decide_True; [done|]. set_solver.
        * rewrite decide_False; [done|]. set_solver.
    - exists (k_proc s), (k_cpu s). split; [by destruct s|]. done. }
  intros [] s' (t & c & -> & Hcc & Ht). apply HQ; [done|]. intros q. rewrite Ht.
  destruct (decide (q ∈ all_procs)) as [Hq|Hq]; rewrite elem_of_all_procs in Hq;
    [by rewrite decide_True|by rewrite decide_False].
Qed.

(** ** [wakeup] *)

(** What [wakeup(chan)], called by [me], makes of process [p]. *)
Definition woken (chan : Z) (me : option nat) (p : nat) (x : proc) : proc :=
  if bool_decide (Some p = me) then x
  else if bool_decide (p_state x = SLEEPING) && (p_chan x =? chan) then x <| p_state := RUNNABLE |> else x.

(** All locks of processes other than the current one are free. *)
Definition locks_free (me : option nat) (t : nat -> proc) : Prop :=
  forall p, (p < NPROC)%nat -> Some p <> me -> p_lock (t p) = false.

Lemma wp_wakeup chan s (Q : unit -> K -> Prop) :
  cpu_ok (k_cpu s) -> locks_free (c_proc (k_cpu s)) (k_proc s) ->
  (forall t c, ceq (k_cpu s) c ->
     (forall p, t p = if decide (p < NPROC)%nat then woken chan (c_proc (k_cpu s)) p (k_proc s p) else k_proc s p) ->
     Q tt (ps s t c)) ->
  wp (wakeup chan) Q s.
Proof.
  intros Hc Hf HQ. unfold wakeup. eapply (wp_each_proc _ (woken chan (c_proc (k_cpu s)))); [done| |done].
  intros p t c Hp Hcc Etp. apply wp_bind, wp_myproc; [by eapply ceq_ok|]. ksimpl. intros c1 Hc1.
  assert (c_proc c = c_proc (k_cpu s)) as -> by apply Hcc.
  assert (ceq (k_cpu s) c1) as Hcc1 by (by etrans).
  unfold woken. destruct (bool_decide (Some p = c_proc (k_cpu s))) eqn:Eme.
  { wp_steps. exists t, c1. split; [done|]. split; [|done].
    intros q. destruct (decide (q = p)) as [->|]; done. }
  apply bool_decide_eq_false in Eme. specialize (Hf p Hp Eme). set (x := k_proc s p) in *.
  apply wp_bind, (wp_lock_proc (ps s t c1)); [ksimpl; by rewrite Etp|]. ksimpl. intros t1 Ht1. wp_steps. ksimpl.
  rewrite (upd_at_eq _ _ _ _ Ht1), Etp. rsimpl.
  set (g := if bool_decide (p_state x = SLEEPING) && (p_chan x =? chan) then x <| p_state := RUNNABLE |> else x).
  assert (forall t2, upd_at t p (g <| p_lock := true |>) t2 ->
    wp (release (proc_lk p)) (fun _ s' => exists t' c', ceq (k_cpu s) c' /\ upd_at t p g t' /\ s' = ps s t' c')
      (ps s t2 (c_push c1))) as Hrel.
  { intros t2 Ht2. eapply (wp_unlock_proc (ps s t c1) p g); [by eapply ceq_ok|done|by unfold g; case_if|exact Ht2|].
    intros t' c' Hc' Ht'. exists t', c'. split; [by etrans|]. done. }
  unfold g in *. rewrite Etp in Ht1. case_if; wp_steps.
  - eapply (wp_upd_proc (ps s t c1)); [exact Ht1|]. ksimpl. intros t2 Ht2. by apply Hrel.
  - by apply Hrel.
Qed.

(** ** Locks held across other operations *)

Lemma wp_release_ceq l `{!LockOk l} c0 (Q : unit -> K -> Prop) s :
  cpu_ok c0 -> ceq (c_push c0) (k_cpu s) -> lget l s = true ->
  (forall c, ceq c0 c -> Q tt (lset l false s <| k_cpu := c |>)) -> wp (release l) Q s.
Proof.
  intros Hc Hcc Hl HQ. pose proof (ceq_ok _ _ Hcc (c_push_ok _ Hc)) as [Hn Hi].
  assert (c_noff (k_cpu s) = c_noff c0 + 1) as En by apply Hcc. destruct Hc as [Hn0 Hi0] eqn:EHc.
  apply wp_release; [done|done|apply Hi; lia|lia|]. apply HQ. by apply c_pop_push.
Qed.

(** The process table with the lock of [mp] taken. *)
Definition held1 (s : K) (mp : option nat) (t : nat -> proc) (c : kcpu) : Prop :=
  match mp with
  | None => ceq (k_cpu s) c /\ forall q, t q = k_proc s q
  | Some m => ceq (c_push (k_cpu s)) c /\ upd_at (k_proc s) m ((k_proc s m) <| p_lock := true |>) t
  end.

Lemma unlocked_eq x : p_lock x = false -> (x <| p_lock := true |>) <| p_lock := false |> = x.
Proof. intros H. destruct x. cbn in *. by subst. Qed.
