(* ===== verification/KDemo.v ===== *)
(** * KDemo: a small concrete kernel

    A kernel state with an empty process table, and surroundings in which a
    dispatched process does nothing but leave its number on the console.
    The examples of the other files start from them. *)

From stdpp Require Import base list gmap functions strings.
From Stdlib Require Import ZArith Lia.
From S2P Require Import Prelude CMem Riscv Spinlock Kalloc Vm Que KState Printf Proc KWp.

Module KDemo.

Definition proc0 : proc :=
  mkProc false UNUSED 0 0 0 0 None 0 0 0 0 (mkContext 0 0 []) (fun _ => None) None [] 0 0 0 0 0 0 0
    0 0 0 0 0 0 0 0 0 0 0 (fun _ => 0) 0 0 0.

Definition unlocked : sleeplock := mkSleeplock 0 false 0.
Definition file0 : file := mkFile FD_NONE 0 0 0 0 None 0 0.
Definition pipe0 : pipe := mkPipe false (fun _ => 0) 0 0 0 0.
Definition inode0 : inode := mkInode 0 0 0 unlocked 0 0 0 0 0 0 (fun _ => 0).
Definition sb0 : superblock := mkSb 0 0 0 0 0 0 0 0.
Definition buf0 : buf := mkBuf 0 0 0 0 unlocked 0 0 0 [].
Definition cpu0 : kcpu := mkKcpu None 0 false true 0.
Definition con0 : console :=
  mkConsole false (fun _ => 0) 0 0 0 false (fun _ => 0) 0 0 false false false [] [] [] false.

Definition vdisk0 : vdisk :=
  mkVdisk 0 0 0 (fun _ => 0) 0 (fun _ => None) (fun _ => 0) (fun _ => mkReq 0 0 0) false
    (fun _ => mkDesc 0 0 0 0) (mkAvail 0 0 (fun _ => 0)) (mkUsed 0 0 (fun _ => (0, 0))) [].

Definition k0 : K :=
  mkKernel (mkK ∅ 0 ∅ false) cpu0 (mkCsrs 0 0 0 0 0 0 0) (fun _ => proc0) None 1 false false 0 false
    (fun _ => mkQue 0 0 0 (fun _ => None)) 0 true
    (mkFtab false (fun _ => file0) (fun _ => pipe0)) (mkItab false (fun _ => inode0) sb0)
    (mkBcache false (fun _ => buf0)) (mkLog false 0 0 0 0 0 0 (fun _ => 0)) (mkDisk ∅ []) vdisk0 con0 0 false.

Lemma cpu0_ok : cpu_ok cpu0.
Proof. by split; cbn. Qed.

(** The table with the given processes. *)
Definition with_procs (l : list (nat * proc)) : K :=
  k0 <| k_proc := fun p => match list_find (fun e => e.1 = p) l with Some (_, (_, x)) => x | None => proc0 end |>.

Definition ready (start tickets prio : Z) : proc :=
  proc0 <| p_state := RUNNABLE |> <| p_start_ticks := start |> <| p_tickets := tickets |> <| p_static_priority := prio |>.

(** Dispatched processes leave a trace, and nothing else happens. *)
Definition env : Env := {|
  swtch := mret tt;
  run := fun p => modify (fun s => s <| k_con ::= fun k => k <| uart_out ::= cons (Z.of_nat p) |> |>);
  disk_rw := fun _ _ => mret tt;
  read_reg := fun _ => mret 0x20;
  plic_reg := mret 0;
  disk_intr := mret tt;
  disk_init := mret tt;
  sym_forkret := 0;
  sym_usertrap := 0;
  sym_kernelvec := 0;
  sym_uservec := 0;
  sym_userret := 0;
  junk := fun _ => 0;
|}.

(** The processes dispatched so far, the latest first. *)
Definition dispatched (s : K) : list Z := uart_out (k_con s).

Lemma wp_dispatch m (s : K) c0 t c :
  cpu_ok c0 -> ceq (c_push c0) c -> p_lock (t m) = true ->
  wp (@dispatch env m;; release (proc_lk m)) (fun _ s' => dispatched s' = Z.of_nat m :: dispatched s) (ps s t c).
Proof.
  intros Hc0 Hcc Hl. destruct (ceq_ok _ _ Hcc (c_push_ok _ Hc0)) as [Hn Hi].
  assert (c_noff c = c_noff c0 + 1) as En by apply Hcc. destruct Hc0 as [Hn0 _].
  unfold dispatch, run, env. wp_steps.
  apply wp_release; [apply _|exact Hl|ksimpl; apply Hi; lia|ksimpl; lia|done].
Qed.

End KDemo.
