(* ===== verification/Sched.v ===== *)
(** * Sched: what the schedulers choose

    [fcfs_scheduler] and [priority_scheduler] walk the process table holding
    the lock of the best process so far.  Both compute [pick]: the first
    process of the table that no other runnable process beats.  The theorems
    say so for every state of the table, together with what happens to the
    locks and to the chosen process before it is dispatched; what the process
    does until it switches back is the parameter [run]. *)

From stdpp Require Import base list gmap functions strings.
From Stdlib Require Import ZArith Lia.
From S2P Require Import Prelude CMem Riscv Spinlock Kalloc Vm Que KState Printf Proc KWp KDemo.

(** ** The best process of a list *)

Definition runnable (t : nat -> proc) (p : nat) : bool := bool_decide (p_state (t p) = RUNNABLE).

Section pick.
Context (better : proc -> proc -> bool) (t : nat -> proc).

Definition pick1 (best : option nat) (p : nat) : option nat :=
  if runnable t p then
    match best with
    | None => Some p
    | Some h => if better (t p) (t h) then Some p else Some h
    end
  else best.

Definition pick (l : list nat) : option nat := fold_left pick1 l None.

Lemma pick_snoc l p : pick (l ++ [p]) = pick1 (pick l) p.
Proof. unfold pick. by rewrite fold_left_app. Qed.

(** [better] is the strict part of a total preorder. *)
Context (Hirr : forall x, better x x = false).
Context (Htrans : forall x y z, better x y = false -> better y z = false -> better x z = false).
Context (Hasym : forall x y, better x y = true -> better y x = false).

(** Nobody beats the chosen process, and it beats everybody before it. *)
Lemma pick_spec n :
  match pick (seq 0 n) with
  | None => forall q, (q < n)%nat -> runnable t q = false
  | Some m => (m < n)%nat /\ runnable t m = true /\
      (forall q, (q < n)%nat -> runnable t q = true -> better (t q) (t m) = false) /\
      (forall q, (q < m)%nat -> runnable t q = true -> better (t m) (t q) = true)
  end.
Proof.
  induction n as [|n IH]; [cbn; intros; lia|].
  rewrite seq_S, pick_snoc. unfold pick1. cbn [Nat.add].
  destruct (runnable t n) eqn:Er.
  - destruct (pick (seq 0 n)) as [h|].
    + destruct IH as (Hh & Hrh & Hb & Hf). destruct (better (t n) (t h)) eqn:Eb.
      * split; [lia|]. split; [done|]. split.
        -- intros q Hq Hrq. destruct (decide (q = n)) as [->|]; [apply Hirr|].
           apply (Htrans _ (t h)); [apply Hb; [lia|done]|by apply Hasym].
        -- intros q Hq Hrq. destruct (better (t n) (t q)) eqn:Eq; [done|].
           rewrite <- Eb. symmetry. apply (Htrans _ (t q)); [done|]. by apply Hb.
      * split; [lia|]. split; [done|]. split; [|done]. intros q Hq Hrq.
        destruct (decide (q = n)) as [->|]; [done|]. apply Hb; [lia|done].
    + split; [lia|]. split; [done|]. split.
      * intros q Hq Hrq. destruct (decide (q = n)) as [->|]; [apply Hirr|]. rewrite IH in Hrq by lia. done.
      * intros q Hq Hrq. by rewrite IH in Hrq.
  - destruct (pick (seq 0 n)) as [h|].
    + destruct IH as (Hh & Hrh & Hb & Hf). split; [lia|]. split; [done|]. split; [|done]. intros q Hq Hrq.
      destruct (decide (q = n)) as [->|]; [congruence|]. apply Hb; [lia|done].
    + intros q Hq. destruct (decide (q = n)) as [->|]; [done|]. apply IH. lia.
Qed.
End pick.

(** Facts about integer comparisons. *)
Ltac zlia :=
  repeat match goal with
  | |- context [?a <? ?b] => destruct (Z.ltb_spec a b)
  | |- context [?a =? ?b] => destruct (Z.eqb_spec a b)
  end; intros; cbn in *; try done; try lia.

Section sched.
Context `{L : Layout} `{E : Env}.

(** One step of the loops: with the lock of the best process so far held,
    take the lock of [p]; afterwards release [p], or the old best. *)
Lemma wp_hold_next s mp t c p (Q : unit -> K -> Prop) :
  cpu_ok (k_cpu s) -> p_lock (k_proc s p) = false -> held1 s mp t c -> mp <> Some p ->
  (forall t', upd_at t p ((k_proc s p) <| p_lock := true |>) t' -> Q tt (ps s t' (c_push c))) ->
  wp (acquire (proc_lk p)) Q (ps s t c).
Proof.
  intros Hc Hl Hh Hne HQ.
  assert (t p = k_proc s p) as Etp.
  { destruct mp as [m|]; destruct Hh as [_ Ht]; [|done]. apply (upd_at_ne _ _ _ _ _ Ht). congruence. }
  apply (wp_lock_proc (ps s t c)); ksimpl; rewrite Etp; done.
Qed.

Lemma held_ok s mp t c : cpu_ok (k_cpu s) -> held1 s mp t c -> cpu_ok c.
Proof.
  intros Hc Hh. destruct mp; destruct Hh as [H _]; eapply ceq_ok; try done. by apply c_push_ok.
Qed.

(** Releasing [p] again. *)
Lemma wp_hold_same s mp t c p t' (Q : unit -> K -> Prop) :
  cpu_ok (k_cpu s) -> p_lock (k_proc s p) = false -> held1 s mp t c -> mp <> Some p ->
  upd_at t p ((k_proc s p) <| p_lock := true |>) t' ->
  (forall t1 c1, held1 s mp t1 c1 -> Q tt (ps s t1 c1)) ->
  wp (release (proc_lk p)) Q (ps s t' (c_push c)).
Proof.
  intros Hc Hl Hh Hne Ht HQ.
  assert (t p = k_proc s p) as Etp.
  { destruct mp as [m|]; destruct Hh as [_ Ht0]; [|done]. apply (upd_at_ne _ _ _ _ _ Ht0). congruence. }
  apply (wp_unlock_proc (ps s t c) p (k_proc s p) t'); ksimpl; [by eapply held_ok|done|done|done|].
  intros t1 c1 Hcc1 Ht1. ksimpl. apply HQ.
  assert (forall q, t1 q = t q) as Eq.
  { intros q. rewrite Ht1. destruct (decide (q = p)) as [->|]; [by rewrite Etp|done]. }
  destruct mp as [m|]; destruct Hh as [H1 H2]; (split; [by etrans|]).
  - intros q. rewrite Eq. apply H2.
  - intros q. rewrite Eq. apply H2.
Qed.

(** Keeping [p] and releasing the old best [m]. *)
Lemma wp_hold_swap s m t c p t' (Q : unit -> K -> Prop) :
  cpu_ok (k_cpu s) -> p_lock (k_proc s p) = false -> p_lock (k_proc s m) = false -> held1 s (Some m) t c -> m <> p ->
  upd_at t p ((k_proc s p) <| p_lock := true |>) t' ->
  (forall t1 c1, held1 s (Some p) t1 c1 -> Q tt (ps s t1 c1)) ->
  wp (release (proc_lk m)) Q (ps s t' (c_push c)).
Proof.
  intros Hc Hl Hlm [H1 H2] Hne Ht HQ.
  assert (t' m = (k_proc s m) <| p_lock := true |>) as Etm.
  { rewrite (upd_at_ne _ _ _ _ _ Ht) by done. apply (upd_at_eq _ _ _ _ H2). }
  apply (wp_release_ceq (proc_lk m) c); [by eapply ceq_ok, c_push_ok|done|cbn; ksimpl; by rewrite Etm|].
  intros c1 Hcc1. apply (HQ (<[m := (t' m) <| p_lock := false |>]> t') c1).
  split; [by etrans|]. intros q. destruct (decide (q = m)) as [->|Hqm].
  - rewrite fn_lookup_insert, Etm, decide_False by done. by apply unlocked_eq.
  - rewrite fn_lookup_insert_ne, Ht by done. destruct (decide (q = p)); [done|].
    by apply (upd_at_ne _ _ _ _ _ H2).
Qed.

(** ** First come, first served *)

Definition older (x y : proc) : bool := p_start_ticks x <? p_start_ticks y.

Definition fcfs_key (t : nat -> proc) (mp : option nat) : Z :=
  match mp with Some m => p_start_ticks (t m) | None => u64 (-1) end.

(** What both loops know about the best process so far. *)
Lemma pick_fresh better t done p m :
  p ∉ done -> (forall q, q ∈ done -> (q < NPROC)%nat) -> pick better t done = Some m -> m <> p /\ (m < NPROC)%nat.
Proof.
  intros Hp Hd Hm. assert (m ∈ done) as Hin.
  { clear -Hm. induction done as [|q done IH] using rev_ind; [done|]. rewrite pick_snoc in Hm. unfold pick1 in Hm.
    destruct (runnable t q); [|set_solver].
    destruct (pick better t done) as [h|]; [destruct (better (t q) (t h))|]; injection Hm as <-; set_solver. }
  split; [congruence|auto].
Qed.

Lemma prefix_procs done p todo q : all_procs = done ++ p :: todo -> q ∈ done -> (q < NPROC)%nat.
Proof. intros H Hq. apply elem_of_all_procs. rewrite H. set_solver. Qed.

(** One iteration keeps the better of the best process so far and [p]. *)
Lemma wp_fcfs_step s mp t c p (Q : option nat * Z + unit -> K -> Prop) :
  cpu_ok (k_cpu s) -> (forall q, (q < NPROC)%nat -> p_lock (k_proc s q) = false) ->
  (forall q, (q < NPROC)%nat -> 0 <= p_start_ticks (k_proc s q) < u64 (-1)) ->
  (p < NPROC)%nat -> (forall m, mp = Some m -> m <> p /\ (m < NPROC)%nat) -> held1 s mp t c ->
  (forall t2 c2, let mp2 := pick1 older (k_proc s) mp p in
     held1 s mp2 t2 c2 -> Q (inl (mp2, fcfs_key (k_proc s) mp2)) (ps s t2 c2)) ->
  wp (fcfs_step p (mp, fcfs_key (k_proc s) mp)) Q (ps s t c).
Proof.
  intros Hc Hl Hst Hin Hm Hh HQ.
  assert (mp <> Some p) as Hne by (intros ->; by destruct (Hm p eq_refl)).
  unfold fcfs_step. apply wp_bind, (wp_hold_next s mp); [done|by apply Hl|done|done|]. intros t1 Ht1. wp_steps. ksimpl.
  rewrite (upd_at_eq _ _ _ _ Ht1). rsimpl. unfold pick1, runnable in HQ.
  assert (forall Q', (forall t2 c2, held1 s mp t2 c2 -> Q' tt (ps s t2 c2)) ->
    wp (release (proc_lk p)) Q' (ps s t1 (c_push c))) as Hsame.
  { intros Q' HQ'. eapply (wp_hold_same s mp t c p); [done|by apply Hl|done|done|done|done]. }
  destruct (decide (p_state (k_proc s p) = RUNNABLE)) as [Er|Er].
  - rewrite bool_decide_eq_true_2 in HQ by done. destruct mp as [m|].
    + destruct (Hm m eq_refl) as [Hmp Hmn]. cbn [fcfs_key] in *. pose proof (Hst m Hmn).
      destruct (Z.eqb_spec (p_start_ticks (k_proc s m)) (u64 (-1))); [lia|].
      unfold older in HQ. destruct (Z.ltb_spec (p_start_ticks (k_proc s p)) (p_start_ticks (k_proc s m))).
      * cbn [deref]. wp_steps. eapply (wp_hold_swap s m t c p); [done|by apply Hl|by apply Hl|done|done|done|].
        intros t2 c2 H2. wp_steps. rewrite bool_decide_eq_true_2 by done. cbn [negb]. wp_steps. by apply HQ.
      * wp_steps. rewrite bool_decide_eq_false_2 by congruence. cbn [negb]. wp_steps.
        apply Hsame. intros t2 c2 H2. wp_steps. by apply HQ.
    + cbn [fcfs_key] in *. rewrite Z.eqb_refl, Z.ltb_irrefl. wp_steps. rewrite bool_decide_eq_true_2 by done. cbn [negb].
      wp_steps. apply HQ. destruct Hh as [H1 H2].
      split; [by apply ceq_push|]. intros q. rewrite Ht1. by rewrite H2.
  - rewrite bool_decide_eq_false_2 in HQ by done. wp_steps. rewrite bool_decide_eq_false_2 by done. cbn [negb]. wp_steps.
    apply Hsame. intros t2 c2 H2. wp_steps. by apply HQ.
Qed.

Lemma fcfs_loop s (Q : option nat * Z + unit -> K -> Prop) :
  cpu_ok (k_cpu s) -> (forall p, (p < NPROC)%nat -> p_lock (k_proc s p) = false) ->
  (forall p, (p < NPROC)%nat -> 0 <= p_start_ticks (k_proc s p) < u64 (-1)) ->
  (forall t c, let mp := pick older (k_proc s) all_procs in
     held1 s mp t c -> Q (inl (mp, fcfs_key (k_proc s) mp)) (ps s t c)) ->
  wp (for_st all_procs fcfs_step (None, u64 (-1))) Q s.
Proof.
  intros Hc Hl Hst HQ.
  apply (wp_for_st (fun done '(mp, ms) s' => exists t c, s' = ps s t c /\ mp = pick older (k_proc s) done /\
    ms = fcfs_key (k_proc s) mp /\ held1 s mp t c)).
  - intros done p todo [mp ms] s1 Hsp (t & c & -> & Emp & -> & Hh).
    destruct (split_fresh _ _ _ _ NoDup_all_procs Hsp) as [Hp Hin]. apply elem_of_all_procs in Hin.
    apply wp_fcfs_step; try done.
    + intros m ->. eapply pick_fresh; [done| |by symmetry]. intros q. by apply prefix_procs with p todo.
    + intros t2 c2 mp2 H2. exists t2, c2. by rewrite pick_snoc, <- Emp.
  - exists (k_proc s), (k_cpu s). by rewrite ps_id.
  - intros [mp ms] s' (t & c & -> & -> & -> & Hh). by apply HQ.
Qed.

(** C34: first come, first served. If every lock is free, [fcfs_scheduler]
    dispatches the runnable process that started first, the earliest entry of
    the table among several; at that point only that process's lock is held
    and its state is RUNNING, and nothing else has changed. With no runnable
    process it returns without changing anything. *)
Theorem fcfs_runs_oldest s (Q : unit -> K -> Prop) :
  cpu_ok (k_cpu s) -> (forall p, (p < NPROC)%nat -> p_lock (k_proc s p) = false) ->
  (forall p, (p < NPROC)%nat -> 0 <= p_start_ticks (k_proc s p) < u64 (-1)) ->
  (forall m t c, (m < NPROC)%nat -> p_state (k_proc s m) = RUNNABLE ->
     (forall q, (q < NPROC)%nat -> p_state (k_proc s q) = RUNNABLE ->
        p_start_ticks (k_proc s m) <= p_start_ticks (k_proc s q) /\
        ((q < m)%nat -> p_start_ticks (k_proc s m) < p_start_ticks (k_proc s q))) ->
     upd_at (k_proc s) m ((k_proc s m) <| p_lock := true |> <| p_state := RUNNING |>) t ->
     ceq (c_push (k_cpu s)) c ->
     wp (dispatch m;; release (proc_lk m)) Q (ps s t c)) ->
  (forall t c, (forall q, (q < NPROC)%nat -> p_state (k_proc s q) <> RUNNABLE) ->
     (forall q, t q = k_proc s q) -> ceq (k_cpu s) c -> Q tt (ps s t c)) ->
  wp fcfs_scheduler Q s.
Proof.
  intros Hc Hl Hst Hrun Hnone. unfold fcfs_scheduler. apply wp_bind, fcfs_loop; [done|done|done|]. intros t c mp Hh.
  pose proof (pick_spec older (k_proc s)) as Hsp.
  specialize (Hsp ltac:(intros; apply Z.ltb_irrefl) ltac:(intros x y z; unfold older; zlia) ltac:(intros x y; unfold older; zlia) NPROC).
  fold all_procs in Hsp. change (pick older (k_proc s) all_procs) with mp in Hsp. destruct mp as [m|]; cbn [fcfs_key].
  - destruct Hsp as (Hm & Hrm & Hb & Hf). apply bool_decide_eq_true in Hrm.
    pose proof (Hst m Hm). destruct (Z.eqb_spec (p_start_ticks (k_proc s m)) (u64 (-1))); [lia|].
    cbn [deref]. wp_steps. ksimpl. destruct Hh as [H1 H2]. rewrite (upd_at_eq _ _ _ _ H2). rsimpl.
    rewrite bool_decide_eq_true_2 by done. cbn [negb]. psteps.
    apply (proj1 (wp_bind (dispatch m) (fun _ => release (proc_lk m)) Q _)).
    eapply (Hrun m _ c); [done|done| |exact H2|done].
    intros q Hq Hrq. apply (bool_decide_eq_true_2 (p_state (k_proc s q) = RUNNABLE)) in Hrq.
    specialize (Hb q Hq Hrq). unfold older in Hb. zb. split; [done|]. intros Hqm. specialize (Hf q Hqm Hrq).
    unfold older in Hf. by zb.
  - rewrite Z.eqb_refl. wp_steps. destruct Hh as [H1 H2]. apply Hnone; [|done|done].
    intros q Hq. specialize (Hsp q Hq). by apply bool_decide_eq_false in Hsp.
Qed.

(** ** Priorities *)

(** The dynamic priority, as a number. *)
Definition niceness (x : proc) : Z :=
  if p_sleep_ticks x + p_run_ticks x =? 0 then 5 else p_sleep_ticks x / (p_sleep_ticks x + p_run_ticks x) * 10.

Definition dp (x : proc) : Z := Z.max 0 (Z.min 100 (p_static_priority x - niceness x + 5)).

(** Tick counts and priorities far from overflow. *)
Definition prio_ok (x : proc) : Prop :=
  0 <= p_sleep_ticks x < 2 ^ 32 /\ 0 <= p_run_ticks x < 2 ^ 32 /\ - 2 ^ 30 <= p_static_priority x <= 2 ^ 30.

Lemma niceness_values x : prio_ok x -> niceness x = 0 \/ niceness x = 5 \/ niceness x = 10.
Proof.
  intros (Hs & Hr & _). unfold niceness. destruct (Z.eqb_spec (p_sleep_ticks x + p_run_ticks x) 0); [auto|].
  destruct (Z.eqb_spec (p_run_ticks x) 0) as [E0|].
  - rewrite E0, Z.add_0_r, Z.div_same by lia. auto.
  - rewrite Z.div_small by lia. auto.
Qed.

Lemma wp_dynamic_priority x (Q : Z -> K -> Prop) s : prio_ok x -> Q (dp x) s -> wp (dynamic_priority x) Q s.
Proof.
  intros Hok HQ. pose proof (niceness_values x Hok) as Hv. destruct Hok as (Hs & Hr & Hp).
  unfold dynamic_priority. rewrite u64_small by lia.
  assert (wp (if p_sleep_ticks x + p_run_ticks x =? 0 then mret 5
    else int_op (i32 (p_sleep_ticks x / (p_sleep_ticks x + p_run_ticks x)) * 10)) (fun n s' => n = niceness x /\ s' = s) s) as Hn.
  { unfold niceness in *. destruct (Z.eqb_spec (p_sleep_ticks x + p_run_ticks x) 0); [by wp_steps|].
    rewrite i32_small by (unfold INT_MIN, INT_MAX; lia). wp_steps. split; [unfold INT_MIN, INT_MAX; lia|done]. }
  apply wp_bind. eapply wp_mono; [exact Hn|]. intros n s' [-> ->]. wp_steps.
  split; [unfold INT_MIN, INT_MAX; lia|]. wp_steps. split; [unfold INT_MIN, INT_MAX; lia|]. wp_steps.
  replace (if _ <? 0 then 0 else _) with (dp x); [done|]. unfold dp.
  destruct (Z.ltb_spec 100 (p_static_priority x - niceness x + 5)); cbn; [lia|].
  destruct (Z.ltb_spec (p_static_priority x - niceness x + 5) 0); lia.
Qed.

(** [x] goes before [y]: lower dynamic priority, then scheduled less often,
    then started earlier. *)
Definition before (x y : proc) : bool :=
  if dp x =? dp y then
    if p_num_scheduled x =? p_num_scheduled y then p_start_ticks x <? p_start_ticks y
    else p_num_scheduled x <? p_num_scheduled y
  else dp x <? dp y.

Lemma before_iff x y : before x y = true <->
  dp x < dp y \/ dp x = dp y /\ (p_num_scheduled x < p_num_scheduled y \/
    p_num_scheduled x = p_num_scheduled y /\ p_start_ticks x < p_start_ticks y).
Proof.
  unfold before. destruct (Z.eqb_spec (dp x) (dp y)), (Z.eqb_spec (p_num_scheduled x) (p_num_scheduled y));
    rewrite Z.ltb_lt; lia.
Qed.

Lemma before_trans x y z : before x y = false -> before y z = false -> before x z = false.
Proof. rewrite <- !not_true_iff_false, !before_iff. lia. Qed.

Lemma before_asym x y : before x y = true -> before y x = false.
Proof. rewrite <- not_true_iff_false, !before_iff. lia. Qed.

Lemma wp_priority_step s mp t c p (Q : option nat + unit -> K -> Prop) :
  cpu_ok (k_cpu s) -> (forall q, (q < NPROC)%nat -> p_lock (k_proc s q) = false) ->
  (forall q, (q < NPROC)%nat -> prio_ok (k_proc s q)) ->
  (p < NPROC)%nat -> (forall m, mp = Some m -> m <> p /\ (m < NPROC)%nat) -> held1 s mp t c ->
  (forall t2 c2, let mp2 := pick1 before (k_proc s) mp p in held1 s mp2 t2 c2 -> Q (inl mp2) (ps s t2 c2)) ->
  wp (priority_step p mp) Q (ps s t c).
Proof.
  intros Hc Hl Hst Hin Hm Hh HQ.
  assert (mp <> Some p) as Hne by (intros ->; by destruct (Hm p eq_refl)).
  unfold priority_step. apply wp_bind, (wp_hold_next s mp); [done|by apply Hl|done|done|]. intros t1 Ht1. wp_steps. ksimpl.
  rewrite (upd_at_eq _ _ _ _ Ht1). rsimpl. unfold pick1, runnable in HQ.
  set (fin := fun high_proc : option nat => wp (when (negb (bool_decide (Some p = high_proc))) (release (proc_lk p));;
    mret (inl high_proc)) Q).
  assert (((forall t2 c2, held1 s mp t2 c2 -> Q (inl mp) (ps s t2 c2)) -> fin mp (ps s t1 (c_push c)))) as Hsame.
  { intros HQ'. unfold fin. rewrite bool_decide_eq_false_2 by congruence. cbn [negb]. wp_steps.
    eapply (wp_hold_same s mp t c p); [done|by apply Hl|done|done|done|]. intros. wp_steps. auto. }
  assert (forall t2 c2, (held1 s (Some p) t2 c2 -> Q (inl (Some p)) (ps s t2 c2)) -> held1 s (Some p) t2 c2 ->
    fin (Some p) (ps s t2 c2)) as Hnew.
  { intros t2 c2 HQ' H2. unfold fin. rewrite bool_decide_eq_true_2 by done. cbn [negb]. wp_steps. auto. }
  destruct (decide (p_state (k_proc s p) = RUNNABLE)) as [Er|Er].
  2: { rewrite bool_decide_eq_false_2 in HQ by done. apply wp_ret. by apply Hsame. }
  rewrite bool_decide_eq_true_2 in HQ by done. destruct mp as [m|].
  2: { apply wp_ret, Hnew; [by apply HQ|]. destruct Hh as [H1 H2].
       split; [by apply ceq_push|]. intros q. rewrite Ht1. by rewrite H2. }
  destruct (Hm m eq_refl) as [Hmp Hmn]. wp_steps. ksimpl.
  assert (t1 m = (k_proc s m) <| p_lock := true |>) as ->.
  { rewrite (upd_at_ne _ _ _ _ _ Ht1) by done. destruct Hh as [_ H2]. by rewrite (upd_at_eq _ _ _ _ H2). }
  apply wp_dynamic_priority; [by apply Hst|]. apply wp_bind, wp_dynamic_priority; [by apply Hst|].
  change (dp ((k_proc s m) <| p_lock := true |>)) with (dp (k_proc s m)).
  change (dp ((k_proc s p) <| p_lock := true |>)) with (dp (k_proc s p)). rsimpl. change (wp _ _ _) with
    (wp (if dp (k_proc s p) <? dp (k_proc s m) then release (proc_lk m);; mret (Some p)
      else if dp (k_proc s p) =? dp (k_proc s m) then
        if p_num_scheduled (k_proc s p) <? p_num_scheduled (k_proc s m) then release (proc_lk m);; mret (Some p)
        else if p_num_scheduled (k_proc s p) =? p_num_scheduled (k_proc s m) then
          if p_start_ticks (k_proc s p) <? p_start_ticks (k_proc s m) then release (proc_lk m);; mret (Some p)
          else mret (Some m)
        else mret (Some m)
      else mret (Some m)) fin (ps s t1 (c_push c))).
  assert (forall b : bool, before (k_proc s p) (k_proc s m) = b ->
    wp (if b then release (proc_lk m);; mret (Some p) else mret (Some m)) fin (ps s t1 (c_push c))) as Hfin.
  { intros [] Eb; rewrite Eb in HQ; [|by apply wp_ret, Hsame].
    wp_steps. eapply (wp_hold_swap s m t c p); [done|by apply Hl|by apply Hl|done|done|done|].
    intros t2 c2 H2. apply wp_ret, Hnew; [by apply HQ|done]. }
  unfold before in Hfin. revert Hfin.
  destruct (Z.ltb_spec (dp (k_proc s p)) (dp (k_proc s m))), (Z.eqb_spec (dp (k_proc s p)) (dp (k_proc s m)));
    try lia; try (intros Hfin; by apply (Hfin _ eq_refl)).
  destruct (Z.ltb_spec (p_num_scheduled (k_proc s p)) (p_num_scheduled (k_proc s m))),
    (Z.eqb_spec (p_num_scheduled (k_proc s p)) (p_num_scheduled (k_proc s m)));
    try lia; intros Hfin; by apply (Hfin _ eq_refl).
Qed.

Lemma priority_loop s (Q : option nat + unit -> K -> Prop) :
  cpu_ok (k_cpu s) -> (forall p, (p < NPROC)%nat -> p_lock (k_proc s p) = false) ->
  (forall p, (p < NPROC)%nat -> prio_ok (k_proc s p)) ->
  (forall t c, let mp := pick before (k_proc s) all_procs in held1 s mp t c -> Q (inl mp) (ps s t c)) ->
  wp (for_st all_procs priority_step None) Q s.
Proof.
  intros Hc Hl Hst HQ.
  apply (wp_for_st (fun done mp s' => exists t c, s' = ps s t c /\ mp = pick before (k_proc s) done /\ held1 s mp t c)).
  - intros done p todo mp s1 Hsp (t & c & -> & Emp & Hh).
    destruct (split_fresh _ _ _ _ NoDup_all_procs Hsp) as [Hp Hin]. apply elem_of_all_procs in Hin.
    apply wp_priority_step; try done.
    + intros m ->. eapply pick_fresh; [done| |by symmetry]. intros q. by apply prefix_procs with p todo.
    + intros t2 c2 mp2 H2. exists t2, c2. by rewrite pick_snoc, <- Emp.
  - exists (k_proc s), (k_cpu s). by rewrite ps_id.
  - intros mp s' (t & c & -> & -> & Hh). by apply HQ.
Qed.

(** C35: priority scheduling. If every lock is free and no counter is near
    overflow, [priority_scheduler] dispatches the runnable process with the
    least dynamic priority, among those the one scheduled least often, among
    those the one that started first, among those the earliest entry of the
    table. At that point the process is RUNNING, its dispatch is counted and
    its run and sleep ticks are reset; only its lock is held. *)
Theorem priority_runs_best s (Q : unit -> K -> Prop) :
  cpu_ok (k_cpu s) -> (forall p, (p < NPROC)%nat -> p_lock (k_proc s p) = false) ->
  (forall p, (p < NPROC)%nat -> prio_ok (k_proc s p)) ->
  (forall m t c, (m < NPROC)%nat -> p_state (k_proc s m) = RUNNABLE ->
     (forall q, (q < NPROC)%nat -> p_state (k_proc s q) = RUNNABLE ->
        before (k_proc s q) (k_proc s m) = false /\ ((q < m)%nat -> before (k_proc s m) (k_proc s q) = true)) ->
     upd_at (k_proc s) m ((k_proc s m) <| p_lock := true |> <| p_state := RUNNING |>
       <| p_num_scheduled := u64 (p_num_scheduled (k_proc s m) + 1) |> <| p_run_ticks := 0 |> <| p_sleep_ticks := 0 |>) t ->
     ceq (c_push (k_cpu s)) c ->
     wp (dispatch m;; release (proc_lk m)) Q (ps s t c)) ->
  (forall t c, (forall q, (q < NPROC)%nat -> p_state (k_proc s q) <> RUNNABLE) ->
     (forall q, t q = k_proc s q) -> ceq (k_cpu s) c -> Q tt (ps s t c)) ->
  wp priority_scheduler Q s.
Proof.
  intros Hc Hl Hst Hrun Hnone. unfold priority_scheduler. apply wp_bind, priority_loop; [done|done|done|]. intros t c mp Hh.
  pose proof (pick_spec before (k_proc s)
    ltac:(intros; unfold before; by rewrite !Z.eqb_refl, Z.ltb_irrefl) before_trans before_asym NPROC) as Hsp.
  fold all_procs in Hsp. change (pick before (k_proc s) all_procs) with mp in Hsp. destruct mp as [m|].
  - destruct Hsp as (Hm & Hrm & Hb & Hf). apply bool_decide_eq_true in Hrm.
    apply wp_bind. wp_steps. ksimpl. destruct Hh as [H1 H2]. rewrite (upd_at_eq _ _ _ _ H2). rsimpl.
    rewrite bool_decide_eq_true_2 by done. psteps.
    apply (proj1 (wp_bind (dispatch m) (fun _ => release (proc_lk m)) Q _)).
    eapply (Hrun m _ c); [done|done| |exact H2|done].
    intros q Hq Hrq. apply (bool_decide_eq_true_2 (p_state (k_proc s q) = RUNNABLE)) in Hrq. split; [by apply Hb|].
    intros Hqm. by apply Hf.
  - wp_steps. destruct Hh as [H1 H2]. apply Hnone; [|done|done].
    intros q Hq. specialize (Hsp q Hq). by apply bool_decide_eq_false in Hsp.
Qed.

(** ** The lottery *)

Definition tickets (t : nat -> proc) (p : nat) : Z := if runnable t p then p_tickets (t p) else 0.

(** The tickets of the first [n] processes. *)
Fixpoint psum (t : nat -> proc) (n : nat) : Z :=
  match n with O => 0 | S n' => psum t n' + tickets t n' end.

Lemma psum_mono t n m : (forall p, (p < m)%nat -> 0 <= tickets t p) -> (n <= m)%nat -> psum t n <= psum t m.
Proof.
  intros Ht Hle. induction Hle as [|m Hle IH]; [lia|]. cbn [psum].
  pose proof (Ht m ltac:(lia)). specialize (IH ltac:(intros; apply Ht; lia)). lia.
Qed.

(** [p] wins the draw of [r]: it is the first runnable process at which the
    running total of tickets reaches [r]. *)
Definition wins (t : nat -> proc) (r : Z) (p : nat) : Prop :=
  runnable t p = true /\ r <= psum t (S p) /\ forall q, (q < p)%nat -> runnable t q = true -> psum t (S q) < r.

Lemma procs_prefix done p todo : all_procs = done ++ p :: todo -> done = seq 0 p /\ (p < NPROC)%nat.
Proof.
  intros H. assert (length done < NPROC)%nat as Hl.
  { pose proof (f_equal length H) as El. unfold all_procs in El. rewrite length_seq, length_app in El. cbn in El. lia. }
  assert (all_procs !! length done = Some p) as Hp by (rewrite H; by apply list_lookup_middle).
  assert (done = seq 0 (length done)) as Ed.
  { transitivity (take (length done) all_procs); [by rewrite H, take_app_length|].
    unfold all_procs. rewrite take_seq. f_equal. lia. }
  unfold all_procs in Hp. rewrite lookup_seq_lt in Hp by done. injection Hp as <-. done.
Qed.

(** [k] locks held. *)
Fixpoint cn (k : nat) (c : kcpu) : kcpu := match k with O => c | S k' => c_push (cn k' c) end.

Lemma cn_ok k c : cpu_ok c -> cpu_ok (cn k c).
Proof. intros. induction k; [done|]. by apply c_push_ok. Qed.

(** The lock bits: those of the processes in [h] are taken. *)
Definition locked_set (s : K) (h : nat -> bool) (t : nat -> proc) : Prop :=
  forall q, t q = if h q then (k_proc s q) <| p_lock := true |> else k_proc s q.

Lemma wp_count s (Q : Z + unit -> K -> Prop) :
  cpu_ok (k_cpu s) -> (forall p, (p < NPROC)%nat -> p_lock (k_proc s p) = false) ->
  (forall p, (p < NPROC)%nat -> 0 <= tickets (k_proc s) p) -> psum (k_proc s) NPROC <= INT_MAX ->
  (forall t, locked_set s (fun q => bool_decide (q < NPROC)%nat) t ->
     Q (inl (psum (k_proc s) NPROC)) (ps s t (cn NPROC (k_cpu s)))) ->
  wp (for_st all_procs lottery_count 0) Q s.
Proof.
  intros Hc Hl Ht Hmax HQ.
  apply (wp_for_st (fun done n s' => exists t, s' = ps s t (cn (length done) (k_cpu s)) /\
    n = psum (k_proc s) (length done) /\ locked_set s (fun q => bool_decide (q < length done)%nat) t)).
  - intros done p todo n s1 Hsp (t & -> & -> & Hlk). destruct (procs_prefix _ _ _ Hsp) as [-> Hp].
    rewrite !length_app, !length_seq in *. cbn [length]. rewrite Nat.add_1_r.
    assert (t p = k_proc s p) as Etp by (rewrite Hlk, bool_decide_eq_false_2; [done|lia]).
    unfold lottery_count. apply wp_bind, (wp_lock_proc (ps s t _)); ksimpl; rewrite Etp; [by apply Hl|].
    intros t1 Ht1. wp_steps. ksimpl. rewrite (upd_at_eq _ _ _ _ Ht1). rsimpl.
    assert (locked_set s (fun q => bool_decide (q < S p)%nat) t1) as Hlk1.
    { intros q. rewrite Ht1. destruct (decide (q = p)) as [->|].
      - by rewrite bool_decide_eq_true_2 by lia.
      - rewrite Hlk. destruct (decide (q < p)%nat); [rewrite !bool_decide_eq_true_2 by lia|rewrite !bool_decide_eq_false_2 by lia]; done. }
    assert (psum (k_proc s) (S p) = psum (k_proc s) p + tickets (k_proc s) p) as Eps by done.
    unfold tickets, runnable in Eps. destruct (decide (p_state (k_proc s p) = RUNNABLE)) as [Er|Er].
    + rewrite bool_decide_eq_true_2 in Eps by done. wp_steps.
      pose proof (psum_mono (k_proc s) (S p) NPROC Ht ltac:(lia)). pose proof (psum_mono (k_proc s) 0 (S p)) as H0.
      specialize (H0 ltac:(intros; apply Ht; lia) ltac:(lia)). change (psum (k_proc s) 0) with 0 in H0.
      split; [unfold INT_MIN; lia|]. wp_steps. exists t1. by rewrite Eps.
    + rewrite bool_decide_eq_false_2 in Eps by done. wp_steps. exists t1. rewrite Eps. split; [done|]. split; [lia|done].
  - exists (k_proc s). cbn [length cn]. rewrite ps_id. done.
  - intros n s' (t & -> & -> & Hlk). unfold all_procs in *. rewrite length_seq in *. by apply HQ.
Qed.

(** The lock bits after drawing for the first [n] processes. *)
Definition drawn (win : option nat) (n q : nat) : bool :=
  if (q <? n)%nat then bool_decide (win = Some q) else (q <? NPROC)%nat.

Definition held_after (win : option nat) (n : nat) : nat :=
  (NPROC - n + match win with Some _ => 1 | None => 0 end)%nat.

(** What the loop has found among the first [n] processes. *)
Definition found (t : nat -> proc) (r : Z) (n : nat) (win : option nat) : Prop :=
  match win with
  | Some w => (w < n)%nat /\ wins t r w
  | None => forall q, (q < n)%nat -> runnable t q = true -> psum t (S q) < r
  end.

Lemma wp_unlock_drawn s win n t c p (Q : unit -> K -> Prop) :
  cpu_ok (k_cpu s) -> p_lock (k_proc s p) = false -> (p < NPROC)%nat -> n = p -> win <> Some p ->
  locked_set s (drawn win n) t -> ceq (cn (held_after win n) (k_cpu s)) c ->
  (forall t' c', locked_set s (drawn win (S n)) t' -> ceq (cn (held_after win (S n)) (k_cpu s)) c' -> Q tt (ps s t' c')) ->
  wp (release (proc_lk p)) Q (ps s t c).
Proof.
  intros Hc Hl Hp -> Hw Hlk Hcc HQ.
  assert (t p = (k_proc s p) <| p_lock := true |>) as Etp.
  { rewrite Hlk. unfold drawn. destruct (Nat.ltb_spec p p); [lia|]. by destruct (Nat.ltb_spec p NPROC); [|lia]. }
  assert (held_after win p = S (held_after win (S p))) as Eh by (unfold held_after; lia).
  rewrite Eh in Hcc. apply (wp_release_ceq (proc_lk p) (cn (held_after win (S p)) (k_cpu s)));
    [by apply cn_ok|done|cbn; ksimpl; by rewrite Etp|].
  intros c' Hc'. apply (HQ (<[p := (t p) <| p_lock := false |>]> t) c'); [|done]. intros q.
  destruct (decide (q = p)) as [->|Hne].
  - rewrite fn_lookup_insert, Etp. unfold drawn. destruct (Nat.ltb_spec p (S p)); [|lia].
    rewrite bool_decide_eq_false_2 by done. by apply unlocked_eq.
  - rewrite fn_lookup_insert_ne, Hlk by done. unfold drawn.
    destruct (Nat.ltb_spec q p), (Nat.ltb_spec q (S p)); try done; lia.
Qed.

Lemma wp_draw s r t c (Q : Z * option nat + unit -> K -> Prop) :
  cpu_ok (k_cpu s) -> (forall p, (p < NPROC)%nat -> p_lock (k_proc s p) = false) ->
  (forall p, (p < NPROC)%nat -> 0 <= tickets (k_proc s) p) -> psum (k_proc s) NPROC <= INT_MAX ->
  locked_set s (drawn None 0) t -> ceq (cn (held_after None 0) (k_cpu s)) c ->
  (forall n win t' c', found (k_proc s) r NPROC win -> locked_set s (drawn win NPROC) t' ->
     ceq (cn (held_after win NPROC) (k_cpu s)) c' -> Q (inl (n, win)) (ps s t' c')) ->
  wp (for_st all_procs (lottery_draw r) (0, None)) Q (ps s t c).
Proof.
  intros Hc Hl Ht Hmax Hlk Hcc HQ.
  apply (wp_for_st (fun done '(n, win) s' => exists t c, s' = ps s t c /\ n = psum (k_proc s) (length done) /\
    found (k_proc s) r (length done) win /\ locked_set s (drawn win (length done)) t /\
    ceq (cn (held_after win (length done)) (k_cpu s)) c)).
  - intros done p todo [n win] s1 Hsp (t1 & c1 & -> & -> & Hf & Hlk1 & Hc1). destruct (procs_prefix _ _ _ Hsp) as [-> Hp].
    rewrite !length_app, !length_seq in *. cbn [length]. rewrite Nat.add_1_r. unfold lottery_draw. wp_steps. ksimpl.
    assert (win <> Some p) as Hw by (intros ->; destruct Hf; lia).
    assert (p_state (t1 p) = p_state (k_proc s p) /\ p_tickets (t1 p) = p_tickets (k_proc s p)) as [-> ->].
    { rewrite Hlk1. by destruct (drawn win p p). }
    assert (psum (k_proc s) (S p) = psum (k_proc s) p + tickets (k_proc s) p) as Eps by done.
    assert (forall Q' : unit -> K -> Prop, (forall t' c', locked_set s (drawn win (S p)) t' ->
      ceq (cn (held_after win (S p)) (k_cpu s)) c' -> Q' tt (ps s t' c')) -> wp (release (proc_lk p)) Q' (ps s t1 c1)) as Hrel.
    { intros Q' HQ'. by eapply (wp_unlock_drawn s win p); [done|by apply Hl|..]. }
    unfold tickets in Eps. destruct (decide (p_state (k_proc s p) = RUNNABLE)) as [Er|Er].
    + assert (runnable (k_proc s) p = true) as Erp by (by apply bool_decide_eq_true_2). rewrite Erp in Eps.
      pose proof (psum_mono (k_proc s) (S p) NPROC Ht ltac:(lia)). pose proof (psum_mono (k_proc s) 0 (S p)) as H0.
      specialize (H0 ltac:(intros; apply Ht; lia) ltac:(lia)). change (psum (k_proc s) 0) with 0 in H0.
      wp_steps. split; [unfold INT_MIN; lia|]. rewrite <- Eps.
      destruct (Z.leb_spec r (psum (k_proc s) (S p))) as [Hr|Hr]; cbn [andb].
      * destruct win as [w|].
        -- rewrite bool_decide_eq_false_2 by done. wp_steps. apply Hrel. intros t2 c2 Hlk2 Hc2. wp_steps.
           exists t2, c2. destruct Hf as [Hw1 Hw2]. split; [done|]. split; [done|]. split; [split; [lia|done]|done].
        -- rewrite bool_decide_eq_true_2 by done. wp_steps. exists t1, c1. split; [done|]. split; [done|].
           split; [split; [lia|done]|]. split; [|by replace (held_after (Some p) (S p)) with (held_after None p) by (unfold held_after; lia)].
           intros q. rewrite Hlk1. unfold drawn.
           destruct (Nat.ltb_spec q p), (Nat.ltb_spec q (S p)); try lia; try done.
           ++ rewrite (bool_decide_eq_false_2 (None = Some q)), (bool_decide_eq_false_2 (Some p = Some q)); [done| |done].
              intros [=]. lia.
           ++ assert (q = p) as -> by lia. rewrite bool_decide_eq_true_2 by done. by destruct (Nat.ltb_spec p NPROC); [|lia].
      * wp_steps. apply Hrel. intros t2 c2 Hlk2 Hc2. wp_steps. exists t2, c2. split; [done|]. split; [done|].
        split; [|done]. destruct win as [w|]; [destruct Hf as [? ?]; split; [lia|done]|].
        intros q Hq Hrq. destruct (decide (q = p)) as [->|]; [done|]. apply Hf; [lia|done].
    + assert (runnable (k_proc s) p = false) as Erp by (by apply bool_decide_eq_false_2). rewrite Erp in Eps.
      wp_steps. apply Hrel. intros t2 c2 Hlk2 Hc2. wp_steps. exists t2, c2. split; [done|]. split; [lia|].
      split; [|done]. destruct win as [w|]; [destruct Hf as [? ?]; split; [lia|done]|].
      intros q Hq Hrq. destruct (decide (q = p)) as [->|]; [congruence|]. apply Hf; [lia|done].
  - exists t, c. split; [done|]. split; [done|]. split; [|done]. intros q Hq. cbn in Hq. lia.
  - intros [n win] s' (t1 & c1 & -> & -> & Hf & Hlk1 & Hc1). unfold all_procs in *. rewrite length_seq in *. by apply HQ.
Qed.

(** The next number of the generator, and the number drawn. *)
Definition next_rand (s : K) : Z := u64 (k_rand s * 1103515245 + k_ticks s).
Definition draw_number (s : K) (total : Z) : Z := Z.rem (u32 (next_rand s / 65536) mod 32768) total.

Lemma draw_number_range s total : 0 < total -> 0 <= draw_number s total < total.
Proof.
  intros Ht. unfold draw_number. pose proof (Z.mod_pos_bound (u32 (next_rand s / 65536)) 32768 ltac:(lia)).
  rewrite Z.rem_mod_nonneg by lia. by apply Z.mod_pos_bound.
Qed.

(** Some process wins a number below the total. *)
Lemma found_some t r n :
  0 <= r < psum t n -> ~ found t r n None.
Proof.
  intros Hr Hf. cbn in Hf. assert (psum t n < r \/ psum t n = 0) as [|]; [|lia|lia].
  clear Hr. induction n as [|n IH]; [by right|]. cbn [psum].
  destruct (runnable t n) eqn:Er.
  - left. specialize (Hf n ltac:(lia) Er). done.
  - unfold tickets. rewrite Er, Z.add_0_r. apply IH. intros. apply Hf; [lia|done].
Qed.

Lemma lottery_spec s (Q : unit -> K -> Prop) :
  cpu_ok (k_cpu s) -> (forall p, (p < NPROC)%nat -> p_lock (k_proc s p) = false) ->
  (forall p, (p < NPROC)%nat -> 0 <= tickets (k_proc s) p) -> 0 < psum (k_proc s) NPROC <= INT_MAX ->
  (forall w t c, (w < NPROC)%nat -> wins (k_proc s) (draw_number s (psum (k_proc s) NPROC)) w ->
     upd_at (k_proc s) w ((k_proc s w) <| p_lock := true |> <| p_state := RUNNING |>) t ->
     ceq (c_push (k_cpu s)) c ->
     wp (dispatch w;; release (proc_lk w)) Q (ps (s <| k_rand := next_rand s |>) t c)) ->
  wp lottery_scheduler Q s.
Proof.
  intros Hc Hl Ht Hmax Hrun. unfold lottery_scheduler. apply wp_bind, wp_count; [done|done|done|lia|].
  intros t Hlk. set (total := psum (k_proc s) NPROC) in *. destruct (Z.eqb_spec total 0); [lia|].
  unfold rand. wp_steps. ksimpl. change (Z.rem _ total) with (draw_number s total).
  set (s1 := s <| k_rand := next_rand s |>).
  pose proof (draw_number_range s total ltac:(lia)) as Hr.
  apply (wp_draw s1 (draw_number s total) t (cn NPROC (k_cpu s))); try done; [apply Hmax| |].
  { intros q. rewrite Hlk. unfold drawn. destruct (Nat.ltb_spec q 0); [lia|].
    destruct (Nat.ltb_spec q NPROC); [rewrite bool_decide_eq_true_2 by done|rewrite bool_decide_eq_false_2 by lia]; done. }
  intros n1 win t' c' Hf Hlk' Hc'. destruct win as [w|]; [|by destruct (found_some (k_proc s) (draw_number s total) NPROC)].
  destruct Hf as [Hw Hwin]. wp_steps. ksimpl.
  assert (upd_at (k_proc s1) w ((k_proc s w) <| p_lock := true |>) t') as Hu.
  { intros q. rewrite Hlk'. unfold drawn. destruct (decide (q = w)) as [->|Hne].
    - destruct (Nat.ltb_spec w NPROC); [|lia]. by rewrite bool_decide_eq_true_2.
    - destruct (Nat.ltb_spec q NPROC); [|done]. rewrite bool_decide_eq_false_2; [done|congruence]. }
  assert (p_state (k_proc s w) = RUNNABLE) as Er by (destruct Hwin as [Hrw _]; by apply bool_decide_eq_true in Hrw).
  rewrite (upd_at_eq _ _ _ _ Hu). rsimpl. rewrite bool_decide_eq_true_2 by done. cbn [negb]. psteps.
  apply (proj1 (wp_bind (dispatch w) (fun _ => release (proc_lk w)) Q _)).
  apply (Hrun w t0 c'); [done|done|exact Hu|].
  unfold held_after in Hc'. rewrite Nat.sub_diag in Hc'. exact Hc'.
Qed.

(** C36: the lottery. If every lock is free and the tickets of the runnable
    processes are not negative and add up to a positive total below
    overflow, [lottery_scheduler] draws a number below the total and
    dispatches the first runnable process at which the running total of
    tickets reaches the number; some process always wins. *)
Theorem lottery_runs_winner s (Q : unit -> K -> Prop) :
  cpu_ok (k_cpu s) -> (forall p, (p < NPROC)%nat -> p_lock (k_proc s p) = false) ->
  (forall p, (p < NPROC)%nat -> 0 <= tickets (k_proc s) p) -> 0 < psum (k_proc s) NPROC <= INT_MAX ->
  (forall w t c, let r := draw_number s (psum (k_proc s) NPROC) in
     (w < NPROC)%nat -> 0 <= r < psum (k_proc s) NPROC -> wins (k_proc s) r w ->
     upd_at (k_proc s) w ((k_proc s w) <| p_lock := true |> <| p_state := RUNNING |>) t ->
     ceq (c_push (k_cpu s)) c ->
     wp (dispatch w;; release (proc_lk w)) Q (ps (s <| k_rand := next_rand s |>) t c)) ->
  wp lottery_scheduler Q s.
Proof.
  intros Hc Hl Ht Hmax Hrun. apply lottery_spec; [done|done|done|done|]. intros w t c Hw Hwin Hu Hcc.
  apply Hrun; [done|apply draw_number_range; lia|done|done|done].
Qed.

(** Two runnable processes with one ticket each. *)
Definition duel (t : nat -> proc) (p q : nat) : Prop :=
  (p < q)%nat /\ (q < NPROC)%nat /\
  p_state (t p) = RUNNABLE /\ p_state (t q) = RUNNABLE /\ p_tickets (t p) = 1 /\ p_tickets (t q) = 1 /\
  forall x, (x < NPROC)%nat -> x <> p -> x <> q -> p_state (t x) <> RUNNABLE.

Lemma duel_psum t p q n :
  duel t p q -> (n <= NPROC)%nat ->
  psum t n = (if (p <? n)%nat then 1 else 0) + (if (q <? n)%nat then 1 else 0).
Proof.
  intros (Hpq & Hq & Hrp & Hrq & Htp & Htq & Hno). induction n as [|n IH]; intros Hn.
  { destruct (Nat.ltb_spec p 0), (Nat.ltb_spec q 0); cbn; lia. }
  cbn [psum]. rewrite IH by lia. unfold tickets, runnable.
  destruct (decide (n = p)) as [->|]; [rewrite bool_decide_eq_true_2, Htp by done|
    destruct (decide (n = q)) as [->|]; [rewrite bool_decide_eq_true_2, Htq by done|
      rewrite bool_decide_eq_false_2 by (apply Hno; [lia|done|done])]];
    repeat match goal with |- context [(?a <? ?b)%nat] => destruct (Nat.ltb_spec a b) end; lia.
Qed.

(** C37: the lottery is not fair: the comparison with the running total admits
    equality. Of two runnable processes with one ticket each, the one that
    comes first in the table is dispatched in every round, whatever number is
    drawn; the other never runs. *)
Theorem lottery_starves_second s p q (Q : unit -> K -> Prop) :
  cpu_ok (k_cpu s) -> (forall x, (x < NPROC)%nat -> p_lock (k_proc s x) = false) -> duel (k_proc s) p q ->
  (forall t c, upd_at (k_proc s) p ((k_proc s p) <| p_lock := true |> <| p_state := RUNNING |>) t ->
     ceq (c_push (k_cpu s)) c ->
     wp (dispatch p;; release (proc_lk p)) Q (ps (s <| k_rand := next_rand s |>) t c)) ->
  wp lottery_scheduler Q s.
Proof.
  intros Hc Hl Hd Hrun. pose proof (duel_psum _ _ _ NPROC Hd ltac:(lia)) as Etot.
  pose proof Hd as (Hpq & Hq & Hrp & Hrq & Htp & Htq & Hno).
  destruct (Nat.ltb_spec p NPROC), (Nat.ltb_spec q NPROC); try lia. change (1 + 1) with 2 in Etot.
  apply lottery_spec; [done|done| |rewrite Etot; unfold INT_MAX; lia|].
  { intros x Hx. unfold tickets, runnable. destruct (bool_decide (p_state (k_proc s x) = RUNNABLE)) eqn:Er; [|done].
    apply bool_decide_eq_true in Er. destruct (decide (x = p)) as [->|]; [lia|].
    destruct (decide (x = q)) as [->|]; [lia|]. by apply Hno in Er. }
  intros w t c Hw (Hrw & Hle & Hfirst) Hu Hcc. rewrite Etot in *.
  pose proof (draw_number_range s 2 ltac:(lia)) as Hr. apply bool_decide_eq_true in Hrw.
  assert (w = p) as ->; [|by apply Hrun].
  destruct (decide (w = p)); [done|]. exfalso. assert (w = q) as ->.
  { destruct (decide (w = q)); [done|]. by apply Hno in Hrw. }
  specialize (Hfirst p Hpq ltac:(by apply bool_decide_eq_true_2)).
  rewrite (duel_psum _ _ _ (S p) Hd) in Hfirst by lia.
  destruct (Nat.ltb_spec p (S p)), (Nat.ltb_spec q (S p)); lia.
Qed.

End sched.

(** ** Examples

    Two runnable processes, 3 and 5, of a kernel whose processes only leave
    their number. *)
Section examples.

Definition two (x y : proc) : K := KDemo.with_procs [(3%nat, x); (5%nat, y)].

Lemma two_lookup x y p : k_proc (two x y) p = if decide (p = 3%nat) then x else if decide (p = 5%nat) then y else KDemo.proc0.
Proof.
  unfold two, KDemo.with_procs. rsimpl. cbn.
  repeat (case_decide; cbn; subst; try done).
Qed.

(** In this kernel a property of every process is one of three processes. *)
Lemma two_all x y (P : nat -> proc -> Prop) :
  P 3%nat x -> P 5%nat y -> (forall p, p <> 3%nat -> p <> 5%nat -> P p KDemo.proc0) -> forall p, P p (k_proc (two x y) p).
Proof. intros H3 H5 H0 p. rewrite two_lookup. repeat case_decide; subst; auto. Qed.

Lemma two_runnable x y p : p_state (k_proc (two x y) p) = RUNNABLE -> p = 3%nat \/ p = 5%nat.
Proof. rewrite two_lookup. repeat case_decide; subst; auto. done. Qed.

Lemma fcfs_runs_oldest_witness :
  wp (@fcfs_scheduler KDemo.env) (fun _ s' => KDemo.dispatched s' = [5]) (two (KDemo.ready 20 1 60) (KDemo.ready 10 1 60)).
Proof.
  apply (@fcfs_runs_oldest KDemo.env).
  - apply KDemo.cpu0_ok.
  - intros p _. by apply (two_all _ _ (fun _ x => p_lock x = false)).
  - intros p _. by apply (two_all _ _ (fun _ x => 0 <= p_start_ticks x < u64 (-1))).
  - intros m t c Hm Hr Hbest Ht Hcc. assert (m = 5%nat) as ->.
    { destruct (two_runnable _ _ _ Hr) as [-> | ->]; [|done].
      destruct (Hbest 5%nat) as [Hb _]; [pose proof NPROC_eq; lia|done|].
      rewrite !two_lookup in Hb. by repeat case_decide. }
    eapply KDemo.wp_dispatch; [apply KDemo.cpu0_ok|exact Hcc|by rewrite (upd_at_eq _ _ _ _ Ht)].
  - intros t c Hno. exfalso. apply (Hno 3%nat); [pose proof NPROC_eq; lia|done].
Defined.

Lemma priority_runs_best_witness :
  wp (@priority_scheduler KDemo.env) (fun _ s' => KDemo.dispatched s' = [5]) (two (KDemo.ready 10 1 60) (KDemo.ready 20 1 50)).
Proof.
  apply (@priority_runs_best KDemo.env).
  - apply KDemo.cpu0_ok.
  - intros p _. by apply (two_all _ _ (fun _ x => p_lock x = false)).
  - intros p _. by apply (two_all _ _ (fun _ x => prio_ok x)).
  - intros m t c Hm Hr Hbest Ht Hcc. assert (m = 5%nat) as ->.
    { destruct (two_runnable _ _ _ Hr) as [-> | ->]; [|done].
      destruct (Hbest 5%nat) as [Hb _]; [pose proof NPROC_eq; lia|done|].
      rewrite !two_lookup in Hb. by repeat case_decide. }
    eapply KDemo.wp_dispatch; [apply KDemo.cpu0_ok|exact Hcc|by rewrite (upd_at_eq _ _ _ _ Ht)].
  - intros t c Hno. exfalso. apply (Hno 3%nat); [pose proof NPROC_eq; lia|done].
Defined.

(** The second of two processes with one and nine tickets wins when the
    number drawn is not 0 or 1. *)
Lemma lottery_runs_winner_witness :
  wp (@lottery_scheduler KDemo.env) (fun _ s' => KDemo.dispatched s' = [5])
    (two (KDemo.ready 10 1 60) (KDemo.ready 20 9 60) <| k_ticks := 4 * 65536 |>).
Proof.
  assert (psum (k_proc (two (KDemo.ready 10 1 60) (KDemo.ready 20 9 60))) NPROC = 10) as Etot by (vm_compute; reflexivity).
  apply (@lottery_runs_winner KDemo.env).
  - apply KDemo.cpu0_ok.
  - intros p _. by apply (two_all _ _ (fun _ x => p_lock x = false)).
  - intros p _. unfold tickets, runnable. rsimpl.
    rewrite two_lookup. by repeat case_decide.
  - rsimpl. rewrite Etot. clear. unfold INT_MAX. lia.
  - rsimpl. rewrite Etot. clear Etot. intros w t c r Hw Hr (Hrw & Hle & _) Ht Hcc. apply bool_decide_eq_true in Hrw.
    assert (w = 5%nat) as ->.
    { destruct (two_runnable _ _ _ Hrw) as [-> | ->]; [|done]. exfalso.
      vm_compute in Hle. by apply Hle. }
    eapply KDemo.wp_dispatch; [apply KDemo.cpu0_ok|exact Hcc|by rewrite (upd_at_eq _ _ _ _ Ht)].
Defined.

Lemma lottery_starves_second_witness :
  wp (@lottery_scheduler KDemo.env) (fun _ s' => KDemo.dispatched s' = [3]) (two (KDemo.ready 10 1 60) (KDemo.ready 20 1 60)).
Proof.
  apply (@lottery_starves_second KDemo.env _ 3%nat 5%nat).
  - apply KDemo.cpu0_ok.
  - intros p _. by apply (two_all _ _ (fun _ x => p_lock x = false)).
  - pose proof NPROC_eq. repeat split; try lia; try done.
    intros p _ H3 H5 Hr. by destruct (two_runnable _ _ _ Hr).
  - intros t c Ht Hcc. eapply KDemo.wp_dispatch; [apply KDemo.cpu0_ok|exact Hcc|by rewrite (upd_at_eq _ _ _ _ Ht)].
Defined.

End examples.
