(* ===== verification/RoundRobin.v ===== *)
(** * RoundRobin: every runnable process gets the CPU in every round

    The round-robin scheduler walks the process table once per round.  What a
    process does while it has the CPU is the parameter [run] of the
    surroundings; the contract [TimeSharing] says what the rest of the kernel
    guarantees about it, and the theorem that no process starves is proved
    against the contract. *)

From stdpp Require Import base list gmap functions strings.
From Stdlib Require Import ZArith Lia.
From S2P Require Import Prelude CMem Riscv Spinlock Kalloc Vm Que KState Printf Proc KWp KDemo.

(** [ran s]: the processes that have had the CPU so far, in order.  A process
    that gets the CPU, with its lock held, gives it back with its lock held,
    the interrupt state as it was, and the locks of the others as they were;
    and nobody but the scheduler takes RUNNABLE away from another process. *)
Class TimeSharing {E : Env} (ran : K -> list nat) : Prop := {
  ran_ps s t c : ran (ps s t c) = ran s;
  run_yields p s :
    c_proc (k_cpu s) = Some p -> p_lock (k_proc s p) = true -> p_state (k_proc s p) = RUNNING ->
    wp (run p) (fun _ s' =>
      ran s' = ran s ++ [p] /\ ceq (k_cpu s) (k_cpu s') /\ p_lock (k_proc s' p) = true /\
      forall q, q <> p -> p_lock (k_proc s' q) = p_lock (k_proc s q) /\
        (p_state (k_proc s q) = RUNNABLE -> p_state (k_proc s' q) = RUNNABLE)) s;
}.

Lemma sublist_snoc_skip {A} (l k : list A) x : l `sublist_of` k -> l `sublist_of` k ++ [x].
Proof. intros H. by apply sublist_inserts_r. Qed.

Lemma ceq_reset c c' p : c_proc c = None -> ceq (c <| c_proc := Some p |>) c' -> ceq c (c' <| c_proc := None |>).
Proof.
  intros Hn (E1 & E2 & E3 & E4 & E5). unfold ceq. rsimpl. rsimpl_in E5. by repeat split.
Qed.

Section rr.
Context `{E : Env} (ran : K -> list nat) `{!TimeSharing ran}.

(** The state after the processes of [done] have had their turn. *)
Definition round_inv (s : K) (done : list nat) (s1 : K) : Prop :=
  ceq (k_cpu s) (k_cpu s1) /\ (forall p, p_lock (k_proc s1 p) = false) /\
  (forall p, p ∉ done -> p_state (k_proc s p) = RUNNABLE -> p_state (k_proc s1 p) = RUNNABLE) /\
  exists l, ran s1 = ran s ++ l /\ l `sublist_of` done /\
    forall p, p ∈ done -> p_state (k_proc s p) = RUNNABLE -> p ∈ l.

(** Giving the CPU to process [p], whose lock has been taken in state [s1],
    and releasing the lock. *)
Lemma wp_turn s1 p t (Q : unit -> K -> Prop) :
  cpu_ok (k_cpu s1) -> c_proc (k_cpu s1) = None -> (forall q, p_lock (k_proc s1 q) = false) ->
  upd_at (k_proc s1) p ((k_proc s1 p) <| p_lock := true |> <| p_state := RUNNING |>) t ->
  (forall s2, ran s2 = ran s1 ++ [p] -> ceq (k_cpu s1) (k_cpu s2) -> (forall q, p_lock (k_proc s2 q) = false) ->
     (forall q, q <> p -> p_state (k_proc s1 q) = RUNNABLE -> p_state (k_proc s2 q) = RUNNABLE) -> Q tt s2) ->
  wp (dispatch p;; release (proc_lk p)) Q (ps s1 t (c_push (k_cpu s1))).
Proof.
  intros Hc Hnone Hl Ht HQ. unfold dispatch. wp_steps. eapply wp_mono.
  { apply run_yields; ksimpl; [done|by rewrite (upd_at_eq _ _ _ _ Ht)|by rewrite (upd_at_eq _ _ _ _ Ht)]. }
  intros [] s2 (Hran & Hcc & Hlp & Hq). change (ran (_ <| k_cpu ::= _ |>)) with (ran (ps s1 t ((c_push (k_cpu s1)) <| c_proc := Some p |>))) in Hran.
  rewrite ran_ps in Hran. ksimpl_in Hcc. wp_steps.
  apply (wp_release_ceq _ (k_cpu s1)); [done| |done|].
  { ksimpl. by eapply ceq_reset. }
  intros c Hcc'. apply (HQ (ps s2 (<[p := (k_proc s2 p) <| p_lock := false |>]> (k_proc s2)) c)).
  - by rewrite ran_ps.
  - done.
  - intros q. ksimpl. destruct (decide (q = p)) as [->|Hne]; [by rewrite fn_lookup_insert|].
    rewrite fn_lookup_insert_ne by done. destruct (Hq q Hne) as [-> _]. ksimpl. rewrite (upd_at_ne _ _ _ _ _ Ht Hne). apply Hl.
  - intros q Hne Hr. ksimpl. rewrite fn_lookup_insert_ne by done. apply (Hq q Hne). ksimpl.
    by rewrite (upd_at_ne _ _ _ _ _ Ht Hne).
Qed.

(** One turn of the loop. *)
Lemma wp_round_step s done p s1 :
  cpu_ok (k_cpu s) -> c_proc (k_cpu s) = None -> p ∉ done -> round_inv s done s1 ->
  wp (acquire (proc_lk p);;
      x ← get_proc p;
      when (bool_decide (p_state x = RUNNABLE))
        (upd_proc p (fun x => x <| p_state := RUNNING |>);;
         dispatch p);;
      release (proc_lk p)) (fun _ s2 => round_inv s (done ++ [p]) s2) s1.
Proof.
  intros Hc Hnone Hp (Hcc & Hl & Hrest & l & Hran & Hsub & Hin).
  pose proof (ceq_ok _ _ Hcc Hc) as Hc1. assert (c_proc (k_cpu s1) = None) as Hn1 by (etrans; [apply Hcc|done]).
  apply wp_bind, wp_lock_proc; [apply Hl|]. intros t Ht. wp_steps. ksimpl.
  rewrite (upd_at_eq _ _ _ _ Ht). rsimpl. destruct (bool_decide (p_state (k_proc s1 p) = RUNNABLE)) eqn:Er.
  - psteps. apply (proj1 (wp_bind (dispatch p) (fun _ => release (proc_lk p)) _ _)).
    eapply wp_turn; [done|done|done|exact Ht|]. intros s2 Hran2 Hcc2 Hl2 Hr2.
    split; [by etrans|]. split; [done|]. split.
    { intros q Hq Hrq. apply Hr2; [set_solver|]. apply Hrest; [set_solver|done]. }
    exists (l ++ [p]). rewrite Hran2, Hran, app_assoc. split; [done|]. split; [by apply sublist_app|].
    intros q Hq Hrq. destruct (decide (q = p)) as [->|]; [set_solver|]. apply elem_of_app. left. apply Hin; [set_solver|done].
  - apply bool_decide_eq_false in Er. wp_steps.
    eapply (wp_unlock_proc s1 p (k_proc s1 p)); [done|reflexivity|apply Hl|exact Ht|]. intros t' c' Hcc' Ht'.
    assert (forall q, t' q = k_proc s1 q) as E' by (intros q; rewrite Ht'; by case_decide; subst).
    split; [by etrans|]. split; [intros q; ksimpl; by rewrite E'|]. split.
    { intros q Hq Hrq. ksimpl. rewrite E'. apply Hrest; [set_solver|done]. }
    exists l. rewrite ran_ps. split; [done|]. split; [by apply sublist_snoc_skip|].
    intros q Hq Hrq. apply elem_of_app in Hq as [Hq| ->%list_elem_of_singleton]; [by apply Hin|].
    exfalso. by apply Er, Hrest.
Qed.

(** C22: round robin starves nobody. From a state with all locks free, if
    processes give the CPU back ([TimeSharing]), one round of
    [round_robin_scheduler] returns with all locks free again, having given
    the CPU to every process that was RUNNABLE when the round began, each
    process at most once and in the order of the table. *)
Theorem round_robin_runs_all s :
  cpu_ok (k_cpu s) -> c_proc (k_cpu s) = None -> (forall p, p_lock (k_proc s p) = false) ->
  exists s' l, round_robin_scheduler s = Ok tt s' /\ ran s' = ran s ++ l /\ sublist l all_procs /\
    (forall p, (p < NPROC)%nat -> p_state (k_proc s p) = RUNNABLE -> p ∈ l) /\
    ceq (k_cpu s) (k_cpu s') /\ forall p, p_lock (k_proc s' p) = false.
Proof.
  intros Hc Hnone Hl. assert (wp round_robin_scheduler (fun _ => round_inv s all_procs) s) as Hwp.
  { apply (wp_for_each (round_inv s)).
    - intros done p todo s1 Hsplit Hinv. destruct (split_fresh _ _ _ _ NoDup_all_procs Hsplit) as [Hp _].
      by apply wp_round_step.
    - split; [done|]. split; [done|]. split; [done|]. exists []. rewrite app_nil_r. split; [done|]. split; [done|set_solver]. }
  apply wp_ok in Hwp as ([] & s' & Hok & Hcc & Hl' & _ & l & Hran & Hsub & Hin).
  exists s', l. split; [done|]. split; [done|]. split; [done|]. split; [|done].
  intros p Hp. apply Hin. by apply elem_of_all_procs.
Qed.

End rr.

(** ** Example: two processes that run and become runnable again *)
Module Cooperative.

Definition env : Env := {|
  swtch := mret tt;
  run := fun p =>
    modify (fun s => s <| k_con ::= fun k => k <| uart_out ::= cons (Z.of_nat p) |> |>);;
    upd_proc p (fun x => x <| p_state := RUNNABLE |>);
  disk_rw := fun _ _ => mret tt;
  read_reg := fun _ => mret 0;
  plic_reg := mret 0;
  disk_intr := mret tt;
  disk_init := mret tt;
  sym_forkret := 0;
  sym_usertrap := 0;
  sym_kernelvec := 0;
  sym_uservec := 0;
  sym_userret := 0;
  junk := fun _ => 0;
|}.

Definition ran (s : K) : list nat := rev (Z.to_nat <$> uart_out (k_con s)).

Lemma sharing : @TimeSharing env ran.
Proof.
  split; [done|]. intros p s Hp Hl Hst. unfold run, env, upd_proc. wp_steps. unfold ran. ksimpl. cbn.
  rewrite Nat2Z.id. split; [done|]. split; [done|]. rewrite fn_lookup_insert. split; [done|].
  intros q Hq. by rewrite fn_lookup_insert_ne.
Qed.

Definition start : K := KDemo.with_procs [(3%nat, KDemo.ready 10 1 60); (5%nat, KDemo.ready 20 1 60)].

Lemma round_robin_runs_all_witness :
  exists s' l, @round_robin_scheduler env start = Ok tt s' /\ ran s' = l /\ 3%nat ∈ l /\ 5%nat ∈ l.
Proof.
  destruct (@round_robin_runs_all env ran sharing start) as (s' & l & Hok & Hran & _ & Hin & _).
  - apply KDemo.cpu0_ok.
  - reflexivity.
  - intros p. unfold start, KDemo.with_procs. rsimpl. cbn. repeat (case_decide; cbn; try reflexivity).
  - pose proof NPROC_eq. exists s', l. split; [exact Hok|]. split; [exact Hran|].
    split; apply Hin; try lia; reflexivity.
Defined.

End Cooperative.
