(* ===== verification/Bio.v ===== *)
(** * Bio: sleep locks and the buffer cache, [kernel/sleeplock.c] and
      [kernel/bio.c]

    The buffers are on a doubly linked list in order of use, through the
    [b_prev] and [b_next] fields; buffer [NBUF] is the list head. *)

From stdpp Require Import base list gmap functions strings.
From Stdlib Require Import ZArith Lia.
From S2P Require Import Prelude CMem Riscv Spinlock Kalloc Vm Que KState Printf Proc.

Definition upd_buf (b : nat) (f : buf -> buf) : M K unit :=
  modify (fun s => s <| k_bc ::= fun bc => bc <| bc_buf ::= fun t => <[b := f (t b)]> t |> |>).
Definition get_buf (b : nat) : M K buf := gets (fun s => bc_buf (k_bc s) b).
Definition upd_inode (i : nat) (f : inode -> inode) : M K unit :=
  modify (fun s => s <| k_it ::= fun it => it <| it_inode ::= fun t => <[i := f (t i)]> t |> |>).
Definition get_inode (i : nat) : M K inode := gets (fun s => it_inode (k_it s) i).

(** ** Sleep locks *)

(** Where a sleep lock sits, with the channel its waiters sleep on. *)
Record slock := Slock {
  sl_lens : lens sleeplock K;
  sl_chan : Z;
}.

Definition buf_lock (b : nat) : slock :=
  Slock (Lens (fun s => b_lock (bc_buf (k_bc s) b))
    (fun l s => s <| k_bc ::= fun bc => bc <| bc_buf ::= fun t => <[b := (t b) <| b_lock := l |>]> t |> |>)) (chan_buf b).
Definition inode_lock (i : nat) : slock :=
  Slock (Lens (fun s => i_lock (it_inode (k_it s) i))
    (fun l s => s <| k_it ::= fun it => it <| it_inode ::= fun t => <[i := (t i) <| i_lock := l |>]> t |> |>)) (chan_inode i).

(** The spin lock inside. *)
Definition inner (lk : slock) : lens bool K :=
  Lens (fun s => sl_lk (lget (sl_lens lk) s))
    (fun b s => lset (sl_lens lk) ((lget (sl_lens lk) s) <| sl_lk := b |>) s).

Definition upd_slock (lk : slock) (f : sleeplock -> sleeplock) : M K unit :=
  modify (fun s => lset (sl_lens lk) (f (lget (sl_lens lk) s)) s).

Section bio.
Context `{L : Layout} `{E : Env}.

Definition initsleeplock (lk : slock) : M K unit :=
  initlock (inner lk);;
  upd_slock lk (fun l => l <| sl_locked := 0 |>);;
  upd_slock lk (fun l => l <| sl_pid := 0 |>).

Definition acquiresleep (lk : slock) : M K unit :=
  acquire (inner lk);;
  while (fun _ : unit =>
    l ← gets (lget (sl_lens lk));
    if sl_locked l =? 0 then mret (inr tt) else
    sleep (sl_chan lk) (inner lk);;
    mret (inl tt)) tt;;
  upd_slock lk (fun l => l <| sl_locked := 1 |>);;
  p ← cur;
  x ← get_proc p;
  upd_slock lk (fun l => l <| sl_pid := p_pid x |>);;
  release (inner lk).

Definition releasesleep (lk : slock) : M K unit :=
  acquire (inner lk);;
  upd_slock lk (fun l => l <| sl_locked := 0 |>);;
  upd_slock lk (fun l => l <| sl_pid := 0 |>);;
  wakeup (sl_chan lk);;
  release (inner lk).

Definition holdingsleep (lk : slock) : M K bool :=
  acquire (inner lk);;
  l ← gets (lget (sl_lens lk));
  r ← (if sl_locked l =? 0 then mret false else
       p ← cur; x ← get_proc p; mret (sl_pid l =? p_pid x));
  release (inner lk);;
  mret r.

(** ** The buffer cache *)

Definition binit : M K unit :=
  initlock bc_lk;;
  upd_buf NBUF (fun h => h <| b_prev := NBUF |>);;
  upd_buf NBUF (fun h => h <| b_next := NBUF |>);;
  for_each (seq 0 NBUF) (fun b =>
    h ← get_buf NBUF;
    upd_buf b (fun x => x <| b_next := b_next h |>);;
    upd_buf b (fun x => x <| b_prev := NBUF |>);;
    initsleeplock (buf_lock b);;
    h ← get_buf NBUF;
    upd_buf (b_next h) (fun x => x <| b_prev := b |>);;
    upd_buf NBUF (fun h => h <| b_next := b |>)).

(** The two loops of [bget]: forward for the block, backward for a buffer
    nobody uses. *)
Definition bget_cached (dev blockno : Z) : M K (option nat) :=
  h ← get_buf NBUF;
  while (fun b =>
    if (b =? NBUF)%nat then mret (inr None) else
    x ← get_buf b;
    if (b_dev x =? dev) && (b_blockno x =? blockno) then mret (inr (Some b))
    else mret (inl (b_next x))) (b_next h).

Definition bget_unused : M K (option nat) :=
  h ← get_buf NBUF;
  while (fun b =>
    if (b =? NBUF)%nat then mret (inr None) else
    x ← get_buf b;
    if b_refcnt x =? 0 then mret (inr (Some b)) else mret (inl (b_prev x))) (b_prev h).

Definition bget (dev blockno : Z) : M K nat :=
  acquire bc_lk;;
  r ← bget_cached dev blockno;
  match r with
  | Some b =>
      upd_buf b (fun x => x <| b_refcnt := u32 (b_refcnt x + 1) |>);;
      release bc_lk;;
      acquiresleep (buf_lock b);;
      mret b
  | None =>
      r ← bget_unused;
      match r with
      | Some b =>
          upd_buf b (fun x => x <| b_dev := dev |>);;
          upd_buf b (fun x => x <| b_blockno := blockno |>);;
          upd_buf b (fun x => x <| b_valid := 0 |>);;
          upd_buf b (fun x => x <| b_refcnt := 1 |>);;
          release bc_lk;;
          acquiresleep (buf_lock b);;
          mret b
      | None => panic "bget: no buffers"
      end
  end.

Definition bread (dev blockno : Z) : M K nat :=
  b ← bget dev blockno;
  x ← get_buf b;
  when (b_valid x =? 0)
    (disk_rw b false;;
     upd_buf b (fun x => x <| b_valid := 1 |>));;
  mret b.

Definition bwrite (b : nat) : M K unit :=
  h ← holdingsleep (buf_lock b);
  if negb h then panic "bwrite" else
  disk_rw b true.

Definition brelse (b : nat) : M K unit :=
  h ← holdingsleep (buf_lock b);
  if negb h then panic "brelse" else
  releasesleep (buf_lock b);;
  acquire bc_lk;;
  upd_buf b (fun x => x <| b_refcnt := u32 (b_refcnt x - 1) |>);;
  x ← get_buf b;
  when (b_refcnt x =? 0)
    (x ← get_buf b;
     upd_buf (b_next x) (fun y => y <| b_prev := b_prev x |>);;
     x ← get_buf b;
     upd_buf (b_prev x) (fun y => y <| b_next := b_next x |>);;
     h ← get_buf NBUF;
     upd_buf b (fun x => x <| b_next := b_next h |>);;
     upd_buf b (fun x => x <| b_prev := NBUF |>);;
     h ← get_buf NBUF;
     upd_buf (b_next h) (fun y => y <| b_prev := b |>);;
     upd_buf NBUF (fun h => h <| b_next := b |>));;
  release bc_lk.

Definition bpin (b : nat) : M K unit :=
  acquire bc_lk;;
  upd_buf b (fun x => x <| b_refcnt := u32 (b_refcnt x + 1) |>);;
  release bc_lk.

Definition bunpin (b : nat) : M K unit :=
  acquire bc_lk;;
  upd_buf b (fun x => x <| b_refcnt := u32 (b_refcnt x - 1) |>);;
  release bc_lk.

End bio.
