(* ===== verification/Log.v ===== *)
(** * Log: the file-system log, [kernel/log.c] *)

From stdpp Require Import base list gmap functions strings.
From Stdlib Require Import ZArith Lia.
From S2P Require Import Prelude CMem Riscv Spinlock Kalloc Vm Que KState Printf Proc Bio.

Definition upd_log (f : klog -> klog) : M K unit := modify (fun s => s <| k_log ::= f |>).
#[export] Hint Unfold upd_log : xv6_op.

(** Little-endian integers of [n] bytes in the data of a block. *)
Fixpoint le_val (l : list Z) : Z :=
  match l with [] => 0 | b :: l' => b + 256 * le_val l' end.
Fixpoint le_bytes (n : nat) (v : Z) : list Z :=
  match n with O => [] | S n' => u8 v :: le_bytes n' (v / 256) end.
Definition ld (n : nat) (data : list Z) (off : Z) : Z := le_val (take n (drop (Z.to_nat off) data)).
Definition st (n : nat) (data : list Z) (off v : Z) : list Z := list_inserts (Z.to_nat off) (le_bytes n v) data.
Definition ld32 := ld 4.
Definition st32 := st 4.

Definition upd_data (b : nat) (f : list Z -> list Z) : M K unit := upd_buf b (fun x => x <| b_data ::= f |>).
Definition get_data (b : nat) : M K (list Z) := x ← get_buf b; mret (b_data x).

Section log.
Context `{L : Layout} `{E : Env}.

(** The loop counters of the C code are [int]s below [log.lh.n], which is at
    most [LOGSIZE]; [lh.block] has [LOGSIZE] entries. *)
Definition lh_index (i : Z) : M K unit :=
  if (0 <=? i) && (i <? LOGSIZE) then mret tt else fault.

Definition install_trans (recovering : bool) : M K unit :=
  while (fun tail =>
    lg ← gets k_log;
    if negb (tail <? lh_n lg) then mret (inr tt) else
    lbuf ← bread (lg_dev lg) (u32 (lg_start lg + tail + 1));
    lh_index tail;;
    lg ← gets k_log;
    dbuf ← bread (lg_dev lg) (u32 (lh_block lg tail));
    d ← get_data lbuf;
    upd_data dbuf (fun _ => d);;
    bwrite dbuf;;
    when (negb recovering) (bunpin dbuf);;
    brelse lbuf;;
    brelse dbuf;;
    mret (inl (tail + 1))) 0.

Definition read_head : M K unit :=
  lg ← gets k_log;
  buf ← bread (lg_dev lg) (u32 (lg_start lg));
  lh ← get_data buf;
  upd_log (fun l => l <| lh_n := i32 (ld32 lh 0) |>);;
  while (fun i =>
    lg ← gets k_log;
    if negb (i <? lh_n lg) then mret (inr tt) else
    lh_index i;;
    upd_log (fun l => l <| lh_block ::= fun t => <[i := i32 (ld32 lh (4 + 4 * i))]> t |>);;
    mret (inl (i + 1))) 0;;
  brelse buf.

Definition write_head : M K unit :=
  lg ← gets k_log;
  buf ← bread (lg_dev lg) (u32 (lg_start lg));
  lg ← gets k_log;
  upd_data buf (fun d => st32 d 0 (lh_n lg));;
  while (fun i =>
    lg ← gets k_log;
    if negb (i <? lh_n lg) then mret (inr tt) else
    lh_index i;;
    upd_data buf (fun d => st32 d (4 + 4 * i) (lh_block lg i));;
    mret (inl (i + 1))) 0;;
  bwrite buf;;
  brelse buf.

Definition recover_from_log : M K unit :=
  read_head;;
  install_trans true;;
  upd_log (fun l => l <| lh_n := 0 |>);;
  write_head.

(** [sizeof(struct logheader)] is [4 + 4 * LOGSIZE]. *)
Definition initlog (dev : Z) (sb : superblock) : M K unit :=
  if BSIZE <=? 4 + 4 * LOGSIZE then panic "initlog: too big logheader" else
  initlock log_lk;;
  upd_log (fun l => l <| lg_start := i32 (sb_logstart sb) |>);;
  upd_log (fun l => l <| lg_size := i32 (sb_nlog sb) |>);;
  upd_log (fun l => l <| lg_dev := dev |>);;
  recover_from_log.

Definition begin_op : M K unit :=
  acquire log_lk;;
  while (fun _ : unit =>
    lg ← gets k_log;
    if negb (lg_committing lg =? 0) then
      sleep chan_log log_lk;; mret (inl tt)
    else if LOGSIZE <? lh_n lg + (lg_outstanding lg + 1) * MAXOPBLOCKS then
      sleep chan_log log_lk;; mret (inl tt)
    else
      upd_log (fun l => l <| lg_outstanding := lg_outstanding l + 1 |>);;
      release log_lk;;
      mret (inr tt)) tt.

Definition write_log : M K unit :=
  while (fun tail =>
    lg ← gets k_log;
    if negb (tail <? lh_n lg) then mret (inr tt) else
    to ← bread (lg_dev lg) (u32 (lg_start lg + tail + 1));
    lh_index tail;;
    lg ← gets k_log;
    from ← bread (lg_dev lg) (u32 (lh_block lg tail));
    d ← get_data from;
    upd_data to (fun _ => d);;
    bwrite to;;
    brelse from;;
    brelse to;;
    mret (inl (tail + 1))) 0.

Definition commit : M K unit :=
  lg ← gets k_log;
  when (0 <? lh_n lg)
    (write_log;;
     write_head;;
     install_trans false;;
     upd_log (fun l => l <| lh_n := 0 |>);;
     write_head).

Definition end_op : M K unit :=
  acquire log_lk;;
  upd_log (fun l => l <| lg_outstanding := lg_outstanding l - 1 |>);;
  lg ← gets k_log;
  if negb (lg_committing lg =? 0) then panic "log.committing" else
  do_commit ←
    (if lg_outstanding lg =? 0 then
       upd_log (fun l => l <| lg_committing := 1 |>);; mret true
     else wakeup chan_log;; mret false);
  release log_lk;;
  when do_commit
    (commit;;
     acquire log_lk;;
     upd_log (fun l => l <| lg_committing := 0 |>);;
     wakeup chan_log;;
     release log_lk).

(** The search for the block among those already logged. *)
Definition log_find (blockno : Z) : M K Z :=
  while (fun i =>
    lg ← gets k_log;
    if negb (i <? lh_n lg) then mret (inr i) else
    if u32 (lh_block lg i) =? blockno then mret (inr i) else mret (inl (i + 1))) 0.

Definition log_write (b : nat) : M K unit :=
  acquire log_lk;;
  lg ← gets k_log;
  if (LOGSIZE <=? lh_n lg) || (lg_size lg - 1 <=? lh_n lg) then panic "too big a transaction" else
  if lg_outstanding lg <? 1 then panic "log_write outside of trans" else
  x ← get_buf b;
  i ← log_find (b_blockno x);
  lh_index i;;
  upd_log (fun l => l <| lh_block ::= fun t => <[i := i32 (b_blockno x)]> t |>);;
  lg ← gets k_log;
  when (i =? lh_n lg)
    (bpin b;;
     upd_log (fun l => l <| lh_n := lh_n l + 1 |>));;
  release log_lk.

End log.
