(* ===== verification/BioWp.v ===== *)
(** * BioWp: rules for the buffer cache

    The operations of [Bio] change four components of the kernel: the cache,
    the disk, the process table (sleepers woken by [releasesleep]) and the
    interrupt bookkeeping of the CPU.  [bst] describes a state that is [s0]
    but for these, the cache as a table of buffers given pointwise. *)

From stdpp Require Import base list gmap functions strings.
From Stdlib Require Import ZArith Lia.
From S2P Require Import Prelude CMem Riscv Spinlock Kalloc Vm Que KState Printf Proc KWp KDemo Bio.

(** ** The disk

    What [virtio_disk_rw] does, seen by a thread that runs alone: when it
    returns, the disk has transferred the block. *)
Definition dblock (d : kdisk) (n : Z) : list Z := default (replicate (Z.to_nat BSIZE) 0) (d_block d !! n).

Definition dwrite (n : Z) (data : list Z) (d : kdisk) : kdisk :=
  mkDisk (<[n := data]> (d_block d)) ((n, data) :: d_writes d).

Class DiskOk (E : Env) : Prop := {
  disk_read b s : disk_rw b false s =
    Ok tt (s <| k_bc ::= fun bc => bc <| bc_buf ::= fun T =>
      <[b := (T b) <| b_data := dblock (k_disk s) (b_blockno (T b)) |>]> T |> |>);
  disk_write b s : disk_rw b true s =
    Ok tt (s <| k_disk ::= dwrite (b_blockno (bc_buf (k_bc s) b)) (b_data (bc_buf (k_bc s) b)) |>);
}.

(** ** States *)

(** Everything else of the kernel. *)
Definition erase (s : K) : K :=
  s <| k_bc := k_bc KDemo.k0 |> <| k_proc := k_proc KDemo.k0 |> <| k_cpu := k_cpu KDemo.k0 |> <| k_disk := k_disk KDemo.k0 |>.

Record bst (s0 : K) (c : kcpu) (lk : bool) (T : nat -> buf) (t : nat -> proc) (d : kdisk) (s : K) : Prop := {
  bs_frame : erase s = erase s0;
  bs_cpu : ceq c (k_cpu s);
  bs_lock : bc_lock (k_bc s) = lk;
  bs_buf q : bc_buf (k_bc s) q = T q;
  bs_proc p : k_proc s p = t p;
  bs_disk : k_disk s = d;
}.

Lemma bst_ext s0 c lk T T' t d s : (forall q, T q = T' q) -> bst s0 c lk T t d s -> bst s0 c lk T' t d s.
Proof. intros HT [H1 H2 H3 H4 H5 H6]. split; try done. intros q. by rewrite H4. Qed.

Lemma bst_cpu s0 c c' lk T t d s : ceq c' c -> bst s0 c lk T t d s -> bst s0 c' lk T t d s.
Proof. intros Hc [H1 H2 H3 H4 H5 H6]. split; try done. by etrans. Qed.

(** Updates of the same entry collapse. *)
Lemma fn_insert_insert {A} (T : nat -> A) b x y q : (<[b := y]> (<[b := x]> T)) q = (<[b := y]> T) q.
Proof. destruct (decide (q = b)) as [->|]; [by rewrite !fn_lookup_insert|by rewrite !fn_lookup_insert_ne]. Qed.

(** Two tables that differ from [T] only at [b] are equal pointwise. *)
Ltac table_eq b :=
  let q := fresh "q" in intros q; destruct (decide (q = b)) as [->|];
  [rewrite !fn_lookup_insert; match goal with |- context [?T b] => destruct (T b) end;
   unfold set_field; cbn in *; subst; reflexivity
  |by rewrite !fn_lookup_insert_ne by done].

#[export] Instance inner_buf_ok b : LockOk (inner (buf_lock b)).
Proof. split; try done. intros v s. cbn. rsimpl. by rewrite fn_lookup_insert. Qed.

Section rules.
Context {E : Env}.
Variables (s0 : K) (c : kcpu) (lk : bool) (T : nat -> buf) (t : nat -> proc) (d : kdisk) (s : K).

Lemma wp_get_buf b (Q : buf -> K -> Prop) :
  bst s0 c lk T t d s -> Q (T b) s -> wp (get_buf b) Q s.
Proof. intros H HQ. unfold get_buf. wp_steps. by rewrite (bs_buf _ _ _ _ _ _ _ H). Qed.

Lemma wp_upd_buf b f (Q : unit -> K -> Prop) :
  bst s0 c lk T t d s -> (forall s', bst s0 c lk (<[b := f (T b)]> T) t d s' -> Q tt s') -> wp (upd_buf b f) Q s.
Proof.
  intros [H1 H2 H3 H4 H5 H6] HQ. unfold upd_buf. wp_steps. apply HQ. split; try done.
  intros q. rsimpl. rewrite H4. destruct (decide (q = b)) as [->|]; [by rewrite !fn_lookup_insert|].
  by rewrite !fn_lookup_insert_ne.
Qed.

Lemma wp_bc_acquire (Q : unit -> K -> Prop) :
  bst s0 c lk T t d s -> lk = false ->
  (forall s', bst s0 (c_push c) true T t d s' -> Q tt s') -> wp (acquire bc_lk) Q s.
Proof.
  intros [H1 H2 H3 H4 H5 H6] -> HQ. apply wp_acquire; [apply _|done|]. apply HQ. split; try done.
  by apply ceq_push.
Qed.

Lemma wp_bc_release c1 (Q : unit -> K -> Prop) :
  bst s0 c lk T t d s -> cpu_ok c1 -> c = c_push c1 -> lk = true ->
  (forall s', bst s0 c1 false T t d s' -> Q tt s') -> wp (release bc_lk) Q s.
Proof.
  intros [H1 H2 H3 H4 H5 H6] Hc1 -> -> HQ. apply (wp_release_ceq _ c1); [done|done|done|].
  intros c2 Hc2. by apply HQ.
Qed.

Lemma wp_inner_acquire b (Q : unit -> K -> Prop) :
  bst s0 c lk T t d s -> sl_lk (b_lock (T b)) = false ->
  (forall s', bst s0 (c_push c) lk (<[b := (T b) <| b_lock ::= fun l => l <| sl_lk := true |> |>]> T) t d s' -> Q tt s') ->
  wp (acquire (inner (buf_lock b))) Q s.
Proof.
  intros [H1 H2 H3 H4 H5 H6] Hl HQ. apply wp_acquire; [apply _|by cbn; rewrite H4|]. apply HQ. split; try done.
  - by apply ceq_push.
  - intros q. cbn. rsimpl. rewrite H4. destruct (decide (q = b)) as [->|]; [by rewrite !fn_lookup_insert|].
    by rewrite !fn_lookup_insert_ne.
Qed.

Lemma wp_inner_release c1 b (Q : unit -> K -> Prop) :
  bst s0 c lk T t d s -> cpu_ok c1 -> c = c_push c1 -> sl_lk (b_lock (T b)) = true ->
  (forall s', bst s0 c1 lk (<[b := (T b) <| b_lock ::= fun l => l <| sl_lk := false |> |>]> T) t d s' -> Q tt s') ->
  wp (release (inner (buf_lock b))) Q s.
Proof.
  intros [H1 H2 H3 H4 H5 H6] Hc1 -> Hl HQ. apply (wp_release_ceq _ c1); [done|done|by cbn; rewrite H4|].
  intros c2 Hc2. apply HQ. split; try done.
  intros q. cbn. rsimpl. rewrite H4. destruct (decide (q = b)) as [->|]; [by rewrite !fn_lookup_insert|].
  by rewrite !fn_lookup_insert_ne.
Qed.

Lemma wp_upd_slock b f (Q : unit -> K -> Prop) :
  bst s0 c lk T t d s ->
  (forall s', bst s0 c lk (<[b := (T b) <| b_lock ::= f |>]> T) t d s' -> Q tt s') -> wp (upd_slock (buf_lock b) f) Q s.
Proof.
  intros [H1 H2 H3 H4 H5 H6] HQ. unfold upd_slock. wp_steps. apply HQ. split; try done.
  intros q. cbn. rsimpl. rewrite H4. destruct (decide (q = b)) as [->|]; [by rewrite !fn_lookup_insert|].
  by rewrite !fn_lookup_insert_ne.
Qed.

Lemma wp_bst_cur me (Q : nat -> K -> Prop) :
  bst s0 c lk T t d s -> cpu_ok c -> c_proc c = Some me ->
  (forall s', bst s0 c lk T t d s' -> Q me s') -> wp cur Q s.
Proof.
  intros [H1 H2 H3 H4 H5 H6] Hc Hp HQ. apply wp_cur with (p := me); [by eapply ceq_ok|by rewrite <- Hp; apply H2|].
  intros c' Hc'. apply HQ. split; try done. by etrans.
Qed.

Lemma wp_bst_get_proc p (Q : proc -> K -> Prop) :
  bst s0 c lk T t d s -> Q (t p) s -> wp (get_proc p) Q s.
Proof. intros H HQ. unfold get_proc. wp_steps. by rewrite (bs_proc _ _ _ _ _ _ _ H). Qed.

Lemma wp_bst_wakeup chan (Q : unit -> K -> Prop) :
  bst s0 c lk T t d s -> cpu_ok c -> locks_free (c_proc c) t ->
  (forall s', bst s0 c lk T (fun p => if decide (p < NPROC)%nat then woken chan (c_proc c) p (t p) else t p) d s' -> Q tt s') ->
  wp (wakeup chan) Q s.
Proof.
  intros [H1 H2 H3 H4 H5 H6] Hc Hf HQ. assert (c_proc (k_cpu s) = c_proc c) as Ep by apply H2.
  apply wp_wakeup; [by eapply ceq_ok|intros p Hp Hne; rewrite H5; apply Hf; congruence|].
  intros t' c' Hc' Ht'. apply HQ. split; try done; [by etrans|].
  intros p. ksimpl. by rewrite Ht', Ep, H5.
Qed.

Lemma wp_disk_read `{!DiskOk E} b (Q : unit -> K -> Prop) :
  bst s0 c lk T t d s ->
  (forall s', bst s0 c lk (<[b := (T b) <| b_data := dblock d (b_blockno (T b)) |>]> T) t d s' -> Q tt s') ->
  wp (disk_rw b false) Q s.
Proof.
  intros [H1 H2 H3 H4 H5 H6] HQ. unfold wp. rewrite disk_read. apply HQ. split; try done.
  intros q. rsimpl. rewrite H4, H6. destruct (decide (q = b)) as [->|]; [by rewrite !fn_lookup_insert|].
  by rewrite !fn_lookup_insert_ne.
Qed.

Lemma wp_disk_write `{!DiskOk E} b (Q : unit -> K -> Prop) :
  bst s0 c lk T t d s ->
  (forall s', bst s0 c lk T t (dwrite (b_blockno (T b)) (b_data (T b)) d) s' -> Q tt s') ->
  wp (disk_rw b true) Q s.
Proof.
  intros [H1 H2 H3 H4 H5 H6] HQ. unfold wp. rewrite disk_write. apply HQ. split; try done.
  rsimpl. by rewrite H4, H6.
Qed.

End rules.

(** ** Sleep locks of buffers *)
Section sleeplocks.
Context {E : Env}.
Variables (s0 : K) (c : kcpu) (lk : bool) (T : nat -> buf) (t : nat -> proc) (d : kdisk) (s : K) (me : nat).
Hypothesis Hs : bst s0 c lk T t d s.
Hypothesis Hc : cpu_ok c.
Hypothesis Hme : c_proc c = Some me.

Definition locked_by (pid : Z) : sleeplock := mkSleeplock 1 false pid.

(** An operation on the lock of one buffer that leaves the buffer as [x]. *)
Lemma bst_collapse b x y c' s' :
  bst s0 c' lk (<[b := y]> (<[b := x]> T)) t d s' -> bst s0 c' lk (<[b := y]> T) t d s'.
Proof. apply bst_ext. intros q. apply fn_insert_insert. Qed.

Lemma wp_acquiresleep b (Q : unit -> K -> Prop) :
  b_lock (T b) = KDemo.unlocked ->
  (forall s', bst s0 c lk (<[b := (T b) <| b_lock := locked_by (p_pid (t me)) |>]> T) t d s' -> Q tt s') ->
  wp (acquiresleep (buf_lock b)) Q s.
Proof.
  intros Hl HQ. unfold acquiresleep. apply wp_bind. eapply wp_inner_acquire; [exact Hs|by rewrite Hl|].
  intros s1 H1. apply wp_bind, wp_while_once. wp_steps. cbn [lget buf_lock sl_lens].
  rewrite (bs_buf _ _ _ _ _ _ _ H1), fn_lookup_insert. rsimpl. rewrite Hl. change (sl_locked KDemo.unlocked =? 0) with true. wp_steps.
  eapply wp_upd_slock; [exact H1|]. intros s2 H2%bst_collapse. rewrite fn_lookup_insert in H2.
  apply wp_bind. eapply wp_bst_cur; [exact H2|by apply c_push_ok|exact Hme|]. intros s3 H3.
  apply wp_bind. eapply wp_bst_get_proc; [exact H3|]. apply wp_bind.
  eapply wp_upd_slock; [exact H3|]. intros s4 H4%bst_collapse. rewrite fn_lookup_insert in H4.
  eapply (wp_inner_release _ _ _ _ _ _ _ c); [exact H4|done|done|by rewrite fn_lookup_insert|].
  intros s5 H5%bst_collapse. apply HQ. eapply bst_ext; [|exact H5]. table_eq b.
Qed.

Lemma wp_holdingsleep b (Q : bool -> K -> Prop) :
  b_lock (T b) = locked_by (p_pid (t me)) ->
  (forall s', bst s0 c lk T t d s' -> Q true s') -> wp (holdingsleep (buf_lock b)) Q s.
Proof.
  intros Hl HQ. unfold holdingsleep. apply wp_bind. eapply wp_inner_acquire; [exact Hs|by rewrite Hl|].
  intros s1 H1. wp_steps. cbn [lget buf_lock sl_lens].
  rewrite (bs_buf _ _ _ _ _ _ _ H1), fn_lookup_insert. rsimpl. rewrite Hl. change (sl_locked (locked_by (p_pid (t me))) =? 0) with false. cbn iota.
  apply wp_bind. eapply wp_bst_cur; [exact H1|by apply c_push_ok|exact Hme|]. intros s3 H3.
  apply wp_bind. eapply wp_bst_get_proc; [exact H3|]. wp_steps. rewrite Z.eqb_refl.
  eapply (wp_inner_release _ _ _ _ _ _ _ c); [exact H3|done|done|by rewrite fn_lookup_insert|].
  intros s5 H5%bst_collapse. wp_steps. apply HQ. eapply bst_ext; [|exact H5]. table_eq b.
Qed.

(** The process table after [wakeup(chan)]. *)
Definition wake (chan : Z) (t : nat -> proc) : nat -> proc :=
  fun p => if decide (p < NPROC)%nat then woken chan (Some me) p (t p) else t p.

Lemma wp_releasesleep b (Q : unit -> K -> Prop) :
  sl_lk (b_lock (T b)) = false -> locks_free (Some me) t ->
  (forall s', bst s0 c lk (<[b := (T b) <| b_lock := KDemo.unlocked |>]> T) (wake (chan_buf b) t) d s' -> Q tt s') ->
  wp (releasesleep (buf_lock b)) Q s.
Proof.
  intros Hl Hf HQ. unfold releasesleep. apply wp_bind. eapply wp_inner_acquire; [exact Hs|done|].
  intros s1 H1. apply wp_bind. eapply wp_upd_slock; [exact H1|]. intros s2 H2%bst_collapse.
  apply wp_bind. eapply wp_upd_slock; [exact H2|]. intros s3 H3%bst_collapse.
  rewrite !fn_lookup_insert in H3. apply wp_bind. rewrite <- Hme in Hf.
  eapply wp_bst_wakeup; [exact H3|by apply c_push_ok|exact Hf|]. intros s4 H4. cbn [c_proc c_push] in H4. rewrite Hme in H4.
  eapply (wp_inner_release _ _ _ _ _ _ _ c); [exact H4|done|done|by rewrite fn_lookup_insert|].
  intros s5 H5. apply HQ. eapply bst_ext; [|exact H5]. table_eq b.
Qed.

End sleeplocks.
