(* ===== verification/BioSpec.v ===== *)
(** * BioSpec: the buffer cache is a view of the disk

    [bcache_ok] is the invariant of the cache: the buffers form one circular
    list through their links, no block is in two buffers, and a buffer that
    nobody uses holds what is on the disk.  [view] is what the cache and the
    disk together hold. *)

From stdpp Require Import base list gmap functions strings.
From Stdlib Require Import ZArith Lia.
From S2P Require Import Prelude CMem Riscv Spinlock Kalloc Vm Que KState Printf Proc KWp KDemo Bio BioWp.

(** ** The list of buffers *)

(** From [x] through [l] to [y], linked both ways. *)
Fixpoint seg (T : nat -> buf) (x : nat) (l : list nat) (y : nat) : Prop :=
  match l with
  | [] => b_next (T x) = y /\ b_prev (T y) = x
  | z :: l' => b_next (T x) = z /\ b_prev (T z) = x /\ seg T z l' y
  end.

Definition dll (T : nat -> buf) (l : list nat) : Prop := seg T NBUF l NBUF.

Lemma seg_app T x l1 z l2 y : seg T x (l1 ++ z :: l2) y <-> seg T x l1 z /\ seg T z l2 y.
Proof. revert x. induction l1 as [|a l1 IH]; intros x; cbn; [tauto|]. rewrite IH. tauto. Qed.

(** Only the forward links of [x :: l] and the backward links of [l ++ [y]]
    matter. *)
Lemma seg_ext T T' x l y :
  (forall z, z ∈ x :: l -> b_next (T' z) = b_next (T z)) ->
  (forall z, z ∈ l ++ [y] -> b_prev (T' z) = b_prev (T z)) -> seg T x l y -> seg T' x l y.
Proof.
  revert x. induction l as [|a l IH]; intros x Hn Hp; cbn in *.
  - rewrite Hn, Hp by set_solver. done.
  - intros (H1 & H2 & H3). rewrite Hn, Hp by set_solver. split; [done|]. split; [done|].
    apply IH; [intros z Hz; apply Hn; set_solver|intros z Hz; apply Hp; set_solver|done].
Qed.

Lemma seg_next T x l1 b l2 y : seg T x (l1 ++ b :: l2) y -> b_next (T b) = hd y l2.
Proof. intros [_ H]%seg_app. destruct l2; apply H. Qed.

Lemma seg_first T x l y : seg T x l y -> b_next (T x) = hd y l.
Proof. destruct l; intros H; apply H. Qed.

Lemma last_default {A} (a : A) l x y : List.last (a :: l) x = List.last (a :: l) y.
Proof. revert a. induction l as [|b l IH]; intros a; [done|]. apply (IH b). Qed.

Lemma last_cons {A} (a : A) l x : List.last (a :: l) x = List.last l a.
Proof. destruct l as [|b l]; [done|]. apply (last_default b l). Qed.

Lemma seg_last T x l y : seg T x l y -> b_prev (T y) = List.last l x.
Proof.
  revert x. induction l as [|a l IH]; intros x H; [apply H|]. destruct H as (_ & _ & H). apply IH in H.
  by rewrite H, last_cons.
Qed.

Lemma seg_prev T x l1 b l2 y : seg T x (l1 ++ b :: l2) y -> b_prev (T b) = List.last l1 x.
Proof. intros [H _]%seg_app. by apply seg_last in H. Qed.

(** Taking [b] out of the list. *)
Lemma seg_unlink T T' x l1 b l2 y :
  NoDup (l1 ++ b :: l2) -> x ∉ l1 ++ b :: l2 -> y ∉ l1 ++ b :: l2 -> seg T x (l1 ++ b :: l2) y ->
  (forall z, z <> b -> b_next (T' z) = if decide (z = List.last l1 x) then hd y l2 else b_next (T z)) ->
  (forall z, z <> b -> b_prev (T' z) = if decide (z = hd y l2) then List.last l1 x else b_prev (T z)) ->
  seg T' x (l1 ++ l2) y.
Proof.
  revert x. induction l1 as [|a l1 IH]; intros x Hnd Hx Hy Hseg Hn Hp.
  - cbn in Hnd, Hx, Hy, Hseg. destruct Hseg as (H1 & H2 & H3). destruct l2 as [|z l2]; cbn in *.
    + rewrite Hn, Hp by set_solver. by rewrite !decide_True.
    + destruct H3 as (_ & _ & H3). apply NoDup_cons in Hnd as [Hb [Hz Hnd]%NoDup_cons].
      rewrite Hn, Hp by set_solver. rewrite !decide_True by done. split; [done|]. split; [done|].
      eapply seg_ext; [| |exact H3].
      * intros w Hw. rewrite Hn by set_solver. rewrite decide_False; [done|]. set_solver.
      * intros w Hw. rewrite Hp by set_solver. rewrite decide_False; [done|]. set_solver.
  - rewrite last_cons in *. cbn in Hnd, Hx, Hy, Hseg. apply NoDup_cons in Hnd as [Ha Hnd]. destruct Hseg as (H1 & H2 & H3).
    assert (x <> List.last l1 a).
    { intros ->. apply Hx. apply elem_of_cons. destruct l1 as [|z l1]; [by left|]. right. apply elem_of_app. left.
      rewrite last_cons. clear. revert z. induction l1 as [|w l1 IH]; intros z; [set_solver|].
      rewrite last_cons. specialize (IH w). set_solver. }
    assert (a <> hd y l2) by (destruct l2; set_solver).
    cbn. rewrite Hn, Hp by set_solver. rewrite !decide_False by done. split; [done|]. split; [done|].
    apply IH; [done|set_solver|set_solver|done|exact Hn|exact Hp].
Qed.

(** Putting [b] in front. *)
Lemma seg_push T T' b l :
  b <> NBUF -> b ∉ l -> NBUF ∉ l -> NoDup l -> dll T l ->
  (forall z, b_next (T' z) = if decide (z = NBUF) then b else if decide (z = b) then hd NBUF l else b_next (T z)) ->
  (forall z, b_prev (T' z) = if decide (z = hd NBUF l) then b else if decide (z = b) then NBUF else b_prev (T z)) ->
  dll T' (b :: l).
Proof.
  intros Hb Hbl Hl Hnd Hd Hn Hp. unfold dll in *. cbn. rewrite Hn, decide_True by done. split; [done|]. split.
  { rewrite Hp, decide_False, decide_True by (destruct l; set_solver). done. }
  destruct l as [|z l]; cbn in *.
  - rewrite Hn, Hp. rewrite decide_False, !decide_True by done. done.
  - destruct Hd as (H1 & H2 & H3). apply NoDup_cons in Hnd as [Hz Hnd]. rewrite Hn, Hp.
    rewrite decide_False, !decide_True by done. split; [done|]. split; [done|].
    eapply seg_ext; [| |exact H3].
    + intros w Hw. rewrite Hn, !decide_False by set_solver. done.
    + intros w Hw. rewrite Hp. destruct (decide (w = z)) as [->|]; [set_solver|]. rewrite decide_False by set_solver. done.
Qed.

(** ** The invariant *)

(** Buffer [b] is for block [n]. *)
Definition caches (T : nat -> buf) (b : nat) (n : Z) : Prop :=
  (b < NBUF)%nat /\ b_dev (T b) = ROOTDEV /\ b_blockno (T b) = n.

Record bcache_ok (T : nat -> buf) (d : kdisk) (order : list nat) : Prop := {
  bo_perm : order ≡ₚ seq 0 NBUF;
  bo_dll : dll T order;
  bo_uniq b b' n : caches T b n -> caches T b' n -> b = b';
  bo_clean b n : caches T b n -> b_refcnt (T b) = 0 -> b_valid (T b) <> 0 -> b_data (T b) = dblock d n;
  bo_ref b : (b < NBUF)%nat -> 0 <= b_refcnt (T b) < 2 ^ 32;
  bo_free b : (b < NBUF)%nat -> b_refcnt (T b) = 0 -> b_lock (T b) = KDemo.unlocked;
}.

Definition matches (T : nat -> buf) (n : Z) (b : nat) : bool :=
  (b_dev (T b) =? ROOTDEV) && (b_blockno (T b) =? n).

Definition find_buf (T : nat -> buf) (n : Z) : option nat := List.find (matches T n) (seq 0 NBUF).

(** What a reader of block [n] gets. *)
Definition view (T : nat -> buf) (d : kdisk) (n : Z) : list Z :=
  match find_buf T n with
  | Some b => if b_valid (T b) =? 0 then dblock d n else b_data (T b)
  | None => dblock d n
  end.

Lemma matches_iff T n b : (b < NBUF)%nat -> matches T n b = true <-> caches T b n.
Proof. intros Hb. unfold matches, caches. rewrite andb_true_iff, !Z.eqb_eq. tauto. Qed.

Lemma find_buf_Some T n b : find_buf T n = Some b -> caches T b n.
Proof.
  intros [Hin Hm]%List.find_some. apply matches_iff; [|done].
  apply list_elem_of_In, elem_of_seq in Hin. lia.
Qed.

Lemma find_buf_None T n b : find_buf T n = None -> ~ caches T b n.
Proof.
  intros H [Hb Hc]. pose proof (List.find_none _ _ H b) as Hf.
  assert (matches T n b = true) as E by by apply matches_iff. rewrite Hf in E; [done|].
  apply list_elem_of_In, elem_of_seq. lia.
Qed.

Section view.
Context (T : nat -> buf) (Huniq : forall b b' n, caches T b n -> caches T b' n -> b = b').

Lemma find_buf_caches b n : caches T b n -> find_buf T n = Some b.
Proof.
  intros Hc. destruct (find_buf T n) as [b'|] eqn:E.
  - apply find_buf_Some in E. f_equal. by eapply Huniq.
  - by apply (find_buf_None _ _ b) in E.
Qed.

Lemma view_caches d b n : caches T b n -> view T d n = if b_valid (T b) =? 0 then dblock d n else b_data (T b).
Proof. intros Hc. unfold view. by rewrite (find_buf_caches _ _ Hc). Qed.

Lemma view_uncached d n : (forall b, ~ caches T b n) -> view T d n = dblock d n.
Proof. intros Hc. unfold view. destruct (find_buf T n) as [b|] eqn:E; [|done]. by apply find_buf_Some, Hc in E. Qed.

End view.

Lemma order_elem order b : order ≡ₚ seq 0 NBUF -> b ∈ order <-> (b < NBUF)%nat.
Proof. intros ->. rewrite elem_of_seq. lia. Qed.

Lemma order_NoDup order : order ≡ₚ seq 0 NBUF -> NoDup order.
Proof. intros ->. apply NoDup_seq. Qed.

Lemma order_length order : order ≡ₚ seq 0 NBUF -> length order = NBUF.
Proof. intros ->. apply length_seq. Qed.
