(* ===== verification/BioOps.v ===== *)
(** * BioOps: what the operations of the buffer cache do

    For a thread that runs alone, from a cache that satisfies
    [bcache_ok]. *)

From stdpp Require Import base list gmap functions strings.
From Stdlib Require Import ZArith Lia.
From S2P Require Import Prelude CMem Riscv Spinlock Kalloc Vm Que KState Printf Proc KWp KDemo Bio BioWp BioSpec.

Lemma find_skip {A} (f : A -> bool) l1 l2 : List.find f l1 = None -> List.find f (l1 ++ l2) = List.find f l2.
Proof. induction l1 as [|a l1 IH]; cbn; [done|]. by destruct (f a). Qed.

Lemma find_snoc_None {A} (f : A -> bool) l a : List.find f l = None -> f a = false -> List.find f (l ++ [a]) = None.
Proof. intros H Ha. rewrite find_skip by done. cbn. by rewrite Ha. Qed.

Section loops.
Context {E : Env}.
Variables (s0 : K) (c : kcpu) (lk : bool) (T : nat -> buf) (t : nat -> proc) (d : kdisk) (s : K) (order : list nat).
Hypothesis Hs : bst s0 c lk T t d s.
Hypothesis Hperm : order ≡ₚ seq 0 NBUF.
Hypothesis Hdll : dll T order.

Lemma wp_bget_cached n (Q : option nat -> K -> Prop) :
  Q (List.find (matches T n) order) s -> wp (bget_cached ROOTDEV n) Q s.
Proof.
  intros HQ. unfold bget_cached. apply wp_bind. eapply wp_get_buf; [exact Hs|].
  apply (wp_while_idx (fun k b s' => s' = s /\ exists l1 l2, order = l1 ++ l2 /\ b = hd NBUF l2 /\ length l2 = k /\
    List.find (matches T n) l1 = None)) with (k := length order).
  - intros k b s' (-> & l1 & l2 & Ho & -> & <- & Hf). destruct l2 as [|b l2]; cbn [hd].
    { rewrite Nat.eqb_refl. apply wp_ret. rewrite Ho, app_nil_r, Hf in HQ. done. }
    assert (b < NBUF)%nat as Hb by (apply (order_elem _ _ Hperm); rewrite Ho; set_solver).
    destruct (Nat.eqb_spec b NBUF); [lia|]. apply wp_bind. eapply wp_get_buf; [exact Hs|].
    fold (matches T n b). destruct (matches T n b) eqn:Em; apply wp_ret.
    + rewrite Ho, find_skip in HQ by done. cbn in HQ. by rewrite Em in HQ.
    + exists (length l2). split; [cbn; lia|]. split; [done|]. exists (l1 ++ [b]), l2. rewrite <- app_assoc.
      split; [done|]. split; [|split; [done|by apply find_snoc_None]].
      unfold dll in Hdll. rewrite Ho in Hdll. by eapply seg_next.
  - split; [done|]. exists [], order. split; [done|]. split; [|done]. by eapply seg_first.
  - rewrite (order_length _ Hperm). done.
Qed.

Definition unused (b : nat) : bool := b_refcnt (T b) =? 0.

Lemma wp_bget_unused (Q : option nat -> K -> Prop) :
  Q (List.find unused (rev order)) s -> wp bget_unused Q s.
Proof.
  intros HQ. unfold bget_unused. apply wp_bind. eapply wp_get_buf; [exact Hs|].
  apply (wp_while_idx (fun k b s' => s' = s /\ exists l1 l2, order = l1 ++ l2 /\ b = List.last l1 NBUF /\ length l1 = k /\
    List.find unused (rev l2) = None)) with (k := length order).
  - intros k b s' (-> & l1 & l2 & Ho & -> & <- & Hf). destruct l1 as [|b l1 _] using rev_ind.
    { cbn [List.last]. rewrite Nat.eqb_refl. apply wp_ret. cbn in Ho. subst l2. by rewrite Hf in HQ. }
    rewrite List.last_last. rewrite <- app_assoc in Ho. cbn in Ho.
    assert (b < NBUF)%nat as Hb by (apply (order_elem _ _ Hperm); rewrite Ho; set_solver).
    destruct (Nat.eqb_spec b NBUF); [lia|]. apply wp_bind. eapply wp_get_buf; [exact Hs|].
    fold (unused b). destruct (unused b) eqn:Em; apply wp_ret.
    + rewrite Ho, rev_app_distr in HQ. cbn in HQ. rewrite <- app_assoc, find_skip in HQ by done. cbn in HQ. by rewrite Em in HQ.
    + exists (length l1). rewrite length_app. split; [cbn; lia|]. split; [done|]. exists l1, (b :: l2).
      split; [done|]. split; [|split; [done|cbn; by apply find_snoc_None]].
      unfold dll in Hdll. rewrite Ho in Hdll. by eapply seg_prev.
  - split; [done|]. exists order, []. rewrite app_nil_r. split; [done|]. split; [|done]. by eapply seg_last.
  - rewrite (order_length _ Hperm). done.
Qed.

End loops.

(** ** Changing one buffer *)

#[export] Instance caches_dec T b n : Decision (caches T b n).
Proof. unfold caches. apply _. Defined.

Lemma caches_insert T b x b' n :
  caches (<[b := x]> T) b' n <-> if decide (b' = b) then (b < NBUF)%nat /\ b_dev x = ROOTDEV /\ b_blockno x = n else caches T b' n.
Proof.
  unfold caches. case_decide as Hb; [subst b'; by rewrite fn_lookup_insert|by rewrite fn_lookup_insert_ne].
Qed.

Lemma bcache_ok_insert T d order b x :
  bcache_ok T d order -> (b < NBUF)%nat -> b_next x = b_next (T b) -> b_prev x = b_prev (T b) ->
  (b_dev x = ROOTDEV -> forall b', b' <> b -> ~ caches T b' (b_blockno x)) ->
  (b_refcnt x = 0 -> b_dev x = ROOTDEV -> b_valid x <> 0 -> b_data x = dblock d (b_blockno x)) ->
  0 <= b_refcnt x < 2 ^ 32 -> (b_refcnt x = 0 -> b_lock x = KDemo.unlocked) ->
  bcache_ok (<[b := x]> T) d order.
Proof.
  intros [H1 H2 H3 H4 H5 H6] Hb Hn Hp Hu Hcl Hr Hfr. split; try done.
  - eapply seg_ext; [| |exact H2]; intros z _;
      (destruct (decide (z = b)) as [->|]; [by rewrite fn_lookup_insert|by rewrite fn_lookup_insert_ne]).
  - intros b1 b2 n. rewrite !caches_insert. repeat case_decide; subst; try done.
    + intros (_ & Hd & <-) Hc. by apply Hu in Hc.
    + intros Hc (_ & Hd & <-). by apply Hu in Hc.
    + apply H3.
  - intros b1 n. rewrite caches_insert. case_decide; [subst b1; rewrite fn_lookup_insert|rewrite fn_lookup_insert_ne by done; apply H4].
    intros (_ & Hd & <-) Hr0 Hv. by apply Hcl.
  - intros b1. destruct (decide (b1 = b)) as [->|]; [by rewrite fn_lookup_insert|rewrite fn_lookup_insert_ne by done; apply H5].
  - intros b1. destruct (decide (b1 = b)) as [->|]; [by rewrite fn_lookup_insert|rewrite fn_lookup_insert_ne by done; apply H6].
Qed.

(** The view of a block that is in the same buffer before and after, with
    the same content. *)
Lemma view_same T T' d d' n :
  (forall b b', caches T b n -> caches T b' n -> b = b') -> (forall b b', caches T' b n -> caches T' b' n -> b = b') ->
  (forall b, caches T b n <-> caches T' b n) ->
  (forall b, caches T b n -> (b_valid (T' b) =? 0) = (b_valid (T b) =? 0) /\ (b_valid (T b) <> 0 -> b_data (T' b) = b_data (T b))) ->
  ((forall b, caches T b n -> b_valid (T b) = 0) -> dblock d' n = dblock d n) ->
  view T' d' n = view T d n.
Proof.
  intros Hu Hu' Hiff Hb Hd. unfold view. destruct (find_buf T n) as [b|] eqn:Ef.
  - pose proof (find_buf_Some _ _ _ Ef) as Hc. pose proof (proj1 (Hiff b) Hc) as Hc'.
    assert (find_buf T' n = Some b) as ->.
    { destruct (find_buf T' n) as [b'|] eqn:Ef'; [|by apply (find_buf_None _ _ b) in Ef'].
      f_equal. apply Hu'; [by apply find_buf_Some|done]. }
    destruct (Hb b Hc) as [-> Hdata]. destruct (Z.eqb_spec (b_valid (T b)) 0) as [Ev|Ev]; [|by apply Hdata].
    apply Hd. intros b' Hc2. by rewrite (Hu b' b).
  - assert (find_buf T' n = None) as ->.
    { destruct (find_buf T' n) as [b'|] eqn:Ef'; [|done]. apply find_buf_Some, Hiff in Ef'. by apply (find_buf_None _ _ b') in Ef. }
    apply Hd. intros b Hc. by apply (find_buf_None _ _ b) in Ef.
Qed.

(** The same when buffer [b] keeps its block and its content. *)
Lemma view_insert_same T d order b x n :
  bcache_ok T d order -> bcache_ok (<[b := x]> T) d order ->
  b_dev x = b_dev (T b) -> b_blockno x = b_blockno (T b) -> b_valid x = b_valid (T b) -> b_data x = b_data (T b) ->
  view (<[b := x]> T) d n = view T d n.
Proof.
  intros H H' Ed En Ev Edt. apply view_same; [intros ??; apply (bo_uniq _ _ _ H)|intros ??; apply (bo_uniq _ _ _ H')| | |done].
  - intros b'. rewrite caches_insert. case_decide; [subst|done]. unfold caches. by rewrite Ed, En.
  - intros b' Hc. destruct (decide (b' = b)) as [->|]; [rewrite fn_lookup_insert, Ev, Edt; done|by rewrite fn_lookup_insert_ne].
Qed.

(** ** [bget] and [bread] *)

(** Nobody holds block [n], and there is a buffer for it. *)
Definition can_read (T : nat -> buf) (n : Z) : Prop :=
  (forall b, caches T b n -> b_lock (T b) = KDemo.unlocked /\ b_refcnt (T b) + 1 < 2 ^ 32) /\
  ((exists b, caches T b n) \/ exists b, (b < NBUF)%nat /\ b_refcnt (T b) = 0).

Definition hit (pid : Z) (x : buf) : buf := x <| b_refcnt := b_refcnt x + 1 |> <| b_lock := locked_by pid |>.
Definition miss (pid n : Z) (x : buf) : buf :=
  x <| b_dev := ROOTDEV |> <| b_blockno := n |> <| b_valid := 0 |> <| b_refcnt := 1 |> <| b_lock := locked_by pid |>.

Section bget.
Context {E : Env}.
Variables (s0 : K) (c : kcpu) (T : nat -> buf) (t : nat -> proc) (d : kdisk) (s : K) (me : nat) (order : list nat).
Hypothesis Hs : bst s0 c false T t d s.
Hypothesis Hc : cpu_ok c.
Hypothesis Hme : c_proc c = Some me.
Hypothesis Hok : bcache_ok T d order.

Lemma find_order n :
  match List.find (matches T n) order with
  | Some b => caches T b n
  | None => forall b, ~ caches T b n
  end.
Proof.
  destruct (List.find (matches T n) order) as [b|] eqn:Ef.
  - apply List.find_some in Ef as [Hin Hm]. apply matches_iff; [|done].
    apply (order_elem _ _ (bo_perm _ _ _ Hok)). by apply list_elem_of_In.
  - intros b Hcb. pose proof (List.find_none _ _ Ef b) as Hf. destruct Hcb as [Hb Hcb].
    assert (matches T n b = true) as Em by by apply matches_iff. rewrite Hf in Em; [done|].
    apply list_elem_of_In. by apply (order_elem _ _ (bo_perm _ _ _ Hok)).
Qed.

Lemma wp_bget n (Q : nat -> K -> Prop) :
  can_read T n ->
  (forall b s', caches T b n -> bst s0 c false (<[b := hit (p_pid (t me)) (T b)]> T) t d s' -> Q b s') ->
  (forall b s', (forall b', ~ caches T b' n) -> List.find (unused T) (rev order) = Some b ->
     bst s0 c false (<[b := miss (p_pid (t me)) n (T b)]> T) t d s' -> Q b s') ->
  wp (bget ROOTDEV n) Q s.
Proof.
  intros [Hlk Hav] Hhit Hmiss. unfold bget. apply wp_bind. eapply wp_bc_acquire; [exact Hs|done|]. intros s1 H1.
  apply wp_bind. eapply wp_bget_cached; [exact H1|apply Hok|apply Hok|]. pose proof (find_order n) as Hf.
  destruct (List.find (matches T n) order) as [b|].
  - destruct (Hlk b Hf) as [Hul Hr]. assert (0 <= b_refcnt (T b)) as Hr0 by (apply (bo_ref _ _ _ Hok), Hf).
    apply wp_bind. eapply wp_upd_buf; [exact H1|]. intros s2 H2. cbv beta in H2.
    apply wp_bind. eapply wp_bc_release; [exact H2|done|done|done|]. intros s3 H3.
    apply wp_bind. eapply wp_acquiresleep; [exact H3|done|exact Hme|by rewrite fn_lookup_insert|].
    intros s4 H4. apply wp_ret, Hhit; [done|]. eapply bst_ext; [|exact H4].
    rewrite u32_small by lia. unfold hit. intros q. by rewrite fn_insert_insert, fn_lookup_insert.
  - apply wp_bind. eapply wp_bget_unused; [exact H1|apply Hok|apply Hok|].
    destruct (List.find (unused T) (rev order)) as [b|] eqn:Eu.
    2: { exfalso. destruct Hav as [[b Hb]|(b & Hb & Hr)]; [by apply Hf in Hb|].
      pose proof (List.find_none _ _ Eu b) as Hu. unfold unused in Hu. rewrite Hr in Hu. discriminate Hu.
      apply List.in_rev. rewrite List.rev_involutive. apply list_elem_of_In. by apply (order_elem _ _ (bo_perm _ _ _ Hok)). }
    apply List.find_some in Eu as Hu. destruct Hu as [Hin Hr]. apply Z.eqb_eq in Hr.
    assert (b < NBUF)%nat as Hb.
    { apply (order_elem _ _ (bo_perm _ _ _ Hok)). apply list_elem_of_In. by apply List.in_rev. }
    apply wp_bind. eapply wp_upd_buf; [exact H1|]. intros s2 H2.
    apply wp_bind. eapply wp_upd_buf; [exact H2|]. intros s3 H3%bst_collapse.
    apply wp_bind. eapply wp_upd_buf; [exact H3|]. intros s4 H4%bst_collapse.
    apply wp_bind. eapply wp_upd_buf; [exact H4|]. intros s5 H5%bst_collapse.
    apply wp_bind. eapply wp_bc_release; [exact H5|done|done|done|]. intros s6 H6.
    apply wp_bind. eapply wp_acquiresleep; [exact H6|done|exact Hme| |].
    { rewrite !fn_lookup_insert. by apply (bo_free _ _ _ Hok). }
    intros s7 H7%bst_collapse. apply wp_ret, Hmiss; [done|done|]. eapply bst_ext; [|exact H7].
    intros q. by rewrite !fn_lookup_insert.
Qed.

End bget.

(** The cache after block [n] has been read into buffer [b] and locked. *)
Record read_in (T : nat -> buf) (d : kdisk) (order : list nat) (pid n : Z) (b : nat) (T' : nat -> buf) : Prop := {
  ri_ok : bcache_ok T' d order;
  ri_caches : caches T' b n;
  ri_valid : b_valid (T' b) <> 0;
  ri_data : b_data (T' b) = view T d n;
  ri_lock : b_lock (T' b) = locked_by pid;
  ri_rest q : q <> b -> T' q = T q;
  ri_view n' : view T' d n' = view T d n';
  ri_ref : (caches T b n /\ b_refcnt (T' b) = b_refcnt (T b) + 1) \/
           ((forall b', ~ caches T b' n) /\ b_refcnt (T b) = 0 /\ b_refcnt (T' b) = 1);
}.

(** Filling in the data. *)
Definition fill (d : kdisk) (x : buf) : buf :=
  if b_valid x =? 0 then x <| b_data := dblock d (b_blockno x) |> <| b_valid := 1 |> else x.

Lemma fill_fields d x :
  b_dev (fill d x) = b_dev x /\ b_blockno (fill d x) = b_blockno x /\ b_refcnt (fill d x) = b_refcnt x /\
  b_lock (fill d x) = b_lock x /\ b_next (fill d x) = b_next x /\ b_prev (fill d x) = b_prev x /\ b_valid (fill d x) <> 0 /\
  b_data (fill d x) = if b_valid x =? 0 then dblock d (b_blockno x) else b_data x.
Proof. unfold fill. destruct (Z.eqb_spec (b_valid x) 0); rsimpl; repeat split; done. Qed.

Lemma read_in_hit T d order pid n b :
  bcache_ok T d order -> caches T b n -> b_refcnt (T b) + 1 < 2 ^ 32 ->
  read_in T d order pid n b (<[b := fill d (hit pid (T b))]> T).
Proof.
  intros Hok Hc Hr. pose proof Hc as (Hb & Hd & Hn). destruct (fill_fields d (hit pid (T b))) as (F1 & F2 & F3 & F4 & F5 & F6 & F7 & F8).
  unfold hit in *. rsimpl_in F1; rsimpl_in F2; rsimpl_in F3; rsimpl_in F4; rsimpl_in F5; rsimpl_in F6; rsimpl_in F8.
  set (x := fill d _) in *. pose proof (bo_ref _ _ _ Hok b Hb) as Hr0.
  assert (bcache_ok (<[b := x]> T) d order) as Hok'.
  { apply bcache_ok_insert; try done; try lia.
    intros _ b' Hne Hc'. apply Hne. rewrite F2 in Hc'. eapply (bo_uniq _ _ _ Hok); [exact Hc'|by rewrite Hn]. }
  split; rewrite ?fn_lookup_insert; try done.
  - rewrite caches_insert, decide_True by done. rewrite F1, F2. done.
  - rewrite F8, Hn. by rewrite (view_caches _ (bo_uniq _ _ _ Hok) d b n).
  - intros q Hq. by rewrite fn_lookup_insert_ne.
  - intros n'. destruct (decide (n' = n)) as [->|Hne].
    + rewrite (view_caches _ (bo_uniq _ _ _ Hok) d b n) by done.
      rewrite (view_caches _ (bo_uniq _ _ _ Hok') d b n) by (rewrite caches_insert, decide_True, F1, F2 by done; done).
      rewrite fn_lookup_insert. destruct (Z.eqb_spec (b_valid x) 0); [done|]. by rewrite F8, Hn.
    + apply view_same; [intros ??; apply (bo_uniq _ _ _ Hok)|intros ??; apply (bo_uniq _ _ _ Hok')| | |done].
      * intros b'. rewrite caches_insert. case_decide; [subst|done]. unfold caches. by rewrite F1, F2.
      * intros b' Hc'. destruct (decide (b' = b)) as [->|]; [|by rewrite fn_lookup_insert_ne].
        exfalso. apply Hne. destruct Hc' as (_ & _ & <-). done.
  - left. split; [done|lia].
Qed.

Lemma read_in_miss T d order pid n b :
  bcache_ok T d order -> (b < NBUF)%nat -> (forall b', ~ caches T b' n) -> b_refcnt (T b) = 0 ->
  read_in T d order pid n b (<[b := fill d (miss pid n (T b))]> T).
Proof.
  intros Hok Hb Hno Hr. destruct (fill_fields d (miss pid n (T b))) as (F1 & F2 & F3 & F4 & F5 & F6 & F7 & F8).
  unfold miss in *. rsimpl_in F1; rsimpl_in F2; rsimpl_in F3; rsimpl_in F4; rsimpl_in F5; rsimpl_in F6; rsimpl_in F8.
  cbn in F8. set (x := fill d _) in *.
  assert (bcache_ok (<[b := x]> T) d order) as Hok'.
  { apply bcache_ok_insert; try done; lia. }
  assert (caches (<[b := x]> T) b n) as Hc'.
  { rewrite caches_insert, decide_True, F1, F2 by done. done. }
  assert (b_data x = view T d n) as Edata by (by rewrite F8, (view_uncached T d n)).
  split; rewrite ?fn_lookup_insert; try done.
  - intros q Hq. by rewrite fn_lookup_insert_ne.
  - intros n'. destruct (decide (n' = n)) as [->|Hne].
    { rewrite (view_caches _ (bo_uniq _ _ _ Hok') d b n Hc'), fn_lookup_insert. destruct (Z.eqb_spec (b_valid x) 0); done. }
    destruct (decide (caches T b n')) as [Hcb|Hcb].
    + rewrite (view_caches _ (bo_uniq _ _ _ Hok) d b n' Hcb), view_uncached.
      * destruct (Z.eqb_spec (b_valid (T b)) 0); [done|]. symmetry. by eapply (bo_clean _ _ _ Hok).
      * intros b'. rewrite caches_insert. case_decide; [intros (_ & _ & E1); congruence|].
        intros Hc2. by pose proof (bo_uniq _ _ _ Hok _ _ _ Hc2 Hcb).
    + apply view_same; [intros ??; apply (bo_uniq _ _ _ Hok)|intros ??; apply (bo_uniq _ _ _ Hok')| | |done].
      * intros b'. rewrite caches_insert. case_decide; [subst b'|done]. split; [done|]. intros (_ & _ & E1). congruence.
      * intros b' Hc2. destruct (decide (b' = b)) as [->|]; [done|by rewrite fn_lookup_insert_ne].
  - right. done.
Qed.


Section ops.
Context {E : Env} `{!DiskOk E}.
Variables (s0 : K) (c : kcpu) (T : nat -> buf) (t : nat -> proc) (d : kdisk) (s : K) (me : nat) (order : list nat).
Hypothesis Hs : bst s0 c false T t d s.
Hypothesis Hc : cpu_ok c.
Hypothesis Hme : c_proc c = Some me.
Hypothesis Hok : bcache_ok T d order.

Lemma wp_fill b y s1 (Q : nat -> K -> Prop) :
  bst s0 c false (<[b := y]> T) t d s1 ->
  (forall s', bst s0 c false (<[b := fill d y]> T) t d s' -> Q b s') ->
  wp (x ← get_buf b;
      when (b_valid x =? 0) (disk_rw b false;; upd_buf b (fun x => x <| b_valid := 1 |>));;
      mret b) Q s1.
Proof.
  intros H1 HQ. apply wp_bind. eapply wp_get_buf; [exact H1|]. rewrite fn_lookup_insert. apply wp_bind, wp_when.
  unfold fill in HQ. destruct (b_valid y =? 0) eqn:Ev.
  - apply wp_bind. eapply wp_disk_read; [exact _|exact H1|]. intros s2 H2%bst_collapse.
    eapply wp_upd_buf; [exact H2|]. intros s3 H3%bst_collapse. apply wp_ret, HQ.
    eapply bst_ext; [|exact H3]. intros q. by rewrite !fn_lookup_insert.
  - by apply wp_ret, HQ.
Qed.

Lemma wp_bread n (Q : nat -> K -> Prop) :
  can_read T n ->
  (forall b T' s', read_in T d order (p_pid (t me)) n b T' -> bst s0 c false T' t d s' -> Q b s') ->
  wp (bread ROOTDEV n) Q s.
Proof.
  intros Hcr HQ. unfold bread. apply wp_bind. eapply wp_bget; [exact Hs|done|exact Hme|exact Hok|done| |].
  - intros b s1 Hcb H1. eapply wp_fill; [exact H1|]. intros s2 H2. eapply HQ; [|exact H2].
    apply read_in_hit; [done|done|]. by apply Hcr.
  - intros b s1 Hno Hf H1. eapply wp_fill; [exact H1|]. intros s2 H2. eapply HQ; [|exact H2].
    apply List.find_some in Hf as [Hin Hr]. apply Z.eqb_eq in Hr. apply read_in_miss; [done| |done|done].
    apply (order_elem _ _ (bo_perm _ _ _ Hok)), list_elem_of_In. by apply List.in_rev.
Qed.

(** With every buffer in use, a block that is not in the cache cannot be
    read. *)
Lemma bget_panics n :
  (forall b, ~ caches T b n) -> (forall b, (b < NBUF)%nat -> b_refcnt (T b) <> 0) ->
  bget ROOTDEV n s = Panic "bget: no buffers".
Proof.
  intros Hno Hall. unfold bget.
  assert (wp (acquire bc_lk) (fun _ s1 => bst s0 (c_push c) true T t d s1) s) as Ha.
  { eapply wp_bc_acquire; [exact Hs|done|done]. }
  apply wp_ok in Ha as ([] & s1 & Ea & H1). rewrite (bind_Ok _ _ _ _ _ Ea).
  assert (wp (bget_cached ROOTDEV n) (fun r s' => r = None /\ s' = s1) s1) as Hr.
  { eapply wp_bget_cached; [exact H1|apply Hok|apply Hok|]. split; [|done]. pose proof (find_order _ _ _ Hok n) as Hf.
    destruct (List.find (matches T n) order); [|done]. by apply Hno in Hf. }
  apply wp_ok in Hr as (r & s2 & Er & -> & ->). rewrite (bind_Ok _ _ _ _ _ Er).
  assert (wp bget_unused (fun r s' => r = None /\ s' = s1) s1) as Hu.
  { eapply wp_bget_unused; [exact H1|apply Hok|apply Hok|]. split; [|done].
    destruct (List.find (unused T) (rev order)) as [b|] eqn:Eu; [|done]. exfalso.
    apply List.find_some in Eu as [Hin Hz]. apply Z.eqb_eq in Hz. apply (Hall b); [|done].
    apply (order_elem _ _ (bo_perm _ _ _ Hok)), list_elem_of_In. by apply List.in_rev. }
  apply wp_ok in Hu as (r & s2 & Er2 & -> & ->). by rewrite (bind_Ok _ _ _ _ _ Er2).
Qed.

(** ** [bwrite] *)

Lemma wp_bwrite b (Q : unit -> K -> Prop) :
  b_lock (T b) = locked_by (p_pid (t me)) ->
  (forall s', bst s0 c false T t (dwrite (b_blockno (T b)) (b_data (T b)) d) s' -> Q tt s') ->
  wp (bwrite b) Q s.
Proof.
  intros Hl HQ. unfold bwrite. apply wp_bind. eapply wp_holdingsleep; [exact Hs|done|exact Hme|done|].
  intros s1 H1. cbn [negb]. eapply wp_disk_write; [exact _|exact H1|done].
Qed.

End ops.

Lemma dblock_dwrite n n' data d : dblock (dwrite n data d) n' = if decide (n' = n) then data else dblock d n'.
Proof.
  unfold dblock, dwrite. cbn. case_decide; [subst; by rewrite lookup_insert_eq|by rewrite lookup_insert_ne by done].
Qed.

(** Writing back a buffer in use changes what is on the disk, not what
    readers see. *)
Lemma bwrite_ok T d order b n :
  bcache_ok T d order -> caches T b n -> b_refcnt (T b) <> 0 -> b_valid (T b) <> 0 ->
  bcache_ok T (dwrite n (b_data (T b)) d) order /\ forall n', view T (dwrite n (b_data (T b)) d) n' = view T d n'.
Proof.
  intros Hok Hcb Hr Hv. split.
  - destruct Hok as [H1 H2 H3 H4 H5 H6]. split; try done. intros b' n' Hc' Hr' Hv'. rewrite dblock_dwrite. case_decide; [|by eapply H4].
    subst n'. by rewrite (H3 _ _ _ Hc' Hcb) in Hr'.
  - intros n'. apply view_same; try (intros ??; apply (bo_uniq _ _ _ Hok)); [done|done|].
    intros Hno. rewrite dblock_dwrite. case_decide; [|done]. subst n'. by apply Hno in Hcb.
Qed.

(** ** [brelse] *)

(** [y] is [x] at another place of the list. *)
Definition relinked (x y : buf) : Prop := y = x <| b_next := b_next y |> <| b_prev := b_prev y |>.

Lemma relinked_refl x : relinked x x.
Proof. by destruct x. Qed.

Lemma relinked_fields x y : relinked x y ->
  b_dev y = b_dev x /\ b_blockno y = b_blockno x /\ b_valid y = b_valid x /\ b_data y = b_data x /\
  b_refcnt y = b_refcnt x /\ b_lock y = b_lock x.
Proof. unfold relinked. intros ->. done. Qed.

Lemma fn_insert_decide {A} (T : nat -> A) b x q : (<[b := x]> T) q = if decide (q = b) then x else T q.
Proof. case_decide; [subst; apply fn_lookup_insert|by apply fn_lookup_insert_ne]. Qed.

(** The assignments with which [brelse] moves [b] to the front. *)
Definition unlink (T : nat -> buf) (b : nat) : nat -> buf :=
  let T := <[b_next (T b) := (T (b_next (T b))) <| b_prev := b_prev (T b) |>]> T in
  <[b_prev (T b) := (T (b_prev (T b))) <| b_next := b_next (T b) |>]> T.
Definition push_front (T : nat -> buf) (b : nat) : nat -> buf :=
  let T := <[b := (T b) <| b_next := b_next (T NBUF) |>]> T in
  let T := <[b := (T b) <| b_prev := NBUF |>]> T in
  let T := <[b_next (T NBUF) := (T (b_next (T NBUF))) <| b_prev := b |>]> T in
  <[NBUF := (T NBUF) <| b_next := b |>]> T.

Lemma unlink_links T b : b_next (T b) <> b -> b_prev (T b) <> b ->
  (forall z, b_next (unlink T b z) = if decide (z = b_prev (T b)) then b_next (T b) else b_next (T z)) /\
  (forall z, b_prev (unlink T b z) = if decide (z = b_next (T b)) then b_prev (T b) else b_prev (T z)) /\
  forall z, relinked (T z) (unlink T b z).
Proof.
  intros Hn Hp. unfold unlink. rewrite !(fn_insert_decide _ _ _ b), !(decide_False (P := b = _)) by congruence.
  split; [|split]; intros z; rewrite !fn_insert_decide; repeat case_decide; subst; rsimpl; try done; try congruence; try apply relinked_refl.
  match goal with H : b_prev _ = b_next _ |- _ => by rewrite H end.
Qed.

Lemma push_front_links T b : b <> NBUF -> b_next (T NBUF) <> b ->
  (forall z, b_next (push_front T b z) = if decide (z = NBUF) then b else if decide (z = b) then b_next (T NBUF) else b_next (T z)) /\
  (forall z, b_prev (push_front T b z) = if decide (z = b_next (T NBUF)) then b else if decide (z = b) then NBUF else b_prev (T z)) /\
  forall z, relinked (T z) (push_front T b z).
Proof.
  intros Hb Hn. unfold push_front. rewrite !(fn_insert_decide _ _ _ NBUF), !(decide_False (P := NBUF = b)) by congruence.
  split; [|split]; intros z; rewrite !fn_insert_decide; repeat case_decide; subst; rsimpl; try done; try congruence; try apply relinked_refl.
  match goal with H : NBUF = b_next _ |- _ => by rewrite <- H end.
Qed.

Lemma unlink_dll T b l1 l2 :
  NoDup (l1 ++ b :: l2) -> NBUF ∉ l1 ++ b :: l2 -> dll T (l1 ++ b :: l2) -> dll (unlink T b) (l1 ++ l2).
Proof.
  intros Hnd Hin Hd. pose proof (seg_next _ _ _ _ _ _ Hd) as En. pose proof (seg_prev _ _ _ _ _ _ Hd) as Ep.
  apply NoDup_app in Hnd as Hnd'. destruct Hnd' as (Hnd1 & Hdis & [Hb2 Hnd2]%NoDup_cons).
  assert (hd NBUF l2 <> b) by (destruct l2; set_solver).
  assert (List.last l1 NBUF <> b).
  { destruct l1 as [|a l1 _] using rev_ind; [set_solver|]. rewrite List.last_last. specialize (Hdis a). set_solver. }
  destruct (unlink_links T b) as (Hn & Hp & _); [congruence|congruence|].
  eapply seg_unlink; [exact Hnd|exact Hin|exact Hin|exact Hd| |].
  - intros z _. by rewrite Hn, En, Ep.
  - intros z _. by rewrite Hp, En, Ep.
Qed.

Lemma push_front_dll T b l : b <> NBUF -> b ∉ l -> NBUF ∉ l -> NoDup l -> dll T l -> dll (push_front T b) (b :: l).
Proof.
  intros Hb Hbl Hl Hnd Hd. pose proof (seg_first _ _ _ _ Hd) as Ef. assert (b_next (T NBUF) <> b) by (rewrite Ef; destruct l; set_solver).
  destruct (push_front_links T b) as (Hn & Hp & _); [done|done|]. eapply seg_push; [done|done|done|done|exact Hd| |].
  - intros z. by rewrite Hn, Ef.
  - intros z. by rewrite Hp, Ef.
Qed.

Lemma relinked_trans x y z : relinked x y -> relinked y z -> relinked x z.
Proof. unfold relinked. intros -> ->. done. Qed.

(** Reordering the list affects nothing else. *)
Lemma bcache_ok_relink T T' d order order' :
  bcache_ok T d order -> (forall q, relinked (T q) (T' q)) -> order' ≡ₚ order -> dll T' order' ->
  bcache_ok T' d order' /\ forall n, view T' d n = view T d n.
Proof.
  intros Hok Hrel Hperm Hdll. assert (forall b n, caches T b n <-> caches T' b n) as Hc.
  { intros b n. destruct (relinked_fields _ _ (Hrel b)) as (E1 & E2 & _). unfold caches. by rewrite E1, E2. }
  assert (bcache_ok T' d order') as Hok'.
  { split; try done.
    - rewrite Hperm. apply Hok.
    - intros b b' n H1%Hc H2%Hc. by eapply (bo_uniq _ _ _ Hok).
    - intros b n H1%Hc. destruct (relinked_fields _ _ (Hrel b)) as (_ & _ & -> & -> & -> & _). by apply (bo_clean _ _ _ Hok).
    - intros b. destruct (relinked_fields _ _ (Hrel b)) as (_ & _ & _ & _ & -> & _). apply (bo_ref _ _ _ Hok).
    - intros b. destruct (relinked_fields _ _ (Hrel b)) as (_ & _ & _ & _ & -> & ->). apply (bo_free _ _ _ Hok). }
  split; [done|]. intros n. apply view_same; [intros ??; apply (bo_uniq _ _ _ Hok)|intros ??; apply (bo_uniq _ _ _ Hok')|done| |done].
  intros b _. destruct (relinked_fields _ _ (Hrel b)) as (_ & _ & -> & -> & _). done.
Qed.

(** The cache after [b] has been released. *)
Record released (T : nat -> buf) (d : kdisk) (b : nat) (T' : nat -> buf) (order' : list nat) : Prop := {
  rl_ok : bcache_ok T' d order';
  rl_self : relinked ((T b) <| b_lock := KDemo.unlocked |> <| b_refcnt := b_refcnt (T b) - 1 |>) (T' b);
  rl_rest q : q <> b -> relinked (T q) (T' q);
  rl_view n : view T' d n = view T d n;
}.

(** The last user of a buffer leaves it as it is on the disk. *)
Definition can_release (T : nat -> buf) (d : kdisk) (b : nat) (n : Z) : Prop :=
  caches T b n /\ 1 <= b_refcnt (T b) /\ (b_refcnt (T b) = 1 -> b_valid (T b) <> 0 -> b_data (T b) = dblock d n).

Lemma release_one T d order b n :
  bcache_ok T d order -> can_release T d b n ->
  let T1 := <[b := (T b) <| b_lock := KDemo.unlocked |> <| b_refcnt := b_refcnt (T b) - 1 |>]> T in
  bcache_ok T1 d order /\ forall n', view T1 d n' = view T d n'.
Proof.
  intros Hok (Hcb & Hr & Hclean) T1. pose proof Hcb as (Hb & Hd & Hn). pose proof (bo_ref _ _ _ Hok b Hb) as Hr0.
  assert (bcache_ok T1 d order) as Hok1.
  { apply bcache_ok_insert; rsimpl; try done; try lia.
    - intros _ b' Hne Hc'. apply Hne. rewrite Hn in Hc'. by eapply (bo_uniq _ _ _ Hok).
    - intros Hz _ Hv. rewrite Hn. apply Hclean; [lia|done]. }
  split; [done|]. intros n'. by eapply view_insert_same.
Qed.

Lemma released_front T d order b n :
  bcache_ok T d order -> can_release T d b n ->
  let T1 := <[b := (T b) <| b_lock := KDemo.unlocked |> <| b_refcnt := b_refcnt (T b) - 1 |>]> T in
  exists order', released T d b (push_front (unlink T1 b) b) order'.
Proof.
  intros Hok Hcr T1. destruct (release_one _ _ _ _ _ Hok Hcr) as [Hok1 Hv1]. fold T1 in Hok1, Hv1.
  destruct Hcr as ((Hb & _) & _). pose proof (order_NoDup _ (bo_perm _ _ _ Hok1)) as Hnd.
  assert (NBUF ∉ order) as Hh by (rewrite (order_elem _ _ (bo_perm _ _ _ Hok1)); lia).
  assert (b ∈ order) as Hbo by (by apply (order_elem _ _ (bo_perm _ _ _ Hok1))).
  apply list_elem_of_split in Hbo as (l1 & l2 & ->). pose proof (bo_dll _ _ _ Hok1) as Hd.
  pose proof (unlink_dll _ _ _ _ Hnd Hh Hd) as Hd2. exists (b :: l1 ++ l2).
  assert (b ∉ l1 ++ l2) as Hb12.
  { rewrite <- Permutation_middle in Hnd. by apply NoDup_cons in Hnd as [? _]. }
  assert (dll (push_front (unlink T1 b) b) (b :: l1 ++ l2)) as Hd3.
  { apply push_front_dll; [lia|done|set_solver| |done]. rewrite <- Permutation_middle in Hnd. by apply NoDup_cons in Hnd as [_ ?]. }
  pose proof (seg_first _ _ _ _ Hd2) as Ef.
  assert (b_next (T1 b) <> b /\ b_prev (T1 b) <> b) as [Hn1 Hp1].
  { rewrite (seg_next _ _ _ _ _ _ Hd), (seg_prev _ _ _ _ _ _ Hd). split; [destruct l2; set_solver by lia|].
    destruct l1 as [|a l1 _] using rev_ind; [cbn; lia|]. rewrite List.last_last. set_solver. }
  destruct (unlink_links T1 b) as (_ & _ & Hr1); [done|done|].
  destruct (push_front_links (unlink T1 b) b) as (_ & _ & Hr2); [lia|rewrite Ef; destruct (l1 ++ l2); set_solver by lia|].
  assert (forall q, relinked (T1 q) (push_front (unlink T1 b) b q)) as Hrel by (intros q; by eapply relinked_trans).
  destruct (bcache_ok_relink _ _ _ _ (b :: l1 ++ l2) Hok1 Hrel) as [Hok3 Hv3]; [by rewrite Permutation_middle|done|].
  split; [done| | |].
  - specialize (Hrel b). unfold T1 in Hrel at 1. by rewrite fn_lookup_insert in Hrel.
  - intros q Hq. specialize (Hrel q). unfold T1 in Hrel at 1. by rewrite fn_lookup_insert_ne in Hrel by done.
  - intros n'. by rewrite Hv3, Hv1.
Qed.

Section release.
Context {E : Env}.
Variables (s0 : K) (c : kcpu) (T : nat -> buf) (t : nat -> proc) (d : kdisk) (s : K) (me : nat) (order : list nat).
Hypothesis Hs : bst s0 c false T t d s.
Hypothesis Hc : cpu_ok c.
Hypothesis Hme : c_proc c = Some me.
Hypothesis Hok : bcache_ok T d order.

Lemma wp_brelse b n (Q : unit -> K -> Prop) :
  b_lock (T b) = locked_by (p_pid (t me)) -> locks_free (Some me) t -> can_release T d b n ->
  (forall T' order' s', released T d b T' order' -> bst s0 c false T' (wake me (chan_buf b) t) d s' -> Q tt s') ->
  wp (brelse b) Q s.
Proof.
  intros Hl Hf Hcr HQ. unfold brelse. apply wp_bind. eapply wp_holdingsleep; [exact Hs|done|exact Hme|done|].
  intros s1 H1. cbn [negb]. apply wp_bind.
  eapply (wp_releasesleep _ _ _ _ _ _ _ me); [exact H1|done|exact Hme|by rewrite Hl|done|]. intros s2 H2.
  apply wp_bind. eapply wp_bc_acquire; [exact H2|done|]. intros s3 H3.
  apply wp_bind. eapply wp_upd_buf; [exact H3|]. intros s4 H4%bst_collapse. rewrite fn_lookup_insert in H4. rsimpl_in H4.
  pose proof Hcr as ((Hb & _) & Hr & _). pose proof (bo_ref _ _ _ Hok b Hb) as Hr0.
  rewrite u32_small in H4 by lia. set (T1 := <[b := _]> T) in H4.
  apply wp_bind. eapply wp_get_buf; [exact H4|]. replace (b_refcnt (T1 b)) with (b_refcnt (T b) - 1) by (unfold T1; by rewrite fn_lookup_insert).
  apply wp_bind, wp_when. destruct (b_refcnt (T b) - 1 =? 0) eqn:Ez.
  - apply wp_bind. eapply wp_get_buf; [exact H4|]. apply wp_bind. eapply wp_upd_buf; [exact H4|]. intros s5 H5.
    apply wp_bind. eapply wp_get_buf; [exact H5|]. apply wp_bind. eapply wp_upd_buf; [exact H5|]. intros s6 H6.
    apply wp_bind. eapply wp_get_buf; [exact H6|]. apply wp_bind. eapply wp_upd_buf; [exact H6|]. intros s7 H7.
    apply wp_bind. eapply wp_upd_buf; [exact H7|]. intros s8 H8.
    apply wp_bind. eapply wp_get_buf; [exact H8|]. apply wp_bind. eapply wp_upd_buf; [exact H8|]. intros s9 H9.
    eapply wp_upd_buf; [exact H9|]. intros s10 H10.
    eapply wp_bc_release; [exact H10|done|done|done|]. intros s11 H11.
    destruct (released_front _ _ _ _ _ Hok Hcr) as [order' Hrel]. eapply HQ; [exact Hrel|exact H11].
  - apply wp_ret. eapply wp_bc_release; [exact H4|done|done|done|]. intros s5 H5. eapply (HQ T1 order); [|exact H5].
    destruct (release_one _ _ _ _ _ Hok Hcr) as [Hok1 Hv1]. fold T1 in Hok1, Hv1. split; [done| | |done].
    + unfold T1. rewrite fn_lookup_insert. apply relinked_refl.
    + intros q Hq. unfold T1. rewrite fn_lookup_insert_ne by done. apply relinked_refl.
Qed.

(** Counting users up and down. *)
Lemma wp_bpin b (Q : unit -> K -> Prop) :
  (forall s', bst s0 c false (<[b := (T b) <| b_refcnt := u32 (b_refcnt (T b) + 1) |>]> T) t d s' -> Q tt s') ->
  wp (bpin b) Q s.
Proof.
  intros HQ. unfold bpin. apply wp_bind. eapply wp_bc_acquire; [exact Hs|done|]. intros s1 H1.
  apply wp_bind. eapply wp_upd_buf; [exact H1|]. intros s2 H2.
  eapply wp_bc_release; [exact H2|done|done|done|]. done.
Qed.

Lemma wp_bunpin b (Q : unit -> K -> Prop) :
  (forall s', bst s0 c false (<[b := (T b) <| b_refcnt := u32 (b_refcnt (T b) - 1) |>]> T) t d s' -> Q tt s') ->
  wp (bunpin b) Q s.
Proof.
  intros HQ. unfold bunpin. apply wp_bind. eapply wp_bc_acquire; [exact Hs|done|]. intros s1 H1.
  apply wp_bind. eapply wp_upd_buf; [exact H1|]. intros s2 H2.
  eapply wp_bc_release; [exact H2|done|done|done|]. done.
Qed.

End release.
