(* ===== verification/Cache.v ===== *)
(** * Cache: the buffer cache as its clients see it

    [cache s0 pins held V d s] says of a thread's state [s]: the disk is [d];
    reading block [n] gives [V n]; the blocks [pins] are kept in the cache by
    [bpin]; the thread holds the buffers [held], each with its block; and the
    rest of the kernel is as in [s0].  The rules of this file are the
    interface against which the log is verified. *)

From stdpp Require Import base list gmap functions strings.
From Stdlib Require Import ZArith Lia.
From S2P Require Import Prelude CMem Riscv Spinlock Kalloc Vm Que KState Printf Proc KWp KDemo Bio Log BioWp BioSpec BioOps.

Definition pinned (pins : list Z) (n : Z) : Z := if decide (n ∈ pins) then 1 else 0.

(** The state of the buffers. *)
Record cache_bufs (pid : Z) (pins : list Z) (held : list (nat * Z)) (T : nat -> buf) (d : kdisk) : Prop := {
  cb_pins : NoDup pins;
  cb_held : NoDup (held.*2);
  cb_pin n : n ∈ pins -> exists b, caches T b n /\ b_valid (T b) <> 0;
  cb_mine b n : (b, n) ∈ held -> caches T b n /\ b_valid (T b) <> 0 /\ b_lock (T b) = locked_by pid /\
    b_refcnt (T b) = 1 + pinned pins n;
  cb_rest b n : caches T b n -> n ∉ held.*2 -> b_lock (T b) = KDemo.unlocked /\ b_refcnt (T b) = pinned pins n;
  cb_other b : (b < NBUF)%nat -> b_dev (T b) <> ROOTDEV -> b_refcnt (T b) = 0;
}.

(** The thread: it runs, and no lock of a process is taken. *)
Definition running (s0 : K) (me : nat) : Prop :=
  cpu_ok (k_cpu s0) /\ c_proc (k_cpu s0) = Some me /\ locks_free (Some me) (k_proc s0).

Record cache (me : nat) (s0 : K) (pins : list Z) (held : list (nat * Z)) (V : Z -> list Z) (d : kdisk) (s : K) : Prop := {
  ca_running : running s0 me;
  ca_bufs : exists T t order,
    bst s0 (k_cpu s0) false T t d s /\ bcache_ok T d order /\ cache_bufs (p_pid (k_proc s0 me)) pins held T d /\
    (forall n, V n = view T d n) /\ t me = k_proc s0 me /\ locks_free (Some me) t;
}.

Lemma cache_ext me s0 pins held V V' d s :
  (forall n, V' n = V n) -> cache me s0 pins held V d s -> cache me s0 pins held V' d s.
Proof.
  intros HV [Hr (T & t & order & H1 & H2 & H3 & H4 & H5 & H6)]. split; [done|]. exists T, t, order.
  do 3 (split; [done|]). split; [|done]. intros n. by rewrite HV.
Qed.

Lemma pinned_range pins n : 0 <= pinned pins n <= 1.
Proof. unfold pinned. case_decide; lia. Qed.

(** Some buffer is unused as long as fewer blocks are pinned or held than
    there are buffers. *)
Lemma free_buffer pid pins held T d order :
  bcache_ok T d order -> cache_bufs pid pins held T d -> (length pins + length held < NBUF)%nat ->
  exists b, (b < NBUF)%nat /\ b_refcnt (T b) = 0.
Proof.
  intros Hok Hcb Hlen. destruct (decide (Exists (fun b => b_refcnt (T b) = 0) (seq 0 NBUF))) as [Hex|Hno].
  { apply Exists_exists in Hex as (b & Hb & Hr). exists b. apply elem_of_seq in Hb. split; [lia|done]. }
  exfalso. rewrite <- Forall_Exists_neg, Forall_forall in Hno.
  assert (forall b, (b < NBUF)%nat -> b_dev (T b) = ROOTDEV /\ b_blockno (T b) ∈ pins ++ held.*2) as Hin.
  { intros b Hb. assert (b_refcnt (T b) <> 0) as Hr by (apply Hno, elem_of_seq; lia).
    destruct (decide (b_dev (T b) = ROOTDEV)) as [Hd|Hd]; [|by apply (cb_other _ _ _ _ _ Hcb) in Hd].
    split; [done|]. apply elem_of_app. destruct (decide (b_blockno (T b) ∈ held.*2)) as [|Hh]; [by right|]. left.
    destruct (cb_rest _ _ _ _ _ Hcb b (b_blockno (T b))) as [_ Hr']; [done|done|].
    unfold pinned in Hr'. by case_decide. }
  assert (NoDup ((fun b => b_blockno (T b)) <$> seq 0 NBUF)) as Hnd.
  { apply NoDup_fmap_2_strong; [|apply NoDup_seq]. intros x y Hx Hy Exy.
    apply elem_of_seq in Hx, Hy. apply (bo_uniq _ _ _ Hok x y (b_blockno (T x))).
    - split; [lia|]. split; [apply Hin; lia|done].
    - split; [lia|]. split; [apply Hin; lia|done]. }
  apply NoDup_ListNoDup in Hnd. pose proof (List.NoDup_incl_length (l' := pins ++ held.*2) Hnd) as Hle.
  rewrite length_fmap, length_seq, length_app, length_fmap in Hle.
  cut (NBUF <= length pins + length held)%nat; [lia|]. apply Hle.
  intros x Hx. apply list_elem_of_In. apply list_elem_of_In, list_elem_of_fmap in Hx as (b & -> & Hb). apply elem_of_seq in Hb. apply Hin. lia.
Qed.

(** ** The buffers under the operations *)

Section bufs.
Variables (pid : Z) (pins : list Z) (held : list (nat * Z)) (T : nat -> buf) (d : kdisk) (order : list nat).
Hypothesis Hok : bcache_ok T d order.
Hypothesis Hcb : cache_bufs pid pins held T d.

(** A held or pinned block is in use. *)
Lemma held_used b n : (b, n) ∈ held -> b_refcnt (T b) <> 0.
Proof. intros Hin. destruct (cb_mine _ _ _ _ _ Hcb b n Hin) as (_ & _ & _ & ->). pose proof (pinned_range pins n). lia. Qed.

Lemma pinned_used b n : caches T b n -> n ∈ pins -> b_refcnt (T b) <> 0.
Proof.
  intros Hb Hp. destruct (decide (n ∈ held.*2)) as [Hh|Hh].
  - apply list_elem_of_fmap in Hh as ([b' n'] & -> & Hin). destruct (cb_mine _ _ _ _ _ Hcb _ _ Hin) as (Hc & _). cbn in *.
    rewrite (bo_uniq _ _ _ Hok _ _ _ Hb Hc). by eapply held_used.
  - destruct (cb_rest _ _ _ _ _ Hcb b n Hb Hh) as [_ ->]. unfold pinned. by case_decide.
Qed.

Lemma cache_bufs_read n b T' :
  n ∉ held.*2 -> read_in T d order pid n b T' -> cache_bufs pid pins ((b, n) :: held) T' d.
Proof.
  intros Hn [R1 R2 R3 R4 R5 R6 R7 R8].
  assert (forall b' n', b' <> b -> caches T' b' n' <-> caches T b' n') as Hcs by (intros b' n' Hb'; unfold caches; by rewrite R6).
  assert (forall b' n', (b', n') ∈ held -> b' <> b) as Hne.
  { intros b' n' Hin ->. pose proof (held_used _ _ Hin) as Hu. destruct (cb_mine _ _ _ _ _ Hcb b n' Hin) as ((_ & _ & E1) & _).
    destruct R8 as [[(_ & _ & E2) _]|(_ & ? & _)]; [|done]. apply Hn. rewrite <- E2, E1.
    by apply (list_elem_of_fmap_2 snd _ (b, n')). }
  split; try apply Hcb.
  - cbn. apply NoDup_cons. split; [done|apply Hcb].
  - intros n' Hp. destruct (cb_pin _ _ _ _ _ Hcb n' Hp) as (b' & Hb' & Hv). exists b'.
    destruct (decide (b' = b)) as [->|]; [|rewrite Hcs, R6 by done; done].
    destruct R8 as [[(_ & _ & E2) _]|(_ & Hr0 & _)]; [|by apply (pinned_used _ _ Hb') in Hp].
    assert (n' = n) as -> by (destruct Hb' as (_ & _ & <-); done). done.
  - intros b' n' [[= -> ->]|Hin]%elem_of_cons.
    + do 3 (split; [done|]). destruct R8 as [[Hb ->]|(Hno & _ & ->)].
      * destruct (cb_rest _ _ _ _ _ Hcb b n Hb Hn) as [_ ->]. lia.
      * unfold pinned. case_decide as Hp; [|done]. destruct (cb_pin _ _ _ _ _ Hcb n Hp) as (b' & Hb' & _). by apply Hno in Hb'.
    + rewrite Hcs, R6 by (by eapply Hne). by apply (cb_mine _ _ _ _ _ Hcb).
  - intros b' n' Hb' Hh. cbn in Hh. apply not_elem_of_cons in Hh as [Hne' Hh].
    destruct (decide (b' = b)) as [->|Hbb].
    { exfalso. apply Hne'. destruct Hb' as (_ & _ & <-), R2 as (_ & _ & <-). done. }
    rewrite Hcs in Hb' by done. rewrite R6 by done. by apply (cb_rest _ _ _ _ _ Hcb).
  - intros b' Hb' Hd. destruct (decide (b' = b)) as [->|]; [destruct R2 as (_ & E1 & _); by rewrite E1 in Hd|].
    rewrite R6 in * by done. by apply (cb_other _ _ _ _ _ Hcb).
Qed.

(** A held buffer keeps its block. *)
Lemma cache_bufs_upd b n x pins' :
  (b, n) ∈ held -> b_dev x = b_dev (T b) -> b_blockno x = b_blockno (T b) -> b_valid x = b_valid (T b) ->
  b_lock x = b_lock (T b) -> b_refcnt x = 1 + pinned pins' n -> NoDup pins' ->
  (forall n', n' <> n -> n' ∈ pins' <-> n' ∈ pins) ->
  cache_bufs pid pins' held (<[b := x]> T) d.
Proof.
  intros Hin Ed En Ev El Er Hnd Hp. destruct (cb_mine _ _ _ _ _ Hcb b n Hin) as (Hcb0 & Hv0 & Hl0 & Hr0).
  assert (forall b' n', caches (<[b := x]> T) b' n' <-> caches T b' n') as Hcs.
  { intros b' n'. rewrite caches_insert. case_decide; [subst b'|done]. unfold caches. by rewrite Ed, En. }
  assert (forall n', n' <> n -> pinned pins' n' = pinned pins n') as Hpe.
  { intros n' Hne. unfold pinned. specialize (Hp n' Hne). repeat case_decide; tauto. }
  assert (n ∈ held.*2) as Hnh by (by apply (list_elem_of_fmap_2 snd _ (b, n))).
  split; [done|apply Hcb| | | |].
  - intros n' Hn'. destruct (decide (n' = n)) as [->|Hne].
    { exists b. rewrite Hcs, fn_lookup_insert, Ev. done. }
    apply Hp in Hn'; [|done]. destruct (cb_pin _ _ _ _ _ Hcb n' Hn') as (b' & Hb' & Hv'). exists b'. rewrite Hcs. split; [done|].
    rewrite fn_insert_decide. case_decide; [subst b'; by rewrite Ev|done].
  - intros b' n' Hin'. rewrite Hcs. destruct (cb_mine _ _ _ _ _ Hcb b' n' Hin') as (Hc' & Hv' & Hl' & Hr').
    split; [done|]. rewrite fn_insert_decide. case_decide as Hbb.
    + subst b'. rewrite Ev, El, Er. assert (n' = n) as -> by (destruct Hc' as (_ & _ & <-), Hcb0 as (_ & _ & <-); done). done.
    + rewrite Hpe; [done|]. intros ->. by pose proof (bo_uniq _ _ _ Hok _ _ _ Hc' Hcb0).
  - intros b' n' Hc' Hh. rewrite Hcs in Hc'. assert (b' <> b).
    { intros ->. apply Hh. assert (n' = n) as -> by (destruct Hc' as (_ & _ & <-), Hcb0 as (_ & _ & <-); done). done. }
    rewrite fn_lookup_insert_ne by done. rewrite Hpe by set_solver. by apply (cb_rest _ _ _ _ _ Hcb).
  - intros b' Hb' Hd. rewrite fn_insert_decide in *. case_decide; [|by apply (cb_other _ _ _ _ _ Hcb)].
    rewrite Ed in Hd. by destruct Hcb0 as (_ & E1 & _).
Qed.

Lemma cache_bufs_release b n held' T' order' :
  held ≡ₚ (b, n) :: held' -> released T d b T' order' -> cache_bufs pid pins held' T' d.
Proof.
  intros Hperm [R1 R2 R3 R4]. assert ((b, n) ∈ held) as Hin by (rewrite Hperm; set_solver).
  destruct (cb_mine _ _ _ _ _ Hcb b n Hin) as (Hcb0 & Hv0 & Hl0 & Hr0).
  destruct (relinked_fields _ _ R2) as (E1 & E2 & E3 & E4 & E5 & E6). rsimpl_in E1; rsimpl_in E2; rsimpl_in E3; rsimpl_in E5; rsimpl_in E6.
  assert (forall b' n', caches T' b' n' <-> caches T b' n') as Hcs.
  { intros b' n'. unfold caches. destruct (decide (b' = b)) as [->|Hne]; [by rewrite E1, E2|].
    destruct (relinked_fields _ _ (R3 b' Hne)) as (-> & -> & _). done. }
  pose proof (cb_held _ _ _ _ _ Hcb) as Hnd. rewrite Hperm in Hnd. cbn in Hnd. apply NoDup_cons in Hnd as [Hn' Hnd'].
  split; [apply Hcb|done| | | |].
  - intros n' Hp. destruct (cb_pin _ _ _ _ _ Hcb n' Hp) as (b' & Hb' & Hv'). exists b'. rewrite Hcs. split; [done|].
    destruct (decide (b' = b)) as [->|Hne]; [by rewrite E3|]. by destruct (relinked_fields _ _ (R3 b' Hne)) as (_ & _ & -> & _).
  - intros b' n' Hin'. assert ((b', n') ∈ held) as Hin2 by (rewrite Hperm; set_solver).
    destruct (cb_mine _ _ _ _ _ Hcb b' n' Hin2) as (Hc' & Hv' & Hl' & Hr').
    assert (b' <> b) as Hne.
    { intros ->. apply Hn'. assert (n' = n) as -> by (destruct Hc' as (_ & _ & <-), Hcb0 as (_ & _ & <-); done).
      by apply (list_elem_of_fmap_2 snd _ (b, n)). }
    rewrite Hcs. by destruct (relinked_fields _ _ (R3 b' Hne)) as (_ & _ & -> & _ & -> & ->).
  - intros b' n' Hc' Hh. rewrite Hcs in Hc'. destruct (decide (b' = b)) as [->|Hne].
    + assert (n' = n) as -> by (destruct Hc' as (_ & _ & <-), Hcb0 as (_ & _ & <-); done). rewrite E6, E5. split; [done|lia].
    + destruct (relinked_fields _ _ (R3 b' Hne)) as (_ & _ & _ & _ & -> & ->). apply (cb_rest _ _ _ _ _ Hcb); [done|].
      rewrite Hperm. cbn. apply not_elem_of_cons. split; [|done]. intros ->. by pose proof (bo_uniq _ _ _ Hok _ _ _ Hc' Hcb0).
  - intros b' Hb' Hd. destruct (decide (b' = b)) as [->|Hne]; [rewrite E1 in Hd; by destruct Hcb0 as (_ & E0 & _)|].
    destruct (relinked_fields _ _ (R3 b' Hne)) as (Ed & _ & _ & _ & -> & _). rewrite Ed in Hd. by apply (cb_other _ _ _ _ _ Hcb).
Qed.

End bufs.

(** ** The interface *)

Section rules.
Context {E : Env} `{!DiskOk E}.
Variables (me : nat) (s0 : K) (pins : list Z) (held : list (nat * Z)) (V : Z -> list Z) (d : kdisk) (s : K).
Hypothesis Hca : cache me s0 pins held V d s.

Lemma cache_bread n (Q : nat -> K -> Prop) :
  n ∉ held.*2 -> n ∈ pins \/ (length pins + length held < NBUF)%nat ->
  (forall b s', cache me s0 pins ((b, n) :: held) V d s' -> Q b s') -> wp (bread ROOTDEV n) Q s.
Proof.
  intros Hn Hav HQ. destruct Hca as [Hr (T & t & order & Hs & Hok & Hcb & HV & Ht & Hf)].
  pose proof Hr as (Hc & Hme & _). eapply (wp_bread _ _ _ _ _ _ me order); [exact Hs|exact Hc|exact Hme|exact Hok| |].
  - split.
    + intros b Hb. destruct (cb_rest _ _ _ _ _ Hcb b n Hb Hn) as [-> ->]. pose proof (pinned_range pins n). split; [done|lia].
    + destruct Hav as [Hp|Hl]; [left|right; by eapply free_buffer].
      destruct (cb_pin _ _ _ _ _ Hcb n Hp) as (b & Hb & _). by exists b.
  - intros b T' s' HR Hs'. apply HQ. split; [done|]. exists T', t, order. rewrite Ht in HR.
    split; [done|]. split; [apply HR|]. split; [by eapply cache_bufs_read|]. split; [|done].
    intros n'. by rewrite (ri_view _ _ _ _ _ _ _ HR).
Qed.

Lemma cache_get_data b n (Q : list Z -> K -> Prop) :
  (b, n) ∈ held -> Q (V n) s -> wp (get_data b) Q s.
Proof.
  intros Hin HQ. destruct Hca as [Hr (T & t & order & Hs & Hok & Hcb & HV & Ht & Hf)].
  unfold get_data. apply wp_bind. eapply wp_get_buf; [exact Hs|]. apply wp_ret.
  destruct (cb_mine _ _ _ _ _ Hcb b n Hin) as (Hc & Hv & _).
  rewrite HV, (view_caches _ (bo_uniq _ _ _ Hok) d b n Hc) in HQ. by destruct (Z.eqb_spec (b_valid (T b)) 0).
Qed.

Lemma cache_upd_data b n f (Q : unit -> K -> Prop) :
  (b, n) ∈ held -> (forall s', cache me s0 pins held (<[n := f (V n)]> V) d s' -> Q tt s') -> wp (upd_data b f) Q s.
Proof.
  intros Hin HQ. destruct Hca as [Hr (T & t & order & Hs & Hok & Hcb & HV & Ht & Hf)].
  destruct (cb_mine _ _ _ _ _ Hcb b n Hin) as (Hc & Hv & Hl & Hrf). pose proof (held_used _ _ _ _ _ Hcb b n Hin) as Hu.
  unfold upd_data. eapply wp_upd_buf; [exact Hs|]. intros s' Hs'. apply HQ. split; [done|].
  set (T' := <[b := _]> T) in Hs'. pose proof Hc as (Hb & Hd & Hn).
  assert (bcache_ok T' d order) as Hok'.
  { apply bcache_ok_insert; rsimpl; try done; [|by apply (bo_ref _ _ _ Hok)].
    intros _ b' Hne Hc'. apply Hne. rewrite Hn in Hc'. by eapply (bo_uniq _ _ _ Hok). }
  exists T', t, order. split; [done|]. split; [done|]. split.
  { eapply cache_bufs_upd; [exact Hok|exact Hcb|exact Hin|..]; rsimpl; try done. apply Hcb. }
  split; [|done]. intros n'. destruct (decide (n' = n)) as [->|Hne].
  - rewrite fn_lookup_insert, HV, (view_caches _ (bo_uniq _ _ _ Hok) d b n Hc).
    rewrite (view_caches _ (bo_uniq _ _ _ Hok') d b n) by (unfold T'; rewrite caches_insert, decide_True by done; done).
    unfold T'. rewrite fn_lookup_insert. rsimpl. by destruct (Z.eqb_spec (b_valid (T b)) 0).
  - rewrite fn_lookup_insert_ne by done. rewrite HV. symmetry.
    apply view_same; [intros ??; apply (bo_uniq _ _ _ Hok)|intros ??; apply (bo_uniq _ _ _ Hok')| | |done].
    + intros b'. unfold T'. rewrite caches_insert. case_decide; [subst b'|done]. done.
    + intros b' Hc'. unfold T'. rewrite fn_insert_decide. case_decide; [|done]. subst b'. destruct Hc' as (_ & _ & E1). congruence.
Qed.

Lemma cache_bwrite b n (Q : unit -> K -> Prop) :
  (b, n) ∈ held -> (forall s', cache me s0 pins held V (dwrite n (V n) d) s' -> Q tt s') -> wp (bwrite b) Q s.
Proof.
  intros Hin HQ. destruct Hca as [Hr (T & t & order & Hs & Hok & Hcb & HV & Ht & Hf)].
  destruct (cb_mine _ _ _ _ _ Hcb b n Hin) as (Hc & Hv & Hl & Hrf). pose proof (held_used _ _ _ _ _ Hcb b n Hin) as Hu.
  pose proof Hr as (Hcpu & Hme & _). rewrite <- Ht in Hl.
  eapply wp_bwrite; [exact Hs|exact Hcpu|exact Hme|exact Hl|]. intros s' Hs'.
  assert (V n = b_data (T b)) as Ev.
  { rewrite HV, (view_caches _ (bo_uniq _ _ _ Hok) d b n Hc). by destruct (Z.eqb_spec (b_valid (T b)) 0). }
  pose proof Hc as (_ & _ & En). rewrite En, <- Ev in Hs'. apply HQ. split; [done|]. exists T, t, order.
  destruct (bwrite_ok _ _ _ _ _ Hok Hc Hu Hv) as [Hok' Hv']. rewrite <- Ev in Hok', Hv'.
  split; [done|]. split; [done|]. split; [|split; [intros n'; by rewrite Hv'|done]]. destruct Hcb. by split.
Qed.

Lemma cache_brelse b n held' (Q : unit -> K -> Prop) :
  held ≡ₚ (b, n) :: held' -> n ∈ pins \/ V n = dblock d n ->
  (forall s', cache me s0 pins held' V d s' -> Q tt s') -> wp (brelse b) Q s.
Proof.
  intros Hperm Hcl HQ. destruct Hca as [Hr (T & t & order & Hs & Hok & Hcb & HV & Ht & Hf)].
  assert ((b, n) ∈ held) as Hin by (rewrite Hperm; set_solver).
  destruct (cb_mine _ _ _ _ _ Hcb b n Hin) as (Hc & Hv & Hl & Hrf). pose proof Hr as (Hcpu & Hme & _). rewrite <- Ht in Hl.
  eapply (wp_brelse _ _ _ _ _ _ me order); [exact Hs|exact Hcpu|exact Hme|exact Hok|exact Hl|exact Hf| |].
  - split; [exact Hc|]. rewrite Hrf. pose proof (pinned_range pins n). split; [lia|]. intros Hp _.
    destruct Hcl as [Hpin|Hcl]; [unfold pinned in Hp; case_decide; [lia|done]|].
    rewrite HV, (view_caches _ (bo_uniq _ _ _ Hok) d b n Hc) in Hcl. by destruct (Z.eqb_spec (b_valid (T b)) 0).
  - intros T' order' s' Hrel Hs'. apply HQ. split; [done|]. exists T', (wake me (chan_buf b) t), order'.
    split; [done|]. split; [apply Hrel|]. split; [by eapply cache_bufs_release|].
    split; [intros n'; by rewrite (rl_view _ _ _ _ _ Hrel)|]. unfold wake. split.
    + destruct (decide (me < NPROC)%nat); [|done]. unfold woken. by rewrite bool_decide_eq_true_2.
    + intros p Hp Hne. rewrite decide_True by done. unfold woken. rewrite bool_decide_eq_false_2 by done.
      case_match; [|by apply Hf]. rsimpl. by apply Hf.
Qed.

Lemma cache_bunpin b n pins' (Q : unit -> K -> Prop) :
  (b, n) ∈ held -> pins ≡ₚ n :: pins' -> (forall s', cache me s0 pins' held V d s' -> Q tt s') -> wp (bunpin b) Q s.
Proof.
  intros Hin Hperm HQ. destruct Hca as [Hr (T & t & order & Hs & Hok & Hcb & HV & Ht & Hf)].
  destruct (cb_mine _ _ _ _ _ Hcb b n Hin) as (Hc & Hv & Hl & Hrf). pose proof Hr as (Hcpu & Hme & _).
  pose proof (cb_pins _ _ _ _ _ Hcb) as Hnd. rewrite Hperm in Hnd. apply NoDup_cons in Hnd as [Hn Hnd].
  assert (b_refcnt (T b) = 2) as Er.
  { rewrite Hrf. unfold pinned. rewrite decide_True; [done|]. rewrite Hperm. set_solver. }
  eapply wp_bunpin; [exact Hs|exact Hcpu|]. intros s' Hs'. rewrite Er in Hs'. change (u32 (2 - 1)) with 1 in Hs'.
  apply HQ. split; [done|]. set (T' := <[b := _]> T) in Hs'. pose proof Hc as (Hb & Hd & En).
  assert (bcache_ok T' d order) as Hok'.
  { apply bcache_ok_insert; rsimpl; try done. intros _ b' Hne Hc'. apply Hne. rewrite En in Hc'. by eapply (bo_uniq _ _ _ Hok). }
  exists T', t, order. split; [done|]. split; [done|]. split.
  { eapply cache_bufs_upd; [exact Hok|exact Hcb|exact Hin|..]; rsimpl; try done.
    - unfold pinned. by rewrite decide_False.
    - intros n' Hne. rewrite Hperm. set_solver. }
  split; [|done]. intros n'. rewrite HV. symmetry. by eapply view_insert_same.
Qed.

Lemma cache_bpin b n (Q : unit -> K -> Prop) :
  (b, n) ∈ held -> n ∉ pins -> (forall s', cache me s0 (n :: pins) held V d s' -> Q tt s') -> wp (bpin b) Q s.
Proof.
  intros Hin Hn HQ. destruct Hca as [Hr (T & t & order & Hs & Hok & Hcb & HV & Ht & Hf)].
  destruct (cb_mine _ _ _ _ _ Hcb b n Hin) as (Hc & Hv & Hl & Hrf). pose proof Hr as (Hcpu & Hme & _).
  assert (b_refcnt (T b) = 1) as Er by (rewrite Hrf; unfold pinned; by rewrite decide_False).
  eapply wp_bpin; [exact Hs|exact Hcpu|]. intros s' Hs'. rewrite Er in Hs'. change (u32 (1 + 1)) with 2 in Hs'.
  apply HQ. split; [done|]. set (T' := <[b := _]> T) in Hs'. pose proof Hc as (Hb & Hd & En).
  assert (bcache_ok T' d order) as Hok'.
  { apply bcache_ok_insert; rsimpl; try done. intros _ b' Hne Hc'. apply Hne. rewrite En in Hc'. by eapply (bo_uniq _ _ _ Hok). }
  exists T', t, order. split; [done|]. split; [done|]. split.
  { eapply cache_bufs_upd; [exact Hok|exact Hcb|exact Hin|..]; rsimpl; try done.
    - unfold pinned. rewrite decide_True; [done|set_solver].
    - apply NoDup_cons. split; [done|apply Hcb].
    - intros n' Hne. set_solver. }
  split; [|done]. intros n'. rewrite HV. symmetry. by eapply view_insert_same.
Qed.

End rules.
