(* ===== verification/BlockData.v ===== *)
(** * BlockData: integers in the data of a block

    [ld] reads back what [st] has stored, and bytes elsewhere are not
    touched. *)

From stdpp Require Import base list gmap functions strings.
From Stdlib Require Import ZArith Lia.
From S2P Require Import Prelude CMem Riscv Spinlock Kalloc Vm Que KState Printf Proc Bio Log.

Lemma length_le_bytes n v : length (le_bytes n v) = n.
Proof. revert v. induction n as [|n IH]; intros v; cbn; [done|]. by rewrite IH. Qed.

Lemma le_val_bytes n v : le_val (le_bytes n v) = v mod 256 ^ Z.of_nat n.
Proof.
  revert v. induction n as [|n IH]; intros v; [cbn; by rewrite Z.mod_1_r|]. cbn [le_bytes le_val]. rewrite IH.
  rewrite Nat2Z.inj_succ, Z.pow_succ_r by lia. rewrite Z.rem_mul_r by lia. unfold u8. change (2 ^ 8) with 256. lia.
Qed.

Lemma length_st n d off v : length (st n d off v) = length d.
Proof. unfold st. apply length_inserts. Qed.

(** Two blocks that agree on the bytes read. *)
Lemma ld_ext n d d' off :
  (forall i, (i < n)%nat -> d !! (Z.to_nat off + i)%nat = d' !! (Z.to_nat off + i)%nat) -> ld n d off = ld n d' off.
Proof.
  intros H. unfold ld. f_equal. apply list_eq. intros i. destruct (decide (i < n)%nat) as [Hi|Hi].
  - by rewrite !lookup_take_lt, !lookup_drop, H by done.
  - by rewrite !lookup_take_ge by lia.
Qed.

Lemma ld_st n d off v : 0 <= off -> off + Z.of_nat n <= Z.of_nat (length d) -> ld n (st n d off v) off = v mod 256 ^ Z.of_nat n.
Proof.
  intros Ho Hl. rewrite <- le_val_bytes. unfold ld. f_equal. apply list_eq. intros i. destruct (decide (i < n)%nat) as [Hi|Hi].
  - rewrite lookup_take_lt, lookup_drop by done. unfold st.
    rewrite list_lookup_inserts by (rewrite ?length_le_bytes; lia). f_equal. lia.
  - rewrite lookup_take_ge by lia. symmetry. apply lookup_ge_None_2. rewrite length_le_bytes. lia.
Qed.

Lemma ld_st_ne n d off m off' v :
  0 <= off -> 0 <= off' -> off + Z.of_nat n <= off' \/ off' + Z.of_nat m <= off -> ld n (st m d off' v) off = ld n d off.
Proof.
  intros H1 H2 Hd. apply ld_ext. intros i Hi. unfold st. destruct Hd.
  - apply list_lookup_inserts_lt. lia.
  - apply list_lookup_inserts_ge. rewrite length_le_bytes. lia.
Qed.

Lemma ld32_st32 d off v : 0 <= off -> off + 4 <= Z.of_nat (length d) -> ld32 (st32 d off v) off = u32 v.
Proof. intros. unfold ld32, st32. by rewrite ld_st. Qed.

Lemma ld32_st32_ne d off off' v : 0 <= off -> 0 <= off' -> off + 4 <= off' \/ off' + 4 <= off -> ld32 (st32 d off' v) off = ld32 d off.
Proof. intros. by apply ld_st_ne. Qed.

Lemma length_st32 d off v : length (st32 d off v) = length d.
Proof. apply length_st. Qed.
