(* ===== verification/LogSpec.v ===== *)
(** * LogSpec: what the loops of the log do

    Each of [write_log], [install_trans] and [write_head] is a sequence of
    block writes, which go through the cache to the disk.  [apply_ws] and
    [do_writes] are their effect on a view of the blocks and on the disk. *)

From stdpp Require Import base list gmap functions strings.
From Stdlib Require Import ZArith Lia.
From S2P Require Import Prelude CMem Riscv Spinlock Kalloc Vm Que KState Printf Proc KWp KDemo Bio Log BioWp BioSpec BioOps Cache BlockData.

(** ** Sequences of block writes *)

Abbreviation write := (Z * list Z)%type (only parsing).

Definition apply_ws (ws : list write) (V : Z -> list Z) : Z -> list Z := foldl (fun V w => <[w.1 := w.2]> V) V ws.
Definition do_writes (ws : list write) (d : kdisk) : kdisk := foldl (fun d w => dwrite w.1 w.2 d) d ws.

Arguments apply_ws : simpl never.
Arguments do_writes : simpl never.

Lemma apply_ws_cons w ws V : apply_ws (w :: ws) V = apply_ws ws (<[w.1 := w.2]> V).
Proof. done. Qed.

Lemma do_writes_cons w ws d : do_writes (w :: ws) d = do_writes ws (dwrite w.1 w.2 d).
Proof. done. Qed.

Lemma fn_insert_Z (V : Z -> list Z) n x m : (<[n := x]> V) m = if decide (m = n) then x else V m.
Proof. case_decide; [subst; apply fn_lookup_insert|by apply fn_lookup_insert_ne]. Qed.

Lemma apply_ws_app ws1 ws2 V : apply_ws (ws1 ++ ws2) V = apply_ws ws2 (apply_ws ws1 V).
Proof. apply foldl_app. Qed.

Lemma do_writes_app ws1 ws2 d : do_writes (ws1 ++ ws2) d = do_writes ws2 (do_writes ws1 d).
Proof. apply foldl_app. Qed.

Lemma apply_ws_ext ws V V' n : (forall m, V m = V' m) -> apply_ws ws V n = apply_ws ws V' n.
Proof.
  revert V V'. induction ws as [|w ws IH]; intros V V' HV; [apply HV|]. rewrite !apply_ws_cons. apply IH. intros m. rewrite !fn_insert_Z. by case_decide.
Qed.

Lemma dblock_do_writes ws d n : dblock (do_writes ws d) n = apply_ws ws (dblock d) n.
Proof.
  revert d. induction ws as [|w ws IH]; intros d; [done|]. rewrite do_writes_cons, apply_ws_cons, IH. apply apply_ws_ext.
  intros m. by rewrite dblock_dwrite, fn_insert_Z.
Qed.

Lemma apply_ws_ne ws V n : n ∉ ws.*1 -> apply_ws ws V n = V n.
Proof.
  revert V. induction ws as [|w ws IH]; intros V Hn; [done|]. cbn in Hn. rewrite apply_ws_cons, IH by set_solver.
  rewrite fn_insert_Z. case_decide; [set_solver|done].
Qed.

(** With every block written at most once. *)
Lemma apply_ws_in ws V n x : NoDup ws.*1 -> (n, x) ∈ ws -> apply_ws ws V n = x.
Proof.
  revert V. induction ws as [|w ws IH]; intros V Hnd Hin; [set_solver|]. cbn in Hnd. rewrite apply_ws_cons. apply NoDup_cons in Hnd as [Hw Hnd].
  apply elem_of_cons in Hin as [<-|Hin]; [|by apply IH]. cbn in *. rewrite apply_ws_ne by done. by rewrite fn_insert_Z, decide_True.
Qed.

Lemma do_writes_trace ws d : d_writes (do_writes ws d) = rev ws ++ d_writes d.
Proof.
  revert d. induction ws as [|[n x] ws IH]; intros d; [done|]. rewrite do_writes_cons, IH. cbn. by rewrite <- app_assoc.
Qed.

Lemma take_elem {A} (l : list A) k x : x ∈ take k l -> x ∈ l.
Proof. intros (i & Hi & _)%elem_of_take. by eapply list_elem_of_lookup_2. Qed.

(** ** The header block *)

Definition put_blocks (hb : list Z) (b : list Z) : list Z :=
  foldl (fun b p => st32 b (4 + 4 * Z.of_nat p.1) p.2) b (imap pair hb).

(** The header that lists [hb], written over [base]. *)
Definition header (base hb : list Z) : list Z := put_blocks hb (st32 base 0 (Z.of_nat (length hb))).

(** A header block that lists [hb]. *)
Definition lists (data hb : list Z) : Prop :=
  i32 (ld32 data 0) = Z.of_nat (length hb) /\
  forall i h, hb !! i = Some h -> i32 (ld32 data (4 + 4 * Z.of_nat i)) = h.

Lemma put_blocks_snoc hb h b : put_blocks (hb ++ [h]) b = st32 (put_blocks hb b) (4 + 4 * Z.of_nat (length hb)) h.
Proof. unfold put_blocks. rewrite imap_app, foldl_app. cbn. by rewrite Nat.add_0_r. Qed.

Lemma length_put_blocks hb b : length (put_blocks hb b) = length b.
Proof. induction hb as [|h hb IH] using rev_ind; [done|]. by rewrite put_blocks_snoc, length_st32. Qed.

(** Entries past the end, and the count, are not touched. *)
Lemma put_blocks_ld hb b off :
  0 <= off -> off + 4 <= 4 \/ 4 + 4 * Z.of_nat (length hb) <= off -> ld32 (put_blocks hb b) off = ld32 b off.
Proof.
  intros H0. induction hb as [|h hb IH] using rev_ind; intros Hoff; [done|]. rewrite length_app in Hoff. cbn in Hoff.
  rewrite put_blocks_snoc, ld32_st32_ne by lia. apply IH. lia.
Qed.

Lemma put_blocks_entry hb b i h :
  4 + 4 * Z.of_nat (length hb) <= Z.of_nat (length b) -> hb !! i = Some h -> ld32 (put_blocks hb b) (4 + 4 * Z.of_nat i) = u32 h.
Proof.
  revert i h. induction hb as [|h' hb IH] using rev_ind; intros i h Hl Hi; [done|].
  rewrite length_app in Hl. cbn in Hl. rewrite put_blocks_snoc. apply lookup_app_Some in Hi as [Hi|[Hi1 Hi2]].
  - pose proof (lookup_lt_Some _ _ _ Hi). rewrite ld32_st32_ne by lia. apply IH; [lia|done].
  - destruct (i - length hb)%nat eqn:Ei; [|done]. injection Hi2 as ->. replace i with (length hb) by lia.
    apply ld32_st32; [lia|]. rewrite length_put_blocks. lia.
Qed.

Lemma i32_u32 x : INT_MIN <= x <= INT_MAX -> i32 (u32 x) = x.
Proof.
  unfold i32, u32, INT_MIN, INT_MAX. intros Hx. rewrite Z.add_mod_idemp_l by lia. rewrite Z.mod_small; lia.
Qed.

Lemma header_lists base hb :
  Z.of_nat (length base) = BSIZE -> Z.of_nat (length hb) <= LOGSIZE -> (forall h, h ∈ hb -> 0 <= h < 2 ^ 31) ->
  lists (header base hb) hb.
Proof.
  intros Hb Hl Hh. unfold LOGSIZE, MAXOPBLOCKS, BSIZE in *. split.
  - unfold header. rewrite put_blocks_ld, ld32_st32 by lia. apply i32_u32. unfold INT_MIN, INT_MAX. lia.
  - intros i h Hi. unfold header. rewrite (put_blocks_entry _ _ _ h) by (rewrite ?length_st32; done || lia).
    apply i32_u32. pose proof (Hh h ltac:(by eapply list_elem_of_lookup_2)). unfold INT_MIN, INT_MAX. lia.
Qed.

Lemma length_header base hb : length (header base hb) = length base.
Proof. unfold header. by rewrite length_put_blocks, length_st32. Qed.

(** ** The log in memory *)

Definition in_log (start n : Z) : Prop := start <= n <= start + LOGSIZE.

(** The in-memory log is at [start] and lists the home blocks [hb]. *)
Record log_at (lg : klog) (start : Z) (hb : list Z) : Prop := {
  la_dev : lg_dev lg = ROOTDEV;
  la_start : lg_start lg = start;
  la_n : lh_n lg = Z.of_nat (length hb);
  la_block i h : hb !! i = Some h -> lh_block lg (Z.of_nat i) = h;
}.

Record log_fits (start : Z) (hb : list Z) : Prop := {
  lf_start : 0 <= start /\ start + LOGSIZE < 2 ^ 31;
  lf_len : Z.of_nat (length hb) <= LOGSIZE;
  lf_nodup : NoDup hb;
  lf_home h : h ∈ hb -> 0 <= h < 2 ^ 31 /\ ~ in_log start h;
}.

(** The block of the log for entry [i]. *)
Definition log_block (start : Z) (i : nat) : Z := start + Z.of_nat i + 1.

Lemma cache_log me s0 pins held V d s : cache me s0 pins held V d s -> k_log s = k_log s0.
Proof.
  intros [_ (T & t & order & Hs & _)]. exact (f_equal k_log (bs_frame _ _ _ _ _ _ _ Hs)).
Qed.

Lemma cache_upd_log f me s0 pins held V d s :
  cache me s0 pins held V d s -> cache me (s0 <| k_log ::= f |>) pins held V d (s <| k_log ::= f |>).
Proof.
  intros [Hr (T & t & order & [H1 H2 H3 H4 H5 H6] & Hrest)]. split; [exact Hr|]. exists T, t, order. split; [|exact Hrest].
  split; try done. change (erase (s <| k_log ::= f |>)) with ((erase s) <| k_log ::= f |>). by rewrite H1.
Qed.

Section loops.
Context {E : Env} `{!DiskOk E}.
Variables (me : nat) (start : Z) (hb : list Z).
Hypothesis Hfits : log_fits start hb.

Lemma home_u32 h : h ∈ hb -> u32 h = h.
Proof. intros Hh. destruct (lf_home _ _ Hfits h Hh). apply u32_small. lia. Qed.

Lemma log_block_u32 i : (i < length hb)%nat -> u32 (start + Z.of_nat i + 1) = log_block start i.
Proof. intros Hi. destruct Hfits as [[? ?] ? ? ?]. unfold log_block. apply u32_small. lia. Qed.

Lemma log_block_in i : (i < length hb)%nat -> in_log start (log_block start i).
Proof. intros Hi. destruct Hfits as [[? ?] ? ? ?]. unfold in_log, log_block. lia. Qed.

Lemma log_block_home i h : (i < length hb)%nat -> h ∈ hb -> log_block start i <> h.
Proof. intros Hi Hh Heq. apply (lf_home _ _ Hfits h Hh). rewrite <- Heq. by apply log_block_in. Qed.

Lemma wp_lh_index i (Q : unit -> K -> Prop) s : (i < length hb)%nat -> Q tt s -> wp (lh_index (Z.of_nat i)) Q s.
Proof.
  intros Hi HQ. unfold lh_index. pose proof (lf_len _ _ Hfits).
  destruct (Z.leb_spec 0 (Z.of_nat i)), (Z.ltb_spec (Z.of_nat i) LOGSIZE); try lia. exact HQ.
Qed.

(** The writes of [write_log]: the blocks of the transaction, into the log. *)
Definition log_ws (V : Z -> list Z) : list write := imap (fun i h => (log_block start i, V h)) hb.

(** The writes of [install_trans]: the blocks of the log, to their homes. *)
Definition install_ws (V : Z -> list Z) : list write := imap (fun i h => (h, V (log_block start i))) hb.

Lemma log_ws_blocks V : (log_ws V).*1 = log_block start <$> seq 0 (length hb).
Proof.
  apply list_eq. intros i. unfold log_ws. rewrite list_lookup_fmap, list_lookup_imap, list_lookup_fmap.
  destruct (hb !! i) as [h|] eqn:Eh.
  - rewrite lookup_seq_lt by (by eapply lookup_lt_Some). done.
  - apply lookup_ge_None_1 in Eh. by rewrite lookup_seq_ge by lia.
Qed.

Lemma log_ws_out V n : n ∈ (log_ws V).*1 -> in_log start n /\ n <> start.
Proof.
  rewrite log_ws_blocks. intros (i & -> & Hi)%list_elem_of_fmap. apply elem_of_seq in Hi. split; [apply log_block_in; lia|].
  unfold log_block. lia.
Qed.

Lemma log_ws_home V k h : h ∈ hb -> h ∉ (take k (log_ws V)).*1.
Proof.
  intros Hh Hin. rewrite fmap_take in Hin. apply take_elem, log_ws_out in Hin as [Hin _]. by apply (lf_home _ _ Hfits h Hh).
Qed.

Lemma install_ws_blocks V : (install_ws V).*1 = hb.
Proof.
  apply list_eq. intros i. unfold install_ws. rewrite list_lookup_fmap, list_lookup_imap. by destruct (hb !! i).
Qed.

(** One more write. *)
Lemma apply_ws_step ws V i n x : ws !! i = Some (n, x) -> apply_ws (take (S i) ws) V = <[n := x]> (apply_ws (take i ws) V).
Proof. intros Hw. by rewrite (take_S_r _ _ _ Hw), apply_ws_app. Qed.

Lemma do_writes_step ws d i n x : ws !! i = Some (n, x) -> do_writes (take (S i) ws) d = dwrite n x (do_writes (take i ws) d).
Proof. intros Hw. by rewrite (take_S_r _ _ _ Hw), do_writes_app. Qed.

Section with_log.
Variables (s0 : K).
Hypothesis Hlog : log_at (k_log s0) start hb.

Lemma wp_get_log pins held V d s (Q : klog -> K -> Prop) :
  cache me s0 pins held V d s -> Q (k_log s0) s -> wp (gets k_log) Q s.
Proof. intros Hca HQ. wp_steps. by rewrite (cache_log _ _ _ _ _ _ _ Hca). Qed.

Lemma wp_write_log V d s (Q : unit -> K -> Prop) :
  (length hb < NBUF)%nat -> cache me s0 hb [] V d s ->
  (forall s', cache me s0 hb [] (apply_ws (log_ws V) V) (do_writes (log_ws V) d) s' -> Q tt s') -> wp write_log Q s.
Proof.
  intros Hlen Hca HQ. destruct Hlog as [L1 L2 L3 L4]. set (ws := log_ws V) in *.
  assert (length ws = length hb) as Hlws by apply length_imap.
  unfold write_log.
  apply (wp_while_idx (fun k tail s' => exists i, tail = Z.of_nat i /\ (i <= length hb)%nat /\ k = (length hb - i)%nat /\
    cache me s0 hb [] (apply_ws (take i ws) V) (do_writes (take i ws) d) s')) with (k := length hb).
  2: { exists 0%nat. do 3 (split; [lia|]). exact Hca. }
  2: { pose proof (lf_len _ _ Hfits). apply lt_fuel. unfold LOGSIZE, MAXOPBLOCKS in *. lia. }
  intros k tail s1 (i & -> & Hi & -> & H1). apply wp_bind. eapply wp_get_log; [exact H1|]. rewrite L1, L2, L3.
  destruct (Z.ltb_spec (Z.of_nat i) (Z.of_nat (length hb))) as [Hlt|Hge]; cbn [negb].
  2: { apply wp_ret, HQ. rewrite !firstn_all2 in H1 by lia. done. }
  destruct (lookup_lt_is_Some_2 hb i) as [h Hh]; [lia|]. assert (h ∈ hb) as Hin by (by eapply list_elem_of_lookup_2).
  assert (ws !! i = Some (log_block start i, V h)) as Hw by (unfold ws, log_ws; by rewrite list_lookup_imap, Hh).
  rewrite log_block_u32 by lia. apply wp_bind. eapply (cache_bread _ _ _ _ _ _ _ H1); [set_solver|right; cbn; lia|]. intros to s2 H2.
  apply wp_bind, wp_lh_index; [lia|]. apply wp_bind. eapply wp_get_log; [exact H2|]. rewrite L1, (L4 i h Hh), home_u32 by done.
  apply wp_bind. eapply (cache_bread _ _ _ _ _ _ _ H2); [|by left|].
  { cbn. intros ->%list_elem_of_singleton. by eapply (log_block_home i); [lia|exact Hin|]. }
  intros from s3 H3. apply wp_bind. eapply (cache_get_data _ _ _ _ _ _ _ H3 from h); [set_solver|].
  rewrite apply_ws_ne by (by apply log_ws_home). apply wp_bind. eapply (cache_upd_data _ _ _ _ _ _ _ H3 to (log_block start i)); [set_solver|]. intros s4 H4.
  apply wp_bind. eapply (cache_bwrite _ _ _ _ _ _ _ H4 to (log_block start i)); [set_solver|]. intros s5 H5.
  rewrite fn_lookup_insert, <- (apply_ws_step _ _ _ _ _ Hw), <- (do_writes_step _ _ _ _ _ Hw) in H5.
  apply wp_bind. eapply (cache_brelse _ _ _ _ _ _ _ H5); [reflexivity|by left|]. intros s6 H6.
  apply wp_bind. eapply (cache_brelse _ _ _ _ _ _ _ H6); [reflexivity| |].
  { right. rewrite (apply_ws_step _ _ _ _ _ Hw), (do_writes_step _ _ _ _ _ Hw), fn_lookup_insert. by rewrite dblock_dwrite, decide_True. }
  intros s7 H7. apply wp_ret. exists (length hb - S i)%nat. split; [lia|]. exists (S i). split; [lia|]. split; [lia|]. done.
Qed.

Lemma install_ws_log V k i : (i < length hb)%nat -> log_block start i ∉ (take k (install_ws V)).*1.
Proof.
  intros Hi Hin. rewrite fmap_take, install_ws_blocks in Hin. apply take_elem in Hin. by eapply log_block_home.
Qed.

(** The pins that are left after [i] blocks have been installed. *)
Definition pins_left (recovering : bool) (i : nat) : list Z := if recovering then [] else drop i hb.

Lemma wp_install_trans (recovering : bool) V d s (Q : unit -> K -> Prop) :
  (length hb < NBUF)%nat -> cache me s0 (pins_left recovering 0) [] V d s ->
  (forall i, (i < length hb)%nat -> V (log_block start i) = dblock d (log_block start i)) ->
  (forall s', cache me s0 [] [] (apply_ws (install_ws V) V) (do_writes (install_ws V) d) s' -> Q tt s') ->
  wp (install_trans recovering) Q s.
Proof.
  intros Hlen Hca Hclean HQ. destruct Hlog as [L1 L2 L3 L4]. set (ws := install_ws V) in *.
  assert (length ws = length hb) as Hlws by apply length_imap. unfold install_trans.
  apply (wp_while_idx (fun k tail s' => exists i, tail = Z.of_nat i /\ (i <= length hb)%nat /\ k = (length hb - i)%nat /\
    cache me s0 (pins_left recovering i) [] (apply_ws (take i ws) V) (do_writes (take i ws) d) s')) with (k := length hb).
  2: { exists 0%nat. do 3 (split; [lia|]). exact Hca. }
  2: { pose proof (lf_len _ _ Hfits). apply lt_fuel. unfold LOGSIZE, MAXOPBLOCKS in *. lia. }
  intros k tail s1 (i & -> & Hi & -> & H1). apply wp_bind. eapply wp_get_log; [exact H1|]. rewrite L1, L2, L3.
  destruct (Z.ltb_spec (Z.of_nat i) (Z.of_nat (length hb))) as [Hlt|Hge]; cbn [negb].
  2: { apply wp_ret, HQ. rewrite !firstn_all2 in H1 by lia. unfold pins_left in H1. rewrite skipn_all2 in H1 by lia. by destruct recovering. }
  destruct (lookup_lt_is_Some_2 hb i) as [h Hh]; [lia|]. assert (h ∈ hb) as Hin by (by eapply list_elem_of_lookup_2).
  assert (ws !! i = Some (h, V (log_block start i))) as Hw by (unfold ws, install_ws; by rewrite list_lookup_imap, Hh).
  assert (length (pins_left recovering i) <= length hb)%nat as Hpl by (unfold pins_left; destruct recovering; [cbn; lia|rewrite length_drop; lia]).
  rewrite log_block_u32 by lia. apply wp_bind. eapply (cache_bread _ _ _ _ _ _ _ H1); [set_solver|right; cbn; lia|]. intros lbuf s2 H2.
  apply wp_bind, wp_lh_index; [lia|]. apply wp_bind. eapply wp_get_log; [exact H2|]. rewrite L1, (L4 i h Hh), home_u32 by done.
  apply wp_bind. eapply (cache_bread _ _ _ _ _ _ _ H2).
  { cbn. intros ->%list_elem_of_singleton. by eapply (log_block_home i); [lia|exact Hin|]. }
  { unfold pins_left. destruct recovering; [right; cbn; unfold NBUF, MAXOPBLOCKS; lia|left].
    apply list_elem_of_lookup. exists 0%nat. rewrite lookup_drop. by rewrite Nat.add_0_r. }
  intros dbuf s3 H3. apply wp_bind. eapply (cache_get_data _ _ _ _ _ _ _ H3 lbuf (log_block start i)); [set_solver|].
  rewrite apply_ws_ne by (apply install_ws_log; lia). apply wp_bind.
  eapply (cache_upd_data _ _ _ _ _ _ _ H3 dbuf h); [set_solver|]. intros s4 H4.
  apply wp_bind. eapply (cache_bwrite _ _ _ _ _ _ _ H4 dbuf h); [set_solver|]. intros s5 H5.
  rewrite fn_lookup_insert, <- (apply_ws_step _ _ _ _ _ Hw), <- (do_writes_step _ _ _ _ _ Hw) in H5.
  apply wp_bind.
  assert (forall s6, cache me s0 (pins_left recovering (S i)) [(dbuf, h); (lbuf, log_block start i)]
    (apply_ws (take (S i) ws) V) (do_writes (take (S i) ws) d) s6 ->
    wp (brelse lbuf;; brelse dbuf;; mret (inl (Z.of_nat i + 1)))
      (fun r s' => match r with inl tail => exists k', (k' < length hb - i)%nat /\ exists i', tail = Z.of_nat i' /\ (i' <= length hb)%nat /\
        k' = (length hb - i')%nat /\ cache me s0 (pins_left recovering i') [] (apply_ws (take i' ws) V) (do_writes (take i' ws) d) s'
        | inr r' => Q r' s' end) s6) as Hrest.
  { intros s6 H6. apply wp_bind. eapply (cache_brelse _ _ _ _ _ _ _ H6 lbuf (log_block start i)); [apply Permutation_swap| |].
    { right. rewrite dblock_do_writes, !apply_ws_ne by (apply install_ws_log; lia). apply Hclean. lia. }
    intros s7 H7. apply wp_bind. eapply (cache_brelse _ _ _ _ _ _ _ H7 dbuf h); [reflexivity| |].
    { right. rewrite (apply_ws_step _ _ _ _ _ Hw), (do_writes_step _ _ _ _ _ Hw), fn_lookup_insert. by rewrite dblock_dwrite, decide_True. }
    intros s8 H8. apply wp_ret. exists (length hb - S i)%nat. split; [lia|]. exists (S i). split; [lia|]. split; [lia|]. done. }
  destruct recovering; cbn [negb].
  - apply wp_ret. by apply Hrest.
  - eapply (cache_bunpin _ _ _ _ _ _ _ H5 dbuf h); [set_solver| |exact Hrest].
    unfold pins_left. by rewrite (drop_S _ _ _ Hh).
Qed.

Lemma start_u32 : u32 start = start.
Proof. destruct Hfits as [[? ?] ? ? ?]. apply u32_small. unfold LOGSIZE, MAXOPBLOCKS in *. lia. Qed.

Lemma wp_write_head pins V d s (Q : unit -> K -> Prop) :
  (length pins < NBUF)%nat -> cache me s0 pins [] V d s ->
  (forall s', cache me s0 pins [] (<[start := header (V start) hb]> V) (dwrite start (header (V start) hb) d) s' -> Q tt s') ->
  wp write_head Q s.
Proof.
  intros Hlen Hca HQ. destruct Hlog as [L1 L2 L3 L4]. unfold write_head.
  apply wp_bind. eapply wp_get_log; [exact Hca|]. rewrite L1, L2, start_u32.
  apply wp_bind. eapply (cache_bread _ _ _ _ _ _ _ Hca); [set_solver|right; cbn; lia|]. intros b s1 H1.
  apply wp_bind. eapply wp_get_log; [exact H1|]. rewrite L3.
  apply wp_bind. eapply (cache_upd_data _ _ _ _ _ _ _ H1 b start); [set_solver|]. intros s2 H2.
  set (base := st32 (V start) 0 (Z.of_nat (length hb))) in *. apply wp_bind.
  apply (wp_while_idx (fun k i' s' => exists i, i' = Z.of_nat i /\ (i <= length hb)%nat /\ k = (length hb - i)%nat /\
    cache me s0 pins [(b, start)] (<[start := put_blocks (take i hb) base]> V) d s')) with (k := length hb).
  2: { exists 0%nat. do 3 (split; [lia|]). exact H2. }
  2: { pose proof (lf_len _ _ Hfits). apply lt_fuel. unfold LOGSIZE, MAXOPBLOCKS in *. lia. }
  intros k i' s3 (i & -> & Hi & -> & H3). apply wp_bind. eapply wp_get_log; [exact H3|]. rewrite L3.
  destruct (Z.ltb_spec (Z.of_nat i) (Z.of_nat (length hb))) as [Hlt|Hge]; cbn [negb].
  - destruct (lookup_lt_is_Some_2 hb i) as [h Hh]; [lia|]. apply wp_bind, wp_lh_index; [lia|]. rewrite (L4 i h Hh).
    apply wp_bind. eapply (cache_upd_data _ _ _ _ _ _ _ H3 b start); [set_solver|]. intros s4 H4. apply wp_ret.
    exists (length hb - S i)%nat. split; [lia|]. exists (S i). split; [lia|]. split; [lia|]. split; [done|].
    eapply cache_ext; [|exact H4]. intros n. rewrite fn_lookup_insert, !fn_insert_Z. case_decide; [|done].
    rewrite (take_S_r _ _ _ Hh), put_blocks_snoc. by rewrite length_take_le by lia.
  - apply wp_ret. rewrite firstn_all2 in H3 by lia. fold (header (V start) hb) in H3.
    apply wp_bind. eapply (cache_bwrite _ _ _ _ _ _ _ H3 b start); [set_solver|]. intros s4 H4. rewrite fn_lookup_insert in H4.
    eapply (cache_brelse _ _ _ _ _ _ _ H4 b start); [reflexivity| |exact HQ].
    right. by rewrite fn_lookup_insert, dblock_dwrite, decide_True.
Qed.

End with_log.

End loops.
