(* ===== verification/LogCrash.v ===== *)
(** * LogCrash: committing and recovering

    [commit] performs a fixed sequence of block writes.  The machine may
    stop between any two of them; [recover_from_log], run on the disk as it
    was left, then either restores the contents from before the transaction
    or completes it. *)

From stdpp Require Import base list gmap functions strings.
From Stdlib Require Import ZArith Lia.
From S2P Require Import Prelude CMem Riscv Spinlock Kalloc Vm Que KState Printf Proc KWp KDemo Bio Log BioWp BioSpec BioOps Cache BlockData LogSpec.

Section ops.
Context {E : Env} `{!DiskOk E}.
Variables (me : nat) (start : Z) (hb : list Z).
Hypothesis Hfits : log_fits start hb.

Lemma wp_upd_log s0 pins held V d s f (Q : unit -> K -> Prop) :
  cache me s0 pins held V d s ->
  (forall s', cache me (s0 <| k_log ::= f |>) pins held V d s' -> Q tt s') -> wp (upd_log f) Q s.
Proof. intros Hca HQ. wp_steps. apply HQ. by apply cache_upd_log. Qed.

(** The in-memory header after the first [i] entries have been read. *)
Definition reading (lg0 lg : klog) (i : nat) : Prop :=
  lg_dev lg = lg_dev lg0 /\ lg_start lg = lg_start lg0 /\ lh_n lg = Z.of_nat (length hb) /\
  forall j h, (j < i)%nat -> hb !! j = Some h -> lh_block lg (Z.of_nat j) = h.

Lemma wp_read_head s0 V d s (Q : unit -> K -> Prop) :
  lg_dev (k_log s0) = ROOTDEV -> lg_start (k_log s0) = start ->
  cache me s0 [] [] V d s -> V start = dblock d start -> lists (V start) hb ->
  (forall lg s', log_at lg start hb -> cache me (s0 <| k_log := lg |>) [] [] V d s' -> Q tt s') -> wp read_head Q s.
Proof.
  intros L1 L2 Hca Hcl [Hn Hent] HQ. unfold read_head.
  apply wp_bind. eapply wp_get_log; [exact Hca|]. rewrite L1, L2, (start_u32 start hb Hfits).
  apply wp_bind. eapply (cache_bread _ _ _ _ _ _ _ Hca); [set_solver|right; cbn; unfold NBUF, MAXOPBLOCKS; lia|]. intros b s1 H1.
  apply wp_bind. eapply (cache_get_data _ _ _ _ _ _ _ H1 b start); [set_solver|].
  apply wp_bind. eapply wp_upd_log; [exact H1|]. intros s2 H2. apply wp_bind.
  apply (wp_while_idx (fun k i' s' => exists i lg, i' = Z.of_nat i /\ (i <= length hb)%nat /\ k = (length hb - i)%nat /\
    reading (k_log s0) lg i /\ cache me (s0 <| k_log := lg |>) [] [(b, start)] V d s')) with (k := length hb).
  2: { exists 0%nat, ((k_log s0) <| lh_n := i32 (ld32 (V start) 0) |>). do 3 (split; [lia|]). split; [|exact H2].
       unfold reading. rsimpl. repeat split; try done. intros; lia. }
  2: { pose proof (lf_len _ _ Hfits). apply lt_fuel. unfold LOGSIZE, MAXOPBLOCKS in *. lia. }
  intros k i' s3 (i & lg & -> & Hi & -> & Hlg & H3). pose proof Hlg as (G1 & G2 & G3 & G4).
  apply wp_bind. eapply wp_get_log; [exact H3|]. rsimpl. rewrite G3.
  destruct (Z.ltb_spec (Z.of_nat i) (Z.of_nat (length hb))) as [Hlt|Hge]; cbn [negb].
  - destruct (lookup_lt_is_Some_2 hb i) as [h Hh]; [lia|]. apply wp_bind, (wp_lh_index start hb Hfits); [lia|].
    apply wp_bind. eapply wp_upd_log; [exact H3|]. intros s4 H4. apply wp_ret.
    exists (length hb - S i)%nat. split; [lia|]. exists (S i), (lg <| lh_block ::= fun t => <[Z.of_nat i := i32 (ld32 (V start) (4 + 4 * Z.of_nat i))]> t |>).
    do 3 (split; [lia|]). split; [|exact H4]. unfold reading. rsimpl. do 3 (split; [done|]). intros j h' Hj Hj'.
    destruct (decide (j = i)) as [->|]; [rewrite fn_lookup_insert; by apply Hent|].
    rewrite fn_lookup_insert_ne by lia. apply G4; [lia|done].
  - apply wp_ret. eapply (cache_brelse _ _ _ _ _ _ _ H3 b start); [reflexivity|by right|]. intros s4 H4. eapply HQ; [|exact H4].
    split; [congruence|congruence|done|]. intros j h Hj. apply G4; [|done]. apply lookup_lt_Some in Hj. lia.
Qed.

(** ** [commit] *)

(** The writes of [commit] when the view is [V]: the log blocks, the header,
    the home blocks, and the header with the count cleared. *)
Definition commit_ws (V : Z -> list Z) : list write :=
  log_ws start hb V ++
  [(start, header (V start) hb)] ++
  ((fun h => (h, V h)) <$> hb) ++
  [(start, header (header (V start) hb) [])].

Lemma start_not_log V : start ∉ (log_ws start hb V).*1.
Proof. intros [_ ?]%(log_ws_out start hb Hfits). done. Qed.

Lemma start_not_home : start ∉ hb.
Proof. intros [_ Hn]%(lf_home _ _ Hfits). apply Hn. unfold in_log, LOGSIZE, MAXOPBLOCKS. lia. Qed.

Lemma log_ws_NoDup V : NoDup (log_ws start hb V).*1.
Proof.
  rewrite log_ws_blocks. apply NoDup_fmap_2_strong; [|apply NoDup_seq]. intros x y _ _. unfold log_block. lia.
Qed.

(** After [write_log] and [write_head], the blocks of the log are the new
    home blocks. *)
Lemma log_written V x i h : hb !! i = Some h -> (<[start := x]> (apply_ws (log_ws start hb V) V)) (log_block start i) = V h.
Proof.
  intros Hh. rewrite fn_insert_Z, decide_False by (unfold log_block; lia).
  apply apply_ws_in; [apply log_ws_NoDup|]. eapply list_elem_of_lookup_2. unfold log_ws. by rewrite list_lookup_imap, Hh.
Qed.

Lemma install_ws_commit V x : install_ws start hb (<[start := x]> (apply_ws (log_ws start hb V) V)) = (fun h => (h, V h)) <$> hb.
Proof.
  apply list_eq. intros i. unfold install_ws. rewrite list_lookup_imap, list_lookup_fmap.
  destruct (hb !! i) as [h|] eqn:Eh; [|done]. cbn. by rewrite (log_written V x i h Eh).
Qed.

Lemma home_ws_blocks (V : Z -> list Z) : ((fun h => (h, V h)) <$> hb).*1 = hb.
Proof. rewrite <- list_fmap_compose. by rewrite list_fmap_id. Qed.

Lemma log_fits_nil : log_fits start [].
Proof. destruct Hfits as [? ? ? ?]. split; [done|cbn; lia|constructor|set_solver]. Qed.

Lemma log_at_cleared s0 : lg_dev (k_log s0) = ROOTDEV -> lg_start (k_log s0) = start ->
  log_at (k_log (s0 <| k_log ::= fun l => l <| lh_n := 0 |> |>)) start [].
Proof. by split. Qed.

Lemma wp_commit s0 V d s (Q : unit -> K -> Prop) :
  log_at (k_log s0) start hb -> hb <> [] -> (length hb < NBUF)%nat -> cache me s0 hb [] V d s ->
  (forall s', cache me (s0 <| k_log ::= fun l => l <| lh_n := 0 |> |>) [] [] (apply_ws (commit_ws V) V) (do_writes (commit_ws V) d) s' -> Q tt s') ->
  wp commit Q s.
Proof.
  intros Hlog Hne Hlen Hca HQ. unfold commit. apply wp_bind. eapply wp_get_log; [exact Hca|].
  rewrite (la_n _ _ _ Hlog). destruct (Z.ltb_spec 0 (Z.of_nat (length hb))); [|destruct hb; cbn in *; [done|lia]].
  apply wp_when, wp_bind. eapply wp_write_log; [exact Hfits|exact Hlog|done|exact Hca|]. intros s1 H1.
  apply wp_bind. eapply wp_write_head; [exact Hfits|exact Hlog|done|exact H1|]. intros s2 H2.
  rewrite (apply_ws_ne _ _ start) in H2 by apply start_not_log. set (hd := header (V start) hb) in *.
  apply wp_bind. eapply (wp_install_trans _ _ _ Hfits s0 Hlog false); [done|exact H2| |].
  { intros i Hi. destruct (lookup_lt_is_Some_2 hb i Hi) as [h Hh]. rewrite (log_written V hd i h Hh).
    rewrite dblock_dwrite, decide_False by (unfold log_block; lia). rewrite dblock_do_writes. symmetry.
    apply apply_ws_in; [apply log_ws_NoDup|]. eapply list_elem_of_lookup_2. unfold log_ws. by rewrite list_lookup_imap, Hh. }
  rewrite install_ws_commit. intros s3 H3. apply wp_bind. eapply wp_upd_log; [exact H3|]. intros s4 H4.
  eapply (wp_write_head _ _ [] log_fits_nil (s0 <| k_log ::= fun l => l <| lh_n := 0 |> |>)
    (log_at_cleared s0 (la_dev _ _ _ Hlog) (la_start _ _ _ Hlog)) []); [cbn; unfold NBUF, MAXOPBLOCKS; lia|exact H4|].
  intros s5 H5. apply HQ. rewrite (apply_ws_ne _ _ start) in H5 by (rewrite home_ws_blocks; apply start_not_home).
  rewrite fn_lookup_insert in H5. unfold commit_ws. rewrite !apply_ws_app, !do_writes_app. exact H5.
Qed.

(** ** Recovery *)

Lemma wp_recover s0 V d s (Q : unit -> K -> Prop) :
  (length hb < NBUF)%nat -> lg_dev (k_log s0) = ROOTDEV -> lg_start (k_log s0) = start ->
  cache me s0 [] [] V d s -> (forall n, V n = dblock d n) -> lists (V start) hb ->
  (forall s', k_disk s' = do_writes (install_ws start hb V ++ [(start, header (V start) [])]) d -> Q tt s') ->
  wp recover_from_log Q s.
Proof.
  intros Hlen L1 L2 Hca Hcl Hlst HQ. unfold recover_from_log.
  apply wp_bind. eapply wp_read_head; [done|done|exact Hca|apply Hcl|done|]. intros lg s1 Hlg0 H1.
  assert (log_at (k_log (s0 <| k_log := lg |>)) start hb) as Hlg by (rsimpl; exact Hlg0).
  apply wp_bind. eapply (wp_install_trans _ _ _ Hfits (s0 <| k_log := lg |>) Hlg true); [done|exact H1|by intros|].
  intros s2 H2. apply wp_bind. eapply wp_upd_log; [exact H2|]. intros s3 H3.
  eapply (wp_write_head _ _ [] log_fits_nil (s0 <| k_log := lg |> <| k_log ::= fun l => l <| lh_n := 0 |> |>)
    (log_at_cleared (s0 <| k_log := lg |>) (la_dev _ _ _ Hlg) (la_start _ _ _ Hlg)) []); [cbn; unfold NBUF, MAXOPBLOCKS; lia|exact H3|].
  intros s4 H4. apply HQ. rewrite do_writes_app. rewrite (apply_ws_ne _ _ start) in H4 by (rewrite install_ws_blocks; apply start_not_home).
  destruct H4 as [_ (T & t & order & Hs & _)]. apply (bs_disk _ _ _ _ _ _ _ Hs).
Qed.

End ops.

(** ** Starting the cache *)

(** A kernel that has just started on process [me], with disk [d]. *)
Record rebooted (me : nat) (d : kdisk) (s : K) : Prop := {
  rb_running : running s me;
  rb_disk : k_disk s = d;
  rb_zero b : (b < NBUF)%nat -> b_dev (bc_buf (k_bc s) b) = 0 /\ b_refcnt (bc_buf (k_bc s) b) = 0;
}.

(** The cache while [binit] links the buffers: [n] of them are done. *)
Record linked (T : nat -> buf) (n : nat) : Prop := {
  lk_dll : dll T (rev (seq 0 n));
  lk_zero b : (b < NBUF)%nat -> b_dev (T b) = 0 /\ b_refcnt (T b) = 0;
  lk_lock b : (b < n)%nat -> b_lock (T b) = KDemo.unlocked;
}.

(** Linking buffer [n]. *)
Definition link (T : nat -> buf) (n : nat) : nat -> buf := push_front (<[n := (T n) <| b_lock := KDemo.unlocked |>]> T) n.

Lemma linked_step T n : (n < NBUF)%nat -> linked T n -> linked (link T n) (S n).
Proof.
  intros Hn [H1 H2 H3]. set (T1 := <[n := (T n) <| b_lock := KDemo.unlocked |>]> T).
  assert (forall q, b_next (T1 q) = b_next (T q) /\ b_prev (T1 q) = b_prev (T q) /\ b_dev (T1 q) = b_dev (T q) /\ b_refcnt (T1 q) = b_refcnt (T q)) as E1.
  { intros q. unfold T1. rewrite fn_insert_decide. by case_decide; subst. }
  assert (dll T1 (rev (seq 0 n))) as Hd1 by (eapply seg_ext; [| |exact H1]; intros z _; apply E1).
  assert (forall z, z ∈ rev (seq 0 n) -> (z < n)%nat) as Hlt.
  { intros z Hz. apply list_elem_of_In, List.in_rev, list_elem_of_In, elem_of_seq in Hz. lia. }
  assert (b_next (T1 NBUF) <> n) as Hne.
  { rewrite (seg_first _ _ _ _ Hd1). destruct (rev (seq 0 n)) as [|z l] eqn:Er; cbn; [lia|]. specialize (Hlt z). set_solver by lia. }
  destruct (push_front_links T1 n) as (_ & _ & Hrel); [lia|done|]. split.
  - rewrite seq_S, rev_app_distr. cbn. apply push_front_dll; [lia| | | |done].
    + intros Hz%Hlt. lia.
    + intros Hz%Hlt. lia.
    + apply NoDup_ListNoDup, List.NoDup_rev, NoDup_ListNoDup, NoDup_seq.
  - intros b Hb. destruct (relinked_fields _ _ (Hrel b)) as (E2 & _ & _ & _ & E3 & _). unfold link. fold T1.
    rewrite E2, E3. destruct (E1 b) as (_ & _ & -> & ->). by apply H2.
  - intros b Hb. destruct (relinked_fields _ _ (Hrel b)) as (_ & _ & _ & _ & _ & E2). unfold link. fold T1. rewrite E2.
    unfold T1. rewrite fn_insert_decide. case_decide; [done|]. apply H3. lia.
Qed.

Lemma linked_cache me s d T c t :
  running s me -> bst s (k_cpu s) false T (k_proc s) d c -> linked T NBUF -> t = c -> cache me s [] [] (dblock d) d t.
Proof.
  intros Hr Hs [H1 H2 H3] ->. assert (forall b n, ~ caches T b n) as Hno.
  { intros b n (Hb & Hd & _). destruct (H2 b Hb) as [Hz _]. by rewrite Hz in Hd. }
  split; [done|]. exists T, (k_proc s), (rev (seq 0 NBUF)). split; [done|]. split; [|split; [|split; [|split; [done|apply Hr]]]].
  - split; [symmetry; apply Permutation_rev|done| | | |].
    + intros b b' n Hb. by apply Hno in Hb.
    + intros b n Hb. by apply Hno in Hb.
    + intros b Hb. destruct (H2 b Hb) as [_ ->]. lia.
    + intros b Hb _. by apply H3.
  - split; [constructor|constructor|set_solver|set_solver| |].
    + intros b n Hb. by apply Hno in Hb.
    + intros b Hb _. by apply H2.
  - intros n. by rewrite (view_uncached T d n).
Qed.

Section boot.
Context {E : Env} `{!DiskOk E}.

Lemma wp_initsleeplock s0 c lk T t d s b (Q : unit -> K -> Prop) :
  bst s0 c lk T t d s ->
  (forall s', bst s0 c lk (<[b := (T b) <| b_lock := KDemo.unlocked |>]> T) t d s' -> Q tt s') -> wp (initsleeplock (buf_lock b)) Q s.
Proof.
  intros Hs HQ. unfold initsleeplock, initlock. apply wp_bind, wp_modify.
  assert (bst s0 c lk (<[b := (T b) <| b_lock ::= fun l => l <| sl_lk := false |> |>]> T) t d (lset (inner (buf_lock b)) false s)) as H1.
  { destruct Hs as [H1 H2 H3 H4 H5 H6]. split; try done. intros q. cbn. rsimpl. rewrite H4, !fn_insert_decide. by case_decide. }
  apply wp_bind. eapply wp_upd_slock; [exact H1|]. intros s2 H2%bst_collapse.
  eapply wp_upd_slock; [exact H2|]. intros s3 H3%bst_collapse. apply HQ. eapply bst_ext; [|exact H3]. table_eq b.
Qed.

Lemma wp_binit me d s (Q : unit -> K -> Prop) :
  rebooted me d s -> (forall s', cache me s [] [] (dblock d) d s' -> Q tt s') -> wp binit Q s.
Proof.
  intros [Hr Hd Hz] HQ. unfold binit, initlock. refine (proj2 (wp_bind _ _ _ _) _). refine (proj2 (wp_modify _ _ _) _).
  assert (bst s (k_cpu s) false (bc_buf (k_bc s)) (k_proc s) d (lset bc_lk false s)) as H0 by (by split).
  refine (proj2 (wp_bind _ _ _ _) _). eapply wp_upd_buf; [exact H0|]. intros s1 H1.
  refine (proj2 (wp_bind _ _ _ _) _). eapply wp_upd_buf; [exact H1|]. intros s2 H2%bst_collapse. set (T0 := <[NBUF := _]> _) in H2.
  assert (linked T0 0) as Hl0.
  { split; [|intros b Hb|intros b Hb; lia].
    - unfold T0, dll. cbn. rewrite !fn_lookup_insert. done.
    - unfold T0. rewrite fn_lookup_insert_ne by lia. by apply Hz. }
  eapply wp_mono.
  { apply (wp_for_each (fun done s' => exists T, linked T (length done) /\ bst s (k_cpu s) false T (k_proc s) d s')).
    - intros done b todo s3 Hsp (T & Hl & H3).
      assert (b = length done /\ (b < NBUF)%nat) as [-> Hb].
      { assert (seq 0 NBUF !! length done = Some b) as Hlk by (rewrite Hsp; by apply list_lookup_middle).
        apply lookup_seq in Hlk as [-> ?]. lia. }
      set (b := length done) in *. apply wp_bind. eapply wp_get_buf; [exact H3|].
      apply wp_bind. eapply wp_upd_buf; [exact H3|]. intros s4 H4.
      apply wp_bind. eapply wp_upd_buf; [exact H4|]. intros s5 H5.
      apply wp_bind. eapply wp_initsleeplock; [exact H5|]. intros s6 H6.
      apply wp_bind. eapply wp_get_buf; [exact H6|].
      apply wp_bind. eapply wp_upd_buf; [exact H6|]. intros s7 H7.
      eapply wp_upd_buf; [exact H7|]. intros s8 H8.
      exists (link T b). rewrite length_app, Nat.add_1_r. fold b. split; [by apply linked_step|]. eapply bst_ext; [|exact H8].
      intros q. unfold link, push_front. rewrite !(fn_insert_decide _ _ _ NBUF), !(fn_insert_decide _ _ _ b), !(decide_True (P := b = b)),
        !(decide_False (P := NBUF = b)) by lia.
      rewrite !fn_insert_decide. repeat case_decide; subst; try done; try lia.
    - exists T0. done. }
  intros [] s3 (T & Hl & H3). apply HQ. rewrite length_seq in Hl. by eapply linked_cache.
Qed.

End boot.

(** ** Crashes *)

Section crash.
Context {E : Env} `{!DiskOk E}.

(** The writes of recovery on disk [d]: the blocks the header lists, copied
    home, and the header with the count cleared. *)
Definition recover_ws (start : Z) (hb : list Z) (d : kdisk) : list write :=
  install_ws start hb (dblock d) ++ [(start, header (dblock d start) [])].

(** Recovery after a restart, for the header found on the disk. *)
Lemma reboot_recovers me sb start hb d s :
  log_fits start hb -> (length hb < NBUF)%nat -> sb_logstart sb = start -> rebooted me d s -> lists (dblock d start) hb ->
  exists s', (binit;; initlog ROOTDEV sb) s = Ok tt s' /\ k_disk s' = do_writes (recover_ws start hb d) d.
Proof.
  intros Hfits Hlen Hsb Hrb Hlst.
  assert (wp (binit;; initlog ROOTDEV sb) (fun _ s' => k_disk s' = do_writes (recover_ws start hb d) d) s) as Hwp.
  { refine (proj2 (wp_bind _ _ _ _) _). eapply wp_binit; [exact Hrb|]. intros s1 H1.
    unfold initlog. change (BSIZE <=? 4 + 4 * LOGSIZE) with false. cbn iota. unfold initlock.
    apply wp_bind, wp_modify. apply (cache_upd_log (fun l => l <| lg_lock := false |>)) in H1.
    apply wp_bind. eapply wp_upd_log; [exact H1|]. intros s2 H2.
    apply wp_bind. eapply wp_upd_log; [exact H2|]. intros s3 H3.
    apply wp_bind. eapply wp_upd_log; [exact H3|]. intros s4 H4.
    eapply (wp_recover me start hb Hfits); [done| | |exact H4|done|exact Hlst|].
    { reflexivity. }
    { rsimpl. rewrite Hsb. apply i32_small. destruct Hfits as [[? ?] ? ? ?]. unfold INT_MIN, INT_MAX, LOGSIZE, MAXOPBLOCKS in *. lia. }
    by intros s5 ->. }
  destruct (proj1 (wp_ok _ _ _) Hwp) as ([] & s' & Hok & HQ). exists s'. exact (conj Hok HQ).
Qed.

Lemma start_in_log start : in_log start start.
Proof. unfold in_log, LOGSIZE, MAXOPBLOCKS. lia. Qed.

(** Outside the log, recovery is the copying. *)
Lemma recover_home start hb d n :
  ~ in_log start n -> dblock (do_writes (recover_ws start hb d) d) n = apply_ws (install_ws start hb (dblock d)) (dblock d) n.
Proof.
  intros Hn. unfold recover_ws. rewrite dblock_do_writes, apply_ws_app. apply (apply_ws_ne [_]).
  cbn. intros ->%list_elem_of_singleton. by apply Hn, start_in_log.
Qed.

(** A cleared header leaves nothing to do. *)
Lemma recover_nil start d n : ~ in_log start n -> dblock (do_writes (recover_ws start [] d) d) n = dblock d n.
Proof. intros Hn. by rewrite recover_home. Qed.

(** The blocks outside the log are those of [V]. *)
Definition home_is (start : Z) (d : kdisk) (V : Z -> list Z) : Prop := forall n, ~ in_log start n -> dblock d n = V n.

Section prefixes.
Variables (start : Z) (hb : list Z) (V : Z -> list Z) (d : kdisk).
Hypothesis Hfits : log_fits start hb.
Hypothesis Hclean : forall n, n ∉ hb -> V n = dblock d n.
Hypothesis Hsize : Z.of_nat (length (V start)) = BSIZE.

(** The disk after the header has been written and some of the home blocks. *)
Definition committed (j : nat) : kdisk :=
  do_writes (log_ws start hb V ++ [(start, header (V start) hb)] ++ take j ((fun h => (h, V h)) <$> hb)) d.

Lemma committed_home_ne n j : n ∉ hb -> n ∉ (take j ((fun h => (h, V h)) <$> hb)).*1.
Proof. intros Hn Hin. rewrite fmap_take, home_ws_blocks in Hin. by apply take_elem in Hin. Qed.

Lemma committed_header j : lists (dblock (committed j) start) hb.
Proof.
  unfold committed. rewrite dblock_do_writes, !apply_ws_app, (apply_ws_ne (take j _)) by (apply committed_home_ne, (start_not_home start hb Hfits)).
  rewrite (apply_ws_in [_] _ start (header (V start) hb)); [|cbn; apply NoDup_singleton|set_solver].
  apply header_lists; [done|apply Hfits|]. intros h Hh. apply (lf_home _ _ Hfits h Hh).
Qed.

Lemma committed_log j i h : hb !! i = Some h -> dblock (committed j) (log_block start i) = V h.
Proof.
  intros Hh. assert (i < length hb)%nat as Hi by (by eapply lookup_lt_Some).
  unfold committed. rewrite dblock_do_writes, !apply_ws_app, (apply_ws_ne (take j _)), (apply_ws_ne [_]).
  - apply apply_ws_in; [apply (log_ws_NoDup start hb)|]. eapply list_elem_of_lookup_2. unfold log_ws. by rewrite list_lookup_imap, Hh.
  - cbn. unfold log_block. intros ?%list_elem_of_singleton. lia.
  - apply committed_home_ne. intros Hin. by eapply (log_block_home start hb Hfits i).
Qed.

(** Outside the log, a block is old or new. *)
Lemma committed_other j n : ~ in_log start n -> n ∉ hb -> dblock (committed j) n = V n.
Proof.
  intros Hn Hh. unfold committed. rewrite dblock_do_writes, !apply_ws_app, (apply_ws_ne (take j _)), (apply_ws_ne [_]), apply_ws_ne.
  - symmetry. by apply Hclean.
  - intros [? _]%(log_ws_out start hb Hfits). done.
  - cbn. intros ->%list_elem_of_singleton. apply Hn. unfold in_log, LOGSIZE, MAXOPBLOCKS. lia.
  - by apply committed_home_ne.
Qed.

(** Copying the log home completes the transaction. *)
Lemma committed_recovers j n :
  ~ in_log start n -> apply_ws (install_ws start hb (dblock (committed j))) (dblock (committed j)) n = V n.
Proof.
  intros Hn. destruct (decide (n ∈ hb)) as [Hin|Hin].
  - apply apply_ws_in; [rewrite install_ws_blocks; apply Hfits|]. apply list_elem_of_lookup in Hin as [i Hi].
    eapply list_elem_of_lookup_2. unfold install_ws. rewrite list_lookup_imap, Hi. cbn. by rewrite (committed_log j i n Hi).
  - rewrite apply_ws_ne by (by rewrite install_ws_blocks). by apply committed_other.
Qed.

(** Before the header is written, nothing outside the blocks of the log has
    changed. *)
Lemma uncommitted_block k n : n = start \/ ~ in_log start n -> dblock (do_writes (take k (log_ws start hb V)) d) n = dblock d n.
Proof.
  intros Hn. rewrite dblock_do_writes. apply apply_ws_ne. rewrite fmap_take. intros Hin%take_elem%(log_ws_out start hb Hfits).
  destruct Hin, Hn; done.
Qed.

(** The end of [commit]'s writes. *)
Lemma commit_all :
  do_writes (commit_ws start hb V) d = do_writes [(start, header (header (V start) hb) [])] (committed (length hb)).
Proof.
  unfold committed, commit_ws. rewrite (take_ge (_ <$> _)), <- do_writes_app by (by rewrite length_fmap).
  f_equal. by rewrite <- !app_assoc.
Qed.

(** The three stretches of [commit]'s writes. *)
Lemma commit_prefix k :
  (k <= length hb)%nat /\ take k (commit_ws start hb V) = take k (log_ws start hb V) \/
  (length hb < k)%nat /\ do_writes (take k (commit_ws start hb V)) d = committed (k - S (length hb)) \/
  (length hb < k)%nat /\
    do_writes (take k (commit_ws start hb V)) d = do_writes [(start, header (header (V start) hb) [])] (committed (length hb)).
Proof.
  assert (length (log_ws start hb V) = length hb) as Hl by apply length_imap. unfold commit_ws.
  destruct (decide (k <= length hb)%nat); [left; split; [done|]; apply take_app_le; lia|right].
  rewrite take_app, Hl, (take_ge (log_ws start hb V)) by lia. destruct (k - length hb)%nat as [|j] eqn:Ej; [lia|].
  cbn [app take]. destruct (decide (j <= length hb)%nat).
  - left. split; [lia|]. rewrite take_app_le by (by rewrite length_fmap). unfold committed. by replace (k - S (length hb))%nat with j by lia.
  - right. split; [lia|]. rewrite (take_ge (_ ++ _)) by (rewrite length_app, length_fmap; cbn; lia). apply commit_all.
Qed.

Lemma cleared_lists j : lists (dblock (do_writes [(start, header (header (V start) hb) [])] (committed j)) start) [].
Proof.
  rewrite dblock_do_writes, (apply_ws_in [_] _ start (header (header (V start) hb) [])); [|cbn; apply NoDup_singleton|set_solver].
  apply header_lists; [by rewrite length_header|done|set_solver].
Qed.

Lemma committed_all n : ~ in_log start n -> dblock (committed (length hb)) n = V n.
Proof.
  intros Hn. destruct (decide (n ∈ hb)) as [Hin|Hin]; [|by apply committed_other].
  unfold committed. rewrite dblock_do_writes, !apply_ws_app. apply apply_ws_in.
  - rewrite fmap_take, home_ws_blocks, take_ge by done. apply Hfits.
  - rewrite take_ge by (by rewrite length_fmap). apply list_elem_of_fmap. by exists n.
Qed.

Lemma cleared_home n : ~ in_log start n ->
  dblock (do_writes [(start, header (header (V start) hb) [])] (committed (length hb))) n = V n.
Proof.
  intros Hn. rewrite dblock_do_writes, apply_ws_ne; [by apply committed_all|].
  cbn. intros ->%list_elem_of_singleton. by apply Hn, start_in_log.
Qed.

End prefixes.

(** C2: A transaction is atomic.  [commit], run on a cache whose dirty blocks
    [hb] are listed in the log, returns, and leaves the new contents [V] at
    home.  Stop the machine after any number [k] of its block writes and
    restart: [binit] and [initlog] return, and outside the log the disk is
    the one from before the transaction when the header had not been written
    yet ([k <= length hb]), and the one with the whole transaction as soon as
    it had. *)
Theorem commit_crash_safe me start hb s0 V d s :
  log_fits start hb -> hb <> [] -> (length hb < NBUF)%nat -> log_at (k_log s0) start hb ->
  cache me s0 hb [] V d s -> (forall n, n ∉ hb -> V n = dblock d n) ->
  Z.of_nat (length (V start)) = BSIZE -> lists (dblock d start) [] ->
  exists s' ws, commit s = Ok tt s' /\ k_disk s' = do_writes ws d /\ home_is start (k_disk s') V /\
    forall k me' sb sr, sb_logstart sb = start -> rebooted me' (do_writes (take k ws) d) sr ->
      exists s2, (binit;; initlog ROOTDEV sb) sr = Ok tt s2 /\
        home_is start (k_disk s2) (if decide (k <= length hb)%nat then dblock d else V).
Proof.
  intros Hfits Hne Hlen Hlog Hca Hclean Hsize Hold.
  assert (wp commit (fun _ s' => k_disk s' = do_writes (commit_ws start hb V) d) s) as Hwp.
  { eapply (wp_commit me start hb Hfits); [exact Hlog|done|done|exact Hca|].
    intros s' [_ (T & t & order & Hs & _)]. apply (bs_disk _ _ _ _ _ _ _ Hs). }
  destruct (proj1 (wp_ok _ _ _) Hwp) as ([] & s' & Hok & Hd). exists s', (commit_ws start hb V). split; [exact Hok|clear Hok]. split; [exact Hd|]. split.
  - intros n Hn. rewrite Hd, commit_all. by apply cleared_home.
  - intros k me' sb sr Hsb Hrb. pose proof (log_fits_nil start hb Hfits) as Hnil.
    destruct (commit_prefix start hb V d k) as [[Hk Heq]|[[Hk Heq]|[Hk Heq]]]; rewrite Heq in Hrb; (rewrite decide_True by done) || (rewrite decide_False by lia).
    + destruct (reboot_recovers me' sb start [] _ sr Hnil ltac:(cbn; unfold NBUF, MAXOPBLOCKS; lia) Hsb Hrb) as (s2 & Hok2 & Hd2).
      { rewrite uncommitted_block by (done || by left). done. }
      exists s2. split; [exact Hok2|clear Hok2]. intros n Hn. rewrite Hd2, recover_nil by done. apply uncommitted_block; [done|by right].
    + destruct (reboot_recovers me' sb start hb _ sr Hfits Hlen Hsb Hrb) as (s2 & Hok2 & Hd2); [by apply committed_header|].
      exists s2. split; [exact Hok2|clear Hok2]. intros n Hn. rewrite Hd2, recover_home by done. by apply committed_recovers.
    + destruct (reboot_recovers me' sb start [] _ sr Hnil ltac:(cbn; unfold NBUF, MAXOPBLOCKS; lia) Hsb Hrb) as (s2 & Hok2 & Hd2); [by apply cleared_lists|].
      exists s2. split; [exact Hok2|clear Hok2]. intros n Hn. rewrite Hd2, recover_nil by done. by apply cleared_home.
Qed.

(** Stopping recovery after [k] of its writes leaves the disk with the same
    recovered contents: the header still lists the blocks, and their copies
    in the log are intact, until the last write. *)
Lemma recover_prefix start hb d k :
  log_fits start hb -> Z.of_nat (length (dblock d start)) = BSIZE -> lists (dblock d start) hb ->
  let d' := do_writes (take k (recover_ws start hb d)) d in
  exists hb', (hb' = hb \/ hb' = []) /\ lists (dblock d' start) hb' /\
    forall n, ~ in_log start n -> apply_ws (install_ws start hb' (dblock d')) (dblock d') n = apply_ws (install_ws start hb (dblock d)) (dblock d) n.
Proof.
  intros Hfits Hsize Hlst d'. assert (length (install_ws start hb (dblock d)) = length hb) as Hl by apply length_imap.
  destruct (decide (k <= length hb)%nat) as [Hk|Hk].
  - assert (d' = do_writes (take k (install_ws start hb (dblock d))) d) as -> by (unfold d', recover_ws; rewrite take_app_le by lia; done).
    assert (forall n, n ∉ hb -> dblock (do_writes (take k (install_ws start hb (dblock d))) d) n = dblock d n) as Hsame.
    { intros n Hn. rewrite dblock_do_writes. apply apply_ws_ne. rewrite fmap_take, install_ws_blocks. by intros ?%take_elem. }
    assert (forall i h, hb !! i = Some h -> (h, dblock d (log_block start i)) ∈
      install_ws start hb (dblock (do_writes (take k (install_ws start hb (dblock d))) d))) as Hlog.
    { intros i h Hi. eapply list_elem_of_lookup_2. unfold install_ws at 1. rewrite list_lookup_imap, Hi. cbn. rewrite Hsame; [done|].
      intros Hin. eapply (log_block_home start hb Hfits i); [by eapply lookup_lt_Some|exact Hin|done]. }
    exists hb. split; [by left|]. split; [rewrite Hsame by (by apply (start_not_home start hb)); done|].
    intros n Hn. destruct (decide (n ∈ hb)) as [Hin|Hin].
    + apply list_elem_of_lookup in Hin as [i Hi]. rewrite (apply_ws_in _ _ n _ ltac:(rewrite install_ws_blocks; apply Hfits) (Hlog i n Hi)).
      symmetry. apply apply_ws_in; [rewrite install_ws_blocks; apply Hfits|]. eapply list_elem_of_lookup_2. unfold install_ws. by rewrite list_lookup_imap, Hi.
    + rewrite !apply_ws_ne by (by rewrite install_ws_blocks). by apply Hsame.
  - exists []. split; [by right|]. assert (d' = do_writes (recover_ws start hb d) d) as ->.
    { unfold d'. rewrite take_ge; [done|]. unfold recover_ws. rewrite length_app, Hl. cbn. lia. }
    split; [|intros n Hn; by apply recover_home].
    unfold recover_ws. rewrite do_writes_app, dblock_do_writes, (apply_ws_in [_] _ start (header (dblock d start) [])); [|cbn; apply NoDup_singleton|set_solver].
    by apply header_lists; [| |set_solver].
Qed.

(** C15: Recovery may itself be interrupted.  Restart on a disk whose header
    lists [hb], stop after any number of the writes recovery makes, restart
    once more: the second recovery returns and leaves, outside the log, the
    contents the first would have left. *)
Theorem recovery_idempotent me start hb sb d s :
  log_fits start hb -> (length hb < NBUF)%nat -> sb_logstart sb = start ->
  Z.of_nat (length (dblock d start)) = BSIZE -> lists (dblock d start) hb -> rebooted me d s ->
  exists s' ws, (binit;; initlog ROOTDEV sb) s = Ok tt s' /\ k_disk s' = do_writes ws d /\
    forall k me' sr, rebooted me' (do_writes (take k ws) d) sr ->
      exists s2, (binit;; initlog ROOTDEV sb) sr = Ok tt s2 /\ home_is start (k_disk s2) (dblock (k_disk s')).
Proof.
  intros Hfits Hlen Hsb Hsize Hlst Hrb. destruct (reboot_recovers me sb start hb d s Hfits Hlen Hsb Hrb Hlst) as (s' & Hok & Hd).
  exists s', (recover_ws start hb d). split; [exact Hok|clear Hok]. split; [exact Hd|]. intros k me' sr Hrb'.
  destruct (recover_prefix start hb d k Hfits Hsize Hlst) as (hb' & Hhb & Hlst' & Hhome).
  assert (log_fits start hb' /\ (length hb' < NBUF)%nat) as [Hfits' Hlen'].
  { destruct Hhb as [-> | ->]; [done|]. split; [by apply (log_fits_nil start hb)|]. cbn. unfold NBUF, MAXOPBLOCKS. lia. }
  destruct (reboot_recovers me' sb start hb' _ sr Hfits' Hlen' Hsb Hrb' Hlst') as (s2 & Hok2 & Hd2).
  exists s2. split; [exact Hok2|clear Hok2]. intros n Hn. rewrite Hd, Hd2, !recover_home by done. by apply Hhome.
Qed.

End crash.

(** ** Examples

    A disk that does what it is told at once, and a transaction of one block:
    block 100 gets a new first byte.  The log is at block 2. *)

Module Ramdisk.

Definition env : Env := {|
  swtch := mret tt;
  run := fun _ => mret tt;
  disk_rw := fun b w =>
    if w then modify (fun s => s <| k_disk ::= dwrite (b_blockno (bc_buf (k_bc s) b)) (b_data (bc_buf (k_bc s) b)) |>)
    else modify (fun s => s <| k_bc ::= fun bc => bc <| bc_buf ::= fun T =>
      <[b := (T b) <| b_data := dblock (k_disk s) (b_blockno (T b)) |>]> T |> |>);
  read_reg := fun _ => mret 0;
  plic_reg := mret 0;
  disk_intr := mret tt;
  disk_init := mret tt;
  sym_forkret := 0;
  sym_usertrap := 0;
  sym_kernelvec := 0;
  sym_uservec := 0;
  sym_userret := 0;
  junk := fun _ => 0;
|}.

Lemma disk_ok : @DiskOk env.
Proof. by split. Qed.

#[local] Existing Instances env disk_ok.

Definition blank : kdisk := mkDisk ∅ [].

(** A kernel that runs process 0, with disk [d] and the in-memory log [lg]. *)
Definition started (d : kdisk) (lg : klog) : K :=
  KDemo.k0 <| k_cpu := KDemo.cpu0 <| c_proc := Some 0%nat |> |> <| k_disk := d |> <| k_log := lg |>.

Lemma started_running d lg : running (started d lg) 0.
Proof. split; [by split; cbn|]. split; [done|]. intros p _. done. Qed.

Lemma started_rebooted d lg : rebooted 0 d (started d lg).
Proof. split; [apply started_running|done|]. intros b _. done. Qed.

(** The in-memory log that lists block 100. *)
Definition log1 : klog := mkLog false 2 LOGSIZE 0 0 ROOTDEV 1 (fun _ => 100).

Lemma log1_fits : log_fits 2 [100].
Proof.
  split; [unfold LOGSIZE, MAXOPBLOCKS; lia|cbn; unfold LOGSIZE, MAXOPBLOCKS; lia|apply NoDup_singleton|].
  intros h ->%list_elem_of_singleton. unfold in_log, LOGSIZE, MAXOPBLOCKS. lia.
Qed.

Lemma blank_lists : lists (dblock blank 2) [].
Proof. split; [done|]. by intros i h. Qed.

Definition newdata (l : list Z) : list Z := <[0%nat := 7]> l.

(** The block changed in the cache, pinned and released. *)
Lemma dirty : exists s, cache 0 (started blank log1) [100] [] (<[100 := newdata (dblock blank 100)]> (dblock blank)) blank s.
Proof.
  assert (@wp _ _ (@binit;; b ← @bread env ROOTDEV 100; upd_data b newdata;; bpin b;; brelse b)
    (fun _ s => cache 0 (started blank log1) [100] [] (<[100 := newdata (dblock blank 100)]> (dblock blank)) blank s) (started blank log1)) as Hwp.
  { refine (proj2 (wp_bind _ _ _ _) _). eapply wp_binit; [apply started_rebooted|]. intros s1 H1.
    apply wp_bind. eapply (cache_bread _ _ _ _ _ _ _ H1); [set_solver|right; cbn; unfold NBUF, MAXOPBLOCKS; lia|]. intros b s2 H2.
    apply wp_bind. eapply (cache_upd_data _ _ _ _ _ _ _ H2 b 100); [set_solver|]. intros s3 H3.
    apply wp_bind. eapply (cache_bpin _ _ _ _ _ _ _ H3 b 100); [set_solver|set_solver|]. intros s4 H4.
    eapply (cache_brelse _ _ _ _ _ _ _ H4 b 100 []); [done|left; set_solver|]. by intros s5 H5. }
  destruct (proj1 (wp_ok _ _ _) Hwp) as (_ & s & _ & HQ). by exists s.
Qed.

Lemma commit_crash_safe_witness :
  exists s s' ws, @commit env s = Ok tt s' /\ k_disk s' = do_writes ws blank /\
    forall k me' sb sr, sb_logstart sb = 2 -> rebooted me' (do_writes (take k ws) blank) sr ->
      exists s2, (binit;; @initlog env ROOTDEV sb) sr = Ok tt s2 /\
        home_is 2 (k_disk s2) (if decide (k <= 1)%nat then dblock blank else <[100 := newdata (dblock blank 100)]> (dblock blank)).
Proof.
  destruct dirty as [s Hs].
  destruct (@commit_crash_safe env disk_ok 0 2 [100] (started blank log1) (<[100 := newdata (dblock blank 100)]> (dblock blank)) blank s)
    as (s' & ws & Hok & Hd & _ & Hk).
  - apply log1_fits.
  - intros Heq. inversion Heq.
  - cbn. unfold NBUF, MAXOPBLOCKS. lia.
  - split; try reflexivity. intros i h Hi. apply list_lookup_singleton_Some in Hi as [-> <-]. reflexivity.
  - exact Hs.
  - intros n Hn. rewrite fn_insert_Z. case_decide; [set_solver|reflexivity].
  - rewrite fn_insert_Z. reflexivity.
  - apply blank_lists.
  - exists s, s', ws. exact (conj Hok (conj Hd Hk)).
Defined.

(** A disk on which the transaction has been committed and not installed. *)
Definition pending : kdisk :=
  do_writes [(3, newdata (dblock blank 100)); (2, header (dblock blank 2) [100])] blank.

Lemma pending_header : dblock pending 2 = header (dblock blank 2) [100].
Proof. unfold pending. rewrite dblock_do_writes. apply apply_ws_in; [cbn; do 2 (apply NoDup_cons; split; [set_solver|]); constructor|set_solver]. Qed.

Lemma recovery_idempotent_witness :
  exists s' ws, (binit;; @initlog env ROOTDEV (KDemo.sb0 <| sb_logstart := 2 |>)) (started pending log1) = Ok tt s' /\
    k_disk s' = do_writes ws pending /\
    forall k me' sr, rebooted me' (do_writes (take k ws) pending) sr ->
      exists s2, (binit;; @initlog env ROOTDEV (KDemo.sb0 <| sb_logstart := 2 |>)) sr = Ok tt s2 /\
        home_is 2 (k_disk s2) (dblock (k_disk s')).
Proof.
  destruct (@recovery_idempotent env disk_ok 0 2 [100] (KDemo.sb0 <| sb_logstart := 2 |>) pending (started pending log1)) as (s' & ws & Hok & Hd & Hk).
  - apply log1_fits.
  - cbn. unfold NBUF, MAXOPBLOCKS. lia.
  - reflexivity.
  - rewrite pending_header, length_header. reflexivity.
  - rewrite pending_header. apply header_lists; [reflexivity|cbn; unfold LOGSIZE, MAXOPBLOCKS; lia|].
    intros h Hh. apply list_elem_of_singleton in Hh. lia.
  - apply started_rebooted.
  - exists s', ws. exact (conj Hok (conj Hd Hk)).
Defined.

End Ramdisk.
