(* ===== verification/Virtio.v ===== *)
(** * Virtio: the disk driver, [kernel/virtio_disk.c]

    The driver shares a queue with the disk: a table of descriptors, the ring
    of chains it makes available, and the ring of chains the device has used.
    The device itself is not kernel code; what it does while the kernel runs
    other code is part of the surroundings ([swtch]). *)

From stdpp Require Import base list gmap functions strings.
From Stdlib Require Import ZArith Lia.
From S2P Require Import Prelude CMem Riscv Spinlock Kalloc Vm Que KState Printf Proc Bio.

(** ** [kernel/virtio.h] *)

(** The registers of the device, at their offsets from [VIRTIO0]. *)
Inductive mmio_reg :=
| VIRTIO_MMIO_MAGIC_VALUE | VIRTIO_MMIO_VERSION | VIRTIO_MMIO_DEVICE_ID | VIRTIO_MMIO_VENDOR_ID
| VIRTIO_MMIO_DEVICE_FEATURES | VIRTIO_MMIO_DRIVER_FEATURES | VIRTIO_MMIO_QUEUE_SEL | VIRTIO_MMIO_QUEUE_NUM_MAX
| VIRTIO_MMIO_QUEUE_NUM | VIRTIO_MMIO_QUEUE_READY | VIRTIO_MMIO_QUEUE_NOTIFY | VIRTIO_MMIO_INTERRUPT_STATUS
| VIRTIO_MMIO_INTERRUPT_ACK | VIRTIO_MMIO_STATUS | VIRTIO_MMIO_QUEUE_DESC_LOW | VIRTIO_MMIO_QUEUE_DESC_HIGH
| VIRTIO_MMIO_DRIVER_DESC_LOW | VIRTIO_MMIO_DRIVER_DESC_HIGH | VIRTIO_MMIO_DEVICE_DESC_LOW | VIRTIO_MMIO_DEVICE_DESC_HIGH.

Definition mmio_offset (r : mmio_reg) : Z :=
  match r with
  | VIRTIO_MMIO_MAGIC_VALUE => 0x000
  | VIRTIO_MMIO_VERSION => 0x004
  | VIRTIO_MMIO_DEVICE_ID => 0x008
  | VIRTIO_MMIO_VENDOR_ID => 0x00c
  | VIRTIO_MMIO_DEVICE_FEATURES => 0x010
  | VIRTIO_MMIO_DRIVER_FEATURES => 0x020
  | VIRTIO_MMIO_QUEUE_SEL => 0x030
  | VIRTIO_MMIO_QUEUE_NUM_MAX => 0x034
  | VIRTIO_MMIO_QUEUE_NUM => 0x038
  | VIRTIO_MMIO_QUEUE_READY => 0x044
  | VIRTIO_MMIO_QUEUE_NOTIFY => 0x050
  | VIRTIO_MMIO_INTERRUPT_STATUS => 0x060
  | VIRTIO_MMIO_INTERRUPT_ACK => 0x064
  | VIRTIO_MMIO_STATUS => 0x070
  | VIRTIO_MMIO_QUEUE_DESC_LOW => 0x080
  | VIRTIO_MMIO_QUEUE_DESC_HIGH => 0x084
  | VIRTIO_MMIO_DRIVER_DESC_LOW => 0x090
  | VIRTIO_MMIO_DRIVER_DESC_HIGH => 0x094
  | VIRTIO_MMIO_DEVICE_DESC_LOW => 0x0a0
  | VIRTIO_MMIO_DEVICE_DESC_HIGH => 0x0a4
  end.

(** The bits of its status register. *)
Inductive config_bit :=
| VIRTIO_CONFIG_S_ACKNOWLEDGE | VIRTIO_CONFIG_S_DRIVER | VIRTIO_CONFIG_S_DRIVER_OK | VIRTIO_CONFIG_S_FEATURES_OK.

Definition status_bit (r : config_bit) : Z :=
  match r with
  | VIRTIO_CONFIG_S_ACKNOWLEDGE => 1
  | VIRTIO_CONFIG_S_DRIVER => 2
  | VIRTIO_CONFIG_S_DRIVER_OK => 4
  | VIRTIO_CONFIG_S_FEATURES_OK => 8
  end.

(** The features it may offer, by the number of their bit. *)
Inductive feature :=
| VIRTIO_BLK_F_RO | VIRTIO_BLK_F_SCSI | VIRTIO_BLK_F_CONFIG_WCE | VIRTIO_BLK_F_MQ
| VIRTIO_F_ANY_LAYOUT | VIRTIO_RING_F_INDIRECT_DESC | VIRTIO_RING_F_EVENT_IDX.

Definition feature_bit (r : feature) : Z :=
  match r with
  | VIRTIO_BLK_F_RO => 5
  | VIRTIO_BLK_F_SCSI => 7
  | VIRTIO_BLK_F_CONFIG_WCE => 11
  | VIRTIO_BLK_F_MQ => 12
  | VIRTIO_F_ANY_LAYOUT => 27
  | VIRTIO_RING_F_INDIRECT_DESC => 28
  | VIRTIO_RING_F_EVENT_IDX => 29
  end.

Coercion mmio_offset : mmio_reg >-> Z.
Coercion status_bit : config_bit >-> Z.
Coercion feature_bit : feature >-> Z.

Definition VRING_DESC_F_NEXT : Z := 1.
Definition VRING_DESC_F_WRITE : Z := 2.

Definition VIRTIO_BLK_T_IN : Z := 0.
Definition VIRTIO_BLK_T_OUT : Z := 1.

(** ** What the driver meets

    [read_mmio r]: reading the device's register [r];
    [disk_at]: the address of [disk]; [data_at b]: that of the data of buffer
    [b]. *)
Class Vio := {
  read_mmio : mmio_reg -> M K Z;
  disk_at : Z;
  data_at : nat -> Z;
}.

(** The channels [&disk.free[0]] and [b]. *)
Definition chan_free : Z := 5.
Definition chan_disk (b : nat) : Z := 0x400 + Z.of_nat b.

Definition vd_lk : lens bool K :=
  Lens (fun s => vdisk_lock (k_vd s)) (fun b s => s <| k_vd ::= fun d => d <| vdisk_lock := b |> |>).

Definition upd_vd (f : vdisk -> vdisk) : M K unit := modify (fun s => s <| k_vd ::= f |>).
Definition upd_desc (i : Z) (f : virtq_desc -> virtq_desc) : M K unit :=
  upd_vd (fun d => d <| vq_desc ::= fun t => <[i := f (t i)]> t |>).
Definition write_mmio (r : mmio_reg) (v : Z) : M K unit :=
  upd_vd (fun d => d <| vd_mmio ::= cons (VIRTIO0 + r, u32 v) |>).

#[export] Hint Unfold upd_vd upd_desc write_mmio : xv6_op.

(** An index into one of the arrays of [NUM] elements. *)
Definition in_num (i : Z) : M K unit := if (0 <=? i) && (i <? NUM) then mret tt else fault.

Definition nums : list Z := [0; 1; 2; 3; 4; 5; 6; 7].

Section virtio.
Context `{L : Layout} `{E : Env} `{V : Vio}.

(** [&disk.ops[i]] and [&disk.info[i].status]. *)
Definition ops_at (i : Z) : Z := disk_at + 168 + 16 * i.
Definition status_at (i : Z) : Z := disk_at + 40 + 16 * i + 8.

Definition without (features : Z) (bit : feature) : Z := Z.land features (u64 (Z.lnot (Z.shiftl 1 bit))).

Definition virtio_disk_init : M K unit :=
  initlock vd_lk;;
  magic ← read_mmio VIRTIO_MMIO_MAGIC_VALUE;
  if negb (magic =? 0x74726976) then panic "could not find virtio disk" else
  version ← read_mmio VIRTIO_MMIO_VERSION;
  if negb (version =? 2) then panic "could not find virtio disk" else
  device ← read_mmio VIRTIO_MMIO_DEVICE_ID;
  if negb (device =? 2) then panic "could not find virtio disk" else
  vendor ← read_mmio VIRTIO_MMIO_VENDOR_ID;
  if negb (vendor =? 0x554d4551) then panic "could not find virtio disk" else
  let status := 0 in
  write_mmio VIRTIO_MMIO_STATUS status;;
  let status := Z.lor status VIRTIO_CONFIG_S_ACKNOWLEDGE in
  write_mmio VIRTIO_MMIO_STATUS status;;
  let status := Z.lor status VIRTIO_CONFIG_S_DRIVER in
  write_mmio VIRTIO_MMIO_STATUS status;;
  features ← read_mmio VIRTIO_MMIO_DEVICE_FEATURES;
  let features := without features VIRTIO_BLK_F_RO in
  let features := without features VIRTIO_BLK_F_SCSI in
  let features := without features VIRTIO_BLK_F_CONFIG_WCE in
  let features := without features VIRTIO_BLK_F_MQ in
  let features := without features VIRTIO_F_ANY_LAYOUT in
  let features := without features VIRTIO_RING_F_EVENT_IDX in
  let features := without features VIRTIO_RING_F_INDIRECT_DESC in
  write_mmio VIRTIO_MMIO_DRIVER_FEATURES features;;
  let status := Z.lor status VIRTIO_CONFIG_S_FEATURES_OK in
  write_mmio VIRTIO_MMIO_STATUS status;;
  status ← read_mmio VIRTIO_MMIO_STATUS;
  if Z.land status VIRTIO_CONFIG_S_FEATURES_OK =? 0 then panic "virtio disk FEATURES_OK unset" else
  write_mmio VIRTIO_MMIO_QUEUE_SEL 0;;
  ready ← read_mmio VIRTIO_MMIO_QUEUE_READY;
  if negb (ready =? 0) then panic "virtio disk should not be ready" else
  max ← read_mmio VIRTIO_MMIO_QUEUE_NUM_MAX;
  if max =? 0 then panic "virtio disk has no queue 0" else
  if max <? NUM then panic "virtio disk max queue too short" else
  desc ← vm kalloc;
  upd_vd (fun d => d <| vd_desc := desc |>);;
  avail ← vm kalloc;
  upd_vd (fun d => d <| vd_avail := avail |>);;
  used ← vm kalloc;
  upd_vd (fun d => d <| vd_used := used |>);;
  if (desc =? 0) || (avail =? 0) || (used =? 0) then panic "virtio disk kalloc" else
  vm (memset_at desc 0 PGSIZE);;
  upd_vd (fun d => d <| vq_desc := fun _ => mkDesc 0 0 0 0 |>);;
  vm (memset_at avail 0 PGSIZE);;
  upd_vd (fun d => d <| vq_avail := mkAvail 0 0 (fun _ => 0) |>);;
  vm (memset_at used 0 PGSIZE);;
  upd_vd (fun d => d <| vq_used := mkUsed 0 0 (fun _ => (0, 0)) |>);;
  write_mmio VIRTIO_MMIO_QUEUE_NUM NUM;;
  write_mmio VIRTIO_MMIO_QUEUE_DESC_LOW desc;;
  write_mmio VIRTIO_MMIO_QUEUE_DESC_HIGH (Z.shiftr desc 32);;
  write_mmio VIRTIO_MMIO_DRIVER_DESC_LOW avail;;
  write_mmio VIRTIO_MMIO_DRIVER_DESC_HIGH (Z.shiftr avail 32);;
  write_mmio VIRTIO_MMIO_DEVICE_DESC_LOW used;;
  write_mmio VIRTIO_MMIO_DEVICE_DESC_HIGH (Z.shiftr used 32);;
  write_mmio VIRTIO_MMIO_QUEUE_READY 0x1;;
  for_each nums (fun i => upd_vd (fun d => d <| vd_free ::= <[i := 1]> |>));;
  let status := Z.lor status VIRTIO_CONFIG_S_DRIVER_OK in
  write_mmio VIRTIO_MMIO_STATUS status.

Definition alloc_desc : M K Z :=
  r ← for_first nums (fun i =>
    d ← gets k_vd;
    if vd_free d i =? 0 then mret None else
    upd_vd (fun d => d <| vd_free ::= <[i := 0]> |>);;
    mret (Some i));
  mret (default (-1) r).

Definition free_desc (i : Z) : M K unit :=
  if NUM <=? i then panic "free_desc 1" else
  in_num i;;
  d ← gets k_vd;
  if negb (vd_free d i =? 0) then panic "free_desc 2" else
  upd_desc i (fun x => x <| dc_addr := 0 |>);;
  upd_desc i (fun x => x <| dc_len := 0 |>);;
  upd_desc i (fun x => x <| dc_flags := 0 |>);;
  upd_desc i (fun x => x <| dc_next := 0 |>);;
  upd_vd (fun d => d <| vd_free ::= <[i := 1]> |>);;
  wakeup chan_free.

Definition free_chain (i : Z) : M K unit :=
  while (fun i =>
    d ← gets k_vd;
    let flag := dc_flags (vq_desc d i) in
    let nxt := dc_next (vq_desc d i) in
    free_desc i;;
    if negb (Z.land flag VRING_DESC_F_NEXT =? 0) then mret (inl nxt) else mret (inr tt)) i.

(** The array [idx] after a success, [None] for [-1]. *)
Definition alloc3_desc : M K (option (list Z)) :=
  r ← for_st [0; 1; 2] (fun _ idx =>
    i ← alloc_desc;
    if i <? 0 then for_each idx free_desc;; mret (inr tt)
    else mret (inl (idx ++ [i]))) [];
  match r with inl idx => mret (Some idx) | inr _ => mret None end.

(** Formatting the three descriptors of a request and passing it to the
    device, the middle of [virtio_disk_rw]. *)
Definition virtio_send (b : nat) (write sector : Z) (idx : list Z) : M K unit :=
  let idx0 := nth 0 idx 0 in
  let idx1 := nth 1 idx 0 in
  let idx2 := nth 2 idx 0 in
  in_num idx0;; in_num idx1;; in_num idx2;;
  upd_vd (fun d => d <| vd_ops ::= fun t => <[idx0 :=
    (t idx0) <| rq_type := if write =? 0 then VIRTIO_BLK_T_IN else VIRTIO_BLK_T_OUT |>]> t |>);;
  upd_vd (fun d => d <| vd_ops ::= fun t => <[idx0 := (t idx0) <| rq_reserved := 0 |>]> t |>);;
  upd_vd (fun d => d <| vd_ops ::= fun t => <[idx0 := (t idx0) <| rq_sector := sector |>]> t |>);;
  upd_desc idx0 (fun x => x <| dc_addr := ops_at idx0 |>);;
  upd_desc idx0 (fun x => x <| dc_len := 16 |>);;
  upd_desc idx0 (fun x => x <| dc_flags := VRING_DESC_F_NEXT |>);;
  upd_desc idx0 (fun x => x <| dc_next := u16 idx1 |>);;
  upd_desc idx1 (fun x => x <| dc_addr := data_at b |>);;
  upd_desc idx1 (fun x => x <| dc_len := BSIZE |>);;
  upd_desc idx1 (fun x => x <| dc_flags := if write =? 0 then VRING_DESC_F_WRITE else 0 |>);;
  upd_desc idx1 (fun x => x <| dc_flags ::= fun f => Z.lor f VRING_DESC_F_NEXT |>);;
  upd_desc idx1 (fun x => x <| dc_next := u16 idx2 |>);;
  upd_vd (fun d => d <| vd_info_status ::= <[idx0 := 0xff]> |>);;
  upd_desc idx2 (fun x => x <| dc_addr := status_at idx0 |>);;
  upd_desc idx2 (fun x => x <| dc_len := 1 |>);;
  upd_desc idx2 (fun x => x <| dc_flags := VRING_DESC_F_WRITE |>);;
  upd_desc idx2 (fun x => x <| dc_next := 0 |>);;
  upd_buf b (fun x => x <| b_disk := 1 |>);;
  upd_vd (fun d => d <| vd_info_b ::= <[idx0 := Some b]> |>);;
  upd_vd (fun d => d <| vq_avail ::= fun a => a <| av_ring ::= <[av_idx a mod NUM := u16 idx0]> |> |>);;
  upd_vd (fun d => d <| vq_avail ::= fun a => a <| av_idx ::= fun i => u16 (i + 1) |> |>);;
  write_mmio VIRTIO_MMIO_QUEUE_NOTIFY 0.

(** The end of a request whose chain starts at [i]. *)
Definition virtio_finish (i : Z) : M K unit :=
  upd_vd (fun d => d <| vd_info_b ::= <[i := None]> |>);;
  free_chain i.

Definition virtio_disk_rw (b : nat) (write : Z) : M K unit :=
  x ← get_buf b;
  let sector := u32 (b_blockno x * (BSIZE / 512)) in
  acquire vd_lk;;
  idx ← while (fun _ : unit =>
    r ← alloc3_desc;
    match r with
    | Some idx => mret (inr idx)
    | None => sleep chan_free vd_lk;; mret (inl tt)
    end) tt;
  virtio_send b write sector idx;;
  while (fun _ : unit =>
    x ← get_buf b;
    if b_disk x =? 1 then sleep (chan_disk b) vd_lk;; mret (inl tt) else mret (inr tt)) tt;;
  virtio_finish (nth 0 idx 0);;
  release vd_lk.

Definition virtio_disk_intr : M K unit :=
  acquire vd_lk;;
  status ← read_mmio VIRTIO_MMIO_INTERRUPT_STATUS;
  write_mmio VIRTIO_MMIO_INTERRUPT_ACK (Z.land status 0x3);;
  while (fun _ : unit =>
    d ← gets k_vd;
    if vd_used_idx d =? us_idx (vq_used d) then mret (inr tt) else
    let id := i32 (fst (us_ring (vq_used d) (vd_used_idx d mod NUM))) in
    in_num id;;
    if negb (vd_info_status d id =? 0) then panic "virtio_disk_intr status" else
    b ← deref (vd_info_b d id);
    upd_buf b (fun x => x <| b_disk := 0 |>);;
    wakeup (chan_disk b);;
    upd_vd (fun d => d <| vd_used_idx ::= fun i => u16 (i + 1) |>);;
    mret (inl tt)) tt;;
  release vd_lk.

End virtio.
