(* ===== verification/VirtioSpec.v ===== *)
(** * VirtioSpec: the protocol of the disk driver

    Descriptors are handed out in chains of three, one chain for each request
    in flight.  The driver's two halves, [virtio_disk_rw] and
    [virtio_disk_intr], and the device keep an invariant that ties the
    descriptors, the rings and the buffers to the requests in flight. *)

From stdpp Require Import base list gmap functions strings.
From Stdlib Require Import ZArith Lia.
From S2P Require Import Prelude CMem Riscv Spinlock Kalloc Vm Que KState Printf Proc KWp KDemo Bio Virtio.

#[export] Instance vd_lk_ok : LockOk vd_lk.
Proof. by split. Qed.

(** ** What the queue operations leave alone *)

(** [t'] is [t] but for sleepers that have been woken. *)
Definition wakes (me : option nat) (t t' : nat -> proc) : Prop :=
  forall q, t' q = t q \/ (Some q <> me /\ p_state (t q) = SLEEPING /\ t' q = (t q) <| p_state := RUNNABLE |>).

#[export] Instance wakes_preorder me : PreOrder (wakes me).
Proof.
  split; [intros t q; by left|]. intros t t' t'' H H' q.
  destruct (H q) as [E|(Hq & Hs & E)], (H' q) as [E'|(Hq' & Hs' & E')]; rewrite E', E in *; auto.
Qed.

Record vrel (s s' : K) : Prop := {
  vr_cpu : ceq (k_cpu s) (k_cpu s');
  vr_wakes : wakes (c_proc (k_cpu s)) (k_proc s) (k_proc s');
  vr_queue : k_vd s' = k_vd s <| vd_free := vd_free (k_vd s') |> <| vq_desc := vq_desc (k_vd s') |>;
  vr_rest : s' = s <| k_vd := k_vd s' |> <| k_proc := k_proc s' |> <| k_cpu := k_cpu s' |>;
}.

#[export] Instance vrel_preorder : PreOrder vrel.
Proof.
  split.
  - intros s. split; [done|done|by destruct (k_vd s)|by destruct s].
  - intros s s' s'' [C1 W1 Q1 R1] [C2 W2 Q2 R2]. split.
    + by etrans.
    + assert (c_proc (k_cpu s') = c_proc (k_cpu s)) as Ep by apply C1. rewrite Ep in W2. by etrans.
    + rewrite Q2, Q1. done.
    + rewrite R2, R1. done.
Qed.

Lemma vrel_queue s f g :
  vrel s (s <| k_vd ::= fun d => d <| vd_free := f |> <| vq_desc := g |> |>).
Proof. split; [done|intros q; by left|done|done]. Qed.

(** The CPU and the process locks are such that [wakeup] can run. *)
Definition can_wake (s : K) : Prop := cpu_ok (k_cpu s) /\ locks_free (c_proc (k_cpu s)) (k_proc s).

Lemma vrel_can_wake s s' : vrel s s' -> can_wake s -> can_wake s'.
Proof.
  intros [C W _ _] [Hc Hl]. split; [by eapply ceq_ok|]. intros p Hp Hme.
  assert (c_proc (k_cpu s') = c_proc (k_cpu s)) as Ep by apply C. rewrite Ep in Hme.
  destruct (W p) as [->|(_ & _ & ->)]; [|rsimpl]; by apply Hl.
Qed.

Lemma woken_wakes chan me t t' :
  (forall p, t' p = if decide (p < NPROC)%nat then woken chan me p (t p) else t p) -> wakes me t t'.
Proof.
  intros H p. rewrite H. case_decide; [|by left]. unfold woken. case_bool_decide; [by left|].
  destruct (bool_decide _) eqn:E; [|by left]. apply bool_decide_eq_true in E. cbn [andb].
  destruct (p_chan (t p) =? chan); [by right|by left].
Qed.

Lemma wp_wake chan s (Q : unit -> K -> Prop) :
  can_wake s ->
  (forall s', vrel s s' -> k_vd s' = k_vd s ->
     (forall p, (p < NPROC)%nat -> k_proc s' p = woken chan (c_proc (k_cpu s)) p (k_proc s p)) -> Q tt s') ->
  wp (wakeup chan) Q s.
Proof.
  intros [Hc Hl] HQ. apply wp_wakeup; [done|done|]. intros t c Hcc Ht.
  apply HQ; [|done|intros p Hp; ksimpl; by rewrite Ht, decide_True].
  split; [done|by eapply woken_wakes|by destruct s as [], k_vd|by destruct s].
Qed.

(** ** Descriptors *)

(** [B] are the descriptors in use. *)
Definition frees (d : vdisk) (B : list Z) : Prop :=
  forall i, 0 <= i < NUM -> vd_free d i = if decide (i ∈ B) then 0 else 1.

Lemma elem_nums i : i ∈ nums <-> 0 <= i < NUM.
Proof.
  unfold nums, NUM. split.
  - rewrite !elem_of_cons, elem_of_nil. lia.
  - intros Hi. assert (i = 0 \/ i = 1 \/ i = 2 \/ i = 3 \/ i = 4 \/ i = 5 \/ i = 6 \/ i = 7) as H by lia.
    rewrite !elem_of_cons. tauto.
Qed.

Section spec.
Context {L : Layout} {E : Env} {V : Vio}.

Lemma wp_alloc_desc s B :
  frees (k_vd s) B ->
  wp alloc_desc (fun i s' => vrel s s' /\ vq_desc (k_vd s') = vq_desc (k_vd s) /\
    ((i = -1 /\ frees (k_vd s') B /\ forall j, 0 <= j < NUM -> j ∈ B) \/
     (0 <= i < NUM /\ i ∉ B /\ frees (k_vd s') (i :: B)))) s.
Proof.
  intros HB. unfold alloc_desc. apply wp_bind.
  apply (wp_for_first (fun dn s' => s' = s /\ forall i, i ∈ dn -> i ∈ B)).
  - intros dn i todo s' Hl [-> Hdn].
    assert (0 <= i < NUM) as Hi by (apply elem_nums; rewrite Hl; apply elem_of_app; right; left).
    wp_steps. rewrite (HB i Hi). destruct (decide (i ∈ B)) as [Hin|Hin].
    + cbn. wp_steps. split; [done|]. intros j. rewrite elem_of_app, list_elem_of_singleton. intros [?| ->]; auto.
    + change (1 =? 0) with false. cbv iota. wp_steps. cbn [default].
      split; [|split; [done|right; split; [done|split; [done|]]]].
      * eapply transitivity; [apply (vrel_queue s (<[i:=0]> (vd_free (k_vd s))) (vq_desc (k_vd s)))|].
        split; [done|intros q; by left|done|done].
      * intros j Hj. rsimpl. destruct (decide (j = i)) as [->|Hne].
        -- rewrite fn_lookup_insert, decide_True by left. done.
        -- rewrite fn_lookup_insert_ne by done. rewrite (HB j Hj). apply decide_ext. rewrite elem_of_cons. tauto.
  - split; [done|]. intros i Hi. by apply elem_of_nil in Hi.
  - intros s' [-> H]. wp_steps. cbn [default]. split; [done|]. split; [done|]. left. split; [done|]. split; [done|].
    intros j Hj. by apply H, elem_nums.
Qed.

Lemma in_num_ok i (Q : unit -> K -> Prop) s : 0 <= i < NUM -> Q tt s -> wp (in_num i) Q s.
Proof.
  intros Hi HQ. unfold in_num. destruct (Z.leb_spec 0 i); [|lia]. destruct (Z.ltb_spec i NUM); [done|lia].
Qed.

Lemma wp_free_desc s B i :
  can_wake s -> 0 <= i < NUM -> i ∉ B -> frees (k_vd s) (i :: B) ->
  wp (free_desc i) (fun _ s' => vrel s s' /\ frees (k_vd s') B /\
    forall j, j <> i -> vq_desc (k_vd s') j = vq_desc (k_vd s) j) s.
Proof.
  intros Hw Hi Hn HB. unfold free_desc. destruct (Z.leb_spec NUM i); [lia|].
  apply wp_bind, in_num_ok; [done|]. wp_steps.
  rewrite (HB i Hi), decide_True by left. cbn [negb Z.eqb]. cbv iota. wp_steps.
  match goal with |- wp _ _ ?x => set (s1 := x) end.
  assert (vrel s s1) as H1 by (split; [done|intros q; by left|done|done]).
  assert (frees (k_vd s1) B) as HB1.
  { intros j Hj. change (vd_free (k_vd s1)) with (<[i := 1]> (vd_free (k_vd s))).
    destruct (decide (j = i)) as [->|Hne].
    - rewrite fn_lookup_insert. by rewrite decide_False.
    - rewrite fn_lookup_insert_ne by done. rewrite (HB j Hj). apply decide_ext. rewrite elem_of_cons. tauto. }
  assert (forall j, j <> i -> vq_desc (k_vd s1) j = vq_desc (k_vd s) j) as Hd.
  { intros j Hj. unfold s1. rsimpl. by rewrite !fn_lookup_insert_ne by done. }
  clearbody s1. apply wp_wake; [by eapply vrel_can_wake|]. intros s' H' Ed _. rewrite Ed.
  split; [by etrans|]. done.
Qed.

Lemma frees_perm d B B' : B ≡ₚ B' -> frees d B -> frees d B'.
Proof. intros Hp H i Hi. rewrite (H i Hi). apply decide_ext. by rewrite Hp. Qed.

Lemma wp_free_descs s B l :
  can_wake s -> Forall (fun i => 0 <= i < NUM) l -> NoDup (l ++ B) -> frees (k_vd s) (l ++ B) ->
  wp (for_each l free_desc) (fun _ s' => vrel s s' /\ frees (k_vd s') B /\
    forall j, j ∉ l -> vq_desc (k_vd s') j = vq_desc (k_vd s) j) s.
Proof.
  revert s. induction l as [|i l IH]; intros s Hw Hr Hn HB; cbn [for_each].
  { apply wp_ret. done. }
  apply Forall_cons in Hr as [Hi Hr]. cbn in Hn. apply NoDup_cons in Hn as [Hni Hn].
  apply wp_bind. eapply wp_mono; [by apply (wp_free_desc s (l ++ B))|]. intros _ s1 (H1 & HB1 & Hd1).
  eapply wp_mono; [apply IH; [by eapply vrel_can_wake|done|done|done]|]. intros _ s2 (H2 & HB2 & Hd2).
  split; [by etrans|]. split; [done|]. intros j. rewrite not_elem_of_cons. intros [Hne Hj]. by rewrite Hd2, Hd1.
Qed.

(** All of the table in use: at least [8 - n] of it by others. *)
Lemma full_length l B : (forall j, 0 <= j < NUM -> j ∈ l ++ B) -> (8 <= length l + length B)%nat.
Proof.
  intros H. rewrite <- length_app. change 8%nat with (length nums). apply submseteq_length, NoDup_submseteq.
  - by apply (bool_decide_eq_true_1 _).
  - intros j Hj. by apply H, elem_nums.
Qed.

Record alloc3_post (s : K) (B : list Z) (r : option (list Z)) (s' : K) : Prop := {
  a3_rel : vrel s s';
  a3_desc : forall j, j ∈ B -> vq_desc (k_vd s') j = vq_desc (k_vd s) j;
  a3_res :
    match r with
    | Some idx => length idx = 3%nat /\ Forall (fun i => 0 <= i < NUM) idx /\ NoDup (idx ++ B) /\ frees (k_vd s') (idx ++ B)
    | None => frees (k_vd s') B /\ (6 <= length B)%nat
    end;
}.

Lemma wp_alloc3_desc s B :
  can_wake s -> NoDup B -> frees (k_vd s) B -> wp alloc3_desc (alloc3_post s B) s.
Proof.
  intros Hw HnB HB. unfold alloc3_desc. apply wp_bind.
  apply (wp_for_st (fun dn idx s' => vrel s s' /\ vq_desc (k_vd s') = vq_desc (k_vd s) /\
    length idx = length dn /\ Forall (fun i => 0 <= i < NUM) idx /\ NoDup (idx ++ B) /\ frees (k_vd s') (idx ++ B))).
  - intros dn x todo idx s1 Hl (H1 & Hd & Hlen & Hr & Hn & Hf).
    assert (length dn <= 2)%nat as Hle by (apply (f_equal length) in Hl; rewrite length_app in Hl; cbn in Hl; lia).
    apply wp_bind. eapply wp_mono; [by apply (wp_alloc_desc s1 (idx ++ B))|].
    intros i s2 (H2 & Hd2 & [(-> & Hf2 & Hall)|(Hi & Hni & Hf2)]).
    + cbn [Z.ltb Z.compare]. apply wp_bind. eapply wp_mono.
      { apply (wp_free_descs s2 B idx); [|done|done|done]. eapply vrel_can_wake; [|done]. by etrans. }
      intros _ s3 (H3 & Hf3 & Hd3). wp_steps. split; [by do 2 (etrans; [done|])| |].
      * intros j Hj. rewrite Hd3, Hd2, Hd; [done|]. apply NoDup_app in Hn as (_ & Hn & _). intros Hj'. by apply (Hn j).
      * split; [done|]. apply full_length in Hall. lia.
    + destruct (Z.ltb_spec i 0); [lia|]. wp_steps. rewrite Hd2, <- app_assoc, !length_app. cbn [app length].
      assert (i :: idx ++ B ≡ₚ idx ++ i :: B) as Hp by apply Permutation_middle.
      split; [by etrans|]. split; [done|]. split; [lia|]. split; [by apply Forall_app; auto|].
      split; [rewrite <- Hp; by apply NoDup_cons|by eapply frees_perm].
  - split; [done|]. split; [done|]. split; [done|]. split; [by apply Forall_nil|done].
  - intros idx s' (H1 & Hd & Hlen & Hr & Hn & Hf). wp_steps. split; [done| |done]. intros j _. by rewrite Hd.
Qed.

(** ** Chains *)

(** The descriptors [l] are linked in this order. *)
Fixpoint linked (d : vdisk) (l : list Z) : Prop :=
  match l with
  | [] => False
  | i :: l' =>
      match l' with
      | [] => Z.land (dc_flags (vq_desc d i)) VRING_DESC_F_NEXT = 0
      | j :: _ => Z.land (dc_flags (vq_desc d i)) VRING_DESC_F_NEXT <> 0 /\ dc_next (vq_desc d i) = j /\ linked d l'
      end
  end.

Lemma linked_ext d d' l :
  (forall i, i ∈ l -> vq_desc d' i = vq_desc d i) -> linked d l -> linked d' l.
Proof.
  induction l as [|i l IH]; [done|]. intros Hd. cbn [linked]. rewrite (Hd i) by left.
  destruct l as [|j l]; [done|]. intros (? & ? & ?). split; [done|]. split; [done|]. apply IH; [|done].
  intros x Hx. apply Hd. by right.
Qed.

Lemma wp_free_chain s B l :
  can_wake s -> Forall (fun i => 0 <= i < NUM) l -> NoDup (l ++ B) -> frees (k_vd s) (l ++ B) -> linked (k_vd s) l ->
  Z.of_nat (length l) < 2 ^ 64 ->
  wp (free_chain (nth 0 l 0)) (fun _ s' => vrel s s' /\ frees (k_vd s') B /\
    forall j, j ∉ l -> vq_desc (k_vd s') j = vq_desc (k_vd s) j) s.
Proof.
  intros Hw Hr Hn Hf Hl Hlen. unfold free_chain.
  apply (wp_while_idx (fun n i s1 => exists l1, n = length l1 /\ i = nth 0 l1 0 /\ l1 ⊆ l /\ vrel s s1 /\
    Forall (fun i => 0 <= i < NUM) l1 /\ NoDup (l1 ++ B) /\ frees (k_vd s1) (l1 ++ B) /\ linked (k_vd s1) l1 /\
    forall j, j ∉ l -> vq_desc (k_vd s1) j = vq_desc (k_vd s) j) _ _ (length l)).
  - intros n i s1 (l1 & -> & -> & Hsub & H1 & Hr1 & Hn1 & Hf1 & Hl1 & Hd1).
    destruct l1 as [|i l1]; [done|]. cbn [nth]. cbn in Hn1. apply NoDup_cons in Hn1 as [Hni Hn1].
    apply Forall_cons in Hr1 as [Hi Hr1]. wp_steps. eapply wp_mono.
    { apply (wp_free_desc s1 (l1 ++ B)); [by eapply vrel_can_wake|done|done|done]. }
    intros _ s2 (H2 & Hf2 & Hd2). assert (vrel s s2) as H02 by (by etrans).
    assert (forall j, j ∉ l -> vq_desc (k_vd s2) j = vq_desc (k_vd s) j) as Hd02.
    { intros j Hj. rewrite Hd2, Hd1; [done|done|]. intros ->. apply Hj, Hsub. left. }
    destruct l1 as [|j l1]; cbn [linked] in Hl1.
    + rewrite Hl1. cbn. done.
    + destruct Hl1 as (Hne & -> & Hl1). apply Z.eqb_neq in Hne. rewrite Hne. cbn [negb]. wp_steps.
      exists (length (j :: l1)). split; [cbn; lia|]. exists (j :: l1). repeat (split; [done|]).
      split; [intros x Hx; apply Hsub; by right|]. repeat (split; [done|]). split; [|done].
      eapply linked_ext; [|exact Hl1]. intros x Hx. apply Hd2. intros ->. apply Hni, elem_of_app. by left.
  - exists l. repeat (split; [done|]). done.
  - by apply lt_fuel.
Qed.

(** ** A request on its way to the device *)

Definition req_flags (write : Z) : Z := Z.lor (if write =? 0 then VRING_DESC_F_WRITE else 0) VRING_DESC_F_NEXT.

(** What [virtio_send] has set up when it notifies the device: the chain
    [i], [j], [k] is the request, the data and the status byte. *)
Record sent (s : K) (b : nat) (write sector i j k : Z) (s' : K) : Prop := {
  se_rest : s' = s <| k_vd := k_vd s' |> <| k_bc := k_bc s' |>;
  se_bc : k_bc s' = k_bc s <| bc_buf := bc_buf (k_bc s') |>;
  se_buf q : bc_buf (k_bc s') q = if decide (q = b) then (bc_buf (k_bc s) b) <| b_disk := 1 |> else bc_buf (k_bc s) q;
  se_free : vd_free (k_vd s') = vd_free (k_vd s);
  se_used_idx : vd_used_idx (k_vd s') = vd_used_idx (k_vd s);
  se_used : vq_used (k_vd s') = vq_used (k_vd s);
  se_lock : vdisk_lock (k_vd s') = vdisk_lock (k_vd s);
  se_info_b x : vd_info_b (k_vd s') x = if decide (x = i) then Some b else vd_info_b (k_vd s) x;
  se_status x : vd_info_status (k_vd s') x = if decide (x = i) then 0xff else vd_info_status (k_vd s) x;
  se_op : vd_ops (k_vd s') i = mkReq (if write =? 0 then VIRTIO_BLK_T_IN else VIRTIO_BLK_T_OUT) 0 sector;
  se_desc0 : vq_desc (k_vd s') i = mkDesc (ops_at i) 16 VRING_DESC_F_NEXT j;
  se_desc1 : vq_desc (k_vd s') j = mkDesc (data_at b) BSIZE (req_flags write) k;
  se_desc2 : vq_desc (k_vd s') k = mkDesc (status_at i) 1 VRING_DESC_F_WRITE 0;
  se_desc x : x ∉ [i; j; k] -> vq_desc (k_vd s') x = vq_desc (k_vd s) x;
  se_avail_idx : av_idx (vq_avail (k_vd s')) = u16 (av_idx (vq_avail (k_vd s)) + 1);
  se_avail x : av_ring (vq_avail (k_vd s')) x =
    if decide (x = av_idx (vq_avail (k_vd s)) mod NUM) then i else av_ring (vq_avail (k_vd s)) x;
}.

Lemma u16_small x : 0 <= x < NUM -> u16 x = x.
Proof. intros H. unfold u16, NUM in *. apply Z.mod_small. lia. Qed.

Lemma fn_insert_at {A B} `{EqDecision A} (f : A -> B) a b x :
  (<[a := b]> f) x = if decide (x = a) then b else f x.
Proof. case_decide as Hx; [subst; apply fn_lookup_insert|by apply fn_lookup_insert_ne]. Qed.

Lemma wp_upd_desc i f (Q : unit -> K -> Prop) s :
  (forall g, (forall x, g x = if decide (x = i) then f (vq_desc (k_vd s) i) else vq_desc (k_vd s) x) ->
     Q tt (s <| k_vd ::= fun d => d <| vq_desc := g |> |>)) ->
  wp (upd_desc i f) Q s.
Proof. intros H. unfold upd_desc, upd_vd. apply wp_modify, H. intros x. apply fn_insert_at. Qed.

(** The four fields of a descriptor, set one by one. *)
Lemma wp_set_desc i f1 f2 f3 f4 (m : M K unit) (Q : unit -> K -> Prop) s :
  (forall g, (forall x, g x = if decide (x = i) then f4 (f3 (f2 (f1 (vq_desc (k_vd s) i)))) else vq_desc (k_vd s) x) ->
     wp m Q (s <| k_vd ::= fun d => d <| vq_desc := g |> |>)) ->
  wp (upd_desc i f1;; upd_desc i f2;; upd_desc i f3;; upd_desc i f4;; m) Q s.
Proof.
  intros H. do 4 (apply wp_bind, wp_upd_desc; intros ? ?). rsimpl_in H1. rsimpl_in H2. rsimpl_in H3.
  apply (H g2). intros x. rewrite H3, !H2, !H1, !H0.
  assert (forall X (a b : X), (if decide (i = i) then a else b) = a) as Et by (intros; by rewrite decide_True).
  rewrite !Et. by destruct (decide (x = i)).
Qed.

Lemma wp_modify_ret f (Q : unit -> K -> Prop) s : wp (mret tt) Q (f s) -> wp (modify f) Q s.
Proof. done. Qed.

(** Updates of a state given field by field. *)
Ltac vnorm :=
  lazymatch goal with
  | |- wp ?m ?Q ?st =>
      let st' := eval cbv beta iota zeta delta [set_field k_vm k_cpu k_csr k_proc k_initproc k_nextpid k_pid_lock
        k_wait_lock k_ticks k_tickslock k_mlfqs k_rand k_first k_ft k_it k_bc k_log k_disk k_vd k_con k_kpgtbl k_started
        vd_desc vd_avail vd_used vd_free vd_used_idx vd_info_b vd_info_status vd_ops vdisk_lock vq_desc vq_avail vq_used
        vd_mmio av_flags av_idx av_ring bc_lock bc_buf] in st in
      change (wp m Q st')
  end.

Lemma wp_virtio_send s b write sector i j k :
  Forall (fun i => 0 <= i < NUM) [i; j; k] -> NoDup [i; j; k] ->
  wp (virtio_send b write sector [i; j; k]) (fun _ s' => sent s b write sector i j k s') s.
Proof.
  intros Hr Hn. apply Forall_cons in Hr as [Hi Hr]. apply Forall_cons in Hr as [Hj Hr]. apply Forall_cons in Hr as [Hk _].
  apply NoDup_cons in Hn as [Hni Hn]. apply NoDup_cons in Hn as [Hnj _].
  rewrite !not_elem_of_cons in Hni. rewrite not_elem_of_cons in Hnj.
  destruct Hni as (Hij & Hik & _), Hnj as (Hjk & _).
  unfold virtio_send. cbn [nth]. do 3 (apply wp_bind, in_num_ok; [done|]). rewrite !u16_small by done.
  destruct s as [k1 k2 k3 k4 k5 k6 k7 k8 k9 k10 k11 k12 k13 k14 k15 [bc1 bc2] k17 k18 vd k20 k21 k22].
  destruct vd as [v1 v2 v3 v4 v5 v6 v7 v8 v9 g0 [w1 w2 w3] v12 v13].
  do 3 (apply wp_bind, wp_modify; vnorm).
  apply wp_set_desc. cbn [k_vd vq_desc]. intros g1 H1. vnorm.
  apply wp_bind, wp_upd_desc. cbn [k_vd vq_desc]. intros g2 H2. vnorm.
  apply wp_set_desc. cbn [k_vd vq_desc]. intros g3 H3. vnorm.
  apply wp_bind, wp_modify. vnorm. apply wp_set_desc. cbn [k_vd vq_desc]. intros g4 H4. vnorm.
  do 4 (apply wp_bind, wp_modify; vnorm). apply wp_modify_ret. vnorm. apply wp_ret.
  split; cbn -[Z.eqb].
  - reflexivity.
  - reflexivity.
  - intros q. apply fn_insert_at.
  - reflexivity.
  - reflexivity.
  - reflexivity.
  - reflexivity.
  - intros x. apply fn_insert_at.
  - intros x. apply fn_insert_at.
  - rewrite !fn_lookup_insert. destruct (v8 i). reflexivity.
  - rewrite H4, decide_False, H3, decide_False, H2, decide_False, H1, decide_True by done. by destruct (g0 i).
  - rewrite H4, decide_False, H3, decide_True, H2, decide_True, H1, decide_False by done. by destruct (g0 j).
  - rewrite H4, decide_True by done. by destruct (g3 k).
  - intros x. rewrite !not_elem_of_cons. intros (? & ? & ? & _).
    by rewrite H4, decide_False, H3, decide_False, H2, decide_False, H1, decide_False by done.
  - reflexivity.
  - intros x. apply fn_insert_at.
Qed.

(** ** The used ring *)

(** The heads of the chains the device has used and the driver has not yet
    looked at. *)
Definition pend (u : virtq_used) (i : Z) : list Z :=
  map (fun n => i32 (fst (us_ring u ((i + Z.of_nat n) mod NUM)))) (seq 0 (Z.to_nat (u16 (us_idx u - i)))).
Definition pending (d : vdisk) : list Z := pend (vq_used d) (vd_used_idx d).

Definition is16 (x : Z) : Prop := 0 <= x < 2 ^ 16.

Lemma u16_is16 x : is16 (u16 x).
Proof. unfold is16, u16. apply Z.mod_pos_bound. lia. Qed.

Lemma u16_sub_0 x y : is16 x -> is16 y -> u16 (x - y) = 0 -> x = y.
Proof.
  unfold is16, u16. intros Hx Hy H. apply Z.mod_divide in H as [q Hq]; [|lia].
  assert (q = 0) as -> by nia. lia.
Qed.

Lemma u16_step x : u16 x <> 0 -> u16 (x - 1) = u16 x - 1.
Proof.
  unfold u16. intros H. pose proof (Z.mod_pos_bound x (2 ^ 16) ltac:(lia)).
  rewrite <- (Zminus_mod_idemp_l x 1). apply Z.mod_small. lia.
Qed.

Lemma u16_mod_num x y : (u16 x + y) mod NUM = (x + y) mod NUM.
Proof.
  unfold u16, NUM. rewrite <- (Zplus_mod_idemp_l (x mod 2 ^ 16)). rewrite <- (Zplus_mod_idemp_l x). f_equal. f_equal.
  change (2 ^ 16) with (8 * 8192). rewrite Z.rem_mul_r by lia.
  rewrite (Z.mul_comm 8), Z.mod_add by lia. by rewrite Z.mod_mod.
Qed.

Lemma u16_sub_u16 x y : u16 (x - u16 y) = u16 (x - y).
Proof. unfold u16. apply Zminus_mod_idemp_r. Qed.

Lemma pend_nil u i : is16 i -> is16 (us_idx u) -> i = us_idx u <-> pend u i = [].
Proof.
  intros Hi Hu. unfold pend. split.
  - intros ->. rewrite Z.sub_diag. done.
  - intros H. apply map_eq_nil in H. symmetry. apply u16_sub_0; [done|done|].
    pose proof (u16_is16 (us_idx u - i)) as [? _]. apply (f_equal length) in H. rewrite length_seq in H. cbn in H. lia.
Qed.

Lemma pend_pop u i : is16 i -> is16 (us_idx u) -> i <> us_idx u ->
  pend u i = i32 (fst (us_ring u (i mod NUM))) :: pend u (u16 (i + 1)).
Proof.
  intros Hi Hu Hne. unfold pend. assert (u16 (us_idx u - i) <> 0) as H0 by (intros H; apply Hne; symmetry; by apply u16_sub_0).
  pose proof (u16_is16 (us_idx u - i)) as [? _].
  rewrite u16_sub_u16. replace (us_idx u - (i + 1)) with (us_idx u - i - 1) by lia. rewrite u16_step by done.
  replace (Z.to_nat (u16 (us_idx u - i))) with (S (Z.to_nat (u16 (us_idx u - i) - 1))) by lia.
  cbn [seq map]. rewrite Z.add_0_r. f_equal. rewrite <- seq_shift, map_map. apply map_ext. intros n.
  rewrite u16_mod_num. do 3 f_equal. f_equal. lia.
Qed.

Lemma pend_push u i h len : is16 i -> is16 (us_idx u) -> (length (pend u i) < 8)%nat ->
  pend (u <| us_ring ::= <[us_idx u mod NUM := (h, len)]> |> <| us_idx := u16 (us_idx u + 1) |>) i = pend u i ++ [i32 h].
Proof.
  intros Hi Hu Hl. unfold pend in *. rsimpl. rewrite length_map, length_seq in Hl. set (r := u16 (us_idx u - i)) in *.
  assert (0 <= r < 8) as Hr by (pose proof (u16_is16 (us_idx u - i)); unfold is16 in *; fold r in H; lia).
  assert (us_idx u mod NUM = (i + r) mod NUM) as Em.
  { unfold r. rewrite Z.add_comm, u16_mod_num. f_equal. lia. }
  assert (u16 (u16 (us_idx u + 1) - i) = r + 1) as ->.
  { unfold u16 at 2. unfold u16. rewrite Zminus_mod_idemp_l. replace (us_idx u + 1 - i) with (us_idx u - i + 1) by lia.
    rewrite <- Zplus_mod_idemp_l. change ((us_idx u - i) mod 2 ^ 16) with r. apply Z.mod_small. lia. }
  replace (Z.to_nat (r + 1)) with (Z.to_nat r + 1)%nat by lia. rewrite seq_app, map_app. f_equal.
  - apply map_ext_in. intros n Hn. apply in_seq in Hn. rewrite fn_lookup_insert_ne; [done|]. rewrite Em. unfold NUM.
    intros H. pose proof (Z.div_mod (i + r) 8 ltac:(lia)). pose proof (Z.div_mod (i + Z.of_nat n) 8 ltac:(lia)). nia.
  - cbn [seq map]. rewrite Nat.add_0_l, Z2Nat.id by lia. rewrite <- Em, fn_lookup_insert. done.
Qed.

(** ** The invariant

    [ths] are the requests in flight: for each the buffer and the array [idx]
    of the thread that waits for it. *)
Definition threads := list (nat * list Z).
Definition busy (ths : threads) : list Z := concat (map snd ths).
Definition head (idx : list Z) : Z := nth 0 idx 0.

Record vinv (d : vdisk) (T : nat -> buf) (ths : threads) : Prop := {
  vi_shape b idx : (b, idx) ∈ ths -> length idx = 3%nat /\ Forall (fun i => 0 <= i < NUM) idx /\ linked d idx;
  vi_nodup : NoDup (busy ths);
  vi_free : frees d (busy ths);
  vi_bufs : NoDup (map fst ths);
  vi_info b idx : (b, idx) ∈ ths -> vd_info_b d (head idx) = Some b /\ (b_disk (T b) = 0 \/ b_disk (T b) = 1);
  vi_pnodup : NoDup (pending d);
  vi_pend h : h ∈ pending d -> exists b idx, (b, idx) ∈ ths /\ head idx = h /\ b_disk (T b) = 1 /\ vd_info_status d h = 0;
  vi_used_idx : is16 (vd_used_idx d);
  vi_us_idx : is16 (us_idx (vq_used d));
}.

Lemma elem_busy b idx ths i : (b, idx) ∈ ths -> i ∈ idx -> i ∈ busy ths.
Proof.
  intros Hin Hi. apply list_elem_of_In, in_concat. exists idx. split; [|by apply list_elem_of_In].
  apply in_map_iff. exists (b, idx). split; [done|]. by apply list_elem_of_In.
Qed.

Lemma vinv_ext d d' T T' ths :
  (forall i, i ∈ busy ths -> vq_desc d' i = vq_desc d i) ->
  vd_free d' = vd_free d -> vd_info_b d' = vd_info_b d -> vd_info_status d' = vd_info_status d ->
  vd_used_idx d' = vd_used_idx d -> vq_used d' = vq_used d ->
  (forall q, b_disk (T' q) = b_disk (T q)) -> vinv d T ths -> vinv d' T' ths.
Proof.
  intros Hd Ef Eb Es Eu Eq ET [H1 H2 H3 H4 H5 H6 H7 H8 H9].
  assert (pending d' = pending d) as Ep by (unfold pending; by rewrite Eu, Eq).
  split; rewrite ?Ep, ?Eu, ?Eq; try done.
  - intros b idx Hin. destruct (H1 b idx Hin) as (? & ? & Hl). split; [done|]. split; [done|].
    eapply linked_ext; [|exact Hl]. intros i Hi. apply Hd. by eapply elem_busy.
  - intros i Hi. rewrite Ef. by apply H3.
  - intros b idx Hin. rewrite Eb, ET. by apply H5.
  - intros h Hh. destruct (H7 h Hh) as (b & idx & ? & ? & ? & ?). exists b, idx. rewrite ET, Es. done.
Qed.

Lemma head_in idx : length idx = 3%nat -> head idx ∈ idx.
Proof. destruct idx; [done|]. intros _. left. Qed.

(** At most two requests fit. *)
Lemma busy_length d T ths : vinv d T ths -> length (busy ths) = (3 * length ths)%nat /\ (length ths <= 2)%nat.
Proof.
  intros H. assert (length (busy ths) = (3 * length ths)%nat) as Hl.
  { pose proof (vi_shape _ _ _ H) as Hs. clear H. induction ths as [|[b idx] ths IH]; [done|].
    unfold busy in *. cbn [map concat length snd]. rewrite length_app, IH; [|intros b' idx' Hin; apply (Hs b'); by right].
    destruct (Hs b idx) as [-> _]; [left|]. lia. }
  split; [done|]. assert (length (busy ths) <= length nums)%nat as Hle.
  { apply submseteq_length, NoDup_submseteq; [by apply H|]. intros i Hi. apply elem_nums.
    unfold busy in Hi. apply list_elem_of_In, in_concat in Hi as (idx & Hidx & Hi).
    apply in_map_iff in Hidx as ([b idx'] & <- & Hin). apply list_elem_of_In in Hin.
    destruct (vi_shape _ _ _ H b idx' Hin) as (_ & Hr & _). rewrite Forall_forall in Hr. apply Hr. by apply list_elem_of_In. }
  change (length nums) with 8%nat in Hle. lia.
Qed.

(** Two requests share neither descriptors nor buffers. *)
Lemma busy_disjoint ths b idx b' idx' i :
  NoDup (busy ths) -> (b, idx) ∈ ths -> (b', idx') ∈ ths -> i ∈ idx -> i ∈ idx' -> (b, idx) = (b', idx').
Proof.
  unfold busy. induction ths as [|[c x] ths IH]; intros Hn H H' Hi Hi'; [by apply elem_of_nil in H|].
  cbn [map concat snd] in Hn. apply NoDup_app in Hn as (_ & Hd & Hn).
  apply elem_of_cons in H as [H|H]; apply elem_of_cons in H' as [H'|H']; try congruence.
  - simplify_eq. destruct (Hd i Hi). by eapply elem_busy.
  - simplify_eq. destruct (Hd i Hi'). by eapply elem_busy.
  - by apply IH.
Qed.

Lemma bufs_unique (ths : threads) b idx idx' :
  NoDup (map fst ths) -> (b, idx) ∈ ths -> (b, idx') ∈ ths -> idx = idx'.
Proof.
  induction ths as [|[c x] ths IH]; cbn [map fst]; intros Hn H H'; [by apply elem_of_nil in H|].
  apply NoDup_cons in Hn as [Hc Hn].
  assert (forall y, (c, y) ∈ ths -> False) as Hno.
  { intros y Hy. apply Hc, list_elem_of_In, in_map_iff. exists (c, y). split; [done|]. by apply list_elem_of_In. }
  apply elem_of_cons in H as [H|H]; apply elem_of_cons in H' as [H'|H']; simplify_eq; try done; try (by destruct (Hno _ H)); try (by destruct (Hno _ H')).
  by apply IH.
Qed.

Lemma vinv_perm d T ths ths' : ths ≡ₚ ths' -> vinv d T ths -> vinv d T ths'.
Proof.
  intros Hp [H1 H2 H3 H4 H5 H6 H7 H8 H9].
  assert (busy ths ≡ₚ busy ths') as Hb by (unfold busy; by rewrite Hp).
  split; try done.
  - intros b idx. rewrite <- Hp. apply H1.
  - by rewrite <- Hb.
  - by eapply frees_perm.
  - by rewrite <- Hp.
  - intros b idx. rewrite <- Hp. apply H5.
  - intros h Hh. destruct (H7 h Hh) as (b & idx & Hin & ?). exists b, idx. by rewrite <- Hp.
Qed.

(** What the code between two [sleep]s leaves alone. *)
Record seg (s s' : K) : Prop := {
  sg_cpu : ceq (k_cpu s) (k_cpu s');
  sg_wakes : wakes (c_proc (k_cpu s)) (k_proc s) (k_proc s');
  sg_lock : vdisk_lock (k_vd s') = vdisk_lock (k_vd s);
}.

Lemma vrel_seg s s' : vrel s s' -> seg s s'.
Proof. intros [C W Hq _]. split; [done|done|]. by rewrite Hq. Qed.

(** From the top of [virtio_disk_rw] to its first [sleep]. *)
Definition submit (b : nat) (write sector : Z) : M K (option (list Z)) :=
  r ← alloc3_desc;
  match r with
  | Some idx => virtio_send b write sector idx;; mret (Some idx)
  | None => mret None
  end.

Lemma vrel_vinv s s' ths :
  vrel s s' -> frees (k_vd s') (busy ths) -> (forall j, j ∈ busy ths -> vq_desc (k_vd s') j = vq_desc (k_vd s) j) ->
  vinv (k_vd s) (bc_buf (k_bc s)) ths -> vinv (k_vd s') (bc_buf (k_bc s')) ths.
Proof.
  intros [_ _ Hq Hr] Hf Hd H. rewrite Hr. rewrite Hq in Hf, Hd |- *. clear Hq Hr.
  destruct H as [H1 H2 H3 H4 H5 H6 H7 H8 H9]. split; try done.
  intros b idx Hin. destruct (H1 b idx Hin) as (? & ? & Hl). split; [done|]. split; [done|].
  eapply linked_ext; [|exact Hl]. intros i Hi. apply Hd. by eapply elem_busy.
Qed.

Lemma sent_vinv s0 s b write sector i j k s' ths :
  vrel s0 s -> (forall x, x ∈ busy ths -> vq_desc (k_vd s) x = vq_desc (k_vd s0) x) ->
  sent s b write sector i j k s' -> Forall (fun i => 0 <= i < NUM) [i; j; k] -> NoDup ([i; j; k] ++ busy ths) ->
  frees (k_vd s) ([i; j; k] ++ busy ths) -> b ∉ map fst ths ->
  vinv (k_vd s0) (bc_buf (k_bc s0)) ths -> vinv (k_vd s') (bc_buf (k_bc s')) ((b, [i; j; k]) :: ths).
Proof.
  intros Hrel Hd0 S Hr Hn Hf Hb [H1 H2 H3 H4 H5 H6 H7 H8 H9].
  assert (forall q, bc_buf (k_bc s) q = bc_buf (k_bc s0) q) as ET by (intros q; by rewrite (vr_rest _ _ Hrel)).
  pose proof (vr_queue _ _ Hrel) as Eq.
  assert (vd_info_b (k_vd s) = vd_info_b (k_vd s0)) as Eib by (by rewrite Eq).
  assert (vd_info_status (k_vd s) = vd_info_status (k_vd s0)) as Eis by (by rewrite Eq).
  assert (vd_used_idx (k_vd s') = vd_used_idx (k_vd s0)) as Eui by (rewrite (se_used_idx _ _ _ _ _ _ _ _ S); by rewrite Eq).
  assert (vq_used (k_vd s') = vq_used (k_vd s0)) as Eu by (rewrite (se_used _ _ _ _ _ _ _ _ S); by rewrite Eq).
  assert (pending (k_vd s') = pending (k_vd s0)) as Ep by (unfold pending; by rewrite Eui, Eu).
  pose proof Hn as Hn'. apply NoDup_app in Hn' as (Hnl & Hdis & Hnb).
  assert (forall c x, (c, x) ∈ ths -> c <> b /\ head x <> i) as Hsep.
  { intros c x Hin. split.
    - intros ->. apply Hb, list_elem_of_In, in_map_iff. exists (b, x). split; [done|]. by apply list_elem_of_In.
    - intros E'. apply (Hdis i); [left|]. eapply elem_busy; [done|]. rewrite <- E'. apply head_in. by apply (H1 c x). }
  split; rewrite ?Ep, ?Eui, ?Eu; try done.
  - intros c x. rewrite elem_of_cons. intros [Hin|Hin].
    + simplify_eq. split; [done|]. split; [done|].
      cbn [linked]. rewrite (se_desc0 _ _ _ _ _ _ _ _ S), (se_desc1 _ _ _ _ _ _ _ _ S), (se_desc2 _ _ _ _ _ _ _ _ S). cbn.
      split; [done|]. split; [done|]. split; [|done]. unfold req_flags. by case_if.
    + destruct (H1 c x Hin) as (? & ? & Hl). split; [done|]. split; [done|]. eapply linked_ext; [|exact Hl].
      intros y Hy. assert (y ∈ busy ths) as Hby by (by eapply elem_busy). rewrite (se_desc _ _ _ _ _ _ _ _ S), Hd0; [done|done|].
      intros Hin'. by apply (Hdis y).
  - intros x Hx. rewrite (se_free _ _ _ _ _ _ _ _ S). by apply Hf.
  - apply NoDup_cons. done.
  - intros c x. rewrite (se_info_b _ _ _ _ _ _ _ _ S), (se_buf _ _ _ _ _ _ _ _ S), elem_of_cons. intros [Hin|Hin].
    + simplify_eq. cbn [head nth]. rewrite !decide_True by done. split; [done|]. by right.
    + destruct (Hsep c x Hin). rewrite !decide_False by done. rewrite Eib, ET. by apply H5.
  - intros h Hh. destruct (H7 h Hh) as (c & x & Hin & Hhd & Hc & Hst). destruct (Hsep c x Hin) as [Hcb Hci].
    exists c, x. split; [by right|]. split; [done|]. rewrite (se_buf _ _ _ _ _ _ _ _ S), (se_status _ _ _ _ _ _ _ _ S).
    rewrite !decide_False by congruence. by rewrite ET, Eis.
Qed.

Lemma wp_submit s b write sector ths :
  can_wake s -> vinv (k_vd s) (bc_buf (k_bc s)) ths -> b ∉ map fst ths ->
  wp (submit b write sector) (fun r s' => seg s s' /\
    match r with
    | Some idx => vinv (k_vd s') (bc_buf (k_bc s')) ((b, idx) :: ths) /\ b_disk (bc_buf (k_bc s') b) = 1 /\
        pending (k_vd s') = pending (k_vd s)
    | None => vinv (k_vd s') (bc_buf (k_bc s')) ths /\ length ths = 2%nat
    end) s.
Proof.
  intros Hw Hv Hb. unfold submit. apply wp_bind.
  eapply wp_mono; [apply (wp_alloc3_desc s (busy ths)); [done|by apply Hv|by apply Hv]|].
  intros [idx|] s1 [H1 Hd Hres].
  - destruct Hres as (Hlen & Hr & Hn & Hf).
    destruct idx as [|i [|j [|k [|]]]]; try done. apply wp_bind. eapply wp_mono.
    { apply wp_virtio_send; [done|]. by apply NoDup_app in Hn as [? _]. }
    intros [] s2 H2. wp_steps. split; [|split; [by eapply sent_vinv|split]].
    { pose proof (se_rest _ _ _ _ _ _ _ _ H2) as Hrest. destruct (vrel_seg _ _ H1) as [C W Hl].
      split; [by rewrite Hrest|by rewrite Hrest|by rewrite (se_lock _ _ _ _ _ _ _ _ H2)]. }
    + rewrite (se_buf _ _ _ _ _ _ _ _ H2), decide_True by done. done.
    + unfold pending. rewrite (se_used _ _ _ _ _ _ _ _ H2), (se_used_idx _ _ _ _ _ _ _ _ H2), (vr_queue _ _ H1). done.
  - destruct Hres as [Hf Hlen]. wp_steps. split; [by apply vrel_seg|]. destruct (busy_length _ _ _ Hv).
    split; [by eapply vrel_vinv|lia].
Qed.

(** From the last [sleep] of [virtio_disk_rw] to its end. *)
Lemma wp_virtio_finish s b idx ths :
  can_wake s -> vinv (k_vd s) (bc_buf (k_bc s)) ((b, idx) :: ths) -> b_disk (bc_buf (k_bc s) b) <> 1 ->
  wp (virtio_finish (head idx)) (fun _ s' => seg s s' /\
    s' = s <| k_vd := k_vd s' |> <| k_proc := k_proc s' |> <| k_cpu := k_cpu s' |> /\
    vinv (k_vd s') (bc_buf (k_bc s')) ths) s.
Proof.
  intros Hw Hv Hb. unfold virtio_finish. apply wp_bind, wp_modify.
  match goal with |- wp _ _ ?x => set (s1 := x) end.
  destruct (vi_shape _ _ _ Hv b idx) as (Hlen & Hr & Hl); [left|].
  pose proof (vi_nodup _ _ _ Hv) as Hn. pose proof (vi_free _ _ _ Hv) as Hf. change (busy ((b, idx) :: ths)) with (idx ++ busy ths) in *.
  eapply wp_mono; [apply (wp_free_chain s1 (busy ths) idx); [exact Hw|exact Hr|exact Hn|exact Hf| |rewrite Hlen; lia]|].
  { eapply linked_ext; [|exact Hl]. done. }
  intros _ s2 (H2 & Hf2 & Hd2). pose proof (vr_rest _ _ H2) as Er. pose proof (vr_queue _ _ H2) as Eq.
  split; [by destruct (vrel_seg _ _ H2) as [C W Hlk]|]. split; [by rewrite Er|].
  apply NoDup_app in Hn as (_ & Hdis & Hn). destruct Hv as [H1 _ _ H4 H5 H6 H7 H8 H9].
  cbn [map fst] in H4. apply NoDup_cons in H4 as [Hb4 H4].
  assert (vd_info_b (k_vd s2) = <[head idx := None]> (vd_info_b (k_vd s))) as Eib by (by rewrite Eq).
  assert (vd_info_status (k_vd s2) = vd_info_status (k_vd s)) as Eis by (by rewrite Eq).
  assert (pending (k_vd s2) = pending (k_vd s)) as Ep by (unfold pending; by rewrite Eq).
  assert (bc_buf (k_bc s2) = bc_buf (k_bc s)) as ET by (by rewrite Er).
  split; rewrite ?Ep, ?ET; try done.
  - intros c x Hin. destruct (H1 c x) as (? & ? & Hl'); [by right|]. split; [done|]. split; [done|].
    eapply linked_ext; [|exact Hl']. intros y Hy. rewrite Hd2; [done|]. intros Hy'. apply (Hdis y); [done|]. by eapply elem_busy.
  - intros c x Hin. destruct (H5 c x) as [Hc ?]; [by right|]. split; [|done]. rewrite Eib, fn_lookup_insert_ne; [done|].
    intros E'. apply (Hdis (head idx)); [by apply head_in|]. eapply elem_busy; [done|]. rewrite E'. apply head_in.
    by destruct (H1 c x) as (? & _); [right|].
  - intros h Hh. destruct (H7 h Hh) as (c & x & Hin & ? & ? & ?). apply elem_of_cons in Hin as [Hin|Hin]; [by simplify_eq|].
    exists c, x. by rewrite Eis.
  - by rewrite Eq.
  - by rewrite Eq.
Qed.

Lemma vinv_lock d b T ths : vinv d T ths -> vinv (d <| vdisk_lock := b |>) T ths.
Proof. by apply vinv_ext. Qed.

(** ** The interrupt handler *)

(** One completed request is taken from the used ring. *)
Lemma vinv_pop d T ths h u :
  vinv d T ths -> pending d = h :: u ->
  exists b idx, (b, idx) ∈ ths /\ head idx = h /\ vd_info_b d h = Some b /\ vd_info_status d h = 0 /\ 0 <= h < NUM /\
    pending (d <| vd_used_idx ::= fun i => u16 (i + 1) |>) = u /\
    forall T', (forall q, b_disk (T' q) = if decide (q = b) then 0 else b_disk (T q)) ->
      vinv (d <| vd_used_idx ::= fun i => u16 (i + 1) |>) T' ths.
Proof.
  intros [H1 H2 H3 H4 H5 H6 H7 H8 H9] Hp. destruct (H7 h) as (b & idx & Hin & Hh & Hb & Hst); [rewrite Hp; left|].
  exists b, idx. split; [done|]. split; [done|]. destruct (H5 b idx Hin) as [Hib _]. rewrite Hh in Hib. split; [done|].
  split; [done|]. destruct (H1 b idx Hin) as (Hlen & Hr & _).
  split. { rewrite <- Hh. rewrite Forall_forall in Hr. by apply Hr, head_in. }
  assert (pending (d <| vd_used_idx ::= fun i => u16 (i + 1) |>) = u) as Eu.
  { unfold pending in *. rsimpl. assert (vd_used_idx d <> us_idx (vq_used d)) as Hne.
    { intros E'. apply pend_nil in E'; [|done|done]. congruence. }
    rewrite pend_pop in Hp by done. by simplify_eq. }
  split; [done|]. intros T' HT. rewrite Hp in H6, H7. apply NoDup_cons in H6 as [Hnh H6].
  split; rewrite ?Eu; try done.
  - intros c x Hin'. destruct (H1 c x Hin') as (? & ? & Hl). split; [done|]. split; [done|].
    eapply linked_ext; [|exact Hl]. done.
  - intros c x Hin'. destruct (H5 c x Hin') as [? ?]. split; [done|]. rewrite HT. case_decide; [by left|done].
  - intros h' Hh'. destruct (H7 h') as (c & x & Hin' & Hx & Hc & Hst'); [by right|]. exists c, x. split; [done|]. split; [done|].
    rewrite HT. rewrite decide_False; [done|]. intros ->.
    assert (x = idx) as -> by (by eapply bufs_unique). congruence.
  - rsimpl. apply u16_is16.
Qed.

(** What [virtio_disk_intr] changes: buffers are marked done, and their
    sleepers woken. *)
Record intr_rel (s s' : K) : Prop := {
  ir_cpu : ceq (k_cpu s) (k_cpu s');
  ir_wakes : wakes (c_proc (k_cpu s)) (k_proc s) (k_proc s');
  ir_lock : vdisk_lock (k_vd s') = vdisk_lock (k_vd s);
  ir_rest : s' = s <| k_vd := k_vd s' |> <| k_bc := k_bc s' |> <| k_proc := k_proc s' |> <| k_cpu := k_cpu s' |>;
  ir_bc : bc_lock (k_bc s') = bc_lock (k_bc s);
  ir_buf q : bc_buf (k_bc s') q = (bc_buf (k_bc s) q) <| b_disk := b_disk (bc_buf (k_bc s') q) |>;
}.

#[export] Instance intr_rel_preorder : PreOrder intr_rel.
Proof.
  split.
  - intros s. split; try done; [by destruct s|]. intros q. by destruct (bc_buf (k_bc s) q).
  - intros s s' s'' [C1 W1 L1 R1 X1 B1] [C2 W2 L2 R2 X2 B2].
    assert (c_proc (k_cpu s') = c_proc (k_cpu s)) as Ep by apply C1. rewrite Ep in W2.
    split; [by etrans|by etrans|congruence|rewrite R2, R1; done|congruence|]. intros q. rewrite B2, B1. done.
Qed.

Lemma wakes_locks me t t' : wakes me t t' -> locks_free me t -> locks_free me t'.
Proof. intros W Hl p Hp Hme. destruct (W p) as [->|(_ & _ & ->)]; [|rsimpl]; by apply Hl. Qed.

Lemma intr_rel_can_wake s s' : intr_rel s s' -> can_wake s -> can_wake s'.
Proof.
  intros [C W _ _ _ _] [Hc Hl]. assert (c_proc (k_cpu s') = c_proc (k_cpu s)) as Ep by apply C.
  split; [by eapply ceq_ok|]. rewrite Ep. by eapply wakes_locks.
Qed.

(** Reading a register of the device has no effect on the kernel. *)
Class VioOk : Prop := { read_ok r s : exists v, read_mmio r s = Ok v s }.

(** Request [(b, idx)] of [s] is done in [s']. *)
Definition completed (s s' : K) (b : nat) : Prop :=
  b_disk (bc_buf (k_bc s') b) = 0 /\
  forall p, (p < NPROC)%nat -> Some p <> c_proc (k_cpu s) -> p_state (k_proc s p) = SLEEPING ->
    p_chan (k_proc s p) = chan_disk b -> k_proc s' p = (k_proc s p) <| p_state := RUNNABLE |>.

Record intr_post (s : K) (ths : threads) (todo : list Z) (s' : K) : Prop := {
  ip_rel : intr_rel s s';
  ip_inv : vinv (k_vd s') (bc_buf (k_bc s')) ths;
  ip_pend : pending (k_vd s') = todo;
  ip_done b idx : (b, idx) ∈ ths -> head idx ∈ pending (k_vd s) -> head idx ∈ todo \/ completed s s' b;
  ip_keep q : q ∉ map fst ths -> b_disk (bc_buf (k_bc s') q) = b_disk (bc_buf (k_bc s) q);
}.

(** One iteration of the loop of [virtio_disk_intr]. *)
Lemma intr_step s ths h todo s1 :
  can_wake s -> vinv (k_vd s) (bc_buf (k_bc s)) ths -> intr_post s ths (h :: todo) s1 ->
  exists b, vd_info_b (k_vd s1) h = Some b /\ vd_info_status (k_vd s1) h = 0 /\ 0 <= h < NUM /\
    wp (upd_buf b (fun x => x <| b_disk := 0 |>);; wakeup (chan_disk b);;
        upd_vd (fun d => d <| vd_used_idx ::= fun i => u16 (i + 1) |>))
      (fun _ s' => intr_post s ths todo s') s1.
Proof.
  intros Hw Hv [Hr Hi Hp Hd Hk]. destruct (vinv_pop _ _ _ _ _ Hi Hp) as (b & idx & Hin & Hh & Hib & Hst & Hrng & Hp' & Hv').
  exists b. split; [done|]. split; [done|]. split; [done|]. unfold upd_buf. apply wp_bind, wp_modify.
  match goal with |- wp _ _ ?x => set (s2 := x) end.
  assert (forall q, bc_buf (k_bc s2) q = if decide (q = b) then (bc_buf (k_bc s1) b) <| b_disk := 0 |> else bc_buf (k_bc s1) q) as EB
    by (intros q; apply fn_insert_at).
  assert (intr_rel s1 s2) as H2.
  { split; try done. intros q. rewrite EB. case_decide; [subst; done|]. by destruct (bc_buf (k_bc s1) q). }
  apply wp_bind, wp_wake.
  { eapply intr_rel_can_wake; [exact H2|]. by eapply intr_rel_can_wake. }
  intros s3 H3 Ed Hwk. apply wp_modify. match goal with |- intr_post _ _ _ ?x => set (s4 := x) end.
  pose proof (vr_rest _ _ H3) as Er.
  assert (bc_buf (k_bc s4) = bc_buf (k_bc s2)) as EB4 by (unfold s4; rsimpl; by rewrite Er).
  assert (k_vd s4 = k_vd s1 <| vd_used_idx ::= fun i => u16 (i + 1) |>) as Ed4 by (unfold s4; rsimpl; by rewrite Ed).
  assert (intr_rel s2 s4) as H24.
  { destruct H3 as [C W _ _]. split; [done|done|by rewrite Ed4|unfold s4; rsimpl; by rewrite Er|unfold s4; rsimpl; by rewrite Er|].
    intros q. rewrite EB4. by destruct (bc_buf (k_bc s2) q). }
  assert (intr_rel s s4) as H04 by (etrans; [exact Hr|]; by etrans).
  split; [done| | | |].
  - rewrite Ed4, EB4. apply Hv'. intros q. rewrite EB. case_decide; by subst.
  - by rewrite Ed4.
  - intros c x Hc Hx. destruct (Hd c x Hc Hx) as [Hx'|[Hc0 Hcp]].
    + apply elem_of_cons in Hx' as [Hx'|Hx']; [|by left]. right.
      assert ((c, x) = (b, idx)) as E'.
      { eapply busy_disjoint; [by apply Hv|done|done| |].
        - apply head_in. by apply (vi_shape _ _ _ Hv c x).
        - rewrite Hx', <- Hh. apply head_in. by apply (vi_shape _ _ _ Hv b idx). }
      simplify_eq. split; [rewrite EB4, EB; by rewrite decide_True|].
      intros p Hpn Hme Hsl Hch. assert (c_proc (k_cpu s2) = c_proc (k_cpu s)) as Ecp by (apply (ir_cpu _ _ Hr)).
      change (k_proc s4) with (k_proc s3). rewrite Hwk by done. rewrite Ecp. change (k_proc s2) with (k_proc s1).
      unfold woken. rewrite bool_decide_eq_false_2 by done. destruct (ir_wakes _ _ Hr p) as [->|(_ & _ & ->)].
      * rewrite Hsl, bool_decide_eq_true_2 by done. rewrite Hch, Z.eqb_refl. done.
      * rsimpl. rewrite bool_decide_eq_false_2 by done. done.
    + right. split.
      * rewrite EB4, EB. case_decide; [done|done].
      * intros p Hpn Hme Hsl Hch. rewrite <- (Hcp p Hpn Hme Hsl Hch). change (k_proc s4) with (k_proc s3).
        destruct (vr_wakes _ _ H3 p) as [->|(_ & Hs3 & _)]; [done|].
        change (k_proc s2) with (k_proc s1) in Hs3. rewrite (Hcp p Hpn Hme Hsl Hch) in Hs3. rsimpl_in Hs3. done.
  - intros q Hq. rewrite EB4, EB. case_decide as Eqb; [|by apply Hk]. subst q. destruct Hq.
    apply list_elem_of_In, in_map_iff. exists (b, idx). split; [done|]. by apply list_elem_of_In.
Qed.

Lemma wp_virtio_disk_intr `{!VioOk} s ths :
  vdisk_lock (k_vd s) = false -> can_wake s -> vinv (k_vd s) (bc_buf (k_bc s)) ths ->
  wp virtio_disk_intr (fun _ s' => intr_post s ths [] s') s.
Proof.
  intros Hlk Hw Hv. unfold virtio_disk_intr. apply wp_bind, wp_acquire; [apply _|done|].
  set (s1 := lset vd_lk true _). destruct (read_ok VIRTIO_MMIO_INTERRUPT_STATUS s1) as [v Ev].
  apply wp_bind. eapply wp_eq; [exact Ev|]. apply wp_bind, wp_modify. set (s2 := set_field _ s1).
  assert (can_wake s2) as Hw2 by (destruct Hw; by split; [apply c_push_ok|]).
  assert (vinv (k_vd s2) (bc_buf (k_bc s2)) ths) as Hv2 by (eapply vinv_ext; [..|exact Hv]; done).
  assert (intr_post s2 ths (pending (k_vd s2)) s2) as Hp2 by (split; [done|done|done|intros; by left|done]).
  apply wp_bind, (wp_while_idx (fun n _ s' => exists todo, n = length todo /\ intr_post s2 ths todo s') _ _ (length (pending (k_vd s2)))).
  - intros n [] s' (todo & -> & Hp). destruct Hp as [H1 H2 H3 H4 H5] eqn:EHp. clear EHp. wp_steps.
    destruct todo as [|h todo].
    + unfold pending in H3. apply pend_nil in H3; [|by apply H2|by apply H2]. rewrite H3, Z.eqb_refl. wp_steps.
      apply (wp_release_ceq _ (k_cpu s)); [by apply Hw|by apply H1|exact (ir_lock _ _ H1)|].
      intros c Hc. destruct H1 as [C W Hl Hd Hx Hb]. split.
      * split; [done|exact W|by rewrite Hlk|by rewrite Hd|exact Hx|exact Hb].
      * by apply vinv_lock.
      * apply pend_nil in H3; [done|by apply H2|by apply H2].
      * intros b idx Hin Hh. destruct (H4 b idx Hin Hh) as [Hn|[Hb0 Hpr]]; [by apply elem_of_nil in Hn|]. right. by split.
      * exact H5.
    + destruct (intr_step s2 ths h todo s') as (b & Hib & Hst & Hr & Hwp); [done|done|by split|].
      assert (vd_used_idx (k_vd s') <> us_idx (vq_used (k_vd s'))) as Hne.
      { intros E'. apply pend_nil in E'; [|by apply H2|by apply H2]. unfold pending in H3. congruence. }
      pose proof H3 as H3'. unfold pending in H3'. rewrite pend_pop in H3' by (done || apply H2). injection H3' as Hh _.
      apply Z.eqb_neq in Hne. rewrite Hne. rewrite Hh. apply wp_bind, in_num_ok; [done|]. rewrite Hst, Hib. cbn [Z.eqb negb deref].
      apply wp_bind, wp_ret, wp_bind. apply wp_bind in Hwp. eapply wp_mono; [exact Hwp|]. cbv beta. intros [] s3 Hs3.
      apply wp_bind. apply wp_bind in Hs3. eapply wp_mono; [exact Hs3|]. cbv beta. intros [] s4 Hs4.
      apply wp_bind. eapply wp_mono; [exact Hs4|]. cbv beta. intros [] s5 Hs5. apply wp_ret.
      exists (length todo). split; [cbn; lia|]. exists todo. done.
  - exists (pending (k_vd s2)). done.
  - apply lt_fuel. unfold pending, pend. rewrite length_map, length_seq.
    pose proof (u16_is16 (us_idx (vq_used (k_vd s2)) - vd_used_idx (k_vd s2))) as [? ?]. lia.
Qed.

(** ** The device *)

(** The device completes the chain [h] and enters it into the used ring. *)
Definition serve (h len : Z) (d : vdisk) : vdisk :=
  d <| vd_info_status ::= <[h := 0]> |>
    <| vq_used ::= fun u => u <| us_ring ::= <[us_idx u mod NUM := (h, len)]> |> <| us_idx := u16 (us_idx u + 1) |> |>.

Lemma i32_num h : 0 <= h < NUM -> i32 h = h.
Proof. intros H. apply i32_small. unfold NUM, INT_MIN, INT_MAX in *. lia. Qed.

Lemma serve_vinv d T T' ths b idx len :
  vinv d T ths -> (b, idx) ∈ ths -> b_disk (T b) = 1 -> head idx ∉ pending d ->
  (forall q, b_disk (T' q) = b_disk (T q)) ->
  vinv (serve (head idx) len d) T' ths /\ pending (serve (head idx) len d) = pending d ++ [head idx].
Proof.
  intros Hv Hin Hb Hp HT. destruct (busy_length _ _ _ Hv) as [_ H2]. destruct Hv as [H1 Hn Hf H4 H5 H6 H7 H8 H9] eqn:Ev.
  assert (0 <= head idx < NUM) as Hr.
  { destruct (H1 b idx Hin) as (Hl & Hr & _). rewrite Forall_forall in Hr. by apply Hr, head_in. }
  assert (length (pending d) <= length ths)%nat as Hlen.
  { rewrite <- (length_map (fun th => head th.2) ths). apply submseteq_length, NoDup_submseteq; [done|].
    intros h Hh. destruct (H7 h Hh) as (c & x & Hc & <- & _). apply list_elem_of_In, in_map_iff. exists (c, x).
    split; [done|]. by apply list_elem_of_In. }
  assert (pending (serve (head idx) len d) = pending d ++ [head idx]) as Ep.
  { unfold pending, serve. rsimpl. rewrite (pend_push (vq_used d)) by (done || unfold pending in Hlen; lia). by rewrite i32_num. }
  split; [|done]. split; rewrite ?Ep; try done.
  - intros c x Hc. destruct (H1 c x Hc) as (? & ? & Hl). split; [done|]. split; [done|]. eapply linked_ext; [|exact Hl]. done.
  - intros c x Hc. rewrite HT. by apply H5.
  - apply NoDup_app. split; [done|]. split; [|by apply NoDup_singleton].
    intros h Hh Hh'. apply list_elem_of_singleton in Hh' as ->. done.
  - assert (forall h, vd_info_status (serve (head idx) len d) h = if decide (h = head idx) then 0 else vd_info_status d h) as Es
      by (intros h; apply fn_insert_at).
    intros h. rewrite elem_of_app, list_elem_of_singleton. intros [Hh| ->].
    + destruct (H7 h Hh) as (c & x & ? & ? & ? & ?). exists c, x. rewrite HT, Es. repeat (split; [done|]). by case_decide.
    + exists b, idx. rewrite HT, Es. repeat (split; [done|]). by rewrite decide_True.
  - apply u16_is16.
Qed.

(** ** The protocol

    Requests are submitted, served, acknowledged and finished in any order
    that their threads and the device find, among the steps of the rest of
    the kernel. *)
Inductive vstep : K * threads -> K * threads -> Prop :=
| st_submit s ths b write sector r s' :
    can_wake s -> b ∉ map fst ths -> submit b write sector s = Ok r s' ->
    vstep (s, ths) (s', match r with Some idx => (b, idx) :: ths | None => ths end)
| st_serve s ths b idx len s' :
    (b, idx) ∈ ths -> b_disk (bc_buf (k_bc s) b) = 1 -> head idx ∉ pending (k_vd s) ->
    k_vd s' = serve (head idx) len (k_vd s) ->
    (forall q, b_disk (bc_buf (k_bc s') q) = b_disk (bc_buf (k_bc s) q)) ->
    vstep (s, ths) (s', ths)
| st_intr s ths s' :
    vdisk_lock (k_vd s) = false -> can_wake s -> virtio_disk_intr s = Ok tt s' ->
    vstep (s, ths) (s', ths)
| st_finish s ths b idx ths' s' :
    can_wake s -> ths ≡ₚ (b, idx) :: ths' -> b_disk (bc_buf (k_bc s) b) <> 1 ->
    virtio_finish (head idx) s = Ok tt s' ->
    vstep (s, ths) (s', ths')
| st_other s ths lk s' :
    k_vd s' = k_vd s <| vdisk_lock := lk |> ->
    (forall q, b_disk (bc_buf (k_bc s') q) = b_disk (bc_buf (k_bc s) q)) ->
    vstep (s, ths) (s', ths).

Lemma vstep_inv `{!VioOk} st st' :
  vstep st st' -> vinv (k_vd st.1) (bc_buf (k_bc st.1)) st.2 -> vinv (k_vd st'.1) (bc_buf (k_bc st'.1)) st'.2.
Proof.
  intros Hs Hv. destruct Hs as [s ths b w sec r s' Hw Hb Hm|s ths b idx len s' Hin Hb Hp Hd HT|s ths s' Hl Hw Hm|
    s ths b idx ths' s' Hw Hp Hb Hm|s ths lk s' Hd HT]; cbn [fst snd] in *.
  - pose proof (wp_result _ _ _ _ _ (wp_submit s b w sec ths Hw Hv Hb) Hm) as [_ Hr]. destruct r; by destruct Hr.
  - rewrite Hd. by eapply serve_vinv.
  - exact (ip_inv _ _ _ _ (wp_result _ _ _ _ _ (wp_virtio_disk_intr s ths Hl Hw Hv) Hm)).
  - assert (vinv (k_vd s) (bc_buf (k_bc s)) ((b, idx) :: ths')) as Hv' by (by eapply vinv_perm).
    by destruct (wp_result _ _ _ _ _ (wp_virtio_finish s b idx ths' Hw Hv' Hb) Hm) as (_ & _ & ?).
  - rewrite Hd. eapply vinv_ext; [..|by apply vinv_lock]; done.
Qed.

(** The driver as [virtio_disk_init] leaves it. *)
Definition fresh (d : vdisk) : Prop :=
  (forall i, 0 <= i < NUM -> vd_free d i = 1) /\ is16 (vd_used_idx d) /\ us_idx (vq_used d) = vd_used_idx d.

Lemma fresh_vinv d T : fresh d -> vinv d T [].
Proof.
  intros (Hf & Hi & Hu). assert (pending d = []) as Ep by (apply pend_nil; rewrite ?Hu; done).
  split; rewrite ?Ep, ?Hu.
  - by intros b idx H%elem_of_nil.
  - apply NoDup_nil_2.
  - intros i Hin. rewrite Hf by done. by rewrite decide_False by apply not_elem_of_nil.
  - apply NoDup_nil_2.
  - by intros b idx H%elem_of_nil.
  - apply NoDup_nil_2.
  - by intros h H%elem_of_nil.
  - done.
  - done.
Qed.

Lemma vinv_fresh d T : vinv d T [] -> fresh d.
Proof.
  intros [_ _ Hf _ _ _ Hp Hi Hu]. split; [|split; [done|]].
  - intros i Hi'. rewrite (Hf i Hi'). by rewrite decide_False by apply not_elem_of_nil.
  - symmetry. apply pend_nil; [done|done|]. destruct (pending d) as [|h l] eqn:El; [done|].
    destruct (Hp h) as (b & idx & H%elem_of_nil & _); [left|done].
Qed.

Lemma bind_inv {A B} (m : M K A) (f : A -> M K B) s b s' :
  (m ≫= f) s = Ok b s' -> exists a s1, m s = Ok a s1 /\ f a s1 = Ok b s'.
Proof. unfold mbind, M_bind. destruct (m s) as [a s1| | | |]; try done. eauto. Qed.

Lemma vm_vd {A} (m : M kst A) s a s' : vm m s = Ok a s' -> k_vd s' = k_vd s.
Proof. unfold vm, zoom. destruct (m _); try done. intros H. by simplify_eq. Qed.

(** One operation of [virtio_disk_init], which keeps [used_idx] zero. *)
Ltac init_step Hm H0 :=
  lazymatch type of Hm with
  | (mbind ?f ?m) ?s = _ =>
      lazymatch m with
      | read_mmio ?r => destruct (read_ok r s) as [? Ev]; rewrite (bind_Ok _ _ _ _ _ Ev) in Hm; clear Ev
      | vm _ => apply bind_inv in Hm as (? & ? & Ev%vm_vd & Hm); rewrite <- Ev in H0; clear Ev
      | _ =>
          let s1 := fresh "s" in let Hn := fresh "Hn" in
          apply bind_inv in Hm as (? & s1 & Ev & Hm);
          assert (vd_used_idx (k_vd s1) = 0) as Hn by (injection Ev as _ <-; exact H0);
          clear Ev H0; rename Hn into H0
      end
  | (if ?b then panic _ else _) _ = _ => destruct b; [done|]
  end; cbv beta in Hm.

Definition idle_rings (s : K) : Prop := vd_used_idx (k_vd s) = 0 /\ us_idx (vq_used (k_vd s)) = 0.

Lemma wp_write_mmio r v (m : M K unit) (Q : unit -> K -> Prop) s :
  idle_rings s -> (forall s', idle_rings s' -> vd_free (k_vd s') = vd_free (k_vd s) -> wp m Q s') -> wp (write_mmio r v;; m) Q s.
Proof. intros H HQ. apply wp_bind, wp_modify, HQ; done. Qed.

(** ... [used_idx] being a static variable. *)
Lemma virtio_disk_init_fresh `{VO : !VioOk} s s' :
  vd_used_idx (k_vd s) = 0 -> virtio_disk_init s = Ok tt s' -> fresh (k_vd s').
Proof.
  intros H0 Hm. unfold virtio_disk_init, initlock in Hm.
  do 35 (init_step Hm H0).
  match type of Hm with ?m ?s1 = _ => assert (wp m (fun _ s' => fresh (k_vd s')) s1) as Hwp; [|by apply (wp_result _ _ _ _ _ Hwp Hm)] end.
  clear Hm. apply wp_bind, wp_modify.
  match goal with |- wp _ _ ?x => assert (idle_rings x) as Hi by (split; [exact H0|done]); generalize dependent x end.
  intros sa H1. do 8 (apply wp_write_mmio; [done|]; clear H1; intros ? H1 _).
  apply wp_bind. eapply wp_mono; [apply (wp_for_each (fun dn s' => idle_rings s' /\ forall i, i ∈ dn -> vd_free (k_vd s') i = 1))|].
  - intros dn i todo sb _ [H3 Hd]. apply wp_modify. split; [done|]. intros j. rsimpl. rewrite elem_of_app, list_elem_of_singleton.
    rewrite fn_insert_at. case_decide; [done|]. intros [?|?]; [auto|done].
  - split; [done|]. by intros i Hi%elem_of_nil.
  - intros _ sb [[H3 H3'] Hd]. apply wp_modify. split; [intros i Hi%elem_nums; by apply Hd|]. split; [rsimpl; by rewrite H3|].
    rsimpl. by rewrite H3, H3'.
Qed.

(** C10: the disk driver never mixes up its descriptors.  However requests are
    submitted, served by the device, acknowledged by the interrupt handler
    and finished, the descriptors that are not free are exactly those of the
    requests in flight, no two requests share one and there are at most two
    requests; and the next step of the driver always returns: it can take
    another request (or finds the table full), handle an interrupt, after
    which every request the device has served is done and its sleepers can
    run, and finish any request that is done.  None of the driver's panics
    is reachable. *)
Theorem virtio_protocol `{!VioOk} s0 s ths :
  fresh (k_vd s0) -> rtc vstep (s0, []) (s, ths) ->
  (forall i, 0 <= i < NUM -> vd_free (k_vd s) i = if decide (i ∈ busy ths) then 0 else 1) /\
  NoDup (busy ths) /\ (length ths <= 2)%nat /\
  (can_wake s ->
    (forall b write sector, b ∉ map fst ths -> exists r s', submit b write sector s = Ok r s') /\
    (vdisk_lock (k_vd s) = false -> exists s', virtio_disk_intr s = Ok tt s' /\ pending (k_vd s') = [] /\
      forall b idx, (b, idx) ∈ ths -> head idx ∈ pending (k_vd s) -> completed s s' b) /\
    (forall b idx, (b, idx) ∈ ths -> b_disk (bc_buf (k_bc s) b) <> 1 -> exists s', virtio_finish (head idx) s = Ok tt s')).
Proof.
  intros Hf Hr. assert (vinv (k_vd s) (bc_buf (k_bc s)) ths) as Hv.
  { change (vinv (k_vd (s, ths).1) (bc_buf (k_bc (s, ths).1)) (s, ths).2).
    eapply (rtc_ind_r (fun st => vinv (k_vd st.1) (bc_buf (k_bc st.1)) st.2) (s0, [])); [by apply fresh_vinv| |exact Hr].
    intros st st' _ Hs Hv. by eapply vstep_inv. }
  split; [by apply Hv|]. split; [by apply Hv|]. split; [by eapply busy_length|]. intros Hw. split; [|split].
  - intros b w sec Hb. pose proof (wp_submit s b w sec ths Hw Hv Hb) as Hwp. apply wp_ok in Hwp as (r & s' & Hm & _). eauto.
  - intros Hl. pose proof (wp_virtio_disk_intr s ths Hl Hw Hv) as Hwp. apply wp_ok in Hwp as ([] & s' & Hm & [_ _ Hp Hd _]).
    exists s'. split; [done|]. split; [done|]. intros b idx Hin Hh. destruct (Hd b idx Hin Hh) as [Hn|]; [|done].
    by apply elem_of_nil in Hn.
  - intros b idx Hin Hb. apply list_elem_of_split in Hin as (l1 & l2 & ->).
    assert (vinv (k_vd s) (bc_buf (k_bc s)) ((b, idx) :: l1 ++ l2)) as Hv'
      by (eapply vinv_perm; [|exact Hv]; symmetry; apply Permutation_middle).
    pose proof (wp_virtio_finish s b idx (l1 ++ l2) Hw Hv' Hb) as Hwp. apply wp_ok in Hwp as ([] & s' & Hm & _). eauto.
Qed.
End spec.

(** ** A request, submitted and served *)
Module VirtioDemo.

Definition vio : Vio := {| read_mmio := fun _ => mret 0; disk_at := 0x80020000; data_at := fun b => 0x80030000 + 1024 * Z.of_nat b |}.

Lemma vio_ok : @VioOk vio.
Proof. split. intros r s. by exists 0. Qed.

Definition start : K := KDemo.k0 <| k_vd := KDemo.vdisk0 <| vd_free := fun _ => 1 |> |>.

Lemma start_fresh : fresh (k_vd start).
Proof. split; [done|]. by split. Qed.

Lemma start_can_wake : can_wake start.
Proof. split; [exact KDemo.cpu0_ok|done]. Qed.

Lemma virtio_protocol_witness :
  exists s ths, length ths = 1%nat /\ pending (k_vd s) <> [] /\
    (forall i, 0 <= i < NUM -> vd_free (k_vd s) i = if decide (i ∈ busy ths) then 0 else 1) /\
    (exists s', @virtio_disk_intr vio s = Ok tt s' /\ pending (k_vd s') = []).
Proof.
  pose proof (@wp_submit vio start 0 1 6 [] start_can_wake (fresh_vinv _ _ start_fresh) (not_elem_of_nil 0%nat)) as H.
  apply wp_ok in H as (r & s1 & Hm & Hs & Hr). destruct r as [idx|]; [|by destruct Hr].
  set (s2 := s1 <| k_vd ::= serve (head idx) 1 |>).
  destruct Hr as (Hv & Hb & Hp). change (pending (k_vd start)) with (@nil Z) in Hp.
  assert (rtc (@vstep vio) (start, []) (s2, [(0%nat, idx)])) as Hrun.
  { eapply rtc_l; [apply (st_submit start [] 0 1 6 (Some idx) s1); [exact start_can_wake|apply not_elem_of_nil|exact Hm]|].
    apply rtc_once. apply (st_serve s1 _ 0 idx 1 s2); [left|exact Hb|rewrite Hp; apply not_elem_of_nil|done|done]. }
  destruct (@virtio_protocol vio vio_ok start s2 _ start_fresh Hrun) as (Hf & _ & _ & Hop).
  assert (can_wake s2) as Hw.
  { destruct Hs as [C W _], start_can_wake as [Hc Hl]. split; [by eapply ceq_ok|].
    change (c_proc (k_cpu s2)) with (c_proc (k_cpu s1)). replace (c_proc (k_cpu s1)) with (c_proc (k_cpu start)) by (symmetry; apply C).
    by eapply wakes_locks. }
  destruct (serve_vinv _ _ (bc_buf (k_bc s2)) _ 0 idx 1 Hv) as [_ Hp2]; [left|done|rewrite Hp; apply not_elem_of_nil|done|].
  exists s2, [(0%nat, idx)]. split; [done|]. split; [change (k_vd s2) with (serve (head idx) 1 (k_vd s1)); by rewrite Hp2, Hp|].
  split; [exact Hf|]. destruct (Hop Hw) as (_ & Hi & _). destruct Hi as (s' & Hi & Hp' & _); [|by exists s'].
  change (vdisk_lock (k_vd s2)) with (vdisk_lock (k_vd s1)). by rewrite (sg_lock _ _ Hs).
Defined.
End VirtioDemo.
