(* ===== verification/VirtioDisk.v ===== *)
(** * VirtioDisk: the driver implements the disk the file system relies on

    [virtio_disk_rw] in a kernel where nothing else happens: the caller
    sleeps until the device has served its request and the interrupt has been
    handled.  The disk is then as the contract of [disk_rw] has it, the
    assumption under which the log is proved crash-safe. *)

From stdpp Require Import base list gmap functions strings.
From Stdlib Require Import ZArith Lia.
From S2P Require Import Prelude CMem Riscv Spinlock Kalloc Vm Que KState Printf Proc KWp KDemo Bio BioWp Virtio VirtioSpec.

Definition vlock (b : bool) (s : K) : K := lset vd_lk b s.

(** ** [sleep] *)

Section sleep.
Context {E : Env}.

(** [sched] of a process that holds its own lock only. *)
Lemma wp_sched s c0 p (Q : unit -> K -> Prop) :
  cpu_ok c0 -> c_noff c0 = 0 -> c_proc c0 = Some p -> ceq (c_push c0) (k_cpu s) ->
  p_lock (k_proc s p) = true -> p_state (k_proc s p) <> RUNNING ->
  (forall c, ceq (c_push c0) c -> exists s2 i, swtch (s <| k_cpu := c |>) = Ok tt s2 /\ k_cpu s2 = c <| c_intena := i |> /\
    forall c', ceq (c_push c0) c' -> Q tt (s2 <| k_cpu := c' |>)) ->
  wp sched Q s.
Proof.
  intros Hc Hn Hp Hcc Hl Hst HQ. pose proof (ceq_ok _ _ Hcc (c_push_ok _ Hc)) as Hok.
  unfold sched. apply wp_bind, (wp_cur _ _ p); [done|by destruct Hcc as (-> & _)|].
  intros c Hcc1. assert (ceq (c_push c0) c) as Hcc2 by (by etrans). destruct Hcc2 as (E1 & E2 & E3 & E4 & E5) eqn:EC. clear EC.
  wp_steps. rsimpl. rewrite Hl. cbn [negb]. cbn in E2, E3. rewrite E2, E3, Hn. cbn [Z.eqb Z.add negb].
  rewrite decide_False by done. destruct (HQ c) as (s2 & i & Hsw & Ec & HQ'); [done|].
  apply wp_bind. eapply wp_eq; [exact Hsw|]. apply wp_modify.
  apply (HQ' ((k_cpu s2) <| c_intena := c_intena c |>)). rewrite Ec. by destruct c.
Qed.

(** [sleep] on a channel, with the driver's lock held.  [swtch] is the time
    asleep. *)
Lemma wp_sleep s c0 p chan (Q : unit -> K -> Prop) :
  cpu_ok c0 -> c_noff c0 = 0 -> c_proc c0 = Some p -> ceq (c_push c0) (k_cpu s) ->
  p_lock (k_proc s p) = false -> vdisk_lock (k_vd s) = true ->
  (forall t c, ceq (c_push c0) c ->
     upd_at (k_proc s) p ((k_proc s p) <| p_lock := true |> <| p_chan := chan |> <| p_state := SLEEPING |>) t ->
     exists s2 i, swtch (ps (vlock false s) t c) = Ok tt s2 /\ k_cpu s2 = c <| c_intena := i |> /\ p_lock (k_proc s2 p) = true /\ vdisk_lock (k_vd s2) = false /\
       forall t' c', ceq (c_push c0) c' ->
         upd_at (k_proc s2) p ((k_proc s2 p) <| p_chan := 0 |> <| p_lock := false |>) t' ->
         Q tt (vlock true (ps s2 t' c'))) ->
  wp (sleep chan vd_lk) Q s.
Proof.
  intros Hc Hn Hp Hcc Hl Hvl HQ. pose proof (ceq_ok _ _ Hcc (c_push_ok _ Hc)) as Hok.
  unfold sleep. apply wp_bind, (wp_cur _ _ p); [done|by destruct Hcc as (-> & _)|].
  intros c1 Hc1. assert (ceq (c_push c0) c1) as Hcc1 by (by etrans).
  apply wp_bind, wp_lock_proc; [done|]. ksimpl. intros t1 Ht1.
  apply wp_bind, (wp_release_ceq _ c1); [exact (ceq_ok _ _ Hc1 Hok)|done|exact Hvl|]. intros c2 Hc2.
  assert (ceq (c_push c0) c2) as Hcc2 by (by etrans).
  set (s1 := vlock false s). match goal with |- wp ?m ?Q _ => change (wp m Q (ps s1 t1 c2)) end.
  change (k_proc s) with (k_proc s1) in *. psteps.
  apply (wp_sched _ c0 p); [done|done|done|done|ksimpl; by rewrite (upd_at_eq _ _ _ _ Ht1)|ksimpl; by rewrite (upd_at_eq _ _ _ _ Ht1)|].
  ksimpl. intros c3 Hc3. destruct (HQ _ c3 Hc3 Ht1) as (s2 & i & Hsw & Ec & Hpl & Hvl2 & HQ').
  exists s2, i. split; [exact Hsw|]. split; [done|]. intros c4 Hc4.
  set (s3 := s2 <| k_cpu := c0 |>).
  match goal with |- wp ?m ?Q _ => change (wp m Q (ps s3 (k_proc s3) c4)) end.
  assert (upd_at (k_proc s3) p (k_proc s3 p) (k_proc s3)) as Ht3.
  { intros q. destruct (decide (q = p)) as [->|]; done. }
  psteps. eapply (wp_unlock_proc s3 p ((k_proc s3 p) <| p_chan := 0 |> <| p_lock := false |>)); [done|done|done| |].
  { intros q. rewrite Ht3. case_decide; [|done]. change (k_proc s3 p) with (k_proc s2 p). by destruct (k_proc s2 p); cbn in *; subst. }
  intros t4 c5 Hc5 Ht4. apply wp_acquire; [apply _|done|]. apply (HQ' t4 (c_push c5)); [by apply ceq_push|exact Ht4].
Qed.
End sleep.

(** ** The device *)

Section device.
Context {L : Layout} {E : Env} {V : Vio}.

(** The latest entry of the available ring is the request [op] with the data
    of buffer [b]. *)
Record request (s : K) (h : Z) (b : nat) (op : virtio_blk_req) (flags : Z) : Prop := {
  rq_head : av_ring (vq_avail (k_vd s)) (u16 (av_idx (vq_avail (k_vd s)) - 1) mod NUM) = h;
  rq_op : vd_ops (k_vd s) h = op;
  rq_chain : exists j k,
    vq_desc (k_vd s) h = mkDesc (ops_at h) 16 VRING_DESC_F_NEXT j /\
    vq_desc (k_vd s) j = mkDesc (data_at b) BSIZE flags k /\
    vq_desc (k_vd s) k = mkDesc (status_at h) 1 VRING_DESC_F_WRITE 0;
}.

Definition set_data (b : nat) (data : list Z) (s : K) : K :=
  s <| k_bc ::= fun bc => bc <| bc_buf ::= fun T => <[b := (T b) <| b_data := data |>]> T |> |>.

(** What a virtio block device does with a request for the two sectors of
    block [n]: it transfers the data, writes the status byte and enters the
    request into the used ring with the number of bytes it has written. *)
Class DeviceOk (device : K -> K) : Prop := {
  dev_write s h b n :
    request s h b (mkReq VIRTIO_BLK_T_OUT 0 (2 * n)) VRING_DESC_F_NEXT ->
    device s = s <| k_vd ::= serve h 1 |> <| k_disk ::= dwrite n (b_data (bc_buf (k_bc s) b)) |>;
  dev_read s h b n :
    request s h b (mkReq VIRTIO_BLK_T_IN 0 (2 * n)) (Z.lor VRING_DESC_F_WRITE VRING_DESC_F_NEXT) ->
    device s = set_data b (dblock (k_disk s) n) (s <| k_vd ::= serve h (BSIZE + 1) |>);
}.

(** The scheduler's CPU once [p] has given it up, and [p] back on a CPU. *)
Definition idle (p : nat) (s : K) : K :=
  ps s (<[p := (k_proc s p) <| p_lock := false |>]> (k_proc s)) (mkKcpu None 0 true true (c_id (k_cpu s))).
Definition resume (p : nat) (c : kcpu) (s : K) : K :=
  ps s (<[p := (k_proc s p) <| p_lock := true |> <| p_state := RUNNING |>]> (k_proc s)) c.

(** Process [p] has the machine to itself: while it sleeps the disk serves
    its request, the interrupt is handled on the idle CPU, and the scheduler
    dispatches [p] again if that made it runnable. *)
Class Alone (p : nat) (device : K -> K) : Prop := {
  alone_swtch s s2 :
    virtio_disk_intr (idle p (device s)) = Ok tt s2 -> p_state (k_proc s2 p) = RUNNABLE ->
    exists i, swtch s = Ok tt (resume p ((k_cpu s) <| c_intena := i |>) s2);
}.

(** The disk and the buffer after a transfer. *)
Definition transfer (w : bool) (b : nat) (s : K) : K :=
  let n := b_blockno (bc_buf (k_bc s) b) in
  if w then s <| k_disk ::= dwrite n (b_data (bc_buf (k_bc s) b)) |>
  else set_data b (dblock (k_disk s) n) s.

(** The request [virtio_disk_rw] makes for a transfer. *)
Definition req_for (w : bool) (b : nat) (s : K) : virtio_blk_req :=
  mkReq (if w then VIRTIO_BLK_T_OUT else VIRTIO_BLK_T_IN) 0 (2 * b_blockno (bc_buf (k_bc s) b)).

Context {p : nat} {device : K -> K} {VO : VioOk} {DO : DeviceOk device} {AO : Alone p device}.

(** What the device does, in one equation. *)
Lemma device_served s h b w :
  request s h b (req_for w b s) (req_flags (Z.b2z w)) ->
  exists len, device s = transfer w b (s <| k_vd ::= serve h len |>).
Proof.
  unfold req_for, transfer. destruct w; intros H.
  - exists 1. exact (dev_write s h b _ H).
  - exists (BSIZE + 1). exact (dev_read s h b _ H).
Qed.

Lemma transfer_fields w b s :
  k_vd (transfer w b s) = k_vd s /\ k_proc (transfer w b s) = k_proc s /\ k_cpu (transfer w b s) = k_cpu s /\
  bc_lock (k_bc (transfer w b s)) = bc_lock (k_bc s) /\
  forall q, bc_buf (k_bc (transfer w b s)) q = (bc_buf (k_bc s) q) <| b_data := b_data (bc_buf (k_bc (transfer w b s)) q) |>.
Proof.
  unfold transfer. destruct w; repeat (split; [done|]); intros q.
  - rsimpl. by destruct (bc_buf (k_bc s) q).
  - unfold set_data. rsimpl. rewrite fn_insert_at. case_decide; [by subst|]. by destruct (bc_buf (k_bc s) q).
Qed.

(** ** Asleep *)

(** [s'] is [s] after the transfer, up to the driver, the process table and
    the CPU. *)
Record moved (w : bool) (b : nat) (s s' : K) : Prop := {
  mv_rest : s' = transfer w b s <| k_vd := k_vd s' |> <| k_bc := k_bc s' |> <| k_proc := k_proc s' |> <| k_cpu := k_cpu s' |>;
  mv_bc : bc_lock (k_bc s') = bc_lock (k_bc s);
  mv_buf q : bc_buf (k_bc s') q =
    (bc_buf (k_bc (transfer w b s)) q) <| b_disk := if decide (q = b) then 0 else b_disk (bc_buf (k_bc s) q) |>;
}.

Lemma wp_wait s c0 b idx w :
  cpu_ok c0 -> c_noff c0 = 0 -> c_proc c0 = Some p -> ceq (c_push c0) (k_cpu s) -> (p < NPROC)%nat ->
  (forall q, (q < NPROC)%nat -> p_lock (k_proc s q) = false) ->
  p_state (k_proc s p) = RUNNING -> p_chan (k_proc s p) = 0 ->
  vdisk_lock (k_vd s) = true -> vinv (k_vd s) (bc_buf (k_bc s)) [(b, idx)] -> pending (k_vd s) = [] ->
  b_disk (bc_buf (k_bc s) b) = 1 -> request s (head idx) b (req_for w b s) (req_flags (Z.b2z w)) ->
  wp (sleep (chan_disk b) vd_lk) (fun _ s' =>
    ceq (c_push c0) (k_cpu s') /\ vdisk_lock (k_vd s') = true /\ vinv (k_vd s') (bc_buf (k_bc s')) [(b, idx)] /\
    k_proc s' p = k_proc s p /\ wakes (Some p) (k_proc s) (k_proc s') /\ moved w b s s') s.
Proof.
  intros Hc Hn Hp Hcc Hpn Hl Hst Hch Hvl Hv Hpend Hb Hreq.
  apply (wp_sleep _ c0 p); [done|done|done|done|by apply Hl|done|]. intros t c Hc1 Ht.
  set (sA := ps (vlock false s) t c).
  destruct (device_served sA (head idx) b w) as [len Hdev].
  { destruct Hreq as [R1 R2 R3]. by split. }
  set (sB := idle p (device sA)).
  destruct (transfer_fields w b (sA <| k_vd ::= serve (head idx) len |>)) as (Fv & Fp & Fc & Fl & Fb).
  rewrite <- Hdev in Fv, Fp, Fc, Fl, Fb.
  assert (k_vd sB = serve (head idx) len (k_vd sA)) as EvB by exact Fv.
  assert (forall q, k_proc sB q = if decide (q = p) then (k_proc s p) <| p_chan := chan_disk b |> <| p_state := SLEEPING |> else k_proc s q) as EpB.
  { intros q. unfold sB, idle. ksimpl. rewrite fn_insert_at, Fp. change (k_proc (set_field _ sA)) with t. rewrite (upd_at_eq _ _ _ _ Ht), Ht.
    case_decide; [|done]. specialize (Hl p Hpn). by destruct (k_proc s p); cbn in *; subst. }
  assert (can_wake sB) as HwB.
  { split; [by split; cbn|]. intros q Hq _. rewrite EpB. case_decide; [subst; rsimpl|]; by apply Hl. }
  destruct (serve_vinv (k_vd sA) (bc_buf (k_bc s)) (bc_buf (k_bc sB)) [(b, idx)] b idx len) as [HvB HpB].
  { by apply vinv_lock. } { left. } { done. } { change (head idx ∉ pending (k_vd s)). rewrite Hpend. apply not_elem_of_nil. }
  { intros q. change (bc_buf (k_bc sB)) with (bc_buf (k_bc (device sA))). rewrite Fb. done. }
  rewrite <- EvB in HvB, HpB.
  assert (wp virtio_disk_intr (fun _ s' => intr_post sB [(b, idx)] [] s') sB) as Hi.
  { apply wp_virtio_disk_intr; [by rewrite EvB|done|done]. }
  apply wp_ok in Hi as ([] & sC & Hi & [Hrel HvC _ Hdone Hkeep]).
  destruct (Hdone b idx) as [Hno|[Hb0 Hwk]]; [left|rewrite HpB; apply elem_of_app; right; left|by apply elem_of_nil in Hno|].
  assert (k_proc sC p = (k_proc s p) <| p_chan := chan_disk b |> <| p_state := RUNNABLE |>) as EpC.
  { rewrite (Hwk p Hpn) by (done || rewrite EpB, decide_True by done; done). rewrite EpB, decide_True by done. done. }
  destruct (alone_swtch sA sC) as [i Hsw]; [exact Hi|by rewrite EpC|].
  exists (resume p (c <| c_intena := i |>) sC), i. split; [exact Hsw|]. split; [done|].
  assert (k_proc (resume p (c <| c_intena := i |>) sC) p = (k_proc sC p) <| p_lock := true |> <| p_state := RUNNING |>) as EpD
    by apply fn_lookup_insert.
  split; [by rewrite EpD|]. split.
  { change (vdisk_lock (k_vd sC) = false). by rewrite (ir_lock _ _ Hrel), EvB. }
  intros t' c' Hc' Ht'. split; [done|]. split; [done|]. split; [by apply vinv_lock|].
  assert (t' p = k_proc s p) as Etp.
  { rewrite (upd_at_eq _ _ _ _ Ht'), EpD, EpC. specialize (Hl p Hpn). by destruct (k_proc s p); cbn in *; subst. }
  split; [done|]. split.
  { intros q. change (k_proc (vlock true (ps _ t' c')) q) with (t' q). destruct (decide (q = p)) as [->|Hq]; [by left|].
    rewrite (upd_at_ne _ _ _ _ _ Ht') by done. unfold resume. ksimpl. rewrite fn_lookup_insert_ne by done.
    destruct (ir_wakes _ _ Hrel q) as [->|(_ & Hs & ->)]; rewrite EpB, decide_False in * by done; [by left|].
    right. split; [congruence|done]. }
  split.
  - assert (forall d bc tt cc, sC <| k_vd := d |> <| k_bc := bc |> <| k_proc := tt |> <| k_cpu := cc |> =
      transfer w b s <| k_vd := d |> <| k_bc := bc |> <| k_proc := tt |> <| k_cpu := cc |>) as HC.
    { intros. rewrite (ir_rest _ _ Hrel). unfold sB, idle. rewrite Hdev. by destruct w. }
    rewrite <- HC. done.
  - change (bc_lock (k_bc sC) = bc_lock (k_bc s)). rewrite (ir_bc _ _ Hrel). exact Fl.
  - intros q. change (bc_buf (k_bc sC) q = (bc_buf (k_bc (transfer w b s)) q) <| b_disk := if decide (q = b) then 0 else b_disk (bc_buf (k_bc s) q) |>).
    assert (bc_buf (k_bc sB) q = bc_buf (k_bc (transfer w b s)) q) as EbB.
    { change (bc_buf (k_bc sB)) with (bc_buf (k_bc (device sA))). rewrite Hdev. by destruct w. }
    rewrite (ir_buf _ _ Hrel q), EbB. case_decide as Eq; [by subst; rewrite Hb0|].
    rewrite Hkeep by (cbn; rewrite list_elem_of_singleton; done). rewrite EbB.
    destruct (transfer_fields w b s) as (_ & _ & _ & _ & Fs). by rewrite (Fs q).
Qed.

(** ** A whole transfer *)

Lemma ring_slot a : u16 (u16 (a + 1) - 1) mod NUM = a mod NUM.
Proof.
  rewrite <- (Z.add_0_r (u16 _)), u16_mod_num, Z.add_0_r. unfold Z.sub. rewrite u16_mod_num. f_equal. lia.
Qed.

(** The state when the request has been sent. *)
Record waiting (s : K) (b : nat) (w : bool) (idx : list Z) (s2 : K) : Prop := {
  wt_cpu : ceq (c_push (k_cpu s)) (k_cpu s2);
  wt_wakes : wakes (Some p) (k_proc s) (k_proc s2);
  wt_lock : vdisk_lock (k_vd s2) = true;
  wt_inv : vinv (k_vd s2) (bc_buf (k_bc s2)) [(b, idx)];
  wt_pend : pending (k_vd s2) = [];
  wt_req : request s2 (head idx) b (req_for w b s2) (req_flags (Z.b2z w));
  wt_rest : s2 = s <| k_vd := k_vd s2 |> <| k_bc := k_bc s2 |> <| k_proc := k_proc s2 |> <| k_cpu := k_cpu s2 |>;
  wt_bc : bc_lock (k_bc s2) = bc_lock (k_bc s);
  wt_buf q : bc_buf (k_bc s2) q = if decide (q = b) then (bc_buf (k_bc s) b) <| b_disk := 1 |> else bc_buf (k_bc s) q;
}.

Lemma wp_request s b w (Q : unit -> K -> Prop) :
  cpu_ok (k_cpu s) -> c_proc (k_cpu s) = Some p ->
  (forall q, (q < NPROC)%nat -> p_lock (k_proc s q) = false) ->
  vdisk_lock (k_vd s) = false -> fresh (k_vd s) -> 0 <= b_blockno (bc_buf (k_bc s) b) < 2 ^ 31 ->
  (forall idx s2, waiting s b w idx s2 ->
    wp (while (fun _ : unit =>
          x ← get_buf b;
          if b_disk x =? 1 then sleep (chan_disk b) vd_lk;; mret (inl tt) else mret (inr tt)) tt;;
        virtio_finish (head idx);; release vd_lk) Q s2) ->
  wp (virtio_disk_rw b (Z.b2z w)) Q s.
Proof.
  intros Hc Hp Hl Hvl Hf Hb HQ. unfold virtio_disk_rw. apply wp_bind, wp_gets, wp_bind, wp_acquire; [apply _|done|].
  set (s1 := lset vd_lk true _). assert (vinv (k_vd s1) (bc_buf (k_bc s1)) []) as Hv1 by (by apply vinv_lock, fresh_vinv).
  assert (can_wake s1) as Hw1 by (split; [by apply c_push_ok|]; intros q Hq _; by apply Hl).
  apply wp_bind, wp_while_once, wp_bind.
  eapply wp_mono; [apply (wp_alloc3_desc s1 []); [done|apply NoDup_nil_2|by apply Hv1]|].
  intros [idx|] sA [HA Hd Hres]; [|cbn in Hres; lia]. apply wp_ret. destruct Hres as (Hlen & Hr & Hn & HfA).
  destruct idx as [|i [|j [|k [|]]]]; try done. apply wp_bind.
  eapply wp_mono; [apply wp_virtio_send; [done|by rewrite app_nil_r in Hn]|]. intros [] s2 S. apply (HQ [i; j; k]).
  pose proof (vr_rest _ _ HA) as ErA. pose proof (vr_queue _ _ HA) as EqA. pose proof (se_rest _ _ _ _ _ _ _ _ S) as Er2.
  assert (forall q, bc_buf (k_bc sA) q = bc_buf (k_bc s) q) as EbA by (intros q; by rewrite ErA).
  split.
  - rewrite Er2. exact (vr_cpu _ _ HA).
  - rewrite Er2. pose proof (vr_wakes _ _ HA) as W. change (c_proc (k_cpu s1)) with (c_proc (k_cpu s)) in W. rewrite Hp in W. exact W.
  - rewrite (se_lock _ _ _ _ _ _ _ _ S), EqA. done.
  - eapply sent_vinv; [exact HA|done|exact S|done|done|done|apply not_elem_of_nil|done].
  - unfold pending. rewrite (se_used _ _ _ _ _ _ _ _ S), (se_used_idx _ _ _ _ _ _ _ _ S), EqA.
    apply pend_nil; [apply Hf|change (is16 (us_idx (vq_used (k_vd s)))); destruct Hf as (_ & ? & ->); done|].
    symmetry. apply Hf.
  - split.
    + rewrite (se_avail _ _ _ _ _ _ _ _ S), (se_avail_idx _ _ _ _ _ _ _ _ S), ring_slot. by rewrite decide_True.
    + cbn [head nth]. rewrite (se_op _ _ _ _ _ _ _ _ S). unfold req_for. rewrite (se_buf _ _ _ _ _ _ _ _ S), decide_True by done.
      rsimpl. rewrite EbA. f_equal; [by destruct w|]. rewrite u32_small; change (BSIZE / 512) with 2; lia.
    + exists j, k. split; [exact (se_desc0 _ _ _ _ _ _ _ _ S)|]. split; [exact (se_desc1 _ _ _ _ _ _ _ _ S)|exact (se_desc2 _ _ _ _ _ _ _ _ S)].
  - rewrite Er2, ErA. done.
  - rewrite (se_bc _ _ _ _ _ _ _ _ S). change (bc_lock (k_bc sA) = bc_lock (k_bc s)). by rewrite ErA.
  - intros q. rewrite (se_buf _ _ _ _ _ _ _ _ S). by rewrite !EbA.
Qed.

(** Sending the request does not touch what is transferred. *)
Lemma transfer_buf s b w idx s2 :
  waiting s b w idx s2 -> b_disk (bc_buf (k_bc s) b) = 0 -> forall q,
  (bc_buf (k_bc (transfer w b s2)) q) <| b_disk := if decide (q = b) then 0 else b_disk (bc_buf (k_bc s2) q) |> =
  bc_buf (k_bc (transfer w b s)) q.
Proof.
  intros HW Hb q. pose proof (wt_buf _ _ _ _ _ HW) as B2. pose proof (wt_rest _ _ _ _ _ HW) as E2.
  assert (k_disk s2 = k_disk s) as Ed by (rewrite E2; done). unfold transfer, set_data. destruct w; rsimpl; rewrite ?fn_insert_at.
  - rewrite B2. case_decide; subst; [|by destruct (bc_buf (k_bc s) q)].
    destruct (bc_buf (k_bc s) b); cbn in *; by subst.
  - rewrite !B2, Ed. rewrite (decide_True (P := b = b)) by done. case_decide; subst; [|by destruct (bc_buf (k_bc s) q)].
    destruct (bc_buf (k_bc s) b); cbn in *; by subst.
Qed.

Lemma transfer_rest s b w idx s2 d bc t c :
  waiting s b w idx s2 ->
  transfer w b s2 <| k_vd := d |> <| k_bc := bc |> <| k_proc := t |> <| k_cpu := c |> =
  transfer w b s <| k_vd := d |> <| k_bc := bc |> <| k_proc := t |> <| k_cpu := c |>.
Proof.
  intros HW. pose proof (wt_buf _ _ _ _ _ HW b) as B2. pose proof (wt_rest _ _ _ _ _ HW) as E2. rewrite decide_True in B2 by done.
  unfold transfer, set_data. destruct w; rewrite ?B2; rsimpl; generalize (b_data (bc_buf (k_bc s) b)); intros; rewrite E2; done.
Qed.

(** From the wake-up to the end. *)
Lemma wp_complete s b w idx s2 s3 :
  cpu_ok (k_cpu s) -> c_proc (k_cpu s) = Some p -> (forall q, (q < NPROC)%nat -> p_lock (k_proc s q) = false) ->
  b_disk (bc_buf (k_bc s) b) = 0 -> waiting s b w idx s2 ->
  ceq (c_push (k_cpu s)) (k_cpu s3) -> vdisk_lock (k_vd s3) = true -> vinv (k_vd s3) (bc_buf (k_bc s3)) [(b, idx)] ->
  wakes (Some p) (k_proc s2) (k_proc s3) -> moved w b s2 s3 ->
  wp (virtio_finish (head idx);; release vd_lk) (fun _ s' =>
    (forall q, bc_buf (k_bc s') q = bc_buf (k_bc (transfer w b s)) q) /\ bc_lock (k_bc s') = bc_lock (k_bc s) /\
    s' = transfer w b s <| k_vd := k_vd s' |> <| k_bc := k_bc s' |> <| k_proc := k_proc s' |> <| k_cpu := k_cpu s' |> /\
    fresh (k_vd s') /\ vdisk_lock (k_vd s') = false /\
    ceq (k_cpu s) (k_cpu s') /\ wakes (Some p) (k_proc s) (k_proc s')) s3.
Proof.
  intros Hc Hp Hl Hb HW C3 L3 V3 W3 [R3 X3 B3]. pose proof (wt_wakes _ _ _ _ _ HW) as W2. pose proof (wt_bc _ _ _ _ _ HW) as X2.
  assert (c_proc (k_cpu s3) = Some p) as Ep3 by (rewrite <- Hp; apply C3).
  assert (wakes (Some p) (k_proc s) (k_proc s3)) as W03 by (by etrans).
  apply wp_bind. eapply wp_mono; [apply (wp_virtio_finish s3 b idx [])|].
  { split; [eapply ceq_ok; [exact C3|by apply c_push_ok]|]. rewrite Ep3. eapply wakes_locks; [exact W03|]. intros q Hq _. by apply Hl. }
  { done. }
  { rewrite B3, decide_True by done. done. }
  intros [] s4 ([C4 W4 L4] & R4 & V4). apply (wp_release_ceq _ (k_cpu s)); [done|by etrans|by rewrite <- L3, <- L4|].
  intros c Hcc. rewrite Ep3 in W4. split; [|split; [|split; [|split; [|split; [|split]]]]].
  - intros q. change (bc_buf (k_bc s4) q = bc_buf (k_bc (transfer w b s)) q). rewrite R4.
    change (bc_buf (k_bc s3) q = bc_buf (k_bc (transfer w b s)) q). rewrite B3.
    exact (transfer_buf _ _ _ _ _ HW Hb q).
  - change (bc_lock (k_bc s4) = bc_lock (k_bc s)). rewrite R4. rewrite <- X2, <- X3. done.
  - assert (forall d bc tt cc, s4 <| k_vd := d |> <| k_bc := bc |> <| k_proc := tt |> <| k_cpu := cc |> =
      transfer w b s <| k_vd := d |> <| k_bc := bc |> <| k_proc := tt |> <| k_cpu := cc |>) as HC.
    { intros. rewrite <- (transfer_rest _ _ _ _ _ d bc tt cc HW), R4, R3. done. }
    rewrite <- HC. done.
  - eapply vinv_fresh, vinv_lock, V4.
  - done.
  - done.
  - change (wakes (Some p) (k_proc s) (k_proc s4)). by etrans.
Qed.

(** C4: [virtio_disk_rw] transfers the block.  Called by a process that has
    the machine to itself, it returns once the device has served the request
    and the interrupt handler has woken the process.  Then the disk and the
    buffers are as the contract of the file system has it: the block has been
    written with the data of the buffer, or read into it, and nothing else has
    changed, except that sleepers may have been woken.  The driver's lock is
    free, all its descriptors are free again and its rings are idle. *)
Theorem virtio_transfers s b w :
  cpu_ok (k_cpu s) -> c_noff (k_cpu s) = 0 -> c_proc (k_cpu s) = Some p -> (p < NPROC)%nat ->
  (forall q, (q < NPROC)%nat -> p_lock (k_proc s q) = false) ->
  p_state (k_proc s p) = RUNNING -> p_chan (k_proc s p) = 0 ->
  vdisk_lock (k_vd s) = false -> fresh (k_vd s) ->
  b_disk (bc_buf (k_bc s) b) = 0 -> 0 <= b_blockno (bc_buf (k_bc s) b) < 2 ^ 31 ->
  exists s', virtio_disk_rw b (Z.b2z w) s = Ok tt s' /\
    (forall q, bc_buf (k_bc s') q = bc_buf (k_bc (transfer w b s)) q) /\ bc_lock (k_bc s') = bc_lock (k_bc s) /\
    s' = transfer w b s <| k_vd := k_vd s' |> <| k_bc := k_bc s' |> <| k_proc := k_proc s' |> <| k_cpu := k_cpu s' |> /\
    fresh (k_vd s') /\ vdisk_lock (k_vd s') = false /\
    ceq (k_cpu s) (k_cpu s') /\ wakes (Some p) (k_proc s) (k_proc s').
Proof.
  intros Hc Hn Hp Hpn Hl Hst Hch Hvl Hf Hb Hbn. apply wp_unit. apply wp_request; try done.
  intros idx s2 [C2 W2 L2 V2 P2 R2 E2 X2 B2].
  assert (forall q, (q < NPROC)%nat -> p_lock (k_proc s2 q) = false) as Hl2.
  { intros q Hq. destruct (W2 q) as [->|(_ & _ & ->)]; [|rsimpl]; by apply Hl. }
  assert (k_proc s2 p = k_proc s p) as Ep2 by (by destruct (W2 p) as [->|(? & _)]).
  apply wp_bind, (wp_while_idx (fun n _ s' => (n = 1%nat /\ s' = s2) \/ (n = 0%nat /\
    ceq (c_push (k_cpu s)) (k_cpu s') /\ vdisk_lock (k_vd s') = true /\ vinv (k_vd s') (bc_buf (k_bc s')) [(b, idx)] /\
    k_proc s' p = k_proc s2 p /\ wakes (Some p) (k_proc s2) (k_proc s') /\ moved w b s2 s')) _ _ 1).
  - intros n [] s' [[-> ->]|(-> & H)].
    + apply wp_bind, wp_gets. rewrite B2, decide_True by done. rsimpl. cbn [Z.eqb Pos.eqb]. apply wp_bind.
      eapply wp_mono; [apply (wp_wait s2 (k_cpu s) b idx w); try done; by rewrite ?Ep2, ?B2, ?decide_True|].
      intros [] s3 H3. apply wp_ret. exists 0%nat. split; [lia|]. by right.
    + destruct H as (C3 & L3 & V3 & P3 & W3 & M3). destruct M3 as [R3 X3 B3].
      apply wp_bind, wp_gets. rewrite B3, decide_True by done. rsimpl. cbn [Z.eqb]. apply wp_ret.
      by apply (wp_complete s b w idx s2).
  - by left.
  - done.
Qed.
End device.

(** ** A small machine with a disk *)
Module VirtioDiskDemo.

Definition data0 : Z := 0x80030000.
Definition vio : Vio := {| read_mmio := fun _ => mret 0; disk_at := 0x80020000; data_at := fun b => data0 + 1024 * Z.of_nat b |}.

Lemma vio_reads : @VioOk vio.
Proof. split. intros r s. by exists 0. Qed.

(** A device that serves the latest request. *)
Definition device (s : K) : K :=
  let d := k_vd s in
  let h := av_ring (vq_avail d) (u16 (av_idx (vq_avail d) - 1) mod NUM) in
  let b := Z.to_nat ((dc_addr (vq_desc d (dc_next (vq_desc d h))) - data0) / 1024) in
  let n := rq_sector (vd_ops d h) / 2 in
  if rq_type (vd_ops d h) =? VIRTIO_BLK_T_OUT
  then s <| k_vd ::= serve h 1 |> <| k_disk ::= dwrite n (b_data (bc_buf (k_bc s) b)) |>
  else set_data b (dblock (k_disk s) n) (s <| k_vd ::= serve h (BSIZE + 1) |>).

Lemma device_ok : @DeviceOk vio device.
Proof.
  split; intros s h b n [R1 R2 (j & k & R3 & R4 & R5)]; unfold device; rewrite R1, R2, R3; cbn [dc_next]; rewrite R4;
    cbn [dc_addr rq_type rq_sector data_at vio Z.eqb VIRTIO_BLK_T_OUT VIRTIO_BLK_T_IN Pos.eqb];
    rewrite (Z.mul_comm 2 n), Z.div_mul by lia;
    replace (data0 + 1024 * Z.of_nat b - data0) with (Z.of_nat b * 1024) by lia; rewrite Z.div_mul, Nat2Z.id by lia; done.
Qed.

(** Process 0 sleeps until the disk has served it. *)
Definition env : Env := {|
  swtch := fun s =>
    match @virtio_disk_intr vio (idle 0 (device s)) with
    | Ok _ s2 => if decide (p_state (k_proc s2 0%nat) = RUNNABLE) then Ok tt (resume 0 (k_cpu s) s2) else Fault
    | _ => Fault
    end;
  run := fun _ => mret tt;
  disk_rw := fun _ _ => mret tt;
  read_reg := fun _ => mret 0;
  plic_reg := mret 0;
  disk_intr := mret tt;
  disk_init := mret tt;
  sym_forkret := 0;
  sym_usertrap := 0;
  sym_kernelvec := 0;
  sym_uservec := 0;
  sym_userret := 0;
  junk := fun _ => 0;
|}.

Lemma alone : @Alone env vio 0 device.
Proof.
  split. intros s s2 Hi Hs. exists (c_intena (k_cpu s)). cbn [swtch env]. rewrite Hi, decide_True by done.
  by destruct (k_cpu s).
Qed.

(** Buffer 3 is to be written to block 7. *)
Definition block7 : buf := mkBuf 1 0 1 7 KDemo.unlocked 1 0 0 [1; 2; 3].
Definition start : K :=
  KDemo.k0 <| k_vd := KDemo.vdisk0 <| vd_free := fun _ => 1 |> |>
    <| k_cpu := KDemo.cpu0 <| c_proc := Some 0%nat |> |>
    <| k_proc := fun q => if decide (q = 0%nat) then KDemo.proc0 <| p_state := RUNNING |> else KDemo.proc0 |>
    <| k_bc := mkBcache false (fun q => if decide (q = 3%nat) then block7 else KDemo.buf0) |>.

Lemma virtio_transfers_witness :
  exists s', @virtio_disk_rw env vio 3 1 start = Ok tt s' /\ d_block (k_disk s') !! 7 = Some [1; 2; 3] /\ fresh (k_vd s').
Proof.
  destruct (@virtio_transfers env vio 0 device vio_reads device_ok alone start 3 true) as (s' & Hm & _ & _ & Hr & Hf & _).
  - split; [done|]. done.
  - done.
  - done.
  - by apply Nat.ltb_lt.
  - intros q _. unfold start. rsimpl. by case_decide.
  - done.
  - done.
  - done.
  - split; [done|]. by split.
  - done.
  - by split.
  - exists s'. split; [exact Hm|]. split; [|done]. rewrite Hr. apply lookup_insert_eq.
Defined.
End VirtioDiskDemo.
