(* ===== verification/Fs.v ===== *)
(** * Fs: the file system, [kernel/fs.c]

    Blocks, inodes, the content of files, directories and path names.  A
    directory entry is its 16 bytes, a C string the list of its bytes
    without the terminating zero. *)

From stdpp Require Import base list gmap functions strings.
From Stdlib Require Import ZArith Lia.
From S2P Require Import Prelude CMem Riscv Spinlock Kalloc Vm Que KState Printf Proc Bio Log.

Definition i16 (x : Z) : Z := (x + 2 ^ 15) mod 2 ^ 16 - 2 ^ 15.

(** [struct superblock] in block 1. *)
Definition decode_sb (d : list Z) : superblock :=
  mkSb (ld32 d 0) (ld32 d 4) (ld32 d 8) (ld32 d 12) (ld32 d 16) (ld32 d 20) (ld32 d 24) (ld32 d 28).

(** [struct dinode]: where inode [inum] is in its block, and the offset of
    its block addresses. *)
Definition dinode_off (inum : Z) : Z := inum mod IPB * DINODE_SIZE.
Definition di_addr (off : Z) (i : nat) : Z := off + 12 + 4 * Z.of_nat i.
Definition addr_slots : list nat := seq 0 (NDIRECT + 1).

(** Bit [m] of byte [i] of a bitmap block. *)
Definition getb (d : list Z) (i : Z) : Z := nth (Z.to_nat i) d 0.
Definition setb (d : list Z) (i v : Z) : list Z := <[Z.to_nat i := u8 v]> d.

(** [strncmp] and [strncpy] on arrays of at most [n] bytes. *)
Definition arr_strncmp (s t : list Z) (n : Z) : Z :=
  CString.strncmp (wrbytes (wrbytes ∅ 0 s) n t) 0 n n.
Definition arr_strncpy (old src : list Z) (n : Z) : list Z :=
  rdbytes (CString.strncpy (wrbytes (wrbytes ∅ 0 old) n src) 0 n n) 0 (Z.to_nat n).

(** [dst += m], [src += m]. *)
Definition dst_add (dst : kdst) (m : Z) : kdst :=
  match dst with UserDst va => UserDst (u64 (va + m)) | KernDst pa => KernDst (u64 (pa + m)) | Local => Local end.
Definition src_add (src : ksrc) (m : Z) : ksrc :=
  match src with UserSrc va => UserSrc (u64 (va + m)) | KernSrc l => KernSrc (drop (Z.to_nat m) l) end.

(** [struct stat] *)
Record stat := mkStat { st_dev : Z; st_ino : Z; st_type : Z; st_nlink : Z; st_size : Z }.

(** ** Path elements *)

Definition SLASH : Z := 47.

Fixpoint skip_slashes (path : list Z) : list Z :=
  match path with c :: path' => if c =? SLASH then skip_slashes path' else path | [] => [] end.

(** The element at the start of [path], and what follows it. *)
Fixpoint span_elem (path : list Z) : list Z * list Z :=
  match path with
  | [] => ([], [])
  | c :: path' =>
      if c =? SLASH then ([], path) else
      let '(s, rest) := span_elem path' in (c :: s, rest)
  end.

Definition skipelem (path name : list Z) : option (list Z * list Z) :=
  match skip_slashes path with
  | [] => None
  | path =>
      let '(s, path) := span_elem path in
      let len := Z.of_nat (length s) in
      let name :=
        if DIRSIZ <=? len then take (Z.to_nat DIRSIZ) s
        else s ++ 0 :: drop (S (length s)) name in
      Some (skip_slashes path, name)
  end.

Definition namecmp (s t : list Z) : Z := arr_strncmp s t DIRSIZ.

Section fs.
Context `{L : Layout} `{E : Env}.

Definition sb : M K superblock := gets (fun s => it_sb (k_it s)).

Definition readsb (dev : Z) : M K unit :=
  bp ← bread dev 1;
  d ← get_data bp;
  modify (fun s => s <| k_it ::= fun it => it <| it_sb := decode_sb d |> |>);;
  brelse bp.

Definition fsinit (dev : Z) : M K unit :=
  readsb dev;;
  b ← sb;
  if negb (sb_magic b =? FSMAGIC) then panic "invalid file system" else
  initlog dev b.

(** ** Blocks *)

Definition bzero (dev bno : Z) : M K unit :=
  bp ← bread dev bno;
  upd_data bp (fun _ => replicate (Z.to_nat BSIZE) 0);;
  log_write bp;;
  brelse bp.

Definition balloc (dev : Z) : M K Z :=
  r ← while (fun b =>
    sb_ ← sb;
    if negb (b <? sb_size sb_) then mret (inr None) else
    bp ← bread dev (BBLOCK b sb_);
    r ← while (fun bi =>
      sb_ ← sb;
      if negb ((bi <? BPB) && (b + bi <? sb_size sb_)) then mret (inr None) else
      let m := Z.shiftl 1 (bi mod 8) in
      d ← get_data bp;
      if Z.land (getb d (bi / 8)) m =? 0 then
        upd_data bp (fun d => setb d (bi / 8) (Z.lor (getb d (bi / 8)) m));;
        log_write bp;;
        brelse bp;;
        bzero dev (b + bi);;
        mret (inr (Some (b + bi)))
      else mret (inl (bi + 1))) 0;
    match r with
    | Some v => mret (inr (Some v))
    | None => brelse bp;; mret (inl (b + BPB))
    end) 0;
  match r with
  | Some v => mret v
  | None => printf ("balloc: out of blocks" +:+ newline) [];; mret 0
  end.

Definition bfree (dev b : Z) : M K unit :=
  sb_ ← sb;
  bp ← bread dev (BBLOCK b sb_);
  let bi := b mod BPB in
  let m := Z.shiftl 1 (bi mod 8) in
  d ← get_data bp;
  if Z.land (getb d (bi / 8)) m =? 0 then panic "freeing free block" else
  upd_data bp (fun d => setb d (bi / 8) (Z.land (getb d (bi / 8)) (Z.lnot m)));;
  log_write bp;;
  brelse bp.

(** ** Inodes *)

Definition iinit : M K unit :=
  initlock it_lk;;
  for_each (seq 0 NINODE) (fun i => initsleeplock (inode_lock i)).

(** The body of the loop of [iget]: [inr] returns, [inl] is [empty]. *)
Definition iget_step (dev inum : Z) (ip : nat) (empty : option nat) : M K (option nat + nat) :=
  x ← get_inode ip;
  if (0 <? i_ref x) && (i_dev x =? dev) && (i_inum x =? inum) then
    n ← int_op (i_ref x + 1);
    upd_inode ip (fun x => x <| i_ref := n |>);;
    release it_lk;;
    mret (inr ip)
  else
    mret (inl (if bool_decide (empty = None) && (i_ref x =? 0) then Some ip else empty)).

Definition iget (dev inum : Z) : M K nat :=
  acquire it_lk;;
  r ← for_st (seq 0 NINODE) (iget_step dev inum) None;
  match r with
  | inr ip => mret ip
  | inl None => panic "iget: no inodes"
  | inl (Some ip) =>
      upd_inode ip (fun x => x <| i_dev := dev |>);;
      upd_inode ip (fun x => x <| i_inum := inum |>);;
      upd_inode ip (fun x => x <| i_ref := 1 |>);;
      upd_inode ip (fun x => x <| i_valid := 0 |>);;
      release it_lk;;
      mret ip
  end.

Definition ialloc (dev type : Z) : M K (option nat) :=
  r ← while (fun inum =>
    sb_ ← sb;
    if negb (inum <? sb_ninodes sb_) then mret (inr None) else
    bp ← bread dev (IBLOCK inum sb_);
    let dip := dinode_off inum in
    d ← get_data bp;
    if i16 (ld 2 d dip) =? 0 then
      upd_data bp (fun d => list_inserts (Z.to_nat dip) (replicate (Z.to_nat DINODE_SIZE) 0) d);;
      upd_data bp (fun d => st 2 d dip type);;
      log_write bp;;
      brelse bp;;
      ip ← iget dev inum;
      mret (inr (Some ip))
    else
      brelse bp;;
      mret (inl (inum + 1))) 1;
  match r with
  | Some ip => mret (Some ip)
  | None => printf ("ialloc: no inodes" +:+ newline) [];; mret None
  end.

Definition iupdate (ip : nat) : M K unit :=
  x ← get_inode ip;
  sb_ ← sb;
  bp ← bread (i_dev x) (IBLOCK (i_inum x) sb_);
  x ← get_inode ip;
  let dip := dinode_off (i_inum x) in
  upd_data bp (fun d => st 2 d dip (i_type x));;
  upd_data bp (fun d => st 2 d (dip + 2) (i_major x));;
  upd_data bp (fun d => st 2 d (dip + 4) (i_minor x));;
  upd_data bp (fun d => st 2 d (dip + 6) (i_nlink x));;
  upd_data bp (fun d => st32 d (dip + 8) (i_size x));;
  for_each addr_slots (fun i => upd_data bp (fun d => st32 d (di_addr dip i) (i_addrs x i)));;
  log_write bp;;
  brelse bp.

Definition idup (ip : nat) : M K nat :=
  acquire it_lk;;
  x ← get_inode ip;
  n ← int_op (i_ref x + 1);
  upd_inode ip (fun x => x <| i_ref := n |>);;
  release it_lk;;
  mret ip.

Definition ilock (o : option nat) : M K unit :=
  match o with
  | None => panic "ilock"
  | Some ip =>
      x ← get_inode ip;
      if i_ref x <? 1 then panic "ilock" else
      acquiresleep (inode_lock ip);;
      x ← get_inode ip;
      when (i_valid x =? 0)
        (sb_ ← sb;
         bp ← bread (i_dev x) (IBLOCK (i_inum x) sb_);
         d ← get_data bp;
         let dip := dinode_off (i_inum x) in
         upd_inode ip (fun x => x <| i_type := i16 (ld 2 d dip) |>);;
         upd_inode ip (fun x => x <| i_major := i16 (ld 2 d (dip + 2)) |>);;
         upd_inode ip (fun x => x <| i_minor := i16 (ld 2 d (dip + 4)) |>);;
         upd_inode ip (fun x => x <| i_nlink := i16 (ld 2 d (dip + 6)) |>);;
         upd_inode ip (fun x => x <| i_size := ld32 d (dip + 8) |>);;
         for_each addr_slots (fun i =>
           upd_inode ip (fun x => x <| i_addrs ::= fun a => <[i := ld32 d (di_addr dip i)]> a |>));;
         brelse bp;;
         upd_inode ip (fun x => x <| i_valid := 1 |>);;
         x ← get_inode ip;
         if i_type x =? 0 then panic "ilock: no type" else mret tt)
  end.

Definition iunlock (o : option nat) : M K unit :=
  match o with
  | None => panic "iunlock"
  | Some ip =>
      h ← holdingsleep (inode_lock ip);
      x ← get_inode ip;
      if negb h || (i_ref x <? 1) then panic "iunlock" else
      releasesleep (inode_lock ip)
  end.

(** ** Inode content *)

Definition bmap (ip : nat) (bn : Z) : M K Z :=
  x ← get_inode ip;
  if bn <? Z.of_nat NDIRECT then
    let addr := i_addrs x (Z.to_nat bn) in
    if addr =? 0 then
      addr ← balloc (i_dev x);
      if addr =? 0 then mret 0 else
      upd_inode ip (fun x => x <| i_addrs ::= fun a => <[Z.to_nat bn := addr]> a |>);;
      mret addr
    else mret addr
  else
    let bn := bn - Z.of_nat NDIRECT in
    if bn <? NINDIRECT then
      let addr := i_addrs x NDIRECT in
      addr ←
        (if addr =? 0 then
           addr ← balloc (i_dev x);
           when (negb (addr =? 0)) (upd_inode ip (fun x => x <| i_addrs ::= fun a => <[NDIRECT := addr]> a |>));;
           mret addr
         else mret addr);
      if addr =? 0 then mret 0 else
      x ← get_inode ip;
      bp ← bread (i_dev x) addr;
      a ← get_data bp;
      let addr := ld32 a (4 * bn) in
      addr ←
        (if addr =? 0 then
           x ← get_inode ip;
           addr ← balloc (i_dev x);
           when (negb (addr =? 0))
             (upd_data bp (fun a => st32 a (4 * bn) addr);;
              log_write bp);;
           mret addr
         else mret addr);
      brelse bp;;
      mret addr
    else panic "bmap: out of range".

Definition itrunc (ip : nat) : M K unit :=
  for_each (seq 0 NDIRECT) (fun i =>
    x ← get_inode ip;
    when (negb (i_addrs x i =? 0))
      (bfree (i_dev x) (i_addrs x i);;
       upd_inode ip (fun x => x <| i_addrs ::= fun a => <[i := 0]> a |>)));;
  x ← get_inode ip;
  when (negb (i_addrs x NDIRECT =? 0))
    (bp ← bread (i_dev x) (i_addrs x NDIRECT);
     for_each (seq 0 (Z.to_nat NINDIRECT)) (fun j =>
       a ← get_data bp;
       let aj := ld32 a (4 * Z.of_nat j) in
       x ← get_inode ip;
       when (negb (aj =? 0)) (bfree (i_dev x) aj));;
     brelse bp;;
     x ← get_inode ip;
     bfree (i_dev x) (i_addrs x NDIRECT);;
     upd_inode ip (fun x => x <| i_addrs ::= fun a => <[NDIRECT := 0]> a |>));;
  upd_inode ip (fun x => x <| i_size := 0 |>);;
  iupdate ip.

Definition iput (ip : nat) : M K unit :=
  acquire it_lk;;
  x ← get_inode ip;
  when ((i_ref x =? 1) && negb (i_valid x =? 0) && (i_nlink x =? 0))
    (acquiresleep (inode_lock ip);;
     release it_lk;;
     itrunc ip;;
     upd_inode ip (fun x => x <| i_type := 0 |>);;
     iupdate ip;;
     upd_inode ip (fun x => x <| i_valid := 0 |>);;
     releasesleep (inode_lock ip);;
     acquire it_lk);;
  x ← get_inode ip;
  n ← int_op (i_ref x - 1);
  upd_inode ip (fun x => x <| i_ref := n |>);;
  release it_lk.

Definition iunlockput (ip : nat) : M K unit :=
  iunlock (Some ip);;
  iput ip.

Definition stati (ip : nat) : M K stat :=
  x ← get_inode ip;
  mret (mkStat (i32 (i_dev x)) (i_inum x) (i_type x) (i_nlink x) (i_size x)).

(** The result of [readi] is the return value and the bytes copied. *)
Definition readi (ip : nat) (dst : kdst) (off n : Z) : M K (Z * list Z) :=
  x ← get_inode ip;
  if (i_size x <? off) || (u32 (off + n) <? off) then mret (0, []) else
  let n := if i_size x <? u32 (off + n) then u32 (i_size x - off) else n in
  while (fun '(tot, off, dst, acc) =>
    if negb (tot <? n) then mret (inr (i32 tot, acc)) else
    addr ← bmap ip (off / BSIZE);
    if addr =? 0 then mret (inr (i32 tot, acc)) else
    x ← get_inode ip;
    bp ← bread (i_dev x) addr;
    let m := Z.min (n - tot) (BSIZE - off mod BSIZE) in
    d ← get_data bp;
    let chunk := take (Z.to_nat m) (drop (Z.to_nat (off mod BSIZE)) d) in
    r ← either_copyout dst chunk;
    if r =? -1 then
      brelse bp;;
      mret (inr (-1, acc))
    else
    brelse bp;;
    mret (inl (u32 (tot + m), u32 (off + m), dst_add dst m, acc ++ chunk))) (0, off, dst, []).

Definition writei (ip : nat) (src : ksrc) (off n : Z) : M K Z :=
  x ← get_inode ip;
  if (i_size x <? off) || (u32 (off + n) <? off) then mret (-1) else
  if MAXFILE * BSIZE <? u32 (off + n) then mret (-1) else
  '(tot, off) ← while (fun '(tot, off, src) =>
    if negb (tot <? n) then mret (inr (tot, off)) else
    addr ← bmap ip (off / BSIZE);
    if addr =? 0 then mret (inr (tot, off)) else
    x ← get_inode ip;
    bp ← bread (i_dev x) addr;
    let m := Z.min (n - tot) (BSIZE - off mod BSIZE) in
    '(r, l) ← either_copyin src m;
    upd_data bp (fun d => list_inserts (Z.to_nat (off mod BSIZE)) l d);;
    if r =? -1 then
      brelse bp;;
      mret (inr (tot, off))
    else
    log_write bp;;
    brelse bp;;
    mret (inl (u32 (tot + m), u32 (off + m), src_add src m))) (0, off, src);
  x ← get_inode ip;
  when (i_size x <? off) (upd_inode ip (fun x => x <| i_size := off |>));;
  iupdate ip;;
  mret (i32 tot).

(** ** Directories *)

(** The inode, with the offset stored through [poff]. *)
Definition dirlookup (dp : nat) (name : list Z) : M K (option (nat * Z)) :=
  x ← get_inode dp;
  if negb (i_type x =? T_DIR) then panic "dirlookup not DIR" else
  while (fun off =>
    x ← get_inode dp;
    if negb (off <? i_size x) then mret (inr None) else
    '(r, de) ← readi dp Local off DIRENT_SIZE;
    if negb (r =? DIRENT_SIZE) then panic "dirlookup read" else
    if ld 2 de 0 =? 0 then mret (inl (u32 (off + DIRENT_SIZE))) else
    if namecmp name (drop 2 de) =? 0 then
      x ← get_inode dp;
      ip ← iget (i_dev x) (ld 2 de 0);
      mret (inr (Some (ip, off)))
    else mret (inl (u32 (off + DIRENT_SIZE)))) 0.

Definition dirlink (dp : nat) (name : list Z) (inum : Z) : M K Z :=
  r ← dirlookup dp name;
  match r with
  | Some (ip, _) => iput ip;; mret (-1)
  | None =>
      off ← while (fun off =>
        x ← get_inode dp;
        if negb (u32 off <? i_size x) then mret (inr off) else
        '(r, de) ← readi dp Local (u32 off) DIRENT_SIZE;
        if negb (r =? DIRENT_SIZE) then panic "dirlink read" else
        if ld 2 de 0 =? 0 then mret (inr off) else
        mret (inl (i32 (off + DIRENT_SIZE)))) 0;
      let de := le_bytes 2 inum ++ arr_strncpy [] name DIRSIZ in
      r ← writei dp (KernSrc de) (u32 off) DIRENT_SIZE;
      mret (if r =? DIRENT_SIZE then 0 else -1)
  end.

(** ** Path names *)

Definition namex (path : list Z) (nameiparent : bool) (name : list Z) : M K (option nat * list Z) :=
  ip ← (if hd 0 path =? SLASH then iget ROOTDEV ROOTINO
        else p ← cur; x ← get_proc p; cwd ← deref (p_cwd x); idup cwd);
  while (fun '(ip, path, name) =>
    match skipelem path name with
    | None =>
        if nameiparent then iput ip;; mret (inr (None, name))
        else mret (inr (Some ip, name))
    | Some (path, name) =>
        ilock (Some ip);;
        x ← get_inode ip;
        if negb (i_type x =? T_DIR) then
          iunlockput ip;; mret (inr (None, name))
        else if nameiparent && bool_decide (path = []) then
          iunlock (Some ip);; mret (inr (Some ip, name))
        else
        next ← dirlookup ip name;
        match next with
        | None => iunlockput ip;; mret (inr (None, name))
        | Some (next, _) =>
            iunlockput ip;;
            mret (inl (next, path, name))
        end
    end) (ip, path, name).

Definition namei (path : list Z) : M K (option nat) :=
  '(ip, _) ← namex path false (replicate (Z.to_nat DIRSIZ) 0);
  mret ip.

Definition nameiparent (path name : list Z) : M K (option nat * list Z) :=
  namex path true name.

End fs.
