(* ===== verification/Console.v ===== *)
(** * Console: console input and output, [kernel/uart.c],
      [kernel/console.c] and [kernel/plic.c]

    What [printf] uses of them ([uartputc_sync], [consputc]) is in
    [Printf]. *)

From stdpp Require Import base list gmap functions strings.
From Stdlib Require Import ZArith Lia.
From S2P Require Import Prelude CMem Riscv Spinlock Kalloc Vm Que KState Printf Proc.

(** ** Registers of the UART *)

(** A write to a control register. *)
Definition WriteReg (reg v : Z) : M K unit := upd_con (fun k => k <| uart_cfg ::= cons (reg, v) |>).

(** ** Registers of the PLIC *)
Definition PLIC_SENABLE (hart : Z) : Z := PLIC + 0x2080 + hart * 0x100.
Definition PLIC_SPRIORITY (hart : Z) : Z := PLIC + 0x201000 + hart * 0x2000.
Definition PLIC_SCLAIM (hart : Z) : Z := PLIC + 0x201004 + hart * 0x2000.

Definition plic_write (a v : Z) : M K unit := upd_con (fun k => k <| plic_out ::= cons (a, v) |>).

(** [C(x)]: control-x. *)
Definition ctrl (x : Z) : Z := x - 64.
Definition CONSOLE : Z := 1.

Section console.
Context `{L : Layout} `{E : Env}.

(** ** [kernel/uart.c] *)

Definition uartinit : M K unit :=
  WriteReg IER 0;;
  WriteReg LCR LCR_BAUD_LATCH;;
  WriteReg 0 3;;
  WriteReg 1 0;;
  WriteReg LCR LCR_EIGHT_BITS;;
  WriteReg FCR (Z.lor FCR_FIFO_ENABLE FCR_FIFO_CLEAR);;
  WriteReg IER (Z.lor IER_TX_ENABLE IER_RX_ENABLE);;
  initlock uart_lk.

Definition uartstart : M K unit :=
  while (fun _ : unit =>
    k ← gets k_con;
    if uart_tx_w k =? uart_tx_r k then mret (inr tt) else
    v ← read_reg LSR;
    if negb (has v LSR_TX_IDLE) then mret (inr tt) else
    k ← gets k_con;
    let c := uart_tx_buf k (uart_tx_r k mod UART_TX_BUF_SIZE) in
    upd_con (fun k => k <| uart_tx_r := u64 (uart_tx_r k + 1) |>);;
    wakeup chan_uart;;
    write_thr c;;
    mret (inl tt)) tt.

Definition uartputc (c : Z) : M K unit :=
  acquire uart_lk;;
  k ← gets k_con;
  if panicked k then out_of_fuel else
  while (fun _ : unit =>
    k ← gets k_con;
    if negb (uart_tx_w k =? u64 (uart_tx_r k + UART_TX_BUF_SIZE)) then mret (inr tt) else
    sleep chan_uart uart_lk;;
    mret (inl tt)) tt;;
  upd_con (fun k => k <| uart_tx_buf ::= fun t => <[uart_tx_w k mod UART_TX_BUF_SIZE := u8 c]> t |>);;
  upd_con (fun k => k <| uart_tx_w := u64 (uart_tx_w k + 1) |>);;
  uartstart;;
  release uart_lk.

Definition uartgetc : M K Z :=
  v ← read_reg LSR;
  if has v 1 then read_reg RHR else mret (-1).

(** ** [kernel/console.c] *)

(** [src] is an address of the current process ([user_src] is 1 in every
    call). *)
Definition consolewrite (src n : Z) : M K Z :=
  while (fun i =>
    if negb (i <? n) then mret (inr i) else
    '(r, l) ← either_copyin (UserSrc (u64 (src + i))) 1;
    if r =? -1 then mret (inr i) else
    uartputc (hd 0 l);;
    mret (inl (i + 1))) 0.

(** The inner loop of [consoleread]: whether the process was killed. *)
Definition cons_wait : M K bool :=
  while (fun _ : unit =>
    k ← gets k_con;
    if negb (cons_r k =? cons_w k) then mret (inr false) else
    p ← cur;
    d ← killed p;
    if negb (d =? 0) then release cons_lk;; mret (inr true) else
    sleep chan_cons cons_lk;;
    mret (inl tt)) tt.

Definition consoleread (dst n : Z) : M K Z :=
  let target := u32 n in
  acquire cons_lk;;
  r ← while (fun '(dst, n) =>
    if negb (0 <? n) then mret (inr (Some n)) else
    d ← cons_wait;
    if (d : bool) then mret (inr None) else
    k ← gets k_con;
    let c := cons_buf k (cons_r k mod INPUT_BUF_SIZE) in
    upd_con (fun k => k <| cons_r := u32 (cons_r k + 1) |>);;
    if c =? ctrl 68 then
      when (n <? target) (upd_con (fun k => k <| cons_r := u32 (cons_r k - 1) |>));;
      mret (inr (Some n))
    else
    r ← either_copyout (UserDst dst) [c];
    if r =? -1 then mret (inr (Some n)) else
    let dst := u64 (dst + 1) in
    let n := n - 1 in
    if c =? 10 then mret (inr (Some n)) else mret (inl (dst, n))) (dst, n);
  match r with
  | None => mret (-1)
  | Some n => release cons_lk;; mret (i32 (target - n))
  end.

Definition consoleintr (c : Z) : M K unit :=
  acquire cons_lk;;
  (if c =? ctrl 80 then procdump
   else if c =? ctrl 85 then
     while (fun _ : unit =>
       k ← gets k_con;
       if negb (cons_e k =? cons_w k) && negb (cons_buf k (u32 (cons_e k - 1) mod INPUT_BUF_SIZE) =? 10) then
         upd_con (fun k => k <| cons_e := u32 (cons_e k - 1) |>);;
         consputc BACKSPACE;;
         mret (inl tt)
       else mret (inr tt)) tt
   else if (c =? ctrl 72) || (c =? 0x7f) then
     k ← gets k_con;
     when (negb (cons_e k =? cons_w k))
       (upd_con (fun k => k <| cons_e := u32 (cons_e k - 1) |>);;
        consputc BACKSPACE)
   else
     k ← gets k_con;
     when (negb (c =? 0) && (u32 (cons_e k - cons_r k) <? INPUT_BUF_SIZE))
       (let c := if c =? 13 then 10 else c in
        consputc c;;
        upd_con (fun k => k <| cons_buf ::= fun t => <[cons_e k mod INPUT_BUF_SIZE := u8 c]> t |>);;
        upd_con (fun k => k <| cons_e := u32 (cons_e k + 1) |>);;
        k ← gets k_con;
        when ((c =? 10) || (c =? ctrl 68) || (u32 (cons_e k - cons_r k) =? INPUT_BUF_SIZE))
          (upd_con (fun k => k <| cons_w := cons_e k |>);;
           wakeup chan_cons)));;
  release cons_lk.

Definition consoleinit : M K unit :=
  initlock cons_lk;;
  uartinit;;
  upd_con (fun k => k <| cons_installed := true |>).

(** [devsw[major].read], [devsw[major].write]: [None] is a null pointer. *)
Definition devsw_read (major : Z) : M K (option (Z -> Z -> M K Z)) :=
  k ← gets k_con;
  mret (if (major =? CONSOLE) && cons_installed k then Some consoleread else None).
Definition devsw_write (major : Z) : M K (option (Z -> Z -> M K Z)) :=
  k ← gets k_con;
  mret (if (major =? CONSOLE) && cons_installed k then Some consolewrite else None).

Definition uartintr : M K unit :=
  while (fun _ : unit =>
    c ← uartgetc;
    if c =? -1 then mret (inr tt) else
    consoleintr c;;
    mret (inl tt)) tt;;
  acquire uart_lk;;
  uartstart;;
  release uart_lk.

(** ** [kernel/plic.c] *)

Definition plicinit : M K unit :=
  plic_write (PLIC + UART0_IRQ * 4) 1;;
  plic_write (PLIC + VIRTIO0_IRQ * 4) 1.

Definition plicinithart : M K unit :=
  hart ← cpuid;
  plic_write (PLIC_SENABLE hart) (Z.lor (Z.shiftl 1 UART0_IRQ) (Z.shiftl 1 VIRTIO0_IRQ));;
  plic_write (PLIC_SPRIORITY hart) 0.

(** [plic_reg] is the value of [PLIC_SCLAIM] of this CPU. *)
Definition plic_claim : M K Z :=
  irq ← plic_reg;
  mret (i32 irq).

Definition plic_complete (irq : Z) : M K unit :=
  hart ← cpuid;
  plic_write (PLIC_SCLAIM hart) irq.

End console.
