(* ===== verification/File.v ===== *)
(** * File: open files and pipes, [kernel/file.c] and [kernel/pipe.c]

    A pipe is known by the address of its page; its fields are kept in the
    table [ft_pipe], not in the bytes of the page. *)

From stdpp Require Import base list gmap functions strings.
From Stdlib Require Import ZArith Lia.
From S2P Require Import Prelude CMem Riscv Spinlock Kalloc Vm Que KState Printf Proc Bio Log Fs Console.

Definition PIPESIZE : Z := 512.

Definition get_pipe (pi : Z) : M K pipe := gets (fun s => ft_pipe (k_ft s) pi).
Definition upd_pipe (pi : Z) (f : pipe -> pipe) : M K unit :=
  modify (fun s => s <| k_ft ::= fun ft => ft <| ft_pipe ::= fun t => <[pi := f (t pi)]> t |> |>).
Definition get_file (f : nat) : M K file := gets (fun s => ft_file (k_ft s) f).
Definition upd_file (f : nat) (g : file -> file) : M K unit :=
  modify (fun s => s <| k_ft ::= fun ft => ft <| ft_file ::= fun t => <[f := g (t f)]> t |> |>).

Section file.
Context `{L : Layout} `{E : Env}.

(** ** Pipes *)

Definition pipeclose (pi : Z) (writable : Z) : M K unit :=
  acquire (pipe_lk pi);;
  (if negb (writable =? 0) then
     upd_pipe pi (fun x => x <| pi_writeopen := 0 |>);;
     wakeup (chan_nread pi)
   else
     upd_pipe pi (fun x => x <| pi_readopen := 0 |>);;
     wakeup (chan_nwrite pi));;
  x ← get_pipe pi;
  if (pi_readopen x =? 0) && (pi_writeopen x =? 0) then
    release (pipe_lk pi);;
    vm (kfree pi)
  else release (pipe_lk pi).

(** The loop of [pipewrite]: [None] returns -1, with the lock released. *)
Definition pipewrite_loop (pi addr n : Z) (pr : nat) : M K (option Z) :=
  while (fun i =>
    if negb (i <? n) then mret (inr (Some i)) else
    x ← get_pipe pi;
    d ← (if pi_readopen x =? 0 then mret 1 else killed pr);
    if negb (d =? 0) then
      release (pipe_lk pi);;
      mret (inr None)
    else
    x ← get_pipe pi;
    if pi_nwrite x =? u32 (pi_nread x + PIPESIZE) then
      wakeup (chan_nread pi);;
      sleep (chan_nwrite pi) (pipe_lk pi);;
      mret (inl i)
    else
    p ← get_proc pr;
    '(r, ch) ← vm (copyin (p_pagetable p) (u64 (addr + i)) 1);
    if r =? -1 then mret (inr (Some i)) else
    upd_pipe pi (fun x => x <| pi_data ::= fun t => <[pi_nwrite x mod PIPESIZE := hd 0 ch]> t |>
                            <| pi_nwrite := u32 (pi_nwrite x + 1) |>);;
    mret (inl (i + 1))) 0.

Definition pipewrite (pi addr n : Z) : M K Z :=
  pr ← cur;
  acquire (pipe_lk pi);;
  r ← pipewrite_loop pi addr n pr;
  match r with
  | None => mret (-1)
  | Some i =>
      wakeup (chan_nread pi);;
      release (pipe_lk pi);;
      mret i
  end.

(** The two loops of [piperead]: waiting for data (the result is whether to
    return -1), and copying. *)
Definition piperead_wait (pi : Z) (pr : nat) : M K bool :=
  while (fun _ : unit =>
    x ← get_pipe pi;
    if negb ((pi_nread x =? pi_nwrite x) && negb (pi_writeopen x =? 0)) then mret (inr false) else
    d ← killed pr;
    if negb (d =? 0) then
      release (pipe_lk pi);;
      mret (inr true)
    else
    sleep (chan_nread pi) (pipe_lk pi);;
    mret (inl tt)) tt.

Definition piperead_copy (pi addr n : Z) (pr : nat) : M K Z :=
  while (fun i =>
    if negb (i <? n) then mret (inr i) else
    x ← get_pipe pi;
    if pi_nread x =? pi_nwrite x then mret (inr i) else
    let ch := pi_data x (pi_nread x mod PIPESIZE) in
    upd_pipe pi (fun x => x <| pi_nread := u32 (pi_nread x + 1) |>);;
    p ← get_proc pr;
    r ← vm (copyout (p_pagetable p) (u64 (addr + i)) [ch]);
    if r =? -1 then mret (inr i) else
    mret (inl (i + 1))) 0.

Definition piperead (pi addr n : Z) : M K Z :=
  pr ← cur;
  acquire (pipe_lk pi);;
  d ← piperead_wait pi pr;
  if (d : bool) then mret (-1) else
  i ← piperead_copy pi addr n pr;
  wakeup (chan_nwrite pi);;
  release (pipe_lk pi);;
  mret i.

(** ** Files *)

Definition fileinit : M K unit := initlock ft_lk.

Definition filealloc : M K (option nat) :=
  acquire ft_lk;;
  r ← for_first (seq 0 NFILE) (fun f =>
    x ← get_file f;
    if f_ref x =? 0 then
      upd_file f (fun x => x <| f_ref := 1 |>);;
      release ft_lk;;
      mret (Some f)
    else mret None);
  match r with
  | Some f => mret (Some f)
  | None => release ft_lk;; mret None
  end.

Definition filedup (f : nat) : M K nat :=
  acquire ft_lk;;
  x ← get_file f;
  if f_ref x <? 1 then panic "filedup" else
  n ← int_op (f_ref x + 1);
  upd_file f (fun x => x <| f_ref := n |>);;
  release ft_lk;;
  mret f.

Definition fileclose (f : nat) : M K unit :=
  acquire ft_lk;;
  x ← get_file f;
  if f_ref x <? 1 then panic "fileclose" else
  upd_file f (fun x => x <| f_ref := f_ref x - 1 |>);;
  ff ← get_file f;
  if 0 <? f_ref ff then release ft_lk else
  upd_file f (fun x => x <| f_ref := 0 |>);;
  upd_file f (fun x => x <| f_type := FD_NONE |>);;
  release ft_lk;;
  match f_type ff with
  | FD_PIPE => pipeclose (f_pipe ff) (f_writable ff)
  | FD_INODE | FD_DEVICE =>
      begin_op;;
      ip ← deref (f_ip ff);
      iput ip;;
      end_op
  | FD_NONE => mret tt
  end.

(** The bytes of a [struct stat]: four bytes of padding precede [size]. *)
Definition stat_bytes (st : stat) : list Z :=
  le_bytes 4 (st_dev st) ++ le_bytes 4 (st_ino st) ++ le_bytes 2 (st_type st) ++ le_bytes 2 (st_nlink st) ++
  ((fun i => u8 (junk i)) <$> [12; 13; 14; 15]) ++ le_bytes 8 (st_size st).

Definition filestat (f : nat) (addr : Z) : M K Z :=
  p ← cur;
  x ← get_file f;
  match f_type x with
  | FD_INODE | FD_DEVICE =>
      ilock (f_ip x);;
      ip ← deref (f_ip x);
      st ← stati ip;
      iunlock (f_ip x);;
      pr ← get_proc p;
      r ← vm (copyout (p_pagetable pr) addr (stat_bytes st));
      mret (if r <? 0 then -1 else 0)
  | _ => mret (-1)
  end.

Definition fileread (f : nat) (addr n : Z) : M K Z :=
  x ← get_file f;
  if f_readable x =? 0 then mret (-1) else
  match f_type x with
  | FD_PIPE => piperead (f_pipe x) addr n
  | FD_DEVICE =>
      if (f_major x <? 0) || (NDEV <=? f_major x) then mret (-1) else
      rd ← devsw_read (f_major x);
      match rd with
      | None => mret (-1)
      | Some rd => rd addr n
      end
  | FD_INODE =>
      ilock (f_ip x);;
      ip ← deref (f_ip x);
      x ← get_file f;
      '(r, _) ← readi ip (UserDst addr) (f_off x) (u32 n);
      when (0 <? r) (upd_file f (fun x => x <| f_off := u32 (f_off x + r) |>));;
      iunlock (f_ip x);;
      mret r
  | FD_NONE => panic "fileread"
  end.

Definition filewrite_max : Z := (MAXOPBLOCKS - 1 - 1 - 2) / 2 * BSIZE.

Definition filewrite (f : nat) (addr n : Z) : M K Z :=
  x ← get_file f;
  if f_writable x =? 0 then mret (-1) else
  match f_type x with
  | FD_PIPE => pipewrite (f_pipe x) addr n
  | FD_DEVICE =>
      if (f_major x <? 0) || (NDEV <=? f_major x) then mret (-1) else
      wr ← devsw_write (f_major x);
      match wr with
      | None => mret (-1)
      | Some wr => wr addr n
      end
  | FD_INODE =>
      i ← while (fun i =>
        if negb (i <? n) then mret (inr i) else
        let n1 := n - i in
        let n1 := if filewrite_max <? n1 then filewrite_max else n1 in
        begin_op;;
        x ← get_file f;
        ilock (f_ip x);;
        ip ← deref (f_ip x);
        x ← get_file f;
        r ← writei ip (UserSrc (u64 (addr + i))) (f_off x) n1;
        when (0 <? r) (upd_file f (fun x => x <| f_off := u32 (f_off x + r) |>));;
        iunlock (f_ip x);;
        end_op;;
        if negb (r =? n1) then mret (inr i) else mret (inl (i + r))) 0;
      mret (if i =? n then n else -1)
  | FD_NONE => panic "filewrite"
  end.

(** ** [pipealloc]: the read end and the write end *)

Definition close_opt (o : option nat) : M K unit := match o with Some f => fileclose f | None => mret tt end.

Definition pipealloc : M K (option (nat * nat)) :=
  f0 ← filealloc;
  f1 ← match f0 with None => mret None | Some _ => filealloc end;
  let bad := close_opt f0;; close_opt f1;; mret None in
  match f0, f1 with
  | Some r, Some w =>
      pi ← vm kalloc;
      if pi =? 0 then bad else
      upd_pipe pi (fun x => x <| pi_readopen := 1 |>);;
      upd_pipe pi (fun x => x <| pi_writeopen := 1 |>);;
      upd_pipe pi (fun x => x <| pi_nwrite := 0 |>);;
      upd_pipe pi (fun x => x <| pi_nread := 0 |>);;
      initlock (pipe_lk pi);;
      upd_file r (fun x => x <| f_type := FD_PIPE |>);;
      upd_file r (fun x => x <| f_readable := 1 |>);;
      upd_file r (fun x => x <| f_writable := 0 |>);;
      upd_file r (fun x => x <| f_pipe := pi |>);;
      upd_file w (fun x => x <| f_type := FD_PIPE |>);;
      upd_file w (fun x => x <| f_readable := 0 |>);;
      upd_file w (fun x => x <| f_writable := 1 |>);;
      upd_file w (fun x => x <| f_pipe := pi |>);;
      mret (Some (r, w))
  | _, _ => bad
  end.

End file.
