(* ===== verification/PipeSpec.v ===== *)
(** * PipeSpec: pipes are queues of bytes

    What [pipewrite] and [piperead] of [kernel/pipe.c] do to the bytes in
    the pipe and to the memory of the caller, when they need not wait. *)

From stdpp Require Import base list gmap gmultiset functions strings.
From Stdlib Require Import ZArith Lia.
From S2P Require Import Prelude CMem Riscv Spinlock Kalloc Vm PageTable AddrSpace Cow Uvmcopy Isolation Que KState Printf Proc KWp KDemo File.

(** ** The bytes in a pipe *)

(** The pipe holds the bytes [l], the oldest first.  The counters are 32 bits
    wide and wrap around. *)
Record pipe_rep (x : pipe) (l : list Z) : Prop := {
  pr_nread : 0 <= pi_nread x < 2 ^ 32;
  pr_nwrite : pi_nwrite x = u32 (pi_nread x + Z.of_nat (length l));
  pr_len : Z.of_nat (length l) <= PIPESIZE;
  pr_data i b : l !! i = Some b -> pi_data x ((pi_nread x + Z.of_nat i) mod PIPESIZE) = b;
}.

Lemma u32_pipesize z : u32 z mod PIPESIZE = z mod PIPESIZE.
Proof.
  unfold u32, PIPESIZE. change (2 ^ 32) with (512 * 8388608). rewrite Z.rem_mul_r by lia.
  rewrite Z.mul_comm, Z_mod_plus_full. by rewrite Zmod_mod.
Qed.

Lemma pipe_full x l : pipe_rep x l -> (pi_nwrite x =? u32 (pi_nread x + PIPESIZE)) = bool_decide (Z.of_nat (length l) = PIPESIZE).
Proof.
  intros [H1 H2 H3 _]. rewrite H2. unfold PIPESIZE in *. case_bool_decide as Hl; [by rewrite Hl, Z.eqb_refl|].
  apply Z.eqb_neq. unfold u32. intros Heq. Z.div_mod_to_equations. lia.
Qed.

Lemma pipe_empty x l : pipe_rep x l -> (pi_nread x =? pi_nwrite x) = bool_decide (l = []).
Proof.
  intros [H1 H2 H3 _]. rewrite H2. unfold PIPESIZE in *. case_bool_decide as Hl.
  - subst l. cbn. rewrite Z.add_0_r, u32_small by lia. apply Z.eqb_refl.
  - apply Z.eqb_neq. destruct l as [|b l]; [done|]. cbn [length] in *. unfold u32. intros Heq. Z.div_mod_to_equations. lia.
Qed.

Definition put (x : pipe) (b : Z) : pipe :=
  x <| pi_data ::= fun t => <[pi_nwrite x mod PIPESIZE := b]> t |> <| pi_nwrite := u32 (pi_nwrite x + 1) |>.

Definition pop (x : pipe) : pipe := x <| pi_nread := u32 (pi_nread x + 1) |>.

Lemma pipe_put x l b : pipe_rep x l -> Z.of_nat (length l) < PIPESIZE -> pipe_rep (put x b) (l ++ [b]).
Proof.
  intros [H1 H2 H3 H4] Hl. unfold put. split; rsimpl.
  - done.
  - rewrite H2, length_app. cbn [length]. unfold u32. rewrite Zplus_mod_idemp_l. f_equal. lia.
  - rewrite length_app. cbn [length]. lia.
  - rewrite H2, u32_pipesize. intros i c Hi. apply lookup_app_Some in Hi as [Hi|[Hi1 Hi2]].
    + rewrite fn_lookup_insert_ne; [by apply H4|]. pose proof (lookup_lt_Some _ _ _ Hi). unfold PIPESIZE in *.
      intros Heq. Z.div_mod_to_equations. lia.
    + destruct (i - length l)%nat eqn:Ei; [|done]. injection Hi2 as ->. replace i with (length l) by lia. by rewrite fn_lookup_insert.
Qed.

Lemma pipe_pop x b l : pipe_rep x (b :: l) -> pipe_rep (pop x) l /\ pi_data x (pi_nread x mod PIPESIZE) = b.
Proof.
  intros [H1 H2 H3 H4]. cbn [length] in *. split.
  - unfold pop. split; rsimpl.
    + apply u32_range.
    + rewrite H2. unfold u32. rewrite Zplus_mod_idemp_l. f_equal. lia.
    + lia.
    + intros i c Hi. specialize (H4 (S i) c Hi).
      replace ((u32 (pi_nread x + 1) + Z.of_nat i) mod PIPESIZE) with ((pi_nread x + Z.of_nat (S i)) mod PIPESIZE); [done|].
      rewrite <- (Zplus_mod_idemp_l (u32 _)), u32_pipesize, Zplus_mod_idemp_l. f_equal. lia.
  - specialize (H4 0%nat b eq_refl). by rewrite Z.add_0_r in H4.
Qed.

(** ** States *)

Definition erase_pipe (s : K) : K :=
  s <| k_ft := k_ft KDemo.k0 |> <| k_proc := k_proc KDemo.k0 |> <| k_cpu := k_cpu KDemo.k0 |> <| k_vm := k_vm KDemo.k0 |>.

(** The state is [s0] except that pipe [pi] is [x], the memory [v], the
    process table [t] and the CPU [c]. *)
Record pst (s0 : K) (pi : Z) (c : kcpu) (t : nat -> proc) (x : pipe) (v : kst) (s : K) : Prop := {
  pt_frame : erase_pipe s = erase_pipe s0;
  pt_cpu : ceq c (k_cpu s);
  pt_proc p : k_proc s p = t p;
  pt_file : ft_file (k_ft s) = ft_file (k_ft s0);
  pt_lock : ft_lock (k_ft s) = ft_lock (k_ft s0);
  pt_pipe : ft_pipe (k_ft s) pi = x;
  pt_other q : q <> pi -> ft_pipe (k_ft s) q = ft_pipe (k_ft s0) q;
  pt_vm : k_vm s = v;
}.

Section rules.
Context {E : Env}.
Variables (s0 : K) (pi : Z) (c : kcpu) (t : nat -> proc) (x : pipe) (v : kst) (s : K).
Hypothesis Hs : pst s0 pi c t x v s.

Lemma wp_get_pipe (Q : pipe -> K -> Prop) : Q x s -> wp (get_pipe pi) Q s.
Proof. intros HQ. unfold get_pipe. wp_steps. by rewrite (pt_pipe _ _ _ _ _ _ _ Hs). Qed.

Lemma wp_upd_pipe f (Q : unit -> K -> Prop) :
  (forall s', pst s0 pi c t (f x) v s' -> Q tt s') -> wp (upd_pipe pi f) Q s.
Proof.
  intros HQ. unfold upd_pipe. wp_steps. destruct Hs as [H1 H2 H3 H4 H5 H6 H7 H8]. apply HQ. split; try done.
  - rsimpl. by rewrite fn_lookup_insert, H6.
  - intros q Hq. rsimpl. rewrite fn_lookup_insert_ne by done. by apply H7.
Qed.

Lemma wp_pipe_acquire (Q : unit -> K -> Prop) :
  pi_lock x = false -> (forall s', pst s0 pi (c_push c) t (x <| pi_lock := true |>) v s' -> Q tt s') -> wp (acquire (pipe_lk pi)) Q s.
Proof.
  intros Hl HQ. destruct Hs as [H1 H2 H3 H4 H5 H6 H7 H8]. apply wp_acquire; [apply _|by cbn; rewrite H6|]. apply HQ. split; try done.
  - by apply ceq_push.
  - cbn. rsimpl. by rewrite fn_lookup_insert, H6.
  - intros q Hq. cbn. rsimpl. rewrite fn_lookup_insert_ne by done. by apply H7.
Qed.

Lemma wp_pipe_release c1 (Q : unit -> K -> Prop) :
  cpu_ok c1 -> c = c_push c1 -> pi_lock x = true ->
  (forall s', pst s0 pi c1 t (x <| pi_lock := false |>) v s' -> Q tt s') -> wp (release (pipe_lk pi)) Q s.
Proof.
  intros Hc1 Hc Hl HQ. destruct Hs as [H1 H2 H3 H4 H5 H6 H7 H8]. rewrite Hc in H2. apply (wp_release_ceq _ c1); [done|done|by cbn; rewrite H6|].
  intros c2 Hc2. apply HQ. split; try done.
  - cbn. rsimpl. by rewrite fn_lookup_insert, H6.
  - intros q Hq. cbn. rsimpl. rewrite fn_lookup_insert_ne by done. by apply H7.
Qed.

Lemma wp_pst_cur me (Q : nat -> K -> Prop) :
  cpu_ok c -> c_proc c = Some me -> (forall s', pst s0 pi c t x v s' -> Q me s') -> wp cur Q s.
Proof.
  intros Hc Hp HQ. destruct Hs as [H1 H2 H3 H4 H5 H6 H7 H8]. apply wp_cur with (p := me); [by eapply ceq_ok|by rewrite <- Hp; apply H2|].
  intros c' Hc'. apply HQ. split; try done. by etrans.
Qed.

Lemma wp_pst_get_proc p (Q : proc -> K -> Prop) : Q (t p) s -> wp (get_proc p) Q s.
Proof. intros HQ. unfold get_proc. wp_steps. by rewrite (pt_proc _ _ _ _ _ _ _ Hs). Qed.

Lemma wp_pst_wakeup chan (Q : unit -> K -> Prop) :
  cpu_ok c -> locks_free (c_proc c) t ->
  (forall s', pst s0 pi c (fun p => if decide (p < NPROC)%nat then woken chan (c_proc c) p (t p) else t p) x v s' -> Q tt s') ->
  wp (wakeup chan) Q s.
Proof.
  intros Hc Hf HQ. destruct Hs as [H1 H2 H3 H4 H5 H6 H7 H8]. assert (c_proc (k_cpu s) = c_proc c) as Ep by apply H2.
  apply wp_wakeup; [by eapply ceq_ok|intros p Hp Hne; rewrite H3; apply Hf; congruence|].
  intros t' c' Hc' Ht'. apply HQ. split; try done; [by etrans|].
  intros p. ksimpl. by rewrite Ht', Ep, H3.
Qed.

Lemma wp_pst_killed p (Q : Z -> K -> Prop) :
  cpu_ok c -> p_lock (t p) = false -> (forall s', pst s0 pi c t x v s' -> Q (p_killed (t p)) s') -> wp (killed p) Q s.
Proof.
  intros Hc Hl HQ. destruct Hs as [H1 H2 H3 H4 H5 H6 H7 H8]. unfold killed.
  apply wp_bind, wp_lock_proc; [by rewrite H3|]. intros t1 Ht1. wp_steps. ksimpl. rewrite (upd_at_eq _ _ _ _ Ht1). rsimpl.
  apply (wp_unlock_proc s p (k_proc s p)); [by eapply ceq_ok|done|by rewrite H3|exact Ht1|].
  intros t2 c2 Hc2 Ht2. wp_steps. rewrite H3. apply HQ. split; try done; [by etrans|].
  intros q. ksimpl. rewrite Ht2. case_decide; subst; by rewrite H3.
Qed.

(** Code on the memory. *)
Lemma wp_pst_vm {A} (m : M kst A) (Q : A -> K -> Prop) :
  wp m (fun a v' => forall s', pst s0 pi c t x v' s' -> Q a s') v -> wp (vm m) Q s.
Proof.
  intros Hm. destruct Hs as [H1 H2 H3 H4 H5 H6 H7 H8]. unfold vm. apply wp_zoom. cbn. rewrite H8. eapply wp_mono; [exact Hm|].
  intros a v' Ha. apply Ha. by split.
Qed.

End rules.

(** ** Writing and reading *)

Lemma uread_lookup m T a bs j b : uread m T a (length bs) = Some bs -> bs !! j = Some b -> uview m T (a + Z.of_nat j) = Some b.
Proof.
  revert a j. induction bs as [|b' bs IH]; intros a j Hrd Hj; [done|]. cbn [length uread] in Hrd.
  destruct (uview m T a) as [b''|] eqn:Ea; [|done]. cbn in Hrd. destruct (uread m T (a + 1) (length bs)) as [cs|] eqn:Er; [|done].
  cbn in Hrd. injection Hrd as -> ->. destruct j as [|j]; [injection Hj as ->; by rewrite Z.add_0_r|].
  replace (a + Z.of_nat (S j)) with (a + 1 + Z.of_nat j) by lia. by apply IH.
Qed.

Section ops.
Context `{L : Layout} {LO : LayoutOk L} {E : Env}.
Variables (s0 : K) (pi : Z) (me : nat).

(** The caller is process [me], which has not been killed. *)
Record caller (t : nat -> proc) : Prop := {
  cl_me : t me = k_proc s0 me;
  cl_locks : locks_free None t;
}.

Hypothesis Hcpu : cpu_ok (k_cpu s0).
Hypothesis Hcur : c_proc (k_cpu s0) = Some me.
Hypothesis Hme : (me < NPROC)%nat.
Hypothesis Hlive : p_killed (k_proc s0 me) = 0.

Lemma caller_unlocked t : caller t -> p_lock (t me) = false.
Proof. intros Hc. by apply (cl_locks _ Hc). Qed.

Lemma caller_wake t chan :
  caller t -> caller (fun p => if decide (p < NPROC)%nat then woken chan (Some me) p (t p) else t p).
Proof.
  intros [H1 H2]. split.
  - rewrite decide_True by done. unfold woken. by rewrite bool_decide_true.
  - intros p Hp _. rewrite decide_True by done. unfold woken. case_bool_decide; [by apply H2|].
    case_match; [rsimpl|]; by apply H2.
Qed.

Lemma locks_weaken o t : locks_free None t -> locks_free o t.
Proof. intros H p Hp _. by apply H. Qed.

(** A pipe in a state of [s0], with the bytes [q]; [v] is the memory. *)
Definition pstate (c : kcpu) (lk : bool) (x0 : pipe) (q : list Z) (v : kst) (s : K) : Prop :=
  exists t x, pst s0 pi c t x v s /\ caller t /\ pipe_rep x q /\ pi_lock x = lk /\
    pi_readopen x = pi_readopen x0 /\ pi_writeopen x = pi_writeopen x0.

Lemma wp_wakeup_pipe chan c lk x0 q v s (Q : unit -> K -> Prop) :
  cpu_ok c -> c_proc c = Some me -> pstate c lk x0 q v s -> (forall s', pstate c lk x0 q v s' -> Q tt s') -> wp (wakeup chan) Q s.
Proof.
  intros Hc Hp (t & x & Hs & Hcl & Hrest) HQ. eapply (wp_pst_wakeup _ _ _ _ _ _ _ Hs); [done|apply locks_weaken, Hcl|].
  rewrite Hp. intros s' Hs'. apply HQ. eexists _, x. split; [exact Hs'|]. split; [by apply caller_wake|done].
Qed.

Lemma wp_release_pipe c1 x0 q v s (Q : unit -> K -> Prop) :
  cpu_ok c1 -> pstate (c_push c1) true x0 q v s -> (forall s', pstate c1 false x0 q v s' -> Q tt s') -> wp (release (pipe_lk pi)) Q s.
Proof.
  intros Hc (t & x & Hs & Hcl & Hrep & Hl & Hro & Hwo) HQ. eapply (wp_pipe_release _ _ _ _ _ _ _ Hs c1); [done|done|done|].
  intros s' Hs'. apply HQ. exists t, (x <| pi_lock := false |>). split; [done|]. split; [done|]. split; [|done]. by destruct Hrep.
Qed.

Lemma wp_acquire_pipe c x0 q v s (Q : unit -> K -> Prop) :
  pstate c false x0 q v s -> (forall s', pstate (c_push c) true x0 q v s' -> Q tt s') -> wp (acquire (pipe_lk pi)) Q s.
Proof.
  intros (t & x & Hs & Hcl & Hrep & Hl & Hro & Hwo) HQ. eapply (wp_pipe_acquire _ _ _ _ _ _ _ Hs); [done|].
  intros s' Hs'. apply HQ. exists t, (x <| pi_lock := true |>). split; [done|]. split; [done|]. split; [|done]. by destruct Hrep.
Qed.

Lemma wp_cur_pipe c lk x0 q v s (Q : nat -> K -> Prop) :
  cpu_ok c -> c_proc c = Some me -> pstate c lk x0 q v s -> (forall s', pstate c lk x0 q v s' -> Q me s') -> wp cur Q s.
Proof.
  intros Hc Hp (t & x & Hs & Hcl & Hrest) HQ. eapply (wp_pst_cur _ _ _ _ _ _ _ Hs); [done|done|].
  intros s' Hs'. apply HQ. by exists t, x.
Qed.

Lemma wp_killed_pipe c lk x0 q v s (Q : Z -> K -> Prop) :
  cpu_ok c -> pstate c lk x0 q v s -> (forall s', pstate c lk x0 q v s' -> Q 0 s') -> wp (killed me) Q s.
Proof.
  intros Hc (t & x & Hs & Hcl & Hrest) HQ. eapply (wp_pst_killed _ _ _ _ _ _ _ Hs); [done|by apply caller_unlocked|].
  rewrite (cl_me _ Hcl), Hlive. intros s' Hs'. apply HQ. by exists t, x.
Qed.

(** The loop of [pipewrite]: of the [n] bytes at [addr], [bs] are readable
    and there is room for them. *)
Lemma wp_pipewrite_loop v l A F q bs addr n c s (Q : option Z -> K -> Prop) :
  cpu_ok c -> space v l A F -> p_pagetable (k_proc s0 me) = t_root (a_T A) ->
  0 <= addr -> addr + n < 2 ^ 64 -> n < 2 ^ 31 -> Z.of_nat (length bs) <= n -> Z.of_nat (length q + length bs) <= PIPESIZE ->
  uread (kmem_mem v) (a_T A) addr (length bs) = Some bs ->
  (Z.of_nat (length bs) < n -> uview (kmem_mem v) (a_T A) (addr + Z.of_nat (length bs)) = None /\ Z.of_nat (length q + length bs) < PIPESIZE) ->
  forall x0, pi_readopen x0 <> 0 -> pstate c true x0 q v s ->
  (forall s', pstate c true x0 (q ++ bs) v s' -> Q (Some (Z.of_nat (length bs))) s') ->
  wp (pipewrite_loop pi addr n me) Q s.
Proof.
  intros Hc Hsp Hpt Ha Han Hn Hbn Hroom Hrd Hend x0 Hro Hs HQ. unfold pipewrite_loop.
  apply (wp_while_idx (fun k i s' => i = Z.of_nat (length bs - k) /\ (k <= length bs)%nat /\
    pstate c true x0 (q ++ take (length bs - k) bs) v s')) with (k := length bs).
  2: { rewrite Nat.sub_diag, app_nil_r. done. }
  2: { apply lt_fuel. lia. }
  intros k i s1 (-> & Hk & Hs1). set (j := (length bs - k)%nat) in *.
  destruct (Z.ltb_spec (Z.of_nat j) n) as [Hlt|Hge]; cbn [negb].
  2: { apply wp_ret. assert (j = length bs) as Ej by lia. rewrite Ej in *. apply HQ. by rewrite firstn_all in Hs1. }
  destruct Hs1 as (t & x & Hs1 & Hcl & Hrep & Hlk & Hr & Hw). apply wp_bind. eapply (wp_get_pipe _ _ _ _ _ _ _ Hs1).
  rewrite Hr. destruct (Z.eqb_spec (pi_readopen x0) 0) as [|_]; [done|]. apply wp_bind.
  eapply (wp_killed_pipe _ true x0); [exact Hc|by exists t, x|]. clear dependent t. clear dependent x.
  intros s2 (t & x & Hs2 & Hcl & Hrep & Hlk & Hr & Hw). rewrite Z.eqb_refl. cbn [negb].
  apply wp_bind. eapply (wp_get_pipe _ _ _ _ _ _ _ Hs2). rewrite (pipe_full _ _ Hrep), length_app, length_take.
  rewrite bool_decide_false by lia.
  apply wp_bind. eapply (wp_pst_get_proc _ _ _ _ _ _ _ Hs2). rewrite (cl_me _ Hcl), Hpt.
  apply wp_bind. eapply (wp_pst_vm _ _ _ _ _ _ _ Hs2). rewrite u64_small by lia.
  apply (wp_copyin v l A F); [done|lia|lia|]. change (Z.to_nat 1) with 1%nat. cbn [uread].
  destruct (decide (j < length bs)%nat) as [Hj|Hj].
  - destruct (lookup_lt_is_Some_2 bs j Hj) as [b Hb].
    rewrite (uread_lookup _ _ _ _ _ _ Hrd Hb).
    cbn. intros s3 Hs3. apply wp_bind. eapply (wp_upd_pipe _ _ _ _ _ _ _ Hs3). intros s4 Hs4. apply wp_ret.
    exists (k - 1)%nat. split; [lia|]. assert (length bs - (k - 1) = S j)%nat as -> by lia. split; [lia|]. split; [lia|].
    rewrite (take_S_r _ _ b) by done. rewrite app_assoc. eexists t, _. split; [exact Hs4|]. split; [done|].
    split; [apply pipe_put; [exact Hrep|rewrite length_app, length_take; lia]|]. done.
  - assert (j = length bs) as Ej by lia. destruct Hend as [He1 He2]; [lia|]. rewrite <- Ej in He1. rewrite He1. cbn.
    intros bs' s3 Hs3. apply wp_ret. rewrite Ej in *. apply HQ. rewrite firstn_all in Hrep. by exists t, x.
Qed.

Lemma wp_pipewrite v l A F q bs addr n s x0 (Q : Z -> K -> Prop) :
  space v l A F -> p_pagetable (k_proc s0 me) = t_root (a_T A) ->
  0 <= addr -> addr + n < 2 ^ 64 -> n < 2 ^ 31 -> Z.of_nat (length bs) <= n -> Z.of_nat (length q + length bs) <= PIPESIZE ->
  uread (kmem_mem v) (a_T A) addr (length bs) = Some bs ->
  (Z.of_nat (length bs) < n -> uview (kmem_mem v) (a_T A) (addr + Z.of_nat (length bs)) = None /\ Z.of_nat (length q + length bs) < PIPESIZE) ->
  pi_readopen x0 <> 0 -> pstate (k_cpu s0) false x0 q v s ->
  (forall s', pstate (k_cpu s0) false x0 (q ++ bs) v s' -> Q (Z.of_nat (length bs)) s') ->
  wp (pipewrite pi addr n) Q s.
Proof.
  intros Hsp Hpt Ha Han Hn Hbn Hroom Hrd Hend Hro Hs HQ. pose proof (c_push_ok _ Hcpu) as Hc'. unfold pipewrite.
  apply wp_bind. eapply wp_cur_pipe; [exact Hcpu|exact Hcur|exact Hs|]. intros s1 H1.
  apply wp_bind. eapply wp_acquire_pipe; [exact H1|]. intros s2 H2.
  apply wp_bind. eapply wp_pipewrite_loop; [exact Hc'|exact Hsp| | | | | | | | |exact Hro|exact H2|]; try done. intros s3 H3.
  apply wp_bind. eapply wp_wakeup_pipe; [exact Hc'|exact Hcur|exact H3|]. intros s4 H4.
  apply wp_bind. eapply wp_release_pipe; [exact Hcpu|exact H4|]. intros s5 H5. apply wp_ret. by apply HQ.
Qed.

(** The copying loop of [piperead]: [k] bytes are delivered.  If that is not
    as many as asked for and present, then [copyout] refused the next address,
    and the next byte has been taken out of the pipe and is lost. *)
Lemma wp_piperead_copy v l A F q addr n c s x0 (Q : Z -> K -> Prop) :
  cpu_ok c -> space v l A F -> p_pagetable (k_proc s0 me) = t_root (a_T A) -> Z.of_nat (length q) <= PIPESIZE ->
  0 <= addr -> addr + n < 2 ^ 64 -> 0 <= n < 2 ^ 31 -> pstate c true x0 q v s ->
  (forall k v' s', out_post v A F addr (take k q) v' ->
     (k = Nat.min (Z.to_nat n) (length q) /\ pstate c true x0 (drop k q) v' s' \/
      (k < Nat.min (Z.to_nat n) (length q))%nat /\ refused v (a_T A) (addr + Z.of_nat k) v' /\
      pstate c true x0 (drop (S k) q) v' s') -> Q (Z.of_nat k) s') ->
  wp (piperead_copy pi addr n me) Q s.
Proof.
  intros Hc Hsp Hpt Hql Ha Han Hn Hs HQ. unfold piperead_copy. set (m := Nat.min (Z.to_nat n) (length q)).
  apply (wp_while_idx (fun k i s' => i = Z.of_nat (m - k) /\ (k <= m)%nat /\ exists v',
    out_post v A F addr (take (m - k) q) v' /\ pstate c true x0 (drop (m - k) q) v' s')) with (k := m).
  2: { rewrite Nat.sub_diag. split; [done|]. split; [done|]. exists v. split; [by eapply out_post_refl|done]. }
  2: { apply lt_fuel. unfold m, PIPESIZE in *. lia. }
  intros k i s1 (-> & Hk & v1 & Hout & Hs1). set (j := (m - k)%nat) in *.
  destruct (Z.ltb_spec (Z.of_nat j) n) as [Hlt|Hge]; cbn [negb].
  2: { apply wp_ret. eapply HQ; [exact Hout|]. left. split; [lia|done]. }
  destruct Hs1 as (t & x & Hs1 & Hcl & Hrep & Hlk & Hr & Hw). apply wp_bind. eapply (wp_get_pipe _ _ _ _ _ _ _ Hs1).
  rewrite (pipe_empty _ _ Hrep). case_bool_decide as Hd.
  { apply wp_ret. eapply HQ; [exact Hout|]. left. split; [|by exists t, x].
    apply (f_equal length) in Hd. rewrite length_drop in Hd. cbn in Hd. lia. }
  assert (j < length q)%nat as Hj. { destruct (decide (j < length q)%nat); [done|]. destruct Hd. apply drop_ge. lia. }
  destruct (lookup_lt_is_Some_2 q j Hj) as [b Hb]. rewrite (drop_S _ _ _ Hb) in Hrep. destruct (pipe_pop _ _ _ Hrep) as [Hrep' ->].
  apply wp_bind. eapply (wp_upd_pipe _ _ _ _ _ _ _ Hs1). intros s2 Hs2.
  apply wp_bind. eapply (wp_pst_get_proc _ _ _ _ _ _ _ Hs2). rewrite (cl_me _ Hcl), Hpt.
  pose proof Hout as (l1 & A1 & S1 & T1 & D1 & K1 & C1 & V1).
  apply wp_bind. eapply (wp_pst_vm _ _ _ _ _ _ _ Hs2). rewrite u64_small, <- T1 by lia.
  eapply wp_mono; [apply (wp_copyout v1 l1 A1 F); [done|lia|done]|].
  intros r v2 (k' & (l2 & A2 & S2 & T2 & D2 & K2 & C2 & V2) & Hr') s3 Hs3. rewrite T1 in V2, C2, Hr'. cbn [length] in Hr'.
  assert (length (take j q) = j) as Hlj by (rewrite length_take; lia).
  assert (out_post v A F addr (take j q ++ take k' [b]) v2) as Hout2.
  { apply (out_post_app v A F addr (take j q) v1 l1 A1 v2 l2 A2); try done. by rewrite Hlj. }
  destruct Hr' as [[-> ->]|(-> & Hk' & Href)].
  - cbn [Z.eqb]. apply wp_ret. exists (k - 1)%nat. split; [lia|]. assert (m - (k - 1) = S j)%nat as -> by lia. split; [lia|]. split; [lia|].
    exists v2. rewrite (take_S_r _ _ b) by done. split; [exact Hout2|]. by eexists t, _.
  - rewrite Z.eqb_refl. apply wp_ret. assert (k' = 0%nat) as -> by lia. cbn in Hout2. rewrite app_nil_r in Hout2.
    rewrite Z.add_0_r in Href. eapply HQ; [exact Hout2|]. right. split; [lia|]. split; [exact (out_post_refused _ _ _ _ _ _ _ _ Hout Href)|by eexists t, _].
Qed.

Lemma wp_piperead v l A F q addr n s x0 (Q : Z -> K -> Prop) :
  space v l A F -> p_pagetable (k_proc s0 me) = t_root (a_T A) ->
  0 <= addr -> addr + n < 2 ^ 64 -> 0 <= n < 2 ^ 31 -> q <> [] \/ pi_writeopen x0 = 0 -> pstate (k_cpu s0) false x0 q v s ->
  (forall k v' s', out_post v A F addr (take k q) v' ->
     (k = Nat.min (Z.to_nat n) (length q) /\ pstate (k_cpu s0) false x0 (drop k q) v' s' \/
      (k < Nat.min (Z.to_nat n) (length q))%nat /\ refused v (a_T A) (addr + Z.of_nat k) v' /\
      pstate (k_cpu s0) false x0 (drop (S k) q) v' s') -> Q (Z.of_nat k) s') ->
  wp (piperead pi addr n) Q s.
Proof.
  intros Hsp Hpt Ha Han Hn Hq Hs HQ. pose proof (c_push_ok _ Hcpu) as Hc'. unfold piperead.
  assert (Z.of_nat (length q) <= PIPESIZE) as Hql by (destruct Hs as (? & ? & _ & _ & Hrep & _); apply Hrep).
  apply wp_bind. eapply wp_cur_pipe; [exact Hcpu|exact Hcur|exact Hs|]. intros s1 H1.
  apply wp_bind. eapply wp_acquire_pipe; [exact H1|]. intros s2 H2.
  assert (forall k v' s', out_post v A F addr (take k q) v' ->
    (k = Nat.min (Z.to_nat n) (length q) /\ pstate (c_push (k_cpu s0)) true x0 (drop k q) v' s' \/
     (k < Nat.min (Z.to_nat n) (length q))%nat /\ refused v (a_T A) (addr + Z.of_nat k) v' /\
      pstate (c_push (k_cpu s0)) true x0 (drop (S k) q) v' s') ->
    wp (wakeup (chan_nwrite pi);; release (pipe_lk pi);; mret (Z.of_nat k)) Q s') as Hfin.
  { intros k v' s' Ho [[Hk Hs']|(Hk & Href & Hs')]; (apply wp_bind; eapply wp_wakeup_pipe; [exact Hc'|exact Hcur|exact Hs'|]; intros s4 H4;
      apply wp_bind; eapply wp_release_pipe; [exact Hcpu|exact H4|]; intros s5 H5; apply wp_ret; eapply HQ; [exact Ho|]); [by left|by right]. }
  apply wp_bind. unfold piperead_wait. apply wp_while_once. pose proof H2 as (t & x & H2' & Hcl & Hrep & Hlk & Hr & Hw).
  apply wp_bind. eapply (wp_get_pipe _ _ _ _ _ _ _ H2'). rewrite (pipe_empty _ _ Hrep), Hw.
  assert (bool_decide (q = []) && negb (pi_writeopen x0 =? 0) = false) as ->.
  { destruct Hq as [Hq|Hq]; [by rewrite bool_decide_false|by rewrite Hq, andb_false_r]. }
  apply wp_ret. apply wp_bind. eapply wp_piperead_copy; [exact Hc'|exact Hsp|exact Hpt|done|done|done|done|exact H2|]. exact Hfin.
Qed.

(** C8: a pipe is a queue of bytes.  Process [me] writes the [n] readable bytes
    [bs] at [a] into a pipe that holds [q] and has room, then reads up to [m]
    bytes into its memory at [b].  The write returns [n].  The read delivers
    the first bytes of [q ++ bs], in order, as many as asked for and present,
    and leaves the rest in the pipe.  Only if an address it should store to is
    on page 0, not mapped for user access, or on a copy-on-write page when no
    page is free, does it return the number [k] of bytes before that address,
    and then one more byte has left the pipe.  Neither faults, panics or goes
    on forever. *)
Theorem pipe_fifo v l A F q bs a b m s x0 :
  space v l A F -> p_pagetable (k_proc s0 me) = t_root (a_T A) ->
  0 <= a -> a + Z.of_nat (length bs) < 2 ^ 64 -> 0 <= b -> b + m < 2 ^ 64 -> 0 <= m < 2 ^ 31 ->
  Z.of_nat (length q + length bs) <= PIPESIZE -> q ++ bs <> [] ->
  uread (kmem_mem v) (a_T A) a (length bs) = Some bs ->
  pi_readopen x0 <> 0 -> pstate (k_cpu s0) false x0 q v s ->
  wp (w ← pipewrite pi a (Z.of_nat (length bs)); r ← piperead pi b m; mret (w, r)) (fun '(w, r) s' =>
    w = Z.of_nat (length bs) /\ exists k v', r = Z.of_nat k /\
    (forall y, uview (kmem_mem v') (a_T A) y = patch (uview (kmem_mem v) (a_T A)) b (take k (q ++ bs)) y) /\
    (k = Nat.min (Z.to_nat m) (length (q ++ bs)) /\ pstate (k_cpu s0) false x0 (drop k (q ++ bs)) v' s' \/
     (k < Nat.min (Z.to_nat m) (length (q ++ bs)))%nat /\ refused v (a_T A) (b + Z.of_nat k) v' /\
       pstate (k_cpu s0) false x0 (drop (S k) (q ++ bs)) v' s')) s.
Proof.
  intros Hsp Hpt Ha Ha' Hb Hb' Hm Hroom Hne Hrd Hro Hs. unfold PIPESIZE in *. apply wp_bind.
  eapply (wp_pipewrite v l A F q bs); [exact Hsp|exact Hpt|done|done|lia|done|done|exact Hrd|lia|exact Hro|exact Hs|]. intros s1 H1.
  apply wp_bind. eapply wp_piperead; [exact Hsp|exact Hpt|done|done|done|by left|exact H1|].
  intros k v' s' (l' & A' & _ & _ & _ & _ & _ & Hv) Hk. apply wp_ret. split; [done|]. exists k, v'. done.
Qed.

End ops.

(** ** Example

    Process 0 of a machine whose first user page holds "hi" and whose second
    one is writable, and an empty pipe whose counters are about to wrap
    around. *)

Module PipeDemo.
Import Tiny.

Definition x0 : pipe := KDemo.pipe0 <| pi_readopen := 1 |> <| pi_writeopen := 1 |> <| pi_nread := 2 ^ 32 - 1 |> <| pi_nwrite := 2 ^ 32 - 1 |>.

Definition s0 : K :=
  KDemo.k0 <| k_vm := Demo.s1 |> <| k_cpu := KDemo.cpu0 <| c_proc := Some 0%nat |> |>
    <| k_proc := fun _ => KDemo.proc0 <| p_pagetable := page 0 |> |> <| k_ft ::= fun f => f <| ft_pipe := fun _ => x0 |> |>.

Lemma s0_pipe : pstate s0 0x1000 0 (k_cpu s0) false x0 [] Demo.s1 s0.
Proof.
  exists (k_proc s0), x0. split; [by split|]. split; [by split|]. split; [|done]. by split.
Qed.

Lemma pipe_fifo_witness :
  exists s' v', (w ← @pipewrite KDemo.env 0x1000 0 2; r ← @piperead layout KDemo.env 0x1000 (PGSIZE + 100) 2; mret (w, r)) s0 = Ok (2, 2) s' /\
    uview (kmem_mem v') (a_T Demo.A1) (PGSIZE + 100) = Some 104 /\ uview (kmem_mem v') (a_T Demo.A1) (PGSIZE + 101) = Some 105 /\
    pstate s0 0x1000 0 (k_cpu s0) false x0 [] v' s'.
Proof.
  destruct (proj1 (wp_ok _ _ _) (@pipe_fifo layout layout_ok KDemo.env s0 0x1000 0 ltac:(by split; cbn) eq_refl ltac:(unfold NPROC; lia) eq_refl
    Demo.s1 Demo.l1 Demo.A1 (own Demo.B1 ⊎ Demo.F1) [] [104; 105] 0 (PGSIZE + 100) 2 s0 x0
    (two_left _ _ _ _ _ Demo.two1) eq_refl ltac:(lia) ltac:(done) ltac:(done) ltac:(done) ltac:(lia) ltac:(done) ltac:(done)
    ltac:(vm_compute; reflexivity) ltac:(done) s0_pipe)) as ([w r] & s' & Hok & -> & k & v' & -> & Hv & [[-> Hs']|(Hk & Href & _)]).
  - exists s', v'. split; [exact Hok|]. rewrite !Hv. generalize (uview (kmem_mem Demo.s1) (a_T Demo.A1)). intros f.
    split; [reflexivity|]. split; [reflexivity|exact Hs'].
  - cbn in Hk. destruct (Demo.writable1 (PGSIZE + 100 + Z.of_nat k) v'); [unfold PGSIZE; lia|exact Href].
Defined.

End PipeDemo.
