(* ===== verification/Fork.v ===== *)
(** * Fork: creating and ending processes, [userinit], [fork] and [exit] of
      [kernel/proc.c] *)

From stdpp Require Import base list gmap functions strings.
From Stdlib Require Import ZArith Lia.
From S2P Require Import Prelude CMem Riscv Spinlock Kalloc Vm Que KState Printf Proc Bio Log Fs Console File.

(** The first program, in machine code. *)
Definition initcode : list Z :=
  [0x17; 0x05; 0x00; 0x00; 0x13; 0x05; 0x45; 0x02;
   0x97; 0x05; 0x00; 0x00; 0x93; 0x85; 0x35; 0x02;
   0x93; 0x08; 0x70; 0x00; 0x73; 0x00; 0x00; 0x00;
   0x93; 0x08; 0x20; 0x00; 0x73; 0x00; 0x00; 0x00;
   0xef; 0xf0; 0x9f; 0xff; 0x2f; 0x69; 0x6e; 0x69;
   0x74; 0x00; 0x00; 0x24; 0x00; 0x00; 0x00; 0x00;
   0x00; 0x00; 0x00; 0x00].

Definition NAMESIZE : Z := 16.
Definition all_fds : list nat := seq 0 NOFILE.

Section fork.
Context `{L : Layout} `{E : Env}.

Definition userinit : M K unit :=
  o ← allocproc;
  modify (fun s => s <| k_initproc := o |>);;
  p ← deref o;
  x ← get_proc p;
  vm (uvmfirst (p_pagetable x) initcode (Z.of_nat (length initcode)));;
  upd_proc p (fun x => x <| p_sz := PGSIZE |>);;
  vm (write64 (p_trapframe x + tf_epc) 0);;
  vm (write64 (p_trapframe x + tf_sp) PGSIZE);;
  upd_proc p (fun x => x <| p_name := arr_safestrcpy (p_name x) (bytes "initcode") NAMESIZE |>);;
  cwd ← namei (bytes "/");
  upd_proc p (fun x => x <| p_cwd := cwd |>);;
  upd_proc p (fun x => x <| p_state := RUNNABLE |>);;
  release (proc_lk p).

Definition fork : M K Z :=
  p ← cur;
  o ← allocproc;
  match o with
  | None => mret (-1)
  | Some np =>
      x ← get_proc p;
      y ← get_proc np;
      r ← vm (uvmcopy (p_pagetable x) (p_pagetable y) (p_sz x));
      if r <? 0 then
        freeproc np;;
        release (proc_lk np);;
        mret (-1)
      else
      upd_proc np (fun y => y <| p_sz := p_sz x |>);;
      upd_proc np (fun y => y <| p_mask := p_mask x |>);;
      upd_proc np (fun y => y <| p_tickets := p_tickets x |>);;
      vm (set_mem (fun m => CString.memmove m (p_trapframe y) (p_trapframe x) TRAPFRAME_SIZE));;
      vm (write64 (p_trapframe y + tf_a0) 0);;
      for_each all_fds (fun i =>
        x ← get_proc p;
        match p_ofile x i with
        | None => mret tt
        | Some f =>
            f ← filedup f;
            upd_proc np (fun y => y <| p_ofile ::= fun t => <[i := Some f]> t |>)
        end);;
      x ← get_proc p;
      cwd ← deref (p_cwd x);
      cwd ← idup cwd;
      upd_proc np (fun y => y <| p_cwd := Some cwd |>);;
      upd_proc np (fun y => y <| p_name := arr_safestrcpy (p_name y) (p_name x) NAMESIZE |>);;
      y ← get_proc np;
      let pid := p_pid y in
      release (proc_lk np);;
      acquire wait_lk;;
      upd_proc np (fun y => y <| p_parent := Some p |>);;
      release wait_lk;;
      acquire (proc_lk np);;
      upd_proc np (fun y => y <| p_state := RUNNABLE |>);;
      release (proc_lk np);;
      mret pid
  end.

Definition exit {A} (status : Z) : M K A :=
  p ← cur;
  init ← gets k_initproc;
  if bool_decide (Some p = init) then panic "init exiting" else
  for_each all_fds (fun fd =>
    x ← get_proc p;
    match p_ofile x fd with
    | None => mret tt
    | Some f =>
        fileclose f;;
        upd_proc p (fun x => x <| p_ofile ::= fun t => <[fd := None]> t |>)
    end);;
  begin_op;;
  x ← get_proc p;
  cwd ← deref (p_cwd x);
  iput cwd;;
  end_op;;
  upd_proc p (fun x => x <| p_cwd := None |>);;
  acquire wait_lk;;
  reparent p;;
  x ← get_proc p;
  wakeup (chan_of (p_parent x));;
  acquire (proc_lk p);;
  upd_proc p (fun x => x <| p_xstate := status |>);;
  upd_proc p (fun x => x <| p_state := ZOMBIE |>);;
  ticks ← gets k_ticks;
  upd_proc p (fun x => x <| p_etime := ticks |>);;
  release wait_lk;;
  sched;;
  panic "zombie exit".

End fork.
