(* ===== verification/Sysarg.v ===== *)
(** * Sysarg: the arguments of system calls, the first half of
      [kernel/syscall.c]

    A string fetched from user space is the list of its bytes without the
    terminating zero. *)

From stdpp Require Import base list gmap functions strings.
From Stdlib Require Import ZArith Lia.
From S2P Require Import Prelude CMem Riscv Spinlock Kalloc Vm Que KState Printf Proc.

Section sysarg.
Context `{L : Layout} `{E : Env}.

(** The word stored through [ip] is the second component. *)
Definition fetchaddr (addr : Z) : M K (Z * Z) :=
  p ← cur;
  x ← get_proc p;
  if (p_sz x <=? addr) || (p_sz x <? u64 (addr + 8)) then mret (-1, 0) else
  '(r, l) ← vm (copyin (p_pagetable x) addr 8);
  if negb (r =? 0) then mret (-1, 0) else
  mret (0, load64 (wrbytes ∅ 0 l) 0).

Definition fetchstr (addr max : Z) : M K (Z * list Z) :=
  p ← cur;
  x ← get_proc p;
  '(r, buf) ← vm (copyinstr (p_pagetable x) addr max);
  if r <? 0 then mret (-1, buf) else
  mret (Z.of_nat (length (cstring buf)), cstring buf).

(** [fetchstr] with the buffer in the page [buf]. *)
Definition fetchstr_at (addr buf max : Z) : M K Z :=
  p ← cur;
  x ← get_proc p;
  '(r, l) ← vm (copyinstr (p_pagetable x) addr max);
  vm (set_mem (fun m => wrbytes m buf l));;
  if r <? 0 then mret (-1) else
  mret (Z.of_nat (length (cstring l))).

Definition argraw (n : Z) : M K Z :=
  p ← cur;
  x ← get_proc p;
  let reg off := nonnull (p_trapframe x);; vm (read64 (p_trapframe x + off)) in
  match n with
  | 0 => reg tf_a0
  | 1 => reg tf_a1
  | 2 => reg tf_a2
  | 3 => reg tf_a3
  | 4 => reg tf_a4
  | 5 => reg tf_a5
  | _ => panic "argraw"
  end.

Definition argint (n : Z) : M K Z := v ← argraw n; mret (i32 v).

Definition argaddr (n : Z) : M K Z := argraw n.

Definition argstr (n max : Z) : M K (Z * list Z) :=
  addr ← argaddr n;
  fetchstr addr max.

End sysarg.
