(* ===== verification/Exec.v ===== *)
(** * Exec: replacing the program of a process, [kernel/exec.c]

    [argv] is the list of the non-null entries of the C array, each the
    address of a kernel page that holds the string. *)

From stdpp Require Import base list gmap functions strings.
From Stdlib Require Import ZArith Lia.
From S2P Require Import Prelude CMem Riscv Spinlock Kalloc Vm Que KState Printf Proc Bio Log Fs Console File Fork.

(** ** [kernel/elf.h] *)
Definition ELF_MAGIC : Z := 0x464C457F.
Definition ELF_PROG_LOAD : Z := 1.
Definition ELFHDR_SIZE : Z := 64.
Definition PROGHDR_SIZE : Z := 56.

Record elfhdr := mkElf { elf_magic : Z; elf_entry : Z; elf_phoff : Z; elf_phnum : Z }.
Definition decode_elf (d : list Z) : elfhdr :=
  mkElf (ld 4 d 0) (ld 8 d 24) (ld 8 d 32) (ld 2 d 56).

Record proghdr := mkPh { ph_type : Z; ph_flags : Z; ph_off : Z; ph_vaddr : Z; ph_filesz : Z; ph_memsz : Z }.
Definition decode_ph (d : list Z) : proghdr :=
  mkPh (ld 4 d 0) (ld 4 d 4) (ld 8 d 8) (ld 8 d 16) (ld 8 d 32) (ld 8 d 40).

Definition flags2perm (flags : Z) : Z :=
  let perm := 0 in
  let perm := if has flags 0x1 then PTE_X else perm in
  if has flags 0x2 then Z.lor perm PTE_W else perm.

(** The part of [path] after its last slash. *)
Fixpoint last_elem (last s : list Z) : list Z :=
  match s with
  | [] => last
  | c :: s' => last_elem (if c =? SLASH then s' else last) s'
  end.

Section exec.
Context `{L : Layout} `{E : Env}.

Definition loadseg (pagetable va : Z) (ip : nat) (offset sz : Z) : M K Z :=
  while (fun i =>
    if negb (i <? sz) then mret (inr 0) else
    pa ← vm (walkaddr pagetable (u64 (va + i)));
    if pa =? 0 then panic "loadseg: address should exist" else
    let n := if sz - i <? PGSIZE then sz - i else PGSIZE in
    '(r, _) ← readi ip (KernDst pa) (u32 (offset + i)) n;
    if negb (u32 r =? n) then mret (inr (-1)) else
    mret (inl (u32 (i + PGSIZE)))) 0.

(** The loop that loads the program: whether it succeeded, and [sz]. *)
Definition load_segments (ip : nat) (elf : elfhdr) (pagetable : Z) : M K (bool * Z) :=
  while (fun '(i, off, sz) =>
    if negb (i <? elf_phnum elf) then mret (inr (true, sz)) else
    '(r, d) ← readi ip Local (u32 off) PROGHDR_SIZE;
    if negb (r =? PROGHDR_SIZE) then mret (inr (false, sz)) else
    let ph := decode_ph d in
    let next sz := mret (inl (i + 1, i32 (off + PROGHDR_SIZE), sz)) in
    if negb (ph_type ph =? ELF_PROG_LOAD) then next sz else
    if ph_memsz ph <? ph_filesz ph then mret (inr (false, sz)) else
    if u64 (ph_vaddr ph + ph_memsz ph) <? ph_vaddr ph then mret (inr (false, sz)) else
    if negb (ph_vaddr ph mod PGSIZE =? 0) then mret (inr (false, sz)) else
    sz1 ← vm (uvmalloc pagetable sz (u64 (ph_vaddr ph + ph_memsz ph)) (flags2perm (ph_flags ph)));
    if sz1 =? 0 then mret (inr (false, sz)) else
    let sz := sz1 in
    r ← loadseg pagetable (ph_vaddr ph) ip (u32 (ph_off ph)) (u32 (ph_filesz ph));
    if r <? 0 then mret (inr (false, sz)) else
    next sz) (0, i32 (elf_phoff elf), 0).

(** [strlen] of a string in kernel memory. *)
Definition kstrlen (s : Z) : M K Z :=
  vm (zoom (Lens kmem_mem (fun m k => k <| kmem_mem := m |>)) (CString.strlen s)).

(** Pushing the argument strings: [None] is failure, otherwise [sp], [argc]
    and [ustack]. *)
Definition push_args (pagetable stackbase : Z) (argv : list Z) (sp : Z) : M K (option (Z * Z * list Z)) :=
  while (fun '(argv, argc, sp, ustack) =>
    match argv with
    | [] => mret (inr (Some (sp, argc, ustack)))
    | a :: argv =>
        if MAXARG <=? argc then mret (inr None) else
        n ← kstrlen a;
        let sp := u64 (sp - (n + 1)) in
        let sp := u64 (sp - sp mod 16) in
        if sp <? stackbase then mret (inr None) else
        src ← gets (fun s => rdbytes (kmem_mem (k_vm s)) a (Z.to_nat (n + 1)));
        r ← vm (copyout pagetable sp src);
        if r <? 0 then mret (inr None) else
        mret (inl (argv, argc + 1, sp, ustack ++ [sp]))
    end) (argv, 0, sp, []).

(** Building the stack: [None] is failure, otherwise [sp] and [argc]. *)
Definition push_stack (pagetable stackbase : Z) (argv : list Z) (sp : Z) : M K (option (Z * Z)) :=
  r ← push_args pagetable stackbase argv sp;
  match r with
  | None => mret None
  | Some (sp, argc, ustack) =>
      if MAXARG <=? argc then fault else
      let ustack := ustack ++ [0] in
      let sp := u64 (sp - (argc + 1) * 8) in
      let sp := u64 (sp - sp mod 16) in
      if sp <? stackbase then mret None else
      r ← vm (copyout pagetable sp (ustack ≫= le_bytes 8));
      if r <? 0 then mret None else
      mret (Some (sp, argc))
  end.

Definition exec (path : list Z) (argv : list Z) : M K Z :=
  p ← cur;
  begin_op;;
  o ← namei path;
  match o with
  | None => end_op;; mret (-1)
  | Some ip =>
      ilock (Some ip);;
      let bad_ip pagetable sz :=
        when (negb (pagetable =? 0)) (vm (proc_freepagetable pagetable sz));;
        iunlockput ip;;
        end_op;;
        mret (-1) in
      let bad pagetable sz :=
        when (negb (pagetable =? 0)) (vm (proc_freepagetable pagetable sz));;
        mret (-1) in
      '(r, d) ← readi ip Local 0 ELFHDR_SIZE;
      if negb (r =? ELFHDR_SIZE) then bad_ip 0 0 else
      let elf := decode_elf d in
      if negb (elf_magic elf =? ELF_MAGIC) then bad_ip 0 0 else
      x ← get_proc p;
      pagetable ← vm (proc_pagetable (p_trapframe x));
      if pagetable =? 0 then bad_ip 0 0 else
      '(ok, sz) ← load_segments ip elf pagetable;
      if negb ok then bad_ip pagetable sz else
      iunlockput ip;;
      end_op;;
      p ← cur;
      x ← get_proc p;
      let oldsz := p_sz x in
      let sz := PGROUNDUP sz in
      sz1 ← vm (uvmalloc pagetable sz (u64 (sz + 2 * PGSIZE)) PTE_W);
      if sz1 =? 0 then bad pagetable sz else
      let sz := sz1 in
      vm (uvmclear pagetable (u64 (sz - 2 * PGSIZE)));;
      let stackbase := u64 (sz - PGSIZE) in
      r ← push_stack pagetable stackbase argv sz;
      match r with
      | None => bad pagetable sz
      | Some (sp, argc) =>
          x ← get_proc p;
          vm (write64 (p_trapframe x + tf_a1) sp);;
          upd_proc p (fun x => x <| p_name := arr_safestrcpy (p_name x) (last_elem path path) NAMESIZE |>);;
          let oldpagetable := p_pagetable x in
          upd_proc p (fun x => x <| p_pagetable := pagetable |>);;
          upd_proc p (fun x => x <| p_sz := sz |>);;
          vm (write64 (p_trapframe x + tf_epc) (elf_entry elf));;
          vm (write64 (p_trapframe x + tf_sp) sp);;
          vm (proc_freepagetable oldpagetable oldsz);;
          mret (i32 argc)
      end
  end.

End exec.
