(* ===== verification/Sysproc.v ===== *)
(** * Sysproc: system calls on processes, [kernel/sysproc.c]

    A system call returns a [uint64]; the results below are the C values,
    converted where they are stored ([Syscall]). *)

From stdpp Require Import base list gmap functions strings.
From Stdlib Require Import ZArith Lia.
From S2P Require Import Prelude CMem Riscv Spinlock Kalloc Vm Que KState Printf Proc Bio Log Fs Console File Fork Sysarg.

Section sysproc.
Context `{L : Layout} `{E : Env}.

Definition sys_exit : M K Z :=
  n ← argint 0;
  exit n.

Definition sys_getpid : M K Z :=
  p ← cur;
  x ← get_proc p;
  mret (p_pid x).

Definition sys_fork : M K Z := fork.

Definition sys_wait : M K Z :=
  p ← argaddr 0;
  wait p.

Definition sys_sbrk : M K Z :=
  n ← argint 0;
  p ← cur;
  x ← get_proc p;
  let addr := p_sz x in
  r ← growproc n;
  mret (if r <? 0 then -1 else addr).

Definition sys_sleep : M K Z :=
  n ← argint 0;
  acquire ticks_lk;;
  ticks0 ← gets k_ticks;
  while (fun _ : unit =>
    ticks ← gets k_ticks;
    if negb (u32 (ticks - ticks0) <? u32 n) then release ticks_lk;; mret (inr 0) else
    p ← cur;
    d ← killed p;
    if negb (d =? 0) then
      release ticks_lk;;
      mret (inr (-1))
    else
    sleep chan_ticks ticks_lk;;
    mret (inl tt)) tt.

Definition sys_kill : M K Z :=
  pid ← argint 0;
  kill pid.

Definition sys_uptime : M K Z :=
  acquire ticks_lk;;
  xticks ← gets k_ticks;
  release ticks_lk;;
  mret xticks.

Definition sys_trace : M K Z :=
  mask ← argint 0;
  trace mask;;
  mret 0.

Definition sys_sigalarm : M K Z :=
  ticks ← argint 0;
  handler ← argaddr 1;
  sigalarm (u64 ticks) handler;;
  mret 0.

Definition sys_sigreturn : M K Z :=
  sigreturn;;
  mret 0.

Definition sys_settickets : M K Z :=
  tickets ← argint 0;
  settickets tickets;;
  mret 0.

(** The bytes of [wtime] and [rtime], which [waitx] may not have set. *)
Definition uint_bytes (o : option Z) : list Z :=
  match o with Some v => int_bytes v | None => (fun i => u8 (junk i)) <$> [0; 1; 2; 3] end.

Definition sys_waitx : M K Z :=
  addr ← argaddr 0;
  addr1 ← argaddr 1;
  addr2 ← argaddr 2;
  '(ret, times) ← waitx addr;
  p ← cur;
  x ← get_proc p;
  r ← vm (copyout (p_pagetable x) addr1 (uint_bytes (fst <$> times)));
  if r <? 0 then mret (-1) else
  r ← vm (copyout (p_pagetable x) addr2 (uint_bytes (snd <$> times)));
  if r <? 0 then mret (-1) else
  mret ret.

Definition sys_setpriority : M K Z :=
  priority ← argint 0;
  pid ← argint 1;
  set_priority priority pid.

End sysproc.
