(* ===== verification/Sysfile.v ===== *)
(** * Sysfile: system calls on files, [kernel/sysfile.c] *)

From stdpp Require Import base list gmap functions strings.
From Stdlib Require Import ZArith Lia.
From S2P Require Import Prelude CMem Riscv Spinlock Kalloc Vm Que KState Printf Proc Bio Log Fs Console File Fork Sysarg Exec.

(** ** [kernel/fcntl.h] *)
Definition O_RDONLY : Z := 0x000.
Definition O_WRONLY : Z := 0x001.
Definition O_RDWR : Z := 0x002.
Definition O_CREATE : Z := 0x200.
Definition O_TRUNC : Z := 0x400.

(** The local array [name] before anything is stored in it. *)
Definition no_name : list Z := replicate (Z.to_nat DIRSIZ) 0.

Definition c_bool (b : bool) : Z := if b then 1 else 0.

Section sysfile.
Context `{L : Layout} `{E : Env}.

Definition argfd (n : Z) : M K (option (nat * nat)) :=
  fd ← argint n;
  if (fd <? 0) || (Z.of_nat NOFILE <=? fd) then mret None else
  p ← cur;
  x ← get_proc p;
  match p_ofile x (Z.to_nat fd) with
  | None => mret None
  | Some f => mret (Some (Z.to_nat fd, f))
  end.

Definition set_ofile (p fd : nat) (o : option nat) : M K unit :=
  upd_proc p (fun x => x <| p_ofile ::= fun t => <[fd := o]> t |>).

(** [None] is the result -1. *)
Definition fdalloc (f : nat) : M K (option nat) :=
  p ← cur;
  for_first all_fds (fun fd =>
    x ← get_proc p;
    match p_ofile x fd with
    | None => set_ofile p fd (Some f);; mret (Some fd)
    | Some _ => mret None
    end).

Definition sys_dup : M K Z :=
  o ← argfd 0;
  match o with
  | None => mret (-1)
  | Some (_, f) =>
      fd ← fdalloc f;
      match fd with
      | None => mret (-1)
      | Some fd => filedup f;; mret (Z.of_nat fd)
      end
  end.

Definition sys_read : M K Z :=
  p ← argaddr 1;
  n ← argint 2;
  o ← argfd 0;
  match o with None => mret (-1) | Some (_, f) => fileread f p n end.

Definition sys_write : M K Z :=
  p ← argaddr 1;
  n ← argint 2;
  o ← argfd 0;
  match o with None => mret (-1) | Some (_, f) => filewrite f p n end.

Definition sys_close : M K Z :=
  o ← argfd 0;
  match o with
  | None => mret (-1)
  | Some (fd, f) =>
      p ← cur;
      set_ofile p fd None;;
      fileclose f;;
      mret 0
  end.

Definition sys_fstat : M K Z :=
  st ← argaddr 1;
  o ← argfd 0;
  match o with None => mret (-1) | Some (_, f) => filestat f st end.

Definition sys_link : M K Z :=
  '(r, old) ← argstr 0 MAXPATH;
  if r <? 0 then mret (-1) else
  '(r, new) ← argstr 1 MAXPATH;
  if r <? 0 then mret (-1) else
  begin_op;;
  o ← namei old;
  match o with
  | None => end_op;; mret (-1)
  | Some ip =>
      ilock (Some ip);;
      x ← get_inode ip;
      if i_type x =? T_DIR then
        iunlockput ip;;
        end_op;;
        mret (-1)
      else
      upd_inode ip (fun x => x <| i_nlink := i16 (i_nlink x + 1) |>);;
      iupdate ip;;
      iunlock (Some ip);;
      let bad :=
        ilock (Some ip);;
        upd_inode ip (fun x => x <| i_nlink := i16 (i_nlink x - 1) |>);;
        iupdate ip;;
        iunlockput ip;;
        end_op;;
        mret (-1) in
      '(o, name) ← nameiparent new no_name;
      match o with
      | None => bad
      | Some dp =>
          ilock (Some dp);;
          d ← get_inode dp;
          x ← get_inode ip;
          r ← (if negb (i_dev d =? i_dev x) then mret (-1) else dirlink dp name (i_inum x));
          if r <? 0 then
            iunlockput dp;;
            bad
          else
          iunlockput dp;;
          iput ip;;
          end_op;;
          mret 0
      end
  end.

Definition isdirempty (dp : nat) : M K bool :=
  while (fun off =>
    x ← get_inode dp;
    if negb (u32 off <? i_size x) then mret (inr true) else
    '(r, de) ← readi dp Local (u32 off) DIRENT_SIZE;
    if negb (r =? DIRENT_SIZE) then panic "isdirempty: readi" else
    if negb (ld 2 de 0 =? 0) then mret (inr false) else
    mret (inl (i32 (off + DIRENT_SIZE)))) (2 * DIRENT_SIZE).

Definition sys_unlink : M K Z :=
  '(r, path) ← argstr 0 MAXPATH;
  if r <? 0 then mret (-1) else
  begin_op;;
  '(o, name) ← nameiparent path no_name;
  match o with
  | None => end_op;; mret (-1)
  | Some dp =>
      ilock (Some dp);;
      let bad := iunlockput dp;; end_op;; mret (-1) in
      if (namecmp name (bytes ".") =? 0) || (namecmp name (bytes "..") =? 0) then bad else
      o ← dirlookup dp name;
      match o with
      | None => bad
      | Some (ip, off) =>
          ilock (Some ip);;
          x ← get_inode ip;
          if i_nlink x <? 1 then panic "unlink: nlink < 1" else
          empty ← (if i_type x =? T_DIR then isdirempty ip else mret true);
          if negb empty then
            iunlockput ip;;
            bad
          else
          r ← writei dp (KernSrc (replicate (Z.to_nat DIRENT_SIZE) 0)) off DIRENT_SIZE;
          if negb (r =? DIRENT_SIZE) then panic "unlink: writei" else
          x ← get_inode ip;
          when (i_type x =? T_DIR)
            (upd_inode dp (fun x => x <| i_nlink := i16 (i_nlink x - 1) |>);;
             iupdate dp);;
          iunlockput dp;;
          upd_inode ip (fun x => x <| i_nlink := i16 (i_nlink x - 1) |>);;
          iupdate ip;;
          iunlockput ip;;
          end_op;;
          mret 0
      end
  end.

Definition create (path : list Z) (type major minor : Z) : M K (option nat) :=
  '(o, name) ← nameiparent path no_name;
  match o with
  | None => mret None
  | Some dp =>
      ilock (Some dp);;
      o ← dirlookup dp name;
      match o with
      | Some (ip, _) =>
          iunlockput dp;;
          ilock (Some ip);;
          x ← get_inode ip;
          if (type =? T_FILE) && ((i_type x =? T_FILE) || (i_type x =? T_DEVICE)) then mret (Some ip) else
          iunlockput ip;;
          mret None
      | None =>
          d ← get_inode dp;
          o ← ialloc (i_dev d) type;
          match o with
          | None => iunlockput dp;; mret None
          | Some ip =>
              ilock (Some ip);;
              upd_inode ip (fun x => x <| i_major := major |>);;
              upd_inode ip (fun x => x <| i_minor := minor |>);;
              upd_inode ip (fun x => x <| i_nlink := 1 |>);;
              iupdate ip;;
              let fail :=
                upd_inode ip (fun x => x <| i_nlink := 0 |>);;
                iupdate ip;;
                iunlockput ip;;
                iunlockput dp;;
                mret None in
              r ← (if type =? T_DIR then
                     x ← get_inode ip;
                     r ← dirlink ip (bytes ".") (i_inum x);
                     if r <? 0 then mret r else
                     d ← get_inode dp;
                     dirlink ip (bytes "..") (i_inum d)
                   else mret 0);
              if r <? 0 then fail else
              x ← get_inode ip;
              r ← dirlink dp name (i_inum x);
              if r <? 0 then fail else
              when (type =? T_DIR)
                (upd_inode dp (fun x => x <| i_nlink := i16 (i_nlink x + 1) |>);;
                 iupdate dp);;
              iunlockput dp;;
              mret (Some ip)
          end
      end
  end.

(** The first part of [sys_open]: the inode, locked. *)
Definition open_inode (path : list Z) (omode : Z) : M K (option nat) :=
  if has omode O_CREATE then
    o ← create path T_FILE 0 0;
    match o with
    | None => end_op;; mret None
    | Some ip => mret (Some ip)
    end
  else
  o ← namei path;
  match o with
  | None => end_op;; mret None
  | Some ip =>
      ilock (Some ip);;
      x ← get_inode ip;
      if (i_type x =? T_DIR) && negb (omode =? O_RDONLY) then
        iunlockput ip;;
        end_op;;
        mret None
      else mret (Some ip)
  end.

Definition sys_open : M K Z :=
  omode ← argint 1;
  '(n, path) ← argstr 0 MAXPATH;
  if n <? 0 then mret (-1) else
  begin_op;;
  o ← open_inode path omode;
  match o with
  | None => mret (-1)
  | Some ip =>
      x ← get_inode ip;
      if (i_type x =? T_DEVICE) && ((i_major x <? 0) || (NDEV <=? i_major x)) then
        iunlockput ip;;
        end_op;;
        mret (-1)
      else
      f ← filealloc;
      fd ← match f with None => mret None | Some f => fdalloc f end;
      match f, fd with
      | Some f, Some fd =>
          x ← get_inode ip;
          (if i_type x =? T_DEVICE then
             upd_file f (fun y => y <| f_type := FD_DEVICE |>);;
             upd_file f (fun y => y <| f_major := i_major x |>)
           else
             upd_file f (fun y => y <| f_type := FD_INODE |>);;
             upd_file f (fun y => y <| f_off := 0 |>));;
          upd_file f (fun y => y <| f_ip := Some ip |>);;
          upd_file f (fun y => y <| f_readable := c_bool (negb (has omode O_WRONLY)) |>);;
          upd_file f (fun y => y <| f_writable := c_bool (has omode O_WRONLY || has omode O_RDWR) |>);;
          when (has omode O_TRUNC && (i_type x =? T_FILE)) (itrunc ip);;
          iunlock (Some ip);;
          end_op;;
          mret (Z.of_nat fd)
      | _, _ =>
          close_opt f;;
          iunlockput ip;;
          end_op;;
          mret (-1)
      end
  end.

Definition sys_mkdir : M K Z :=
  begin_op;;
  '(r, path) ← argstr 0 MAXPATH;
  o ← (if r <? 0 then mret None else create path T_DIR 0 0);
  match o with
  | None => end_op;; mret (-1)
  | Some ip =>
      iunlockput ip;;
      end_op;;
      mret 0
  end.

Definition sys_mknod : M K Z :=
  begin_op;;
  major ← argint 1;
  minor ← argint 2;
  '(r, path) ← argstr 0 MAXPATH;
  o ← (if r <? 0 then mret None else create path T_DEVICE (i16 major) (i16 minor));
  match o with
  | None => end_op;; mret (-1)
  | Some ip =>
      iunlockput ip;;
      end_op;;
      mret 0
  end.

Definition sys_chdir : M K Z :=
  p ← cur;
  begin_op;;
  '(r, path) ← argstr 0 MAXPATH;
  o ← (if r <? 0 then mret None else namei path);
  match o with
  | None => end_op;; mret (-1)
  | Some ip =>
      ilock (Some ip);;
      x ← get_inode ip;
      if negb (i_type x =? T_DIR) then
        iunlockput ip;;
        end_op;;
        mret (-1)
      else
      iunlock (Some ip);;
      x ← get_proc p;
      cwd ← deref (p_cwd x);
      iput cwd;;
      end_op;;
      upd_proc p (fun x => x <| p_cwd := Some ip |>);;
      mret 0
  end.

(** The loop that fetches the arguments: whether it succeeded, and the
    non-null entries of [argv]. *)
Definition fetch_argv (uargv : Z) : M K (bool * list Z) :=
  while (fun '(i, argv) =>
    if MAXARG <=? i then mret (inr (false, argv)) else
    '(r, uarg) ← fetchaddr (u64 (uargv + 8 * i));
    if r <? 0 then mret (inr (false, argv)) else
    if uarg =? 0 then mret (inr (true, argv)) else
    a ← vm kalloc;
    if a =? 0 then mret (inr (false, argv)) else
    let argv := argv ++ [a] in
    r ← fetchstr_at uarg a PGSIZE;
    if r <? 0 then mret (inr (false, argv)) else
    mret (inl (i + 1, argv))) (0, []).

Definition sys_exec : M K Z :=
  uargv ← argaddr 1;
  '(r, path) ← argstr 0 MAXPATH;
  if r <? 0 then mret (-1) else
  '(ok, argv) ← fetch_argv uargv;
  ret ← (if (ok : bool) then exec path argv else mret (-1));
  for_each argv (fun a => vm (kfree a));;
  mret ret.

Definition sys_pipe : M K Z :=
  p ← cur;
  fdarray ← argaddr 0;
  o ← pipealloc;
  match o with
  | None => mret (-1)
  | Some (rf, wf) =>
      fd0 ← fdalloc rf;
      fd1 ← match fd0 with None => mret None | Some _ => fdalloc wf end;
      match fd0, fd1 with
      | Some fd0, Some fd1 =>
          x ← get_proc p;
          r ← vm (copyout (p_pagetable x) fdarray (int_bytes (Z.of_nat fd0)));
          r ← (if r <? 0 then mret r else
               vm (copyout (p_pagetable x) (u64 (fdarray + 4)) (int_bytes (Z.of_nat fd1))));
          if r <? 0 then
            set_ofile p fd0 None;;
            set_ofile p fd1 None;;
            fileclose rf;;
            fileclose wf;;
            mret (-1)
          else mret 0
      | _, _ =>
          match fd0 with Some fd0 => set_ofile p fd0 None | None => mret tt end;;
          fileclose rf;;
          fileclose wf;;
          mret (-1)
      end
  end.

End sysfile.
