(* ===== verification/Syscall.v ===== *)
(** * Syscall: dispatching system calls, [kernel/syscall.c] *)

From stdpp Require Import base list gmap functions strings.
From Stdlib Require Import ZArith Lia.
From S2P Require Import Prelude CMem Riscv Spinlock Kalloc Vm Que KState Printf Proc Bio Log Fs Console File Fork Sysarg Exec Sysproc Sysfile.

(** ** The numbers of the system calls, [kernel/syscall.h] *)
Inductive sysno :=
| SYS_fork | SYS_exit | SYS_wait | SYS_pipe | SYS_read | SYS_kill
| SYS_exec | SYS_fstat | SYS_chdir | SYS_dup | SYS_getpid | SYS_sbrk
| SYS_sleep | SYS_uptime | SYS_open | SYS_write | SYS_mknod | SYS_unlink
| SYS_link | SYS_mkdir | SYS_close | SYS_trace | SYS_sigalarm | SYS_sigreturn
| SYS_settickets | SYS_waitx | SYS_setpriority.

Definition sys_num (x : sysno) : Z :=
  match x with
  | SYS_fork => 1
  | SYS_exit => 2
  | SYS_wait => 3
  | SYS_pipe => 4
  | SYS_read => 5
  | SYS_kill => 6
  | SYS_exec => 7
  | SYS_fstat => 8
  | SYS_chdir => 9
  | SYS_dup => 10
  | SYS_getpid => 11
  | SYS_sbrk => 12
  | SYS_sleep => 13
  | SYS_uptime => 14
  | SYS_open => 15
  | SYS_write => 16
  | SYS_mknod => 17
  | SYS_unlink => 18
  | SYS_link => 19
  | SYS_mkdir => 20
  | SYS_close => 21
  | SYS_trace => 22
  | SYS_sigalarm => 23
  | SYS_sigreturn => 24
  | SYS_settickets => 25
  | SYS_waitx => 26
  | SYS_setpriority => 27
  end.
Coercion sys_num : sysno >-> Z.

(** [syscallnames], [syscallargs]. *)
Definition syscallnames : list (sysno * string) :=
  [(SYS_fork, "fork"); (SYS_exit, "exit"); (SYS_wait, "wait"); (SYS_pipe, "pipe"); (SYS_read, "read");
   (SYS_kill, "kill"); (SYS_exec, "exec"); (SYS_fstat, "fstat"); (SYS_chdir, "chdir"); (SYS_dup, "dup");
   (SYS_getpid, "getpid"); (SYS_sbrk, "sbrk"); (SYS_sleep, "sleep"); (SYS_uptime, "uptime");
   (SYS_open, "open"); (SYS_write, "write"); (SYS_mknod, "mknod"); (SYS_unlink, "unlink");
   (SYS_link, "link"); (SYS_mkdir, "mkdir"); (SYS_close, "close"); (SYS_trace, "trace");
   (SYS_sigalarm, "sigalarm"); (SYS_sigreturn, "sigreturn"); (SYS_settickets, "settickets");
   (SYS_waitx, "waitx"); (SYS_setpriority, "setpriority")].

Definition syscallargs : list (sysno * Z) :=
  [(SYS_fork, 0); (SYS_exit, 1); (SYS_wait, 1); (SYS_pipe, 1); (SYS_read, 3);
   (SYS_kill, 1); (SYS_exec, 2); (SYS_fstat, 2); (SYS_chdir, 1); (SYS_dup, 1);
   (SYS_getpid, 0); (SYS_sbrk, 1); (SYS_sleep, 1); (SYS_uptime, 0);
   (SYS_open, 2); (SYS_write, 3); (SYS_mknod, 3); (SYS_unlink, 1);
   (SYS_link, 2); (SYS_mkdir, 1); (SYS_close, 1); (SYS_trace, 1);
   (SYS_sigalarm, 2); (SYS_sigreturn, 0); (SYS_settickets, 1);
   (SYS_waitx, 3); (SYS_setpriority, 2)].

(** An entry of a table indexed by system call number. *)
Fixpoint assoc {A} (i : Z) (l : list (sysno * A)) : option A :=
  match l with [] => None | (j, a) :: l' => if i =? j then Some a else assoc i l' end.

Section syscall.
Context `{L : Layout} `{E : Env}.

Definition syscalls : list (sysno * M K Z) :=
  [(SYS_fork, sys_fork); (SYS_exit, sys_exit); (SYS_wait, sys_wait); (SYS_pipe, sys_pipe);
   (SYS_read, sys_read); (SYS_kill, sys_kill); (SYS_exec, sys_exec); (SYS_fstat, sys_fstat);
   (SYS_chdir, sys_chdir); (SYS_dup, sys_dup); (SYS_getpid, sys_getpid); (SYS_sbrk, sys_sbrk);
   (SYS_sleep, sys_sleep); (SYS_uptime, sys_uptime); (SYS_open, sys_open); (SYS_write, sys_write);
   (SYS_mknod, sys_mknod); (SYS_unlink, sys_unlink); (SYS_link, sys_link); (SYS_mkdir, sys_mkdir);
   (SYS_close, sys_close); (SYS_trace, sys_trace); (SYS_sigalarm, sys_sigalarm);
   (SYS_sigreturn, sys_sigreturn); (SYS_settickets, sys_settickets); (SYS_waitx, sys_waitx);
   (SYS_setpriority, sys_setpriority)].

(** The report of a traced call. *)
Definition trace_report (p : nat) (num firstarg : Z) : M K unit :=
  x ← get_proc p;
  printf "%d: syscall %d %s(" [AInt (p_pid x); AInt num; AStr (bytes <$> assoc num syscallnames)];;
  for_each (seqZ 0 (default 0 (assoc num syscallargs))) (fun i =>
    if i =? 0 then printf "%d" [AInt (i32 firstarg)]
    else a ← argraw i; printf ", %d" [AInt (i32 a)]);;
  x ← get_proc p;
  a0 ← vm (read64 (p_trapframe x + tf_a0));
  printf (") -> %d" +:+ newline) [AInt (i32 a0)].

Definition syscall : M K unit :=
  p ← cur;
  x ← get_proc p;
  nonnull (p_trapframe x);;
  a7 ← vm (read64 (p_trapframe x + tf_a7));
  let num := i32 a7 in
  match (if 0 <? num then assoc num syscalls else None) with
  | Some f =>
      firstarg ← argraw 0;
      r ← f;
      x ← get_proc p;
      vm (write64 (p_trapframe x + tf_a0) (u64 r));;
      x ← get_proc p;
      when (has (p_mask x) (Z.shiftl 1 num)) (trace_report p num firstarg)
  | None =>
      printf ("%d %s: unknown sys call %d" +:+ newline)
        [AInt (p_pid x); AStr (Some (cstring (p_name x))); AInt num];;
      vm (write64 (p_trapframe x + tf_a0) (u64 (-1)))
  end;;
  if num =? SYS_sigreturn then
    x ← get_proc p;
    vm (write64 (p_trapframe x + tf_a0) (p_a0_backup x))
  else mret tt.

End syscall.
