(* ===== verification/Trap.v ===== *)
(** * Trap: traps and interrupts, [kernel/trap.c] and [forkret] of
      [kernel/proc.c]

    What a timer interrupt does depends on the scheduler the kernel is
    built with, the parameter [pol]. *)

From stdpp Require Import base list gmap functions strings.
From Stdlib Require Import ZArith Lia.
From S2P Require Import Prelude CMem Riscv Spinlock Kalloc Vm Que KState Printf Proc Bio Log Fs Console File Fork Sysarg Exec Sysproc Sysfile Syscall.

(** ** Control registers

    The interrupt-enable bit of [sstatus] is the field [c_sie] of the CPU. *)
Definition r_sstatus : M K Z :=
  s ← get;
  mret (Z.lor (Z.land (sstatus (k_csr s)) (Z.lnot SSTATUS_SIE)) (if c_sie (k_cpu s) then SSTATUS_SIE else 0)).
Definition w_sstatus (x : Z) : M K unit :=
  upd_csr (fun c => c <| sstatus := x |>);;
  upd_cpu (fun c => c <| c_sie := has x SSTATUS_SIE |>).
Definition intr_on : M K unit := upd_cpu (fun c => c <| c_sie := true |>).
Definition intr_off : M K unit := upd_cpu (fun c => c <| c_sie := false |>).

Section trap.
Context `{L : Layout} `{E : Env}.
Variable pol : policy.

Definition trapinit : M K unit := initlock ticks_lk.

Definition trapinithart : M K unit := upd_csr (fun c => c <| stvec := sym_kernelvec |>).

Definition clockintr : M K unit :=
  acquire ticks_lk;;
  modify (fun s => s <| k_ticks := u32 (k_ticks s + 1) |>);;
  update_ticks;;
  wakeup chan_ticks;;
  release ticks_lk.

Definition devintr : M K Z :=
  c ← gets k_csr;
  let scause := scause c in
  if has scause 0x8000000000000000 && (Z.land scause 0xff =? 9) then
    irq ← plic_claim;
    (if irq =? UART0_IRQ then uartintr
     else if irq =? VIRTIO0_IRQ then disk_intr
     else when (negb (irq =? 0)) (printf ("unexpected interrupt irq=%d" +:+ newline) [AInt irq]));;
    when (negb (irq =? 0)) (plic_complete irq);;
    mret 1
  else if scause =? 0x8000000000000001 then
    id ← cpuid;
    when (id =? 0) clockintr;;
    upd_csr (fun c => c <| sip := Z.land (sip c) (Z.lnot 2) |>);;
    mret 2
  else mret 0.

(** The target of the jump to [userret] in the trampoline, and [satp], its
    argument. *)
Definition usertrapret : M K (Z * Z) :=
  p ← cur;
  intr_off;;
  upd_csr (fun c => c <| stvec := u64 (TRAMPOLINE + (sym_uservec - trampoline)) |>);;
  x ← get_proc p;
  nonnull (p_trapframe x);;
  s ← get;
  vm (write64 (p_trapframe x + tf_kernel_satp) (satp (k_csr s)));;
  vm (write64 (p_trapframe x + tf_kernel_sp) (u64 (p_kstack x + PGSIZE)));;
  vm (write64 (p_trapframe x + tf_kernel_trap) sym_usertrap);;
  vm (write64 (p_trapframe x + tf_kernel_hartid) (c_id (k_cpu s)));;
  v ← r_sstatus;
  let v := Z.land v (Z.lnot SSTATUS_SPP) in
  let v := Z.lor v SSTATUS_SPIE in
  w_sstatus v;;
  epc ← vm (read64 (p_trapframe x + tf_epc));
  upd_csr (fun c => c <| sepc := epc |>);;
  mret (u64 (TRAMPOLINE + (sym_userret - trampoline)), MAKE_SATP (p_pagetable x)).

(** The report of an unexpected exception in a process. *)
Definition unexpected (p : nat) : M K unit :=
  s ← get;
  printf ("usertrap(): unexpected scause %p pid=%d" +:+ newline)
    [APtr (scause (k_csr s)); AInt (p_pid (k_proc s p))];;
  s ← get;
  printf ("            sepc=%p stval=%p" +:+ newline) [APtr (sepc (k_csr s)); APtr (stval (k_csr s))];;
  setkilled p.

(** The part of a timer interrupt in user space under round robin that
    delivers alarms. *)
Definition alarm_tick (p : nat) : M K unit :=
  x ← get_proc p;
  when (p_alarm_flag x =? 1)
    (upd_proc p (fun x => x <| p_current_ticks := u64 (p_current_ticks x + 1) |>);;
     x ← get_proc p;
     when (p_alarm_ticks x <=? p_current_ticks x)
       (upd_proc p (fun x => x <| p_alarm_flag := 0 |>);;
        let tf := p_trapframe x in
        tf_backup ← vm kalloc;
        nonnull tf_backup;;
        vm (set_mem (fun m => CString.memmove m tf_backup tf TRAPFRAME_SIZE));;
        upd_proc p (fun x => x <| p_trapframe_backup := tf_backup |>);;
        vm (write64 (tf + tf_epc) (p_alarm_handler x)))).

(** [1 << p->curr_q] of type [int]. *)
Definition slice (curr_q : Z) : M K Z :=
  if (0 <=? curr_q) && (curr_q <? 31) then mret (Z.shiftl 1 curr_q) else fault.

(** [for(q = 0; q < p->curr_q; q++) if(mlfqs[q].size > 0) yield();] *)
Definition yield_to_higher (p : nat) : M K unit :=
  while (fun q =>
    x ← get_proc p;
    if negb (q <? p_curr_q x) then mret (inr tt) else
    i ← level q;
    s ← get;
    when (0 <? size (k_mlfqs s i)) yield;;
    mret (inl (q + 1))) 0.

Definition mlfq_user_tick (p : nat) : M K unit :=
  x ← get_proc p;
  n ← slice (p_curr_q x);
  when (n <=? p_cq_rticks x)
    (when (p_curr_q x <? 4)
       (upd_proc p (fun x => x <| p_curr_q := p_curr_q x + 1 |>);;
        upd_proc p (fun x => x <| p_cq_rticks := 0 |>));;
     yield);;
  yield_to_higher p.

Definition mlfq_kernel_tick (p : nat) : M K unit :=
  x ← get_proc p;
  n ← slice (p_curr_q x);
  when (n <=? p_cq_rticks x)
    (when (p_curr_q x <? 4) (upd_proc p (fun x => x <| p_curr_q := p_curr_q x + 1 |>));;
     upd_proc p (fun x => x <| p_cq_rticks := 0 |>);;
     yield);;
  yield_to_higher p.

(** What follows a timer interrupt in user space, and in the kernel. *)
Definition user_tick (p : nat) : M K unit :=
  match pol with
  | RR => alarm_tick p;; yield
  | MLFQ => mlfq_user_tick p
  | LBS => yield
  | FCFS | PBS => mret tt
  end.

Definition kernel_tick (p : nat) : M K unit :=
  match pol with
  | MLFQ => mlfq_kernel_tick p
  | RR | LBS => yield
  | FCFS | PBS => mret tt
  end.

Definition usertrap : M K (Z * Z) :=
  v ← r_sstatus;
  if has v SSTATUS_SPP then panic "usertrap: not from user mode" else
  upd_csr (fun c => c <| stvec := sym_kernelvec |>);;
  p ← cur;
  x ← get_proc p;
  nonnull (p_trapframe x);;
  s ← get;
  vm (write64 (p_trapframe x + tf_epc) (sepc (k_csr s)));;
  which_dev ←
    (if scause (k_csr s) =? 8 then
       d ← killed p;
       when (negb (d =? 0)) (exit (-1));;
       epc ← vm (read64 (p_trapframe x + tf_epc));
       vm (write64 (p_trapframe x + tf_epc) (u64 (epc + 4)));;
       intr_on;;
       syscall;;
       mret 0
     else if scause (k_csr s) =? 15 then
       r ← vm (cowfault (p_pagetable x) (stval (k_csr s)));
       when (r <? 0) (unexpected p);;
       mret 0
     else
       which_dev ← devintr;
       when (which_dev =? 0) (unexpected p);;
       mret which_dev);
  d ← killed p;
  when (negb (d =? 0)) (exit (-1));;
  when (which_dev =? 2) (user_tick p);;
  usertrapret.

Definition kerneltrap : M K unit :=
  c ← gets k_csr;
  v ← r_sstatus;
  if negb (has v SSTATUS_SPP) then panic "kerneltrap: not from supervisor mode" else
  k ← gets k_cpu;
  if c_sie k then panic "kerneltrap: interrupts enabled" else
  which_dev ← devintr;
  if which_dev =? 0 then
    printf ("scause %p" +:+ newline) [APtr (scause c)];;
    s ← get;
    printf ("sepc=%p stval=%p" +:+ newline) [APtr (sepc (k_csr s)); APtr (stval (k_csr s))];;
    panic "kerneltrap"
  else
  p ← myproc;
  (if which_dev =? 2 then
     match p with
     | None => mret tt
     | Some p =>
         x ← get_proc p;
         when (bool_decide (p_state x = RUNNING)) (kernel_tick p)
     end
   else mret tt);;
  upd_csr (fun k => k <| sepc := sepc c |>);;
  w_sstatus v.

Definition forkret : M K (Z * Z) :=
  p ← cur;
  release (proc_lk p);;
  first ← gets k_first;
  when first
    (modify (fun s => s <| k_first := false |>);;
     fsinit ROOTDEV);;
  usertrapret.

End trap.
