(* ===== verification/AlarmSpec.v ===== *)
(** * AlarmSpec: alarms are transparent to the program they interrupt

    A timer interrupt that delivers an alarm saves the trap frame in a page
    of its own and sends the process to its handler; [sigreturn] puts the
    saved registers back. *)

From stdpp Require Import base list gmap functions strings.
From Stdlib Require Import ZArith Lia.
From S2P Require Import Prelude CMem Riscv Spinlock Kalloc Vm Que KState Printf Proc Bio Log Fs Console File Fork Sysarg Exec Sysproc Sysfile Syscall Trap KWp KDemo.

(** ** Running as process [p] *)

Section alarm.
Context `{L : Layout} {LO : LayoutOk L} `{E : Env}.
Variable p : nat.

(** The current process is [p], with structure [x]; memory is [v]. *)
Record now (x : proc) (v : kst) (s : K) : Prop := {
  n_proc : k_proc s p = x;
  n_vm : k_vm s = v;
  n_cpu : cpu_ok (k_cpu s);
  n_cur : c_proc (k_cpu s) = Some p;
}.

Lemma now_cur x v s (Q : nat -> K -> Prop) : now x v s -> (forall s', now x v s' -> Q p s') -> wp cur Q s.
Proof.
  intros [] HQ. eapply wp_cur; [done|done|]. intros c Hc. apply HQ. constructor; rsimpl; try done; [by eapply ceq_ok|].
  by destruct Hc as (-> & _).
Qed.

Lemma now_get x v s (Q : proc -> K -> Prop) : now x v s -> Q x s -> wp (get_proc p) Q s.
Proof. intros [] HQ. unfold get_proc. apply wp_gets. by subst x. Qed.

Lemma now_upd x v s f (Q : unit -> K -> Prop) : now x v s -> (forall s', now (f x) v s' -> Q tt s') -> wp (upd_proc p f) Q s.
Proof.
  intros [] HQ. unfold upd_proc. apply wp_modify, HQ. constructor; rsimpl; try done. rewrite fn_lookup_insert. by subst x.
Qed.

Lemma now_vm {A} x v s (m : M kst A) (Q : A -> K -> Prop) :
  now x v s -> wp m (fun a v' => forall s', now x v' s' -> Q a s') v -> wp (vm m) Q s.
Proof.
  intros [] Hm. unfold vm. apply wp_zoom. cbn [lget vm_lens]. rewrite n_vm0. eapply wp_mono; [exact Hm|]. cbv beta.
  intros a v' HQ. apply HQ. cbn [lset vm_lens]. constructor; rsimpl; done.
Qed.

(** ** Delivery *)

(** The fields of a trap frame that the kernel sets, and the others. *)
Definition kernel_off (o : Z) : Prop := 0 <= o < 24 \/ 32 <= o < 40.
Definition user_off (o : Z) : Prop := 24 <= o < 32 \/ 40 <= o < 288.

Lemma trapframe_page_apart a b o o' : page_ok a -> page_ok b -> a <> b -> 0 <= o < 4096 -> 0 <= o' < 4096 -> a + o <> b + o'.
Proof.
  intros [Ha _] [Hb _] Hne Ho Ho'. unfold PGSIZE in *. apply Z.mod_divide in Ha as [k ->]; [|lia]. apply Z.mod_divide in Hb as [k' ->]; [|lia].
  intros E0. apply Hne. f_equal. lia.
Qed.

Lemma wp_alarm_tick x v s l b :
  now x v s -> kmem_inv v (b :: l) -> page_ok (p_trapframe x) -> p_trapframe x ∉ b :: l ->
  p_alarm_flag x = 1 -> p_alarm_ticks x <= u64 (p_current_ticks x + 1) -> 0 <= p_alarm_handler x < 2 ^ 64 ->
  wp (alarm_tick p) (fun _ s' => exists v',
    now (x <| p_current_ticks := u64 (p_current_ticks x + 1) |> <| p_alarm_flag := 0 |> <| p_trapframe_backup := b |>) v' s' /\
    kmem_inv v' l /\ ref_upd v v' b 1 /\ load64 (kmem_mem v') (p_trapframe x + tf_epc) = p_alarm_handler x /\
    (forall o, 0 <= o < 288 -> ~ (24 <= o < 32) -> rd8 (kmem_mem v') (p_trapframe x + o) = rd8 (kmem_mem v) (p_trapframe x + o)) /\
    (forall o, 0 <= o < 288 -> rd8 (kmem_mem v') (b + o) = rd8 (kmem_mem v) (p_trapframe x + o))) s.
Proof.
  intros N Hi Htf Hnin Hfl Htk Hh. set (tf := p_trapframe x) in *. apply not_elem_of_cons in Hnin as [Hne Hnl].
  assert (page_ok b) as Hb by (apply (ki_pages _ _ Hi); left). pose proof (page_ok_pos _ Hb). pose proof (page_ok_pos _ Htf).
  pose proof (proj1 Hb) as Hba. pose proof (proj1 Htf) as Hta.
  assert (b ∉ l) as Hbl by (pose proof (ki_nodup _ _ Hi) as Hnd; by apply NoDup_cons in Hnd as [? _]).
  unfold alarm_tick. apply wp_bind. eapply now_get; [exact N|]. rewrite Hfl. cbn [Z.eqb when].
  apply wp_bind. eapply now_upd; [exact N|]. clear s N. intros s N. apply wp_bind. eapply now_get; [exact N|]. rsimpl.
  destruct (Z.leb_spec (p_alarm_ticks x) (u64 (p_current_ticks x + 1))); [|lia]. cbn [when].
  apply wp_bind. eapply now_upd; [exact N|]. clear s N. intros s N. apply wp_bind. eapply now_vm; [exact N|].
  eapply (wp_kalloc (L:=L) (LO:=LO)); [exact Hi|]. intros v1 Hi1 Hr1 Hc1 _. clear s N. intros s N.
  apply wp_bind, wp_nonnull. split; [lia|]. apply wp_bind. eapply now_vm; [exact N|]. unfold set_mem. apply wp_modify.
  clear s N. intros s N. apply wp_bind. eapply now_upd; [exact N|]. clear s N. intros s N. eapply now_vm; [exact N|].
  unfold write64, set_mem. apply wp_modify. clear s N. intros s N. eexists. split; [exact N|]. rsimpl. fold tf. cbn [kmem_mem set_field] in *.
  assert (forall o, 0 <= o < 288 -> rd8 (kmem_mem v1) (tf + o) = rd8 (kmem_mem v) (tf + o)) as Htf1.
  { intros o Ho. apply Hc1. unfold in_page, PGSIZE. pose proof (trapframe_page_apart tf b o) as Hap.
    intros [? ?]. apply (Hap (tf + o - b)); try done; lia. }
  set (m2 := CString.memmove (kmem_mem v1) b tf TRAPFRAME_SIZE).
  assert (forall o, 0 <= o < 288 -> rd8 m2 (b + o) = rd8 (kmem_mem v) (tf + o)) as Hm2.
  { intros o Ho. unfold m2. rewrite CString.rd8_memmove by done. unfold TRAPFRAME_SIZE.
    destruct (Z.leb_spec b (b + o)), (Z.ltb_spec (b + o) (b + 288)); try lia. cbn. rewrite <- Htf1 by done. f_equal. lia. }
  assert (forall y, ~ in_page b y -> rd8 m2 y = rd8 (kmem_mem v1) y) as Hm2'.
  { intros y Hy. unfold m2, in_page, PGSIZE in *. rewrite CString.rd8_memmove by done. unfold TRAPFRAME_SIZE.
    destruct (Z.leb_spec b y), (Z.ltb_spec y (b + 288)); cbn; try done; lia. }
  assert (forall o, 0 <= o < 288 -> ~ in_page b (tf + o)) as Hout.
  { intros o Ho [? ?]. unfold PGSIZE in *. apply (trapframe_page_apart tf b o (tf + o - b)); try done; lia. }
  change (tf_offset tf_epc) with 24. split_and!.
  - apply (kmem_inv_page _ _ tf); [done|done| |].
    + intros y Hy. apply rd8_store64_out. unfold in_page, PGSIZE in Hy. lia.
    + by apply (kmem_inv_page _ _ b).
  - done.
  - by apply load64_store64_eq.
  - intros o Ho Hno. rewrite rd8_store64_out by lia. rewrite Hm2' by auto. auto.
  - intros o Ho. rewrite rd8_store64_out; [auto|].
    destruct (decide (b + o < tf + 24)); [by left|right]. destruct (decide (b + o < tf + 32)); [|lia].
    exfalso. apply (trapframe_page_apart tf b (b + o - tf) o); try done; lia.
Qed.

(** ** Return *)

(** [sigreturn] copies the kernel's fields to the backup, one after the
    other: what the backup is then. *)
Definition merged (m : mem) (b tf : Z) (m' : mem) : Prop :=
  (forall y, ~ in_page b y -> rd8 m' y = rd8 m y) /\
  (forall o, 0 <= o < 288 -> rd8 m' (b + o) = if ((0 <=? o) && (o <? 24)) || ((32 <=? o) && (o <? 40)) then rd8 m (tf + o) else rd8 m (b + o)).

Lemma merged_copy m b tf : page_ok b -> page_ok tf -> tf <> b ->
  let c m o := store64 m (b + o) (load64 m (tf + o)) in merged m b tf (c (c (c (c m 32) 0) 16) 8).
Proof.
  intros Hb Htf Hne c.
  assert (forall m o y, 0 <= o < 288 -> ~ in_page b y -> rd8 (c m o) y = rd8 m y) as Hc1.
  { intros m0 o y Ho Hy. apply rd8_store64_out. unfold in_page, PGSIZE in Hy. lia. }
  assert (forall m o y, rd8 (c m o) (b + y) = if (o <=? y) && (y <? o + 8) then rd8 m (tf + y) else rd8 m (b + y)) as Hc2.
  { intros m0 o y. unfold c. rewrite rd8_copy64.
    replace (b + o <=? b + y) with (o <=? y) by (destruct (Z.leb_spec o y), (Z.leb_spec (b + o) (b + y)); lia).
    replace (b + y <? b + o + 8) with (y <? o + 8) by (destruct (Z.ltb_spec y (o + 8)), (Z.ltb_spec (b + y) (b + o + 8)); lia).
    case_if; [|done]. f_equal. lia. }
  assert (forall o, 0 <= o < 288 -> ~ in_page b (tf + o)) as Hout.
  { intros o Ho [? ?]. unfold PGSIZE in *. apply (trapframe_page_apart tf b o (tf + o - b)); try done; lia. }
  split.
  - intros y Hy. by rewrite !Hc1 by (done || lia).
  - intros o Ho. rewrite !Hc2, !Hc1 by (auto || lia).
    destruct (Z.leb_spec 8 o), (Z.ltb_spec o (8 + 8)), (Z.leb_spec 16 o), (Z.ltb_spec o (16 + 8)), (Z.leb_spec 0 o), (Z.ltb_spec o (0 + 8)),
      (Z.leb_spec 32 o), (Z.ltb_spec o (32 + 8)), (Z.ltb_spec o 24), (Z.ltb_spec o 40); cbn; try done; lia.
Qed.


(** The process after [sigreturn]. *)
Definition rearmed (x : proc) (a0 : Z) : proc :=
  let y := x <| p_trapframe_backup := 0 |> <| p_alarm_flag := 1 |> <| p_current_ticks := 0 |> in
  (if (p_alarm_ticks x =? 0) && (p_alarm_handler x =? 0) then y <| p_alarm_flag := 0 |> else y) <| p_a0_backup := a0 |>.

Lemma wp_sigreturn x v s l (Q : unit -> K -> Prop) :
  let tf := p_trapframe x in let b := p_trapframe_backup x in
  now x v s -> kmem_inv v l -> page_ok tf -> page_ok b -> tf <> b -> tf ∉ l -> num_ref v (b / PGSIZE) = 1 ->
  (forall v' s', now (rearmed x (load64 (kmem_mem v') (tf + tf_a0))) v' s' -> kmem_inv v' (b :: l) ->
    (forall o, user_off o -> rd8 (kmem_mem v') (tf + o) = rd8 (kmem_mem v) (b + o)) ->
    (forall o, kernel_off o -> rd8 (kmem_mem v') (tf + o) = rd8 (kmem_mem v) (tf + o)) -> Q tt s') ->
  wp sigreturn Q s.
Proof.
  intros tf b N Hi Htf Hb Hne Hnl Href HQ. pose proof (page_ok_pos _ Hb). pose proof (page_ok_pos _ Htf).
  pose proof (proj1 Hb) as Hba. pose proof (proj1 Htf) as Hta. assert (b ∉ l) as Hbl by (intros Hin; apply (ki_free _ _ Hi) in Hin; lia).
  unfold sigreturn. apply wp_bind. eapply now_cur; [exact N|]. clear s N. intros s N. apply wp_bind. eapply now_get; [exact N|].
  fold tf b. apply wp_bind, wp_nonnull. split; [lia|]. apply wp_bind, wp_nonnull. split; [lia|].
  do 4 (apply wp_bind; eapply now_vm; [exact N|]; unfold copy_field, read64, write64, set_mem; wp_steps; clear s N; intros s N).
  change (tf_offset tf_kernel_hartid) with 32 in N. change (tf_offset tf_kernel_satp) with 0 in N.
  change (tf_offset tf_kernel_trap) with 16 in N. change (tf_offset tf_kernel_sp) with 8 in N.
  pose proof (merged_copy (kmem_mem v) b tf Hb Htf Hne) as Hm. cbv zeta in Hm. destruct Hm as [Hm1 Hm2].
  set (v1 := v <| kmem_mem ::= _ |> <| kmem_mem ::= _ |> <| kmem_mem ::= _ |> <| kmem_mem ::= _ |>) in N.
  change (store64 _ (b + 8) _) with (kmem_mem v1) in Hm1, Hm2.
  assert (kmem_inv v1 l) as Hi1.
  { change v1 with (v <| kmem_mem ::= fun _ => kmem_mem v1 |>). by apply (kmem_inv_page _ _ b). }
  assert (num_ref v1 (b / PGSIZE) = 1) as Href1 by done. clearbody v1.
  apply wp_bind. eapply now_vm; [exact N|]. apply wp_modify. clear s N. intros s N. set (v2 := v1 <| kmem_mem ::= _ |>) in N.
  assert (kmem_inv v2 l) as Hi2.
  { apply (kmem_inv_page _ _ tf); [done|done| |done]. intros y Hy. rewrite CString.rd8_memmove by done. unfold in_page, PGSIZE, TRAPFRAME_SIZE in *.
    destruct (Z.leb_spec tf y), (Z.ltb_spec y (tf + 288)); cbn; try done; lia. }
  assert (forall o, 0 <= o < 288 -> rd8 (kmem_mem v2) (tf + o) = rd8 (kmem_mem v1) (b + o)) as Hm3.
  { intros o Ho. change (kmem_mem v2) with (CString.memmove (kmem_mem v1) tf b TRAPFRAME_SIZE). rewrite CString.rd8_memmove by done.
    unfold TRAPFRAME_SIZE. destruct (Z.leb_spec tf (tf + o)), (Z.ltb_spec (tf + o) (tf + 288)); try lia. cbn. f_equal. lia. }
  assert (num_ref v2 (b / PGSIZE) = 1) as Href2 by done. clearbody v2.
  apply wp_bind. eapply now_vm; [exact N|]. eapply (wp_kfree (L:=L) (LO:=LO)); [exact Hi2|done|lia|]. rewrite Href2. cbn [Z.eqb].
  intros v3 _ [Hi3 Hc3]. clear s N. intros s N. do 3 (apply wp_bind; eapply now_upd; [exact N|]; clear s N; intros s N).
  apply wp_bind. set (y := x <| p_trapframe_backup := 0 |> <| p_alarm_flag := 1 |> <| p_current_ticks := 0 |>) in N.
  eapply (wp_mono _ (fun _ => now (if (p_alarm_ticks x =? 0) && (p_alarm_handler x =? 0) then y <| p_alarm_flag := 0 |> else y) v3)).
  { destruct ((p_alarm_ticks x =? 0) && (p_alarm_handler x =? 0)); cbn [when]; [|by apply wp_ret]. eapply now_upd; [exact N|done]. }
  clear s N. intros [] s N. apply wp_bind. eapply now_vm; [exact N|]. apply wp_gets. clear s N. intros s N.
  eapply now_upd; [exact N|]. clear s N. intros s N. eapply HQ; [exact N|done| |].
  all: assert (forall o, 0 <= o < 288 -> rd8 (kmem_mem v3) (tf + o) = rd8 (kmem_mem v1) (b + o)) as Hm4;
    [intros o Ho; rewrite <- Hm3 by done; apply Hc3; intros [? ?]; unfold PGSIZE in *; apply (trapframe_page_apart tf b o (tf + o - b)); try done; lia|].
  all: intros o Ho; unfold user_off, kernel_off in Ho; rewrite Hm4, Hm2 by lia;
    destruct (Z.leb_spec 0 o), (Z.ltb_spec o 24), (Z.leb_spec 32 o), (Z.ltb_spec o 40); cbn; try done; lia.
Qed.

Lemma assoc_sigreturn : assoc 24 syscalls = Some sys_sigreturn.
Proof. reflexivity. Qed.

(** The whole system call: the register that holds its result gets the
    value back that it had when the process was interrupted. *)
Lemma wp_syscall_sigreturn x v s l (Q : unit -> K -> Prop) :
  let tf := p_trapframe x in let b := p_trapframe_backup x in
  now x v s -> kmem_inv v l -> page_ok tf -> page_ok b -> tf <> b -> tf ∉ l -> num_ref v (b / PGSIZE) = 1 ->
  load64 (kmem_mem v) (tf + tf_a7) = SYS_sigreturn -> has (p_mask x) (Z.shiftl 1 SYS_sigreturn) = false ->
  (forall a0 v' s', now (rearmed x a0) v' s' -> kmem_inv v' (b :: l) ->
    (forall o, user_off o -> rd8 (kmem_mem v') (tf + o) = rd8 (kmem_mem v) (b + o)) ->
    (forall o, kernel_off o -> rd8 (kmem_mem v') (tf + o) = rd8 (kmem_mem v) (tf + o)) -> Q tt s') ->
  wp syscall Q s.
Proof.
  intros tf b N Hi Htf Hb Hne Hnl Href Ha7 Hmask HQ. pose proof (page_ok_pos _ Htf). pose proof (proj1 Htf) as Hta.
  unfold syscall. apply wp_bind. eapply now_cur; [exact N|]. clear s N. intros s N. apply wp_bind. eapply now_get; [exact N|]. fold tf.
  apply wp_bind, wp_nonnull. split; [lia|]. apply wp_bind. eapply now_vm; [exact N|]. unfold read64 at 1. apply wp_gets. clear s N. intros s N.
  rewrite Ha7. change (i32 SYS_sigreturn) with 24. change (0 <? 24) with true. cbv zeta iota. rewrite assoc_sigreturn.
  apply wp_bind, wp_bind. unfold argraw. apply wp_bind. eapply now_cur; [exact N|]. clear s N. intros s N. apply wp_bind. eapply now_get; [exact N|].
  cbv zeta iota. fold tf. apply wp_bind, wp_nonnull. split; [lia|]. eapply now_vm; [exact N|]. unfold read64. apply wp_gets. clear s N. intros s N.
  apply wp_bind. unfold sys_sigreturn. apply wp_bind. eapply wp_sigreturn; [exact N|exact Hi|done..|]. fold tf b. clear s N. intros v' s N Hi' Hu Hk.
  apply wp_ret, wp_bind. eapply now_get; [exact N|]. set (a0 := load64 (kmem_mem v') (tf + tf_a0)) in *.
  assert (p_trapframe (rearmed x a0) = tf) as Et by (unfold rearmed; by case_if).
  assert (p_mask (rearmed x a0) = p_mask x) as Em by (unfold rearmed; by case_if).
  assert (p_a0_backup (rearmed x a0) = a0) as Ea by (unfold rearmed; by case_if).
  rewrite Et. apply wp_bind. eapply now_vm; [exact N|]. unfold write64, set_mem. apply wp_modify. clear s N. intros s N.
  apply wp_bind. eapply now_get; [exact N|]. rewrite Em. change 24 with (sys_num SYS_sigreturn). rewrite Hmask. cbn [when]. apply wp_ret.
  rewrite Z.eqb_refl. apply wp_bind. eapply now_get; [exact N|]. rewrite Et, Ea. eapply now_vm; [exact N|]. apply wp_modify. clear s N. intros s N.
  set (v2 := v' <| kmem_mem ::= _ |> <| kmem_mem ::= _ |>) in N. change (tf_offset tf_a0) with 112 in *.
  assert (forall y, rd8 (kmem_mem v2) y = rd8 (kmem_mem v') y) as Hsame.
  { intros y. change (kmem_mem v2) with (store64 (store64 (kmem_mem v') (tf + 112) (u64 0)) (tf + 112) (load64 (kmem_mem v') (tf + 112))).
    rewrite rd8_copy64. destruct (Z.leb_spec (tf + 112) y), (Z.ltb_spec y (tf + 112 + 8)); cbn [andb]; rewrite ?rd8_store64_out by lia; try done.
    f_equal. lia. }
  eapply HQ; [exact N| |intros o Ho; rewrite Hsame; auto..].
  change v2 with (v' <| kmem_mem ::= fun _ => kmem_mem v2 |>). apply kmem_inv_mem; [intros; apply Hsame|done].
Qed.

End alarm.

(** Process [p] runs on this CPU. *)
Definition running (p : nat) (s : K) : Prop := cpu_ok (k_cpu s) /\ c_proc (k_cpu s) = Some p.

(** Byte [o] of the page at [a]. *)
Definition byte_at (s : K) (a o : Z) : Z := rd8 (kmem_mem (k_vm s)) (a + o).

Lemma now_running p s : running p s -> now p (k_proc s p) (k_vm s) s.
Proof. by intros []. Qed.

(** C5: An alarm is transparent.  When a timer interrupt finds the alarm due,
    the process goes on in its handler with every other register as it was,
    and no second alarm is delivered until the handler is done.  Whatever
    the handler and the rest of the system have done in between, as long as
    the saved trap frame is still there, [sigreturn], through the whole of
    [syscall], brings back every register and the program counter of the
    interrupted code, the register [a0] that a system call overwrites
    included.  The fields that belong to the kernel stay, the page of the
    backup is free again, and the alarm is armed for the next interval
    unless it has been turned off. *)
Theorem alarm_transparent `{L : Layout} {LO : LayoutOk L} `{E : Env} (p : nat) (s : K) (b : Z) (l : list Z) :
  let tf := p_trapframe (k_proc s p) in
  running p s -> kmem_inv (k_vm s) (b :: l) -> page_ok tf -> tf ∉ b :: l ->
  p_alarm_flag (k_proc s p) = 1 -> p_alarm_ticks (k_proc s p) <= u64 (p_current_ticks (k_proc s p) + 1) ->
  0 <= p_alarm_handler (k_proc s p) < 2 ^ 64 ->
  exists s1, alarm_tick p s = Ok tt s1 /\
    load64 (kmem_mem (k_vm s1)) (tf + tf_epc) = p_alarm_handler (k_proc s p) /\
    (forall o, user_off o -> ~ (24 <= o < 32) -> byte_at s1 tf o = byte_at s tf o) /\
    k_proc s1 p = k_proc s p <| p_current_ticks := u64 (p_current_ticks (k_proc s p) + 1) |> <| p_alarm_flag := 0 |> <| p_trapframe_backup := b |> /\
    running p s1 /\ kmem_inv (k_vm s1) l /\ num_ref (k_vm s1) (b / PGSIZE) = 1 /\
    forall s2 l2, running p s2 -> kmem_inv (k_vm s2) l2 -> tf ∉ l2 -> num_ref (k_vm s2) (b / PGSIZE) = 1 ->
      p_trapframe (k_proc s2 p) = tf -> p_trapframe_backup (k_proc s2 p) = b ->
      (forall o, 0 <= o < TRAPFRAME_SIZE -> byte_at s2 b o = byte_at s1 b o) ->
      load64 (kmem_mem (k_vm s2)) (tf + tf_a7) = SYS_sigreturn -> has (p_mask (k_proc s2 p)) (Z.shiftl 1 SYS_sigreturn) = false ->
      exists s3, syscall s2 = Ok tt s3 /\
        (forall o, user_off o -> byte_at s3 tf o = byte_at s tf o) /\
        (forall o, kernel_off o -> byte_at s3 tf o = byte_at s2 tf o) /\
        kmem_inv (k_vm s3) (b :: l2) /\ p_trapframe_backup (k_proc s3 p) = 0 /\ p_current_ticks (k_proc s3 p) = 0 /\
        p_alarm_flag (k_proc s3 p) =
          (if (p_alarm_ticks (k_proc s2 p) =? 0) && (p_alarm_handler (k_proc s2 p) =? 0) then 0 else 1).
Proof.
  intros tf Hrun Hi Htf Hnin Hfl Htk Hh.
  destruct (wp_unit _ _ _ (wp_alarm_tick p _ _ s l b (now_running _ _ Hrun) Hi Htf Hnin Hfl Htk Hh)) as (s1 & E1 & v1 & [N1 N2 N3 N4] & Hi1 & Hr1 & Hepc & Hreg & Hbak).
  exists s1. unfold byte_at. rewrite N2. fold tf in Hreg, Hbak, Hepc. split_and!; try done.
  - intros o Ho Hno. apply Hreg; [unfold user_off in Ho; lia|done].
  - exact (ref_upd_at _ _ _ _ Hr1).
  - intros s2 l2 Hrun2 Hi2 Hnl2 Href2 Et Eb Hsame Ha7 Hmask. rewrite <- Eb in Href2. rewrite <- Et in Ha7, Hnl2, Htf.
    assert (page_ok b) as Hb by (apply (ki_pages _ _ Hi); left).
    assert (tf <> b) as Hne by (apply not_elem_of_cons in Hnin as [? _]; done).
    assert (wp syscall (fun _ s3 => exists a0 v3, now p (rearmed (k_proc s2 p) a0) v3 s3 /\ kmem_inv v3 (b :: l2) /\
      (forall o, user_off o -> rd8 (kmem_mem v3) (tf + o) = rd8 (kmem_mem (k_vm s2)) (b + o)) /\
      (forall o, kernel_off o -> rd8 (kmem_mem v3) (tf + o) = rd8 (kmem_mem (k_vm s2)) (tf + o))) s2) as Hw.
    { eapply (wp_syscall_sigreturn p); [by apply now_running|exact Hi2|done|by rewrite Eb|by rewrite Et, Eb|done..|].
      rewrite Et, Eb. intros a0 v' s' N Hi' Hu Hk. by exists a0, v'. }
    apply wp_unit in Hw as (s3 & E3 & a0 & v3 & [P1 P2 _ _] & Hi3 & Hu & Hk). exists s3. rewrite P1, P2.
    split_and!; try done; [|unfold rearmed; by case_if..].
    intros o Ho. assert (0 <= o < TRAPFRAME_SIZE) by (unfold user_off, TRAPFRAME_SIZE in *; lia). rewrite Hu by done. rewrite Hsame by done. by apply Hbak.
Qed.

(** ** A process with an alarm that is due *)

Module AlarmDemo.
Import Tiny.

Definition cpu1 : kcpu := mkKcpu (Some 0%nat) 0 false true 0.
Definition proc1 : proc :=
  KDemo.proc0 <| p_trapframe := page 0 |> <| p_alarm_flag := 1 |> <| p_alarm_ticks := 2 |> <| p_current_ticks := 1 |>
    <| p_alarm_handler := 64 |>.
Definition due : K := KDemo.k0 <| k_vm := three_free |> <| k_cpu := cpu1 |> <| k_proc := fun _ => proc1 |>.

(** The handler does nothing but call [sigreturn]. *)
Lemma alarm_transparent_witness :
  exists s1 s3, alarm_tick 0 due = Ok tt s1 /\ load64 (kmem_mem (k_vm s1)) (page 0 + 24) = 64 /\
    @syscall _ KDemo.env (s1 <| k_vm ::= fun v => v <| kmem_mem ::= fun m => store64 m (page 0 + 168) 24 |> |>) = Ok tt s3 /\
    (forall o, user_off o -> byte_at s3 (page 0) o = byte_at due (page 0) o) /\ p_alarm_flag (k_proc s3 0%nat) = 1.
Proof.
  destruct (alarm_transparent (E := KDemo.env) 0 due (page 1) [page 2; page 3]) as (s1 & E1 & He & _ & Ep & [Hc Hcp] & Hi1 & Hr1 & H2).
  - split; [by split|done].
  - exact three_free_inv.
  - split; done.
  - rewrite !not_elem_of_cons. split_and!; try done. apply not_elem_of_nil.
  - done.
  - done.
  - done.
  - set (s2 := s1 <| k_vm ::= fun v => v <| kmem_mem ::= fun m => store64 m (page 0 + 168) 24 |> |>).
    assert (k_proc s2 0%nat = k_proc s1 0%nat) as Es by done.
    destruct (H2 s2 [page 2; page 3]) as (s3 & E3 & Hu & _ & _ & _ & _ & Hf).
    + by split.
    + apply (kmem_inv_page _ _ (page 0)); [done| | |exact Hi1].
      * rewrite !not_elem_of_cons. split_and!; try done. apply not_elem_of_nil.
      * intros y Hy. apply rd8_store64_out. unfold in_page, PGSIZE in Hy. lia.
    + rewrite !not_elem_of_cons. split_and!; try done. apply not_elem_of_nil.
    + exact Hr1.
    + rewrite Es, Ep. done.
    + rewrite Es, Ep. done.
    + intros o Ho. unfold TRAPFRAME_SIZE in Ho. apply rd8_store64_out. unfold page, PGSIZE. lia.
    + apply load64_store64_eq. done.
    + rewrite Es, Ep. done.
    + exists s1, s3. split_and!; [exact E1|exact He|exact E3|exact Hu|]. rewrite Hf, Es, Ep. done.
Defined.

End AlarmDemo.
