(* ===== verification/Boot.v ===== *)
(** * Boot: starting the kernel, [kernel/main.c] and [kvminit] of
      [kernel/vm.c] *)

From stdpp Require Import base list gmap functions strings.
From Stdlib Require Import ZArith Lia.
From S2P Require Import Prelude CMem Riscv Spinlock Kalloc Vm Que KState Printf Proc Bio Log Fs Console File Fork Trap.

Section boot.
Context `{L : Layout} `{E : Env}.
Variable pol : policy.

Definition kvminit : M K unit :=
  pt ← vm kvmmake;
  modify (fun s => s <| k_kpgtbl := pt |>).

(** [sfence_vma] has no effect in the model, which has no TLB. *)
Definition kvminithart : M K unit :=
  pt ← gets k_kpgtbl;
  upd_csr (fun c => c <| satp := MAKE_SATP pt |>).

(** [main] on one CPU, with the first [rounds] rounds of its scheduler. *)
Definition main (rounds : nat) : M K unit :=
  id ← cpuid;
  (if id =? 0 then
     consoleinit;;
     printfinit;;
     printf newline [];;
     printf ("xv6 kernel is booting" +:+ newline) [];;
     printf newline [];;
     vm kinit;;
     kvminit;;
     kvminithart;;
     procinit;;
     mlfq_init;;
     trapinit;;
     trapinithart;;
     plicinit;;
     plicinithart;;
     binit;;
     iinit;;
     fileinit;;
     disk_init;;
     userinit;;
     modify (fun s => s <| k_started := true |>)
   else
     while (fun _ : unit =>
       started ← gets k_started;
       if (started : bool) then mret (inr tt) else mret (inl tt)) tt;;
     id ← cpuid;
     printf ("hart %d starting" +:+ newline) [AInt id];;
     kvminithart;;
     trapinithart;;
     plicinithart);;
  scheduler pol rounds.

End boot.
