(* ===== verification/User.v ===== *)
(** * User: programs and the system calls they make, [user/usys.pl] and
      [user/user.h]

    A program runs on its own memory.  What a system call does outside that
    memory is up to the kernel, which a program knows only through the
    interface [Sys]: the kernel answers a call with the result and the bytes
    it stores for the program, and goes on in another state of the world. *)

From stdpp Require Import base list gmap strings.
From Stdlib Require Import ZArith Lia.
From S2P Require Import Prelude CMem.

(** ** System calls

    One constructor for each stub that [usys.pl] generates.  Strings and
    buffers that the kernel reads are passed by value. *)
Inductive call :=
| CFork
| CExit (status : Z)
| CWait
| CPipe
| CRead (fd n : Z)
| CWrite (fd : Z) (bytes : list Z)
| CClose (fd : Z)
| CKill (pid : Z)
| CExec (path : list Z) (argv : list (list Z))
| COpen (path : list Z) (omode : Z)
| CMknod (path : list Z) (major minor : Z)
| CUnlink (path : list Z)
| CFstat (fd : Z)
| CLink (old new : list Z)
| CMkdir (path : list Z)
| CChdir (path : list Z)
| CDup (fd : Z)
| CGetpid
| CSbrk (n : Z)
| CSleep (n : Z)
| CUptime
| CTrace (mask : Z)
| CSigalarm (ticks handler : Z)
| CSigreturn
| CSettickets (n : Z)
| CWaitx
| CSetpriority (priority pid : Z)
(** A call by its name in [usys.pl], with its arguments as the registers hold
    them: for pointers to memory that the program need not have. *)
| CRaw (name : string) (args : list Z)
(** A load or a store that need not be in the program's memory: memory from
    [sbrk], or no memory at all, when it traps. *)
| CLoad (p : Z)
| CStore (p v : Z).

(** [kcall c w]: the result of call [c] in world [w], the bytes the kernel
    stores in the program's memory (one list for each buffer of the call), and
    the world after it. *)
Class Sys := {
  World : Type;
  kcall : call -> World -> Z * list (list Z) * World;
}.

Record U `{Sys} := mkU {
  u_mem : mem;
  u_world : World;
}.
#[export] Instance U_settable `{Sys} : Settable U := {| mk_eta := fun u => mkU _ (u_mem u) (u_world u) |}.

Section user.
Context `{Sys}.

(** ** Memory *)

Definition ld8 (p : Z) : M U Z := gets (fun s => rd8 (u_mem s) p).
Definition st8 (p v : Z) : M U unit := modify (fun s => s <| u_mem ::= fun m => wr8 m p v |>).
Definition store (p : Z) (bs : list Z) : M U unit := modify (fun s => s <| u_mem ::= fun m => wrbytes m p bs |>).
Definition fetch (p : Z) (n : Z) : M U (list Z) := gets (fun s => rdbytes (u_mem s) p (Z.to_nat n)).

(** ** The stubs *)

Definition trap (c : call) : M U (Z * list (list Z)) := fun s =>
  let '(r, bs, w) := kcall c (u_world s) in Ok (r, bs) (s <| u_world := w |>).

Definition call0 (c : call) : M U Z := '(r, _) ← trap c; mret r.

(** A call that stores its first buffer at [p] (nothing if [p] is 0). *)
Definition call1 (c : call) (p : Z) : M U Z :=
  '(r, bs) ← trap c;
  when (negb (p =? 0)) (store p (hd [] bs));;
  mret r.

Definition exit {A} (status : Z) : M U A := call0 (CExit status);; leave status.

(** [exec] returns only when it fails. *)
Definition exec (path : list Z) (argv : list (list Z)) : M U Z :=
  r ← call0 (CExec path argv);
  if r <? 0 then mret r else leave 0.

Definition fork : M U Z := call0 CFork.
Definition wait (status : Z) : M U Z := call1 CWait status.
Definition pipe (fds : Z) : M U Z := call1 CPipe fds.
Definition write (fd p n : Z) : M U Z := bs ← fetch p n; call0 (CWrite fd bs).
Definition read (fd p n : Z) : M U Z := call1 (CRead fd n) p.
Definition close (fd : Z) : M U Z := call0 (CClose fd).
Definition kill (pid : Z) : M U Z := call0 (CKill pid).
Definition open (path : list Z) (omode : Z) : M U Z := call0 (COpen path omode).
Definition mknod (path : list Z) (major minor : Z) : M U Z := call0 (CMknod path major minor).
Definition unlink (path : list Z) : M U Z := call0 (CUnlink path).
Definition fstat (fd st : Z) : M U Z := call1 (CFstat fd) st.
Definition link (old new : list Z) : M U Z := call0 (CLink old new).
Definition mkdir (path : list Z) : M U Z := call0 (CMkdir path).
Definition chdir (path : list Z) : M U Z := call0 (CChdir path).
Definition dup (fd : Z) : M U Z := call0 (CDup fd).
Definition getpid : M U Z := call0 CGetpid.
Definition sbrk (n : Z) : M U Z := call0 (CSbrk n).
Definition sleep (n : Z) : M U Z := call0 (CSleep n).
Definition uptime : M U Z := call0 CUptime.
Definition trace (mask : Z) : M U Z := call0 (CTrace mask).
Definition sigalarm (ticks handler : Z) : M U Z := call0 (CSigalarm ticks handler).
Definition sigreturn : M U Z := call0 CSigreturn.
Definition settickets (n : Z) : M U Z := call0 (CSettickets n).
Definition waitx (status wtime rtime : Z) : M U Z :=
  '(r, bs) ← trap CWaitx;
  when (negb (status =? 0)) (store status (nth 0 bs []));;
  store wtime (nth 1 bs []);;
  store rtime (nth 2 bs []);;
  mret r.
Definition setpriority (priority pid : Z) : M U Z := call0 (CSetpriority priority pid).
Definition raw (name : string) (args : list Z) : M U Z := call0 (CRaw name args).
Definition raw_exec (path argv : Z) : M U Z :=
  r ← raw "exec" [path; argv];
  if r <? 0 then mret r else leave 0.

(** Accesses to memory that the program need not have: without it, the
    kernel kills the process. *)
Definition load_byte (p : Z) : M U Z :=
  '(r, bs) ← trap (CLoad p);
  if r <? 0 then leave (-1) else mret (u8 (hd 0 (hd [] bs))).
Definition store_byte (p v : Z) : M U unit :=
  r ← call0 (CStore p (u8 v));
  if r <? 0 then leave (-1) else st8 p v.

Lemma wp_trap c (Q : Z * list (list Z) -> U -> Prop) s :
  (let '(r, bs, w) := kcall c (u_world s) in Q (r, bs) (s <| u_world := w |>)) -> wp (trap c) Q s.
Proof. unfold wp, trap. by destruct (kcall c (u_world s)) as [[r bs] w]. Qed.

End user.

(** ** Programs that end

    [wx m Q s]: run from [s], [m] either returns [a], and then [Q (inl a)]
    holds, or leaves the program with [n], and then [Q (inr n)] holds. *)
Section wx.
Context {S : Type}.

Definition wx {A} (m : M S A) (Q : A + Z -> S -> Prop) (s : S) : Prop :=
  match m s with Ok a s' => Q (inl a) s' | Gone n s' => Q (inr n) s' | _ => False end.

Lemma wx_bind {A B} (m : M S A) (f : A -> M S B) Q s :
  wx m (fun r s' => match r with inl a => wx (f a) Q s' | inr n => Q (inr n) s' end) s -> wx (m ≫= f) Q s.
Proof. unfold wx, mbind, M_bind. by destruct (m s). Qed.

Lemma wx_wp {A} (m : M S A) Q s : wp m (fun a => Q (inl a)) s -> wx m Q s.
Proof. unfold wx, wp. by destruct (m s). Qed.

Lemma wx_mono {A} (m : M S A) (Q Q' : A + Z -> S -> Prop) s : wx m Q s -> (forall r s', Q r s' -> Q' r s') -> wx m Q' s.
Proof. unfold wx. destruct (m s); auto. Qed.

Lemma wx_ret {A} (a : A) Q s : Q (inl a) s -> wx (mret a) Q s.
Proof. done. Qed.

Lemma wx_leave {A} n (Q : A + Z -> S -> Prop) s : Q (inr n) s -> wx (leave n) Q s.
Proof. done. Qed.

(** Loops, as in [wp_while_idx]. *)
Lemma wx_while {St R} (I : nat -> St -> S -> Prop) (Q : R + Z -> S -> Prop) body k st s :
  (forall k st s, I k st s ->
     wx (body st) (fun r s' =>
       match r with
       | inl (inl st') => exists k', (k' < k)%nat /\ I k' st' s'
       | inl (inr r') => Q (inl r') s'
       | inr n => Q (inr n) s'
       end) s) ->
  I k st s -> Z.of_nat k < Z.pos FUEL ->
  wx (while body st) Q s.
Proof.
  intros Hbody HI Hfuel.
  assert (forall m k st s, (k <= m)%nat -> I k st s ->
    wx (loop_nat (Datatypes.S m) body st) (fun r s' =>
      match r with inl (inl _) => False | inl (inr r') => Q (inl r') s' | inr n => Q (inr n) s' end) s) as Hgen.
  { clear st s k HI Hfuel. induction m as [|m IH]; intros k st s Hle HI; cbn [loop_nat]; apply wx_bind;
      (eapply wx_mono; [exact (Hbody k st s HI)|]); intros [[st'|r]|n] s'; try done; intros (k' & Hlt & HI'); [lia|].
    apply (IH k'); [lia|done]. }
  specialize (Hgen k k st s ltac:(lia) HI). unfold while. apply wx_bind. unfold wx in Hgen |- *. rewrite loop_pos_nat.
  assert (exists j, Pos.to_nat FUEL = (Datatypes.S k + j)%nat) as [j ->] by (exists (Pos.to_nat FUEL - Datatypes.S k)%nat; lia).
  rewrite loop_nat_add. unfold mbind, M_bind at 1.
  destruct (loop_nat (Datatypes.S k) body st s) as [[st'|r] s'|msg| |c s'|]; done.
Qed.

End wx.

Arguments wx : simpl never.

#[export] Hint Unfold ld8 st8 store fetch : xv6_op.
