(* ===== verification/Ulib.v ===== *)
(** * Ulib: the library of user programs, [user/ulib.c] and
      [user/printf.c] *)

From stdpp Require Import base list gmap strings.
From Stdlib Require Import ZArith Lia Ascii.
From S2P Require Import Prelude CMem User.

(** The bytes of a string literal. *)
Definition lit (s : string) : list Z := (fun a => Z.of_nat (nat_of_ascii a)) <$> String.list_ascii_of_string s.

(** [kernel/fcntl.h] *)
Definition O_RDONLY : Z := 0x000.
Definition O_WRONLY : Z := 0x001.
Definition O_RDWR : Z := 0x002.
Definition O_CREATE : Z := 0x200.
Definition O_TRUNC : Z := 0x400.

Section ulib.
Context `{Sys}.

(** ** [user/ulib.c] *)

Definition strcpy (s t : Z) : M U Z :=
  while (fun i =>
    c ← ld8 (t + i);
    st8 (s + i) c;;
    mret (if negb (c =? 0) then inl (i + 1) else inr tt)) 0;;
  mret s.

Definition strcmp (p q : Z) : M U Z :=
  while (fun i =>
    a ← ld8 (p + i);
    b ← ld8 (q + i);
    mret (if negb (a =? 0) && (a =? b) then inl (i + 1) else inr (a - b))) 0.

Definition strlen (s : Z) : M U Z :=
  while (fun n =>
    c ← ld8 (s + n);
    if c =? 0 then mret (inr n) else
    n' ← int_op (n + 1);
    mret (inl n')) 0.

(** The string at [p], as a system call reads it. *)
Definition getstr (p : Z) : M U (list Z) := n ← strlen p; fetch p n.

Definition memset (dst c n : Z) : M U Z :=
  modify (fun s => s <| u_mem ::= fun m => CString.memset m dst c n |>);;
  mret dst.

Definition strchr (s c : Z) : M U Z :=
  while (fun s =>
    a ← ld8 s;
    mret (if a =? 0 then inr 0 else if a =? c then inr s else inl (s + 1))) s.

Definition gets (buf max : Z) : M U Z :=
  i ← while (fun i =>
    i' ← int_op (i + 1);
    if negb (i' <? max) then mret (inr i) else
    '(cc, bs) ← trap (CRead 0 1);
    if cc <? 1 then mret (inr i) else
    let c := u8 (hd 0 (hd [] bs)) in
    st8 (buf + i) c;;
    mret (if (c =? 10) || (c =? 13) then inr i' else inl i')) 0;
  st8 (buf + i) 0;;
  mret buf.

Definition stat (n st : Z) : M U Z :=
  path ← getstr n;
  fd ← open path O_RDONLY;
  if fd <? 0 then mret (-1) else
  r ← fstat fd st;
  close fd;;
  mret r.

Definition atoi (s : Z) : M U Z :=
  '(_, n) ← while (fun '(s, n) =>
    c ← ld8 s;
    if (48 <=? c) && (c <=? 57) then
      n ← int_op (n * 10);
      n ← int_op (n + c);
      n ← int_op (n - 48);
      mret (inl (s + 1, n))
    else mret (inr (s, n))) (s, 0);
  mret n.

Definition memmove (vdst vsrc n : Z) : M U Z :=
  modify (fun s => s <| u_mem ::= fun m =>
    if vdst <? vsrc then CString.memmove_up m vdst vsrc (Z.to_nat n)
    else CString.memmove_down m (vdst + n) (vsrc + n) (Z.to_nat n) |>);;
  mret vdst.

Definition memcmp (s1 s2 n : Z) : M U Z :=
  s ← get;
  mret (CString.memcmp_loop (u_mem s) s1 s2 (Z.to_nat (u32 n))).

Definition memcpy (dst src n : Z) : M U Z := memmove dst src (i32 n).

(** ** [user/printf.c] *)

Definition digits : list Z := lit "0123456789ABCDEF".
Definition digit (i : Z) : Z := nth (Z.to_nat i) digits 0.

Definition putc (fd c : Z) : M U unit := call0 (CWrite fd [u8 c]);; mret tt.

(** [do { buf[i++] = digits[x % base]; } while((x /= base) != 0);]: the
    buffer holds 16 characters. *)
Definition printint_digits (base x : Z) : M U (list Z) :=
  '(buf, _) ← while (fun '(buf, x) =>
    if 16 <=? Z.of_nat (length buf) then fault else
    let buf := buf ++ [digit (x mod base)] in
    let x := x / base in
    mret (if negb (x =? 0) then inl (buf, x) else inr (buf, x))) ([], x);
  mret buf.

Definition printint (fd xx base : Z) (sgn : bool) : M U unit :=
  let neg := sgn && (xx <? 0) in
  x ← (if neg then n ← int_op (- xx); mret (u32 n) else mret (u32 xx));
  buf ← printint_digits base x;
  if neg && (16 <=? Z.of_nat (length buf)) then fault else
  let buf := if neg then buf ++ [45] else buf in
  for_each (rev buf) (putc fd).

Definition printptr (fd x : Z) : M U unit :=
  putc fd 48;;
  putc fd 120;;
  for_st (seq 0 16) (fun _ x =>
    putc fd (digit (Z.shiftr x 60));;
    mret (inl (u64 (Z.shiftl x 4)))) x ≫= fun (_ : Z + unit) => mret tt.

(** [while( *s != 0) { putc(fd, *s); s++; }] *)
Definition puts (fd s : Z) : M U unit :=
  while (fun s =>
    c ← ld8 s;
    if c =? 0 then mret (inr tt) else
    putc fd c;;
    mret (inl (s + 1))) s.

(** The argument list holds the values of the argument registers and stack
    slots; taking one more than were passed is undefined. *)
Definition va_arg (ap : list Z) : M U (Z * list Z) :=
  match ap with a :: ap' => mret (a, ap') | [] => fault end.

(** [state] is whether the last character was a percent sign. *)
Fixpoint vprintf_loop (fd : Z) (fmt : list Z) (state : bool) (ap : list Z) : M U unit :=
  match fmt with
  | [] => mret tt
  | c :: fmt' =>
      if negb state then
        if c =? 37 then vprintf_loop fd fmt' true ap
        else putc fd c;; vprintf_loop fd fmt' false ap
      else
      ap ← (if c =? 100 then '(a, ap) ← va_arg ap; printint fd (i32 a) 10 true;; mret ap
            else if c =? 108 then '(a, ap) ← va_arg ap; printint fd (i32 a) 10 false;; mret ap
            else if c =? 120 then '(a, ap) ← va_arg ap; printint fd (i32 a) 16 false;; mret ap
            else if c =? 112 then '(a, ap) ← va_arg ap; printptr fd a;; mret ap
            else if c =? 115 then
              '(s, ap) ← va_arg ap;
              (if s =? 0 then for_each (lit "(null)") (putc fd) else puts fd s);;
              mret ap
            else if c =? 99 then '(a, ap) ← va_arg ap; putc fd a;; mret ap
            else if c =? 37 then putc fd c;; mret ap
            else putc fd 37;; putc fd c;; mret ap);
      vprintf_loop fd fmt' false ap
  end.

Definition vprintf (fd : Z) (fmt : list Z) (ap : list Z) : M U unit := vprintf_loop fd fmt false ap.

Definition fprintf (fd : Z) (fmt : string) (ap : list Z) : M U unit := vprintf fd (lit fmt) ap.
Definition printf (fmt : string) (ap : list Z) : M U unit := vprintf 1 (lit fmt) ap.

End ulib.

Definition newline : string := String (Ascii.ascii_of_nat 10) EmptyString.
