(* ===== verification/UlibSpec.v ===== *)
(** * UlibSpec: what the library of user programs computes

    Strings in the memory of a program, the functions of [user/ulib.c] on
    them, and printing and reading numbers. *)

From stdpp Require Import base list gmap strings.
From Stdlib Require Import ZArith Lia.
From S2P Require Import Prelude CMem User Ulib.

(** ** Bytes and strings in memory *)

(** The bytes [l] are at [p]. *)
Definition holds (m : mem) (p : Z) (l : list Z) : Prop := forall i c, l !! i = Some c -> rd8 m (p + Z.of_nat i) = c.

(** The C string [l] is at [p]. *)
Definition str_at (m : mem) (p : Z) (l : list Z) : Prop := holds m p (l ++ [0]) /\ Forall (fun c => c <> 0) l.

Lemma holds_app m p l1 l2 : holds m p (l1 ++ l2) <-> holds m p l1 /\ holds m (p + Z.of_nat (length l1)) l2.
Proof.
  split.
  - intros H. split.
    + intros i c Hi. apply H. by apply lookup_app_l_Some.
    + intros i c Hi. specialize (H (length l1 + i)%nat c). rewrite <- Z.add_assoc, <- Nat2Z.inj_add. apply H.
      rewrite lookup_app_r by lia. by replace (length l1 + i - length l1)%nat with i by lia.
  - intros [H1 H2] i c Hi. apply lookup_app_Some in Hi as [Hi|[Hi Hc]]; [by apply H1|]. apply H2 in Hc. rewrite <- Hc. f_equal. lia.
Qed.

Lemma holds_ext m m' p l :
  (forall x, p <= x < p + Z.of_nat (length l) -> rd8 m' x = rd8 m x) -> holds m p l -> holds m' p l.
Proof. intros Hx H i c Hi. rewrite Hx; [by apply H|]. apply lookup_lt_Some in Hi. lia. Qed.

Lemma holds_rdbytes m p l : holds m p l -> rdbytes m p (length l) = l.
Proof.
  intros H. apply list_eq. intros i. destruct (l !! i) as [c|] eqn:Ei.
  - rewrite rdbytes_lookup by (by eapply lookup_lt_Some). f_equal. by apply H.
  - apply lookup_ge_None_1 in Ei. apply lookup_ge_None_2. by rewrite length_rdbytes.
Qed.

Lemma holds_wrbytes m p l : Forall (fun b => 0 <= b < 256) l -> holds (wrbytes m p l) p l.
Proof.
  intros Hl i c Hi. pose proof (lookup_lt_Some _ _ _ Hi). rewrite rd8_wrbytes.
  destruct (Z.leb_spec p (p + Z.of_nat i)), (Z.ltb_spec (p + Z.of_nat i) (p + Z.of_nat (length l))); try lia. cbn.
  replace (Z.to_nat (p + Z.of_nat i - p)) with i by lia. rewrite (nth_lookup_Some _ _ _ _ Hi). apply u8_small.
  by apply (Forall_lookup_1 _ _ _ _ Hl Hi).
Qed.

Lemma str_at_end m p l : str_at m p l -> rd8 m (p + Z.of_nat (length l)) = 0.
Proof. intros [H _]. apply H. by rewrite list_lookup_middle. Qed.

Lemma str_at_char m p l i c : str_at m p l -> l !! i = Some c -> rd8 m (p + Z.of_nat i) = c /\ c <> 0.
Proof.
  intros [H Hz] Hi. split; [apply H; by apply lookup_app_l_Some|]. by apply (Forall_lookup_1 _ _ _ _ Hz Hi).
Qed.

Lemma str_at_drop m p l1 l2 : str_at m p (l1 ++ l2) -> str_at m (p + Z.of_nat (length l1)) l2.
Proof. intros [H Hz]. rewrite <- app_assoc in H. apply holds_app in H as [_ H]. apply Forall_app in Hz as [_ Hz]. done. Qed.

Section ulib.
Context `{Sys}.

Lemma wp_ustrlen p l (Q : Z -> U -> Prop) s :
  str_at (u_mem s) p l -> Z.of_nat (length l) < 2 ^ 31 -> Q (Z.of_nat (length l)) s -> wp (strlen p) Q s.
Proof.
  intros Hp Hl HQ. unfold strlen.
  apply (wp_while (fun n s' => s' = s /\ exists i, n = Z.of_nat i /\ (i <= length l)%nat) (fun n => (length l - Z.to_nat n)%nat)).
  - intros n s' (-> & i & -> & Hi). wp_steps. destruct (decide (i = length l)) as [->|].
    + rewrite (str_at_end _ _ _ Hp). cbn. by wp_steps.
    + destruct (lookup_lt_is_Some_2 l i) as [c Hc]; [lia|]. destruct (str_at_char _ _ _ _ _ Hp Hc) as [-> Hz].
      destruct (Z.eqb_spec c 0); [done|]. wp_steps. split; [unfold INT_MIN, INT_MAX; lia|]. wp_steps.
      split; [|lia]. split; [done|]. exists (S i). lia.
  - split; [done|]. exists 0%nat. lia.
  - apply lt_fuel. lia.
Qed.

Lemma wp_getstr p l (Q : list Z -> U -> Prop) s :
  str_at (u_mem s) p l -> Z.of_nat (length l) < 2 ^ 31 -> Q l s -> wp (getstr p) Q s.
Proof.
  intros Hp Hl HQ. unfold getstr. apply wp_bind. eapply wp_ustrlen; [done|done|]. wp_steps. rewrite Nat2Z.id.
  destruct Hp as [Hp _]. apply holds_app in Hp as [Hp _]. by rewrite holds_rdbytes.
Qed.

(** [strchr]: the first occurrence. *)
Lemma wp_strchr_some p l1 c l2 (Q : Z -> U -> Prop) s :
  str_at (u_mem s) p (l1 ++ c :: l2) -> c ∉ l1 -> Z.of_nat (length l1) < 2 ^ 62 -> Q (p + Z.of_nat (length l1)) s -> wp (strchr p c) Q s.
Proof.
  intros Hp Hc Hl HQ. unfold strchr.
  apply (wp_while_idx (fun k q s' => s' = s /\ (k <= length l1)%nat /\ q = p + Z.of_nat (length l1 - k))) with (k := length l1).
  - intros k q s' (-> & Hk & ->). wp_steps. destruct (decide (k = 0%nat)) as [->|].
    + rewrite Nat.sub_0_r. destruct (str_at_char _ _ _ (length l1) c Hp) as [-> Hz]; [by rewrite list_lookup_middle|].
      destruct (Z.eqb_spec c 0); [done|]. by rewrite Z.eqb_refl.
    + destruct (lookup_lt_is_Some_2 l1 (length l1 - k)) as [a Ha]; [lia|].
      destruct (str_at_char _ _ _ (length l1 - k) a Hp) as [-> Hz]; [by apply lookup_app_l_Some|].
      destruct (Z.eqb_spec a 0); [done|]. destruct (Z.eqb_spec a c) as [->|]; [destruct Hc; by eapply list_elem_of_lookup_2|].
      exists (k - 1)%nat. split; [lia|]. split; [done|]. lia.
  - split; [done|]. lia.
  - apply lt_fuel. lia.
Qed.

Lemma wp_strchr_none p l c (Q : Z -> U -> Prop) s :
  str_at (u_mem s) p l -> c ∉ l -> Z.of_nat (length l) < 2 ^ 62 -> Q 0 s -> wp (strchr p c) Q s.
Proof.
  intros Hp Hc Hl HQ. unfold strchr.
  apply (wp_while_idx (fun k q s' => s' = s /\ (k <= length l)%nat /\ q = p + Z.of_nat (length l - k))) with (k := length l).
  - intros k q s' (-> & Hk & ->). wp_steps. destruct (decide (k = 0%nat)) as [->|].
    + rewrite Nat.sub_0_r, (str_at_end _ _ _ Hp). done.
    + destruct (lookup_lt_is_Some_2 l (length l - k)) as [a Ha]; [lia|].
      destruct (str_at_char _ _ _ _ _ Hp Ha) as [-> Hz].
      destruct (Z.eqb_spec a 0); [done|]. destruct (Z.eqb_spec a c) as [->|]; [destruct Hc; by eapply list_elem_of_lookup_2|].
      exists (k - 1)%nat. split; [lia|]. split; [done|]. lia.
  - split; [done|]. lia.
  - apply lt_fuel. lia.
Qed.

(** [memmove] towards lower addresses. *)
Lemma wp_memmove_left d s n (Q : Z -> U -> Prop) u :
  d <= s -> 0 <= n ->
  (forall m', (forall x, rd8 m' x = if (d <=? x) && (x <? d + n) then rd8 (u_mem u) (s + (x - d)) else rd8 (u_mem u) x) ->
     Q d (u <| u_mem := m' |>)) ->
  wp (memmove d s n) Q u.
Proof.
  intros Hds Hn HQ. unfold memmove. wp_steps. apply (HQ (if d <? s then CString.memmove_up (u_mem u) d s (Z.to_nat n)
    else CString.memmove_down (u_mem u) (d + n) (s + n) (Z.to_nat n))).
  intros x. destruct (Z.ltb_spec d s).
  - rewrite CString.rd8_memmove_up by lia. by rewrite Z2Nat.id by lia.
  - assert (d = s) as -> by lia. rewrite CString.rd8_memmove_down by lia. rewrite !Z2Nat.id by lia. replace (s + n - n) with s by lia.
    case_match; [|done]. f_equal. lia.
Qed.

End ulib.

(** ** Numbers *)

(** The value of decimal digits (as characters), the most significant first. *)
Definition dec_value (ds : list Z) : Z := foldl (fun n c => n * 10 + (c - 48)) 0 ds.

Lemma dec_value_snoc ds c : dec_value (ds ++ [c]) = dec_value ds * 10 + (c - 48).
Proof. unfold dec_value. by rewrite foldl_app. Qed.

Lemma dec_value_cons c ds : dec_value (c :: ds) = (c - 48) * 10 ^ Z.of_nat (length ds) + dec_value ds.
Proof.
  induction ds as [|e ds IH] using rev_ind; [unfold dec_value; cbn; lia|].
  change (c :: ds ++ [e]) with ((c :: ds) ++ [e]). rewrite !dec_value_snoc, IH, length_app. cbn [length].
  rewrite Nat2Z.inj_add, Z.pow_add_r by lia. change (10 ^ Z.of_nat 1) with 10. lia.
Qed.

Lemma dec_value_nonneg ds : Forall (fun c => 48 <= c <= 57) ds -> 0 <= dec_value ds.
Proof.
  induction ds as [|c ds IH] using rev_ind; intros Hd; [done|]. rewrite dec_value_snoc.
  apply Forall_app in Hd as [H1 H2]. apply Forall_cons in H2 as [H2 _]. specialize (IH H1). lia.
Qed.

Lemma dec_value_take ds i : Forall (fun c => 48 <= c <= 57) ds -> (i <= length ds)%nat -> dec_value (take i ds) <= dec_value ds.
Proof.
  intros Hd. induction ds as [|c ds IH] using rev_ind; intros Hi; [by rewrite take_nil|].
  apply Forall_app in Hd as [H1 H2]. apply Forall_cons in H2 as [H2 _]. pose proof (dec_value_nonneg _ H1).
  rewrite length_app in Hi. cbn in Hi. destruct (decide (i <= length ds)%nat).
  - rewrite take_app_le, dec_value_snoc by lia. specialize (IH H1). lia.
  - by rewrite take_ge by (rewrite length_app; cbn; lia).
Qed.

Lemma digit_dec i : 0 <= i < 10 -> digit i = 48 + i.
Proof.
  intros Hi. assert (i = 0 \/ i = 1 \/ i = 2 \/ i = 3 \/ i = 4 \/ i = 5 \/ i = 6 \/ i = 7 \/ i = 8 \/ i = 9) as Hc by lia.
  by repeat destruct Hc as [->|Hc]; try subst.
Qed.

(** What [printf] relies on: a [write] to [fd] appends to [out]. *)
Class Sink `{Sys} (fd : Z) (out : World -> list Z) : Prop := {
  sink_write bs w : exists r bs' w', kcall (CWrite fd bs) w = (r, bs', w') /\ out w' = out w ++ bs;
}.

Section numbers.
Context `{Sys} (fd : Z) (out : World -> list Z) `{!Sink fd out}.

Lemma wp_putc c (Q : unit -> U -> Prop) s :
  (forall w', out w' = out (u_world s) ++ [u8 c] -> Q tt (s <| u_world := w' |>)) -> wp (putc fd c) Q s.
Proof.
  intros HQ. unfold putc, call0. wp_steps. apply wp_trap.
  destruct (sink_write [u8 c] (u_world s)) as (r & bs & w' & -> & Ho). wp_steps. by apply HQ.
Qed.

Lemma wp_puts_list l (Q : unit -> U -> Prop) s :
  Forall (fun c => 0 <= c < 256) l ->
  (forall w', out w' = out (u_world s) ++ l -> Q tt (s <| u_world := w' |>)) -> wp (for_each l (putc fd)) Q s.
Proof.
  revert s. induction l as [|c l IH]; intros s Hl HQ; cbn [for_each].
  - wp_steps. destruct s as [m w]. apply (HQ w). by rewrite app_nil_r.
  - apply Forall_cons in Hl as [Hc Hl]. apply wp_bind, wp_putc. intros w1 H1. apply IH; [done|]. rsimpl. intros w2 H2.
    apply (HQ w2). by rewrite H2, H1, u8_small, <- app_assoc by done.
Qed.

(** The digits of [x < 10 ^ 16], the least significant first. *)
Lemma wp_printint_digits x (Q : list Z -> U -> Prop) s :
  0 <= x < 10 ^ 16 ->
  (forall buf, buf <> [] -> Forall (fun c => 48 <= c <= 57) buf -> (length buf <= 16)%nat -> dec_value (rev buf) = x -> Q buf s) ->
  wp (printint_digits 10 x) Q s.
Proof.
  intros Hx HQ. unfold printint_digits. apply wp_bind.
  apply (wp_while (fun '(buf, y) s' => s' = s /\ Forall (fun c => 48 <= c <= 57) buf /\ (length buf < 16)%nat /\
      0 <= y < 10 ^ (16 - Z.of_nat (length buf)) /\ x = y * 10 ^ Z.of_nat (length buf) + dec_value (rev buf))
    (fun '(buf, _) => (16 - length buf)%nat)).
  - intros [buf y] s' (-> & Hb & Hl & Hy & Hv). destruct (Z.leb_spec 16 (Z.of_nat (length buf))); [lia|].
    assert (0 <= y mod 10 < 10) as Hm by (apply Z.mod_pos_bound; lia). rewrite digit_dec by done.
    assert (dec_value (rev (buf ++ [48 + y mod 10])) = dec_value (rev buf) + y mod 10 * 10 ^ Z.of_nat (length buf)) as Hnew.
    { rewrite rev_app_distr. cbn [rev app]. rewrite dec_value_cons, length_rev. lia. }
    assert (x = y / 10 * 10 ^ Z.of_nat (length (buf ++ [48 + y mod 10])) + dec_value (rev (buf ++ [48 + y mod 10]))) as Hv'.
    { rewrite Hnew, length_app. cbn. rewrite Nat2Z.inj_add, Z.pow_add_r by lia. change (10 ^ Z.of_nat 1) with 10.
      rewrite Hv. pose proof (Z.div_mod y 10 ltac:(lia)). nia. }
    assert (Forall (fun c => 48 <= c <= 57) (buf ++ [48 + y mod 10])) as Hb' by (apply Forall_app; split; [done|constructor; [lia|constructor]]).
    set (nb := buf ++ [48 + y mod 10]) in *. assert (length nb = S (length buf)) as Hnb by (unfold nb; rewrite length_app; cbn; lia).
    wp_steps. destruct (Z.eqb_spec (y / 10) 0) as [Hz|Hz]; cbn [negb].
    + apply wp_ret, HQ; [by destruct buf|done|lia|]. by rewrite Hz, Z.mul_0_l, Z.add_0_l in Hv'.
    + assert (10 ^ (16 - Z.of_nat (length buf)) = 10 * 10 ^ (16 - Z.of_nat (length nb))) as Hp.
      { rewrite <- Z.pow_succ_r by lia. f_equal. lia. }
      assert (1 <= y / 10 < 10 ^ (16 - Z.of_nat (length nb))) as Hr.
      { split; [|apply Z.div_lt_upper_bound; lia]. pose proof (Z.div_pos y 10). lia. }
      assert (length nb < 16)%nat as Hl'.
      { destruct (decide (length nb < 16)%nat); [done|]. assert (length nb = 16%nat) as E by lia. rewrite E in Hr. cbn in Hr. lia. }
      split; [|lia]. split; [done|]. split; [done|]. split; [done|]. split; [lia|done].
  - split; [done|]. split; [constructor|]. split; [cbn; lia|]. split; [cbn; lia|]. unfold dec_value. cbn. lia.
  - apply lt_fuel. cbn. lia.
Qed.

Lemma wp_printint_nat n (Q : unit -> U -> Prop) s :
  0 <= n <= INT_MAX ->
  (forall ds w', ds <> [] -> Forall (fun c => 48 <= c <= 57) ds -> dec_value ds = n ->
     out w' = out (u_world s) ++ ds -> Q tt (s <| u_world := w' |>)) ->
  wp (printint fd n 10 true) Q s.
Proof.
  intros Hn HQ. unfold printint. destruct (Z.ltb_spec n 0); [lia|]. cbn [andb]. wp_steps. rewrite u32_small by (unfold INT_MAX in *; lia).
  apply wp_printint_digits; [unfold INT_MAX in Hn; lia|]. intros buf Hne Hd Hl Hv. apply wp_puts_list.
  - apply Forall_rev. eapply Forall_impl; [exact Hd|]. cbn. lia.
  - intros w' Hw'. apply (HQ (rev buf)); [|by apply Forall_rev|done|done].
    intros E%(f_equal length). rewrite length_rev in E. by destruct buf.
Qed.

Lemma wp_puts p l (Q : unit -> U -> Prop) s :
  str_at (u_mem s) p l -> Forall (fun c => 0 <= c < 256) l -> Z.of_nat (length l) < 2 ^ 62 ->
  (forall w', out w' = out (u_world s) ++ l -> Q tt (s <| u_world := w' |>)) -> wp (puts fd p) Q s.
Proof.
  intros Hp Hr Hl HQ. unfold puts.
  apply (wp_while_idx (fun k q s' => (k <= length l)%nat /\ q = p + Z.of_nat (length l - k) /\ u_mem s' = u_mem s /\
    out (u_world s') = out (u_world s) ++ take (length l - k) l)) with (k := length l).
  - intros k q s' (Hk & -> & Hm & Ho). wp_steps. rewrite Hm. destruct (decide (k = 0%nat)) as [->|Hk0].
    + rewrite Nat.sub_0_r, (str_at_end _ _ _ Hp). change (0 =? 0) with true. wp_steps. rewrite Nat.sub_0_r, firstn_all in Ho.
      specialize (HQ (u_world s') Ho). destruct s', s. cbn in Hm. subst. exact HQ.
    + set (i := (length l - k)%nat) in *. destruct (lookup_lt_is_Some_2 l i) as [c Hc]; [lia|].
      destruct (str_at_char _ _ _ _ _ Hp Hc) as [-> Hz]. pose proof (Forall_lookup_1 _ _ _ _ Hr Hc) as Hcr. cbn in Hcr.
      rewrite (proj2 (Z.eqb_neq _ _)) by done. apply wp_bind, wp_putc. intros w' Hw'. wp_steps.
      exists (k - 1)%nat. split; [lia|]. split; [lia|]. replace (length l - (k - 1))%nat with (S i) by lia. split; [lia|]. rsimpl. split; [done|].
      rewrite Hw', Ho, (take_S_r _ _ c) by done. rewrite u8_small by done. by rewrite app_assoc.
  - rewrite Nat.sub_diag. split; [done|]. split; [lia|]. split; [done|]. cbn. by rewrite app_nil_r.
  - apply lt_fuel. lia.
Qed.

Lemma wp_atoi p ds (Q : Z -> U -> Prop) s :
  str_at (u_mem s) p ds -> Forall (fun c => 48 <= c <= 57) ds -> dec_value ds <= INT_MAX - 48 -> Z.of_nat (length ds) < 2 ^ 62 ->
  Q (dec_value ds) s -> wp (atoi p) Q s.
Proof.
  intros Hp Hd Hv Hl HQ. unfold atoi. apply wp_bind.
  apply (wp_while_idx (fun k '(q, n) s' => s' = s /\ (k <= length ds)%nat /\ q = p + Z.of_nat (length ds - k) /\ n = dec_value (take (length ds - k) ds))) with (k := length ds).
  - intros k [q n] s' (-> & Hk & -> & ->). wp_steps. destruct (decide (k = 0%nat)) as [->|Hk0].
    + rewrite Nat.sub_0_r, (str_at_end _ _ _ Hp), firstn_all. cbn. by wp_steps.
    + set (i := (length ds - k)%nat). destruct (lookup_lt_is_Some_2 ds i) as [c Hc]; [lia|].
      destruct (str_at_char _ _ _ _ _ Hp Hc) as [-> _]. pose proof (Forall_lookup_1 _ _ _ _ Hd Hc) as Hr. cbn in Hr.
      destruct (Z.leb_spec 48 c), (Z.leb_spec c 57); try lia. cbn [andb].
      pose proof (dec_value_take ds (S i) Hd ltac:(lia)) as Hle. rewrite (take_S_r _ _ c), dec_value_snoc in Hle by done.
      pose proof (dec_value_nonneg (take i ds) ltac:(by apply Forall_take)). unfold INT_MAX in *.
      wp_steps. split; [unfold INT_MIN, INT_MAX; lia|]. wp_steps. split; [unfold INT_MIN, INT_MAX; lia|]. wp_steps. split; [unfold INT_MIN, INT_MAX; lia|]. wp_steps.
      exists (k - 1)%nat. split; [lia|]. split; [done|]. replace (length ds - (k - 1))%nat with (S i) by lia. split; [lia|]. split; [lia|].
      rewrite (take_S_r _ _ c), dec_value_snoc by done. lia.
  - rewrite Nat.sub_diag. split; [done|]. split; [done|]. split; [lia|done].
  - apply lt_fuel. lia.
Qed.

(** C40: reading back a printed number.  [printint] writes a natural number as
    a non-empty string of decimal digits, and [atoi] of that string, wherever
    it is, returns the number.  The numbers stop 48 short of the largest
    [int]: above that the sum in [atoi] overflows before the subtraction of
    ['0']. *)
Theorem printint_atoi n s :
  0 <= n <= INT_MAX - 48 ->
  exists ds, ds <> [] /\
    wp (printint fd n 10 true) (fun _ s' => out (u_world s') = out (u_world s) ++ ds /\ u_mem s' = u_mem s) s /\
    forall p s2, str_at (u_mem s2) p ds -> wp (atoi p) (fun r s' => r = n /\ s' = s2) s2.
Proof.
  intros Hn.
  assert (wp (printint_digits 10 n) (fun buf s' => s' = s /\ buf <> [] /\ Forall (fun c => 48 <= c <= 57) buf /\ (length buf <= 16)%nat /\
    dec_value (rev buf) = n) s) as Hw by (apply wp_printint_digits; [unfold INT_MAX in Hn; lia|by intros]).
  apply wp_ok in Hw as (buf & ? & Hok & -> & Hne & Hd & Hl & Hv). exists (rev buf). split; [|split].
  - intros E%(f_equal length). rewrite length_rev in E. by destruct buf.
  - unfold printint. destruct (Z.ltb_spec n 0); [lia|]. cbn [andb]. wp_steps. rewrite u32_small by (unfold INT_MAX in *; lia).
    apply (wp_eq _ _ _ _ _ Hok). apply wp_puts_list; [|by intros w' Hw'].
    apply Forall_rev. eapply Forall_impl; [exact Hd|]. cbn. lia.
  - intros p s2 Hp. eapply wp_atoi; [exact Hp|by apply Forall_rev|lia|rewrite length_rev; lia|done].
Qed.

End numbers.

(** A kernel that only collects what is written. *)
Module UlibDemo.

Definition sys : Sys := {|
  World := list Z;
  kcall := fun c w => match c with CWrite _ bs => (Z.of_nat (length bs), [], w ++ bs) | _ => (-1, [], w) end;
|}.

Lemma sink : @Sink sys 1 (fun w => w).
Proof. split. intros bs w. by eexists _, _, _. Qed.

Lemma printint_atoi_witness :
  exists ds, ds <> [] /\ wp (@printint sys 1 1729 10 true) (fun _ s' => @u_world sys s' = ds) (@mkU sys ∅ []).
Proof.
  destruct (@printint_atoi sys 1 (fun w => w) sink 1729 (@mkU sys ∅ [])) as (ds & Hne & Hp & _); [unfold INT_MAX; lia|].
  exists ds. split; [exact Hne|]. eapply wp_mono; [exact Hp|]. intros a s' [Hs _]. exact Hs.
Defined.

End UlibDemo.
