(* ===== verification/Grep.v ===== *)
(** * Grep: [user/grep.c]

    The matcher works on C strings it only reads; a pointer into one is the
    rest of the string, without the terminating zero. *)

From stdpp Require Import base list gmap strings.
From Stdlib Require Import ZArith Lia.
From S2P Require Import Prelude CMem User Ulib UlibSpec.

(** ** The program *)

(** [matchstar(c, re, text)], where [here] is [matchhere(re, _)]. *)
Fixpoint matchstar (here : list Z -> bool) (c : Z) (text : list Z) : bool :=
  here text ||
  match text with
  | [] => false
  | x :: text' => if (x =? c) || (c =? 46) then matchstar here c text' else false
  end.

Fixpoint matchhere (re text : list Z) : bool :=
  match re with
  | [] => true
  | c :: re1 =>
      (* the cases after the test for a star *)
      let plain :=
        if (c =? 36) && bool_decide (re1 = []) then bool_decide (text = [])
        else match text with
             | [] => false
             | x :: text' => if (c =? 46) || (c =? x) then matchhere re1 text' else false
             end in
      match re1 with
      | [] => plain
      | d :: re2 => if d =? 42 then matchstar (matchhere re2) c text else plain
      end
  end.

(** The loop of [match] over the suffixes of the text. *)
Fixpoint matchany (re text : list Z) : bool :=
  matchhere re text || match text with [] => false | _ :: text' => matchany re text' end.

Definition match_ (re text : list Z) : bool :=
  match re with
  | c :: re' => if c =? 94 then matchhere re' text else matchany re text
  | [] => matchany re text
  end.

Section grep.
Context `{Sys}.

(** The address of the static buffer of 1024 bytes. *)
Variable buf : Z.

(** [match(pattern, p)] on the strings in memory. *)
Definition match_at (pattern p : Z) : M U bool :=
  re ← getstr pattern;
  text ← getstr p;
  mret (match_ re text).

(** The loop over the lines in the buffer; the result is [p]. *)
Definition grep_lines (pattern : Z) : M U Z :=
  while (fun p =>
    q ← strchr p 10;
    if q =? 0 then mret (inr p) else
    st8 q 0;;
    b ← match_at pattern p;
    when b (st8 q 10;; write 1 p (q + 1 - p);; mret tt);;
    mret (inl (q + 1))) buf.

Definition grep (pattern fd : Z) : M U unit :=
  while (fun m =>
    n ← read fd (buf + m) (1024 - m - 1);
    if negb (0 <? n) then mret (inr tt) else
    let m := m + n in
    st8 (buf + m) 0;;
    p ← grep_lines pattern;
    if 0 <? m then
      let m := m - (p - buf) in
      memmove buf p m;;
      mret (inl m)
    else mret (inl m)) 0.

Definition main (argv : list Z) : M U unit :=
  match argv with
  | [] | [_] => fprintf 2 ("usage: grep pattern [file ...]" +:+ newline) [];; exit 1
  | [_; pattern] => grep pattern 0;; exit 0
  | _ :: pattern :: files =>
      for_each files (fun f =>
        path ← getstr f;
        fd ← open path 0;
        if fd <? 0 then printf ("grep: cannot open %s" +:+ newline) [f];; exit 1
        else grep pattern fd;; close fd;; mret tt);;
      exit 0
  end.

End grep.

(** ** What patterns mean

    A pattern is an optional [^], a sequence of characters and starred
    characters, and an optional [$]; a [.] stands for any character. *)

Inductive item := One (c : Z) | Star (c : Z).

(** Does character [x] fit [c]? *)
Definition fits (c x : Z) : Prop := c = 46 \/ c = x.

(** The strings an item, and a sequence of items, describe. *)
Inductive item_lang : item -> list Z -> Prop :=
| lang_one c x : fits c x -> item_lang (One c) [x]
| lang_star c l : Forall (fits c) l -> item_lang (Star c) l.

Inductive lang : list item -> list Z -> Prop :=
| lang_nil : lang [] []
| lang_cons i its l1 l2 : item_lang i l1 -> lang its l2 -> lang (i :: its) (l1 ++ l2).

(** The items of a pattern without its [^], and whether it ends in [$]. *)
Fixpoint items (re : list Z) : list item * bool :=
  match re with
  | [] => ([], false)
  | c :: re1 =>
      match re1 with
      | [] => if c =? 36 then ([], true) else ([One c], false)
      | d :: re2 =>
          if d =? 42 then let '(its, e) := items re2 in (Star c :: its, e)
          else let '(its, e) := items re1 in (One c :: its, e)
      end
  end.

(** The text starts with a string of the pattern, and ends with it if the
    pattern ends in [$]. *)
Definition prefix_match (re text : list Z) : Prop :=
  exists l rest, text = l ++ rest /\ lang (items re).1 l /\ ((items re).2 = true -> rest = []).

(** The meaning of a whole pattern. *)
Definition re_match (re text : list Z) : Prop :=
  match re with
  | 94 :: re' => prefix_match re' text
  | _ => exists pre text', text = pre ++ text' /\ prefix_match re text'
  end.

(** ** The matcher decides it *)

(** Patterns by the first item. *)
Lemma prefix_match_star c re text :
  prefix_match (c :: 42 :: re) text <-> exists l text', text = l ++ text' /\ Forall (fits c) l /\ prefix_match re text'.
Proof.
  unfold prefix_match. cbn. destruct (items re) as [its e]. cbn. split.
  - intros (l & rest & -> & Hl & He). inversion Hl as [|? ? l1 l2 H1 H2]; subst. inversion H1; subst.
    exists l1, (l2 ++ rest). rewrite <- app_assoc. split; [done|]. split; [done|]. by exists l2, rest.
  - intros (l & ? & -> & Hf & l2 & rest & -> & Hl & He). exists (l ++ l2), rest. rewrite app_assoc. split; [done|].
    split; [by repeat constructor|done].
Qed.

Lemma prefix_match_one c re text :
  (c <> 36 \/ re <> []) -> hd 0 re <> 42 ->
  prefix_match (c :: re) text <-> exists x text', text = x :: text' /\ fits c x /\ prefix_match re text'.
Proof.
  intros Hd Hs. unfold prefix_match.
  assert (items (c :: re) = (One c :: (items re).1, (items re).2)) as ->.
  { cbn. destruct re as [|d re2]; [destruct (Z.eqb_spec c 36); [naive_solver|done]|]. cbn in Hs.
    destruct (Z.eqb_spec d 42); [done|]. by destruct (items _) as [its e]. }
  cbn. split.
  - intros (l & rest & -> & Hl & He). inversion Hl as [|? ? l1 l2 H1 H2]; subst. inversion H1; subst.
    eexists _, (l2 ++ rest). split; [done|]. split; [done|]. by exists l2, rest.
  - intros (x & ? & -> & Hf & l & rest & -> & Hl & He). exists ([x] ++ l), rest. split; [done|]. split; [|done].
    constructor; [by constructor|done].
Qed.

Lemma fits_bool c x : (c =? 46) || (c =? x) = true <-> fits c x.
Proof. unfold fits. rewrite orb_true_iff, !Z.eqb_eq. done. Qed.

Lemma matchstar_iff here (P : list Z -> Prop) c text :
  (forall t, here t = true <-> P t) ->
  matchstar here c text = true <-> exists l text', text = l ++ text' /\ Forall (fits c) l /\ P text'.
Proof.
  intros Hh. induction text as [|x text IH]; cbn; rewrite orb_true_iff, Hh.
  - split; [intros [HP|]; [|done]; by exists [], []|]. intros (l & t & E & _ & HP). left.
    symmetry in E. by apply app_eq_nil in E as [_ ->].
  - rewrite (orb_comm (x =? c)), (Z.eqb_sym x c). destruct ((c =? 46) || (c =? x)) eqn:Ef.
    + rewrite IH. apply fits_bool in Ef. split.
      * intros [HP|(l & t & -> & Hl & HP)]; [by exists [], (x :: text)|]. exists (x :: l), t. split; [done|]. split; [by constructor|done].
      * intros ([|y l] & t & E & Hl & HP); [left; by rewrite E|]. injection E as -> ->. right. exists l, t. by inversion Hl.
    + split; [intros [HP|]; [|done]; by exists [], (x :: text)|].
      intros ([|y l] & t & E & Hl & HP); [left; by rewrite E|]. injection E as -> ->. inversion Hl as [|? ? Hf _]; subst.
      apply fits_bool in Hf. congruence.
Qed.

Lemma plain_iff c re text (IH : forall t, matchhere re t = true <-> prefix_match re t) :
  hd 0 re <> 42 ->
  (if (c =? 36) && bool_decide (re = []) then bool_decide (text = [])
   else match text with [] => false | x :: text' => if (c =? 46) || (c =? x) then matchhere re text' else false end) = true
  <-> prefix_match (c :: re) text.
Proof.
  intros Hs. destruct ((c =? 36) && bool_decide (re = [])) eqn:Ed.
  - apply andb_true_iff in Ed as [->%Z.eqb_eq ->%bool_decide_eq_true]. rewrite bool_decide_eq_true. unfold prefix_match. cbn. split.
    + intros ->. exists [], []. repeat split; constructor.
    + intros (l & rest & -> & Hl & He). inversion Hl; subst. by apply He.
  - rewrite prefix_match_one; [|apply andb_false_iff in Ed as [E%Z.eqb_neq|E%bool_decide_eq_false]; tauto|done].
    destruct text as [|x text]; [split; [done|by intros (? & ? & ? & _)]|].
    destruct ((c =? 46) || (c =? x)) eqn:Ef.
    + rewrite IH. split; [intros HP; exists x, text; split; [done|]; by rewrite <- fits_bool|].
      intros (y & t & E & _ & HP). by injection E as -> ->.
    + split; [done|]. intros (y & t & E & Hf & _). injection E as -> ->. apply fits_bool in Hf. congruence.
Qed.

Lemma matchhere_iff re text : matchhere re text = true <-> prefix_match re text.
Proof.
  assert (forall n re, (length re <= n)%nat -> forall text, matchhere re text = true <-> prefix_match re text) as Hgen.
  { induction n as [|n IH]; intros [|c re1] Hn t; try (cbn in Hn; lia).
    1, 2: (split; [|done]; intros _; exists [], t; repeat split; [constructor|done]).
    cbn in Hn. destruct re1 as [|d re2].
    - apply (plain_iff c []); [apply IH; cbn; lia|done].
    - cbn [matchhere]. destruct (Z.eqb_spec d 42) as [->|Hd].
      + rewrite prefix_match_star. apply matchstar_iff. apply IH. cbn in Hn. lia.
      + apply (plain_iff c (d :: re2)); [apply IH; lia|done]. }
  by apply (Hgen (length re)).
Qed.

Lemma matchany_iff re text : matchany re text = true <-> exists pre text', text = pre ++ text' /\ prefix_match re text'.
Proof.
  induction text as [|x text IH]; cbn; rewrite orb_true_iff, matchhere_iff.
  - split; [intros [HP|]; [by exists [], []|done]|]. intros (l & t & E & HP). left. symmetry in E. by apply app_eq_nil in E as [_ ->].
  - rewrite IH. split.
    + intros [HP|(l & t & -> & HP)]; [by exists [], (x :: text)|by exists (x :: l), t].
    + intros ([|y l] & t & E & HP); [left; by rewrite E|]. injection E as -> ->. right. by exists l, t.
Qed.

(** C20: [match] decides the meaning of patterns: it returns 1 exactly when
    some part of the text (at its start if the pattern begins with [^], up
    to its end if it ends in [$]) is a string of the pattern, where a
    character stands for itself, a dot for any character and a star for any
    number of repetitions of the character before it. *)
Theorem match_correct re text : match_ re text = true <-> re_match re text.
Proof.
  unfold match_, re_match. destruct re as [|c re]; [apply matchany_iff|].
  destruct (Z.eqb_spec c 94) as [->|Hc]; [apply matchhere_iff|].
  assert (match c with 94 => prefix_match re text | _ => exists pre text', text = pre ++ text' /\ prefix_match (c :: re) text' end
    = exists pre text', text = pre ++ text' /\ prefix_match (c :: re) text') as ->; [|apply matchany_iff].
  destruct c as [|p|p]; try done. do 7 (destruct p as [p|p|]; try done).
Qed.

(** ** Filtering a stream *)

(** The lines of [l] that end in a newline, without it, and what is left. *)
Fixpoint lines (l : list Z) : list (list Z) * list Z :=
  match l with
  | [] => ([], [])
  | c :: l' =>
      let '(ls, r) := lines l' in
      if c =? 10 then ([] :: ls, r)
      else match ls with [] => ([], c :: r) | l1 :: ls' => ((c :: l1) :: ls', r) end
  end.

(** The lines that match, newlines included. *)
Definition selected (re : list Z) (ls : list (list Z)) : list Z :=
  concat ((fun l => l ++ [10]) <$> filter (fun l => match_ re l = true) ls).

Lemma lines_none l : 10 ∉ l -> lines l = ([], l).
Proof.
  induction l as [|c l IH]; intros Hn; [done|]. cbn. rewrite IH by set_solver. destruct (Z.eqb_spec c 10); [set_solver|done].
Qed.

Lemma lines_cons a b : 10 ∉ a -> lines (a ++ 10 :: b) = (a :: (lines b).1, (lines b).2).
Proof.
  induction a as [|c a IH]; intros Hn; cbn; [by destruct (lines b)|].
  rewrite IH by set_solver. destruct (Z.eqb_spec c 10); [set_solver|done].
Qed.

Lemma first_newline l : 10 ∈ l -> exists a b, l = a ++ 10 :: b /\ 10 ∉ a.
Proof. intros (a & b & -> & Ha)%list_elem_of_split_l. by exists a, b. Qed.

Lemma lines_app x y :
  lines (x ++ y) = ((lines x).1 ++ (lines ((lines x).2 ++ y)).1, (lines ((lines x).2 ++ y)).2).
Proof.
  assert (forall n x, (length x <= n)%nat -> lines (x ++ y) = ((lines x).1 ++ (lines ((lines x).2 ++ y)).1, (lines ((lines x).2 ++ y)).2)) as Hgen.
  { induction n as [|n IH]; intros z Hz.
    - destruct z; [|cbn in Hz; lia]. cbn. by destruct (lines y).
    - destruct (decide (10 ∈ z)) as [Hin|Hout].
      + apply first_newline in Hin as (a & b & -> & Ha). rewrite length_app in Hz. cbn in Hz.
        rewrite <- app_assoc. cbn. rewrite !lines_cons by done. cbn. by rewrite (IH b) by lia.
      + rewrite (lines_none z) by done. cbn. by destruct (lines (z ++ y)). }
  by apply (Hgen (length x)).
Qed.

Lemma lines_rest l : 10 ∉ (lines l).2.
Proof.
  assert (forall n l, (length l <= n)%nat -> 10 ∉ (lines l).2) as Hgen.
  { induction n as [|n IH]; intros z Hz.
    - destruct z; [set_solver|cbn in Hz; lia].
    - destruct (decide (10 ∈ z)) as [Hin|Hout]; [|by rewrite lines_none].
      apply first_newline in Hin as (a & b & -> & Ha). rewrite lines_cons by done. cbn.
      apply IH. rewrite length_app in Hz. cbn in Hz. lia. }
  by apply (Hgen (length l)).
Qed.

Lemma selected_app re l1 l2 : selected re (l1 ++ l2) = selected re l1 ++ selected re l2.
Proof. unfold selected. by rewrite filter_app, fmap_app, concat_app. Qed.

Lemma selected_one re l : selected re [l] = if match_ re l then l ++ [10] else [].
Proof.
  unfold selected. rewrite filter_cons, filter_nil. destruct (match_ re l) eqn:E; [rewrite decide_True by done|rewrite decide_False by done]; cbn; [apply app_nil_r|done].
Qed.

(** What [grep] relies on: [read] delivers the input [inp] piece by piece,
    each piece as long as the kernel likes, the empty one only at the end;
    [write] to descriptor 1 appends to [out]. *)
Class Stream `{Sys} (fd : Z) (inp out : World -> list Z) : Prop := {
  st_read n w : 0 <= n -> exists bs w',
    kcall (CRead fd n) w = (Z.of_nat (length bs), [bs], w') /\ Z.of_nat (length bs) <= n /\
    inp w = bs ++ inp w' /\ out w' = out w /\ (bs = [] -> n = 0 \/ inp w = []);
  st_write bs w : exists r w',
    kcall (CWrite 1 bs) w = (Z.of_nat (length bs), r, w') /\ inp w' = inp w /\ out w' = out w ++ bs;
}.

Section filter.
Context `{Sys} (buf fd : Z) (inp out : World -> list Z) `{!Stream fd inp out} (pattern : Z) (re : list Z).
Hypothesis Hbuf : 0 < buf.
Hypothesis Hre : Z.of_nat (length re) < 2 ^ 31.
Hypothesis Hapart : pattern + Z.of_nat (length re) < buf \/ buf + 1024 <= pattern.

Lemma str_outside m m' p l :
  str_at m p l -> (p + Z.of_nat (length l) < buf \/ buf + 1024 <= p) ->
  (forall x, x < buf \/ buf + 1024 <= x -> rd8 m' x = rd8 m x) -> str_at m' p l.
Proof.
  intros [Hh Hz] Hp Hx. split; [|done]. eapply holds_ext; [|exact Hh]. rewrite length_app. cbn. intros x Hr. apply Hx. lia.
Qed.

(** The memory outside the buffer is that of [m0]. *)
Definition outside (m0 m : mem) : Prop := forall x, x < buf \/ buf + 1024 <= x -> rd8 m x = rd8 m0 x.

Lemma wp_write1 p bs (Q : Z -> U -> Prop) s :
  holds (u_mem s) p bs ->
  (forall w', inp w' = inp (u_world s) -> out w' = out (u_world s) ++ bs -> Q (Z.of_nat (length bs)) (s <| u_world := w' |>)) ->
  wp (write 1 p (Z.of_nat (length bs))) Q s.
Proof.
  intros Hh HQ. unfold write, call0. wp_steps. rewrite Nat2Z.id, holds_rdbytes by done. apply wp_trap.
  destruct (st_write bs (u_world s)) as (r & w' & -> & Hi & Ho). wp_steps. by apply HQ.
Qed.

Lemma holds_snoc0 m p l : holds m p l -> rd8 m (p + Z.of_nat (length l)) = 0 -> holds m p (l ++ [0]).
Proof. intros H1 H2. apply holds_app. split; [done|]. intros [|i] c Hc; [|done]. injection Hc as <-. by rewrite Z.add_0_r. Qed.

Lemma wp_grep_lines m0 t o s (Q : Z -> U -> Prop) :
  str_at (u_mem s) buf t -> Z.of_nat (length t) < 1024 -> Forall (fun c => 0 < c < 256) t ->
  outside m0 (u_mem s) -> str_at m0 pattern re -> out (u_world s) = o ->
  (forall p s', inp (u_world s') = inp (u_world s) -> out (u_world s') = o ++ selected re (lines t).1 ->
     outside m0 (u_mem s') -> holds (u_mem s') p (lines t).2 ->
     buf <= p -> p + Z.of_nat (length (lines t).2) = buf + Z.of_nat (length t) -> Q p s') ->
  wp (grep_lines buf pattern) Q s.
Proof.
  intros Ht Hlen Hnz Hout Hpat Ho HQ. unfold grep_lines.
  apply (wp_while_idx (fun k p s' => exists t', k = length t' /\ p = buf + Z.of_nat (length t - length t') /\ (length t' <= length t)%nat /\
    str_at (u_mem s') p t' /\ Forall (fun c => 0 < c < 256) t' /\ outside m0 (u_mem s') /\ (lines t').2 = (lines t).2 /\
    inp (u_world s') = inp (u_world s) /\
    exists ls, (lines t).1 = ls ++ (lines t').1 /\ out (u_world s') = o ++ selected re ls)) with (k := length t).
  2: { exists t. rewrite Nat.sub_diag, Z.add_0_r. do 8 (split; [done|]). exists []. split; [done|]. by rewrite app_nil_r. }
  2: { apply lt_fuel. lia. }
  intros k p s1 (t' & -> & -> & Hle & Hs1 & Hnz1 & Hout1 & Hrest & Hinp1 & ls & Hls & Ho1). set (p := buf + Z.of_nat (length t - length t')) in *.
  destruct (decide (10 ∈ t')) as [Hin|Hno].
  - apply first_newline in Hin as (a & b & -> & Ha). pose proof (length_app a (10 :: b)) as Hlab. cbn [length] in Hlab. rewrite Hlab in Hle. rewrite lines_cons in * by done. cbn in Hrest, Hls.
    apply wp_bind. eapply wp_strchr_some; [exact Hs1|done|lia|]. set (q := p + Z.of_nat (length a)).
    assert (buf <= p /\ q + 1 + Z.of_nat (length b) = buf + Z.of_nat (length t)) as [Hp Hq].
    { unfold q, p. lia. }
    destruct (Z.eqb_spec q 0); [lia|]. destruct Hs1 as [Hh1 Hz1]. rewrite <- app_assoc in Hh1. cbn in Hh1.
    apply holds_app in Hh1 as [Hha Hhb]. apply (holds_app _ _ [10]) in Hhb as [H10 Hhb]. change (Z.of_nat (length [10])) with 1 in Hhb. fold q in Hhb, H10.
    apply Forall_app in Hz1 as [Hza Hzb]. apply Forall_cons in Hzb as [_ Hzb]. apply Forall_app in Hnz1 as [Hnza Hnzb]. apply Forall_cons in Hnzb as [_ Hnzb].
    wp_steps. set (s2 := s1 <| u_mem ::= fun m => wr8 m q 0 |>).
    assert (forall x, x <> q -> rd8 (u_mem s2) x = rd8 (u_mem s1) x) as Hm2.
    { intros x Hx. change (u_mem s2) with (wr8 (u_mem s1) q 0). rewrite rd8_wr8. by destruct (Z.eqb_spec x q). }
    assert (rd8 (u_mem s2) q = 0) as Hq2 by (change (u_mem s2) with (wr8 (u_mem s1) q 0); by rewrite rd8_wr8, Z.eqb_refl).
    assert (outside m0 (u_mem s2)) as Hout2 by (intros x Hx; rewrite Hm2 by lia; by apply Hout1).
    unfold match_at. apply wp_bind. eapply wp_getstr; [eapply (str_outside m0); [exact Hpat|done|exact Hout2]|done|].
    apply wp_bind. eapply (wp_getstr p a); [|lia|].
    { split; [|done]. apply holds_snoc0; [|exact Hq2]. eapply holds_ext; [|exact Hha]. intros x Hx. apply Hm2. unfold q. lia. }
    apply wp_ret. assert (forall s', (forall x, x <> q -> rd8 (u_mem s') x = rd8 (u_mem s1) x) -> inp (u_world s') = inp (u_world s) ->
      out (u_world s') = o ++ selected re (ls ++ [a]) ->
      exists k', (k' < length (a ++ 10%Z :: b))%nat /\ exists t', k' = length t' /\ q + 1 = buf + Z.of_nat (length t - length t') /\ (length t' <= length t)%nat /\
        str_at (u_mem s') (q + 1) t' /\ Forall (fun c => 0 < c < 256) t' /\ outside m0 (u_mem s') /\ (lines t').2 = (lines t).2 /\
        inp (u_world s') = inp (u_world s) /\ exists ls, (lines t).1 = ls ++ (lines t').1 /\ out (u_world s') = o ++ selected re ls) as Hnext.
    { intros s' Hm' Hi' Ho'. exists (length b). split; [rewrite length_app; cbn; lia|]. exists b. split; [done|]. split; [lia|]. split; [lia|].
      split; [|split; [done|split; [intros x Hx; rewrite Hm' by lia; by apply Hout1|]]].
      - split; [|done]. eapply holds_ext; [|exact Hhb]. intros x Hx. apply Hm'. lia.
      - split; [done|]. split; [done|]. exists (ls ++ [a]). split; [|done]. by rewrite <- app_assoc. }
    wp_steps. destruct (match_ re a) eqn:Em.
    + wp_steps. replace (q + 1 - p) with (Z.of_nat (length (a ++ [10]))) by (rewrite length_app; cbn; unfold q; lia).
      apply wp_write1.
      * apply holds_app. fold q. split.
        -- eapply holds_ext; [|exact Hha]. intros x Hx. rsimpl. rewrite rd8_wr8. destruct (Z.eqb_spec x q); [unfold q in *; lia|]. by apply Hm2.
        -- intros [|i] c Hc; [|done]. injection Hc as <-. rsimpl. by rewrite Z.add_0_r, rd8_wr8, Z.eqb_refl.
      * intros w' Hi Ho'. wp_steps. apply Hnext; rsimpl.
        -- intros x Hx. rewrite rd8_wr8. destruct (Z.eqb_spec x q); [done|]. by apply Hm2.
        -- by rewrite Hi.
        -- rewrite Ho'. unfold s2. rsimpl. rewrite Ho1, selected_app, selected_one, Em. by rewrite <- app_assoc.
    + wp_steps. apply Hnext; [done|done|]. unfold s2. rsimpl. by rewrite Ho1, selected_app, selected_one, Em, app_nil_r.
  - apply wp_bind. eapply wp_strchr_none; [exact Hs1|done|lia|]. cbn. apply wp_ret. rewrite (lines_none t') in * by done. cbn in Hrest, Hls.
    rewrite app_nil_r in Hls. apply HQ; [done|by rewrite Ho1, Hls|done| |unfold p; lia|rewrite <- Hrest; unfold p; lia].
    rewrite <- Hrest. destruct Hs1 as [Hh _]. by apply holds_app in Hh as [Hh _].
Qed.

(** The buffer between two reads: [c] has been consumed, its incomplete last
    line is at the start of the buffer. *)
Record between (m0 : mem) (w0 : World) (m : Z) (c : list Z) (s : U) : Prop := {
  bw_inp : inp w0 = c ++ inp (u_world s);
  bw_m : m = Z.of_nat (length (lines c).2);
  bw_fit : Z.of_nat (length (lines c).2) < 1024;
  bw_buf : holds (u_mem s) buf (lines c).2;
  bw_out : outside m0 (u_mem s);
  bw_done : out (u_world s) = out w0 ++ selected re (lines c).1;
}.

Lemma lines_bytes (P : Z -> Prop) l : Forall P l -> Forall P (lines l).2.
Proof.
  assert (forall n l, (length l <= n)%nat -> Forall P l -> Forall P (lines l).2) as Hgen; [|by apply (Hgen (length l))].
  induction n as [|n IH]; intros z Hz HP.
  - destruct z; [constructor|cbn in Hz; lia].
  - destruct (decide (10 ∈ z)) as [Hin|Hout]; [|by rewrite lines_none].
    apply first_newline in Hin as (a & b & -> & Ha). rewrite lines_cons by done. cbn.
    apply Forall_app in HP as [_ HP]. apply Forall_cons in HP as [_ HP]. apply IH; [|done]. rewrite length_app in Hz. cbn in Hz. lia.
Qed.

(** Nothing is left to do when the buffer is full or the input at its end. *)
Lemma between_end m0 w0 m c s :
  between m0 w0 m c s -> Forall (fun l => Z.of_nat (length l) <= 1022) (lines (inp w0)).1 ->
  1023 - m = 0 \/ inp (u_world s) = [] -> out (u_world s) = out w0 ++ selected re (lines (inp w0)).1.
Proof.
  intros [B1 B2 B3 B4 B5 B6] Hshort Hend. rewrite B6. f_equal. f_equal. rewrite B1 in *. rewrite lines_app in *. cbn in *.
  destruct Hend as [Hfull|Hnil].
  - destruct (decide (10 ∈ inp (u_world s))) as [Hin|Hno].
    + apply first_newline in Hin as (a & b & Eab & Ha). rewrite Eab, app_assoc, lines_cons in Hshort.
      * cbn in Hshort. apply Forall_app in Hshort as [_ Hs]. apply Forall_cons in Hs as [Hs _]. rewrite length_app in Hs. lia.
      * intros [Hin|Hin]%elem_of_app; [by apply lines_rest in Hin|done].
    + rewrite (lines_none (_ ++ _)); [cbn; by rewrite app_nil_r|]. intros [Hin|Hin]%elem_of_app; [by apply lines_rest in Hin|done].
  - rewrite Hnil, app_nil_r, (lines_none (lines c).2); [cbn; by rewrite app_nil_r|apply lines_rest].
Qed.

Lemma wp_grep_step m0 w0 m c s (Q : Z + unit -> U -> Prop) :
  str_at m0 pattern re -> between m0 w0 m c s -> Forall (fun x => 0 < x < 256) (inp w0) ->
  Forall (fun l => Z.of_nat (length l) <= 1022) (lines (inp w0)).1 ->
  (forall s', out (u_world s') = out w0 ++ selected re (lines (inp w0)).1 -> Q (inr tt) s') ->
  (forall m' c' s', between m0 w0 m' c' s' -> (length (inp (u_world s')) < length (inp (u_world s)))%nat -> Q (inl m') s') ->
  wp (n ← read fd (buf + m) (1024 - m - 1);
      if negb (0 <? n) then mret (inr tt) else
      let m := m + n in
      st8 (buf + m) 0;;
      p ← grep_lines buf pattern;
      if 0 <? m then
        let m := m - (p - buf) in
        memmove buf p m;;
        mret (inl m)
      else mret (inl m)) Q s.
Proof.
  intros Hpat Hbw Hbytes Hshort Hdone Hmore. pose proof Hbw as [B1 B2 B3 B4 B5 B6].
  unfold read, call1. wp_steps. apply wp_trap.
  destruct (st_read (1024 - m - 1) (u_world s)) as (bs & w' & -> & Hlen & Hinp & Hout & Hnil); [lia|]. wp_steps.
  destruct (Z.eqb_spec (buf + m) 0); [lia|]. cbn [negb hd]. wp_steps.
  destruct (Z.ltb_spec 0 (Z.of_nat (length bs))) as [Hpos|Hz]; cbn [negb].
  2: { wp_steps. apply Hdone. rsimpl. rewrite Hout. eapply between_end; [exact Hbw|done|].
       destruct bs; [|cbn in Hz; lia]. destruct (Hnil eq_refl); [left; lia|by right]. }
  wp_steps. rewrite B1, Hinp in Hbytes. apply Forall_app in Hbytes as [Hbc Hb]. apply Forall_app in Hb as [Hbs _].
  set (t := (lines c).2 ++ bs). set (m1 := wr8 (wrbytes (u_mem s) (buf + m) bs) (buf + (m + Z.of_nat (length bs))) 0).
  assert (Z.of_nat (length t) = m + Z.of_nat (length bs)) as Ht by (unfold t; rewrite length_app; lia).
  assert (forall x, x < buf + m \/ buf + m + Z.of_nat (length bs) < x -> rd8 m1 x = rd8 (u_mem s) x) as Hm1.
  { intros x Hx. unfold m1. rewrite rd8_wr8. destruct (Z.eqb_spec x (buf + (m + Z.of_nat (length bs)))); [lia|]. apply rd8_wrbytes_out. lia. }
  eapply (wp_grep_lines m0 t (out w0 ++ selected re (lines c).1)); rsimpl; fold m1.
  - split.
    + apply holds_snoc0; [|unfold m1; rewrite rd8_wr8, Ht, Z.eqb_refl; done]. apply holds_app. rewrite <- B2. split.
      * eapply holds_ext; [|exact B4]. intros x Hx. apply Hm1. lia.
      * eapply holds_ext; [|apply (holds_wrbytes (u_mem s)); eapply Forall_impl; [exact Hbs|]; cbn; lia].
        intros x Hx. unfold m1. rewrite rd8_wr8. destruct (Z.eqb_spec x (buf + (m + Z.of_nat (length bs)))); [lia|]. done.
    + apply Forall_app. split; [|eapply Forall_impl; [exact Hbs|]; cbn; lia]. apply lines_bytes. eapply Forall_impl; [exact Hbc|]. cbn. lia.
  - lia.
  - apply Forall_app. split; [by apply lines_bytes|done].
  - intros x Hx. rewrite Hm1 by lia. by apply B5.
  - done.
  - by rewrite Hout.
  - intros p s' Hi Ho Hmem Hrest Hp Hpe. destruct (Z.ltb_spec 0 (m + Z.of_nat (length bs))); [|lia].
    pose proof (lines_app c bs) as Hlines. fold t in Hlines.
    assert (m + Z.of_nat (length bs) - (p - buf) = Z.of_nat (length (lines t).2)) as -> by lia.
    apply wp_bind, wp_memmove_left; [lia|lia|]. intros m' Hm'. wp_steps. apply (Hmore _ (c ++ bs)).
    + split; rsimpl.
      * by rewrite <- app_assoc, Hi, <- Hinp.
      * by rewrite Hlines.
      * rewrite Hlines. cbn. lia.
      * rewrite Hlines. cbn. intros i x Hx. pose proof (lookup_lt_Some _ _ _ Hx). rewrite Hm'.
        destruct (Z.leb_spec buf (buf + Z.of_nat i)), (Z.ltb_spec (buf + Z.of_nat i) (buf + Z.of_nat (length (lines t).2))); try lia. cbn.
        replace (p + (buf + Z.of_nat i - buf)) with (p + Z.of_nat i) by lia. by apply Hrest.
      * intros x Hx. rewrite Hm'. destruct (Z.leb_spec buf x), (Z.ltb_spec x (buf + Z.of_nat (length (lines t).2))); try lia; by apply Hmem.
      * rewrite Ho, Hlines. cbn [fst]. by rewrite selected_app, app_assoc.
    + rsimpl. rewrite Hi, Hinp, length_app. lia.
Qed.


End filter.

(** ** Example

    A file read five bytes at a time, and the pattern [^a.*c]. *)

Module GrepDemo.

Definition step (c : call) (w : list Z * list Z) : Z * list (list Z) * (list Z * list Z) :=
  match c with
  | CRead _ n => let bs := take (Z.to_nat (Z.min n 5)) w.1 in (Z.of_nat (length bs), [bs], (drop (Z.to_nat (Z.min n 5)) w.1, w.2))
  | CWrite _ bs => (Z.of_nat (length bs), [], (w.1, w.2 ++ bs))
  | _ => (-1, [], w)
  end.

Definition sys : Sys := {| World := list Z * list Z; kcall := step |}.

Lemma stream : @Stream sys 3 fst snd.
Proof.
  split.
  - intros n [i o] Hn. exists (take (Z.to_nat (Z.min n 5)) i), (drop (Z.to_nat (Z.min n 5)) i, o). cbn. split; [done|].
    rewrite length_take, take_drop. split; [lia|]. split; [done|]. split; [done|].
    intros Hnil. apply (f_equal length) in Hnil. rewrite length_take in Hnil. cbn in Hnil.
    destruct (decide (n = 0)); [by left|]. right. destruct i; [done|]. cbn in Hnil. lia.
  - intros bs [i o]. by exists [], (i, o ++ bs).
Qed.

Definition input : list Z := lit "abcd" ++ [10] ++ lit "xabc" ++ [10] ++ lit "ac" ++ [10] ++ lit "abc".

Definition start : @U sys := @mkU sys (wrbytes ∅ 64 (lit "^a.*c")) (input, []).

Lemma start_pattern : str_at (@u_mem sys start) 64 (lit "^a.*c").
Proof.
  split; [|by apply (bool_decide_eq_true_1 _)].
  intros i c Hi. do 6 (destruct i as [|i]; [by injection Hi as <-|]). done.
Qed.


End GrepDemo.
