(* ===== verification/Umalloc.v ===== *)
(** * Umalloc: the memory allocator of user programs, [user/umalloc.c] *)

From stdpp Require Import base list gmap strings.
From Stdlib Require Import ZArith Lia.
From S2P Require Import Prelude CMem User.

(** [sizeof(Header)]: the pointer is at offset 0 and the size, in units of
    headers, at offset 8. *)
Definition HEADER : Z := 16.

Section umalloc.
Context `{Sys}.

(** The addresses of the static variables [base] and [freep]. *)
Variables (base freep : Z).

Definition get_ptr (p : Z) : M U Z := gets (fun s => load64 (u_mem s) p).
Definition set_ptr (p v : Z) : M U unit := modify (fun s => s <| u_mem ::= fun m => store64 m p v |>).
Definition get_size (p : Z) : M U Z := gets (fun s => load32 (u_mem s) (p + 8)).
Definition set_size (p v : Z) : M U unit := modify (fun s => s <| u_mem ::= fun m => store32 m (p + 8) v |>).
Definition get_freep : M U Z := get_ptr freep.
Definition set_freep (v : Z) : M U unit := set_ptr freep v.

(** The loop of [free] that looks for the place of [bp] in the list. *)
Definition free_place (bp : Z) : M U Z :=
  p ← get_freep;
  while (fun p =>
    next ← get_ptr p;
    if (p <? bp) && (bp <? next) then mret (inr p)
    else if (next <=? p) && ((p <? bp) || (bp <? next)) then mret (inr p)
    else mret (inl next)) p.

(** Join the block with its upper neighbour, or link it before. *)
Definition join_upper (p bp : Z) : M U unit :=
  next ← get_ptr p;
  bsize ← get_size bp;
  if bp + bsize * HEADER =? next then
    nsize ← get_size next;
    set_size bp (u32 (bsize + nsize));;
    next ← get_ptr p;
    nnext ← get_ptr next;
    set_ptr bp nnext
  else set_ptr bp next.

(** Join the block with its lower neighbour [p], or link it behind. *)
Definition join_lower (p bp : Z) : M U unit :=
  psize ← get_size p;
  if p + psize * HEADER =? bp then
    bsize ← get_size bp;
    set_size p (u32 (psize + bsize));;
    bnext ← get_ptr bp;
    set_ptr p bnext
  else set_ptr p bp.

Definition free (ap : Z) : M U unit :=
  let bp := ap - HEADER in
  p ← free_place bp;
  join_upper p bp;;
  join_lower p bp;;
  set_freep p.

(** [sbrk] takes an [int]. *)
Definition morecore (nu : Z) : M U Z :=
  let nu := if nu <? 4096 then 4096 else nu in
  p ← sbrk (i32 (nu * HEADER));
  if p =? -1 then mret 0 else
  set_size p nu;;
  free (p + HEADER);;
  get_freep.

(** The block [p] behind [prevp] is large enough: unlink it, or cut the
    request off its end. *)
Definition malloc_take (nunits prevp p : Z) : M U Z :=
  size ← get_size p;
  p ← (if size =? nunits then
         next ← get_ptr p;
         set_ptr prevp next;;
         mret p
       else
         set_size p (u32 (size - nunits));;
         size ← get_size p;
         let p := p + size * HEADER in
         set_size p nunits;;
         mret p);
  set_freep prevp;;
  mret (p + HEADER).

(** One iteration of the search. *)
Definition malloc_step (nunits : Z) : Z * Z -> M U (Z * Z + Z) := fun '(prevp, p) =>
  size ← get_size p;
  if nunits <=? size then r ← malloc_take nunits prevp p; mret (inr r) else
  fp ← get_freep;
  if p =? fp then
    p ← morecore nunits;
    if p =? 0 then mret (inr 0) else
    next ← get_ptr p;
    mret (inl (p, next))
  else
  next ← get_ptr p;
  mret (inl (p, next)).

Definition malloc (nbytes : Z) : M U Z :=
  let nunits := u32 ((nbytes + HEADER - 1) / HEADER + 1) in
  prevp ← get_freep;
  prevp ← (if prevp =? 0 then
             set_freep base;;
             set_ptr base base;;
             set_size base 0;;
             mret base
           else mret prevp);
  p ← get_ptr prevp;
  while (malloc_step nunits) (prevp, p).

End umalloc.

#[export] Hint Unfold get_ptr set_ptr get_size set_size get_freep set_freep : xv6_op.
