(* ===== verification/UmallocSpec.v ===== *)
(** * UmallocSpec: the blocks of [malloc] never overlap

    The free list of [user/umalloc.c] as a ring of headers in the memory of
    the program, what [free] and [malloc] do to it, and the contract of the
    allocator towards its clients. *)

From stdpp Require Import base list gmap strings.
From Stdlib Require Import ZArith Lia Sorted.
From S2P Require Import Prelude CMem User Umalloc.

#[local] Set Warnings "-clear-no-such-hyp".

(** ** Memory *)

Lemma rd8_store32_out m a v x : x < a \/ a + 4 <= x -> rd8 (store32 m a v) x = rd8 m x.
Proof. intros. by apply rd8_wrle_out. Qed.

Lemma load32_store32_eq m a v : 0 <= v < 2 ^ 32 -> load32 (store32 m a v) a = v.
Proof. intros. unfold load32, store32. rewrite rdle_wrle. by apply Z.mod_small. Qed.

Lemma load32_ext m m' a :
  (forall x, a <= x < a + 4 -> rd8 m x = rd8 m' x) -> load32 m a = load32 m' a.
Proof. intros. by apply rdle_ext. Qed.

Lemma load32_store32_ne m a b v : a + 4 <= b \/ b + 4 <= a -> load32 (store32 m a v) b = load32 m b.
Proof. intros. apply load32_ext. intros. apply rd8_store32_out. lia. Qed.

Lemma load32_store64_ne m a b v : a + 8 <= b \/ b + 4 <= a -> load32 (store64 m a v) b = load32 m b.
Proof. intros. apply load32_ext. intros. apply rd8_store64_out. lia. Qed.

Lemma load64_store32_ne m a b v : a + 4 <= b \/ b + 8 <= a -> load64 (store32 m a v) b = load64 m b.
Proof. intros. apply load64_ext. intros. apply rd8_store32_out. lia. Qed.

Lemma load32_range m a : 0 <= load32 m a < 2 ^ 32.
Proof. apply (rdle_range m a 4). Qed.

(** Reads after writes elsewhere. *)
Ltac mem_ne :=
  repeat first
    [ rewrite rd8_store64_out by lia | rewrite rd8_store32_out by lia
    | rewrite load64_store64_ne by lia | rewrite load64_store32_ne by lia
    | rewrite load32_store64_ne by lia | rewrite load32_store32_ne by lia
    | rewrite load64_store64_eq by lia | rewrite load32_store32_eq by lia ].

(** ** Blocks *)

(** A block: the address of its header and its size in headers. *)
Abbreviation blk := (Z * Z)%type.

(** The first address after a block; the header is always there. *)
Definition fin (b : blk) : Z := b.1 + 16 * Z.max 1 b.2.
Definition below (x y : blk) : Prop := fin x <= y.1.
Definition apart (x y : blk) : Prop := fin x <= y.1 \/ fin y <= x.1.

Lemma StronglySorted_mid {A} (R : A -> A -> Prop) l1 x l2 :
  StronglySorted R (l1 ++ x :: l2) <->
  StronglySorted R (l1 ++ l2) /\ Forall (fun y => R y x) l1 /\ Forall (R x) l2.
Proof.
  induction l1 as [|y l1 IH]; cbn [app].
  - split; [intros H; inversion H; by subst|intros (H & _ & H')]. by constructor.
  - split.
    + intros Hs. inversion Hs as [|? ? Hs' Hy]; subst. apply IH in Hs' as (H1 & H2 & H3).
      rewrite Forall_app, Forall_cons in Hy. destruct Hy as (Hy1 & Hy2 & Hy3).
      split_and!; [|by constructor|done]. constructor; [done|]. by apply Forall_app.
    + intros (Hs & H2 & H3). inversion Hs as [|? ? Hs' Hy]; subst. apply Forall_app in Hy as [Hy1 Hy2].
      apply Forall_cons in H2 as [H2 H2']. constructor; [by apply IH|]. rewrite Forall_app, Forall_cons. done.
Qed.

Section heap.
Context `{Sys} (base freep lo : Z).
Hypothesis (Hbase : 0 < base /\ base + 16 <= lo) (Hfreep : 0 <= freep /\ freep + 8 <= lo)
  (Hstatic : freep + 8 <= base \/ base + 16 <= freep).

(** A block of the heap below [top]. *)
Definition good (top : Z) (b : blk) : Prop := lo <= b.1 /\ 1 <= b.2 /\ b.1 + 16 * b.2 <= top.

(** The free list [l], in the order of addresses, and the allocated blocks
    [al] share nothing. *)
Record shape (top : Z) (l : list blk) (al : gset blk) : Prop := {
  sh_top : lo <= top <= 2 ^ 36 - 16;
  sh_head : hd_error l = Some (base, 0);
  sh_free : Forall (fun b => b = (base, 0) \/ good top b) l;
  sh_sorted : StronglySorted below l;
  sh_live : forall x, x ∈ al -> good top x;
  sh_apart : forall x y, x ∈ al -> y ∈ l -> apart x y;
  sh_distinct : forall x y, x ∈ al -> y ∈ al -> x <> y -> apart x y;
}.

Lemma good_fin top b : good top b -> fin b = b.1 + 16 * b.2 /\ 16 <= 16 * b.2.
Proof. unfold good, fin. lia. Qed.

(** Four changes of the lists. *)
Lemma shape_insert top l1 x l2 al b :
  shape top (l1 ++ x :: l2) al -> b ∈ al -> x.1 < b.1 -> Forall (fun y => b.1 < y.1) l2 ->
  shape top (l1 ++ x :: b :: l2) (al ∖ {[b]}).
Proof.
  intros Hs Hb Hx Hl2. destruct Hs as [Ht Hh Hf Hst Hl Ha Hd]. pose proof (Hl b Hb) as Hg. pose proof (good_fin _ _ Hg) as Hgf.
  assert (forall y : blk, 0 < fin y - y.1) as Hpos by (intros y; unfold fin; lia).
  assert (forall y, y ∈ l1 ++ x :: l2 -> y.1 < b.1 -> below y b) as Hlow.
  { intros y Hy Hlt. destruct (Ha b y Hb Hy) as [H1|H1]; [|exact H1]. unfold below. lia. }
  split; try done.
  - destruct l1; done.
  - rewrite Forall_app, !Forall_cons in *. destruct Hf as (? & ? & ?). split_and!; auto.
  - replace (l1 ++ x :: b :: l2) with ((l1 ++ [x]) ++ b :: l2) by (by rewrite <- app_assoc).
    apply StronglySorted_mid. rewrite <- app_assoc. cbn [app]. split; [done|]. split.
    + apply Forall_forall. intros y Hy. apply Hlow; [set_solver|]. apply elem_of_app in Hy as [Hy|Hy].
      * apply StronglySorted_mid in Hst as (_ & Hst & _). rewrite Forall_forall in Hst. specialize (Hst y Hy).
        unfold below in Hst. specialize (Hpos y). lia.
      * apply list_elem_of_singleton in Hy as ->. done.
    + rewrite Forall_forall in *. intros y Hy. specialize (Hl2 y Hy). assert (y ∈ l1 ++ x :: l2) as Hy' by set_solver.
      destruct (Ha b y Hb Hy') as [H1|H1]; [exact H1|]. specialize (Hpos y). lia.
  - set_solver.
  - intros u v Hu Hv. assert (v ∈ l1 ++ x :: l2 \/ v = b) as [Hv' | ->] by set_solver; [set_solver|]. apply Hd; set_solver.
  - set_solver.
Qed.

Lemma shape_merge top l1 x y l2 al :
  shape top (l1 ++ x :: y :: l2) al -> x.1 + 16 * x.2 = y.1 ->
  shape top (l1 ++ (x.1, x.2 + y.2) :: l2) al.
Proof.
  intros Hs Hxy. destruct Hs as [Ht Hh Hf Hst Hl Ha Hd]. pose proof Hf as Hf'.
  rewrite Forall_app, !Forall_cons in Hf'. destruct Hf' as (Hf1 & Hfx & Hfy & Hf2).
  pose proof Hst as Hst'. apply StronglySorted_mid in Hst' as (Hst1 & H1x & Hx2).
  apply StronglySorted_mid in Hst1 as (Hst2 & H1y & Hy2). apply Forall_cons in Hx2 as [Hxy' Hx2].
  assert (good top x) as Hgx.
  { destruct Hfx as [-> |]; [|done]. exfalso. unfold below, fin in Hxy'. cbn in *. lia. }
  assert (good top y) as Hgy.
  { destruct Hfy as [-> |]; [|done]. exfalso. unfold good, below, fin in *. cbn in *. lia. }
  pose proof (good_fin _ _ Hgx) as Hfx'. pose proof (good_fin _ _ Hgy) as Hfy'.
  assert (good top (x.1, x.2 + y.2)) as Hgz by (unfold good in *; cbn; lia).
  pose proof (good_fin _ _ Hgz) as Hfz. cbn [fst snd] in Hfz.
  split; try done.
  - destruct l1; [|done]. cbn in *. injection Hh as Hh. rewrite Hh in *. unfold good in Hgx. cbn in Hgx. lia.
  - rewrite Forall_app, Forall_cons. split_and!; auto.
  - apply StronglySorted_mid. split; [done|]. split; [exact H1x|].
    eapply Forall_impl; [exact Hy2|]. intros u Hu. unfold below in *. lia.
  - intros u v Hu Hv. assert (v = (x.1, x.2 + y.2) \/ v ∈ l1 ++ x :: y :: l2) as [-> | Hv'] by set_solver; [|by apply Ha].
    pose proof (good_fin _ _ (Hl u Hu)) as Hu'. assert (apart u x) as A1 by (apply Ha; [done|set_solver]).
    assert (apart u y) as A2 by (apply Ha; [done|set_solver]). unfold apart in *. cbn [fst]. lia.
Qed.

Lemma shape_split top l1 p sz n l2 al :
  shape top (l1 ++ (p, sz) :: l2) al -> 1 <= n < sz ->
  shape top (l1 ++ (p, sz - n) :: (p + 16 * (sz - n), n) :: l2) al.
Proof.
  intros Hs Hn. destruct Hs as [Ht Hh Hf Hst Hl Ha Hd].
  rewrite Forall_app, !Forall_cons in Hf. destruct Hf as (Hf1 & Hfx & Hf2).
  apply StronglySorted_mid in Hst as (Hst1 & H1x & Hx2).
  assert (good top (p, sz)) as Hg by (destruct Hfx as [[= -> ->]|]; [lia|done]).
  unfold good in Hg. cbn in Hg.
  assert (fin (p, sz) = p + 16 * sz) as F by (unfold fin; cbn; lia).
  assert (fin (p, sz - n) = p + 16 * (sz - n)) as F1 by (unfold fin; cbn; lia).
  assert (fin (p + 16 * (sz - n), n) = p + 16 * sz) as F2 by (unfold fin; cbn; lia).
  assert (Forall (fun y => below y (p, sz - n)) l1) as H1 by (eapply Forall_impl; [exact H1x|]; done).
  assert (Forall (below (p, sz - n)) l2) as H2.
  { eapply Forall_impl; [exact Hx2|]. unfold below. rewrite F, F1. lia. }
  split; try done.
  - destruct l1; [|done]. cbn in *. injection Hh as <- <-. lia.
  - rewrite Forall_app, !Forall_cons. unfold good. cbn. split_and!; [done|right; lia..|done].
  - apply StronglySorted_mid. rewrite Forall_cons. split_and!; [|done|unfold below; rewrite F1; cbn; lia|done].
    apply StronglySorted_mid. split; [done|]. split.
    + eapply Forall_impl; [exact H1x|]. unfold below. cbn. lia.
    + eapply Forall_impl; [exact Hx2|]. unfold below. rewrite F, F2. lia.
  - intros u v Hu Hv.
    assert (v = (p, sz - n) \/ v = (p + 16 * (sz - n), n) \/ v ∈ l1 ++ (p, sz) :: l2) as [-> |[-> |Hv']] by set_solver; [| |by apply Ha];
      (assert (apart u (p, sz)) as A by (apply Ha; [done|set_solver])); unfold apart in *; rewrite ?F1, ?F2; rewrite F in A; cbn [fst] in *; lia.
Qed.

Lemma shape_take top l1 b l2 al :
  shape top (l1 ++ b :: l2) al -> 1 <= b.2 -> shape top (l1 ++ l2) ({[b]} ∪ al).
Proof.
  intros Hs Hb. destruct Hs as [Ht Hh Hf Hst Hl Ha Hd].
  rewrite Forall_app, !Forall_cons in Hf. destruct Hf as (Hf1 & Hfx & Hf2).
  apply StronglySorted_mid in Hst as (Hst1 & H1x & Hx2).
  assert (good top b) as Hg by (destruct Hfx as [-> |]; [cbn in *; lia|done]).
  assert (forall y, y ∈ al -> apart y b) as Hab by (intros y Hy; apply Ha; set_solver).
  assert (forall x y, apart x y -> apart y x) as Hsym by (unfold apart; tauto).
  split; try done.
  - destruct l1; [|done]. cbn in *. injection Hh as ->. cbn in Hb. lia.
  - by apply Forall_app.
  - set_solver.
  - intros x y Hx Hy. apply elem_of_union in Hx as [Hx|Hx]; [|apply Ha; set_solver].
    apply elem_of_singleton in Hx as ->. rewrite Forall_forall in H1x, Hx2.
    apply elem_of_app in Hy as [Hy|Hy]; [right; by apply H1x|left; by apply Hx2].
  - intros x y Hx Hy Hne. apply elem_of_union in Hx as [Hx|Hx], Hy as [Hy|Hy];
      rewrite ?elem_of_singleton in *; subst; auto; done.
Qed.

(** ** The ring in memory *)

Definition first (z : Z) (l : list blk) : Z := hd z l.*1.

(** The headers of [l] are in memory, linked in this order and then to [z]. *)
Fixpoint chain (m : mem) (l : list blk) (z : Z) : Prop :=
  match l with
  | [] => True
  | b :: l' => load32 m (b.1 + 8) = b.2 /\ load64 m b.1 = first z l' /\ chain m l' z
  end.

(** No header of [l] meets the [n] bytes at [a]. *)
Definition clear (l : list blk) (a n : Z) : Prop := Forall (fun y => y.1 + 16 <= a \/ a + n <= y.1) l.

Lemma chain_app m l1 l2 z : chain m (l1 ++ l2) z <-> chain m l1 (first z l2) /\ chain m l2 z.
Proof.
  induction l1 as [|b l1 IH]; cbn [app chain]; [tauto|]. rewrite IH.
  assert (first z (l1 ++ l2) = first (first z l2) l1) as -> by (by destruct l1). tauto.
Qed.

Lemma ring_ext m m' l z :
  (forall b x, b ∈ l -> b.1 <= x < b.1 + 16 -> rd8 m' x = rd8 m x) -> chain m l z -> chain m' l z.
Proof.
  induction l as [|b l IH]; intros Hx; cbn [chain]; [done|]. intros (H1 & H2 & H3).
  split_and!.
  - rewrite <- H1. apply load32_ext. intros x Hx'. apply (Hx b); [set_solver|lia].
  - rewrite <- H2. apply load64_ext. intros x Hx'. apply (Hx b); [set_solver|lia].
  - apply IH; [|done]. intros b' x Hb'. apply Hx. set_solver.
Qed.

Lemma chain_store64 m l z a v : clear l a 8 -> chain m l z -> chain (store64 m a v) l z.
Proof.
  intros Hc. apply ring_ext. intros b x Hb Hx. unfold clear in Hc. rewrite Forall_forall in Hc. specialize (Hc b Hb).
  apply rd8_store64_out. lia.
Qed.

Lemma chain_store32 m l z a v : clear l a 16 -> chain m l z -> chain (store32 m (a + 8) v) l z.
Proof.
  intros Hc. apply ring_ext. intros b x Hb Hx. unfold clear in Hc. rewrite Forall_forall in Hc. specialize (Hc b Hb).
  apply rd8_store32_out. lia.
Qed.

Lemma clear_less l a n k : k <= n -> clear l a n -> clear l a k.
Proof. intros ? Hc. eapply Forall_impl; [exact Hc|]. cbn. lia. Qed.

(** Only the headers of [l] and [freep] differ. *)
Definition upd (l : list blk) (m m' : mem) : Prop :=
  forall x, (x < freep \/ freep + 8 <= x) -> (forall y, y ∈ l -> x < y.1 \/ y.1 + 16 <= x) -> rd8 m' x = rd8 m x.

Lemma upd_trans l m m' m'' : upd l m m' -> upd l m' m'' -> upd l m m''.
Proof. intros H1 H2 x Hf Hx. by rewrite H2, H1. Qed.

Section merge.
Context (l1 l2 : list blk) (p psz bp bsz : Z) (top : Z) (al : gset blk).
Hypothesis Hshape : shape top (l1 ++ (p, psz) :: (bp, bsz) :: l2) al.

Lemma merge_facts :
  p + 16 <= bp /\ 1 <= bsz < 2 ^ 32 /\ 0 < p < 2 ^ 36 /\ 0 <= psz < 2 ^ 32 /\ bp + 16 * bsz <= 2 ^ 36 /\
  psz + bsz < 2 ^ 32 /\ clear l1 p 16 /\ clear l1 bp 16 /\ clear l2 p 16 /\ clear l2 bp 16.
Proof.
  destruct Hshape as [Ht Hh Hf Hst _ _ _].
  rewrite Forall_app, !Forall_cons in Hf. destruct Hf as (Hf1 & Hfx & Hfy & Hf2).
  apply StronglySorted_mid in Hst as (Hst & H1p & Hp2). apply StronglySorted_mid in Hst as (_ & H1b & Hb2).
  apply Forall_cons in Hp2 as [Hpb Hp2].
  assert (forall y : blk, y.1 + 16 <= fin y) as Hpos by (intros y; unfold fin; lia).
  unfold below in *. cbn [fst] in *. unfold good in *. cbn [fst snd] in *.
  assert (bp <> base) as Hne.
  { intros ->. pose proof (Hpos (p, psz)). cbn [fst] in *. destruct Hfx as [[= -> ->]|]; lia. }
  assert (p + 16 <= bp) by (pose proof (Hpos (p, psz)); cbn [fst] in *; lia).
  assert (lo <= bp /\ 1 <= bsz /\ bp + 16 * bsz <= top) by (destruct Hfy as [[= -> ->]|]; [done|lia]).
  split_and!; try lia.
  - destruct Hfx as [[= -> ->]|]; lia.
  - destruct Hfx as [[= -> ->]|]; lia.
  - destruct Hfx as [[= -> ->]|]; lia.
  - unfold fin in Hpb. cbn [fst snd] in Hpb. destruct Hfx as [[= -> ->]|]; lia.
  - eapply Forall_impl; [exact H1p|]. intros y. cbv beta. specialize (Hpos y). lia.
  - eapply Forall_impl; [exact H1b|]. intros y. cbv beta. specialize (Hpos y). lia.
  - eapply Forall_impl; [exact Hp2|]. intros y. cbv beta. pose proof (Hpos (p, psz)). cbn [fst] in *. lia.
  - eapply Forall_impl; [exact Hb2|]. intros y. cbv beta. pose proof (Hpos (bp, bsz)). cbn [fst] in *. lia.
Qed.

Lemma wp_join_lower z (Q : unit -> U -> Prop) s :
  chain (u_mem s) l1 p -> load32 (u_mem s) (p + 8) = psz -> chain (u_mem s) ((bp, bsz) :: l2) z ->
  0 <= first z l2 < 2 ^ 64 ->
  (forall s' l',
     chain (u_mem s') (l1 ++ l') z -> shape top (l1 ++ l') al -> p ∈ l'.*1 -> (exists y, y ∈ l' /\ bsz <= y.2) ->
     upd (l1 ++ (p, psz) :: (bp, bsz) :: l2) (u_mem s) (u_mem s') -> u_world s' = u_world s -> Q tt s') ->
  wp (join_lower p bp) Q s.
Proof.
  intros H1 Hp (Hb1 & Hb2 & H2) Hz HQ. pose proof merge_facts as (Hpb & Hbs & Hpr & Hps & Hbt & Hov & C1p & C1b & C2p & C2b).
  cbn [fst snd] in *. unfold join_lower. wp_steps. rewrite Hp. case_if; zb; unfold HEADER in E; wp_steps; rsimpl.
  - rewrite Hb1, load64_store32_ne, Hb2 by lia. rewrite u32_small by lia.
    apply (HQ _ ((p, psz + bsz) :: l2)).
    + rsimpl. rewrite chain_app. cbn [chain fst snd first]. split_and!.
      * apply chain_store64; [by eapply clear_less; [|exact C1p]|]. by apply chain_store32.
      * by mem_ne.
      * by mem_ne.
      * apply chain_store64; [by eapply clear_less; [|exact C2p]|]. by apply chain_store32.
    + apply (shape_merge _ _ (p, psz) (bp, bsz)); [exact Hshape|cbn; lia].
    + set_solver.
    + exists (p, psz + bsz). split; [set_solver|cbn; lia].
    + rsimpl. intros x _ Hx. pose proof (Hx (p, psz)) as Hx'. cbn [fst] in Hx'. assert (x < p \/ p + 16 <= x) by set_solver. by mem_ne.
    + by rsimpl.
  - apply (HQ _ ((p, psz) :: (bp, bsz) :: l2)).
    + rsimpl. rewrite chain_app. cbn [chain fst snd first]. split_and!.
      * apply chain_store64; [by eapply clear_less; [|exact C1p]|]. done.
      * by mem_ne.
      * by mem_ne.
      * by mem_ne.
      * by mem_ne.
      * apply chain_store64; [by eapply clear_less; [|exact C2p]|]. done.
    + exact Hshape.
    + set_solver.
    + exists (bp, bsz). split; [set_solver|cbn; lia].
    + rsimpl. intros x _ Hx. pose proof (Hx (p, psz)) as Hx'. cbn [fst] in Hx'. assert (x < p \/ p + 16 <= x) by set_solver. by mem_ne.
    + by rsimpl.
Qed.

Lemma wp_join_upper (Q : unit -> U -> Prop) s :
  chain (u_mem s) l1 p -> load32 (u_mem s) (p + 8) = psz -> load64 (u_mem s) p = first base l2 ->
  load32 (u_mem s) (bp + 8) = bsz -> chain (u_mem s) l2 base ->
  (forall s' bsz' l2',
     chain (u_mem s') l1 p -> load32 (u_mem s') (p + 8) = psz -> chain (u_mem s') ((bp, bsz') :: l2') base ->
     shape top (l1 ++ (p, psz) :: (bp, bsz') :: l2') al -> bsz <= bsz' ->
     upd (l1 ++ (p, psz) :: (bp, bsz) :: l2) (u_mem s) (u_mem s') -> u_world s' = u_world s -> Q tt s') ->
  wp (join_upper p bp) Q s.
Proof.
  intros H1 Hp Hn Hb H2 HQ. pose proof merge_facts as (Hpb & Hbs & Hpr & Hps & Hbt & Hov & C1p & C1b & C2p & C2b).
  pose proof (load64_range (u_mem s) p) as Hrange.
  assert (forall x, (forall y, y ∈ l1 ++ (p, psz) :: (bp, bsz) :: l2 -> x < y.1 \/ y.1 + 16 <= x) -> x < bp \/ bp + 16 <= x) as Hout.
  { intros x Hx. apply (Hx (bp, bsz)). set_solver. }
  unfold join_upper. wp_steps. rewrite Hb. case_if; zb; unfold HEADER in E; wp_steps; rsimpl.
  - destruct l2 as [|[n nsz] l3] eqn:El2.
    { exfalso. assert (base <= p); [|cbn in Hn; lia]. destruct Hshape as [_ _ Hf _ _ _ _].
      rewrite Forall_app, Forall_cons in Hf. destruct Hf as (_ & [[= -> _]|Hg] & _); [lia|]. unfold good in Hg. cbn in Hg. lia. }
    destruct H2 as (Hn1 & Hn2 & H3). cbn [first fmap list_fmap hd fst snd] in *.
    assert (n = bp + bsz * 16) as En by lia. pose proof (load64_range (u_mem s) n) as Hrange2.
    assert (shape top (l1 ++ (p, psz) :: (bp, bsz + nsz) :: l3) al) as Hsh.
    { pose proof (shape_merge top (l1 ++ [(p, psz)]) (bp, bsz) (n, nsz) l3 al) as Hm.
      rewrite <- !app_assoc in Hm. cbn [app fst snd] in Hm. apply Hm; [exact Hshape|lia]. }
    pose proof (load32_range (u_mem s) (n + 8)) as Hnr.
    assert (0 <= bsz + nsz < 2 ^ 32) as Hsz.
    { destruct Hsh as [Ht _ Hf _ _ _ _]. rewrite Forall_app, !Forall_cons in Hf.
      destruct Hf as (_ & _ & [[= _ ?]|Hg] & _); [lia|]. unfold good in Hg. cbn in Hg. lia. }
    apply Forall_cons in C2p as [_ C2p], C2b as [C2n C2b]. cbn [fst] in *.
    rewrite (load64_store32_ne _ _ p), Hn, load64_store32_ne, Hn2, Hn1, u32_small by lia.
    apply (HQ _ (bsz + nsz) l3); rsimpl.
    + apply chain_store64; [by eapply clear_less; [|exact C1b]|]. by apply chain_store32.
    + by mem_ne.
    + cbn [chain fst snd]. split_and!; [by mem_ne..|].
      apply chain_store64; [by eapply clear_less; [|exact C2b]|]. by apply chain_store32.
    + exact Hsh.
    + lia.
    + intros x _ Hx. pose proof (Hout x Hx). by mem_ne.
    + done.
  - apply (HQ _ bsz l2); rsimpl; rewrite ?Hn.
    + apply chain_store64; [by eapply clear_less; [|exact C1b]|]. done.
    + by mem_ne.
    + cbn [chain fst snd]. split_and!; [by mem_ne..|].
      apply chain_store64; [by eapply clear_less; [|exact C2b]|]. done.
    + exact Hshape.
    + lia.
    + intros x _ Hx. pose proof (Hout x Hx). by mem_ne.
    + done.
Qed.

End merge.

(** ** The heap *)

Context (brk : World -> Z).

(** The bytes of the allocated blocks are the same. *)
Definition keep (al : gset blk) (m m' : mem) : Prop :=
  forall b x, b ∈ al -> b.1 <= x < fin b -> rd8 m' x = rd8 m x.

Record heap (l : list blk) (al : gset blk) (s : U) : Prop := {
  hp_shape : shape (brk (u_world s)) l al;
  hp_chain : chain (u_mem s) l base;
  hp_size : forall b, b ∈ al -> load32 (u_mem s) (b.1 + 8) = b.2;
  hp_freep : load64 (u_mem s) freep ∈ l.*1;
}.

Lemma keep_trans al m m' m'' : keep al m m' -> keep al m' m'' -> keep al m m''.
Proof. intros H1 H2 b x Hb Hx. by rewrite (H2 b x Hb Hx), (H1 b x Hb Hx). Qed.

Lemma keep_size al m m' : keep al m m' ->
  (forall b, b ∈ al -> load32 m (b.1 + 8) = b.2) -> forall b, b ∈ al -> load32 m' (b.1 + 8) = b.2.
Proof. intros Hk Hs b Hb. rewrite <- (Hs b Hb). apply load32_ext. intros x Hx. apply (Hk b); [done|]. unfold fin. lia. Qed.

Lemma upd_keep top l al m m' : shape top l al -> upd l m m' -> keep al m m'.
Proof.
  intros Hs Hu b x Hb Hx. pose proof (sh_live _ _ _ Hs b Hb) as Hg. unfold good in Hg. apply Hu; [lia|].
  intros y Hy. destruct (sh_apart _ _ _ Hs b y Hb Hy) as [H1|H1]; [lia|]. unfold fin in H1. lia.
Qed.

(** [freep] is not part of a header. *)
Lemma shape_clear_freep top l al : shape top l al -> clear l freep 8.
Proof.
  intros Hs. eapply Forall_impl; [exact (sh_free _ _ _ Hs)|]. intros y [-> |Hg]; cbn; [lia|]. unfold good in Hg. lia.
Qed.

Lemma shape_range top l al y : shape top l al -> y ∈ l -> base <= y.1 < 2 ^ 36 /\ 0 <= y.2 < 2 ^ 32.
Proof.
  intros Hs Hy. pose proof (sh_free _ _ _ Hs) as Hf. rewrite Forall_forall in Hf. pose proof (sh_top _ _ _ Hs).
  destruct (Hf y Hy) as [-> |Hg]; cbn; [lia|]. unfold good in Hg. lia.
Qed.

Lemma shape_first top l al z l1 l2 : shape top l al -> l = l1 ++ l2 -> base <= z < 2 ^ 36 -> base <= first z l2 < 2 ^ 36.
Proof.
  intros Hs -> Hz. destruct l2 as [|y l2]; [done|]. cbn. apply (shape_range _ _ _ y) in Hs; [lia|set_solver].
Qed.

(** The ring is short. *)
Lemma sorted_length l a c : StronglySorted below l -> Forall (fun y => a <= y.1 /\ fin y <= c) l -> a <= c -> 16 * Z.of_nat (length l) <= c - a.
Proof.
  revert a. induction l as [|y l IH]; intros a Hs Hf Hac; cbn [length]; [lia|].
  inversion Hs as [|? ? Hs' Hy]; subst. apply Forall_cons in Hf as [Hf Hf'].
  assert (16 * Z.of_nat (length l) <= c - fin y); [|unfold fin in *; lia].
  apply IH; [done| |lia]. apply Forall_forall. intros z Hz. rewrite Forall_forall in Hy, Hf'. split; [by apply Hy|by apply Hf'].
Qed.

Lemma shape_length top l al : shape top l al -> Z.of_nat (length l) < 2 ^ 32.
Proof.
  intros Hs. assert (16 * Z.of_nat (length l) <= 2 ^ 36 - 16 - base); [|lia].
  pose proof (sh_top _ _ _ Hs). apply sorted_length; [exact (sh_sorted _ _ _ Hs)| |lia].
  eapply Forall_impl; [exact (sh_free _ _ _ Hs)|]. intros y [-> |Hg]; unfold fin; cbn; [lia|].
  unfold good in Hg. lia.
Qed.

(** ** [free] *)

Lemma wp_free_place top l al bp (Q : Z -> U -> Prop) s :
  shape top l al -> chain (u_mem s) l base -> load64 (u_mem s) freep ∈ l.*1 -> base < bp -> Forall (fun y => y.1 <> bp) l ->
  (forall l1 p psz l2, l = l1 ++ (p, psz) :: l2 -> p < bp -> Forall (fun y => bp < y.1) l2 -> Q p s) ->
  wp (free_place freep bp) Q s.
Proof.
  intros Hs Hc Hfp Hbp Hne HQ. unfold free_place. wp_steps.
  apply list_elem_of_fmap in Hfp as ([p0 sz0] & -> & (la0 & lb0 & El0)%list_elem_of_split).
  apply (wp_while_idx (fun k p s' => s' = s /\ exists la sz lb, l = la ++ (p, sz) :: lb /\
    k = ((if (p <? bp)%Z then 0 else length l) + length lb)%nat)) with (k := ((if (p0 <? bp)%Z then 0 else length l) + length lb0)%nat).
  - intros k p s' (-> & la & sz & lb & El & ->). wp_steps.
    pose proof (sh_sorted _ _ _ Hs) as Hst. rewrite El in Hst. apply StronglySorted_mid in Hst as (_ & Hla & Hlb).
    assert (load64 (u_mem s) p = first base lb) as ->.
    { rewrite El in Hc. apply chain_app in Hc as [_ Hc]. apply Hc. }
    assert (Forall (fun y => p < y.1) lb) as Hlt.
    { eapply Forall_impl; [exact Hlb|]. intros y. unfold below, fin. cbn. lia. }
    destruct lb as [|[n nsz] lb].
    + cbn [first fmap list_fmap hd]. assert (base <= p) as Hp.
      { apply (shape_range _ _ _ (p, sz)) in Hs; [cbn in Hs; lia|rewrite El; set_solver]. }
      destruct (Z.ltb_spec p bp) as [Hpb|Hpb].
      * replace (bp <? base) with false by (symmetry; apply Z.ltb_ge; lia).
        replace (base <=? p) with true by (symmetry; apply Z.leb_le; lia). wp_steps. by eapply HQ.
      * replace (bp <? base) with false by (symmetry; apply Z.ltb_ge; lia). cbn [orb andb]. rewrite andb_false_r. wp_steps.
        pose proof (sh_head _ _ _ Hs) as Hh. destruct l as [|b0 l']; [done|]. injection Hh as ->.
        exists (length l'). rewrite (proj2 (Z.ltb_lt _ _)) by lia. cbn [length]. split; [lia|]. split; [done|].
        exists [], 0, l'. split; [done|]. done.
    + cbn [first fmap list_fmap hd fst]. apply Forall_cons in Hlt as [Hpn Hlt]. cbn [fst] in Hpn.
      assert (n <> bp) as Hnb by (rewrite El, Forall_app, !Forall_cons in Hne; naive_solver).
      destruct (Z.ltb_spec p bp) as [Hpb|Hpb], (Z.ltb_spec bp n) as [Hbn|Hbn]; try lia; cbn [andb orb].
      * wp_steps. eapply HQ; [exact El|done|]. constructor; [done|].
        rewrite El in Hs. pose proof (sh_sorted _ _ _ Hs) as Hst. apply StronglySorted_mid in Hst as (Hst & _).
        apply StronglySorted_mid in Hst as (_ & _ & Hst). eapply Forall_impl; [exact Hst|]. intros y. unfold below, fin. cbn. lia.
      * rewrite (proj2 (Z.leb_gt _ _)) by lia. wp_steps. exists (length lb). cbn [length]. rewrite (proj2 (Z.ltb_lt _ _)) by lia.
        split; [lia|]. split; [done|]. exists (la ++ [(p, sz)]), nsz, lb. rewrite <- app_assoc. done.
      * rewrite (proj2 (Z.leb_gt _ _)) by lia. wp_steps. exists (length l + length lb)%nat. cbn [length].
        rewrite (proj2 (Z.ltb_ge _ _)) by lia. split; [lia|]. split; [done|]. exists (la ++ [(p, sz)]), nsz, lb. rewrite <- app_assoc. done.
  - split; [done|]. by exists la0, sz0, lb0.
  - pose proof (shape_length _ _ _ Hs). apply lt_fuel. apply (f_equal length) in El0. rewrite length_app in El0. cbn in El0. case_if; lia.
Qed.

Lemma wp_free l al b (Q : unit -> U -> Prop) s :
  heap l al s -> b ∈ al ->
  (forall l' s', heap l' (al ∖ {[b]}) s' -> (exists y, y ∈ l' /\ b.2 <= y.2) -> keep (al ∖ {[b]}) (u_mem s) (u_mem s') ->
     u_world s' = u_world s -> Q tt s') ->
  wp (free freep (b.1 + HEADER)) Q s.
Proof.
  intros [Hs Hc Hsz Hfp] Hb HQ. unfold free. rewrite Z.add_simpl_r. wp_steps.
  pose proof (sh_live _ _ _ Hs b Hb) as Hg. unfold good in Hg.
  assert (Forall (fun y => y.1 <> b.1) l) as Hne.
  { apply Forall_forall. intros y Hy Hyb. destruct (sh_apart _ _ _ Hs b y Hb Hy) as [Hap|Hap]; unfold fin in Hap; lia. }
  eapply wp_free_place; [exact Hs|exact Hc|exact Hfp|lia|exact Hne|].
  intros l1 p psz l2 -> Hpb Hl2. wp_steps.
  pose proof (shape_insert _ _ _ _ _ _ Hs Hb Hpb Hl2) as Hs1. pose proof (Hsz b Hb) as Hbs.
  apply chain_app in Hc as [Hc1 Hc2]. destruct Hc2 as (Hp1 & Hp2 & Hc2). cbn [fst snd first fmap list_fmap hd] in *.
  destruct b as [bp bsz]. cbn [fst snd] in *.
  eapply (wp_join_upper l1 l2 p psz bp bsz); [exact Hs1|done|done|done|done|done|].
  intros s1 bsz' l2' A1 A2 A3 A4 A5 A6 A7. wp_steps.
  eapply wp_join_lower; [exact A4|done|done|exact A3| |].
  { pose proof (shape_first _ _ _ base (l1 ++ [(p, psz); (bp, bsz')]) l2' A4) as Hf. rewrite <- app_assoc in Hf. pose proof (sh_top _ _ _ A4).
    destruct Hf; [done|lia|lia]. }
  intros s2 l3 B1 B2 B3 B4 B5 B6. wp_steps.
  assert (clear (l1 ++ l3) freep 8) as Hcl by (by eapply shape_clear_freep).
  assert (0 <= p < 2 ^ 64) as Hpr.
  { apply (shape_range _ _ _ (p, psz)) in A4; [cbn in A4; lia|set_solver]. }
  assert (keep (al ∖ {[(bp, bsz)]}) (u_mem s) (store64 (u_mem s2) freep p)) as Hk.
  { eapply keep_trans; [eapply upd_keep; [exact Hs1|exact A6]|]. eapply keep_trans; [eapply upd_keep; [exact A4|exact B5]|].
    eapply upd_keep; [exact A4|]. intros x Hx _. by mem_ne. }
  apply (HQ (l1 ++ l3)); rsimpl; [| |exact Hk|by rewrite B6, A7].
  - split; rsimpl.
    + by rewrite B6, A7.
    + by apply chain_store64.
    + eapply keep_size; [exact Hk|]. set_solver.
    + rewrite load64_store64_eq by done. rewrite fmap_app. set_solver.
  - destruct B4 as (y & Hy & Hle). exists y. split; [set_solver|lia].
Qed.

(** ** [malloc] *)

(** [sbrk] gives the memory up to the new break, or nothing.  The memory of
    a process is at most the 128 megabytes of the machine. *)
Class Brk : Prop := {
  brk_sbrk n w : 0 < n -> exists r bs w', kcall (CSbrk n) w = (r, bs, w') /\
    ((r = brk w /\ brk w' = brk w + n /\ brk w' <= 2 ^ 36 - 16) \/ (r = -1 /\ brk w' = brk w));
}.

Lemma shape_grow top l al n :
  shape top l al -> 1 <= n -> top + 16 * n <= 2 ^ 36 - 16 ->
  shape (top + 16 * n) l ({[(top, n)]} ∪ al).
Proof.
  intros Hs Hn Ht'. destruct Hs as [Ht Hh Hf Hst Hl Ha Hd].
  assert (forall b, good top b -> good (top + 16 * n) b /\ fin b <= top) as Hg by (intros b; unfold good, fin; lia).
  assert (forall b, b ∈ al -> fin b <= top) as Hal by (intros b Hb; by apply Hg, Hl).
  assert (forall b, b ∈ l -> fin b <= top) as Hfl.
  { intros b Hb. rewrite Forall_forall in Hf. destruct (Hf b Hb) as [-> |?]; [unfold fin; cbn; lia|by apply Hg]. }
  split; try done.
  - lia.
  - eapply Forall_impl; [exact Hf|]. intros b [-> |?]; [by left|right; by apply Hg].
  - intros b Hb. apply elem_of_union in Hb as [Hb%elem_of_singleton|Hb]; [subst; unfold good; cbn; lia|by apply Hg, Hl].
  - intros x y Hx Hy. apply elem_of_union in Hx as [Hx%elem_of_singleton|Hx]; [|by apply Ha]. subst. right. by apply Hfl.
  - intros x y Hx Hy Hne. apply elem_of_union in Hx as [Hx%elem_of_singleton|Hx], Hy as [Hy%elem_of_singleton|Hy]; subst.
    + done.
    + right. by apply Hal.
    + left. by apply Hal.
    + by apply Hd.
Qed.

Lemma wp_morecore `{!Brk} l al nu (Q : Z -> U -> Prop) s :
  heap l al s -> 1 <= nu -> nu * 16 < 2 ^ 31 ->
  (forall s', heap l al s' -> u_mem s' = u_mem s -> (exists n, (kcall (CSbrk n) (u_world s)).1.1 = -1) -> Q 0 s') ->
  (forall l' s', heap l' al s' -> keep al (u_mem s) (u_mem s') -> (exists y, y ∈ l' /\ nu <= y.2) ->
     Q (load64 (u_mem s') freep) s') ->
  wp (morecore freep nu) Q s.
Proof.
  intros Hh Hnu Hov HQ0 HQ. destruct Hh as [Hs Hc Hsz Hfp]. unfold morecore, sbrk, call0.
  set (n := if nu <? 4096 then 4096 else nu). assert (nu <= n /\ 1 <= n /\ n * 16 < 2 ^ 31) as Hn by (unfold n; case_if; zb; lia).
  clearbody n. wp_steps. apply wp_trap. unfold HEADER at 1. rewrite i32_small by (unfold INT_MIN, INT_MAX; lia).
  destruct (brk_sbrk (n * 16) (u_world s)) as (r & bs & w' & Ek & [(-> & Hw & Hmax)|(-> & Hw)]); [lia|..]; rewrite Ek; wp_steps.
  - pose proof (sh_top _ _ _ Hs) as Htop. rewrite (proj2 (Z.eqb_neq _ _)) by lia. wp_steps.
    set (top := brk (u_world s)) in *.
    assert (shape (brk w') l ({[(top, n)]} ∪ al)) as Hs'.
    { rewrite Hw. replace (n * 16) with (16 * n) by lia. apply shape_grow; [done|lia|lia]. }
    assert (keep al (u_mem s) (store32 (u_mem s) (top + 8) n)) as Hk.
    { intros b x Hb Hx. pose proof (sh_live _ _ _ Hs b Hb) as Hg. unfold good, fin in *. by mem_ne. }
    set (s1 := s <| u_world := w' |> <| u_mem ::= fun m => store32 m (top + 8) n |>).
    assert (heap l ({[(top, n)]} ∪ al) s1) as Hh1.
    { unfold s1. split; rsimpl; [done| | |].
      - eapply ring_ext; [|exact Hc]. intros b x Hb Hx. pose proof (sh_free _ _ _ Hs) as Hf. rewrite Forall_forall in Hf.
        assert (b.1 + 16 <= top) by (destruct (Hf b Hb) as [-> |Hg]; [cbn; lia|unfold good in Hg; lia]). by mem_ne.
      - intros b Hb. apply elem_of_union in Hb as [->%elem_of_singleton|Hb]; [cbn [fst snd]; by mem_ne|by eapply keep_size].
      - by mem_ne. }
    assert (forall y, y ∈ al -> y <> (top, n)) as Hnew.
    { intros y Hy ->. pose proof (sh_live _ _ _ Hs _ Hy) as Hg. unfold good in Hg. cbn in Hg. lia. }
    eapply (wp_free _ _ (top, n)); [exact Hh1|set_solver|]. intros l' s2 Hh2 Hbig Hk2 Hw2. wp_steps.
    assert (({[(top, n)]} ∪ al) ∖ {[(top, n)]} = al) as Eal by set_solver. rewrite Eal in *.
    apply (HQ l'); [done| |destruct Hbig as (y & Hy & Hle); exists y; cbn in Hle; split; [done|lia]].
    eapply keep_trans; [exact Hk|]. unfold s1 in Hk2. rsimpl_in Hk2. exact Hk2.
  - change (-1 =? -1) with true. wp_steps. apply HQ0; [split; rsimpl; [by rewrite Hw|done..]|by rsimpl|].
    exists (n * 16). by rewrite Ek.
Qed.

Lemma shape_not_live top l al y : shape top l al -> y ∈ l -> y ∉ al.
Proof. intros Hs Hy Hal. destruct (sh_apart _ _ _ Hs y y Hal Hy) as [Hap|Hap]; unfold fin in Hap; lia. Qed.

Lemma wp_malloc_take l al la q lb x n (Q : Z -> U -> Prop) s :
  heap l al s -> l = la ++ q :: x :: lb -> 1 <= n <= x.2 ->
  (forall r l' s', heap l' ({[(r - HEADER, n)]} ∪ al) s' -> (r - HEADER, n) ∉ al -> lo <= r - HEADER -> keep al (u_mem s) (u_mem s') -> Q r s') ->
  wp (malloc_take freep n q.1 x.1) Q s.
Proof.
  intros [Hs Hc Hsz Hfp] -> Hn HQ. destruct q as [q qsz], x as [p psz]. cbn [fst snd] in *.
  pose proof (merge_facts _ _ _ _ _ _ _ _ Hs) as (Hqp & Hps & Hqr & Hqs & Hpt & _ & C1q & C1p & C2q & C2p).
  pose proof Hc as Hc'. apply chain_app in Hc' as [Hc1 Hc2]. destruct Hc2 as (Hq1 & Hq2 & Hp1 & Hp2 & Hc2). cbn [fst snd first fmap list_fmap hd] in *.
  assert (0 <= first base lb < 2 ^ 64) as Hz.
  { pose proof (sh_top _ _ _ Hs). destruct (shape_first _ _ _ base (la ++ [(q, qsz); (p, psz)]) lb Hs); [by rewrite <- app_assoc|lia|lia]. }
  assert (lo <= p /\ good (brk (u_world s)) (p, psz)) as [Hlp Hg].
  { pose proof (sh_free _ _ _ Hs) as Hf. rewrite Forall_app, !Forall_cons in Hf. destruct Hf as (_ & _ & [[= -> ->]|Hg] & _); [lia|]. by split; [apply Hg|]. }
  unfold malloc_take. wp_steps. rewrite Hp1. case_if; zb; wp_steps; rsimpl.
  - subst n. rewrite Hp2.
    pose proof (shape_take (brk (u_world s)) (la ++ [(q, qsz)]) (p, psz) lb al) as Ht. rewrite <- !app_assoc in Ht. specialize (Ht Hs). cbn [app snd] in Ht. specialize (Ht ltac:(lia)).
    set (m' := store64 (store64 (u_mem s) q (first base lb)) freep q).
    assert (keep ({[(p, psz)]} ∪ al) (u_mem s) m') as Hk.
    { unfold m'. eapply upd_keep; [exact Ht|]. intros y Hy Hl. assert (y < q \/ q + 16 <= y) by (apply (Hl (q, qsz)); set_solver). by mem_ne. }
    pose proof (shape_clear_freep _ _ _ Hs) as Hcl. unfold clear in Hcl. rewrite Forall_app, !Forall_cons in Hcl. cbn [fst] in Hcl. destruct Hcl as (F1 & Fq & Fp & F2).
    apply (HQ _ (la ++ (q, qsz) :: lb)); rsimpl; rewrite ?Z.add_simpl_r; [|eapply shape_not_live; [exact Hs|set_solver]|lia|intros b y Hb; apply Hk; set_solver].
    split; rsimpl; [done| | |].
    + fold m'. unfold m'. apply chain_app. cbn [chain fst snd first fmap list_fmap hd].
      split_and!; [|by mem_ne..|]; (apply chain_store64; [done|]; apply chain_store64; [by eapply (clear_less _ _ 16)|done]).
    + fold m'. eapply keep_size; [exact Hk|]. intros b [->%elem_of_singleton|Hb]%elem_of_union; [done|by apply Hsz].
    + rewrite load64_store64_eq by lia. rewrite fmap_app. set_solver.
  - rewrite !u32_small by lia. mem_ne. set (p' := p + (psz - n) * HEADER). unfold HEADER in p'.
    pose proof (shape_split (brk (u_world s)) (la ++ [(q, qsz)]) p psz n lb al) as Ht. rewrite <- !app_assoc in Ht. cbn [app] in Ht. specialize (Ht Hs ltac:(lia)).
    replace (p + 16 * (psz - n)) with p' in Ht by (unfold p'; lia).
    pose proof (shape_take (brk (u_world s)) (la ++ [(q, qsz); (p, psz - n)]) (p', n) lb al) as Ht2. rewrite <- !app_assoc in Ht2. cbn [app snd] in Ht2. specialize (Ht2 Ht ltac:(lia)).
    unfold good in Hg. cbn [fst snd] in Hg.
    set (m' := store64 (store32 (store32 (u_mem s) (p + 8) (psz - n)) (p' + 8) n) freep q).
    assert (keep al (u_mem s) m') as Hk.
    { unfold m'. eapply upd_keep; [exact Ht|]. intros y Hy Hl. assert (y < p \/ p + 16 <= y) by (apply (Hl (p, psz - n)); set_solver).
      assert (y < p' \/ p' + 16 <= y) by (apply (Hl (p', n)); set_solver). by mem_ne. }
    pose proof (shape_clear_freep _ _ _ Ht) as Hcl. unfold clear in Hcl. rewrite Forall_app, !Forall_cons in Hcl. cbn [fst] in Hcl. destruct Hcl as (F1 & Fq & Fp & Fp' & F2).
    pose proof (merge_facts (la ++ [(q, qsz)]) lb p (psz - n) p' n) as Hm. rewrite <- !app_assoc in Hm. cbn [app] in Hm.
    specialize (Hm _ _ Ht) as (D1 & _ & _ & _ & _ & _ & Ca & Ca' & Cb & Cb'). apply Forall_app in Ca as [Ca _], Ca' as [Ca' _].
    apply (HQ _ (la ++ (q, qsz) :: (p, psz - n) :: lb)); rsimpl; rewrite ?Z.add_simpl_r; [|eapply shape_not_live; [exact Ht|set_solver]|unfold p'; lia|exact Hk].
    split; rsimpl; [done| | |].
    + fold m'. unfold m'. apply chain_app. cbn [chain fst snd first fmap list_fmap hd].
      split_and!; [|by mem_ne..|]; (apply chain_store64; [done|]; apply chain_store32; [done|]; apply chain_store32; done).
    + intros b [->%elem_of_singleton|Hb]%elem_of_union; [cbn [fst snd]; by mem_ne|]. eapply keep_size; [exact Hk|exact Hsz|exact Hb].
    + rewrite load64_store64_eq by lia. rewrite fmap_app. set_solver.
Qed.

(** Where the search is: [q] was visited last, the blocks [todo] up to the
    one of [freep] are still to be looked at. *)
Record seek (l : list blk) (fp : Z) (prevp p : Z) (todo : list blk) : Prop := {
  sk_pos : exists la q lb dn, l = la ++ q :: lb /\ prevp = q.1 /\ p = first base lb /\ lb ++ la ++ [q] = todo ++ dn;
  sk_last : exists t f, todo = t ++ [f] /\ f.1 = fp /\ Forall (fun y => y.1 <> fp) t;
}.

Lemma seek_start top l al fp : shape top l al -> fp ∈ l.*1 -> exists q la lb, l = la ++ q :: lb /\ fp = q.1 /\
  seek l fp fp (first base lb) (lb ++ la ++ [q]).
Proof.
  intros Hs Hfp. apply list_elem_of_fmap in Hfp as (q & -> & (la & lb & ->)%list_elem_of_split).
  exists q, la, lb. split; [done|]. split; [done|]. split.
  - exists la, q, lb, []. by rewrite app_nil_r.
  - exists (lb ++ la), q. rewrite app_assoc. split; [done|]. split; [done|].
    pose proof (sh_sorted _ _ _ Hs) as Hst. apply StronglySorted_mid in Hst as (_ & H1 & H2).
    apply Forall_app. split; (eapply Forall_impl; [eassumption|]); intros y; unfold below, fin; lia.
Qed.

(** The block looked at, its place behind [prevp], and the next one. *)
Lemma seek_step top l al m fp prevp p todo :
  shape top l al -> chain m l base -> seek l fp prevp p todo ->
  exists x todo', todo = x :: todo' /\ x ∈ l /\ x.1 = p /\ load32 m (p + 8) = x.2 /\
    (1 <= x.2 -> exists la q lb, l = la ++ q :: x :: lb /\ prevp = q.1) /\
    (p <> fp -> seek l fp p (load64 m p) todo') /\ (p = fp -> todo' = []).
Proof.
  intros Hs Hc [(la & q & lb & dn & El & -> & -> & Eo) (t & f & Et & Ef & Ht)].
  assert (exists x todo' lc ld, todo = x :: todo' /\ l = lc ++ x :: ld /\ x.1 = first base lb /\ ld ++ lc ++ [x] = todo' ++ dn ++ [x] /\
    (1 <= x.2 -> exists lc' q', lc = lc' ++ [q'] /\ q.1 = q'.1)) as (x & todo' & lc & ld & -> & El' & Ex & Eo' & Hq).
  { destruct todo as [|x todo']; [by destruct t|]. exists x, todo'. destruct lb as [|x' lb].
    - pose proof (sh_head _ _ _ Hs) as Hh. cbn in Eo. rewrite Eo in El. exists [], (todo' ++ dn). subst l. cbn in Hh. injection Hh as ->.
      split_and!; [done|done|done|by rewrite <- app_assoc|cbn; lia].
    - injection Eo as -> Eo. exists (la ++ [q]), lb. split_and!; [done|by rewrite <- app_assoc|done| |intros _; by exists la, q].
      rewrite !app_assoc. f_equal. rewrite <- app_assoc. exact Eo. }
  rewrite <- Ex. pose proof Hc as Hc'. rewrite El' in Hc'. apply chain_app in Hc' as [_ (Hx1 & Hx2 & _)].
  exists x, todo'. split_and!; try done.
  - rewrite El'. set_solver.
  - intros Hx. destruct (Hq Hx) as (lc' & q' & -> & Eq). exists lc', q', ld. split; [by rewrite El', <- app_assoc|done].
  - intros Hne. split.
    + exists lc, x, ld, (dn ++ [x]). done.
    + destruct t as [|y t]; [injection Et as -> ->; by rewrite Ef in Hne|]. injection Et as -> Et. exists t, f.
      apply Forall_cons in Ht as [_ Ht]. done.
  - intros Heq. destruct t as [|y t]; [by injection Et|]. injection Et as -> _. apply Forall_cons in Ht as [Ht _]. by rewrite Heq in Ht.
Qed.

Lemma seek_length l fp prevp p todo : seek l fp prevp p todo -> (length todo <= length l)%nat.
Proof.
  intros [(la & q & lb & dn & -> & _ & _ & Eo) _]. apply (f_equal length) in Eo. rewrite !length_app in *. cbn in *. lia.
Qed.

Lemma wp_malloc_search `{!Brk} l al n (Q : Z -> U -> Prop) s :
  heap l al s -> 1 <= n -> n * 16 < 2 ^ 31 ->
  (forall s', heap l al s' -> keep al (u_mem s) (u_mem s') -> (exists n, (kcall (CSbrk n) (u_world s)).1.1 = -1) -> Q 0 s') ->
  (forall r l' s', heap l' ({[(r - HEADER, n)]} ∪ al) s' -> (r - HEADER, n) ∉ al -> lo <= r - HEADER -> keep al (u_mem s) (u_mem s') -> Q r s') ->
  wp (while (malloc_step freep n) (load64 (u_mem s) freep, load64 (u_mem s) (load64 (u_mem s) freep))) Q s.
Proof.
  intros Hh Hn Hov HQ0 HQ.
  assert (forall l al s, heap l al s -> exists todo,
    seek l (load64 (u_mem s) freep) (load64 (u_mem s) freep) (load64 (u_mem s) (load64 (u_mem s) freep)) todo /\ l ⊆ todo) as Hstart.
  { intros l0 al0 s0 [Hs Hc _ Hfp]. destruct (seek_start _ _ _ _ Hs Hfp) as (q & la & lb & El & Eq & Hsk).
    exists (lb ++ la ++ [q]). assert (load64 (u_mem s0) (load64 (u_mem s0) freep) = first base lb) as ->.
    { rewrite El in Hc. apply chain_app in Hc as [_ (_ & Hc & _)]. by rewrite Eq. }
    split; [done|]. rewrite El. set_solver. }
  set (K := Z.to_nat (2 ^ 33)).
  destruct (Hstart _ _ _ Hh) as (todo0 & Hsk0 & _).
  apply (wp_while_idx (fun k st s1 => exists l1 todo, heap l1 al s1 /\ keep al (u_mem s) (u_mem s1) /\
    seek l1 (load64 (u_mem s1) freep) st.1 st.2 todo /\
    ((k = length todo /\ exists y, y ∈ todo /\ n <= y.2) \/ (k = (length todo + K)%nat /\ l1 = l /\ s1 = s))))
    with (k := (length todo0 + K)%nat).
  - intros k [prevp p] s1 (l1 & todo & Hh1 & Hk1 & Hsk & Hph). cbn [fst snd] in Hsk. pose proof Hh1 as [Hs1 Hc1 _ Hfp1].
    destruct (seek_step _ _ _ _ _ _ _ _ Hs1 Hc1 Hsk) as (x & todo' & -> & Hx & Exp & Hsz & Htake & Hnext & Hlast).
    unfold malloc_step. wp_steps. rewrite Hsz. case_if; zb.
    { destruct Htake as (la & q & lb & El & ->); [lia|]. rewrite <- Exp. wp_steps. eapply wp_malloc_take; [exact Hh1|exact El|lia|].
      intros r l' s' Hh' Hnew Hr Hk'. wp_steps. eapply HQ; [exact Hh'|done|done|by eapply keep_trans]. }
    wp_steps. case_if; zb; wp_steps.
    + rewrite (Hlast E0) in Hph. destruct Hph as [(_ & y & ->%list_elem_of_singleton & Hy)|(-> & -> & ->)]; [lia|].
      eapply wp_morecore; [exact Hh1|done|done| |].
      * intros s2 Hh2 Hm2 Href. change (0 =? 0) with true. wp_steps. apply HQ0; [done| |done]. rewrite Hm2. by intros b y _ _.
      * intros l2 s2 Hh2 Hk2 (y & Hy & Hyn). pose proof Hh2 as [Hs2 _ _ Hfp2].
        destruct (Hstart _ _ _ Hh2) as (todo2 & Hsk2 & Hsub).
        rewrite (proj2 (Z.eqb_neq _ 0)); last first.
        { apply list_elem_of_fmap in Hfp2 as (z & -> & Hz). apply (shape_range _ _ _ z) in Hs2; [lia|done]. }
        wp_steps. exists (length todo2). split.
        { pose proof (seek_length _ _ _ _ _ Hsk2). pose proof (shape_length _ _ _ Hs2). unfold K. lia. }
        exists l2, todo2. split; [done|]. split; [done|]. split; [exact Hsk2|]. left. split; [done|]. exists y. split; [by apply Hsub|done].
    + destruct Hph as [(-> & y & Hy & Hyn)|(-> & -> & ->)].
      * exists (length todo'). split; [cbn; lia|]. exists l1, todo'. split; [done|]. split; [done|]. split; [by apply Hnext|]. left.
        split; [done|]. exists y. split; [|done]. apply elem_of_cons in Hy as [->|Hy]; [lia|done].
      * exists (length todo' + K)%nat. split; [cbn; lia|]. exists l, todo'. split; [done|]. split; [done|]. split; [by apply Hnext|]. by right.
  - exists l, todo0. split; [done|]. split; [by intros b y _ _|]. split; [exact Hsk0|]. by right.
  - apply lt_fuel. pose proof (seek_length _ _ _ _ _ Hsk0). pose proof (shape_length _ _ _ (hp_shape _ _ _ Hh)). unfold K. lia.
Qed.

Lemma keep_empty m m' : keep ∅ m m'.
Proof. intros b x Hb. by apply not_elem_of_empty in Hb. Qed.

(** ** The contract *)

(** The allocator with the live blocks [al]; [freep] is null before the
    first call. *)
Definition ready (al : gset blk) (s : U) : Prop :=
  (exists l, heap l al s) \/
  (load64 (u_mem s) freep = 0 /\ al = ∅ /\ lo <= brk (u_world s) <= 2 ^ 36 - 16).

(** The block of a pointer that [malloc] returned for [nbytes]. *)
Definition block (r nbytes : Z) : blk := (r - HEADER, (nbytes + 15) / 16 + 1).

Lemma wp_malloc `{!Brk} al nbytes (Q : Z -> U -> Prop) s :
  ready al s -> 0 <= nbytes <= 2 ^ 31 - 32 ->
  (forall s', ready al s' -> keep al (u_mem s) (u_mem s') -> (exists n, (kcall (CSbrk n) (u_world s)).1.1 = -1) -> Q 0 s') ->
  (forall r s', ready ({[block r nbytes]} ∪ al) s' -> block r nbytes ∉ al -> lo <= r - HEADER -> keep al (u_mem s) (u_mem s') -> Q r s') ->
  wp (malloc base freep nbytes) Q s.
Proof.
  intros Hr Hnb HQ0 HQ. unfold malloc. unfold block, HEADER in *.
  replace (nbytes + 16 - 1) with (nbytes + 15) by lia.
  assert (0 <= (nbytes + 15) / 16 < 2 ^ 27 - 1) as Hd by (split; [apply Z.div_pos; lia|apply Z.div_lt_upper_bound; lia]).
  rewrite u32_small by lia. set (n := (nbytes + 15) / 16 + 1) in *. wp_steps.
  destruct Hr as [(l & Hh)|(Hz & -> & Hb)].
  - pose proof Hh as [Hs _ _ Hfp]. rewrite (proj2 (Z.eqb_neq _ 0)); last first.
    { apply list_elem_of_fmap in Hfp as (z & -> & Hz). apply (shape_range _ _ _ z) in Hs; [lia|done]. }
    wp_steps. apply (wp_malloc_search l al); [done|lia|lia| |].
    + intros s' Hh'. apply HQ0. left. by exists l.
    + intros r l' s' Hh'. apply HQ. left. by exists l'.
  - rewrite Hz. change (0 =? 0) with true. wp_steps.
    lazymatch goal with |- wp _ _ ?s' => set (s1 := s') end.
    assert (u_mem s1 = store32 (store64 (store64 (u_mem s) freep base) base base) (base + 8) 0) as Hm1 by (unfold s1; by rsimpl).
    assert (u_world s1 = u_world s) as Hw1 by (unfold s1; by rsimpl).
    assert (load64 (u_mem s1) freep = base) as Hf1 by (rewrite Hm1; by mem_ne).
    assert (heap [(base, 0)] ∅ s1) as Hh.
    { split; rewrite ?Hw1.
      - split; [done|done|by repeat constructor; left|by repeat constructor|set_solver..].
      - cbn [chain fst snd first fmap list_fmap hd]. rewrite Hm1. split_and!; by mem_ne.
      - set_solver.
      - rewrite Hf1. set_solver. }
    assert ((base, load64 (u_mem s1) base) = (load64 (u_mem s1) freep, load64 (u_mem s1) (load64 (u_mem s1) freep))) as -> by (by rewrite Hf1).
    clearbody s1. apply (wp_malloc_search [(base, 0)] ∅); [done|lia|lia| |].
    + intros s' Hh' _ Href. rewrite Hw1 in Href. apply HQ0; [left; by exists [(base, 0)]|apply keep_empty|done].
    + intros r l' s' Hh' Hnew Hr _. apply HQ; [left; by exists l'|done|done|apply keep_empty].
Qed.

Lemma wp_free_ready al b (Q : unit -> U -> Prop) s :
  ready al s -> b ∈ al ->
  (forall s', ready (al ∖ {[b]}) s' -> keep (al ∖ {[b]}) (u_mem s) (u_mem s') -> Q tt s') ->
  wp (free freep (b.1 + HEADER)) Q s.
Proof.
  intros [(l & Hh)|(_ & -> & _)] Hb HQ; [|by apply not_elem_of_empty in Hb].
  eapply wp_free; [exact Hh|done|]. intros l' s' Hh' _ Hk _. apply HQ; [|done]. left. by exists l'.
Qed.

Lemma ready_apart al s x y : ready al s -> x ∈ al -> y ∈ al -> x <> y -> apart x y.
Proof.
  intros [(l & [Hs _ _ _])|(_ & -> & _)] Hx; [by apply (sh_distinct _ _ _ Hs)|by apply not_elem_of_empty in Hx].
Qed.

(** A store to the payload of a block. *)
Lemma ready_store al s b x v :
  ready al s -> b ∈ al -> b.1 + HEADER <= x < fin b -> ready al (s <| u_mem ::= fun m => wr8 m x v |>).
Proof.
  intros [(l & [Hs Hc Hsz Hfp])|(_ & -> & _)] Hb Hx; [|by apply not_elem_of_empty in Hb]. left. exists l.
  pose proof (sh_live _ _ _ Hs b Hb) as Hg. unfold good, HEADER in *.
  assert (forall y, y <> x -> rd8 (wr8 (u_mem s) x v) y = rd8 (u_mem s) y) as Hrd.
  { intros y Hy. rewrite rd8_wr8. by rewrite (proj2 (Z.eqb_neq _ _)). }
  split; rsimpl; [done| | |].
  - eapply ring_ext; [|exact Hc]. intros y z Hy Hz. apply Hrd. destruct (sh_apart _ _ _ Hs b y Hb Hy) as [Hap|Hap]; unfold fin in *; lia.
  - intros y Hy. rewrite <- (Hsz y Hy). apply load32_ext. intros z Hz. apply Hrd. destruct (decide (y = b)) as [-> |Hne]; [lia|].
    destruct (sh_distinct _ _ _ Hs b y Hb Hy) as [Hap|Hap]; [done|unfold fin in *; lia..].
  - rewrite (load64_ext _ (u_mem s)); [done|]. intros z Hz. apply Hrd. lia.
Qed.

(** A program and its heap: the live blocks, the bytes that it stored in
    them, and its state.  It may call [malloc] and [free] in any order, and
    store to the payload of live blocks. *)
Inductive client : gset blk -> gmap Z Z -> U -> Prop :=
| cl_start s :
    load64 (u_mem s) freep = 0 -> lo <= brk (u_world s) <= 2 ^ 36 - 16 -> client ∅ ∅ s
| cl_malloc al sh s nbytes r s' :
    client al sh s -> 0 <= nbytes <= 2 ^ 31 - 32 -> malloc base freep nbytes s = Ok r s' ->
    client (if r =? 0 then al else {[block r nbytes]} ∪ al) sh s'
| cl_free al sh s b s' :
    client al sh s -> b ∈ al -> free freep (b.1 + HEADER) s = Ok tt s' ->
    client (al ∖ {[b]}) (filter (fun '(x, _) => ~ (b.1 <= x < fin b)) sh) s'
| cl_store al sh s b x v :
    client al sh s -> b ∈ al -> b.1 + HEADER <= x < fin b ->
    client al (<[x := u8 v]> sh) (s <| u_mem ::= fun m => wr8 m x v |>).

Definition stored (al : gset blk) (sh : gmap Z Z) (m : mem) : Prop :=
  forall x v, sh !! x = Some v -> rd8 m x = v /\ exists b, b ∈ al /\ b.1 <= x < fin b.

Lemma stored_keep al al' sh m m' : stored al sh m -> al ⊆ al' -> keep al m m' -> stored al' sh m'.
Proof.
  intros Hs Hsub Hk x v Hx. destruct (Hs x v Hx) as (Hrd & b & Hb & Hin). split; [by rewrite (Hk b)|]. exists b. set_solver.
Qed.

Lemma client_ready `{!Brk} al sh s : client al sh s -> ready al s /\ stored al sh (u_mem s).
Proof.
  induction 1 as [s Hz Hb|al sh s nbytes r s' _ [Hr Hst] Hn Heq|al sh s b s' _ [Hr Hst] Hb Heq|al sh s b x v _ [Hr Hst] Hb Hx].
  - split; [by right|]. intros x v Hx. by rewrite lookup_empty in Hx.
  - assert (wp (malloc base freep nbytes) (fun r s' =>
      let al' := if r =? 0 then al else {[block r nbytes]} ∪ al in ready al' s' /\ stored al' sh (u_mem s')) s) as Hwp.
    { eapply wp_malloc; [exact Hr|done| |].
      - intros s1 Hr1 Hk _. split; [done|]. by eapply stored_keep.
      - intros r1 s1 Hr1 _ Hlo Hk. rewrite (proj2 (Z.eqb_neq _ _)) by (unfold HEADER in Hlo; lia). split; [done|].
        eapply stored_keep; [exact Hst| |exact Hk]. set_solver. }
    exact (wp_result _ _ _ _ _ Hwp Heq).
  - assert (wp (free freep (b.1 + HEADER)) (fun _ s' => ready (al ∖ {[b]}) s' /\
      stored (al ∖ {[b]}) (filter (fun '(x, _) => ~ (b.1 <= x < fin b)) sh) (u_mem s')) s) as Hwp.
    { eapply wp_free_ready; [exact Hr|done|]. intros s1 Hr1 Hk. split; [done|]. intros x v [Hx Hout]%map_lookup_filter_Some.
      destruct (Hst x v Hx) as (Hrd & b' & Hb' & Hin). assert (b' ∈ al ∖ {[b]}) as Hb2.
      { apply elem_of_difference. split; [done|]. intros ->%elem_of_singleton. by apply Hout. }
      split; [by rewrite (Hk b')|by exists b']. }
    exact (wp_result _ _ _ _ _ Hwp Heq).
  - split; [by eapply ready_store|]. rsimpl. intros y w Hy. unfold HEADER in Hx. rewrite rd8_wr8. destruct (Z.eqb_spec y x) as [-> |Hne].
    + rewrite lookup_insert_eq in Hy. injection Hy as <-. split; [done|]. exists b. split; [done|lia].
    + rewrite lookup_insert_ne in Hy by done. by apply Hst.
Qed.

(** C6: however a program interleaves [malloc], [free] and stores to the
    memory it was given, its live blocks never overlap, every byte it stored
    is still there until it frees the block, and the next [malloc] (below 2
    GiB) and the next [free] of a live block return; a null result of
    [malloc] means that the kernel refused [sbrk]. *)
Theorem allocator_safe `{!Brk} al sh s :
  client al sh s ->
  (forall b b', b ∈ al -> b' ∈ al -> b <> b' -> apart b b') /\
  (forall x v, sh !! x = Some v -> rd8 (u_mem s) x = v) /\
  (forall nbytes, 0 <= nbytes <= 2 ^ 31 - 32 ->
     wp (malloc base freep nbytes) (fun r _ =>
       (r = 0 -> exists n, (kcall (CSbrk n) (u_world s)).1.1 = -1) /\
       (r <> 0 -> block r nbytes ∉ al /\ nbytes <= fin (block r nbytes) - r)) s) /\
  (forall b, b ∈ al -> wp (free freep (b.1 + HEADER)) (fun _ _ => True) s).
Proof.
  intros Hc. apply client_ready in Hc as [Hr Hst]. split_and!.
  - intros b b'. by eapply ready_apart.
  - intros x v Hx. by apply Hst.
  - intros nbytes Hn. eapply wp_malloc; [exact Hr|done| |].
    + intros s' _ _ Href. by split.
    + intros r s' _ Hnew Hlo _. unfold HEADER in Hlo. split; [lia|]. intros _. split; [done|]. unfold fin, block, HEADER. cbn [fst snd].
      pose proof (Z.div_mod (nbytes + 15) 16). pose proof (Z.mod_pos_bound (nbytes + 15) 16). lia.
  - intros b Hb. by eapply wp_free_ready.
Qed.

End heap.

Module UmallocDemo.

(** A kernel in which only [sbrk] works: the world is the break. *)
Definition kcall (c : call) (w : Z) : Z * list (list Z) * Z :=
  match c with
  | CSbrk n => if w + n <=? 2 ^ 27 then (w, [], w + n) else (-1, [], w)
  | _ => (-1, [], w)
  end.
#[local] Instance sys : Sys := {| World := Z; User.kcall := kcall |}.

Lemma brk : @Brk sys (fun w => w).
Proof.
  split. intros n w Hn. cbn. destruct (Z.leb_spec (w + n) (2 ^ 27)); eexists _, _, _; (split; [reflexivity|]); [left|right]; lia.
Qed.

(** A program with its static data at 4096 and its heap from 8192. *)
Lemma allocator_safe_witness :
  exists r s', malloc 4096 4112 100 (@mkU sys ∅ 8192) = Ok r s' /\
    wp (malloc 4096 4112 2000) (fun r' _ => r' <> 0 -> r <> 0 -> block r' 2000 <> block r 100) s'.
Proof.
  assert (client 4096 4112 8192 (fun w => w) ∅ ∅ (@mkU sys ∅ 8192)) as Hc by (apply cl_start; [reflexivity|cbn; lia]).
  destruct (allocator_safe 4096 4112 8192 ltac:(lia) ltac:(lia) ltac:(lia) _ _ _ _ Hc (H0 := brk)) as (_ & _ & Hm & _).
  specialize (Hm 100 ltac:(lia)). destruct (proj1 (wp_ok _ _ _) Hm) as (r & s' & Heq & _). exists r, s'. split; [exact Heq|].
  pose proof (cl_malloc 4096 4112 8192 (fun w => w) _ _ _ 100 _ _ Hc ltac:(lia) Heq) as Hc'.
  destruct (allocator_safe 4096 4112 8192 ltac:(lia) ltac:(lia) ltac:(lia) _ _ _ _ Hc' (H0 := brk)) as (_ & _ & Hm' & _).
  eapply wp_mono; [exact (Hm' 2000 ltac:(lia))|]. intros r' s2 [_ Hr'] Hne Hr Heqb. destruct (Hr' Hne) as [Hnot _].
  rewrite (proj2 (Z.eqb_neq r 0) Hr) in Hnot. apply Hnot. rewrite Heqb. set_solver.
Defined.

End UmallocDemo.
