(* ===== verification/Programs.v ===== *)
(** * Programs: the small user programs

    One [main] for each program under [user/].  The arguments are the
    pointers [argv[0], ..., argv[argc-1]]; arrays and variables whose address
    the program takes are at the addresses given to its section. *)

From stdpp Require Import base list gmap strings.
From Stdlib Require Import ZArith Lia.
From S2P Require Import Prelude CMem User Ulib.

Section programs.
Context `{Sys}.

(** [argv[i]]: the kernel puts a null pointer behind the arguments; what
    comes after it is not an argument. *)
Definition arg (argv : list Z) (i : nat) : M U Z :=
  match (argv ++ [0]) !! i with Some p => mret p | None => fault end.

(** The strings of an argument vector, as [exec] reads them. *)
Fixpoint getstrs (ps : list Z) : M U (list (list Z)) :=
  match ps with
  | [] => mret []
  | p :: ps' => l ← getstr p; ls ← getstrs ps'; mret (l :: ls)
  end.

Definition writes (fd : Z) (l : list Z) : M U Z := call0 (CWrite fd l).

(** ** [user/cat.c] *)

Section cat.
(** The address of [char buf[512]]. *)
Variable buf : Z.

Definition cat (fd : Z) : M U unit :=
  n ← while (fun _ : unit =>
    n ← read fd buf 512;
    if negb (0 <? n) then mret (inr n) else
    r ← write 1 buf n;
    if negb (r =? n) then fprintf 2 ("cat: write error" +:+ newline) [];; exit 1
    else mret (inl tt)) tt;
  when (n <? 0) (fprintf 2 ("cat: read error" +:+ newline) [];; exit 1).

Definition cat_main (argv : list Z) : M U unit :=
  (if Z.of_nat (length argv) <=? 1 then cat 0;; exit 0 else mret tt);;
  for_each (drop 1 argv) (fun a =>
    path ← getstr a;
    fd ← open path 0;
    when (fd <? 0) (fprintf 2 ("cat: cannot open %s" +:+ newline) [a];; exit 1);;
    cat fd;;
    close fd;;
    mret tt);;
  exit 0.
End cat.

(** ** [user/echo.c] *)

Fixpoint echo_args (args : list Z) : M U unit :=
  match args with
  | [] => mret tt
  | a :: args' =>
      n ← strlen a;
      write 1 a n;;
      writes 1 (if decide (args' <> []) then lit " " else lit newline);;
      echo_args args'
  end.

Definition echo_main (argv : list Z) : M U unit := echo_args (drop 1 argv);; exit 0.

(** ** [user/wc.c] *)

Section wc.
Variable buf : Z.

Record counts := mkCounts { wc_l : Z; wc_w : Z; wc_c : Z; wc_inword : bool }.

(** The bytes of the literal given to [strchr]: a blank, carriage return,
    tab, newline and vertical tab. *)
Definition wc_seps : list Z := [32; 13; 9; 10; 11].

(** The body of the loop over the buffer. *)
Definition wc_char (b : Z) (k : counts) : M U counts :=
  c ← int_op (wc_c k + 1);
  l ← (if b =? 10 then int_op (wc_l k + 1) else mret (wc_l k));
  if bool_decide (b ∈ wc_seps) then mret (mkCounts l (wc_w k) c false)
  else if negb (wc_inword k) then
    w ← int_op (wc_w k + 1);
    mret (mkCounts l w c true)
  else mret (mkCounts l (wc_w k) c true).

Definition wc_buf (n : Z) (k : counts) : M U counts :=
  '(_, k) ← while (fun '(i, k) =>
    if negb (i <? n) then mret (inr (i, k)) else
    b ← ld8 (buf + i);
    k ← wc_char b k;
    mret (inl (i + 1, k))) (0, k);
  mret k.

Definition wc (fd name : Z) : M U unit :=
  '(n, k) ← while (fun k =>
    n ← read fd buf 512;
    if negb (0 <? n) then mret (inr (n, k)) else
    k ← wc_buf n k;
    mret (inl k)) (mkCounts 0 0 0 false);
  when (n <? 0) (printf ("wc: read error" +:+ newline) [];; exit 1);;
  printf ("%d %d %d %s" +:+ newline) [wc_l k; wc_w k; wc_c k; name].

(** [empty] is the address of an empty string. *)
Definition wc_main (empty : Z) (argv : list Z) : M U unit :=
  when (Z.of_nat (length argv) <=? 1) (wc 0 empty;; exit 0);;
  for_each (drop 1 argv) (fun a =>
    path ← getstr a;
    fd ← open path 0;
    when (fd <? 0) (printf ("wc: cannot open %s" +:+ newline) [a];; exit 1);;
    wc fd a;;
    close fd;;
    mret tt);;
  exit 0.
End wc.

(** ** [user/ls.c] *)

Section ls.
(** The static buffer of [fmtname], and [buf], [de] and [st] of [ls]. *)
Variables (fmtbuf buf de st : Z).

Definition DIRSIZ : Z := 14.

Definition fmtname (path : Z) : M U Z :=
  n ← strlen path;
  p ← while (fun p =>
    if negb (path <=? p) then mret (inr p) else
    c ← ld8 p;
    mret (if negb (c =? 47) then inl (p - 1) else inr p)) (path + n);
  let p := p + 1 in
  n ← strlen p;
  if DIRSIZ <=? n then mret p else
  memmove fmtbuf p n;;
  memset (fmtbuf + n) 32 (DIRSIZ - n);;
  mret fmtbuf.

(** The fields of [struct stat] at [st]; [type] is a [short]. *)
Definition st_type : M U Z :=
  s ← get;
  let x := rdle (u_mem s) (st + 8) 2 in
  mret (if x <? 2 ^ 15 then x else x - 2 ^ 16).
Definition st_ino : M U Z := s ← get; mret (load32 (u_mem s) (st + 4)).
Definition st_size : M U Z := s ← get; mret (load64 (u_mem s) (st + 16)).

(** One entry of the directory; [p] is where its name goes. *)
Definition ls_entry (p : Z) : M U unit :=
  s ← get;
  if rdle (u_mem s) de 2 =? 0 then mret tt else
  memmove p (de + 2) DIRSIZ;;
  st8 (p + DIRSIZ) 0;;
  r ← stat buf st;
  if r <? 0 then printf ("ls: cannot stat %s" +:+ newline) [buf] else
  name ← fmtname buf;
  type ← st_type; ino ← st_ino; size ← st_size;
  printf ("%s %d %d %d" +:+ newline) [name; type; ino; size].

Definition ls (path : Z) : M U unit :=
  name ← getstr path;
  fd ← open name 0;
  if fd <? 0 then fprintf 2 ("ls: cannot open %s" +:+ newline) [path] else
  r ← fstat fd st;
  if r <? 0 then
    fprintf 2 ("ls: cannot stat %s" +:+ newline) [path];;
    close fd;;
    mret tt
  else
  type ← st_type;
  (if (type =? 3) || (type =? 2) then
     name ← fmtname path;
     type ← st_type; ino ← st_ino; size ← st_size;
     printf ("%s %d %d %l" +:+ newline) [name; type; ino; size]
   else if type =? 1 then
     n ← strlen path;
     if 512 <? u32 (n + 1 + DIRSIZ + 1) then printf ("ls: path too long" +:+ newline) [] else
     strcpy buf path;;
     n ← strlen buf;
     let p := buf + n in
     st8 p 47;;
     let p := p + 1 in
     while (fun _ : unit =>
       n ← read fd de 16;
       if negb (n =? 16) then mret (inr tt) else
       ls_entry p;;
       mret (inl tt)) tt
   else mret tt);;
  close fd;;
  mret tt.

(** [dot] is the address of the string [.] *)
Definition ls_main (dot : Z) (argv : list Z) : M U unit :=
  when (Z.of_nat (length argv) <? 2) (ls dot;; exit 0);;
  for_each (drop 1 argv) ls;;
  exit 0.
End ls.

(** ** [user/init.c] *)

(** The inner loop: wait until the shell ends. *)
Definition init_wait (pid : Z) : M U unit :=
  while (fun _ : unit =>
    wpid ← wait 0;
    if wpid =? pid then mret (inr tt)
    else if wpid <? 0 then printf ("init: wait returned an error" +:+ newline) [];; exit 1
    else mret (inl tt)) tt.

(** One iteration of the outer loop. *)
Definition init_shell : M U unit :=
  printf ("init: starting sh" +:+ newline) [];;
  pid ← fork;
  when (pid <? 0) (printf ("init: fork failed" +:+ newline) [];; exit 1);;
  when (pid =? 0) (
    exec (lit "sh") [lit "sh"];;
    printf ("init: exec sh failed" +:+ newline) [];;
    exit 1);;
  init_wait pid.

(** [CONSOLE] is 1. *)
Definition init_main : M U unit :=
  fd ← open (lit "console") O_RDWR;
  when (fd <? 0) (
    mknod (lit "console") 1 0;;
    open (lit "console") O_RDWR;;
    mret tt);;
  dup 0;;
  dup 0;;
  while (fun _ : unit => init_shell;; mret (inl tt)) tt.

(** ** [user/kill.c], [user/ln.c], [user/mkdir.c], [user/rm.c] *)

Definition kill_main (argv : list Z) : M U unit :=
  when (Z.of_nat (length argv) <? 2) (fprintf 2 ("usage: kill pid..." +:+ newline) [];; exit 1);;
  for_each (drop 1 argv) (fun a => pid ← atoi a; kill pid;; mret tt);;
  exit 0.

Definition ln_main (argv : list Z) : M U unit :=
  when (negb (Z.of_nat (length argv) =? 3)) (fprintf 2 ("Usage: ln old new" +:+ newline) [];; exit 1);;
  a1 ← arg argv 1;
  a2 ← arg argv 2;
  old ← getstr a1;
  new ← getstr a2;
  r ← link old new;
  when (r <? 0) (fprintf 2 ("link %s %s: failed" +:+ newline) [a1; a2]);;
  exit 0.

(** The loop of [mkdir] and [rm]: the first failure ends it. *)
Definition each_path (op : list Z -> M U Z) (msg : string) (args : list Z) : M U unit :=
  for_first args (fun a =>
    path ← getstr a;
    r ← op path;
    if r <? 0 then fprintf 2 msg [a];; mret (Some tt) else mret None);;
  mret tt.

Definition mkdir_main (argv : list Z) : M U unit :=
  when (Z.of_nat (length argv) <? 2) (fprintf 2 ("Usage: mkdir files..." +:+ newline) [];; exit 1);;
  each_path mkdir ("mkdir: %s failed to create" +:+ newline) (drop 1 argv);;
  exit 0.

Definition rm_main (argv : list Z) : M U unit :=
  when (Z.of_nat (length argv) <? 2) (fprintf 2 ("Usage: rm files..." +:+ newline) [];; exit 1);;
  each_path unlink ("rm: %s failed to delete" +:+ newline) (drop 1 argv);;
  exit 0.

(** ** [user/zombie.c], [user/time.c], [user/strace.c], [user/setpriority.c] *)

Definition zombie_main : M U unit :=
  pid ← fork;
  when (0 <? pid) (sleep 5;; mret tt);;
  exit 0.

(** [rtime] and [wtime] are the addresses of the variables. *)
Definition time_main (rtime wtime : Z) (argv : list Z) : M U unit :=
  pid ← fork;
  (if pid <? 0 then printf ("fork(): failed" +:+ newline) [];; exit 1
   else if pid =? 0 then
     if Z.of_nat (length argv) =? 1 then sleep 10;; exit 0
     else
       a1 ← arg argv 1;
       path ← getstr a1;
       args ← getstrs (drop 1 argv);
       exec path args;;
       printf ("exec(): failed" +:+ newline) [];;
       exit 1
   else
     waitx 0 wtime rtime;;
     s ← get;
     printf (newline +:+ "waiting:%d" +:+ newline +:+ "running:%d" +:+ newline)
       [i32 (load32 (u_mem s) wtime); i32 (load32 (u_mem s) rtime)]);;
  exit 0.

(** [args] is the address of the array; its last element is written one
    past its end. *)
Definition strace_main (args : Z) (argv : list Z) : M U unit :=
  when (Z.of_nat (length argv) <? 3) (fprintf 2 "Usage: strace <mask> <command> <args...>" [];; exit 1);;
  a1 ← arg argv 1;
  mask ← atoi a1;
  trace (u32 mask);;
  cmd ← arg argv 2;
  let n := (length argv - 2)%nat in
  for_each (seq 0 n) (fun i =>
    a ← arg argv (i + 2);
    modify (fun s => s <| u_mem ::= fun m => store64 m (args + 8 * Z.of_nat i) a |>));;
  modify (fun s => s <| u_mem ::= fun m => store64 m (args + 8 * Z.of_nat n) 0 |>);;
  path ← getstr cmd;
  s ← get;
  strs ← getstrs ((fun i => load64 (u_mem s) (args + 8 * Z.of_nat i)) <$> seq 0 n);
  exec path strs;;
  fprintf 2 "exec failed" [];;
  exit 1.

Definition setpriority_main (argv : list Z) : M U unit :=
  when (negb (Z.of_nat (length argv) =? 3)) (fprintf 2 "Usage: setpriority <priority> <pid>" []);;
  a1 ← arg argv 1;
  priority ← atoi a1;
  a2 ← arg argv 2;
  pid ← atoi a2;
  p ← setpriority priority pid;
  printf "setpriority returned %d" [p];;
  exit 0.

(** ** [user/schedulertest.c], [user/stressfs.c], [user/forktest.c] *)

Section tests.
Variables (wtime rtime data path : Z).

Definition NFORK : Z := 5.
Definition IO : Z := 5.

(** The loop that starts the children; the result is [n]. *)
Definition schedulertest_start : M U Z :=
  while (fun n =>
    if negb (n <? NFORK) then mret (inr n) else
    pid ← fork;
    if pid <? 0 then mret (inr n) else
    (if pid =? 0 then
       while (fun i => mret (if i <? 1000000000 then inl (i + 1) else inr tt)) 0;;
       printf ("Process %d finished" +:+ newline) [n];;
       exit 0
     else setpriority (60 - IO - n) pid;; mret tt);;
    mret (inl (n + 1))) 0.

(** The loop that waits for them; the result is [trtime] and [twtime]. *)
Definition schedulertest_wait (n : Z) : M U (Z * Z) :=
  while (fun '(n, trtime, twtime) =>
    if negb (0 <? n) then mret (inr (trtime, twtime)) else
    r ← waitx 0 wtime rtime;
    if 0 <=? r then
      s ← get;
      trtime ← int_op (trtime + i32 (load32 (u_mem s) rtime));
      twtime ← int_op (twtime + i32 (load32 (u_mem s) wtime));
      mret (inl (n - 1, trtime, twtime))
    else mret (inl (n - 1, trtime, twtime))) (n, 0, 0).

Definition schedulertest_main : M U unit :=
  n ← schedulertest_start;
  '(trtime, twtime) ← schedulertest_wait n;
  printf ("Average rtime %d,  wtime %d" +:+ newline) [Z.quot trtime NFORK; Z.quot twtime NFORK];;
  exit 0.

(** The [path] array starts as [stressfs0]. *)
Definition stressfs_main : M U unit :=
  store path (lit "stressfs0" ++ [0]);;
  printf ("stressfs starting" +:+ newline) [];;
  memset data 97 512;;
  i ← while (fun i =>
    if negb (i <? 4) then mret (inr i) else
    pid ← fork;
    mret (if 0 <? pid then inr i else inl (i + 1))) 0;
  printf ("write %d" +:+ newline) [i];;
  c ← ld8 (path + 8);
  st8 (path + 8) (c + i);;
  name ← getstr path;
  fd ← open name (Z.lor O_CREATE O_RDWR);
  for_each (seq 0 20) (fun _ => write fd data 512;; mret tt);;
  close fd;;
  printf ("read" +:+ newline) [];;
  name ← getstr path;
  fd ← open name O_RDONLY;
  for_each (seq 0 20) (fun _ => read fd data 512;; mret tt);;
  close fd;;
  wait 0;;
  exit 0.

Definition FORKTEST_N : Z := 1000.

Definition print (s : string) : M U unit := writes 1 (lit s);; mret tt.

Definition forktest : M U unit :=
  print ("fork test" +:+ newline);;
  n ← while (fun n =>
    if negb (n <? FORKTEST_N) then mret (inr n) else
    pid ← fork;
    if pid <? 0 then mret (inr n) else
    when (pid =? 0) (exit 0);;
    mret (inl (n + 1))) 0;
  when (n =? FORKTEST_N) (print ("fork claimed to work N times!" +:+ newline);; exit 1);;
  while (fun n =>
    if negb (0 <? n) then mret (inr tt) else
    r ← wait 0;
    when (r <? 0) (print ("wait stopped early" +:+ newline);; exit 1);;
    mret (inl (n - 1))) n;;
  r ← wait 0;
  when (negb (r =? -1)) (print ("wait got too many" +:+ newline);; exit 1);;
  print ("fork test OK" +:+ newline).

Definition forktest_main : M U unit := forktest;; exit 0.
End tests.

End programs.
