(* ===== verification/ProgSpec.v ===== *)
(** * ProgSpec: what [cat] and [wc] write *)

From stdpp Require Import base list gmap strings.
From Stdlib Require Import ZArith Lia.
From S2P Require Import Prelude CMem User Ulib UlibSpec Grep Programs.

(** ** Words *)

(** The maximal runs of characters that are not separators; [cur] is the
    run read so far. *)
Fixpoint split_words (cur l : list Z) : list (list Z) :=
  match l with
  | [] => if decide (cur = []) then [] else [cur]
  | c :: l' =>
      if bool_decide (c ∈ wc_seps) then (if decide (cur = []) then [] else [cur]) ++ split_words [] l'
      else split_words (cur ++ [c]) l'
  end.

Definition newlines (l : list Z) : Z := Z.of_nat (length (filter (fun c => c = 10) l)).
Definition words (l : list Z) : Z := Z.of_nat (length (split_words [] l)).

(** The counters without their width. *)
Definition wc_count (k : counts) (b : Z) : counts :=
  let l := if b =? 10 then wc_l k + 1 else wc_l k in
  if bool_decide (b ∈ wc_seps) then mkCounts l (wc_w k) (wc_c k + 1) false
  else mkCounts l (if wc_inword k then wc_w k else wc_w k + 1) (wc_c k + 1) true.

Lemma wc_count_spec l k cur :
  wc_inword k = bool_decide (cur <> []) ->
  let k' := foldl wc_count k l in
  wc_c k' = wc_c k + Z.of_nat (length l) /\ wc_l k' = wc_l k + newlines l /\
  wc_w k' = wc_w k + Z.of_nat (length (split_words cur l)) - (if wc_inword k then 1 else 0).
Proof.
  revert k cur. induction l as [|b l IH]; intros k cur Hin; cbn [foldl split_words].
  - unfold newlines. cbn. rewrite Hin. destruct (decide (cur = [])); case_bool_decide; try done; cbn; lia.
  - assert (newlines (b :: l) = (if b =? 10 then 1 else 0) + newlines l) as ->.
    { unfold newlines. rewrite filter_cons. destruct (Z.eqb_spec b 10); case_decide; try done; cbn [length]; lia. }
    destruct (IH (wc_count k b) (if bool_decide (b ∈ wc_seps) then [] else cur ++ [b])) as (Hc & Hl & Hw).
    { unfold wc_count. destruct (bool_decide (b ∈ wc_seps)); cbn; [done|]. by destruct cur. }
    unfold wc_count in *. rewrite Hc, Hl, Hw. clear Hc Hl Hw. cbn [length].
    destruct (bool_decide (b ∈ wc_seps)); cbn [wc_c wc_l wc_w wc_inword]; (split; [lia|]; split; [destruct (b =? 10); lia|]).
    + rewrite length_app. rewrite Hin. destruct (decide (cur = [])); case_bool_decide; try done; cbn [length]; lia.
    + destruct (wc_inword k); lia.
Qed.

Lemma wc_count_bound l k : wc_inword k = false ->
  let k' := foldl wc_count k l in
  wc_l k <= wc_l k' <= wc_l k + Z.of_nat (length l) /\ wc_w k <= wc_w k' <= wc_w k + Z.of_nat (length l) /\ wc_c k' = wc_c k + Z.of_nat (length l).
Proof.
  intros Hin k'. assert (wc_l k <= wc_l k' <= wc_l k + Z.of_nat (length l) /\
    wc_w k <= wc_w k' <= wc_w k + Z.of_nat (length l) /\ wc_c k' = wc_c k + Z.of_nat (length l)) as Hb; [|exact Hb].
  unfold k'. clear k' Hin. revert k. induction l as [|b l IH]; intros k; cbn [foldl length]; [lia|].
  specialize (IH (wc_count k b)). cbn zeta in IH. unfold wc_count in *.
  destruct (b =? 10), (bool_decide (b ∈ wc_seps)), (wc_inword k); cbn [wc_l wc_w wc_c] in *; lia.
Qed.

Section wc.
Context `{Sys} (buf fd : Z) (inp out : World -> list Z) `{!Stream fd inp out}.

Lemma stream_sink : Sink 1 out.
Proof. split. intros bs w. destruct (st_write bs w) as (r & w' & Hk & _ & Ho). by eexists _, _, _. Qed.
#[local] Existing Instance stream_sink.

Lemma wp_wc_buf bs k0 l (Q : counts -> U -> Prop) s :
  holds (u_mem s) buf bs -> k0 = foldl wc_count (mkCounts 0 0 0 false) l -> Z.of_nat (length (l ++ bs)) <= INT_MAX ->
  Q (foldl wc_count (mkCounts 0 0 0 false) (l ++ bs)) s -> wp (wc_buf buf (Z.of_nat (length bs)) k0) Q s.
Proof.
  intros Hh -> Hb HQ. unfold wc_buf. apply wp_bind. set (z := mkCounts 0 0 0 false) in *.
  apply (wp_while_idx (fun k '(i, c) s' => s' = s /\ (k <= length bs)%nat /\ i = Z.of_nat (length bs - k) /\
    c = foldl wc_count z (l ++ take (length bs - k) bs))) with (k := length bs).
  - intros k [i c] s' (-> & Hk & -> & ->). destruct (decide (k = 0%nat)) as [->|Hk0].
    + rewrite Nat.sub_0_r, Z.ltb_irrefl, firstn_all. cbn [negb]. by wp_steps.
    + rewrite (proj2 (Z.ltb_lt _ _)) by lia. cbn [negb]. set (i := (length bs - k)%nat).
      destruct (lookup_lt_is_Some_2 bs i) as [b Hbi]; [lia|]. wp_steps. rewrite (Hh i b Hbi).
      pose proof (wc_count_bound (l ++ take i bs) z eq_refl) as (Hl1 & Hw1 & Hc1). cbn zeta in *.
      set (c := foldl wc_count z (l ++ take i bs)) in *. unfold z in Hl1, Hw1, Hc1. cbn [wc_l wc_w wc_c] in *.
      rewrite length_app, length_take in *.
      assert (wp (wc_char b c) (fun c' s' => s' = s /\ c' = wc_count c b) s) as Hwc.
      { unfold wc_char, wc_count. wp_steps. split; [unfold INT_MIN, INT_MAX in *; lia|]. wp_steps.
        destruct (b =? 10); wp_steps; [split; [unfold INT_MIN, INT_MAX in *; lia|]|];
          destruct (bool_decide (b ∈ wc_seps)); wp_steps; try done; destruct (wc_inword c); cbn [negb]; wp_steps; try done;
          (split; [unfold INT_MIN, INT_MAX in *; lia|]); by wp_steps. }
      eapply wp_mono; [exact Hwc|]. intros c' s' [-> ->]. wp_steps. exists (k - 1)%nat. split; [lia|]. split; [done|]. split; [lia|].
      replace (length bs - (k - 1))%nat with (S i) by lia. split; [lia|].
      rewrite (take_S_r _ _ b) by done. by rewrite app_assoc, (foldl_snoc wc_count z).
  - rewrite Nat.sub_diag. split; [done|]. split; [done|]. split; [done|]. cbn. by rewrite app_nil_r.
  - apply lt_fuel. rewrite length_app in Hb. unfold INT_MAX in Hb. lia.
Qed.

Hypothesis Hbuf : 0 < buf.

(** Read the next piece into the buffer. *)
Lemma wp_read_buf (Q : Z -> U -> Prop) s :
  Forall (fun b => 0 <= b < 256) (inp (u_world s)) ->
  (forall bs s', holds (u_mem s') buf bs -> (length bs <= 512)%nat -> inp (u_world s) = bs ++ inp (u_world s') ->
     out (u_world s') = out (u_world s) -> (bs = [] -> inp (u_world s') = []) ->
     (forall x, x < buf \/ buf + 512 <= x -> rd8 (u_mem s') x = rd8 (u_mem s) x) -> Q (Z.of_nat (length bs)) s') ->
  wp (read fd buf 512) Q s.
Proof.
  intros Hb HQ. unfold read, call1. wp_steps. apply wp_trap.
  destruct (st_read 512 (u_world s) ltac:(lia)) as (bs & w' & -> & Hl & Hi & Ho & He). wp_steps.
  rewrite (proj2 (Z.eqb_neq _ _)) by lia. cbn [negb]. wp_steps. cbn [hd]. apply HQ; rsimpl; try done; [|lia| |].
  - apply holds_wrbytes. rewrite Hi in Hb. by apply Forall_app in Hb as [? _].
  - intros ->. destruct (He eq_refl) as [?|Hnil]; [lia|]. by rewrite Hi in Hnil.
  - intros x Hx. apply rd8_wrbytes_out. lia.
Qed.

Lemma wp_wc_report l w c name nm (Q : unit -> U -> Prop) s :
  0 <= l <= INT_MAX -> 0 <= w <= INT_MAX -> 0 <= c <= INT_MAX ->
  0 < name -> str_at (u_mem s) name nm -> Forall (fun c => 0 <= c < 256) nm -> Z.of_nat (length nm) < 2 ^ 62 ->
  (forall dl dw dc s', out (u_world s') = out (u_world s) ++ dl ++ [32] ++ dw ++ [32] ++ dc ++ [32] ++ nm ++ [10] ->
     dec_value dl = l -> dec_value dw = w -> dec_value dc = c -> Q tt s') ->
  wp (printf ("%d %d %d %s" +:+ newline) [l; w; c; name]) Q s.
Proof.
  intros Hl Hw Hc Hn0 Hn Hnm Hnl HQ. assert (INT_MIN <= 0) as Hmin by done.
  unfold printf, vprintf. change (lit ("%d %d %d %s" +:+ newline)) with [37; 100; 32; 37; 100; 32; 37; 100; 32; 37; 115; 10].
  cbn [vprintf_loop Z.eqb Pos.eqb negb]. wp_steps. cbn [va_arg]. wp_steps. rewrite i32_small by lia.
  apply (wp_printint_nat 1 out); [done|]. intros dl w1 _ _ Hdl O1. wp_steps. apply (wp_putc 1 out). rsimpl. intros w2 O2. wp_steps.
  cbn [va_arg]. wp_steps. rewrite i32_small by lia. apply (wp_printint_nat 1 out); [done|]. rsimpl. intros dw w3 _ _ Hdw O3. wp_steps.
  apply (wp_putc 1 out). rsimpl. intros w4 O4. wp_steps. cbn [va_arg]. wp_steps. rewrite i32_small by lia.
  apply (wp_printint_nat 1 out); [done|]. rsimpl. intros dc w5 _ _ Hdc O5. wp_steps. apply (wp_putc 1 out). rsimpl. intros w6 O6. wp_steps.
  cbn [va_arg]. wp_steps. rewrite (proj2 (Z.eqb_neq _ _)) by lia. apply (wp_puts 1 out _ nm); [by rsimpl|done|done|]. rsimpl. intros w7 O7. wp_steps.
  apply (wp_putc 1 out). rsimpl. intros w8 O8. wp_steps. apply (HQ dl dw dc); [|done..]. rsimpl.
  rewrite O8, O7, O6, O5, O4, O3, O2, O1. rewrite !u8_small by lia. by rewrite <- !app_assoc.
Qed.

(** C39: [wc] prints the number of lines, words and characters of its input,
    in decimal, and the name of the file, however the kernel splits the input
    into pieces; a word is a maximal run of characters other than blank,
    carriage return, tab, newline and vertical tab. *)
Theorem wc_prints name nm s :
  0 < name -> str_at (u_mem s) name nm -> (name + Z.of_nat (length nm) < buf \/ buf + 512 <= name) ->
  Forall (fun c => 0 <= c < 256) nm -> Z.of_nat (length nm) < 2 ^ 62 ->
  Forall (fun b => 0 <= b < 256) (inp (u_world s)) -> Z.of_nat (length (inp (u_world s))) <= INT_MAX ->
  wp (wc buf fd name) (fun _ s' => exists dl dw dc,
    out (u_world s') = out (u_world s) ++ dl ++ [32] ++ dw ++ [32] ++ dc ++ [32] ++ nm ++ [10] /\
    dec_value dl = newlines (inp (u_world s)) /\ dec_value dw = words (inp (u_world s)) /\
    dec_value dc = Z.of_nat (length (inp (u_world s)))) s.
Proof.
  intros Hn0 Hn Hap Hnm Hnl Hb Hlen. unfold wc. wp_steps. set (z := mkCounts 0 0 0 false).
  set (I := fun (k : nat) (c : counts) (s' : U) => exists l, k = length (inp (u_world s')) /\ inp (u_world s) = l ++ inp (u_world s') /\
    c = foldl wc_count z l /\ out (u_world s') = out (u_world s) /\
    (forall x, x < buf \/ buf + 512 <= x -> rd8 (u_mem s') x = rd8 (u_mem s) x)).
  apply (wp_while_idx I) with (k := length (inp (u_world s))).
  - intros k c s1 (l & -> & Hi & -> & Ho & Hm). wp_steps. apply wp_read_buf.
    { rewrite Hi in Hb. by apply Forall_app in Hb as [_ ?]. }
    intros bs s2 Hh Hbl Hi2 Ho2 He Hm2. destruct (decide (bs = [])) as [-> |Hne].
    + cbn [length app] in *. change (0 <? Z.of_nat 0) with false. cbn [negb]. wp_steps. change (Z.of_nat 0 <? 0) with false. cbv iota.
      rewrite (He eq_refl) in *. rewrite Hi2, app_nil_r in Hi. subst l.
      destruct (wc_count_spec (inp (u_world s)) z [] eq_refl) as (Hc & Hl & Hw). pose proof (wc_count_bound (inp (u_world s)) z eq_refl) as (Bl & Bw & _).
      cbn zeta in *. set (c := foldl wc_count z (inp (u_world s))) in *. unfold z in Hc, Hl, Hw, Bl, Bw. cbn [wc_l wc_w wc_c wc_inword] in *.
      apply (wp_wc_report _ _ _ _ nm); [lia|lia|lia|done| |done|done|].
      * destruct Hn as [Hn Hz]. split; [|done]. eapply holds_ext; [|exact Hn]. rewrite length_app. cbn. intros x Hx. by rewrite Hm2, Hm by lia.
      * intros dl dw dc s' Ho' Hdl Hdw Hdc. exists dl, dw, dc. rewrite Ho', Ho2, Ho. unfold words. split_and!; [done|lia..].
    + assert (0 < Z.of_nat (length bs)) as Hpos by (destruct bs; [done|cbn; lia]). rewrite (proj2 (Z.ltb_lt _ _)) by done. cbn [negb]. wp_steps.
      apply (wp_wc_buf _ _ l); [done|done|rewrite Hi, Hi2, !length_app in Hlen; rewrite length_app; lia|]. wp_steps.
      exists (length (inp (u_world s2))). split; [rewrite Hi2, length_app; lia|]. exists (l ++ bs). split; [done|].
      split; [by rewrite Hi, Hi2, app_assoc|]. split; [done|]. split; [by rewrite Ho2|]. intros x Hx. by rewrite Hm2, Hm.
  - exists []. split_and!; done.
  - apply lt_fuel. unfold INT_MAX in Hlen. lia.
Qed.

End wc.

Module WcDemo.

(** Two lines in pieces of five bytes. *)
Lemma wc_prints_witness :
  exists s' dl dw dc, @wc GrepDemo.sys 0x1000 3 64 (@mkU GrepDemo.sys (wrbytes ∅ 64 (lit "f")) (lit "to be  or" ++ [10] ++ lit "not" ++ [10], [])) = Ok tt s' /\
    snd (@u_world GrepDemo.sys s') = dl ++ [32] ++ dw ++ [32] ++ dc ++ [32] ++ lit "f" ++ [10] /\
    dec_value dl = 2 /\ dec_value dw = 4 /\ dec_value dc = 14.
Proof.
  destruct (proj1 (wp_ok _ _ _) (@wc_prints GrepDemo.sys 0x1000 3 fst snd GrepDemo.stream ltac:(lia) 64 (lit "f")
    (@mkU GrepDemo.sys (wrbytes ∅ 64 (lit "f")) (lit "to be  or" ++ [10] ++ lit "not" ++ [10], []))
    ltac:(lia) ltac:(split; [intros [|[|i]] c Hc; [by injection Hc as <-|by injection Hc as <-|done]|by apply (bool_decide_eq_true_1 _)])
    ltac:(cbn; lia) ltac:(by apply (bool_decide_eq_true_1 _)) ltac:(cbn; lia) ltac:(by apply (bool_decide_eq_true_1 _)) ltac:(done)))
    as ([] & s' & Hok & dl & dw & dc & Hout & H1 & H2 & H3).
  exists s', dl, dw, dc. split; [exact Hok|]. split; [exact Hout|]. split; [exact H1|]. split; [exact H2|exact H3].
Defined.

End WcDemo.
