(* ===== verification/Sh.v ===== *)
(** * Sh: the shell, [user/sh.c]

    The text of a command is in the memory of the program; the nodes of
    [struct cmd] are kept apart from it, one record for each block that
    [malloc] returned (which never overlap, see [UmallocSpec]; an allocation
    does not fail).  The pointer to the node with index [i] is [i + 1]. *)

From stdpp Require Import base list gmap strings.
From Stdlib Require Import ZArith Lia.
From S2P Require Import Prelude CMem User Ulib.

Definition MAXARGS : nat := 10.

(** [struct execcmd], [redircmd], [pipecmd], [listcmd], [backcmd]: the
    constructor is the [type] field. *)
Inductive cmd :=
| EXEC (argv eargv : list Z)
| REDIR (cmd file efile mode fd : Z)
| PIPE (left right : Z)
| LIST (left right : Z)
| BACK (cmd : Z).

Section sh.
Context `{Sys}.

Record Sh := mkSh {
  sh_u : U;
  sh_cmds : list cmd;
}.
#[global] Instance Sh_settable : Settable Sh := {| mk_eta := fun s => mkSh (sh_u s) (sh_cmds s) |}.

Definition Uof : lens U Sh := Lens sh_u (fun u s => s <| sh_u := u |>).
Definition usr {A} (m : M U A) : M Sh A := zoom Uof m.

(** [panic] of the shell. *)
Definition sh_panic {A} (s : string) : M Sh A :=
  usr (fprintf 2 (s +:+ newline) []);;
  usr (exit 1).

Definition fork1 : M Sh Z :=
  pid ← usr fork;
  if pid =? -1 then sh_panic "fork" else mret pid.

(** ** Nodes *)

Definition new_cmd (c : cmd) : M Sh Z :=
  s ← get;
  modify (fun s => s <| sh_cmds ::= fun l => l ++ [c] |>);;
  mret (Z.of_nat (length (sh_cmds s)) + 1).

Definition get_cmd (p : Z) : M Sh cmd :=
  s ← get;
  if p <=? 0 then fault else
  match sh_cmds s !! Z.to_nat (p - 1) with Some c => mret c | None => fault end.

Definition execcmd : M Sh Z := new_cmd (EXEC (replicate MAXARGS 0) (replicate MAXARGS 0)).
Definition redircmd (subcmd file efile mode fd : Z) : M Sh Z := new_cmd (REDIR subcmd file efile mode fd).
Definition pipecmd (left right : Z) : M Sh Z := new_cmd (PIPE left right).
Definition listcmd (left right : Z) : M Sh Z := new_cmd (LIST left right).
Definition backcmd (subcmd : Z) : M Sh Z := new_cmd (BACK subcmd).

(** [cmd->argv[argc] = q; cmd->eargv[argc] = eq;] *)
Definition set_arg (p : Z) (argc : nat) (q eq : Z) : M Sh unit :=
  c ← get_cmd p;
  match c with
  | EXEC argv eargv =>
      if (argc <? MAXARGS)%nat then
        modify (fun s => s <| sh_cmds ::= <[Z.to_nat (p - 1) := EXEC (<[argc := q]> argv) (<[argc := eq]> eargv)]> |>)
      else fault
  | _ => fault
  end.

(** ** Tokens *)

Definition whitespace : list Z := [32; 9; 13; 10; 11].
Definition symbols : list Z := lit "<|>&;()".

(** [strchr(l, c) != 0] for a literal [l]. *)
Definition among (c : Z) (l : list Z) : bool := bool_decide (c ∈ l).

(** [while(s < es && ...) s++;] *)
Definition skip (test : Z -> bool) (s es : Z) : M Sh Z :=
  while (fun s =>
    if negb (s <? es) then mret (inr s) else
    c ← usr (ld8 s);
    mret (if test c then inl (s + 1) else inr s)) s.

Definition is_space (c : Z) : bool := among c whitespace.
Definition is_word (c : Z) : bool := negb (among c whitespace) && negb (among c symbols).

(** The result is [ret], [*q], [*eq] and the new [*ps]. *)
Definition gettoken (s es : Z) : M Sh (Z * Z * Z * Z) :=
  s ← skip is_space s es;
  let q := s in
  c ← usr (ld8 s);
  '(ret, s) ← (if c =? 0 then mret (c, s)
               else if among c (lit "|();&<") then mret (c, s + 1)
               else if c =? 62 then
                 let s := s + 1 in
                 c' ← usr (ld8 s);
                 if c' =? 62 then mret (43, s + 1) else mret (c, s)
               else s ← skip is_word s es; mret (97, s));
  let eq := s in
  s ← skip is_space s es;
  mret (ret, q, eq, s).

(** The result is whether one of [toks] follows, and the new [*ps]. *)
Definition peek (s es : Z) (toks : list Z) : M Sh (bool * Z) :=
  s ← skip is_space s es;
  c ← usr (ld8 s);
  mret (negb (c =? 0) && among c toks, s).

(** ** The parser

    Every parser returns the command and the new [*ps].  [fuel] bounds the
    depth of the recursion. *)

Definition parseredirs (cmd s es : Z) : M Sh (Z * Z) :=
  while (fun '(cmd, s) =>
    '(b, s) ← peek s es (lit "<>");
    if negb b then mret (inr (cmd, s)) else
    '(tok, _, _, s) ← gettoken s es;
    '(tok', q, eq, s) ← gettoken s es;
    (if negb (tok' =? 97) then sh_panic "missing file for redirection" else mret tt);;
    cmd ← (if tok =? 60 then redircmd cmd q eq O_RDONLY 0
           else if tok =? 62 then redircmd cmd q eq (Z.lor (Z.lor O_WRONLY O_CREATE) O_TRUNC) 1
           else if tok =? 43 then redircmd cmd q eq (Z.lor O_WRONLY O_CREATE) 1
           else mret cmd);
    mret (inl (cmd, s))) (cmd, s).

(** The loop of [parseexec] over the arguments of the node [cmd]. *)
Definition parseargs (cmd ret s es : Z) : M Sh (Z * Z) :=
  '(ret, argc, s) ← while (fun '(ret, argc, s) =>
    '(b, s) ← peek s es (lit "|)&;");
    if (b : bool) then mret (inr (ret, argc, s)) else
    '(tok, q, eq, s) ← gettoken s es;
    if tok =? 0 then mret (inr (ret, argc, s)) else
    (if negb (tok =? 97) then sh_panic "syntax" else mret tt);;
    set_arg cmd argc q eq;;
    let argc := S argc in
    (if (MAXARGS <=? argc)%nat then sh_panic "too many args" else mret tt);;
    '(ret, s) ← parseredirs ret s es;
    mret (inl (ret, argc, s))) (ret, 0%nat, s);
  set_arg cmd argc 0 0;;
  mret (ret, s).

(** The loop of [parseline] over the ampersands. *)
Definition parseback (cmd s es : Z) : M Sh (Z * Z) :=
  while (fun '(cmd, s) =>
    '(b, s) ← peek s es (lit "&");
    if negb b then mret (inr (cmd, s)) else
    '(_, _, _, s) ← gettoken s es;
    cmd ← backcmd cmd;
    mret (inl (cmd, s))) (cmd, s).

Fixpoint parseline (fuel : nat) (s es : Z) : M Sh (Z * Z) :=
  match fuel with
  | O => out_of_fuel
  | S fuel =>
      '(cmd, s) ← parsepipe fuel s es;
      '(cmd, s) ← parseback cmd s es;
      '(b, s) ← peek s es (lit ";");
      if (b : bool) then
        '(_, _, _, s) ← gettoken s es;
        '(rcmd, s) ← parseline fuel s es;
        cmd ← listcmd cmd rcmd;
        mret (cmd, s)
      else mret (cmd, s)
  end
with parsepipe (fuel : nat) (s es : Z) : M Sh (Z * Z) :=
  match fuel with
  | O => out_of_fuel
  | S fuel =>
      '(cmd, s) ← parseexec fuel s es;
      '(b, s) ← peek s es (lit "|");
      if (b : bool) then
        '(_, _, _, s) ← gettoken s es;
        '(rcmd, s) ← parsepipe fuel s es;
        cmd ← pipecmd cmd rcmd;
        mret (cmd, s)
      else mret (cmd, s)
  end
with parseexec (fuel : nat) (s es : Z) : M Sh (Z * Z) :=
  match fuel with
  | O => out_of_fuel
  | S fuel =>
      '(b, s) ← peek s es (lit "(");
      if (b : bool) then parseblock fuel s es else
      cmd ← execcmd;
      '(ret, s) ← parseredirs cmd s es;
      parseargs cmd ret s es
  end
with parseblock (fuel : nat) (s es : Z) : M Sh (Z * Z) :=
  match fuel with
  | O => out_of_fuel
  | S fuel =>
      '(b, s) ← peek s es (lit "(");
      (if negb b then sh_panic "parseblock" else mret tt);;
      '(_, _, _, s) ← gettoken s es;
      '(cmd, s) ← parseline fuel s es;
      '(b, s) ← peek s es (lit ")");
      (if negb b then sh_panic "syntax - missing )" else mret tt);;
      '(_, _, _, s) ← gettoken s es;
      parseredirs cmd s es
  end.

(** A node points only to nodes that are older, so a node with pointer [p]
    is the root of a tree of depth at most [p]. *)
Fixpoint nulterminate_rec (fuel : nat) (cmd : Z) : M Sh unit :=
  match fuel with
  | O => out_of_fuel
  | S fuel =>
      if cmd =? 0 then mret tt else
      c ← get_cmd cmd;
      match c with
      | EXEC argv eargv =>
          while (fun i =>
            match argv !! i, eargv !! i with
            | Some a, Some e => if a =? 0 then mret (inr tt) else usr (st8 e 0);; mret (inl (S i))
            | _, _ => fault
            end) 0%nat
      | REDIR sub file efile mode fd => nulterminate_rec fuel sub;; usr (st8 efile 0)
      | PIPE lcmd rcmd => nulterminate_rec fuel lcmd;; nulterminate_rec fuel rcmd
      | LIST lcmd rcmd => nulterminate_rec fuel lcmd;; nulterminate_rec fuel rcmd
      | BACK sub => nulterminate_rec fuel sub
      end
  end.

Definition nulterminate (cmd : Z) : M Sh Z := nulterminate_rec (S (Z.to_nat cmd)) cmd;; mret cmd.

(** A text of [n] characters nests at most [n] parentheses, and each level
    goes through the four parsers. *)
Definition parsecmd (s : Z) : M Sh Z :=
  n ← usr (strlen s);
  let es := s + n in
  '(cmd, s) ← parseline (4 * Z.to_nat n + 4) s es;
  '(_, s) ← peek s es [];
  (if negb (s =? es) then
     usr (fprintf 2 ("leftovers: %s" +:+ newline) [s]);;
     sh_panic "syntax"
   else mret tt);;
  nulterminate cmd;;
  mret cmd.

(** ** Running commands *)

(** [p] is the address of the array of [runcmd] for the ends of a pipe. *)
Section runcmd.
Variable p : Z.

Definition load_int (a : Z) : M Sh Z := s ← get; mret (i32 (load32 (u_mem (sh_u s)) a)).

(** The strings of a null-terminated argument vector. *)
Fixpoint args (argv : list Z) : M U (list (list Z)) :=
  match argv with
  | [] => fault
  | a :: argv' => if a =? 0 then mret [] else l ← getstr a; ls ← args argv'; mret (l :: ls)
  end.

(** One end of a pipe becomes descriptor [fd]. *)
Definition use_end (fd : Z) (e : Z) : M Sh unit :=
  usr (close fd);;
  x ← load_int e; usr (dup x);;
  p0 ← load_int p; usr (close p0);;
  p1 ← load_int (p + 4); usr (close p1);;
  mret tt.

Fixpoint runcmd_rec (fuel : nat) (cmd : Z) : M Sh unit :=
  match fuel with
  | O => out_of_fuel
  | S fuel =>
      (if cmd =? 0 then usr (exit 1) else mret tt);;
      c ← get_cmd cmd;
      match c with
      | EXEC argv _ =>
          match argv with
          | a0 :: _ =>
              if a0 =? 0 then usr (exit 1) else
              path ← usr (getstr a0);
              argv ← usr (args argv);
              usr (exec path argv);;
              usr (fprintf 2 ("exec %s failed" +:+ newline) [a0])
          | [] => fault
          end
      | REDIR sub file _ mode fd =>
          usr (close fd);;
          path ← usr (getstr file);
          r ← usr (open path mode);
          (if r <? 0 then
             usr (fprintf 2 ("open %s failed" +:+ newline) [file]);;
             usr (exit 1)
           else mret tt);;
          runcmd_rec fuel sub
      | LIST lcmd rcmd =>
          pid ← fork1;
          (if pid =? 0 then runcmd_rec fuel lcmd else mret tt);;
          usr (wait 0);;
          runcmd_rec fuel rcmd
      | PIPE lcmd rcmd =>
          r ← usr (pipe p);
          (if r <? 0 then sh_panic "pipe" else mret tt);;
          pid ← fork1;
          (if pid =? 0 then use_end 1 (p + 4);; runcmd_rec fuel lcmd else mret tt);;
          pid ← fork1;
          (if pid =? 0 then use_end 0 p;; runcmd_rec fuel rcmd else mret tt);;
          p0 ← load_int p; usr (close p0);;
          p1 ← load_int (p + 4); usr (close p1);;
          usr (wait 0);;
          usr (wait 0);;
          mret tt
      | BACK sub =>
          pid ← fork1;
          if pid =? 0 then runcmd_rec fuel sub else mret tt
      end;;
      usr (exit 0)
  end.

Definition runcmd (cmd : Z) : M Sh unit := runcmd_rec (S (Z.to_nat cmd)) cmd.

End runcmd.

(** ** The loop over commands *)

Section main.
(** The addresses of [static char buf[100]] and of [p] in [runcmd]. *)
Variables (buf p : Z).

Definition getcmd (nbuf : Z) : M Sh Z :=
  usr (call0 (CWrite 2 (lit "$ ")));;
  usr (memset buf 0 nbuf);;
  usr (gets buf nbuf);;
  c ← usr (ld8 buf);
  mret (if c =? 0 then -1 else 0).

Definition cd_line : M Sh bool :=
  c0 ← usr (ld8 buf);
  c1 ← usr (ld8 (buf + 1));
  c2 ← usr (ld8 (buf + 2));
  mret ((c0 =? 99) && (c1 =? 100) && (c2 =? 32)).

Definition sh_main : M Sh unit :=
  while (fun _ : unit =>
    fd ← usr (open (lit "console") O_RDWR);
    if negb (0 <=? fd) then mret (inr tt) else
    if 3 <=? fd then usr (close fd);; mret (inr tt) else mret (inl tt)) tt;;
  while (fun _ : unit =>
    r ← getcmd 100;
    if negb (0 <=? r) then mret (inr tt) else
    b ← cd_line;
    if (b : bool) then
      n ← usr (strlen buf);
      usr (st8 (buf + (n - 1)) 0);;
      path ← usr (getstr (buf + 3));
      r ← usr (chdir path);
      (if r <? 0 then usr (fprintf 2 ("cannot cd %s" +:+ newline) [buf + 3]) else mret tt);;
      mret (inl tt)
    else
      pid ← fork1;
      (if pid =? 0 then cmd ← parsecmd buf; runcmd p cmd else mret tt);;
      usr (wait 0);;
      mret (inl tt)) tt;;
  usr (exit 0).

End main.

End sh.
