(* ===== verification/ShLex.v ===== *)
(** * ShLex: the tokens of a command line

    A reference lexer, and the proof that [gettoken] and [peek] of
    [user/sh.c] walk through its tokens. *)

From stdpp Require Import base list gmap strings.
From Stdlib Require Import ZArith Lia.
From S2P Require Import Prelude CMem User Ulib UlibSpec Sh.

#[local] Set Warnings "-clear-no-such-hyp".

(** ** Tokens *)

(** A symbol, or a word with its first address and the one behind it; [+] is
    the token for two [>]. *)
Inductive tok := Sym (k : Z) | Word (q e : Z).

Fixpoint span (f : Z -> bool) (l : list Z) : list Z * list Z :=
  match l with
  | [] => ([], [])
  | c :: l' => if f c then (c :: (span f l').1, (span f l').2) else ([], l)
  end.
Definition dropw (f : Z -> bool) (l : list Z) : list Z := (span f l).2.

(** The first token of the text [l] that ends at [es], and the rest. *)
Definition lex1 (es : Z) (l : list Z) : option (tok * list Z) :=
  let l := dropw is_space l in
  match l with
  | [] => None
  | c :: l' =>
      Some (if among c (lit "|();&<") then (Sym c, l')
            else if c =? 62 then
              match l' with
              | d :: l'' => if d =? 62 then (Sym 43, l'') else (Sym 62, l')
              | [] => (Sym 62, l')
              end
            else (Word (es - Z.of_nat (length l)) (es - Z.of_nat (length (dropw is_word l))), dropw is_word l))
  end.

Fixpoint lex (n : nat) (es : Z) (l : list Z) : list tok :=
  match n with
  | O => []
  | S n => match lex1 es l with None => [] | Some (t, r) => t :: lex n es r end
  end.

Definition toks (es : Z) (l : list Z) : list tok := lex (length l) es l.

Lemma span_app f l : l = (span f l).1 ++ (span f l).2.
Proof. induction l as [|c l IH]; cbn; [done|]. destruct (f c); cbn; [by f_equal|done]. Qed.

Lemma span_all f l : Forall (fun c => f c = true) (span f l).1.
Proof. induction l as [|c l IH]; cbn; [constructor|]. destruct (f c) eqn:E; cbn; by constructor. Qed.

Lemma dropw_head f l c l' : dropw f l = c :: l' -> f c = false.
Proof.
  unfold dropw. induction l as [|x l IH]; cbn; [done|]. destruct (f x) eqn:E; cbn; [done|]. by intros [= -> _].
Qed.

Lemma dropw_length f l : (length (dropw f l) <= length l)%nat.
Proof. unfold dropw. rewrite (span_app f l) at 2. rewrite length_app. lia. Qed.

Lemma dropw_idem f l : dropw f (dropw f l) = dropw f l.
Proof.
  destruct (dropw f l) as [|c l'] eqn:E; [done|]. apply dropw_head in E. unfold dropw. cbn. by rewrite E.
Qed.

Lemma dropw_cons f c l : f c = true -> dropw f (c :: l) = dropw f l.
Proof. intros E. unfold dropw. cbn. by rewrite E. Qed.

Lemma dropw_stop f c l : f c = false -> dropw f (c :: l) = c :: l.
Proof. intros E. unfold dropw. cbn. by rewrite E. Qed.

(** A character that starts no symbol and is no blank is part of a word. *)
Lemma word_char c : is_space c = false -> among c (lit "|();&<") = false -> c <> 62 -> is_word c = true.
Proof.
  unfold is_space, is_word, among. intros E1 E2 E3. rewrite E1. cbn [negb andb]. apply negb_true_iff, bool_decide_eq_false.
  apply bool_decide_eq_false in E2. intros Hin. apply E2. revert Hin. unfold symbols, lit. cbn. set_solver.
Qed.

Lemma lex1_shorter es l t r : lex1 es l = Some (t, r) -> (length r < length l)%nat.
Proof.
  unfold lex1. pose proof (dropw_length is_space l) as Hl. destruct (dropw is_space l) as [|c l'] eqn:E; [done|].
  apply dropw_head in E. cbn [length] in Hl. intros [= Hr].
  destruct (among c (lit "|();&<")) eqn:E1; [injection Hr as <- <-; lia|].
  destruct (Z.eqb_spec c 62) as [-> |Hc].
  { destruct l' as [|d l'']; [|destruct (d =? 62)]; injection Hr as <- <-; cbn in *; lia. }
  injection Hr as <- <-. rewrite dropw_cons by (by apply word_char). pose proof (dropw_length is_word l'). lia.
Qed.

Lemma lex_enough n es l : (length l <= n)%nat -> lex n es l = toks es l.
Proof.
  unfold toks. remember (length l) as k eqn:Ek. assert (length l <= k)%nat as Hk by lia. clear Ek. revert n l Hk.
  induction k as [|k IH]; intros n l Hk Hn.
  - destruct l; [|cbn in Hk; lia]. by destruct n.
  - destruct n as [|n]; [lia|]. cbn [lex]. destruct (lex1 es l) as [[t r]|] eqn:E; [|done].
    pose proof (lex1_shorter _ _ _ _ E). f_equal. apply IH; lia.
Qed.

Lemma toks_cons es l t r : lex1 es l = Some (t, r) -> toks es l = t :: toks es r.
Proof.
  intros E. pose proof (lex1_shorter _ _ _ _ E). unfold toks at 1. destruct (length l) as [|n] eqn:El; [lia|].
  cbn [lex]. rewrite E. f_equal. apply lex_enough. lia.
Qed.

Lemma toks_nil es l : lex1 es l = None -> toks es l = [].
Proof. intros E. unfold toks. destruct (length l); [done|]. cbn [lex]. by rewrite E. Qed.

Lemma lex1_space es l : lex1 es (dropw is_space l) = lex1 es l.
Proof. unfold lex1. by rewrite dropw_idem. Qed.

Lemma toks_space es l : toks es (dropw is_space l) = toks es l.
Proof.
  destruct (lex1 es l) as [[t r]|] eqn:E.
  - rewrite (toks_cons es l t r E). apply toks_cons. by rewrite lex1_space.
  - rewrite (toks_nil es l E). apply toks_nil. by rewrite lex1_space.
Qed.

(** The first character of a token, for [peek]; words have none that it
    asks for. *)
Definition starts (cs : list Z) (ts : list tok) : bool :=
  match ts with
  | Sym k :: _ => among (if k =? 43 then 62 else k) cs
  | _ => false
  end.

Section lexer.
Context `{Sys} (s0 : Z) (l : list Z).
#[local] Abbreviation es := (s0 + Z.of_nat (length l)).
Hypothesis Hlen : Z.of_nat (length l) < 2 ^ 31.

(** [s] points to the rest [r] of the text. *)
Definition at_ (s : Z) (r : list Z) : Prop := s = es - Z.of_nat (length r) /\ exists pre, l = pre ++ r.

Definition tokens_at (s : Z) (ts : list tok) : Prop := exists r, at_ s r /\ ts = toks es r.

Lemma at_char m s c r : str_at m s0 l -> at_ s (c :: r) -> rd8 m s = c /\ c <> 0 /\ s < es /\ at_ (s + 1) r.
Proof.
  intros [Hh Hz] [-> [pre E]]. assert (l !! length pre = Some c) as Hc by (by rewrite E, list_lookup_middle).
  assert (length l = length pre + S (length r))%nat as El by (rewrite E, length_app; done).
  cbn [length]. split_and!.
  - rewrite <- (Hh (length pre) c); [f_equal; lia|]. by apply lookup_app_l_Some.
  - by apply (Forall_lookup_1 _ _ _ _ Hz Hc).
  - lia.
  - split; [lia|]. exists (pre ++ [c]). by rewrite <- app_assoc.
Qed.

Lemma at_end m s : str_at m s0 l -> at_ s [] -> rd8 m s = 0 /\ s = es.
Proof.
  intros [Hh _] [-> _]. cbn [length]. split; [|lia]. rewrite <- (Hh (length l) 0); [f_equal; lia|].
  by rewrite lookup_app_r, Nat.sub_diag by lia.
Qed.

Lemma at_suffix s r1 r2 : at_ s (r1 ++ r2) -> at_ (es - Z.of_nat (length r2)) r2.
Proof. intros [_ [pre E]]. split; [done|]. exists (pre ++ r1). by rewrite <- app_assoc. Qed.

Lemma at_dropw f s r : at_ s r -> at_ (es - Z.of_nat (length (dropw f r))) (dropw f r).
Proof. intros Hat. unfold dropw. rewrite (span_app f r) in Hat. by eapply at_suffix. Qed.

Lemma wp_skip f s r (Q : Z -> Sh -> Prop) st :
  str_at (u_mem (sh_u st)) s0 l -> at_ s r ->
  (forall s', at_ s' (dropw f r) -> Q s' st) -> wp (skip f s es) Q st.
Proof.
  intros Hm Hat HQ. unfold skip.
  apply (wp_while_idx (fun k s' st' => st' = st /\ exists r', k = length r' /\ at_ s' r' /\ dropw f r' = dropw f r)) with (k := length r).
  - intros k s' st' (-> & r' & -> & Hat' & Hd). destruct r' as [|c r'].
    + destruct (at_end _ _ Hm Hat') as [_ ->]. rewrite Z.ltb_irrefl. cbn [negb]. wp_steps. apply HQ. by rewrite <- Hd.
    + destruct (at_char _ _ _ _ Hm Hat') as (Hc & _ & Hlt & Hnext). rewrite (proj2 (Z.ltb_lt _ _)) by done. cbn [negb]. wp_steps. unfold usr. wp_steps.
      cbn [lget Uof lset]. rewrite Hc. destruct (f c) eqn:Ef.
      * exists (length r'). split; [cbn; lia|]. split; [by destruct st|]. exists r'. rewrite dropw_cons in Hd by done. done.
      * rewrite dropw_stop in Hd by done. rewrite <- Hd in HQ. destruct st. by apply HQ.
  - split; [done|]. by exists r.
  - apply lt_fuel. assert (length r <= length l)%nat; [|lia]. destruct Hat as [_ [pre ->]]. rewrite length_app. lia.
Qed.

Lemma wp_usr_ld8 a (Q : Z -> Sh -> Prop) st : Q (rd8 (u_mem (sh_u st)) a) st -> wp (usr (ld8 a)) Q st.
Proof. intros HQ. unfold usr. wp_steps. by destruct st. Qed.

Lemma wp_gettoken s ts (Q : Z * Z * Z * Z -> Sh -> Prop) st :
  str_at (u_mem (sh_u st)) s0 l -> tokens_at s ts ->
  match ts with
  | [] => forall q e s', tokens_at s' [] -> Q (0, q, e, s') st
  | Sym k :: ts' => forall q e s', tokens_at s' ts' -> Q (k, q, e, s') st
  | Word q e :: ts' => forall s', tokens_at s' ts' -> Q (97, q, e, s') st
  end -> wp (gettoken s es) Q st.
Proof.
  intros Hm (r & Hat & ->) HQ. unfold gettoken. wp_steps. apply (wp_skip _ _ r); [done|done|]. intros s1 Hs1. wp_steps.
  destruct (lex1 es r) as [[t r']|] eqn:E; [rewrite (toks_cons _ _ _ _ E) in HQ|rewrite (toks_nil _ _ E) in HQ]; unfold lex1 in E;
    destruct (dropw is_space r) as [|c l1] eqn:Ed; try done; apply wp_usr_ld8.
  2: { destruct (at_end _ _ Hm Hs1) as [-> _]. change (0 =? 0) with true. wp_steps. apply (wp_skip _ _ []); [done|done|]. intros s2 Hs2. wp_steps.
       apply HQ. by exists []. }
  destruct (at_char _ _ _ _ Hm Hs1) as (Hc & Hc0 & _ & Hs1'). rewrite Hc, (proj2 (Z.eqb_neq _ _)) by done.
  assert (forall s2 r2 (k q e : Z), at_ s2 r2 -> (forall s', tokens_at s' (toks es r2) -> Q (k, q, e, s') st) ->
    wp (s ← skip is_space s2 es; mret (k, q, e, s)) Q st) as Hfin.
  { intros s2 r2 k q e Hs2 HQ'. wp_steps. apply (wp_skip _ _ r2); [done|done|]. intros s3 Hs3. wp_steps. apply HQ'.
    exists (dropw is_space r2). split; [done|]. by rewrite toks_space. }
  injection E as E. destruct (among c (lit "|();&<")).
  { injection E as <- <-. apply wp_bind, wp_ret. apply (Hfin _ l1); [done|]. intros s' Hs'. by apply HQ. }
  destruct (Z.eqb_spec c 62) as [-> |Hne].
  { apply wp_bind, wp_bind, wp_usr_ld8. destruct l1 as [|d l2].
    - destruct (at_end _ _ Hm Hs1') as [-> _]. change (0 =? 62) with false. apply wp_ret. injection E as <- <-.
      apply (Hfin _ []); [done|]. intros s' Hs'. by apply HQ.
    - destruct (at_char _ _ _ _ Hm Hs1') as (-> & _ & _ & Hs1''). destruct (d =? 62); apply wp_ret; injection E as <- <-.
      + apply (Hfin _ l2); [done|]. intros s' Hs'. by apply HQ.
      + apply (Hfin _ (d :: l2)); [done|]. intros s' Hs'. by apply HQ. }
  injection E as <- <-. apply wp_bind, wp_bind. apply (wp_skip _ _ (c :: l1)); [done|done|]. intros s2 Hs2. apply wp_ret.
  apply (Hfin _ (dropw is_word (c :: l1))); [done|]. intros s' Hs'. destruct Hs1 as [-> _], Hs2 as [-> _]. by apply HQ.
Qed.

Lemma wp_peek s ts cs (Q : bool * Z -> Sh -> Prop) st :
  str_at (u_mem (sh_u st)) s0 l -> tokens_at s ts -> Forall (fun c => c ∈ symbols) cs ->
  (forall s', tokens_at s' ts -> (cs = [] -> (s' = es <-> ts = [])) -> Q (starts cs ts, s') st) -> wp (peek s es cs) Q st.
Proof.
  intros Hm (r & Hat & ->) Hcs HQ. unfold peek. wp_steps. apply (wp_skip _ _ r); [done|done|]. intros s1 Hs1. wp_steps. apply wp_usr_ld8.
  assert (tokens_at s1 (toks es r)) as Hta by (exists (dropw is_space r); split; [done|by rewrite toks_space]).
  assert (forall b, b = starts cs (toks es r) -> (s1 = es <-> toks es r = []) -> Q (b, s1) st) as HQ' by (intros b -> Hes; by apply HQ).
  destruct (lex1 es r) as [[t r']|] eqn:E.
  - rewrite (toks_cons _ _ _ _ E) in *. unfold lex1 in E. destruct (dropw is_space r) as [|c l1] eqn:Ed; [done|]. apply dropw_head in Ed.
    destruct (at_char _ _ _ _ Hm Hs1) as (-> & Hc0 & Hlt & _). wp_steps. apply HQ'; [|split; [lia|done]].
    rewrite (proj2 (Z.eqb_neq _ _)) by done. cbn [negb andb]. injection E as E. destruct (among c (lit "|();&<")) eqn:E1.
    { injection E as <- <-. cbn [starts]. destruct (Z.eqb_spec c 43) as [-> |]; [done|done]. }
    destruct (Z.eqb_spec c 62) as [-> |Hne].
    { destruct l1 as [|d l2]; [|destruct (d =? 62)]; by injection E as <- <-. }
    injection E as <- <-. cbn [starts]. apply bool_decide_eq_false. intros Hin. rewrite Forall_forall in Hcs. apply Hcs in Hin.
    pose proof (word_char c Ed E1 Hne) as Hw. unfold is_word, among in Hw. apply andb_true_iff in Hw as [_ Hw]. by rewrite bool_decide_true in Hw.
  - rewrite (toks_nil _ _ E) in *. unfold lex1 in E. destruct (dropw is_space r) as [|c l1] eqn:Ed; [|done].
    destruct (at_end _ _ Hm Hs1) as [-> ->]. change (0 =? 0) with true. wp_steps. by apply HQ'.
Qed.

(** What the tokens of the text are: symbols, and maximal runs of word
    characters. *)
Definition char_at (x : Z) : Z := nth (Z.to_nat (x - s0)) l 0.
Definition tok_ok (t : tok) : Prop :=
  match t with
  | Sym k => k ∈ [124; 40; 41; 59; 38; 60; 62; 43]
  | Word q e => s0 <= q < e /\ e <= es /\ (forall x, q <= x < e -> is_word (char_at x) = true) /\ (e = es \/ is_word (char_at e) = false)
  end.

Lemma char_at_nth s r i : at_ s r -> (i < length r)%nat -> char_at (s + Z.of_nat i) = nth i r 0.
Proof.
  intros [-> [pre E]] Hi. unfold char_at.
  assert (length l = length pre + length r)%nat as El by (by rewrite E, length_app).
  replace (Z.to_nat (es - Z.of_nat (length r) + Z.of_nat i - s0)) with (length pre + i)%nat by lia.
  rewrite E, app_nth2 by lia. f_equal. lia.
Qed.

Lemma lex1_ok s r t r' : at_ s r -> lex1 es r = Some (t, r') -> tok_ok t /\ at_ (es - Z.of_nat (length r')) r'.
Proof.
  intros Hat E. unfold lex1 in E. apply (at_dropw is_space) in Hat. destruct (dropw is_space r) as [|c l1] eqn:Ed; [done|].
  apply dropw_head in Ed. injection E as E. pose proof (at_suffix _ [c] l1 Hat) as Hat1.
  destruct (among c (lit "|();&<")) eqn:E1.
  { injection E as <- <-. split; [|done]. apply bool_decide_eq_true in E1. cbn. revert E1. unfold lit. cbn. set_solver. }
  destruct (Z.eqb_spec c 62) as [-> |Hne].
  { destruct l1 as [|d l2]; [|destruct (d =? 62)]; injection E as <- <-; (split; [cbn; set_solver|]); [done|by eapply (at_suffix _ [d])|done]. }
  injection E as <- <-. pose proof (word_char c Ed E1 Hne) as Hw. split; [|by eapply at_dropw].
  pose proof (span_app is_word (c :: l1)) as Hsp. pose proof (span_all is_word (c :: l1)) as Hall. fold (dropw is_word (c :: l1)) in Hsp.
  set (w := (span is_word (c :: l1)).1) in *. set (r2 := dropw is_word (c :: l1)) in *.
  assert (length (c :: l1) = length w + length r2)%nat as Hl by (by rewrite Hsp at 1; rewrite length_app).
  assert (1 <= length w)%nat as Hw1 by (unfold w; cbn; rewrite Hw; cbn; lia).
  assert (length (c :: l1) <= length l)%nat as Hll by (destruct Hat as [_ [pre ->]]; rewrite length_app; lia).
  destruct Hat as [Hs Hpre]. 
  change (s0 <= es - Z.of_nat (length (c :: l1)) < es - Z.of_nat (length r2) /\ es - Z.of_nat (length r2) <= es /\
    (forall x, es - Z.of_nat (length (c :: l1)) <= x < es - Z.of_nat (length r2) -> is_word (char_at x) = true) /\
    (es - Z.of_nat (length r2) = es \/ is_word (char_at (es - Z.of_nat (length r2))) = false)).
  split; [lia|]. split; [lia|]. split.
  - intros x Hx. assert (exists i, x = es - Z.of_nat (length (c :: l1)) + Z.of_nat i /\ (i < length w)%nat) as (i & -> & Hi).
    { exists (Z.to_nat (x - (es - Z.of_nat (length (c :: l1))))). lia. }
    rewrite (char_at_nth _ (c :: l1)) by (done || lia). rewrite Hsp, app_nth1 by done.
    rewrite Forall_forall in Hall. apply Hall. apply list_elem_of_In, nth_In. done.
  - destruct r2 as [|d r3] eqn:Er2; [left; cbn; lia|]. right. pose proof (dropw_head is_word (c :: l1) d r3 Er2) as Hd.
    pose proof (char_at_nth (es - Z.of_nat (length (c :: l1))) (c :: l1) (length w) (conj Hs Hpre) ltac:(cbn [length] in *; lia)) as Hc.
    replace (es - Z.of_nat (length (d :: r3))) with (es - Z.of_nat (length (c :: l1)) + Z.of_nat (length w)) by lia.
    rewrite Hc, Hsp, app_nth2, Nat.sub_diag by lia. done.
Qed.

Lemma toks_ok s ts : tokens_at s ts -> Forall tok_ok ts.
Proof.
  intros (r & Hat & ->). remember (length r) as n eqn:En. assert (length r <= n)%nat as Hn by lia. clear En. revert s r Hat Hn.
  induction n as [|n IH]; intros s r Hat Hn; (destruct (lex1 es r) as [[t r']|] eqn:E; [|rewrite (toks_nil _ _ E); constructor]);
    pose proof (lex1_shorter _ _ _ _ E); [lia|].
  rewrite (toks_cons _ _ _ _ E). destruct (lex1_ok _ _ _ _ Hat E) as [Hok Hat']. constructor; [done|]. eapply IH; [exact Hat'|lia].
Qed.

Lemma toks_length s ts : tokens_at s ts -> (length ts <= length l)%nat.
Proof.
  intros (r & [_ [pre E]] & ->). assert (length (toks es r) <= length r)%nat as Hr; [|apply (f_equal length) in E; rewrite length_app in E; lia].
  clear E pre. remember (length r) as n eqn:En. assert (length r <= n)%nat as Hn by lia. clear En. revert r Hn.
  induction n as [|n IH]; intros r Hn; (destruct (lex1 es r) as [[t r']|] eqn:E; [|rewrite (toks_nil _ _ E); cbn; lia]);
    pose proof (lex1_shorter _ _ _ _ E); [lia|].
  rewrite (toks_cons _ _ _ _ E). cbn. specialize (IH r' ltac:(lia)). lia.
Qed.

End lexer.
