(* ===== verification/ShGrammar.v ===== *)
(** * ShGrammar: the grammar of commands

    The grammar of the shell as a type of syntax trees, a parser on lists of
    tokens, and the proof that the parser finds exactly the syntax trees. *)

From stdpp Require Import base list gmap strings.
From Stdlib Require Import ZArith Lia.
From S2P Require Import Prelude Ulib Sh ShLex.

(** ** Syntax

    A line is a pipeline with ampersands, and maybe a semicolon and another
    line; a pipeline is one or more commands; a command is a sequence of words
    and redirections in any order, or a line in parentheses followed by
    redirections.  A redirection is its symbol and the word after it. *)

Notation word := (Z * Z)%type (only parsing).
Notation redir := (Z * Z * Z)%type (only parsing).

Inductive item := IWord (q e : Z) | IRedir (k q e : Z).

Inductive cline := LEnd (p : cpipe) (n : nat) | LSeq (p : cpipe) (n : nat) (c : cline)
with cpipe := POne (x : cexec) | PMore (x : cexec) (p : cpipe)
with cexec := XSimple (its : list item) | XBlock (c : cline) (rs : list redir).

Scheme cline_mut := Induction for cline Sort Prop
with cpipe_mut := Induction for cpipe Sort Prop
with cexec_mut := Induction for cexec Sort Prop.
Combined Scheme syntax_ind from cline_mut, cpipe_mut, cexec_mut.

Definition redir_toks (r : redir) : list tok := [Sym r.1.1; Word r.1.2 r.2].

Definition item_toks (it : item) : list tok :=
  match it with IWord q e => [Word q e] | IRedir k q e => redir_toks (k, q, e) end.

Fixpoint line_toks (c : cline) : list tok :=
  match c with
  | LEnd p n => pipe_toks p ++ replicate n (Sym 38)
  | LSeq p n c => pipe_toks p ++ replicate n (Sym 38) ++ Sym 59 :: line_toks c
  end
with pipe_toks (p : cpipe) : list tok :=
  match p with POne x => exec_toks x | PMore x p => exec_toks x ++ Sym 124 :: pipe_toks p end
with exec_toks (x : cexec) : list tok :=
  match x with
  | XSimple its => its ≫= item_toks
  | XBlock c rs => Sym 40 :: line_toks c ++ Sym 41 :: (rs ≫= redir_toks)
  end.

(** ** Commands *)

Inductive tree :=
| TExec (args : list word)
| TRedir (t : tree) (q e mode fd : Z)
| TPipe (t1 t2 : tree)
| TList (t1 t2 : tree)
| TBack (t : tree).

(** The mode and the descriptor of a redirection. *)
Definition rmode (k : Z) : Z :=
  if k =? 60 then O_RDONLY else if k =? 62 then Z.lor (Z.lor O_WRONLY O_CREATE) O_TRUNC else Z.lor O_WRONLY O_CREATE.
Definition rfd (k : Z) : Z := if k =? 60 then 0 else 1.

(** The redirections [rr] around [t], the outermost first. *)
Fixpoint wrap (t : tree) (rr : list redir) : tree :=
  match rr with
  | [] => t
  | (k, q, e) :: rr' => TRedir (wrap t rr') q e (rmode k) (rfd k)
  end.

Definition item_word (it : item) : option word := match it with IWord q e => Some (q, e) | _ => None end.
Definition item_redir (it : item) : option redir := match it with IRedir k q e => Some (k, q, e) | _ => None end.

Fixpoint back (n : nat) (t : tree) : tree := match n with O => t | S n => back n (TBack t) end.

Fixpoint line_tree (c : cline) : tree :=
  match c with
  | LEnd p n => back n (pipe_tree p)
  | LSeq p n c => TList (back n (pipe_tree p)) (line_tree c)
  end
with pipe_tree (p : cpipe) : tree :=
  match p with POne x => exec_tree x | PMore x p => TPipe (exec_tree x) (pipe_tree p) end
with exec_tree (x : cexec) : tree :=
  match x with
  | XSimple its => wrap (TExec (omap item_word its)) (rev (omap item_redir its))
  | XBlock c rs => wrap (line_tree c) (rev rs)
  end.

(** The symbols of redirections are [<], [>] and [>>], and no command has
    [MAXARGS] words. *)
Definition is_redir (k : Z) : bool := (k =? 60) || (k =? 62) || (k =? 43).

Fixpoint line_ok (c : cline) : Prop :=
  match c with
  | LEnd p n => pipe_ok p
  | LSeq p n c => pipe_ok p /\ line_ok c
  end
with pipe_ok (p : cpipe) : Prop :=
  match p with POne x => exec_ok x | PMore x p => exec_ok x /\ pipe_ok p end
with exec_ok (x : cexec) : Prop :=
  match x with
  | XSimple its => Forall (fun r => is_redir r.1.1 = true) (omap item_redir its) /\ (length (omap item_word its) < MAXARGS)%nat
  | XBlock c rs => line_ok c /\ Forall (fun r => is_redir r.1.1 = true) rs
  end.

(** ** The parser on tokens *)

Inductive pres (A : Type) := Found (a : A) (ts : list tok) | Wrong | Deep.
Arguments Found {A} a ts.
Arguments Wrong {A}.
Arguments Deep {A}.

Definition pbind {A B} (r : pres A) (f : A -> list tok -> pres B) : pres B :=
  match r with Found a ts => f a ts | Wrong => Wrong | Deep => Deep end.

Fixpoint predirs (rr : list redir) (ts : list tok) : pres (list redir) :=
  match ts with
  | Sym k :: ts1 =>
      if is_redir k then
        match ts1 with Word q e :: ts2 => predirs ((k, q, e) :: rr) ts2 | _ => Wrong end
      else Found rr ts
  | _ => Found rr ts
  end.

Fixpoint pitems (args : list word) (rr : list redir) (ts : list tok) : pres (list word * list redir) :=
  match ts with
  | [] => Found (args, rr) []
  | Sym k :: ts1 =>
      if is_redir k then
        match ts1 with Word q e :: ts2 => pitems args ((k, q, e) :: rr) ts2 | _ => Wrong end
      else if among k (lit "|)&;") then Found (args, rr) ts else Wrong
  | Word q e :: ts1 => if (MAXARGS <=? S (length args))%nat then Wrong else pitems (args ++ [(q, e)]) rr ts1
  end.

Fixpoint pback (t : tree) (ts : list tok) : tree * list tok :=
  match ts with
  | Sym k :: ts' => if k =? 38 then pback (TBack t) ts' else (t, ts)
  | _ => (t, ts)
  end.

(** The rest after the symbol [k]. *)
Definition after (k : Z) (ts : list tok) : option (list tok) :=
  match ts with Sym k' :: ts' => if k' =? k then Some ts' else None | _ => None end.

Fixpoint pline (n : nat) (ts : list tok) : pres tree :=
  match n with
  | O => Deep
  | S n =>
      pbind (ppipe n ts) (fun t ts =>
        let '(t, ts) := pback t ts in
        match after 59 ts with
        | Some ts' => pbind (pline n ts') (fun t' ts => Found (TList t t') ts)
        | None => Found t ts
        end)
  end
with ppipe (n : nat) (ts : list tok) : pres tree :=
  match n with
  | O => Deep
  | S n =>
      pbind (pexec n ts) (fun t ts =>
        match after 124 ts with
        | Some ts' => pbind (ppipe n ts') (fun t' ts => Found (TPipe t t') ts)
        | None => Found t ts
        end)
  end
with pexec (n : nat) (ts : list tok) : pres tree :=
  match n with
  | O => Deep
  | S n =>
      match after 40 ts with
      | Some _ => pblock n ts
      | None => pbind (pitems [] [] ts) (fun '(args, rr) ts => Found (wrap (TExec args) rr) ts)
      end
  end
with pblock (n : nat) (ts : list tok) : pres tree :=
  match n with
  | O => Deep
  | S n =>
      match after 40 ts with
      | None => Wrong
      | Some ts =>
          pbind (pline n ts) (fun t ts =>
            match after 41 ts with
            | None => Wrong
            | Some ts => pbind (predirs [] ts) (fun rr ts => Found (wrap t rr) ts)
            end)
      end
  end.

(** ** The parser finds syntax trees *)

Lemma after_Some k ts ts' : after k ts = Some ts' <-> ts = Sym k :: ts'.
Proof.
  destruct ts as [|[k'|q e] ts1]; cbn; [done| |done]. destruct (Z.eqb_spec k' k) as [-> |Hne]; [naive_solver|].
  split; [done|]. by intros [= ? _].
Qed.

Lemma predirs_sound rr ts rr' ts' :
  predirs rr ts = Found rr' ts' -> exists rs, ts = (rs ≫= redir_toks) ++ ts' /\ rr' = rev rs ++ rr /\ Forall (fun r => is_redir r.1.1 = true) rs.
Proof.
  remember (length ts) as n eqn:En. assert (length ts <= n)%nat as Hn by lia. clear En. revert rr ts Hn.
  induction n as [|n IH]; intros rr ts Hn; (destruct ts as [|[k|q e] ts1]; cbn [predirs]; [intros [= <- <-]; by exists []| |intros [= <- <-]; by exists []]).
  { cbn in Hn. lia. }
  destruct (is_redir k) eqn:Ek; [|intros [= <- <-]; by exists []]. destruct ts1 as [|[|q e] ts2]; try done. intros Hp.
  assert (length ts2 <= n)%nat as Hn2 by (cbn in Hn; lia). destruct (IH _ _ Hn2 Hp) as (rs & -> & -> & Hrs). exists ((k, q, e) :: rs).
  split; [done|]. cbn [rev]. rewrite <- app_assoc. split; [done|]. by constructor.
Qed.

Lemma pitems_sound args rr ts args' rr' ts' :
  pitems args rr ts = Found (args', rr') ts' -> (length args < MAXARGS)%nat ->
  exists its, ts = (its ≫= item_toks) ++ ts' /\ args' = args ++ omap item_word its /\ rr' = rev (omap item_redir its) ++ rr /\
    Forall (fun r => is_redir r.1.1 = true) (omap item_redir its) /\ (length args' < MAXARGS)%nat.
Proof.
  remember (length ts) as n eqn:En. assert (length ts <= n)%nat as Hn by lia. clear En. revert args rr ts Hn.
  induction n as [|n IH]; intros args rr ts Hn; (destruct ts as [|[k|q e] ts1]; cbn [pitems];
    [intros [= <- <- <-] Ha; exists []; cbn; by rewrite app_nil_r| |]); try (cbn in Hn; lia).
  - destruct (is_redir k) eqn:Ek.
    + destruct ts1 as [|[|q e] ts2]; try done. intros Hp Ha. assert (length ts2 <= n)%nat as Hn2 by (cbn in Hn; lia). destruct (IH _ _ _ Hn2 Hp Ha) as (its & -> & -> & -> & Hr & Hl).
      exists (IRedir k q e :: its). cbn. rewrite <- app_assoc. split_and!; try done. by constructor.
    + destruct (among k (lit "|)&;")); [|done]. intros [= <- <- <-] Ha. exists []. cbn. by rewrite app_nil_r.
  - destruct (Nat.leb_spec MAXARGS (S (length args))); [done|]. intros Hp Ha.
    assert (length ts1 <= n)%nat as Hn2 by (cbn in Hn; lia).
    destruct (IH _ _ _ Hn2 Hp ltac:(rewrite length_app; cbn; lia)) as (its & -> & -> & -> & Hr & Hl).
    exists (IWord q e :: its). cbn. rewrite <- app_assoc in *. done.
Qed.

Lemma pback_sound t ts : exists n, ts = replicate n (Sym 38) ++ (pback t ts).2 /\ (pback t ts).1 = back n t.
Proof.
  revert t. induction ts as [|[k|q e] ts IH]; intros t; cbn [pback]; [by exists 0%nat| |by exists 0%nat].
  destruct (Z.eqb_spec k 38) as [-> |]; [|by exists 0%nat]. destruct (IH (TBack t)) as (n & Hts & Ht). exists (S n). cbn. by rewrite <- Hts.
Qed.

Lemma parse_sound n :
  (forall ts t ts', pline n ts = Found t ts' -> exists c, ts = line_toks c ++ ts' /\ t = line_tree c /\ line_ok c) /\
  (forall ts t ts', ppipe n ts = Found t ts' -> exists p, ts = pipe_toks p ++ ts' /\ t = pipe_tree p /\ pipe_ok p) /\
  (forall ts t ts', pexec n ts = Found t ts' -> exists x, ts = exec_toks x ++ ts' /\ t = exec_tree x /\ exec_ok x) /\
  (forall ts t ts', pblock n ts = Found t ts' -> exists x, ts = exec_toks x ++ ts' /\ t = exec_tree x /\ exec_ok x).
Proof.
  induction n as [|n (IHl & IHp & IHx & IHb)]; [done|]. split_and!; intros ts t ts'; cbn [pline ppipe pexec pblock].
  - destruct (ppipe n ts) as [t1 ts1| |] eqn:E1; cbn [pbind]; [|done..]. destruct (IHp _ _ _ E1) as (p & -> & -> & Hp).
    destruct (pback_sound (pipe_tree p) ts1) as (k & Hts1 & Ht1). destruct (pback (pipe_tree p) ts1) as [t2 ts2] eqn:E2. cbn in Hts1, Ht1. subst t2.
    destruct (after 59 ts2) as [ts3|] eqn:E3.
    + apply after_Some in E3. subst ts2. destruct (pline n ts3) as [t4 ts4| |] eqn:E4; cbn [pbind]; [|done..]. intros [= <- <-].
      destruct (IHl _ _ _ E4) as (c & -> & -> & Hc). exists (LSeq p k c). cbn. rewrite Hts1, <- !app_assoc. done.
    + intros [= <- <-]. exists (LEnd p k). cbn. by rewrite Hts1, <- app_assoc.
  - destruct (pexec n ts) as [t1 ts1| |] eqn:E1; cbn [pbind]; [|done..]. destruct (IHx _ _ _ E1) as (x & -> & -> & Hx).
    destruct (after 124 ts1) as [ts3|] eqn:E3.
    + apply after_Some in E3. subst ts1. destruct (ppipe n ts3) as [t4 ts4| |] eqn:E4; cbn [pbind]; [|done..]. intros [= <- <-].
      destruct (IHp _ _ _ E4) as (p & -> & -> & Hp). exists (PMore x p). cbn. by rewrite <- app_assoc.
    + intros [= <- <-]. by exists (POne x).
  - destruct (after 40 ts) as [ts1|] eqn:E1; [by apply IHb|]. destruct (pitems [] [] ts) as [[args rr] ts1| |] eqn:E2; cbn [pbind]; [|done..].
    intros [= <- <-]. destruct (pitems_sound _ _ _ _ _ _ E2) as (its & -> & -> & -> & Hr & Hl); [cbn; unfold MAXARGS; lia|].
    exists (XSimple its). cbn. by rewrite app_nil_r.
  - destruct (after 40 ts) as [ts1|] eqn:E1; [|done]. apply after_Some in E1. subst ts.
    destruct (pline n ts1) as [t1 ts2| |] eqn:E2; cbn [pbind]; [|done..]. destruct (after 41 ts2) as [ts3|] eqn:E3; [|done].
    apply after_Some in E3. subst ts2. destruct (predirs [] ts3) as [rr ts4| |] eqn:E4; cbn [pbind]; [|done..]. intros [= <- <-].
    destruct (IHl _ _ _ E2) as (c & -> & -> & Hc). destruct (predirs_sound _ _ _ _ E4) as (rs & -> & -> & Hrs).
    exists (XBlock c rs). cbn. rewrite app_nil_r, <- !app_assoc. done.
Qed.

(** ** The parser finds every syntax tree *)

(** What may follow a command in a text without errors. *)
Definition follow (ks : list Z) (ts : list tok) : Prop :=
  match ts with [] => True | Sym k :: _ => k ∈ ks | Word _ _ :: _ => False end.

Lemma follow_mono ks ks' ts : ks ⊆ ks' -> follow ks ts -> follow ks' ts.
Proof. destruct ts as [|[k|] ?]; cbn; set_solver. Qed.

Lemma follow_after ks k ts : follow ks ts -> k ∉ ks -> after k ts = None.
Proof.
  destruct ts as [|[k'|] ts']; cbn; [done| |done]. intros Hin Hn. destruct (Z.eqb_spec k' k) as [-> |]; done.
Qed.

Lemma not_redir k : k ∈ [124; 41; 38; 59] -> is_redir k = false /\ among k (lit "|)&;") = true.
Proof. intros Hk. repeat (apply elem_of_cons in Hk as [-> |Hk]; [done|]). by apply not_elem_of_nil in Hk. Qed.

Lemma predirs_complete rs rr ts :
  Forall (fun r => is_redir r.1.1 = true) rs -> follow [124; 41; 38; 59] ts ->
  predirs rr ((rs ≫= redir_toks) ++ ts) = Found (rev rs ++ rr) ts.
Proof.
  intros Hrs Hf. revert rr. induction rs as [|[[k q] e] rs IH]; intros rr; cbn.
  - destruct ts as [|[k|] ts']; cbn in *; [done| |done]. by destruct (not_redir k Hf) as [-> _].
  - apply Forall_cons in Hrs as [Hk Hrs]. cbn in Hk. rewrite Hk, (IH Hrs). by rewrite <- app_assoc.
Qed.

Lemma pitems_complete its args rr ts :
  Forall (fun r => is_redir r.1.1 = true) (omap item_redir its) -> (length args + length (omap item_word its) < MAXARGS)%nat ->
  follow [124; 41; 38; 59] ts ->
  pitems args rr ((its ≫= item_toks) ++ ts) = Found (args ++ omap item_word its, rev (omap item_redir its) ++ rr) ts.
Proof.
  intros Hr Hl Hf. revert args rr Hl. induction its as [|[q e|k q e] its IH]; intros args rr Hl; cbn -[Nat.leb].
  - rewrite app_nil_r. destruct ts as [|[k|] ts']; cbn in *; [done| |done]. destruct (not_redir k Hf) as [-> Hm]. cbn in Hm. by rewrite Hm.
  - cbn in Hr, Hl. destruct (Nat.leb_spec MAXARGS (S (length args))); [lia|]. rewrite IH; [by rewrite <- (app_assoc args)|done|].
    rewrite length_app. cbn. lia.
  - cbn in Hr, Hl. apply Forall_cons in Hr as [Hk Hr]. cbn in Hk. rewrite Hk, IH by done. by rewrite <- app_assoc.
Qed.

Lemma pback_complete n t ts : follow [124; 41; 59] ts -> pback t (replicate n (Sym 38) ++ ts) = (back n t, ts).
Proof.
  intros Hf. revert t. induction n as [|n IH]; intros t; cbn; [|by apply IH].
  destruct ts as [|[k|] ts']; cbn in *; [done| |done]. destruct (Z.eqb_spec k 38) as [-> |]; [set_solver|done].
Qed.

(** The parser's answer for the syntax tree with tree [t], unless the
    recursion is too deep. *)
Definition finds (r : pres tree) (t : tree) (ts : list tok) : Prop := r = Deep \/ r = Found t ts.

Lemma pbind_finds r t ts f t' ts' : finds r t ts -> finds (f t ts) t' ts' -> finds (pbind r f) t' ts'.
Proof. intros [-> | ->] Hf; cbn; [by left|done]. Qed.

Lemma item_toks_40 its ts : after 40 ((its ≫= item_toks) ++ ts) = None \/
  Exists (fun r => r.1.1 = 40) (omap item_redir its) \/ (its = [] /\ after 40 ts <> None).
Proof.
  destruct its as [|[q e|k q e] its]; cbn; [|by left|].
  - destruct (after 40 ts) eqn:E; [|by left]. right. by right.
  - destruct (Z.eqb_spec k 40) as [-> |]; [|by left]. right. left. by constructor.
Qed.

Lemma parse_complete :
  (forall c n ts, line_ok c -> follow [41] ts -> finds (pline n (line_toks c ++ ts)) (line_tree c) ts) /\
  (forall p n ts, pipe_ok p -> follow [41; 38; 59] ts -> finds (ppipe n (pipe_toks p ++ ts)) (pipe_tree p) ts) /\
  (forall x n ts, exec_ok x -> follow [124; 41; 38; 59] ts -> finds (pexec n (exec_toks x ++ ts)) (exec_tree x) ts).
Proof.
  apply syntax_ind.
  - intros p IH k [|n] ts Hok Hf; [by left|]. cbn. rewrite <- app_assoc.
    eapply pbind_finds; [apply IH; [done|]|].
    { destruct k; cbn; [|set_solver]. eapply follow_mono; [|exact Hf]. set_solver. }
    rewrite pback_complete by (eapply follow_mono; [|exact Hf]; set_solver).
    rewrite (follow_after _ 59 _ Hf) by set_solver. by right.
  - intros p IHp k c IHc [|n] ts [Hp Hc] Hf; [by left|]. cbn. rewrite <- !app_assoc. cbn.
    eapply pbind_finds; [apply IHp; [done|]|].
    { destruct k; cbn; set_solver. }
    rewrite pback_complete by (cbn; set_solver). cbn. eapply pbind_finds; [by apply IHc|]. by right.
  - intros x IH [|n] ts Hok Hf; [by left|]. cbn. eapply pbind_finds; [apply IH; [done|]|].
    { eapply follow_mono; [|exact Hf]. set_solver. }
    rewrite (follow_after _ 124 _ Hf) by set_solver. by right.
  - intros x IHx p IHp [|n] ts [Hx Hp] Hf; [by left|]. cbn. rewrite <- app_assoc. cbn.
    eapply pbind_finds; [apply IHx; [done|cbn; set_solver]|]. cbn. eapply pbind_finds; [by apply IHp|]. by right.
  - intros its [|n] ts [Hr Hl] Hf; [by left|]. cbn. destruct (item_toks_40 its ts) as [-> |[Hbad|[-> Hbad]]].
    + rewrite (pitems_complete its [] [] ts) by done. cbn. rewrite app_nil_r. by right.
    + exfalso. rewrite Forall_forall in Hr. apply Exists_exists in Hbad as (r & Hin & Hk). apply Hr in Hin. by rewrite Hk in Hin.
    + exfalso. apply Hbad. eapply follow_after; [exact Hf|]. set_solver.
  - intros c IH rs [|[|n]] ts [Hc Hr] Hf; [by left|by left|]. cbn. rewrite <- app_assoc. cbn.
    eapply pbind_finds; [apply IH; [done|cbn; set_solver]|]. cbn. rewrite predirs_complete by done. cbn. rewrite app_nil_r. by right.
Qed.

(** ** The recursion is shallow *)

Lemma predirs_length rr ts rr' ts' : predirs rr ts = Found rr' ts' -> (length ts' <= length ts)%nat.
Proof. intros Hp. apply predirs_sound in Hp as (rs & -> & _). rewrite length_app. lia. Qed.

Lemma parse_length n ts t ts' :
  (pline n ts = Found t ts' -> (length ts' <= length ts)%nat) /\ (ppipe n ts = Found t ts' -> (length ts' <= length ts)%nat) /\
  (pexec n ts = Found t ts' -> (length ts' <= length ts)%nat).
Proof.
  destruct (parse_sound n) as (Hl & Hp & Hx & _).
  split_and!; intros E; [apply Hl in E as (c & -> & _)|apply Hp in E as (c & -> & _)|apply Hx in E as (c & -> & _)]; rewrite length_app; lia.
Qed.

Lemma pitems_deep args rr ts : pitems args rr ts <> Deep.
Proof.
  remember (length ts) as n eqn:En. assert (length ts <= n)%nat as Hn by lia. clear En. revert args rr ts Hn.
  induction n as [|n IH]; intros args rr ts Hn; destruct ts as [|[k|q e] ts1]; cbn [pitems]; try done; cbn in Hn; try lia.
  - destruct (is_redir k); [|by destruct (among k _)]. destruct ts1 as [|[|q e] ts2]; [done..|]. apply IH. cbn in Hn. lia.
  - destruct (MAXARGS <=? S (length args))%nat; [done|]. apply IH. lia.
Qed.

Lemma predirs_deep rr ts : predirs rr ts <> Deep.
Proof.
  remember (length ts) as n eqn:En. assert (length ts <= n)%nat as Hn by lia. clear En. revert rr ts Hn.
  induction n as [|n IH]; intros rr ts Hn; destruct ts as [|[k|q e] ts1]; cbn [predirs]; try done; cbn in Hn; try lia.
  destruct (is_redir k); [|done]. destruct ts1 as [|[|q e] ts2]; [done..|]. apply IH. cbn in Hn. lia.
Qed.

Lemma pback_length t ts : (length (pback t ts).2 <= length ts)%nat.
Proof. destruct (pback_sound t ts) as (n & Hts & _). rewrite Hts at 2. rewrite length_app. lia. Qed.

Lemma pbind_deep {A B} (r : pres A) (f : A -> list tok -> pres B) :
  r <> Deep -> (forall a ts, r = Found a ts -> f a ts <> Deep) -> pbind r f <> Deep.
Proof. intros Hr Hf. destruct r; cbn; [by apply Hf|done|done]. Qed.

Lemma parse_shallow n :
  (forall ts, (4 * length ts + 4 <= n)%nat -> pline n ts <> Deep) /\
  (forall ts, (4 * length ts + 3 <= n)%nat -> ppipe n ts <> Deep) /\
  (forall ts, (4 * length ts + 2 <= n)%nat -> pexec n ts <> Deep) /\
  (forall ts, (4 * length ts + 1 <= n)%nat -> pblock n ts <> Deep).
Proof.
  induction n as [|n (IHl & IHp & IHx & IHb)]; [split_and!; intros; lia|]. split_and!; intros ts Hn; cbn [pline ppipe pexec pblock].
  - apply pbind_deep; [apply IHp; lia|]. intros t ts1 E. apply parse_length in E.
    pose proof (pback_length t ts1) as Hb. destruct (pback t ts1) as [t2 ts2]. cbn in Hb.
    destruct (after 59 ts2) as [ts3|] eqn:E3; [|done]. apply after_Some in E3. subst ts2. cbn in Hb.
    apply pbind_deep; [apply IHl; lia|done].
  - apply pbind_deep; [apply IHx; lia|]. intros t ts1 E. apply parse_length in E.
    destruct (after 124 ts1) as [ts3|] eqn:E3; [|done]. apply after_Some in E3. subst ts1. cbn in E.
    apply pbind_deep; [apply IHp; lia|done].
  - destruct (after 40 ts); [apply IHb; lia|]. apply pbind_deep; [apply pitems_deep|]. by intros [].
  - destruct (after 40 ts) as [ts1|] eqn:E1; [|done]. apply after_Some in E1. subst ts. cbn in Hn.
    apply pbind_deep; [apply IHl; lia|]. intros t ts2 _. destruct (after 41 ts2); [|done]. apply pbind_deep; [apply predirs_deep|done].
Qed.

(** ** Words of a command *)

Fixpoint words (t : tree) : list word :=
  match t with
  | TExec args => args
  | TRedir t q e _ _ => (q, e) :: words t
  | TPipe t1 t2 | TList t1 t2 => words t1 ++ words t2
  | TBack t => words t
  end.

Definition tok_word (t : tok) : option word := match t with Word q e => Some (q, e) | Sym _ => None end.

Lemma elem_of_rev {A} (x : A) l : x ∈ rev l <-> x ∈ l.
Proof. induction l as [|y l IH]; cbn; [done|]. rewrite elem_of_app, IH, list_elem_of_singleton, elem_of_cons. tauto. Qed.

Lemma words_back n t : words (back n t) = words t.
Proof. revert t. induction n as [|n IH]; intros t; cbn; [done|]. by rewrite IH. Qed.

Lemma words_wrap t rr w : w ∈ words (wrap t rr) -> w ∈ words t \/ exists r, r ∈ rr /\ w = (r.1.2, r.2).
Proof.
  induction rr as [|[[k q] e] rr IH]; cbn; [by left|]. intros [-> |Hw]%elem_of_cons.
  - right. exists (k, q, e). split; [by left|done].
  - destruct (IH Hw) as [Hl|(r & Hr & ->)]; [by left|]. right. exists r. split; [by right|done].
Qed.

Lemma words_toks :
  (forall c w, w ∈ words (line_tree c) -> w ∈ omap tok_word (line_toks c)) /\
  (forall p w, w ∈ words (pipe_tree p) -> w ∈ omap tok_word (pipe_toks p)) /\
  (forall x w, w ∈ words (exec_tree x) -> w ∈ omap tok_word (exec_toks x)).
Proof.
  apply syntax_ind; cbn.
  - intros p IH n w. rewrite words_back, omap_app. set_solver.
  - intros p IHp n c IHc w. rewrite words_back, !omap_app. cbn. set_solver.
  - done.
  - intros x IHx p IHp w. rewrite omap_app. cbn. set_solver.
  - intros its w [Hw|(r & Hr & ->)]%words_wrap.
    + cbn in Hw. apply list_elem_of_omap in Hw as ([q e|k q e] & Hin & [= <-]). apply list_elem_of_omap. exists (Word q e). split; [|done].
      apply list_elem_of_bind. exists (IWord q e). split; [by left|done].
    + rewrite elem_of_rev in Hr. apply list_elem_of_omap in Hr as ([q e|k q e] & Hin & [= <-]). apply list_elem_of_omap. exists (Word q e). split; [|done].
      apply list_elem_of_bind. exists (IRedir k q e). split; [cbn; set_solver|done].
  - intros c IH rs w [Hw|(r & Hr & ->)]%words_wrap; rewrite omap_app; apply elem_of_app; [left; by apply IH|]. right. cbn.
    rewrite elem_of_rev in Hr. apply list_elem_of_omap. exists (Word r.1.2 r.2). split; [|done].
    apply list_elem_of_bind. exists r. split; [unfold redir_toks; set_solver|done].
Qed.
