(* ===== verification/ShSpec.v ===== *)
(** * ShSpec: the shell parses exactly its grammar

    [parsecmd] of [user/sh.c] builds the tree of the text when the grammar
    has one, with every word terminated in place, and exits when it has none. *)

From stdpp Require Import base list gmap strings.
From Stdlib Require Import ZArith Lia.
From S2P Require Import Prelude CMem User Ulib UlibSpec Sh ShLex ShGrammar.

(** ** Messages *)

Section messages.
Context `{Sys}.

Lemma wx_usr {A} (m : M U A) (Q : A + Z -> Sh -> Prop) st :
  wx m (fun r u => Q r (st <| sh_u := u |>)) (sh_u st) -> wx (usr m) Q st.
Proof. unfold wx, usr, zoom. cbn [lget lset Uof]. by destruct (m (sh_u st)). Qed.

Lemma wp_putc_any fd c (Q : unit -> U -> Prop) s : (forall s', u_mem s' = u_mem s -> Q tt s') -> wp (putc fd c) Q s.
Proof.
  intros HQ. unfold putc, call0. wp_steps. apply wp_trap. destruct (kcall _ _) as [[r bs] w]. wp_steps. apply HQ. by rsimpl.
Qed.

(** A message without directives, or with one [%s] for the string [l]. *)
Lemma wp_vprintf_plain fd fmt ap (Q : unit -> U -> Prop) s :
  Forall (fun c => c <> 37) fmt -> (forall s', u_mem s' = u_mem s -> Q tt s') -> wp (vprintf_loop fd fmt false ap) Q s.
Proof.
  revert s. induction fmt as [|c fmt IH]; intros s Hf HQ; cbn [vprintf_loop negb]; [wp_steps; by apply HQ|].
  apply Forall_cons in Hf as [Hc Hf]. rewrite (proj2 (Z.eqb_neq _ _)) by done. apply wp_bind, wp_putc_any. intros s1 H1.
  apply IH; [done|]. intros s2 H2. apply HQ. by rewrite H2.
Qed.

Lemma wp_puts_any fd p l (Q : unit -> U -> Prop) s :
  str_at (u_mem s) p l -> Z.of_nat (length l) < 2 ^ 62 -> (forall s', u_mem s' = u_mem s -> Q tt s') -> wp (puts fd p) Q s.
Proof.
  intros Hp Hl HQ. unfold puts.
  apply (wp_while_idx (fun k q s' => (k <= length l)%nat /\ q = p + Z.of_nat (length l - k) /\ u_mem s' = u_mem s)) with (k := length l).
  - intros k q s' (Hk & -> & Hm). wp_steps. rewrite Hm. destruct (decide (k = 0%nat)) as [-> |Hk0].
    + rewrite Nat.sub_0_r, (str_at_end _ _ _ Hp). change (0 =? 0) with true. wp_steps. by apply HQ.
    + destruct (lookup_lt_is_Some_2 l (length l - k)) as [c Hc]; [lia|].
      destruct (str_at_char _ _ _ _ _ Hp Hc) as [-> Hz]. rewrite (proj2 (Z.eqb_neq _ _)) by done. apply wp_bind, wp_putc_any. intros s1 H1. wp_steps.
      exists (k - 1)%nat. split; [lia|]. split; [lia|]. split; [lia|]. by rewrite H1.
  - rewrite Nat.sub_diag. split; [done|]. split; [lia|done].
  - apply lt_fuel. lia.
Qed.

Lemma wp_leftovers p l s :
  0 < p -> str_at (u_mem s) p l -> Z.of_nat (length l) < 2 ^ 62 ->
  wp (vprintf_loop 2 (lit "leftovers: " ++ [37; 115; 10]) false [p]) (fun _ _ => True) s.
Proof.
  intros Hp Hl Hlen. assert (forall fmt s, Forall (fun c => c <> 37) fmt -> str_at (u_mem s) p l ->
    wp (vprintf_loop 2 (fmt ++ [37; 115; 10]) false [p]) (fun _ _ => True) s) as Hgen; [|apply Hgen; [by apply (bool_decide_eq_true_1 _)|done]].
  clear s Hl. induction fmt as [|c fmt IH]; intros s Hf Hl; cbn [app vprintf_loop negb].
  - change (37 =? 37) with true. cbn [vprintf_loop negb Z.eqb Pos.eqb va_arg]. wp_steps. rewrite (proj2 (Z.eqb_neq _ _)) by lia.
    eapply wp_puts_any; [exact Hl|done|]. intros s1 _. wp_steps. apply wp_putc_any. intros s2 _. by wp_steps.
  - apply Forall_cons in Hf as [Hc Hf]. rewrite (proj2 (Z.eqb_neq _ _)) by done. apply wp_bind, wp_putc_any. intros s1 H1.
    apply IH; [done|by rewrite H1].
Qed.

Lemma wx_exit {A} n (Q : A + Z -> U -> Prop) s : (forall s', Q (inr n) s') -> wx (exit n) Q s.
Proof.
  intros HQ. unfold exit, call0. apply wx_bind, wx_wp. wp_steps. apply wp_trap. destruct (kcall _ _) as [[r bs] w]. wp_steps. by apply wx_leave.
Qed.

Lemma wx_sh_panic {A} msg (Q : A + Z -> Sh -> Prop) st :
  Forall (fun c => c <> 37) (lit (msg +:+ newline)) -> (forall st', Q (inr 1) st') -> wx (sh_panic msg) Q st.
Proof.
  intros Hm HQ. unfold sh_panic. apply wx_bind, wx_usr, wx_wp. unfold fprintf, vprintf. apply wp_vprintf_plain; [done|]. intros u _.
  apply wx_usr, wx_exit. intros u'. apply HQ.
Qed.

End messages.

(** ** Nodes *)

(** The tree [t] is at [p]; every node is younger than its children. *)
Fixpoint tree_at (cs : list cmd) (p : Z) (t : tree) : Prop :=
  1 <= p /\
  match t with
  | TExec args =>
      cs !! Z.to_nat (p - 1) = Some (EXEC (args.*1 ++ replicate (MAXARGS - length args) 0) (args.*2 ++ replicate (MAXARGS - length args) 0)) /\
      (length args < MAXARGS)%nat
  | TRedir t q e mode fd => exists c, cs !! Z.to_nat (p - 1) = Some (REDIR c q e mode fd) /\ c < p /\ tree_at cs c t
  | TPipe t1 t2 => exists a b, cs !! Z.to_nat (p - 1) = Some (PIPE a b) /\ a < p /\ b < p /\ tree_at cs a t1 /\ tree_at cs b t2
  | TList t1 t2 => exists a b, cs !! Z.to_nat (p - 1) = Some (LIST a b) /\ a < p /\ b < p /\ tree_at cs a t1 /\ tree_at cs b t2
  | TBack t => exists c, cs !! Z.to_nat (p - 1) = Some (BACK c) /\ c < p /\ tree_at cs c t
  end.

Lemma tree_at_prefix cs cs' p t : cs `prefix_of` cs' -> tree_at cs p t -> tree_at cs' p t.
Proof.
  intros Hpre. revert p. induction t; intros p [Hp Ht]; (split; [done|]).
  - destruct Ht as [Ht ?]. split; [by eapply prefix_lookup_Some|done].
  - destruct Ht as (c & ? & ? & ?). exists c. split; [by eapply prefix_lookup_Some|]. split; [done|by apply IHt].
  - destruct Ht as (a & b & ? & ? & ? & ? & ?). exists a, b. split; [by eapply prefix_lookup_Some|]. auto.
  - destruct Ht as (a & b & ? & ? & ? & ? & ?). exists a, b. split; [by eapply prefix_lookup_Some|]. auto.
  - destruct Ht as (c & ? & ? & ?). exists c. split; [by eapply prefix_lookup_Some|]. split; [done|by apply IHt].
Qed.

(** A valid pointer into the nodes. *)
Definition ptr_ok (cs : list cmd) (p : Z) : Prop := 1 <= p <= Z.of_nat (length cs).

Lemma ptr_ok_prefix cs cs' p : cs `prefix_of` cs' -> ptr_ok cs p -> ptr_ok cs' p.
Proof. intros Hpre%prefix_length. unfold ptr_ok. lia. Qed.

(** The redirections [rr] around the node [b] are at [p]. *)
Fixpoint redirs_at (cs : list cmd) (p : Z) (rr : list redir) (b : Z) : Prop :=
  match rr with
  | [] => p = b
  | (k, q, e) :: rr' =>
      exists c, b < p /\ c < p /\ cs !! Z.to_nat (p - 1) = Some (REDIR c q e (rmode k) (rfd k)) /\ redirs_at cs c rr' b
  end.

Lemma redirs_at_prefix cs cs' p rr b : cs `prefix_of` cs' -> redirs_at cs p rr b -> redirs_at cs' p rr b.
Proof.
  intros Hpre. revert p. induction rr as [|[[k q] e] rr IH]; intros p; cbn; [done|]. intros (c & ? & ? & ? & ?).
  exists c. split_and!; [done|done|by eapply prefix_lookup_Some|by apply IH].
Qed.

Lemma redirs_at_insert cs p rr b x : 1 <= b -> redirs_at cs p rr b -> redirs_at (<[Z.to_nat (b - 1) := x]> cs) p rr b.
Proof.
  intros Hb. revert p. induction rr as [|[[k q] e] rr IH]; intros p; cbn; [done|]. intros (c & ? & ? & Hc & ?).
  exists c. split_and!; [done|done| |by apply IH]. rewrite list_lookup_insert_ne by lia. done.
Qed.

Lemma redirs_at_tree cs p rr b t : 1 <= b -> redirs_at cs p rr b -> tree_at cs b t -> tree_at cs p (wrap t rr).
Proof.
  intros Hb. revert p. induction rr as [|[[k q] e] rr IH]; intros p; cbn [redirs_at wrap]; [by intros ->|].
  intros (c & ? & ? & ? & ?) Ht. split; [lia|]. exists c. split_and!; [done|done|by apply IH].
Qed.

Section parser.
Context `{Sys} (s0 : Z) (l : list Z).
#[local] Abbreviation es := (s0 + Z.of_nat (length l)).
Hypothesis Hlen : Z.of_nat (length l) < 2 ^ 31.

Definition in_text (st : Sh) : Prop := str_at (u_mem (sh_u st)) s0 l.

Lemma wp_new_cmd c (Q : Z -> Sh -> Prop) st :
  Q (Z.of_nat (length (sh_cmds st)) + 1) (st <| sh_cmds := sh_cmds st ++ [c] |>) -> wp (new_cmd c) Q st.
Proof. intros HQ. unfold new_cmd. by wp_steps. Qed.

Lemma lookup_new cs (c : cmd) : (cs ++ [c]) !! Z.to_nat (Z.of_nat (length cs) + 1 - 1) = Some c.
Proof. rewrite lookup_app_r by lia. by replace (Z.to_nat (Z.of_nat (length cs) + 1 - 1) - length cs)%nat with 0%nat by lia. Qed.

Lemma symbols_of cs : bool_decide (Forall (fun c => c ∈ symbols) cs) = true -> Forall (fun c => c ∈ symbols) cs.
Proof. apply bool_decide_eq_true_1. Qed.

(** ** Redirections *)

Lemma wx_parseredirs rr0 b p s ts (Q : Z * Z + Z -> Sh -> Prop) st :
  in_text st -> tokens_at s0 l s ts -> 1 <= b -> redirs_at (sh_cmds st) p rr0 b -> ptr_ok (sh_cmds st) p ->
  (predirs rr0 ts = Wrong -> forall st', Q (inr 1) st') ->
  (forall p' s' rr ts' st', predirs rr0 ts = Found rr ts' -> tokens_at s0 l s' ts' -> redirs_at (sh_cmds st') p' rr b ->
     ptr_ok (sh_cmds st') p' -> sh_cmds st `prefix_of` sh_cmds st' -> sh_u st' = sh_u st -> Q (inl (p', s')) st') ->
  wx (parseredirs p s es) Q st.
Proof.
  intros Hin Hta Hb Hr Hp HW HQ. unfold parseredirs. pose proof (toks_length s0 l _ _ Hta) as Hts.
  apply (wx_while (fun k '(p', s') st' => exists rr1 ts1, k = length ts1 /\ tokens_at s0 l s' ts1 /\ redirs_at (sh_cmds st') p' rr1 b /\
    ptr_ok (sh_cmds st') p' /\ sh_cmds st `prefix_of` sh_cmds st' /\ sh_u st' = sh_u st /\ predirs rr0 ts = predirs rr1 ts1)) with (k := length ts).
  - intros k [p1 s1] st1 (rr1 & ts1 & -> & Hta1 & Hr1 & Hp1 & Hpre & Hu & Heq). assert (in_text st1) as Hin1 by (unfold in_text; by rewrite Hu).
    apply wx_bind, wx_wp, (wp_peek s0 l Hlen _ ts1); [done|done|by apply symbols_of|]. intros s2 Hta2 _.
    destruct ts1 as [|[k|q e] ts2]; cbn [starts]; try (cbn [negb]; apply wx_ret; by eapply HQ).
    assert (among (if k =? 43 then 62 else k) (lit "<>") = is_redir k) as ->.
    { unfold is_redir. destruct (Z.eqb_spec k 43) as [-> |]; [done|]. unfold among. cbn.
      destruct (Z.eqb_spec k 60), (Z.eqb_spec k 62); subst; try done. apply bool_decide_eq_false. set_solver. }
    cbn [predirs] in Heq. destruct (is_redir k) eqn:Ek; cbn [negb]; [|apply wx_ret; by eapply HQ].
    apply wx_bind, wx_wp, (wp_gettoken s0 l Hlen _ (Sym k :: ts2)); [done|done|]. intros q0 e0 s3 Hta3.
    apply wx_bind, wx_wp, (wp_gettoken s0 l Hlen _ ts2); [done|done|].
    destruct ts2 as [|[k'|q e] ts3].
    + intros q1 e1 s4 _. change (0 =? 97) with false. cbn [negb]. apply wx_bind, wx_sh_panic; [by apply (bool_decide_eq_true_1 _)|]. by apply HW.
    + intros q1 e1 s4 _. apply wx_bind. destruct (negb (k' =? 97)) eqn:E97.
      * apply wx_sh_panic; [by apply (bool_decide_eq_true_1 _)|]. by apply HW.
      * exfalso. apply (toks_ok s0 l Hlen) in Hta3. apply Forall_cons in Hta3 as [Hk' _]. cbn in Hk'. apply negb_false_iff, Z.eqb_eq in E97. subst k'. set_solver.
    + intros s4 Hta4. change (97 =? 97) with true. cbn [negb]. apply wx_bind, wx_ret.
      apply wx_bind, wx_wp.
      assert (wp (if k =? 60 then redircmd p1 q e O_RDONLY 0
                  else if k =? 62 then redircmd p1 q e (Z.lor (Z.lor O_WRONLY O_CREATE) O_TRUNC) 1
                  else if k =? 43 then redircmd p1 q e (Z.lor O_WRONLY O_CREATE) 1 else mret p1)
        (fun p2 st2 => p2 = Z.of_nat (length (sh_cmds st1)) + 1 /\ st2 = st1 <| sh_cmds := sh_cmds st1 ++ [REDIR p1 q e (rmode k) (rfd k)] |>) st1) as Hnew.
      { unfold is_redir in Ek. unfold rmode, rfd, redircmd. destruct (k =? 60), (k =? 62), (k =? 43); try done; by apply wp_new_cmd. }
      eapply wp_mono; [exact Hnew|]. intros p2 st2 [-> ->]. apply wx_ret. exists (length ts3). split; [cbn; lia|].
      assert (sh_cmds st1 `prefix_of` sh_cmds st1 ++ [REDIR p1 q e (rmode k) (rfd k)]) as Hpre1 by (by eexists).
      exists ((k, q, e) :: rr1), ts3. rsimpl. split_and!; [done|done| | |by etrans|done|done].
      * exists p1. unfold ptr_ok in Hp1. split_and!; [|lia|apply lookup_new|by eapply redirs_at_prefix].
        assert (b <= p1); [|lia]. destruct rr1 as [|[[? ?] ?] ?]; cbn in Hr1; [lia|]. destruct Hr1 as (? & ? & _). lia.
      * unfold ptr_ok. rewrite length_app. cbn. lia.
  - exists rr0, ts. done.
  - apply lt_fuel. lia.
Qed.

(** ** Words and redirections *)

Definition no_redir (ts : list tok) : Prop := match ts with Sym k :: _ => is_redir k = false | _ => True end.

Lemma predirs_stop rr ts rr' ts' : predirs rr ts = Found rr' ts' -> no_redir ts'.
Proof.
  remember (length ts) as n eqn:En. assert (length ts <= n)%nat as Hn by lia. clear En. revert rr ts Hn.
  induction n as [|n IH]; intros rr ts Hn; (destruct ts as [|[k|q e] ts1]; cbn [predirs]; [by intros [= <- <-]| |by intros [= <- <-]]).
  { cbn in Hn. lia. }
  destruct (is_redir k) eqn:Ek; [|by intros [= <- <-]]. destruct ts1 as [|[|q e] ts2]; [done..|]. apply IH. cbn in Hn. lia.
Qed.

Lemma pitems_predirs args rr ts : pitems args rr ts = pbind (predirs rr ts) (fun rr' ts' => pitems args rr' ts').
Proof.
  remember (length ts) as n eqn:En. assert (length ts <= n)%nat as Hn by lia. clear En. revert rr ts Hn.
  induction n as [|n IH]; intros rr ts Hn; (destruct ts as [|[k|q e] ts1]; [done| |done]).
  { cbn in Hn. lia. }
  cbn [predirs pitems]. destruct (is_redir k) eqn:Ek; cbn [pbind pitems]; [|by rewrite Ek].
  destruct ts1 as [|[|q e] ts2]; [done..|]. apply IH. cbn in Hn. lia.
Qed.

(** The array of a node with [args] so far. *)
Definition slots (xs : list Z) : list Z := xs ++ replicate (MAXARGS - length xs) 0.

Lemma slots_insert xs n x : n = length xs -> (length xs < MAXARGS)%nat -> <[n := x]> (slots xs) = slots (xs ++ [x]).
Proof.
  intros -> Hl. unfold slots. rewrite length_app. cbn [length]. replace (MAXARGS - length xs)%nat with (S (MAXARGS - (length xs + 1))) by lia.
  cbn [replicate]. rewrite <- (Nat.add_0_r (length xs)) at 1. rewrite insert_app_r. cbn. by rewrite <- app_assoc.
Qed.

Lemma slots_end xs n : n = length xs -> (length xs < MAXARGS)%nat -> <[n := 0]> (slots xs) = slots xs.
Proof.
  intros -> Hl. unfold slots. replace (MAXARGS - length xs)%nat with (S (MAXARGS - (length xs + 1))) by lia.
  cbn [replicate]. rewrite <- (Nat.add_0_r (length xs)) at 1. by rewrite insert_app_r.
Qed.

Definition node (args : list word) : cmd := EXEC (slots args.*1) (slots args.*2).

Lemma wp_set_arg p args n q e (Q : unit -> Sh -> Prop) st :
  1 <= p -> sh_cmds st !! Z.to_nat (p - 1) = Some (node args) -> n = length args -> (n < MAXARGS)%nat ->
  Q tt (st <| sh_cmds := <[Z.to_nat (p - 1) := EXEC (<[n := q]> (slots args.*1)) (<[n := e]> (slots args.*2))]> (sh_cmds st) |>) ->
  wp (set_arg p n q e) Q st.
Proof.
  intros Hp Hn -> Hl HQ. unfold set_arg, get_cmd. wp_steps. rewrite (proj2 (Z.leb_gt _ _)) by lia. rewrite Hn. unfold node. wp_steps.
  rewrite (proj2 (Nat.ltb_lt _ _)) by done. by wp_steps.
Qed.

Lemma prefix_insert (cs0 cs : list cmd) i x : cs0 `prefix_of` cs -> (length cs0 <= i)%nat -> cs0 `prefix_of` <[i := x]> cs.
Proof.
  intros [k ->] Hi. replace i with (length cs0 + (i - length cs0))%nat by lia. rewrite insert_app_r. by eexists.
Qed.

Lemma wx_parseargs cs0 cmd ret s rr0 ts (Q : Z * Z + Z -> Sh -> Prop) st :
  in_text st -> tokens_at s0 l s ts -> no_redir ts -> cmd = Z.of_nat (length cs0) + 1 -> cs0 `prefix_of` sh_cmds st ->
  sh_cmds st !! Z.to_nat (cmd - 1) = Some (node []) -> redirs_at (sh_cmds st) ret rr0 cmd -> ptr_ok (sh_cmds st) ret ->
  (pitems [] rr0 ts = Wrong -> forall st', Q (inr 1) st') ->
  (forall p s' args rr ts' st', pitems [] rr0 ts = Found (args, rr) ts' -> tokens_at s0 l s' ts' ->
     tree_at (sh_cmds st') p (wrap (TExec args) rr) -> ptr_ok (sh_cmds st') p -> cs0 `prefix_of` sh_cmds st' -> sh_u st' = sh_u st ->
     Q (inl (p, s')) st') ->
  wx (parseargs cmd ret s es) Q st.
Proof.
  intros Hin Hta Hnr Hcmd Hpre0 Hnode Hr Hp HW HQ. unfold parseargs. apply wx_bind. pose proof (toks_length s0 l _ _ Hta) as Hts.
  apply (wx_while (fun k '(ret', argc, s') st' => exists args rr ts1, k = length ts1 /\ tokens_at s0 l s' ts1 /\ no_redir ts1 /\
    argc = length args /\ (length args < MAXARGS)%nat /\ sh_cmds st' !! Z.to_nat (cmd - 1) = Some (node args) /\
    redirs_at (sh_cmds st') ret' rr cmd /\ ptr_ok (sh_cmds st') ret' /\ cs0 `prefix_of` sh_cmds st' /\ sh_u st' = sh_u st /\
    pitems [] rr0 ts = pitems args rr ts1)) with (k := length ts).
  - intros k [[ret1 argc] s1] st1 (args & rr & ts1 & -> & Hta1 & Hnr1 & -> & Hargs & Hn1 & Hr1 & Hp1 & Hpre1 & Hu1 & Heq).
    assert (in_text st1) as Hin1 by (unfold in_text; by rewrite Hu1).
    assert (forall s2, tokens_at s0 l s2 ts1 -> pitems args rr ts1 = Found (args, rr) ts1 ->
      wx (set_arg cmd (length args) 0 0;; mret (ret1, s2)) Q st1) as Hend.
    { intros s2 Hta2 Hf. apply wx_bind, wx_wp. eapply wp_set_arg; [lia|exact Hn1|done|done|]. apply wx_ret.
      rewrite !slots_end by (by rewrite ?length_fmap).
      rewrite list_insert_id by exact Hn1. apply (HQ ret1 s2 args rr ts1); rsimpl; try done; [by rewrite Heq|].
      eapply redirs_at_tree; [|exact Hr1|]; [lia|]. split; [lia|]. split; [|done]. rewrite Hn1. unfold node, slots. by rewrite !length_fmap. }
    apply wx_bind, wx_wp, (wp_peek s0 l Hlen _ ts1); [done|done|by apply symbols_of|]. intros s2 Hta2 _.
    destruct ts1 as [|[k|q e] ts2]; cbn [starts].
    + apply wx_bind, wx_wp, (wp_gettoken s0 l Hlen _ []); [done|done|]. intros q e s3 Hta3. change (0 =? 0) with true. apply wx_ret. by apply Hend.
    + cbn in Hnr1. assert (among (if k =? 43 then 62 else k) (lit "|)&;") = among k (lit "|)&;")) as ->.
      { unfold is_redir in Hnr1. apply orb_false_iff in Hnr1 as [_ Hk]. by rewrite Hk. }
      cbn [pitems] in Heq. rewrite Hnr1 in Heq. destruct (among k (lit "|)&;")) eqn:Ea.
      { apply wx_ret, Hend; [done|]. cbn [pitems]. by rewrite Hnr1, Ea. }
      apply wx_bind, wx_wp, (wp_gettoken s0 l Hlen _ (Sym k :: ts2)); [done|done|]. intros q e s3 Hta3.
      apply (toks_ok s0 l Hlen) in Hta1. apply Forall_cons in Hta1 as [Hk _]. cbn in Hk.
      rewrite (proj2 (Z.eqb_neq k 0)) by (intros ->; set_solver). rewrite (proj2 (Z.eqb_neq k 97)) by (intros ->; set_solver).
      cbn [negb]. apply wx_bind, wx_sh_panic; [by apply (bool_decide_eq_true_1 _)|]. by apply HW.
    + apply wx_bind, wx_wp, (wp_gettoken s0 l Hlen _ (Word q e :: ts2)); [done|done|]. intros s3 Hta3.
      change (97 =? 0) with false. change (97 =? 97) with true. cbn [negb]. apply wx_bind, wx_ret, wx_bind, wx_wp.
      eapply wp_set_arg; [lia|exact Hn1|done|done|].
      rewrite !slots_insert by (by rewrite ?length_fmap).
      set (st2 := st1 <| sh_cmds := _ |>). cbn [pitems] in Heq.
      destruct (MAXARGS <=? S (length args))%nat eqn:Emax.
      { apply wx_bind, wx_sh_panic; [by apply (bool_decide_eq_true_1 _)|]. by apply HW. }
      apply Nat.leb_gt in Emax. apply wx_bind, wx_ret. apply wx_bind.
      assert (redirs_at (sh_cmds st2) ret1 rr cmd) as Hr2 by (unfold st2; rsimpl; apply redirs_at_insert; [lia|done]).
      assert (ptr_ok (sh_cmds st2) ret1) as Hp2 by (unfold st2; rsimpl; unfold ptr_ok; by rewrite length_insert).
      rewrite (pitems_predirs (args ++ [(q, e)]) rr ts2) in Heq.
      eapply (wx_parseredirs rr cmd ret1 s3 ts2); [unfold in_text, st2; by rsimpl|done|lia|exact Hr2|exact Hp2| |].
      { intros Hw. apply HW. by rewrite Heq, Hw. }
      intros p' s' rr' ts' st' Hf Hta' Hr' Hp' Hpre' Hu'. apply wx_ret. exists (length ts'). split.
      { pose proof (predirs_length _ _ _ _ Hf). cbn. lia. }
      exists (args ++ [(q, e)]), rr', ts'. split; [done|]. split; [done|]. split; [by eapply predirs_stop|]. rewrite length_app. cbn [length].
      split; [lia|]. split; [lia|]. split; [|split; [done|split; [done|split; [|split]]]].
      * eapply prefix_lookup_Some; [|exact Hpre']. unfold st2. rsimpl. rewrite list_lookup_insert_eq by (by eapply lookup_lt_Some).
        unfold node. by rewrite !fmap_app.
      * etrans; [|exact Hpre']. unfold st2. rsimpl. apply prefix_insert; [done|lia].
      * rewrite Hu'. unfold st2. by rsimpl.
      * rewrite Heq, Hf. done.
  - exists [], rr0, ts. split_and!; try done. cbn. unfold MAXARGS. lia.
  - apply lt_fuel. lia.
Qed.

(** ** The parsers *)

Lemma wp_parseback t0 p s ts (Q : Z * Z -> Sh -> Prop) st :
  in_text st -> tokens_at s0 l s ts -> tree_at (sh_cmds st) p t0 -> ptr_ok (sh_cmds st) p ->
  (forall p' s' st', tokens_at s0 l s' (pback t0 ts).2 -> tree_at (sh_cmds st') p' (pback t0 ts).1 -> ptr_ok (sh_cmds st') p' ->
     sh_cmds st `prefix_of` sh_cmds st' -> sh_u st' = sh_u st -> Q (p', s') st') ->
  wp (parseback p s es) Q st.
Proof.
  intros Hin Hta Ht Hp HQ. unfold parseback. pose proof (toks_length s0 l _ _ Hta) as Hts.
  apply (wp_while_idx (fun k '(p', s') st' => exists t1 ts1, k = length ts1 /\ tokens_at s0 l s' ts1 /\ tree_at (sh_cmds st') p' t1 /\
    ptr_ok (sh_cmds st') p' /\ sh_cmds st `prefix_of` sh_cmds st' /\ sh_u st' = sh_u st /\ pback t0 ts = pback t1 ts1)) with (k := length ts).
  - intros k [p1 s1] st1 (t1 & ts1 & -> & Hta1 & Ht1 & Hp1 & Hpre & Hu & Heq). assert (in_text st1) as Hin1 by (unfold in_text; by rewrite Hu).
    apply wp_bind, (wp_peek s0 l Hlen _ ts1); [done|done|by apply symbols_of|]. intros s2 Hta2 _.
    destruct ts1 as [|[k|q e] ts2]; cbn [starts negb]; try (apply wp_ret, HQ; by rewrite ?Heq).
    assert (among (if k =? 43 then 62 else k) (lit "&") = (k =? 38)) as ->.
    { destruct (Z.eqb_spec k 43) as [-> |]; [done|]. destruct (Z.eqb_spec k 38) as [-> |]; [done|]. apply bool_decide_eq_false. unfold lit. cbn. set_solver. }
    cbn [pback] in Heq. destruct (k =? 38) eqn:E; cbn [negb]; [|apply wp_ret, HQ; by rewrite ?Heq]. apply wp_bind, (wp_gettoken s0 l Hlen _ (Sym k :: ts2)); [done|done|].
    intros q e s3 Hta3. apply wp_bind, wp_new_cmd. apply wp_ret. exists (length ts2). split; [cbn; lia|].
    assert (sh_cmds st1 `prefix_of` sh_cmds st1 ++ [BACK p1]) as Hpre1 by (by eexists).
    exists (TBack t1), ts2. rsimpl. split_and!; [done|done| | |by etrans|done|done].
    + unfold ptr_ok in Hp1. split; [lia|]. exists p1. split; [apply lookup_new|]. split; [lia|]. by eapply tree_at_prefix.
    + unfold ptr_ok. rewrite length_app. cbn. lia.
  - by exists t0, ts.
  - apply lt_fuel. lia.
Qed.

(** What a parser does when the parser on tokens answers [r]. *)
Definition answers (r : pres tree) (cs0 : list cmd) (u : U) (x : Z * Z + Z) (st : Sh) : Prop :=
  match x with
  | inl (p, s) => exists t ts, r = Found t ts /\ tokens_at s0 l s ts /\ tree_at (sh_cmds st) p t /\ ptr_ok (sh_cmds st) p /\
      cs0 `prefix_of` sh_cmds st /\ sh_u st = u
  | inr n => n = 1 /\ r = Wrong
  end.

(** [peek] for one symbol. *)
Lemma starts_after k ts : k ∈ [124; 41; 59; 40] -> starts [k] ts = bool_decide (is_Some (after k ts)).
Proof.
  intros Hk. destruct ts as [|[k'|q e] ts']; cbn [starts after]; try (symmetry; apply bool_decide_eq_false; by intros []).
  destruct (Z.eqb_spec k' 43) as [-> |Hne].
  - rewrite (proj2 (Z.eqb_neq _ _)) by set_solver. apply bool_decide_ext. rewrite list_elem_of_singleton. split; [intros <-; set_solver|by intros []].
  - destruct (Z.eqb_spec k' k) as [-> |Hne']; apply bool_decide_ext; rewrite list_elem_of_singleton; naive_solver.
Qed.

Lemma wx_peek {A} k s ts (f : bool * Z -> M Sh A) (Q : A + Z -> Sh -> Prop) st :
  in_text st -> tokens_at s0 l s ts -> k ∈ [124; 41; 59; 40] ->
  (forall s', tokens_at s0 l s' ts -> wx (f (bool_decide (is_Some (after k ts)), s')) Q st) ->
  wx (peek s es [k] ≫= f) Q st.
Proof.
  intros Hin Hta Hk HQ. apply wx_bind, wx_wp, (wp_peek s0 l Hlen _ ts); [done|done| |].
  - constructor; [|constructor]. unfold symbols, lit. cbn. set_solver.
  - intros s' Hta' _. rewrite starts_after by done. by apply HQ.
Qed.

(** A node with two children. *)
Lemma wx_new_pair mk mkt a b t1 t2 cs0 r s ts st u :
  (forall cs p, 1 <= p -> cs !! Z.to_nat (p - 1) = Some (mk a b) -> a < p -> b < p -> tree_at cs a t1 -> tree_at cs b t2 -> tree_at cs p (mkt t1 t2)) ->
  r = Found (mkt t1 t2) ts -> tokens_at s0 l s ts ->
  tree_at (sh_cmds st) a t1 -> ptr_ok (sh_cmds st) a -> tree_at (sh_cmds st) b t2 -> ptr_ok (sh_cmds st) b ->
  cs0 `prefix_of` sh_cmds st -> sh_u st = u ->
  wx (p ← new_cmd (mk a b); mret (p, s)) (answers r cs0 u) st.
Proof.
  intros Hmk -> Hta Ha Hpa Hb Hpb Hpre Hu. apply wx_bind, wx_wp, wp_new_cmd, wx_ret.
  assert (sh_cmds st `prefix_of` sh_cmds st ++ [mk a b]) as Hpre1 by (by eexists). unfold ptr_ok in *.
  exists (mkt t1 t2), ts. rsimpl. split_and!; [done|done| |unfold ptr_ok; rewrite length_app; cbn; lia|by etrans|done].
  apply Hmk; [lia|apply lookup_new|lia|lia|by eapply tree_at_prefix..].
Qed.

Lemma wx_parse n :
  (forall s ts st, in_text st -> tokens_at s0 l s ts -> pline n ts <> Deep ->
     wx (parseline n s es) (answers (pline n ts) (sh_cmds st) (sh_u st)) st) /\
  (forall s ts st, in_text st -> tokens_at s0 l s ts -> ppipe n ts <> Deep ->
     wx (parsepipe n s es) (answers (ppipe n ts) (sh_cmds st) (sh_u st)) st) /\
  (forall s ts st, in_text st -> tokens_at s0 l s ts -> pexec n ts <> Deep ->
     wx (parseexec n s es) (answers (pexec n ts) (sh_cmds st) (sh_u st)) st) /\
  (forall s ts st, in_text st -> tokens_at s0 l s ts -> pblock n ts <> Deep ->
     wx (parseblock n s es) (answers (pblock n ts) (sh_cmds st) (sh_u st)) st).
Proof.
  induction n as [|n (IHl & IHp & IHx & IHb)]; [done|]. split_and!; intros s ts st Hin Hta Hdeep; cbn [parseline parsepipe parseexec parseblock pline ppipe pexec pblock] in *.
  - apply wx_bind. eapply wx_mono; [apply IHp; [done|exact Hta|]; by destruct (ppipe n ts)|].
    intros [[p1 s1]|k] st1; cbn [answers]; [|intros [-> ->]; done].
    intros (t1 & ts1 & E1 & Hta1 & Ht1 & Hp1 & Hpre1 & Hu1). rewrite E1 in *. cbn [pbind] in *.
    apply wx_bind, wx_wp. eapply wp_parseback; [unfold in_text; by rewrite Hu1|exact Hta1|exact Ht1|done|]. intros p2 s2 st2 Hta2 Ht2 Hp2 Hpre2 Hu2.
    destruct (pback t1 ts1) as [t2 ts2] eqn:E2. cbn [fst snd] in *. assert (in_text st2) as Hin2 by (unfold in_text; by rewrite Hu2, Hu1).
    apply (wx_peek 59 _ ts2); [done|done|set_solver|]. intros s3 Hta3. destruct (after 59 ts2) as [ts3|] eqn:E3; cbn.
    + apply after_Some in E3. subst ts2. apply wx_bind, wx_wp, (wp_gettoken s0 l Hlen _ (Sym 59 :: ts3)); [done|done|]. intros q e s4 Hta4.
      apply wx_bind. eapply wx_mono; [apply IHl; [done|exact Hta4|]; by destruct (pline n ts3)|].
      intros [[p5 s5]|k] st5; cbn [answers]; [|intros [-> ->]; done]. intros (t5 & ts5 & E5 & Hta5 & Ht5 & Hp5 & Hpre5 & Hu5). rewrite E5. cbn [pbind].
      eapply (wx_new_pair LIST TList); [|reflexivity|exact Hta5|by eapply tree_at_prefix|by eapply ptr_ok_prefix|exact Ht5|exact Hp5| |by rewrite Hu5, Hu2].
      * intros cs p Hp Hl Ha Hb HA HB. split; [done|]. by exists p2, p5.
      * etrans; [exact Hpre1|]. by etrans.
    + apply wx_ret. exists t2, ts2. split_and!; [done|done|done|exact Hp2|by etrans|by rewrite Hu2].
  - apply wx_bind. eapply wx_mono; [apply IHx; [done|exact Hta|]; by destruct (pexec n ts)|].
    intros [[p1 s1]|k] st1; cbn [answers]; [|intros [-> ->]; done].
    intros (t1 & ts1 & E1 & Hta1 & Ht1 & Hp1 & Hpre1 & Hu1). rewrite E1 in *. cbn [pbind] in *. assert (in_text st1) as Hin1 by (unfold in_text; by rewrite Hu1).
    apply (wx_peek 124 _ ts1); [done|done|set_solver|]. intros s3 Hta3. destruct (after 124 ts1) as [ts3|] eqn:E3; cbn.
    + apply after_Some in E3. subst ts1. apply wx_bind, wx_wp, (wp_gettoken s0 l Hlen _ (Sym 124 :: ts3)); [done|done|]. intros q e s4 Hta4.
      apply wx_bind. eapply wx_mono; [apply IHp; [done|exact Hta4|]; by destruct (ppipe n ts3)|].
      intros [[p5 s5]|k] st5; cbn [answers]; [|intros [-> ->]; done]. intros (t5 & ts5 & E5 & Hta5 & Ht5 & Hp5 & Hpre5 & Hu5). rewrite E5. cbn [pbind].
      eapply (wx_new_pair PIPE TPipe); [|reflexivity|exact Hta5|by eapply tree_at_prefix|by eapply ptr_ok_prefix|exact Ht5|exact Hp5|by etrans|by rewrite Hu5].
      intros cs p Hp Hl Ha Hb HA HB. split; [done|]. by exists p1, p5.
    + apply wx_ret. exists t1, ts1. split_and!; [done|done|done|exact Hp1|done|done].
  - apply (wx_peek 40 _ ts); [done|done|set_solver|]. intros s1 Hta1. destruct (after 40 ts) as [ts1|] eqn:E1; cbn; [by apply IHb|].
    apply wx_bind, wx_wp, wp_new_cmd. set (cs0 := sh_cmds st). set (st1 := st <| sh_cmds := _ |>). set (cmd := Z.of_nat (length cs0) + 1).
    assert (sh_cmds st1 = cs0 ++ [node []]) as Hcs1 by (unfold st1; by rsimpl). rewrite pitems_predirs in *.
    apply wx_bind. eapply (wx_parseredirs [] cmd cmd _ ts); [unfold in_text, st1; by rsimpl|done|lia|done|rewrite Hcs1; unfold ptr_ok; rewrite length_app; cbn; lia| |].
    { intros Hw st'. cbn [answers]. by rewrite Hw. }
    intros p2 s2 rr ts2 st2 Ef Hta2 Hr2 Hp2 Hpre2 Hu2. rewrite Ef in *. cbn [pbind] in *.
    eapply (wx_parseargs cs0 cmd p2 s2 rr ts2); [unfold in_text; rewrite Hu2; unfold st1; by rsimpl|done|by eapply predirs_stop|done| | |done|done| |].
    + etrans; [|exact Hpre2]. rewrite Hcs1. by eexists.
    + eapply prefix_lookup_Some; [|exact Hpre2]. rewrite Hcs1. apply lookup_new.
    + intros Hw st'. cbn [answers]. by rewrite Hw.
    + intros p3 s3 args rr3 ts3 st3 Ef3 Hta3 Ht3 Hp3 Hpre3 Hu3. rewrite Ef3. cbn [pbind answers]. eexists _, _. split_and!; [done|done|done|exact Hp3|done|].
      rewrite Hu3, Hu2. unfold st1. by rsimpl.
  - apply (wx_peek 40 _ ts); [done|done|set_solver|]. intros s1 Hta1. destruct (after 40 ts) as [ts1|] eqn:E1; cbn.
    2: { apply wx_bind, wx_sh_panic; [by apply (bool_decide_eq_true_1 _)|]. done. }
    apply after_Some in E1. subst ts. apply wx_bind, wx_ret. apply wx_bind, wx_wp, (wp_gettoken s0 l Hlen _ (Sym 40 :: ts1)); [done|done|]. intros q e s2 Hta2.
    apply wx_bind. eapply wx_mono; [apply IHl; [done|exact Hta2|]; by destruct (pline n ts1)|].
    intros [[p3 s3]|k] st3; cbn [answers]; [|intros [-> ->]; done]. intros (t3 & ts3 & E3 & Hta3 & Ht3 & Hp3 & Hpre3 & Hu3). rewrite E3 in *. cbn [pbind] in *.
    assert (in_text st3) as Hin3 by (unfold in_text; by rewrite Hu3).
    apply (wx_peek 41 _ ts3); [done|done|set_solver|]. intros s4 Hta4. destruct (after 41 ts3) as [ts4|] eqn:E4; cbn.
    2: { apply wx_bind, wx_sh_panic; [by apply (bool_decide_eq_true_1 _)|]. done. }
    apply after_Some in E4. subst ts3. apply wx_bind, wx_ret. apply wx_bind, wx_wp, (wp_gettoken s0 l Hlen _ (Sym 41 :: ts4)); [done|done|]. intros q' e' s5 Hta5.
    eapply (wx_parseredirs [] p3 p3 _ ts4); [done|done|apply Hp3|done|done| |].
    + intros Hw st'. cbn [answers]. by rewrite Hw.
    + intros p6 s6 rr ts6 st6 Ef Hta6 Hr6 Hp6 Hpre6 Hu6. rewrite Ef. cbn [pbind answers]. eexists _, _. split_and!; [done|done| |exact Hp6|by etrans|by rewrite Hu6].
      eapply redirs_at_tree; [apply Hp3|done|]. by eapply tree_at_prefix.
Qed.

(** ** Terminating the words *)

Lemma slots_word (xs : list Z) i x : xs !! i = Some x -> slots xs !! i = Some x.
Proof. intros Hx. unfold slots. by apply lookup_app_l_Some. Qed.

Lemma slots_zero (xs : list Z) : (length xs < MAXARGS)%nat -> slots xs !! length xs = Some 0.
Proof.
  intros Hl. unfold slots. rewrite lookup_app_r, Nat.sub_diag by lia. by replace (MAXARGS - length xs)%nat with (S (MAXARGS - (length xs + 1))) by lia.
Qed.

(** The bytes [ends] are zero, the others as in [m]. *)
Definition cut (ends : list Z) (m m' : mem) : Prop :=
  forall x, rd8 m' x = if bool_decide (x ∈ ends) then 0 else rd8 m x.

Lemma cut_trans e1 e2 m m1 m2 : cut e1 m m1 -> cut e2 m1 m2 -> cut (e1 ++ e2) m m2.
Proof.
  intros H1 H2 x. rewrite H2, H1. repeat case_bool_decide; try done; set_solver.
Qed.

Lemma cut_one e m : cut [e] m (wr8 m e 0).
Proof. intros x. rewrite rd8_wr8. destruct (Z.eqb_spec x e), (bool_decide_reflect (x ∈ [e])); try done; set_solver. Qed.

Lemma wp_nul_args args argv eargv (Q : unit -> Sh -> Prop) st :
  argv = slots args.*1 -> eargv = slots args.*2 -> (length args < MAXARGS)%nat -> Forall (fun w => w.1 <> 0) args ->
  (forall st', sh_cmds st' = sh_cmds st -> cut args.*2 (u_mem (sh_u st)) (u_mem (sh_u st')) -> Q tt st') ->
  wp (while (fun i =>
        match argv !! i, eargv !! i with
        | Some a, Some e => if a =? 0 then mret (inr tt) else usr (st8 e 0);; mret (inl (S i))
        | _, _ => fault
        end) 0%nat) Q st.
Proof.
  intros -> -> Hl Hnz HQ.
  apply (wp_while_idx (fun k i st' => (k + i = length args)%nat /\ sh_cmds st' = sh_cmds st /\
    cut (take i args).*2 (u_mem (sh_u st)) (u_mem (sh_u st')))) with (k := length args).
  - intros k i st1 (Hk & Hcs & Hcut). destruct (decide (k = 0%nat)) as [-> |Hk0].
    + rewrite <- (length_fmap fst args) in Hk. cbn in Hk. subst i. rewrite slots_zero by (by rewrite length_fmap).
      rewrite length_fmap. rewrite <- (length_fmap snd args). rewrite slots_zero by (by rewrite length_fmap). change (0 =? 0) with true. apply wp_ret.
      apply HQ; [done|]. by rewrite length_fmap, firstn_all in Hcut.
    + destruct (lookup_lt_is_Some_2 args i) as [[q e] Hqe]; [lia|]. pose proof (Forall_lookup_1 _ _ _ _ Hnz Hqe) as Hq. cbn in Hq.
      rewrite (slots_word _ i q) by (by rewrite list_lookup_fmap, Hqe). rewrite (slots_word _ i e) by (by rewrite list_lookup_fmap, Hqe).
      rewrite (proj2 (Z.eqb_neq _ _)) by done. unfold usr. wp_steps. cbn [lget lset Uof]. exists (k - 1)%nat. split; [lia|]. split; [lia|]. rsimpl. split; [done|].
      rewrite (take_S_r _ _ (q, e)) by done. rewrite fmap_app. eapply cut_trans; [exact Hcut|]. apply cut_one.
  - split; [lia|]. split; [done|]. intros x. cbn. by rewrite bool_decide_false by apply not_elem_of_nil.
  - apply lt_fuel. unfold MAXARGS in Hl. lia.
Qed.

Lemma wp_nulterminate t fuel p (Q : unit -> Sh -> Prop) st :
  tree_at (sh_cmds st) p t -> (Z.to_nat p < fuel)%nat -> Forall (fun w => w.1 <> 0) (words t) ->
  (forall st', sh_cmds st' = sh_cmds st -> cut (words t).*2 (u_mem (sh_u st)) (u_mem (sh_u st')) -> Q tt st') ->
  wp (nulterminate_rec fuel p) Q st.
Proof.
  revert fuel p Q st. induction t as [args|t IH q e mode fd|t1 IH1 t2 IH2|t1 IH1 t2 IH2|t IH]; intros [|fuel] p Q st [Hp Ht] Hf Hnz HQ; try lia;
    cbn [nulterminate_rec words] in *; rewrite (proj2 (Z.eqb_neq _ _)) by lia; unfold get_cmd; wp_steps; rewrite (proj2 (Z.leb_gt _ _)) by lia.
  - destruct Ht as [-> Hl]. wp_steps. eapply wp_nul_args; [by unfold slots; rewrite length_fmap|by unfold slots; rewrite length_fmap|done|done|done].
  - destruct Ht as (c & -> & Hc & Ht). wp_steps. apply Forall_cons in Hnz as [Hq Hnz]. eapply IH; [exact Ht|lia|done|].
    intros st1 Hcs1 Hcut1. unfold usr. wp_steps. cbn [lget lset Uof]. apply HQ; rsimpl; [done|].
    pose proof (cut_trans _ _ _ _ _ Hcut1 (cut_one e _)) as Hc2. intros x. rewrite Hc2. cbn [fmap list_fmap snd].
    destruct (bool_decide_reflect (x ∈ (words t).*2 ++ [e])), (bool_decide_reflect (x ∈ e :: (words t).*2)); try done; set_solver.
  - destruct Ht as (a & b & -> & Ha & Hb & Ht1 & Ht2). wp_steps. apply Forall_app in Hnz as [Hn1 Hn2]. eapply IH1; [exact Ht1|lia|done|].
    intros st1 Hcs1 Hcut1. eapply IH2; [by rewrite Hcs1|lia|done|]. intros st2 Hcs2 Hcut2. apply HQ; [by rewrite Hcs2|].
    rewrite fmap_app. by eapply cut_trans.
  - destruct Ht as (a & b & -> & Ha & Hb & Ht1 & Ht2). wp_steps. apply Forall_app in Hnz as [Hn1 Hn2]. eapply IH1; [exact Ht1|lia|done|].
    intros st1 Hcs1 Hcut1. eapply IH2; [by rewrite Hcs1|lia|done|]. intros st2 Hcs2 Hcut2. apply HQ; [by rewrite Hcs2|].
    rewrite fmap_app. by eapply cut_trans.
  - destruct Ht as (c & -> & Hc & Ht). wp_steps. eapply IH; [exact Ht|lia|done|]. done.
Qed.

(** The characters of a word. *)
Definition word_text (w : word) : list Z := take (Z.to_nat (w.2 - w.1)) (drop (Z.to_nat (w.1 - s0)) l).

(** The words are strings once all the ends are zero. *)
Lemma cut_words ws m m' :
  str_at m s0 l -> Forall (fun w => tok_ok s0 l (Word w.1 w.2)) ws -> cut ws.*2 m m' ->
  Forall (fun w => str_at m' w.1 (word_text w)) ws.
Proof.
  intros [Hm Hz] Hok Hcut. apply Forall_forall. intros [q e] Hin. rewrite Forall_forall in Hok. pose proof (Hok _ Hin) as (Hq & He & Hw & _). cbn [fst snd] in *.
  assert (length (word_text (q, e)) = Z.to_nat (e - q)) as Hlw by (unfold word_text; cbn [fst snd]; rewrite length_take, length_drop; lia).
  assert (forall i c, word_text (q, e) !! i = Some c -> l !! (Z.to_nat (q - s0) + i)%nat = Some c) as Hlk.
  { intros i c. unfold word_text. cbn [fst snd]. rewrite lookup_take_Some, lookup_drop. by intros [? _]. }
  assert (forall x, q <= x < e -> x ∉ ws.*2) as Hno.
  { intros x Hx Hends. apply list_elem_of_fmap in Hends as ([q' e'] & -> & Hin'). cbn in Hx. destruct (Hok _ Hin') as (_ & _ & _ & Hend). cbn [fst snd] in *.
    specialize (Hw _ Hx). destruct Hend as [-> |Hend]; [lia|]. by rewrite Hend in Hw. }
  split.
  - intros i c Hi. apply lookup_app_Some in Hi as [Hi|[Hge Hi]].
    + pose proof (lookup_lt_Some _ _ _ Hi) as Hlt. rewrite Hcut, bool_decide_false by (apply Hno; lia).
      rewrite <- (Hm _ c (lookup_app_l_Some _ _ _ _ (Hlk i c Hi))). f_equal. lia.
    + destruct (i - length (word_text (q, e)))%nat as [|?] eqn:Ei; [|done]. injection Hi as <-.
      replace (q + Z.of_nat i) with e by lia. rewrite Hcut, bool_decide_true; [done|]. apply list_elem_of_fmap. by exists (q, e).
  - apply Forall_lookup. intros i c Hi. by eapply (Forall_lookup_1 _ _ _ _ Hz), Hlk.
Qed.

(** C3: the shell accepts exactly its grammar.  For every command line,
    [parsecmd] returns a well-formed tree of nodes if the tokens of the line
    have a syntax tree, the one of that syntax tree, and every word and file
    name in it has become a C string with exactly the characters of the word;
    if the tokens have no syntax tree (or a command has ten words) it exits
    with status 1.  It always does one of the two: the recursion and the loops
    of the parser end. *)
Theorem parsecmd_grammar st :
  0 < s0 -> str_at (u_mem (sh_u st)) s0 l ->
  wx (parsecmd s0) (fun r st' =>
    match r with
    | inl p => exists c, toks es l = line_toks c /\ line_ok c /\ tree_at (sh_cmds st') p (line_tree c) /\
        Forall (fun w => str_at (u_mem (sh_u st')) w.1 (word_text w)) (words (line_tree c))
    | inr n => n = 1 /\ forall c, line_ok c -> toks es l <> line_toks c
    end) st.
Proof.
  intros Hs0 Hin. assert (tokens_at s0 l s0 (toks es l)) as Hta.
  { exists l. split; [|done]. split; [lia|]. by exists []. }
  pose proof (toks_length s0 l _ _ Hta) as Htl. unfold parsecmd. apply wx_bind, wx_usr, wx_wp, (wp_ustrlen _ l); [done|done|].
  rewrite Nat2Z.id. set (N := (4 * length l + 4)%nat).
  assert (pline N (toks es l) <> Deep) as Hdeep by (apply parse_shallow; unfold N; lia).
  assert (forall c, line_ok c -> toks es l = line_toks c -> pline N (toks es l) = Found (line_tree c) []) as Hcomplete.
  { intros c Hok Heq. destruct (proj1 parse_complete c N [] Hok) as [Hd|Hf]; [done|rewrite app_nil_r, <- Heq in Hd; done|by rewrite app_nil_r, <- Heq in Hf]. }
  replace (st <| sh_u := sh_u st |>) with st by (by destruct st).
  apply wx_bind. eapply wx_mono; [apply (proj1 (wx_parse N)); [done|exact Hta|done]|].
  intros [[p s]|n] st1; cbn [answers]; [|intros [-> Hw]; split; [done|]; intros c Hok Heq; by rewrite (Hcomplete c Hok Heq) in Hw].
  intros (t & ts & Hf & Hta1 & Ht & Hp & _ & Hu). assert (in_text st1) as Hin1 by (unfold in_text; by rewrite Hu).
  apply wx_bind, wx_wp, (wp_peek s0 l Hlen _ ts); [done|done|constructor|]. intros s2 (r2 & Hat2 & Hr2) Hes. specialize (Hes eq_refl).
  destruct (Z.eqb_spec s2 es) as [-> |Hne]; cbn [negb].
  - rewrite (proj1 Hes eq_refl) in *. destruct (proj1 (parse_sound N) _ _ _ Hf) as (c & Hc & -> & Hok). rewrite app_nil_r in Hc.
    assert (Forall (fun w => tok_ok s0 l (Word w.1 w.2)) (words (line_tree c))) as Hws.
    { apply (toks_ok s0 l Hlen) in Hta. apply Forall_forall. intros w Hw. apply (proj1 words_toks) in Hw. rewrite <- Hc in Hw.
      apply list_elem_of_omap in Hw as ([k|q e] & Hw & [= <-]). rewrite Forall_forall in Hta. by apply Hta. }
    apply wx_bind, wx_ret. apply wx_wp. unfold nulterminate. wp_steps. unfold ptr_ok in Hp. eapply wp_nulterminate; [exact Ht|lia| |].
    { eapply Forall_impl; [exact Hws|]. intros w (Hq & _). lia. }
    intros st2 Hcs2 Hcut. wp_steps. exists c. split_and!; [done|done|by rewrite Hcs2|]. eapply cut_words; [exact Hin1|done|done].
  - apply wx_bind, wx_bind, wx_usr, wx_wp. unfold fprintf, vprintf.
    change (lit ("leftovers: %s" +:+ newline)) with (lit "leftovers: " ++ [37; 115; 10]).
    assert (exists pre, l = pre ++ r2 /\ s2 = s0 + Z.of_nat (length pre)) as (pre & Hpre & Hs2).
    { destruct Hat2 as [-> [pre E]]. exists pre. split; [done|]. apply (f_equal length) in E. rewrite length_app in E. lia. }
    assert (str_at (u_mem (sh_u st1)) s2 r2) as Hstr.
    { destruct Hin1 as [Hm Hz]. rewrite Hpre, <- app_assoc in Hm. apply holds_app in Hm as [_ Hm]. rewrite Hs2. split; [done|].
      rewrite Hpre in Hz. by apply Forall_app in Hz as [_ ?]. }
    eapply wp_mono; [apply (wp_leftovers s2 r2); [lia|exact Hstr|apply (f_equal length) in Hpre; rewrite length_app in Hpre; lia]|].
    intros _ u _. apply wx_sh_panic; [by apply (bool_decide_eq_true_1 _)|]. intros st2. split; [done|]. intros c Hok Heq.
    rewrite (Hcomplete c Hok Heq) in Hf. injection Hf as _ <-. by apply Hne, Hes.
Qed.

End parser.

(** ** Example: [a|(b;c)>d&] *)
Module ShDemo.

Definition text : list Z := lit "a|(b;c)>d&".

Definition start : @Sh UlibDemo.sys := @mkSh UlibDemo.sys (@mkU UlibDemo.sys (wrbytes ∅ 4096 text) []) [].

Definition syntax : cline :=
  LEnd (PMore (XSimple [IWord 4096 4097])
         (POne (XBlock (LSeq (POne (XSimple [IWord 4099 4100])) 0 (LEnd (POne (XSimple [IWord 4101 4102])) 0)) [(62, 4104, 4105)]))) 1.

Lemma parsecmd_grammar_witness :
  wx (@parsecmd UlibDemo.sys 4096) (fun r st' => exists p c, r = inl p /\ line_toks c = line_toks syntax /\
    @tree_at (@sh_cmds UlibDemo.sys st') p (line_tree c)) start.
Proof.
  assert (str_at (u_mem (sh_u start)) 4096 text) as Hstr.
  { split; [|by apply (bool_decide_eq_true_1 _)]. intros i c Hi. do 11 (destruct i as [|i]; [by injection Hi as <-|]). done. }
  assert (toks (4096 + Z.of_nat (length text)) text = line_toks syntax) as Htoks by reflexivity.
  eapply wx_mono; [exact (@parsecmd_grammar UlibDemo.sys 4096 text ltac:(cbn; lia) start ltac:(lia) Hstr)|].
  intros [p|n] st'.
  - intros (c & Hc & _ & Ht & _). exists p, c. split; [done|]. split; [by rewrite <- Hc|done].
  - intros [_ Hno]. exfalso. apply (Hno syntax); [|exact Htoks]. cbn. unfold MAXARGS. split; [split; [constructor|lia]|]. split; [split; split; [constructor|lia|constructor|lia]|]. constructor; [done|constructor].
Defined.

End ShDemo.
