(* ===== verification/Asm.v ===== *)
(** * Asm: the assembly routines and machine-mode start-up

    [kernel/entry.S], [kernel/start.c], [kernel/kernelvec.S],
    [kernel/swtch.S], [kernel/trampoline.S] and [user/initcode.S], as lists of
    instructions for a small machine: registers, control and status registers
    and memory behind an address translation. *)

From stdpp Require Import base list gmap strings.
From Stdlib Require Import ZArith Lia.
From S2P Require Import Prelude CMem Riscv.

(** ** The machine *)

Inductive reg :=
| ra | sp | gp | tp | t0 | t1 | t2 | s0 | s1 | a0 | a1 | a2 | a3 | a4 | a5 | a6 | a7
| s2 | s3 | s4 | s5 | s6 | s7 | s8 | s9 | s10 | s11 | t3 | t4 | t5 | t6.
#[export] Instance reg_eq_dec : EqDecision reg.
Proof. solve_decision. Defined.

Inductive csr :=
| mhartid | mstatus | mepc | medeleg | mideleg | mie | mtvec | mscratch | pmpaddr0 | pmpcfg0
| sie | sip | satp | sscratch | sstatus | sepc.
#[export] Instance csr_eq_dec : EqDecision csr.
Proof. solve_decision. Defined.

Inductive instr :=
| sd (src : reg) (off : Z) (base : reg)
| ld (dst : reg) (off : Z) (base : reg)
| li (dst : reg) (imm : Z)
| la (dst : reg) (addr : Z)
| add (dst x y : reg)
| addi (dst x : reg) (imm : Z)
| mul (dst x y : reg)
| csrw (c : csr) (src : reg)
| csrr (dst : reg) (c : csr)
| csrrw (dst : reg) (c : csr) (src : reg)
| sfence_vma
| call (target : Z)
| jr (r : reg)
| ret
| ecall
| sret
| mret.

Record machine := mkMachine {
  a_reg : reg -> Z;
  a_csr : csr -> Z;
  a_mem : mem;
}.
#[export] Instance machine_settable : Settable machine := {| mk_eta := fun a => mkMachine (a_reg a) (a_csr a) (a_mem a) |}.

Definition upd {A} `{EqDecision A} (f : A -> Z) (x : A) (v : Z) : A -> Z := fun y => if decide (y = x) then v else f y.

(** Where control goes when it leaves a list of instructions: to the next
    one, to an address, to a subroutine with the instructions after the call
    left, to the kernel, or back from a trap. *)
Inductive next := Fall | Jump (pc : Z) | Call (target : Z) (rest : list instr) | Ecall (rest : list instr) | Sret | Mret.

Section machine.
(** The translation of addresses under a value of [satp]. *)
Variable tr : Z -> Z -> Z.

Definition addr (s : machine) (off : Z) (base : reg) : Z := tr (a_csr s satp) (u64 (a_reg s base + off)).

Definition step (i : instr) (s : machine) : machine :=
  match i with
  | sd src off base => s <| a_mem ::= fun m => store64 m (addr s off base) (a_reg s src) |>
  | ld dst off base => s <| a_reg ::= fun r => upd r dst (load64 (a_mem s) (addr s off base)) |>
  | li dst imm => s <| a_reg ::= fun r => upd r dst imm |>
  | la dst a => s <| a_reg ::= fun r => upd r dst a |>
  | add dst x y => s <| a_reg ::= fun r => upd r dst (u64 (r x + r y)) |>
  | addi dst x imm => s <| a_reg ::= fun r => upd r dst (u64 (r x + imm)) |>
  | mul dst x y => s <| a_reg ::= fun r => upd r dst (u64 (r x * r y)) |>
  | csrw c src => s <| a_csr ::= fun f => upd f c (a_reg s src) |>
  | csrr dst c => s <| a_reg ::= fun r => upd r dst (a_csr s c) |>
  | csrrw dst c src => s <| a_reg ::= fun r => upd r dst (a_csr s c) |> <| a_csr ::= fun f => upd f c (a_reg s src) |>
  | _ => s
  end.

Fixpoint run (l : list instr) (s : machine) : next * machine :=
  match l with
  | [] => (Fall, s)
  | call f :: l' => (Call f l', s)
  | jr r :: _ => (Jump (a_reg s r), s)
  | ret :: _ => (Jump (a_reg s ra), s)
  | ecall :: l' => (Ecall l', s)
  | sret :: _ => (Sret, s)
  | mret :: _ => (Mret, s)
  | i :: l' => run l' (step i s)
  end.
End machine.

(** ** [kernel/trampoline.S] *)

Definition uservec : list instr :=
  [ csrw sscratch a0;
    li a0 TRAPFRAME;
    sd ra 40 a0; sd sp 48 a0; sd gp 56 a0; sd tp 64 a0; sd t0 72 a0; sd t1 80 a0; sd t2 88 a0; sd s0 96 a0;
    sd s1 104 a0; sd a1 120 a0; sd a2 128 a0; sd a3 136 a0; sd a4 144 a0; sd a5 152 a0; sd a6 160 a0; sd a7 168 a0;
    sd s2 176 a0; sd s3 184 a0; sd s4 192 a0; sd s5 200 a0; sd s6 208 a0; sd s7 216 a0; sd s8 224 a0; sd s9 232 a0;
    sd s10 240 a0; sd s11 248 a0; sd t3 256 a0; sd t4 264 a0; sd t5 272 a0; sd t6 280 a0;
    csrr t0 sscratch;
    sd t0 112 a0;
    ld sp 8 a0;
    ld tp 32 a0;
    ld t0 16 a0;
    ld t1 0 a0;
    sfence_vma;
    csrw satp t1;
    sfence_vma;
    jr t0 ].

Definition userret : list instr :=
  [ sfence_vma;
    csrw satp a0;
    sfence_vma;
    li a0 TRAPFRAME;
    ld ra 40 a0; ld sp 48 a0; ld gp 56 a0; ld tp 64 a0; ld t0 72 a0; ld t1 80 a0; ld t2 88 a0; ld s0 96 a0;
    ld s1 104 a0; ld a1 120 a0; ld a2 128 a0; ld a3 136 a0; ld a4 144 a0; ld a5 152 a0; ld a6 160 a0; ld a7 168 a0;
    ld s2 176 a0; ld s3 184 a0; ld s4 192 a0; ld s5 200 a0; ld s6 208 a0; ld s7 216 a0; ld s8 224 a0; ld s9 232 a0;
    ld s10 240 a0; ld s11 248 a0; ld t3 256 a0; ld t4 264 a0; ld t5 272 a0; ld t6 280 a0;
    ld a0 112 a0;
    sret ].

(** ** [kernel/swtch.S] *)

Definition swtch : list instr :=
  [ sd ra 0 a0; sd sp 8 a0; sd s0 16 a0; sd s1 24 a0; sd s2 32 a0; sd s3 40 a0; sd s4 48 a0; sd s5 56 a0;
    sd s6 64 a0; sd s7 72 a0; sd s8 80 a0; sd s9 88 a0; sd s10 96 a0; sd s11 104 a0;
    ld ra 0 a1; ld sp 8 a1; ld s0 16 a1; ld s1 24 a1; ld s2 32 a1; ld s3 40 a1; ld s4 48 a1; ld s5 56 a1;
    ld s6 64 a1; ld s7 72 a1; ld s8 80 a1; ld s9 88 a1; ld s10 96 a1; ld s11 104 a1;
    ret ].

(** ** [kernel/kernelvec.S] *)

(** [kerneltrap] is the address of the C function. *)
Definition kernelvec (kerneltrap : Z) : list instr :=
  [ addi sp sp (-256);
    sd ra 0 sp; sd sp 8 sp; sd gp 16 sp; sd tp 24 sp; sd t0 32 sp; sd t1 40 sp; sd t2 48 sp; sd s0 56 sp;
    sd s1 64 sp; sd a0 72 sp; sd a1 80 sp; sd a2 88 sp; sd a3 96 sp; sd a4 104 sp; sd a5 112 sp; sd a6 120 sp;
    sd a7 128 sp; sd s2 136 sp; sd s3 144 sp; sd s4 152 sp; sd s5 160 sp; sd s6 168 sp; sd s7 176 sp; sd s8 184 sp;
    sd s9 192 sp; sd s10 200 sp; sd s11 208 sp; sd t3 216 sp; sd t4 224 sp; sd t5 232 sp; sd t6 240 sp;
    call kerneltrap;
    ld ra 0 sp; ld sp 8 sp; ld gp 16 sp; ld t0 32 sp; ld t1 40 sp; ld t2 48 sp; ld s0 56 sp;
    ld s1 64 sp; ld a0 72 sp; ld a1 80 sp; ld a2 88 sp; ld a3 96 sp; ld a4 104 sp; ld a5 112 sp; ld a6 120 sp;
    ld a7 128 sp; ld s2 136 sp; ld s3 144 sp; ld s4 152 sp; ld s5 160 sp; ld s6 168 sp; ld s7 176 sp; ld s8 184 sp;
    ld s9 192 sp; ld s10 200 sp; ld s11 208 sp; ld t3 216 sp; ld t4 224 sp; ld t5 232 sp; ld t6 240 sp;
    addi sp sp 256;
    sret ].

Definition timervec : list instr :=
  [ csrrw a0 mscratch a0;
    sd a1 0 a0;
    sd a2 8 a0;
    sd a3 16 a0;
    ld a1 24 a0;
    ld a2 32 a0;
    ld a3 0 a1;
    add a3 a3 a2;
    sd a3 0 a1;
    li a1 2;
    csrw sip a1;
    ld a3 16 a0;
    ld a2 8 a0;
    ld a1 0 a0;
    csrrw a0 mscratch a0;
    mret ].

(** ** [kernel/entry.S]; the loop after the call is never reached. *)

Definition entry (stack0 start : Z) : list instr :=
  [ la sp stack0;
    li a0 (1024 * 4);
    csrr a1 mhartid;
    addi a1 a1 1;
    mul a0 a0 a1;
    add sp sp a0;
    call start ].

(** ** [user/initcode.S], up to the second [ecall] *)

Definition initcode_S (init argv SYS_exec SYS_exit : Z) : list instr :=
  [ la a0 init;
    la a1 argv;
    li a7 SYS_exec;
    ecall;
    li a7 SYS_exit;
    ecall ].

(** ** [kernel/start.c] *)

Definition MSTATUS_MPP_MASK : Z := Z.shiftl 3 11.
Definition MSTATUS_MPP_S : Z := Z.shiftl 1 11.
Definition MSTATUS_MIE : Z := Z.shiftl 1 3.
Definition SIE_SEIE : Z := Z.shiftl 1 9.
Definition SIE_STIE : Z := Z.shiftl 1 5.
Definition SIE_SSIE : Z := Z.shiftl 1 1.
Definition MIE_MTIE : Z := Z.shiftl 1 7.
Definition CLINT : Z := 0x2000000.
Definition CLINT_MTIMECMP (hartid : Z) : Z := CLINT + 0x4000 + 8 * hartid.
Definition CLINT_MTIME : Z := CLINT + 0xBFF8.

Section start.
(** The addresses of [timer_scratch], [timervec] and [main]. *)
Variables (timer_scratch timervec_at main_at : Z).

Definition r_csr (c : csr) : M machine Z := gets (fun s => a_csr s c).
Definition w_csr (c : csr) (x : Z) : M machine unit := modify (fun s => s <| a_csr ::= fun f => upd f c x |>).
Definition w_tp (x : Z) : M machine unit := modify (fun s => s <| a_reg ::= fun r => upd r tp x |>).
Definition rd64 (a : Z) : M machine Z := gets (fun s => load64 (a_mem s) a).
Definition wr64 (a x : Z) : M machine unit := modify (fun s => s <| a_mem ::= fun m => store64 m a x |>).

Definition timerinit : M machine unit :=
  x ← r_csr mhartid;
  let id := i32 x in
  let interval := 1000000 in
  time ← rd64 CLINT_MTIME;
  wr64 (CLINT_MTIMECMP id) (u64 (time + interval));;
  let scratch := timer_scratch + 40 * id in
  wr64 (scratch + 24) (CLINT_MTIMECMP id);;
  wr64 (scratch + 32) interval;;
  w_csr mscratch scratch;;
  w_csr mtvec timervec_at;;
  x ← r_csr mstatus;
  w_csr mstatus (Z.lor x MSTATUS_MIE);;
  x ← r_csr mie;
  w_csr mie (Z.lor x MIE_MTIE).

(** [mret] leaves [start] for the address in [mepc]. *)
Definition start : M machine next :=
  x ← r_csr mstatus;
  let x := Z.land x (Z.lnot MSTATUS_MPP_MASK) in
  let x := Z.lor x MSTATUS_MPP_S in
  w_csr mstatus x;;
  w_csr mepc main_at;;
  w_csr satp 0;;
  w_csr medeleg 0xffff;;
  w_csr mideleg 0xffff;;
  x ← r_csr sie;
  w_csr sie (Z.lor (Z.lor (Z.lor x SIE_SEIE) SIE_STIE) SIE_SSIE);;
  w_csr pmpaddr0 0x3fffffffffffff;;
  w_csr pmpcfg0 0xf;;
  timerinit;;
  x ← r_csr mhartid;
  w_tp (i32 x);;
  stdpp.base.mret Mret.
End start.
