(* ===== verification/AsmSpec.v ===== *)
(** * AsmSpec: traps, interrupts and context switches keep the registers

    What the routines of [Asm] guarantee to the code they interrupt or switch
    away from. *)

From stdpp Require Import base list gmap strings.
From Stdlib Require Import ZArith Lia.
From S2P Require Import Prelude CMem Riscv Proc Asm.

(** ** Blocks of stores and loads *)

Definition saves (L : list (reg * Z)) (base : reg) : list instr := (fun p => sd p.1 p.2 base) <$> L.
Definition loads (L : list (reg * Z)) (base : reg) : list instr := (fun p => ld p.1 p.2 base) <$> L.

Definition stores (R : reg -> Z) (pa : Z) (L : list (reg * Z)) (m : mem) : mem :=
  foldl (fun m p => store64 m (pa + p.2) (R p.1)) m L.
Definition fetches (m : mem) (pa : Z) (L : list (reg * Z)) (R : reg -> Z) : reg -> Z :=
  foldl (fun R p => upd R p.1 (load64 m (pa + p.2))) R L.

(** Offsets of different words. *)
Definition spaced (L : list (reg * Z)) : Prop := NoDup L.*2 /\ Forall (fun p => p.2 mod 8 = 0 /\ 0 <= p.2 < 4096) L.

Lemma upd_eq {A} `{EqDecision A} f (x : A) v : upd f x v x = v.
Proof. unfold upd. by rewrite decide_True. Qed.

Lemma upd_ne {A} `{EqDecision A} f (x y : A) v : y <> x -> upd f x v y = f y.
Proof. intros. unfold upd. by rewrite decide_False. Qed.

Lemma words_apart a b : a mod 8 = 0 -> b mod 8 = 0 -> a <> b -> a + 8 <= b \/ b + 8 <= a.
Proof. intros. pose proof (Z.div_mod a 8). pose proof (Z.div_mod b 8). lia. Qed.

Lemma stores_out R pa L m o : Forall (fun p => p.2 mod 8 = 0 /\ p.2 <> o) L -> o mod 8 = 0 -> load64 (stores R pa L m) (pa + o) = load64 m (pa + o).
Proof.
  intros HL Ho. revert m. induction L as [|[r o'] L IH]; intros m; cbn; [done|]. apply Forall_cons in HL as [[H8 Hne] HL]. cbn in *.
  fold (stores R pa L (store64 m (pa + o') (R r))). rewrite IH by done. apply load64_store64_ne. destruct (words_apart o' o); lia.
Qed.

Lemma stores_in R pa L m r o : spaced L -> (r, o) ∈ L -> 0 <= R r < 2 ^ 64 -> load64 (stores R pa L m) (pa + o) = R r.
Proof.
  intros [Hnd Hal] Hin Hr. revert m. induction L as [|[r' o'] L IH]; intros m; [by apply not_elem_of_nil in Hin|].
  cbn in Hnd. apply NoDup_cons in Hnd as [Hno Hnd]. apply Forall_cons in Hal as [[H8 _] Hal]. cbn in *.
  apply elem_of_cons in Hin as [[= <- <-]|Hin]; [|by apply IH]. fold (stores R pa L (store64 m (pa + o) (R r))).
  rewrite stores_out; [by apply load64_store64_eq| |done].
  apply Forall_forall. intros [r2 o2] Hin2. rewrite Forall_forall in Hal. split; [by apply (Hal (r2, o2))|]. cbn. intros ->.
  apply Hno. apply list_elem_of_fmap. by exists (r2, o).
Qed.

Lemma stores_rd8 R pa L m x : (forall p, p ∈ L -> x < pa + p.2 \/ pa + p.2 + 8 <= x) -> rd8 (stores R pa L m) x = rd8 m x.
Proof.
  revert m. induction L as [|[r o] L IH]; intros m Hx; cbn; [done|]. fold (stores R pa L (store64 m (pa + o) (R r))).
  rewrite IH by (intros p Hp; apply Hx; set_solver). apply rd8_store64_out. specialize (Hx (r, o) ltac:(set_solver)). cbn in Hx. lia.
Qed.

Lemma fetches_out m pa L R r : r ∉ L.*1 -> fetches m pa L R r = R r.
Proof.
  revert R. induction L as [|[r' o] L IH]; intros R Hr; cbn in *; [done|]. fold (fetches m pa L (upd R r' (load64 m (pa + o)))).
  rewrite IH by set_solver. apply upd_ne. set_solver.
Qed.

Lemma fetches_in m pa L R r o : NoDup L.*1 -> (r, o) ∈ L -> fetches m pa L R r = load64 m (pa + o).
Proof.
  revert R. induction L as [|[r' o'] L IH]; intros R Hnd Hin; [by apply not_elem_of_nil in Hin|]. cbn in *.
  apply NoDup_cons in Hnd as [Hno Hnd]. fold (fetches m pa L (upd R r' (load64 m (pa + o')))).
  apply elem_of_cons in Hin as [[= <- <-]|Hin]; [|by apply IH]. rewrite fetches_out by done. apply upd_eq.
Qed.

Section blocks.
Variables (tr : Z -> Z -> Z) (pa : Z).

(** The page that starts at the address in [base] is at [pa]. *)
Definition page_at (s : machine) (base : reg) (n : Z) : Prop :=
  forall o, 0 <= o < n -> addr tr s o base = pa + o.

Lemma run_saves L base l s n :
  page_at s base n -> Forall (fun p => 0 <= p.2 < n) L ->
  run tr (saves L base ++ l) s = run tr l (s <| a_mem ::= stores (a_reg s) pa L |>).
Proof.
  intros Hp HL. assert (forall m, s <| a_mem ::= fun _ => m |> = mkMachine (a_reg s) (a_csr s) m) as Es by done.
  replace (s <| a_mem ::= stores (a_reg s) pa L |>) with (mkMachine (a_reg s) (a_csr s) (stores (a_reg s) pa L (a_mem s))) by done.
  replace s with (mkMachine (a_reg s) (a_csr s) (a_mem s)) at 1 by (by destruct s). generalize (a_mem s) as m. clear Es.
  induction L as [|[r o] L IH]; intros m; cbn [saves fmap list_fmap app]; [done|]. apply Forall_cons in HL as [Ho HL]. cbn [run fst snd].
  assert (step tr (sd r o base) (mkMachine (a_reg s) (a_csr s) m) = mkMachine (a_reg s) (a_csr s) (store64 m (pa + o) (a_reg s r))) as ->.
  { unfold step. change (addr tr (mkMachine (a_reg s) (a_csr s) m) o base) with (addr tr s o base). rewrite (Hp o) by done. done. }
  exact (IH HL _).
Qed.

Lemma run_loads L base l s n :
  page_at s base n -> Forall (fun p => 0 <= p.2 < n) L -> base ∉ L.*1 ->
  run tr (loads L base ++ l) s = run tr l (s <| a_reg ::= fetches (a_mem s) pa L |>).
Proof.
  intros Hp HL. replace (s <| a_reg ::= fetches (a_mem s) pa L |>) with (mkMachine (fetches (a_mem s) pa L (a_reg s)) (a_csr s) (a_mem s)) by done.
  assert (forall R, R base = a_reg s base -> base ∉ L.*1 ->
    run tr (loads L base ++ l) (mkMachine R (a_csr s) (a_mem s)) = run tr l (mkMachine (fetches (a_mem s) pa L R) (a_csr s) (a_mem s))) as Hgen.
  { induction L as [|[r o] L IH]; intros R HR Hb; cbn [loads fmap list_fmap app]; [done|]. apply Forall_cons in HL as [Ho HL]. cbn [run fst snd].
    assert (step tr (ld r o base) (mkMachine R (a_csr s) (a_mem s)) = mkMachine (upd R r (load64 (a_mem s) (pa + o))) (a_csr s) (a_mem s)) as ->.
    { unfold step. assert (addr tr (mkMachine R (a_csr s) (a_mem s)) o base = pa + o) as ->; [|done].
      rewrite <- (Hp o Ho). unfold addr. cbn. by rewrite HR. }
    cbn in Hb. exact (IH HL (upd R r (load64 (a_mem s) (pa + o))) ltac:(rewrite upd_ne; [done|set_solver]) ltac:(set_solver)). }
  intros Hb. rewrite <- Hgen by done. by destruct s.
Qed.
End blocks.

(** ** The trampoline *)

(** Where a register is in the trap frame, [kernel/proc.h]. *)
Definition frame : list (reg * Z) :=
  [ (ra, 40); (sp, 48); (gp, 56); (tp, 64); (t0, 72); (t1, 80); (t2, 88); (s0, 96); (s1, 104); (a1, 120); (a2, 128); (a3, 136); (a4, 144);
    (a5, 152); (a6, 160); (a7, 168); (s2, 176); (s3, 184); (s4, 192); (s5, 200); (s6, 208); (s7, 216); (s8, 224); (s9, 232); (s10, 240);
    (s11, 248); (t3, 256); (t4, 264); (t5, 272); (t6, 280) ].

Lemma frame_spaced : spaced (frame ++ [(a0, 112)]).
Proof. split; by apply (bool_decide_eq_true_1 _). Qed.

Lemma frame_regs : NoDup frame.*1.
Proof. by apply (bool_decide_eq_true_1 _). Qed.

Lemma frame_all r : r = a0 \/ exists o, (r, o) ∈ frame.
Proof. destruct r; (by left) || (right; eexists; unfold frame; repeat (apply list_elem_of_here || apply list_elem_of_further)). Qed.

(** The kernel reads and writes the same fields. *)
Lemma frame_fields :
  (sp, tf_offset tf_sp) ∈ frame /\ (a1, tf_offset tf_a1) ∈ frame /\ (a2, tf_offset tf_a2) ∈ frame /\
  (a3, tf_offset tf_a3) ∈ frame /\ (a4, tf_offset tf_a4) ∈ frame /\ (a5, tf_offset tf_a5) ∈ frame /\
  (a7, tf_offset tf_a7) ∈ frame.
Proof. unfold frame. split_and!; set_solver. Qed.

Definition slot_of (r : reg) : Z := match find (fun p => bool_decide (p.1 = r)) frame with Some p => p.2 | None => tf_a0 end.

Lemma slot_of_frame r o : (r, o) ∈ frame -> slot_of r = o.
Proof. intros Hin. unfold frame in Hin. repeat (apply elem_of_cons in Hin as [[= -> ->]|Hin]; [done|]). by apply not_elem_of_nil in Hin. Qed.

Lemma uservec_shape : uservec = [csrw sscratch a0; li a0 TRAPFRAME] ++ saves frame a0 ++
  [csrr t0 sscratch; sd t0 112 a0; ld sp 8 a0; ld tp 32 a0; ld t0 16 a0; ld t1 0 a0; sfence_vma; csrw satp t1; sfence_vma; jr t0].
Proof. done. Qed.

Lemma userret_shape : userret = [sfence_vma; csrw satp a0; sfence_vma; li a0 TRAPFRAME] ++ loads frame a0 ++ [ld a0 112 a0; sret].
Proof. done. Qed.

Section trampoline.
Variables (tr : Z -> Z -> Z) (usatp pa : Z).
(** The user page table maps the page [TRAPFRAME] to [pa]. *)
Hypothesis Htr : forall o, 0 <= o < 4096 -> tr usatp (TRAPFRAME + o) = pa + o.

Lemma trapframe_page s : a_csr s satp = usatp -> a_reg s a0 = TRAPFRAME -> page_at tr pa s a0 4096.
Proof. intros Hs Ha o Ho. unfold addr. rewrite Hs, Ha, u64_small; [by apply Htr|]. change TRAPFRAME with 274877898752. lia. Qed.

Lemma run_uservec s :
  a_csr s satp = usatp -> (forall r, 0 <= a_reg s r < 2 ^ 64) ->
  exists s1, run tr uservec s = (Jump (load64 (a_mem s) (pa + tf_kernel_trap)), s1) /\
    a_csr s1 satp = load64 (a_mem s) (pa + tf_kernel_satp) /\ a_reg s1 sp = load64 (a_mem s) (pa + tf_kernel_sp) /\
    a_reg s1 tp = load64 (a_mem s) (pa + tf_kernel_hartid) /\ (forall r, load64 (a_mem s1) (pa + slot_of r) = a_reg s r) /\
    (forall x, x < pa + 40 \/ pa + 288 <= x -> rd8 (a_mem s1) x = rd8 (a_mem s) x).
Proof.
  intros Hs Hr. set (sA := mkMachine (upd (a_reg s) a0 TRAPFRAME) (upd (a_csr s) sscratch (a_reg s a0)) (a_mem s)).
  assert (page_at tr pa sA a0 4096) as Hp by (by apply trapframe_page; [cbn; rewrite upd_ne|]).
  rewrite uservec_shape. cbn [app run]. change (step tr (li a0 TRAPFRAME) (step tr (csrw sscratch a0) s)) with sA.
  rewrite (run_saves tr pa frame a0 _ sA 4096); [|done|by apply (bool_decide_eq_true_1 _)].
  set (m1 := stores (a_reg sA) pa frame (a_mem s)).
  change (sA <| a_mem ::= stores (a_reg sA) pa frame |>) with (mkMachine (a_reg sA) (a_csr sA) m1). cbn [run].
  set (R1 := upd (a_reg sA) t0 (a_reg s a0)). set (m2 := store64 m1 (pa + 112) (a_reg s a0)).
  assert (step tr (sd t0 112 a0) (step tr (csrr t0 sscratch) (mkMachine (a_reg sA) (a_csr sA) m1)) = mkMachine R1 (a_csr sA) m2) as ->.
  { change (step tr (csrr t0 sscratch) (mkMachine (a_reg sA) (a_csr sA) m1)) with (mkMachine R1 (a_csr sA) m1).
    unfold step. assert (addr tr (mkMachine R1 (a_csr sA) m1) 112 a0 = pa + 112) as ->; [|done]. by rewrite <- (Hp 112) by lia. }
  assert (forall R o d, R a0 = TRAPFRAME -> 0 <= o < 4096 -> step tr (ld d o a0) (mkMachine R (a_csr sA) m2) =
    mkMachine (upd R d (load64 m2 (pa + o))) (a_csr sA) m2) as Hld.
  { intros R o d HR Ho. unfold step. assert (addr tr (mkMachine R (a_csr sA) m2) o a0 = pa + o) as ->; [|done].
    apply (trapframe_page (mkMachine R (a_csr sA) m2)); [cbn; by rewrite upd_ne|done|done]. }
  assert (forall o, o ∈ [0; 8; 16; 32] -> load64 m2 (pa + o) = load64 (a_mem s) (pa + o)) as Hk.
  { intros o Ho. assert (o mod 8 = 0 /\ 0 <= o <= 32) as Ho' by (repeat (apply elem_of_cons in Ho as [-> |Ho]; [done|]); by apply not_elem_of_nil in Ho).
    unfold m2. rewrite load64_store64_ne by lia. apply stores_out; [|by apply Ho'].
    assert (Forall (fun p => p.2 mod 8 = 0 /\ 40 <= p.2) frame) as Hfr by (by apply (bool_decide_eq_true_1 _)).
    eapply Forall_impl; [exact Hfr|]. cbn. lia. }
  assert (forall p, p ∈ frame -> 40 <= p.2 <= 280 /\ p.1 <> a0 /\ p.2 <> 112) as Hfr.
  { apply Forall_forall. by apply (bool_decide_eq_true_1 _). }
  rewrite !Hld by (done || lia). rewrite !Hk by set_solver. eexists. split; [reflexivity|]. split_and!; [done|done|done| |].
  - intros r. change (load64 m2 (pa + slot_of r) = a_reg s r). destruct (frame_all r) as [-> |[o Ho]].
    + change (slot_of a0) with 112. unfold m2. by rewrite load64_store64_eq.
    + rewrite (slot_of_frame _ _ Ho). destruct (Hfr _ Ho) as (H1 & H2 & H3). cbn [fst snd] in *.
      destruct frame_spaced as [Hnd Hal]. rewrite Forall_forall in Hal. pose proof (Hal (r, o) ltac:(apply elem_of_app; by left)) as [H8 _]. cbn [snd] in H8.
      unfold m2. rewrite load64_store64_ne by (destruct (words_apart 112 o); [done|done|lia|lia|lia]). unfold m1.
      rewrite (stores_in _ _ _ _ r o); [by apply upd_ne| |done|cbn; by rewrite upd_ne].
      split; [rewrite fmap_app in Hnd; by apply NoDup_app in Hnd as [? _]|]. apply Forall_forall. intros p Hin. apply Hal, elem_of_app. by left.
  - intros x Hx. change (rd8 m2 x = rd8 (a_mem s) x). unfold m2. rewrite rd8_store64_out by lia. apply stores_rd8. intros p Hin. destruct (Hfr p Hin). lia.
Qed.

Lemma run_userret s :
  a_reg s a0 = usatp ->
  exists s1, run tr userret s = (Sret, s1) /\ a_csr s1 satp = usatp /\ a_mem s1 = a_mem s /\
    forall r, a_reg s1 r = load64 (a_mem s) (pa + slot_of r).
Proof.
  intros Ha. set (sA := mkMachine (upd (a_reg s) a0 TRAPFRAME) (upd (a_csr s) satp (a_reg s a0)) (a_mem s)).
  assert (page_at tr pa sA a0 4096) as Hp by (by apply trapframe_page).
  rewrite userret_shape. cbn [app run]. change (step tr (li a0 TRAPFRAME) _) with sA.
  assert (forall p, p ∈ frame -> p.1 <> a0) as Hfr by (apply Forall_forall; by apply (bool_decide_eq_true_1 _)).
  rewrite (run_loads tr pa frame a0 _ sA 4096); [|done|by apply (bool_decide_eq_true_1 _)|by apply (bool_decide_eq_true_1 _)].
  set (R1 := fetches (a_mem s) pa frame (a_reg sA)).
  change (sA <| a_reg ::= fetches (a_mem sA) pa frame |>) with (mkMachine R1 (a_csr sA) (a_mem s)). cbn [run].
  assert (R1 a0 = TRAPFRAME) as HR by (apply fetches_out; by apply (bool_decide_eq_true_1 _)).
  assert (step tr (ld a0 112 a0) (mkMachine R1 (a_csr sA) (a_mem s)) = mkMachine (upd R1 a0 (load64 (a_mem s) (pa + 112))) (a_csr sA) (a_mem s)) as ->.
  { unfold step. assert (addr tr (mkMachine R1 (a_csr sA) (a_mem s)) 112 a0 = pa + 112) as ->; [|done].
    apply (trapframe_page (mkMachine R1 (a_csr sA) (a_mem s))); [done|done|lia]. }
  eexists. split; [reflexivity|]. split; [cbn; by rewrite upd_eq|]. split; [done|]. intros r. cbn [a_reg].
  destruct (frame_all r) as [-> |[o Ho]]; [by rewrite upd_eq|]. rewrite upd_ne by (by apply (Hfr (r, o))).
  rewrite (slot_of_frame _ _ Ho). apply fetches_in; [apply frame_regs|done].
Qed.

(** C11: a trap is invisible to the user program.  When a process traps,
    [uservec] saves its 31 registers in the trap frame and enters the kernel
    at [kernel_trap] with the kernel's stack, page table and hart number;
    whatever the kernel does after that, as long as it does not write the
    saved registers, [userret] with the page table of the process goes back to
    it with every register as it was. *)
Theorem trampoline_roundtrip s :
  a_csr s satp = usatp -> (forall r, 0 <= a_reg s r < 2 ^ 64) ->
  exists s1, run tr uservec s = (Jump (load64 (a_mem s) (pa + tf_kernel_trap)), s1) /\
    a_csr s1 satp = load64 (a_mem s) (pa + tf_kernel_satp) /\ a_reg s1 sp = load64 (a_mem s) (pa + tf_kernel_sp) /\
    a_reg s1 tp = load64 (a_mem s) (pa + tf_kernel_hartid) /\
    (forall x, x < pa + 40 \/ pa + 288 <= x -> rd8 (a_mem s1) x = rd8 (a_mem s) x) /\
    forall s2, a_reg s2 a0 = usatp -> (forall x, pa + 40 <= x < pa + 288 -> rd8 (a_mem s2) x = rd8 (a_mem s1) x) ->
      exists s3, run tr userret s2 = (Sret, s3) /\ a_csr s3 satp = usatp /\ a_mem s3 = a_mem s2 /\ forall r, a_reg s3 r = a_reg s r.
Proof.
  intros Hs Hr. destruct (run_uservec s Hs Hr) as (s1 & Hrun & H1 & H2 & H3 & Hsave & Hout). exists s1. split_and!; try done.
  intros s2 Ha Hm. destruct (run_userret s2 Ha) as (s3 & Hrun3 & Hsatp & Hmem & Hregs). exists s3. split_and!; try done.
  intros r. rewrite Hregs, <- (Hsave r). apply load64_ext. intros x Hx. apply Hm.
  assert (40 <= slot_of r <= 280) by (by destruct r; apply (bool_decide_eq_true_1 _)). lia.
Qed.
End trampoline.

(** ** Context switches *)

(** Where a register is in [struct context]. *)
Definition ctx : list (reg * Z) :=
  [ (ra, 0); (sp, 8); (s0, 16); (s1, 24); (s2, 32); (s3, 40); (s4, 48); (s5, 56); (s6, 64); (s7, 72); (s8, 80); (s9, 88); (s10, 96); (s11, 104) ].

Lemma swtch_shape : swtch = saves ctx a0 ++ loads ctx a1 ++ [ret].
Proof. done. Qed.

Lemma ctx_facts : spaced ctx /\ NoDup ctx.*1 /\ Forall (fun p => 0 <= p.2 < 112) ctx /\ a0 ∉ ctx.*1 /\ a1 ∉ ctx.*1.
Proof. split; [split|]; [by apply (bool_decide_eq_true_1 _)..|]. by apply (bool_decide_eq_true_1 _). Qed.

Section switch.
Variable tr : Z -> Z -> Z.

(** The kernel's page table maps the context at [c] to itself. *)
Definition ctx_ok (s : machine) (c : Z) : Prop :=
  0 <= c /\ c + 112 <= 2 ^ 64 /\ forall x, c <= x < c + 112 -> tr (a_csr s satp) x = x.

Lemma ctx_page s base c : ctx_ok s c -> a_reg s base = c -> page_at tr c s base 112.
Proof. intros (H0 & Hmax & Hc) Hb o Ho. unfold addr. rewrite Hb, u64_small by lia. apply Hc. lia. Qed.

Lemma run_swtch s old new :
  a_reg s a0 = old -> a_reg s a1 = new -> ctx_ok s old -> ctx_ok s new -> (old + 112 <= new \/ new + 112 <= old) ->
  (forall r, 0 <= a_reg s r < 2 ^ 64) ->
  exists s1, run tr swtch s = (Jump (load64 (a_mem s) new), s1) /\
    (forall r o, (r, o) ∈ ctx -> a_reg s1 r = load64 (a_mem s) (new + o) /\ load64 (a_mem s1) (old + o) = a_reg s r) /\
    (forall r, r ∉ ctx.*1 -> a_reg s1 r = a_reg s r) /\ a_csr s1 = a_csr s /\
    (forall x, x < old \/ old + 112 <= x -> rd8 (a_mem s1) x = rd8 (a_mem s) x).
Proof.
  intros Ha0 Ha1 Hold Hnew Hap Hr. destruct ctx_facts as (Hsp & Hnd & Hoff & Hn0 & Hn1).
  rewrite swtch_shape, (run_saves tr old ctx a0 _ s 112) by (done || by apply ctx_page).
  set (m1 := stores (a_reg s) old ctx (a_mem s)). set (sB := mkMachine (a_reg s) (a_csr s) m1).
  change (s <| a_mem ::= stores (a_reg s) old ctx |>) with sB.
  rewrite (run_loads tr new ctx a1 _ sB 112); [|by apply ctx_page|done|done].
  assert (forall x, x < old \/ old + 112 <= x -> rd8 m1 x = rd8 (a_mem s) x) as Hm1.
  { intros x Hx. apply stores_rd8. intros p Hp. rewrite Forall_forall in Hoff. pose proof (Hoff p Hp). destruct Hsp as [_ Hal].
    rewrite Forall_forall in Hal. destruct (Hal p Hp) as [H8 _]. destruct (words_apart p.2 112); [done|done|lia|lia|lia]. }
  assert (forall r o, (r, o) ∈ ctx -> load64 m1 (new + o) = load64 (a_mem s) (new + o)) as Hload.
  { intros r o Hin. apply load64_ext. intros x Hx. apply Hm1. rewrite Forall_forall in Hoff. pose proof (Hoff _ Hin) as Ho.
    destruct Hsp as [_ Hal]. rewrite Forall_forall in Hal. destruct (Hal _ Hin) as [H8 _]. cbn [fst snd] in *. destruct (words_apart o 112); [done|done|lia|lia|lia]. }
  eexists. split; [cbn [run]; f_equal; f_equal; change (a_reg (sB <| a_reg ::= fetches (a_mem sB) new ctx |>) ra) with (fetches m1 new ctx (a_reg s) ra);
    rewrite (fetches_in _ _ _ _ ra 0); [by rewrite (Hload ra 0), Z.add_0_r by (by left)|done|by left]|].
  split_and!.
  - intros r o Hin. change (fetches m1 new ctx (a_reg s) r = load64 (a_mem s) (new + o) /\ load64 m1 (old + o) = a_reg s r). split; [rewrite (fetches_in _ _ _ _ r o) by done; by apply (Hload r)|by apply stores_in].
  - intros r Hin. by apply fetches_out.
  - done.
  - exact Hm1.
Qed.

(** C23: a thread that gives up the CPU comes back as it was.  [swtch(old, new)]
    resumes the thread whose context is [new] at the address and with the
    callee-saved registers and stack saved there; and when any thread later
    switches to [old], whose bytes nobody changed in between, control returns
    to the caller of the first [swtch] with its stack pointer and all its
    callee-saved registers. *)
Theorem swtch_resumes s old new :
  a_reg s a0 = old -> a_reg s a1 = new -> ctx_ok s old -> ctx_ok s new -> (old + 112 <= new \/ new + 112 <= old) ->
  (forall r, 0 <= a_reg s r < 2 ^ 64) ->
  exists s1, run tr swtch s = (Jump (load64 (a_mem s) new), s1) /\
    (forall r o, (r, o) ∈ ctx -> a_reg s1 r = load64 (a_mem s) (new + o)) /\
    forall s2 other, a_reg s2 a0 = other -> a_reg s2 a1 = old -> ctx_ok s2 other -> ctx_ok s2 old ->
      (other + 112 <= old \/ old + 112 <= other) -> (forall r, 0 <= a_reg s2 r < 2 ^ 64) ->
      (forall x, old <= x < old + 112 -> rd8 (a_mem s2) x = rd8 (a_mem s1) x) ->
      exists s3, run tr swtch s2 = (Jump (a_reg s ra), s3) /\ forall r, r ∈ ctx.*1 -> a_reg s3 r = a_reg s r.
Proof.
  intros Ha0 Ha1 Hold Hnew Hap Hr. destruct (run_swtch s old new Ha0 Ha1 Hold Hnew Hap Hr) as (s1 & Hrun & Hctx & _ & _ & _).
  exists s1. split; [done|]. split; [intros r o Hin; by apply (Hctx r o)|].
  intros s2 other Hb0 Hb1 Hoth Hold2 Hap2 Hr2 Hm. destruct (run_swtch s2 other old Hb0 Hb1 Hoth Hold2 Hap2 Hr2) as (s3 & Hrun3 & Hctx3 & _).
  assert (forall r o, (r, o) ∈ ctx -> load64 (a_mem s2) (old + o) = a_reg s r) as Hback.
  { intros r o Hin. rewrite <- (proj2 (Hctx r o Hin)). apply load64_ext. intros x Hx. apply Hm.
    destruct ctx_facts as ([_ Hal] & _ & Hoff & _). rewrite Forall_forall in Hoff, Hal. pose proof (Hoff _ Hin). destruct (Hal _ Hin) as [H8 _]. cbn [fst snd] in *.
    destruct (words_apart o 112); [done|done|lia|lia|lia]. }
  exists s3. split.
  - rewrite Hrun3. f_equal. f_equal. rewrite <- (Hback ra 0) by (by left). by rewrite Z.add_0_r.
  - intros r Hin. apply list_elem_of_fmap in Hin as ([r' o] & -> & Hin). cbn. rewrite (proj1 (Hctx3 _ _ Hin)). by apply Hback.
Qed.
End switch.

(** ** Interrupts in the kernel *)

Definition kframe : list (reg * Z) :=
  [ (gp, 16); (t0, 32); (t1, 40); (t2, 48); (s0, 56); (s1, 64); (a0, 72); (a1, 80); (a2, 88); (a3, 96); (a4, 104); (a5, 112); (a6, 120);
    (a7, 128); (s2, 136); (s3, 144); (s4, 152); (s5, 160); (s6, 168); (s7, 176); (s8, 184); (s9, 192); (s10, 200); (s11, 208); (t3, 216);
    (t4, 224); (t5, 232); (t6, 240) ].

Lemma kernelvec_shape k : kernelvec k = [addi sp sp (-256)] ++
  saves ([(ra, 0); (sp, 8); (gp, 16); (tp, 24)] ++ drop 1 kframe) sp ++ [call k] ++ [ld ra 0 sp; ld sp 8 sp] ++ loads kframe sp ++ [addi sp sp 256; sret].
Proof. done. Qed.

Lemma kframe_all r : r = ra \/ r = sp \/ r = tp \/ exists o, (r, o) ∈ kframe.
Proof. destruct r; (by left) || (right; by left) || (right; right; by left) || (right; right; right; eexists; unfold kframe; repeat (apply list_elem_of_here || apply list_elem_of_further)). Qed.

Section kernelvec.
Variables (tr : Z -> Z -> Z) (kerneltrap : Z).

(** The kernel's page table maps the stack below [top] to itself. *)
Definition stack_ok (s : machine) (top : Z) : Prop :=
  256 <= top < 2 ^ 64 /\ forall x, top - 256 <= x < top -> tr (a_csr s satp) x = x.

Lemma stack_page s top : stack_ok s top -> a_reg s sp = top - 256 -> page_at tr (top - 256) s sp 256.
Proof. intros (Hmax & Hc) Hb o Ho. unfold addr. rewrite Hb, u64_small by lia. apply Hc. lia. Qed.

(** C24: an interrupt in the kernel is invisible to the code it interrupts.
    [kernelvec] saves the registers below the stack pointer and calls
    [kerneltrap]; when that returns, with the stack pointer it was called with
    and the saved registers untouched, every register is restored, except
    [tp], which keeps the hart number in case the thread moved to another
    CPU. *)
Theorem kernelvec_transparent s :
  stack_ok s (a_reg s sp) -> (forall r, 0 <= a_reg s r < 2 ^ 64) ->
  exists s1 rest, run tr (kernelvec kerneltrap) s = (Call kerneltrap rest, s1) /\ a_reg s1 sp = a_reg s sp - 256 /\
    (forall x, x < a_reg s sp - 256 \/ a_reg s sp <= x -> rd8 (a_mem s1) x = rd8 (a_mem s) x) /\
    forall s2, a_reg s2 sp = a_reg s1 sp -> stack_ok s2 (a_reg s sp) ->
      (forall x, a_reg s sp - 256 <= x < a_reg s sp -> rd8 (a_mem s2) x = rd8 (a_mem s1) x) ->
      exists s3, run tr rest s2 = (Sret, s3) /\ a_mem s3 = a_mem s2 /\ a_csr s3 = a_csr s2 /\
        a_reg s3 tp = a_reg s2 tp /\ forall r, r <> tp -> a_reg s3 r = a_reg s r.
Proof.
  intros Hst Hr. pose proof Hst as [Htop _]. set (top := a_reg s sp) in *. set (L := [(ra, 0); (sp, 8); (gp, 16); (tp, 24)] ++ drop 1 kframe).
  set (RA := upd (a_reg s) sp (top - 256)). set (sA := mkMachine RA (a_csr s) (a_mem s)).
  assert (step tr (addi sp sp (-256)) s = sA) as HA.
  { change (mkMachine (upd (a_reg s) sp (u64 (top + -256))) (a_csr s) (a_mem s) = sA). unfold sA, RA. rewrite u64_small by lia. by replace (top + -256) with (top - 256) by lia. }
  rewrite kernelvec_shape. fold L. cbn [app run]. rewrite HA.
  assert (stack_ok sA top) as HstA by done.
  rewrite (run_saves tr (top - 256) L sp _ sA 256); [|by apply stack_page|by apply (bool_decide_eq_true_1 _)].
  set (m1 := stores RA (top - 256) L (a_mem s)). eexists _, _. split; [reflexivity|]. split; [done|].
  assert (Forall (fun p => p.2 mod 8 = 0 /\ 0 <= p.2 < 256) L) as HL by (by apply (bool_decide_eq_true_1 _)).
  split. { intros x Hx. apply stores_rd8. intros p Hp. rewrite Forall_forall in HL. destruct (HL p Hp) as [H8 Ho]. destruct (words_apart p.2 256); [done|done|lia|lia|lia]. }
  intros s2 Hsp Hst2 Hm. change (a_reg s2 sp = top - 256) in Hsp.
  assert (forall r o, (r, o) ∈ L -> 0 <= RA r < 2 ^ 64 -> load64 (a_mem s2) (top - 256 + o) = RA r) as Hback.
  { intros r o Hin Hrr. assert (spaced L) as Hsp' by (split; by apply (bool_decide_eq_true_1 _)).
    rewrite <- (stores_in RA (top - 256) L (a_mem s) r o Hsp' Hin Hrr). apply load64_ext. intros x Hx. apply Hm.
    rewrite Forall_forall in HL. destruct (HL _ Hin) as [H8 Ho]. cbn [fst snd] in *. destruct (words_apart o 256); [done|done|lia|lia|lia]. }
  assert (forall R o d, R sp = top - 256 -> 0 <= o < 256 -> step tr (ld d o sp) (mkMachine R (a_csr s2) (a_mem s2)) =
    mkMachine (upd R d (load64 (a_mem s2) (top - 256 + o))) (a_csr s2) (a_mem s2)) as Hld.
  { intros R o d HR Ho. unfold step. assert (addr tr (mkMachine R (a_csr s2) (a_mem s2)) o sp = top - 256 + o) as ->; [|done].
    by apply (stack_page (mkMachine R (a_csr s2) (a_mem s2)) top). }
  cbn [run]. assert (step tr (ld ra 0 sp) s2 = mkMachine (upd (a_reg s2) ra (load64 (a_mem s2) (top - 256 + 0))) (a_csr s2) (a_mem s2)) as ->.
  { rewrite <- (Hld (a_reg s2)) by (done || lia). by destruct s2. }
  rewrite Hld by (done || lia).
  rewrite (Hback ra 0), (Hback sp 8); [|right; by left|unfold RA; rewrite upd_eq; lia|by left|unfold RA; rewrite upd_ne by done; by apply Hr].
  set (R2 := upd (upd (a_reg s2) ra (RA ra)) sp (RA sp)).
  rewrite (run_loads tr (top - 256) kframe sp _ (mkMachine R2 (a_csr s2) (a_mem s2)) 256);
    [|by apply stack_page|by apply (bool_decide_eq_true_1 _)|by apply (bool_decide_eq_true_1 _)].
  set (R3 := fetches (a_mem s2) (top - 256) kframe R2). cbn [run].
  change ((mkMachine R2 (a_csr s2) (a_mem s2)) <| a_reg ::= fetches (a_mem (mkMachine R2 (a_csr s2) (a_mem s2))) (top - 256) kframe |>)
    with (mkMachine R3 (a_csr s2) (a_mem s2)).
  assert (R3 sp = top - 256) as HR3 by (apply fetches_out; by apply (bool_decide_eq_true_1 _)).
  assert (step tr (addi sp sp 256) (mkMachine R3 (a_csr s2) (a_mem s2)) = mkMachine (upd R3 sp top) (a_csr s2) (a_mem s2)) as ->.
  { change (mkMachine (upd R3 sp (u64 (R3 sp + 256))) (a_csr s2) (a_mem s2) = mkMachine (upd R3 sp top) (a_csr s2) (a_mem s2)).
    rewrite HR3, u64_small by lia. by replace (top - 256 + 256) with top by lia. }
  eexists. split; [reflexivity|]. split; [done|]. split; [done|]. cbn [a_reg]. split.
  { rewrite upd_ne by done. unfold R3. rewrite fetches_out by (by apply (bool_decide_eq_true_1 _)). done. }
  intros r Hne. destruct (kframe_all r) as [-> |[-> |[-> |[o Ho]]]]; [|by rewrite upd_eq|done|].
  - rewrite upd_ne by done. unfold R3. rewrite fetches_out by (by apply (bool_decide_eq_true_1 _)). done.
  - assert ((r, o) ∈ L /\ r <> sp) as [Hin Hsp2].
    { assert (forall p, p ∈ kframe -> p ∈ L /\ p.1 <> sp) as Hsub by (apply Forall_forall; by apply (bool_decide_eq_true_1 _)). by apply (Hsub (r, o)). }
    rewrite upd_ne by done. unfold R3. rewrite (fetches_in _ _ _ _ r o); [|by apply (bool_decide_eq_true_1 _)|done].
    rewrite (Hback r o Hin); unfold RA; rewrite upd_ne by done; [done|apply Hr].
Qed.
End kernelvec.

(** ** The timer *)

Section timer.

(** Machine mode: no translation. *)
Definition bare : Z -> Z -> Z := fun _ x => x.

Lemma run_timervec s c cmp interval :
  a_csr s mscratch = c -> load64 (a_mem s) (c + 24) = cmp -> load64 (a_mem s) (c + 32) = interval ->
  0 <= c /\ c + 40 <= 2 ^ 64 -> 0 <= cmp < 2 ^ 64 - 8 -> (c + 40 <= cmp \/ cmp + 8 <= c) -> (forall r, 0 <= a_reg s r < 2 ^ 64) ->
  exists s1, run bare timervec s = (Mret, s1) /\ (forall r, a_reg s1 r = a_reg s r) /\ a_csr s1 mscratch = c /\ a_csr s1 sip = 2 /\
    load64 (a_mem s1) cmp = u64 (load64 (a_mem s) cmp + interval) /\
    (forall x, (x < c \/ c + 24 <= x) -> (x < cmp \/ cmp + 8 <= x) -> rd8 (a_mem s1) x = rd8 (a_mem s) x).
Proof.
  intros Hc Hcmp Hint Hcr Hcmpr Hap Hr. destruct s as [R C m]. cbn [a_reg a_csr a_mem] in *.
  set (m1 := store64 (store64 (store64 m c (R a1)) (c + 8) (R a2)) (c + 16) (R a3)).
  set (m2 := store64 m1 cmp (u64 (load64 m cmp + interval))).
  assert (load64 m1 (c + 24) = cmp /\ load64 m1 (c + 32) = interval /\ load64 m1 cmp = load64 m cmp) as (H24 & H32 & Hcm).
  { unfold m1. rewrite !load64_store64_ne by lia. done. }
  assert (load64 m2 (c + 0) = R a1 /\ load64 m2 (c + 8) = R a2 /\ load64 m2 (c + 16) = R a3) as (L0 & L8 & L16).
  { rewrite Z.add_0_r. unfold m2, m1. split_and!.
    - by rewrite 3!load64_store64_ne, load64_store64_eq by (done || lia).
    - by rewrite 2!load64_store64_ne, load64_store64_eq by (done || lia).
    - by rewrite load64_store64_ne, load64_store64_eq by (done || lia). }
  set (C1 := upd C mscratch (R a0)). set (C2 := upd C1 sip 2).
  set (R1 := upd R a0 c). set (R2 := upd R1 a1 cmp). set (R3 := upd R2 a2 interval). set (R4 := upd R3 a3 (load64 m cmp)).
  set (R5 := upd R4 a3 (u64 (load64 m cmp + interval))). set (R6 := upd R5 a1 2).
  set (R7 := upd R6 a3 (R a3)). set (R8 := upd R7 a2 (R a2)). set (R9 := upd R8 a1 (R a1)).
  assert (forall o, 0 <= o < 40 -> u64 (c + o) = c + o) as Hu by (intros; apply u64_small; lia).
  assert (run bare timervec (mkMachine R C m) = (Mret, mkMachine (upd R9 a0 (R a0)) (upd C2 mscratch c) m2)) as Hrun.
  { unfold timervec. cbn [run].
    change (step bare (csrrw a0 mscratch a0) (mkMachine R C m)) with (mkMachine (upd R a0 (C mscratch)) C1 m). rewrite Hc. fold R1.
    change (step bare (sd a1 0 a0) (mkMachine R1 C1 m)) with (mkMachine R1 C1 (store64 m (u64 (c + 0)) (R a1))). rewrite Hu, Z.add_0_r by lia.
    change (step bare (sd a2 8 a0) ?s) with (s <| a_mem ::= fun m => store64 m (u64 (c + 8)) (R a2) |>).
    change (step bare (sd a3 16 a0) ?s) with (s <| a_mem ::= fun m => store64 m (u64 (c + 16)) (R a3) |>).
    rewrite !Hu by lia. change (mkMachine R1 C1 (store64 m c (R a1)) <| a_mem ::= _ |> <| a_mem ::= _ |>) with (mkMachine R1 C1 m1).
    change (step bare (ld a1 24 a0) (mkMachine R1 C1 m1)) with (mkMachine (upd R1 a1 (load64 m1 (u64 (c + 24)))) C1 m1). rewrite Hu, H24 by lia. fold R2.
    change (step bare (ld a2 32 a0) (mkMachine R2 C1 m1)) with (mkMachine (upd R2 a2 (load64 m1 (u64 (c + 32)))) C1 m1). rewrite Hu, H32 by lia. fold R3.
    change (step bare (ld a3 0 a1) (mkMachine R3 C1 m1)) with (mkMachine (upd R3 a3 (load64 m1 (u64 (cmp + 0)))) C1 m1).
    rewrite Z.add_0_r, u64_small, Hcm by lia. fold R4.
    change (step bare (add a3 a3 a2) (mkMachine R4 C1 m1)) with (mkMachine R5 C1 m1).
    change (step bare (sd a3 0 a1) (mkMachine R5 C1 m1)) with (mkMachine R5 C1 (store64 m1 (u64 (cmp + 0)) (u64 (load64 m cmp + interval)))).
    rewrite Z.add_0_r, (u64_small cmp) by lia. fold m2.
    change (step bare (csrw sip a1) (step bare (li a1 2) (mkMachine R5 C1 m2))) with (mkMachine R6 C2 m2).
    change (step bare (ld a3 16 a0) (mkMachine R6 C2 m2)) with (mkMachine (upd R6 a3 (load64 m2 (u64 (c + 16)))) C2 m2). rewrite Hu, L16 by lia. fold R7.
    change (step bare (ld a2 8 a0) (mkMachine R7 C2 m2)) with (mkMachine (upd R7 a2 (load64 m2 (u64 (c + 8)))) C2 m2). rewrite Hu, L8 by lia. fold R8.
    change (step bare (ld a1 0 a0) (mkMachine R8 C2 m2)) with (mkMachine (upd R8 a1 (load64 m2 (u64 (c + 0)))) C2 m2). rewrite Hu, L0 by lia. fold R9.
    reflexivity. }
  eexists. split; [exact Hrun|]. cbn [a_reg a_csr a_mem]. split_and!.
  - intros r. unfold R9, R8, R7, R6, R5, R4, R3, R2, R1, upd. repeat case_decide; by subst.
  - apply upd_eq.
  - done.
  - unfold m2. apply load64_store64_eq, u64_range.
  - intros x Hx Hx2. unfold m2, m1. rewrite !rd8_store64_out by lia. done.
Qed.
Variables (timer_scratch timervec_at main_at : Z).

(** The scratch areas of the 8 harts are memory, apart from the devices. *)
Hypothesis Hscratch : CLINT + 0x10000 <= timer_scratch /\ timer_scratch + 320 <= 2 ^ 63.

Lemma land_mpp x : Z.land (Z.lor (Z.lor (Z.land x (Z.lnot MSTATUS_MPP_MASK)) MSTATUS_MPP_S) MSTATUS_MIE) MSTATUS_MPP_MASK = MSTATUS_MPP_S.
Proof.
  apply Z.bits_inj'. intros n Hn. rewrite Z.land_spec, !Z.lor_spec, Z.land_spec, Z.lnot_spec by lia.
  destruct (Z.eq_dec n 11) as [-> |H11]; [cbn; by rewrite andb_false_r|]. destruct (Z.eq_dec n 12) as [-> |H12]; [cbn; by rewrite andb_false_r|].
  assert (Z.testbit MSTATUS_MPP_MASK n = false) as ->.
  { unfold MSTATUS_MPP_MASK. rewrite Z.shiftl_spec by lia. destruct (Z.eq_dec n 0); [by subst|]. destruct (Z_lt_ge_dec n 11); [by rewrite Z.testbit_neg_r by lia|].
    apply (Z.bits_above_log2 3); cbn; lia. }
  assert (Z.testbit MSTATUS_MPP_S n = false) as ->.
  { unfold MSTATUS_MPP_S. rewrite Z.shiftl_spec by lia. destruct (Z_lt_ge_dec n 11); [by rewrite Z.testbit_neg_r by lia|].
    apply (Z.bits_above_log2 1); cbn; lia. }
  by rewrite andb_false_r.
Qed.

Lemma land_lor_r x c : Z.land (Z.lor x c) c = c.
Proof. apply Z.bits_inj'. intros n _. rewrite Z.land_spec, Z.lor_spec. by destruct (Z.testbit x n), (Z.testbit c n). Qed.

(** C25: a hart that starts reaches [main] in supervisor mode with the clock
    running.  [start] leaves with [mret] for [main], with the previous
    privilege mode set to supervisor, all traps delegated, [tp] holding the
    hart number, machine-mode timer interrupts enabled and the timer set one
    interval ahead; from then on every timer
    interrupt, taken by [timervec] at any point of the execution, sets the
    timer one interval further and raises a supervisor software interrupt, and
    all registers of the interrupted code are as before. *)
Theorem start_timer s id :
  a_csr s mhartid = id -> 0 <= id < 8 ->
  wp (start timer_scratch timervec_at main_at) (fun next s1 =>
    next = Mret /\ a_csr s1 mepc = main_at /\ a_csr s1 mtvec = timervec_at /\ a_reg s1 tp = id /\
    Z.land (a_csr s1 mstatus) MSTATUS_MPP_MASK = MSTATUS_MPP_S /\ a_csr s1 medeleg = 0xffff /\ a_csr s1 mideleg = 0xffff /\
    Z.land (a_csr s1 mstatus) MSTATUS_MIE = MSTATUS_MIE /\ Z.land (a_csr s1 mie) MIE_MTIE = MIE_MTIE /\
    load64 (a_mem s1) (CLINT_MTIMECMP id) = u64 (load64 (a_mem s) CLINT_MTIME + 1000000) /\
    forall s2, a_csr s2 mscratch = a_csr s1 mscratch -> (forall r, 0 <= a_reg s2 r < 2 ^ 64) ->
      (forall x, a_csr s1 mscratch + 24 <= x < a_csr s1 mscratch + 40 -> rd8 (a_mem s2) x = rd8 (a_mem s1) x) ->
      exists s3, run bare timervec s2 = (Mret, s3) /\ (forall r, a_reg s3 r = a_reg s2 r) /\ a_csr s3 sip = 2 /\
        a_csr s3 mscratch = a_csr s2 mscratch /\
        (forall x, a_csr s1 mscratch + 24 <= x < a_csr s1 mscratch + 40 -> rd8 (a_mem s3) x = rd8 (a_mem s2) x) /\
        load64 (a_mem s3) (CLINT_MTIMECMP id) = u64 (load64 (a_mem s2) (CLINT_MTIMECMP id) + 1000000)) s.
Proof.
  intros Hid Hr. assert (i32 id = id) as Hi by (apply i32_small; unfold INT_MIN, INT_MAX; lia).
  assert (CLINT_MTIMECMP id = 0x2004000 + 8 * id) as Hcmp by (unfold CLINT_MTIMECMP, CLINT; lia). unfold CLINT in Hscratch.
  set (c := timer_scratch + 40 * id). set (t := u64 (load64 (a_mem s) CLINT_MTIME + 1000000)).
  set (m1 := store64 (store64 (store64 (a_mem s) (CLINT_MTIMECMP id) t) (c + 24) (CLINT_MTIMECMP id)) (c + 32) 1000000).
  set (ms := Z.lor (Z.land (a_csr s mstatus) (Z.lnot MSTATUS_MPP_MASK)) MSTATUS_MPP_S).
  set (C1 := upd (upd (upd (upd (upd (a_csr s) mstatus ms) mepc main_at) satp 0) medeleg 0xffff) mideleg 0xffff).
  set (C2 := upd (upd (upd C1 sie (Z.lor (Z.lor (Z.lor (a_csr s sie) SIE_SEIE) SIE_STIE) SIE_SSIE)) pmpaddr0 0x3fffffffffffff) pmpcfg0 0xf).
  set (C3 := upd (upd (upd (upd C2 mscratch c) mtvec timervec_at) mstatus (Z.lor ms MSTATUS_MIE)) mie (Z.lor (a_csr s mie) MIE_MTIE)).
  assert (start timer_scratch timervec_at main_at s = Ok Mret (mkMachine (upd (a_reg s) tp id) C3 m1)) as Hstart.
  { transitivity (start timer_scratch timervec_at main_at (mkMachine (a_reg s) (a_csr s) (a_mem s))); [by destruct s|].
    unfold m1, t, C3, c. rewrite <- Hi, <- Hid. reflexivity. }
  apply (wp_eq _ _ _ _ _ Hstart). cbn [a_reg a_csr a_mem].
  split; [done|]. split; [done|]. split; [done|]. split; [done|]. split.
  { change (Z.land (Z.lor ms MSTATUS_MIE) MSTATUS_MPP_MASK = MSTATUS_MPP_S). apply land_mpp. }
  split; [done|]. split; [done|]. split; [exact (land_lor_r ms _)|]. split; [exact (land_lor_r (a_csr s mie) _)|]. split.
  { unfold m1. rewrite !load64_store64_ne by (unfold c; lia). apply load64_store64_eq, u64_range. }
  intros s2 Hs2 Hr2 Hm. change (a_csr s2 mscratch = c) in Hs2. change (forall x, c + 24 <= x < c + 40 -> rd8 (a_mem s2) x = rd8 m1 x) in Hm.
  assert (load64 (a_mem s2) (c + 24) = CLINT_MTIMECMP id /\ load64 (a_mem s2) (c + 32) = 1000000) as [H24 H32].
  { rewrite (load64_ext _ m1 (c + 24)) by (intros; apply Hm; lia). rewrite (load64_ext _ m1 (c + 32)) by (intros; apply Hm; lia).
    unfold m1. rewrite load64_store64_ne, !load64_store64_eq by lia. done. }
  destruct (run_timervec s2 c (CLINT_MTIMECMP id) 1000000 Hs2 H24 H32 ltac:(unfold c; lia) ltac:(lia) ltac:(unfold c; lia) Hr2)
    as (s3 & Hrun & Hregs & Hsc & Hsip & Hload & Hout).
  exists s3. split_and!; try done; [by rewrite Hs2|]. intros x Hx. change (c + 24 <= x < c + 40) in Hx. apply Hout; [lia|]. unfold c in *. lia.
Qed.
End timer.

(** ** Examples *)
Module AsmDemo.

(** A machine with a stack at 3000 and contexts at 4096 and 5000, whose user
    page table has the trap frame at 8192. *)
Definition boot : machine := mkMachine (fun r => match r with a0 => 4096 | a1 => 5000 | sp => 3000 | _ => 7 end) (fun _ => 0) ∅.
Definition mmu : Z -> Z -> Z := fun _ x => if TRAPFRAME <=? x then x - TRAPFRAME + 8192 else x.

Lemma boot_regs r : 0 <= a_reg boot r < 2 ^ 64.
Proof. by destruct r. Qed.

Lemma mmu_low v x : x < 10000 -> mmu v x = x.
Proof. intros. unfold mmu. change TRAPFRAME with 274877898752. by rewrite (proj2 (Z.leb_gt _ _)) by lia. Qed.

Lemma trampoline_roundtrip_witness :
  exists s1 s3, run mmu uservec boot = (Jump 0, s1) /\
    run mmu userret (mkMachine (upd (a_reg s1) a0 0) (a_csr s1) (a_mem s1)) = (Sret, s3) /\ forall r, a_reg s3 r = a_reg boot r.
Proof.
  assert (forall o, 0 <= o < 4096 -> mmu 0 (TRAPFRAME + o) = 8192 + o) as Htr.
  { intros o Ho. unfold mmu. rewrite (proj2 (Z.leb_le _ _)) by lia. lia. }
  destruct (trampoline_roundtrip mmu 0 8192 Htr boot eq_refl boot_regs) as (s1 & H1 & _ & _ & _ & _ & H2).
  destruct (H2 (mkMachine (upd (a_reg s1) a0 0) (a_csr s1) (a_mem s1)) ltac:(by apply upd_eq) ltac:(done)) as (s3 & H3 & _ & _ & H4).
  exists s1, s3. split; [exact H1|]. split; [exact H3|exact H4].
Defined.

Lemma ctx_boot c s : 0 <= c < 9000 -> ctx_ok mmu s c.
Proof. intros Hc. split; [lia|]. split; [lia|]. intros x Hx. apply mmu_low. lia. Qed.

Lemma swtch_resumes_witness :
  exists s1, run mmu swtch boot = (Jump 0, s1) /\
    forall s2, a_reg s2 a0 = 6000 -> a_reg s2 a1 = 4096 -> (forall r, 0 <= a_reg s2 r < 2 ^ 64) -> a_mem s2 = a_mem s1 ->
      exists s3, run mmu swtch s2 = (Jump 7, s3) /\ a_reg s3 sp = 3000.
Proof.
  destruct (swtch_resumes mmu boot 4096 5000 eq_refl eq_refl (ctx_boot 4096 boot ltac:(lia)) (ctx_boot 5000 boot ltac:(lia)) ltac:(lia) boot_regs) as (s1 & H1 & _ & H2).
  exists s1. split; [exact H1|]. intros s2 Ha Hb Hr Hm.
  destruct (H2 s2 6000 Ha Hb (ctx_boot 6000 s2 ltac:(lia)) (ctx_boot 4096 s2 ltac:(lia)) ltac:(lia) Hr ltac:(intros; by rewrite Hm)) as (s3 & H3 & H4).
  exists s3. split; [exact H3|]. apply (H4 sp). right. by left.
Defined.

Lemma kernelvec_transparent_witness :
  exists s1 rest, run mmu (kernelvec 100) boot = (Call 100 rest, s1) /\
    exists s3, run mmu rest (mkMachine (upd (a_reg s1) t0 9) (a_csr s1) (a_mem s1)) = (Sret, s3) /\ a_reg s3 t0 = 7.
Proof.
  assert (forall s, stack_ok mmu s 3000) as Hst by (intros s; split; [lia|]; intros x Hx; apply mmu_low; lia).
  destruct (kernelvec_transparent mmu 100 boot (Hst _) boot_regs) as (s1 & rest & H1 & Hsp & _ & H2). exists s1, rest. split; [exact H1|].
  destruct (H2 (mkMachine (upd (a_reg s1) t0 9) (a_csr s1) (a_mem s1)) ltac:(done) (Hst _) ltac:(done)) as (s3 & H3 & _ & _ & _ & H4).
  exists s3. split; [exact H3|]. by rewrite (H4 t0).
Defined.

Lemma start_timer_witness :
  wp (start 0x80000000 0x1234 0x5678) (fun next s1 => next = Mret /\ a_csr s1 mepc = 0x5678 /\
    load64 (a_mem s1) (CLINT_MTIMECMP 0) = u64 (load64 (a_mem boot) CLINT_MTIME + 1000000)) boot.
Proof.
  eapply wp_mono; [exact (start_timer 0x80000000 0x1234 0x5678 ltac:(unfold CLINT; lia) boot 0 eq_refl ltac:(lia))|].
  intros n s1 (H1 & H2 & _ & _ & _ & _ & _ & _ & _ & H3 & _). split; [exact H1|]. split; [exact H2|exact H3].
Defined.

End AsmDemo.
