(* ===== verification/Mkfs.v ===== *)
(** * Mkfs: the builder of the file system image, [mkfs/mkfs.c]

    [mkfs] runs on the host, whose files it reaches through [open], [lseek],
    [read], [write] and [close]: the interface [Host].  The host stores its
    integers with the low byte first.  A [struct dinode], a [struct dirent]
    and an indirect block are their bytes, in the layout of [kernel/fs.h]. *)

From stdpp Require Import base list gmap functions strings.
From Stdlib Require Import ZArith Lia.
From S2P Require Import User Ulib Prelude CMem Riscv Spinlock Kalloc Vm Que KState Printf Proc Bio Log Fs.

(** ** The host *)

Inductive hcall :=
| HCreate (path : list Z)               (** [open(path, O_RDWR|O_CREAT|O_TRUNC, 0666)] *)
| HOpen (path : list Z)                 (** [open(path, 0)] *)
| HLseek (fd off : Z)                   (** [lseek(fd, off, 0)] *)
| HRead (fd n : Z)
| HWrite (fd : Z) (bytes : list Z)
| HClose (fd : Z)
| HPrintf (fmt : string) (args : list Z)
| HUsage
| HPerror (s : list Z).

(** The result of a call, the bytes it delivers, and the host after it. *)
Class Host := {
  HWorld : Type;
  hostcall : hcall -> HWorld -> Z * list Z * HWorld;
}.

(** ** Constants and variables *)

Definition FSSIZE : Z := 2000.
Definition NINODES : Z := 200.
Definition nbitmap : Z := FSSIZE / (BSIZE * 8) + 1.
Definition ninodeblocks : Z := NINODES / IPB + 1.
Definition nlog : Z := LOGSIZE.

Record mkfs `{Host} := mkMkfs {
  m_host : HWorld;
  m_fsfd : Z;
  m_sb : superblock;
  m_nmeta : Z;
  m_nblocks : Z;
  m_freeinode : Z;
  m_freeblock : Z;
}.
#[export] Instance mkfs_settable `{Host} : Settable mkfs :=
  {| mk_eta := fun s => mkMkfs _ (m_host s) (m_fsfd s) (m_sb s) (m_nmeta s) (m_nblocks s) (m_freeinode s) (m_freeblock s) |}.

Section mkfs.
Context `{Host}.

Definition host (c : hcall) : M mkfs (Z * list Z) := fun s =>
  let '(r, bs, w) := hostcall c (m_host s) in Ok (r, bs) (s <| m_host := w |>).

Definition die {A} (msg : list Z) : M mkfs A := host (HPerror msg);; leave 1.

Definition assert (b : bool) : M mkfs unit := if b then mret tt else panic "Assertion failed".

(** Convert to RISC-V byte order. *)
Definition xshort (x : Z) : Z := le_val (le_bytes 2 x).
Definition xint (x : Z) : Z := le_val (le_bytes 4 x).

(** ** Sectors *)

Definition wsect (sec : Z) (buf : list Z) : M mkfs unit :=
  fd ← gets m_fsfd;
  '(r, _) ← host (HLseek fd (u32 (sec * BSIZE)));
  (if negb (r =? u32 (sec * BSIZE)) then die (lit "lseek") else mret tt);;
  '(r, _) ← host (HWrite fd (take (Z.to_nat BSIZE) buf));
  if negb (r =? BSIZE) then die (lit "write") else mret tt.

Definition rsect (sec : Z) : M mkfs (list Z) :=
  fd ← gets m_fsfd;
  '(r, _) ← host (HLseek fd (u32 (sec * BSIZE)));
  (if negb (r =? u32 (sec * BSIZE)) then die (lit "lseek") else mret tt);;
  '(r, buf) ← host (HRead fd BSIZE);
  if negb (r =? BSIZE) then die (lit "read") else mret buf.

(** ** Inodes *)

Definition winode (inum : Z) (ip : list Z) : M mkfs unit :=
  sb ← gets m_sb;
  let bn := IBLOCK inum sb in
  buf ← rsect bn;
  wsect bn (list_inserts (Z.to_nat (dinode_off inum)) ip buf).

Definition rinode (inum : Z) : M mkfs (list Z) :=
  sb ← gets m_sb;
  let bn := IBLOCK inum sb in
  buf ← rsect bn;
  mret (take (Z.to_nat DINODE_SIZE) (drop (Z.to_nat (dinode_off inum)) buf)).

(** A [struct dinode] starts with [type], [major], [minor] and [nlink]; its
    size is at offset 8 and its addresses from offset 12. *)
Definition ialloc (type : Z) : M mkfs Z :=
  inum ← gets m_freeinode;
  modify (fun s => s <| m_freeinode := u32 (inum + 1) |>);;
  let din := replicate (Z.to_nat DINODE_SIZE) 0 in
  let din := st 2 din 0 (xshort type) in
  let din := st 2 din 6 (xshort 1) in
  let din := st32 din 8 (xint 0) in
  winode inum din;;
  mret inum.

Definition balloc (used : Z) : M mkfs unit :=
  host (HPrintf ("balloc: first %d blocks have been allocated" +:+ newline) [used]);;
  assert (used <? BSIZE * 8);;
  let bitmap := foldl (fun buf i => setb buf (i / 8) (Z.lor (getb buf (i / 8)) (Z.shiftl 1 (i mod 8))))
    (replicate (Z.to_nat BSIZE) 0) (seqZ 0 used) in
  sb ← gets m_sb;
  host (HPrintf ("balloc: write bitmap block at sector %d" +:+ newline) [sb_bmapstart sb]);;
  wsect (sb_bmapstart sb) bitmap.

(** [freeblock++] *)
Definition newblock : M mkfs Z :=
  b ← gets m_freeblock;
  modify (fun s => s <| m_freeblock := u32 (b + 1) |>);;
  mret b.

(** The block with byte [fbn * BSIZE] of the file with inode [din], and the
    inode once it has that block. *)
Definition iappend_block (din : list Z) (fbn : Z) : M mkfs (list Z * Z) :=
  if fbn <? Z.of_nat NDIRECT then
    let a := di_addr 0 (Z.to_nat fbn) in
    din ← (if xint (ld32 din a) =? 0 then b ← newblock; mret (st32 din a (xint b)) else mret din);
    mret (din, xint (ld32 din a))
  else
    let a := di_addr 0 NDIRECT in
    din ← (if xint (ld32 din a) =? 0 then b ← newblock; mret (st32 din a (xint b)) else mret din);
    indirect ← rsect (xint (ld32 din a));
    let i := (fbn - Z.of_nat NDIRECT) * 4 in
    indirect ← (if ld32 indirect i =? 0 then
                  b ← newblock;
                  let indirect := st32 indirect i (xint b) in
                  wsect (xint (ld32 din a)) indirect;;
                  mret indirect
                else mret indirect);
    mret (din, xint (ld32 indirect i)).

(** A turn of the loop of [iappend]: as much of [p] as fits into one block. *)
Definition iappend_body (st : list Z * Z * list Z * Z) : M mkfs (list Z * Z * list Z * Z + list Z * Z) :=
  let '(din, off, p, n) := st in
  if negb (0 <? n) then mret (inr (din, off)) else
  let fbn := off / BSIZE in
  assert (fbn <? MAXFILE);;
  '(din, x) ← iappend_block din fbn;
  let n1 := Z.min n (u32 ((fbn + 1) * BSIZE - off)) in
  buf ← rsect x;
  wsect x (list_inserts (Z.to_nat (off - fbn * BSIZE)) (take (Z.to_nat n1) p) buf);;
  mret (inl (din, u32 (off + n1), drop (Z.to_nat n1) p, n - n1)).

Definition iappend (inum : Z) (xp : list Z) (n : Z) : M mkfs unit :=
  din ← rinode inum;
  '(din, off) ← while iappend_body (din, xint (ld32 din 8), xp, n);
  winode inum (st32 din 8 (xint off)).

(** ** The image *)

Definition encode_sb (sb : superblock) : list Z :=
  mjoin (le_bytes 4 <$> [sb_magic sb; sb_size sb; sb_nblocks sb; sb_ninodes sb; sb_nlog sb; sb_logstart sb;
    sb_inodestart sb; sb_bmapstart sb]).

(** A [struct dirent] whose name, cleared first, holds [name]. *)
Definition dirent (inum : Z) (name : list Z) : list Z := le_bytes 2 (xshort inum) ++ name.
Definition bzero_name (name : list Z) : list Z := list_inserts 0 name (replicate (Z.to_nat DIRSIZ) 0).

(** The name that the file [path] gets: without [user/] and without the
    leading underscore. *)
Definition basename (path : list Z) : list Z :=
  if arr_strncmp path (lit "user/") 5 =? 0 then drop 5 path else path.
Definition skip_underscore (shortname : list Z) : list Z :=
  match shortname with 95 :: name => name | _ => shortname end.

(** [while((cc = read(fd, buf, sizeof(buf))) > 0) iappend(inum, buf, cc);] *)
Definition copy_file (fd inum : Z) (buf : list Z) : M mkfs (list Z) :=
  while (fun buf =>
    '(cc, bs) ← host (HRead fd BSIZE);
    let buf := list_inserts 0 bs buf in
    if negb (0 <? cc) then mret (inr buf) else
    iappend inum buf cc;;
    mret (inl buf)) buf.

Definition add_file (rootino : Z) (path buf : list Z) : M mkfs (list Z) :=
  let shortname := basename path in
  assert (bool_decide (SLASH ∉ shortname));;
  '(fd, _) ← host (HOpen path);
  (if fd <? 0 then die path else mret tt);;
  let shortname := skip_underscore shortname in
  inum ← ialloc T_FILE;
  iappend rootino (dirent inum (arr_strncpy (replicate (Z.to_nat DIRSIZ) 0) shortname DIRSIZ)) DIRENT_SIZE;;
  buf ← copy_file fd inum buf;
  host (HClose fd);;
  mret buf.

Fixpoint add_files (rootino : Z) (paths : list (list Z)) (buf : list Z) : M mkfs unit :=
  match paths with
  | [] => mret tt
  | path :: paths' => buf ← add_file rootino path buf; add_files rootino paths' buf
  end.

(** The image is created, the layout computed and every block cleared. *)
Definition format (path : list Z) : M mkfs unit :=
  assert (BSIZE mod DINODE_SIZE =? 0);;
  assert (BSIZE mod DIRENT_SIZE =? 0);;
  '(fd, _) ← host (HCreate path);
  modify (fun s => s <| m_fsfd := fd |>);;
  (if fd <? 0 then die path else mret tt);;
  let nmeta := 2 + nlog + ninodeblocks + nbitmap in
  let nblocks := FSSIZE - nmeta in
  modify (fun s => s <| m_nmeta := nmeta |> <| m_nblocks := nblocks |> <| m_sb :=
    mkSb FSMAGIC (xint FSSIZE) (xint nblocks) (xint NINODES) (xint nlog) (xint 2) (xint (2 + nlog))
      (xint (2 + nlog + ninodeblocks)) |>);;
  host (HPrintf ("nmeta %d (boot, super, log blocks %u inode blocks %u, bitmap blocks %u) blocks %d total %d" +:+ newline)
    [nmeta; nlog; ninodeblocks; nbitmap; nblocks; FSSIZE]);;
  modify (fun s => s <| m_freeblock := u32 nmeta |>);;
  for_each (seqZ 0 FSSIZE) (fun i => wsect i (replicate (Z.to_nat BSIZE) 0)).

(** [argv] holds the strings after the name of the program. *)
Definition main (argv : list (list Z)) : M mkfs unit :=
  match argv with
  | [] => host HUsage;; leave 1
  | path :: files =>
    format path;;
    sb ← gets m_sb;
    let buf := list_inserts 0 (encode_sb sb) (replicate (Z.to_nat BSIZE) 0) in
    wsect 1 buf;;
    rootino ← ialloc T_DIR;
    assert (rootino =? ROOTINO);;
    iappend rootino (dirent rootino (bzero_name (lit "."))) DIRENT_SIZE;;
    iappend rootino (dirent rootino (bzero_name (lit ".."))) DIRENT_SIZE;;
    add_files rootino files buf;;
    din ← rinode rootino;
    let off := xint (ld32 din 8) in
    let off := u32 ((off / BSIZE + 1) * BSIZE) in
    winode rootino (st32 din 8 (xint off));;
    used ← gets m_freeblock;
    balloc (i32 used);;
    leave 0
  end.

End mkfs.
