(* ===== verification/MkfsSpec.v ===== *)
(** * MkfsSpec: the image that [mkfs] builds

    On a host whose files are arrays of bytes, [mkfs] leaves an image in
    which a reader that follows the layout of [kernel/fs.h] finds every file
    with its content. *)

From stdpp Require Import base list gmap functions strings.
From Stdlib Require Import ZArith Lia.
From S2P Require Import User Ulib Prelude CMem Riscv Spinlock Kalloc Vm Que KState Printf Proc Bio Log BlockData Fs Mkfs.

(** ** The host

    An open file is its content and the position in it; [h_files] are the
    files that can be opened by name. *)
Class HostOk `{Host} := {
  h_fds : HWorld -> gmap Z (list Z * Z);
  h_files : HWorld -> list Z -> option (list Z);
  host_create path w : exists fd w', hostcall (HCreate path) w = (fd, [], w') /\ 0 <= fd /\
    h_fds w' = <[fd := ([], 0)]> (h_fds w) /\ forall p, p <> path -> h_files w' p = h_files w p;
  host_open path c w : h_files w path = Some c ->
    exists fd w', hostcall (HOpen path) w = (fd, [], w') /\ 0 <= fd /\ h_fds w !! fd = None /\
      h_fds w' = <[fd := (c, 0)]> (h_fds w) /\ h_files w' = h_files w;
  host_lseek fd off c pos w : h_fds w !! fd = Some (c, pos) -> 0 <= off ->
    exists w', hostcall (HLseek fd off) w = (off, [], w') /\ h_fds w' = <[fd := (c, off)]> (h_fds w) /\
      h_files w' = h_files w;
  host_read fd n c pos w : h_fds w !! fd = Some (c, pos) -> 0 <= n -> 0 <= pos ->
    let bs := take (Z.to_nat n) (drop (Z.to_nat pos) c) in
    exists w', hostcall (HRead fd n) w = (Z.of_nat (length bs), bs, w') /\
      h_fds w' = <[fd := (c, pos + Z.of_nat (length bs))]> (h_fds w) /\ h_files w' = h_files w;
  host_write fd bs c pos w : h_fds w !! fd = Some (c, pos) -> 0 <= pos <= Z.of_nat (length c) ->
    exists w', hostcall (HWrite fd bs) w = (Z.of_nat (length bs), [], w') /\
      h_fds w' = <[fd := (take (Z.to_nat pos) c ++ bs ++ drop (Z.to_nat pos + length bs) c,
                          pos + Z.of_nat (length bs))]> (h_fds w) /\ h_files w' = h_files w;
  host_close fd w : exists r w', hostcall (HClose fd) w = (r, [], w') /\
    h_fds w' = delete fd (h_fds w) /\ h_files w' = h_files w;
  host_printf fmt args w : exists r w', hostcall (HPrintf fmt args) w = (r, [], w') /\
    h_fds w' = h_fds w /\ h_files w' = h_files w;
}.

(** ** Blocks of an image *)

Definition blk (im : list Z) (b : Z) : list Z := take 1024 (drop (Z.to_nat (b * 1024)) im).

Lemma lookup_blk im b i : (i < 1024)%nat -> 0 <= b -> blk im b !! i = im !! (Z.to_nat (b * 1024) + i)%nat.
Proof. intros. unfold blk. by rewrite lookup_take_lt, lookup_drop by done. Qed.

Lemma length_blk im b : 0 <= b -> (b + 1) * 1024 <= Z.of_nat (length im) -> length (blk im b) = 1024%nat.
Proof. intros. unfold blk. rewrite length_take, length_drop. lia. Qed.

(** Writing block [b]. *)
Lemma blk_write im b d b' :
  0 <= b -> 0 <= b' -> length d = 1024%nat -> b * 1024 <= Z.of_nat (length im) ->
  (b' <> b -> (b' + 1) * 1024 <= Z.of_nat (length im)) ->
  blk (take (Z.to_nat (b * 1024)) im ++ d ++ drop (Z.to_nat (b * 1024) + length d) im) b' =
  if decide (b' = b) then d else blk im b'.
Proof.
  intros Hb Hb' Hd Hl Hl'. unfold blk. destruct (decide (b' = b)) as [->|Hne].
  - rewrite drop_app_length' by (rewrite length_take; lia). by rewrite take_app_length'.
  - specialize (Hl' Hne). apply list_eq. intros i. destruct (decide (i < 1024)%nat) as [Hi|Hi].
    2:{ by rewrite !lookup_take_ge by lia. }
    rewrite !lookup_take_lt, !lookup_drop by done. destruct (decide (b' < b)) as [Hlt|Hge].
    + rewrite lookup_app_l by (rewrite length_take; lia). rewrite lookup_take_lt by lia. done.
    + rewrite lookup_app_r, length_take by (rewrite length_take; lia).
      rewrite lookup_app_r by lia. rewrite lookup_drop. f_equal. lia.
Qed.

Definition zeros : list Z := replicate 1024 0.

(** The superblock of the image. *)
Definition the_sb : superblock := mkSb FSMAGIC 2000 1954 200 30 2 32 45.

Lemma xint_u32 x : xint x = u32 x.
Proof. unfold xint. by rewrite le_val_bytes. Qed.

Lemma xshort_u16 x : xshort x = u16 x.
Proof. unfold xshort. by rewrite le_val_bytes. Qed.

Lemma IBLOCK_sb i : 0 <= i < 208 -> IBLOCK i the_sb = 32 + i / 16.
Proof.
  intros Hi. unfold IBLOCK. change IPB with 16. cbn [the_sb sb_inodestart].
  assert (0 <= i / 16 < 13) by (split; [apply Z.div_pos|apply Z.div_lt_upper_bound]; lia). rewrite u32_small; lia.
Qed.

Section sectors.
Context `{HO : HostOk}.
Variables (fd : Z) (files : list Z -> option (list Z)).

(** The state in which the image has blocks [B], the other open files are
    [rest], and [fi] and [fb] are the next inode and the next block. *)
Record holds (rest : gmap Z (list Z * Z)) (B : Z -> list Z) (fi fb : Z) (s : mkfs) : Prop := {
  h_fd : m_fsfd s = fd;
  h_sb : m_sb s = the_sb;
  h_fi : m_freeinode s = fi;
  h_fb : m_freeblock s = fb;
  h_rest : delete fd (h_fds (m_host s)) = rest;
  h_fs : forall p c, files p = Some c -> h_files (m_host s) p = Some c;
  h_img : exists im pos, h_fds (m_host s) !! fd = Some (im, pos) /\ Z.of_nat (length im) = 2048000 /\
    forall b, 0 <= b < 2000 -> B b = blk im b;
}.

Lemma holds_len rest B fi fb s b : holds rest B fi fb s -> 0 <= b < 2000 -> length (B b) = 1024%nat.
Proof. intros H1 Hb. destruct (h_img _ _ _ _ _ H1) as (im & pos & _ & Hl & HB). rewrite HB by done. apply length_blk; lia. Qed.

Lemma wp_host c (Q : Z * list Z -> mkfs -> Prop) (s : mkfs) r bs w :
  hostcall c (m_host s) = (r, bs, w) -> Q (r, bs) (s <| m_host := w |>) -> wp (host c) Q s.
Proof. intros E HQ. unfold wp, host. by rewrite E. Qed.

(** Positioning at sector [b] and going on with [k]. *)
Lemma wp_seek {A} (k : M mkfs A) Q s im pos b :
  h_fds (m_host s) !! m_fsfd s = Some (im, pos) -> 0 <= b < 2000 ->
  (forall w', h_fds w' = <[m_fsfd s := (im, b * 1024)]> (h_fds (m_host s)) -> h_files w' = h_files (m_host s) ->
     wp k Q (s <| m_host := w' |>)) ->
  wp ('(r, _) ← host (HLseek (m_fsfd s) (u32 (b * BSIZE)));
      (if negb (r =? u32 (b * BSIZE)) then die (lit "lseek") else mret tt);; k) Q s.
Proof.
  intros Hf Hb Hk. change BSIZE with 1024. rewrite u32_small by lia.
  destruct (host_lseek (m_fsfd s) (b * 1024) im pos (m_host s) Hf ltac:(lia)) as (w' & E & Hw & Hfs).
  apply wp_bind. eapply wp_host; [exact E|]. rewrite Z.eqb_refl. apply wp_bind, wp_ret. by apply Hk.
Qed.

Lemma wp_wsect b d rest B fi fb s :
  holds rest B fi fb s -> 0 <= b < 2000 -> length d = 1024%nat ->
  wp (wsect b d) (fun _ => holds rest (<[b := d]> B) fi fb) s.
Proof.
  intros H1 Hb Hd. pose proof (h_img _ _ _ _ _ H1) as (im & pos & Hf & Hl & HB). destruct H1 as [E1 E2 E3 E4 E5 E6 _].
  unfold wsect. apply wp_bind, wp_gets. eapply wp_seek; [by rewrite E1|done|]. intros w' Hw Hfs. rewrite E1 in *. apply wp_bind.
  rewrite take_ge by (change (Z.to_nat BSIZE) with 1024%nat; lia).
  destruct (host_write fd d im (b * 1024) w') as (w2 & Ew & Hw2 & Hfs2); [rewrite Hw; apply lookup_insert_eq|lia|].
  eapply wp_host; [exact Ew|]. rewrite Hd. cbn [negb Z.eqb]. apply wp_ret.
  constructor; rsimpl; try done.
  - by rewrite Hw2, Hw, !delete_insert_eq.
  - intros p c Hp. rewrite Hfs2, Hfs. by apply E6.
  - eexists _, _. split; [rewrite Hw2; apply lookup_insert_eq|]. split.
    { rewrite !length_app, length_take, length_drop. lia. }
    intros b' Hb'. rewrite blk_write by lia. unfold insert, fn_insert. destruct (decide (b = b')); destruct (decide (b' = b)); try congruence.
    by apply HB.
Qed.

Lemma wp_rsect b rest B fi fb s (Q : list Z -> mkfs -> Prop) :
  holds rest B fi fb s -> 0 <= b < 2000 -> (forall s', holds rest B fi fb s' -> Q (B b) s') -> wp (rsect b) Q s.
Proof.
  intros H1 Hb HQ. pose proof (h_img _ _ _ _ _ H1) as (im & pos & Hf & Hl & HB). destruct H1 as [E1 E2 E3 E4 E5 E6 _].
  unfold rsect. apply wp_bind, wp_gets. eapply wp_seek; [by rewrite E1|done|]. intros w' Hw Hfs. rewrite E1 in *. apply wp_bind.
  destruct (host_read fd BSIZE im (b * 1024) w') as (w2 & Ew & Hw2 & Hfs2); [rewrite Hw; apply lookup_insert_eq|done|lia|].
  change (take (Z.to_nat BSIZE) (drop (Z.to_nat (b * 1024)) im)) with (blk im b) in *.
  rewrite length_blk in * by lia.
  eapply wp_host; [exact Ew|]. cbn [negb Z.eqb]. apply wp_ret. rewrite <- HB by done. apply HQ.
  constructor; rsimpl; try done.
  - by rewrite Hw2, Hw, !delete_insert_eq.
  - intros p c Hp. rewrite Hfs2, Hfs. by apply E6.
  - exists im. eexists. split; [rewrite Hw2; apply lookup_insert_eq|]. done.
Qed.

End sectors.

Lemma div1024 (j : nat) : 0 <= Z.of_nat j / 1024 /\ Z.of_nat j / 1024 * 1024 <= Z.of_nat j < (Z.of_nat j / 1024 + 1) * 1024 /\
  (j `mod` 1024 < 1024)%nat /\ Z.of_nat j = Z.of_nat j / 1024 * 1024 + Z.of_nat (j `mod` 1024).
Proof.
  pose proof (Nat.mod_upper_bound j 1024 ltac:(lia)). pose proof (Nat.div_mod_eq j 1024).
  replace (Z.of_nat j / 1024) with (Z.of_nat (j / 1024)) by (rewrite Nat2Z.inj_div; done). lia.
Qed.

(** ** Files in an image

    [baddr B din k]: block [k] of the file with inode [din], as [bmap] finds
    it. *)
Definition baddr (B : Z -> list Z) (din : list Z) (k : Z) : Z :=
  if k <? 12 then ld32 din (12 + 4 * k)
  else if ld32 din 60 =? 0 then 0 else ld32 (B (ld32 din 60)) ((k - 12) * 4).

(** [own b] is the file that block [b] belongs to, with the index of the
    block in it (-1 for the indirect block).  A file with [nb] blocks, and
    an indirect block if [hi], has the content [c], and zeros behind it. *)
Record stored (B : Z -> list Z) (own : Z -> option (Z * Z)) (fb i : Z) (din : list Z) (hi : bool) (nb : Z) (c : list Z) : Prop := {
  f_din : length din = 64%nat;
  f_nb : 0 <= nb <= 268;
  f_hi : 12 < nb -> hi = true;
  f_len : Z.of_nat (length c) <= nb * 1024;
  f_addr k : 0 <= k < nb -> 46 <= baddr B din k < fb /\ own (baddr B din k) = Some (i, k);
  f_none k : nb <= k < 268 -> baddr B din k = 0;
  f_ind : if hi then 46 <= ld32 din 60 < fb /\ own (ld32 din 60) = Some (i, -1) else ld32 din 60 = 0;
  f_data (j : nat) : Z.of_nat j < nb * 1024 -> B (baddr B din (Z.of_nat j / 1024)) !! (j `mod` 1024)%nat = Some (nth j c 0);
}.

(** Blocks from [fb] on are free and clear. *)
Record common (B : Z -> list Z) (own : Z -> option (Z * Z)) (fb : Z) : Prop := {
  c_fb : 46 <= fb <= 2000;
  c_own b i k : own b = Some (i, k) -> 46 <= b < fb;
  c_zero b : fb <= b < 2000 -> B b = zeros;
}.

(** What working on file [i] leaves alone. *)
Record ext (i : Z) (B : Z -> list Z) (own : Z -> option (Z * Z)) (B' : Z -> list Z) (own' : Z -> option (Z * Z)) : Prop := {
  e_own b j k : own b = Some (j, k) -> own' b = Some (j, k);
  e_meta b : b < 46 -> B' b = B b;
  e_other b j k : own b = Some (j, k) -> j <> i -> B' b = B b;
}.

Lemma ext_refl i B own : ext i B own B own.
Proof. by constructor. Qed.

Lemma ext_trans i B own B1 own1 B2 own2 : ext i B own B1 own1 -> ext i B1 own1 B2 own2 -> ext i B own B2 own2.
Proof.
  intros [A1 A2 A3] [C1 C2 C3]. constructor; [by auto| |].
  - intros b Hb. by rewrite C2, A2.
  - intros b j k Hb Hj. rewrite (C3 b j k), (A3 b j k); auto.
Qed.

Lemma ext_write i B own b d k : own b = Some (i, k) -> 46 <= b -> ext i B own (<[b := d]> B) own.
Proof.
  intros Ho Hb. constructor; [done| |].
  - intros b' Hb'. apply fn_lookup_insert_ne. lia.
  - intros b' j k' Ho' Hj. apply fn_lookup_insert_ne. congruence.
Qed.

Lemma ext_own i B own fb k : common B own fb -> ext i B own B (<[fb := Some (i, k)]> own).
Proof.
  intros C. constructor; try done. intros b j k' Hb. rewrite fn_lookup_insert_ne; [done|].
  intros <-. pose proof (c_own _ _ _ C _ _ _ Hb). lia.
Qed.

Lemma common_write B own fb b d i k : common B own fb -> own b = Some (i, k) -> common (<[b := d]> B) own fb.
Proof.
  intros [C1 C2 C3] Ho. constructor; [done..|]. intros b' Hb'. rewrite fn_lookup_insert_ne; [by apply C3|].
  pose proof (C2 _ _ _ Ho). lia.
Qed.

Lemma common_own B own fb i k : common B own fb -> fb < 2000 -> common B (<[fb := Some (i, k)]> own) (fb + 1).
Proof.
  intros [C1 C2 C3] Hfb. constructor; [lia| |intros b Hb; apply C3; lia].
  intros b j k'. unfold insert, fn_insert. case_decide; [lia|]. intros Hb. pose proof (C2 _ _ _ Hb). lia.
Qed.

Lemma file_frame B B' own own' fb fb' i din hi nb c :
  stored B own fb i din hi nb c -> (forall b k, own b = Some (i, k) -> B' b = B b /\ own' b = Some (i, k)) -> fb <= fb' ->
  stored B' own' fb' i din hi nb c.
Proof.
  intros [] HB Hfb.
  assert (forall k, baddr B' din k = baddr B din k) as Ha.
  { intros k. unfold baddr. destruct hi; [|by rewrite f_ind0]. by rewrite (proj1 (HB _ _ (proj2 f_ind0))). }
  constructor; try done.
  - intros k Hk. rewrite Ha. destruct (f_addr0 k Hk) as [? Ho]. split; [lia|]. by apply HB.
  - intros k Hk. rewrite Ha. auto.
  - destruct hi; [|done]. destruct f_ind0 as [? Ho]. split; [lia|]. by apply HB.
  - intros j Hj. rewrite Ha, <- f_data0 by done. destruct (div1024 j). assert (0 <= Z.of_nat j / 1024 < nb) as Hk by lia.
    by rewrite (proj1 (HB _ _ (proj2 (f_addr0 _ Hk)))).
Qed.

(** The file gets block [fb] as its next direct block ... *)
Lemma file_direct B own fb i din hi nb c :
  common B own fb -> stored B own fb i din hi nb c -> nb < 12 -> fb < 2000 ->
  stored B (<[fb := Some (i, nb)]> own) (fb + 1) i (st32 din (12 + 4 * nb) fb) hi (nb + 1) c.
Proof.
  intros C F Hnb Hfb. pose proof (c_fb _ _ _ C). pose proof F as [].
  assert (forall k, 0 <= k -> baddr B (st32 din (12 + 4 * nb) fb) k = if decide (k = nb) then fb else baddr B din k) as Ha.
  { intros k Hk. unfold baddr. rewrite (ld32_st32_ne _ 60) by lia. case_decide as Hkn.
    - subst k. destruct (Z.ltb_spec nb 12); [|lia]. rewrite ld32_st32 by lia. rewrite u32_small; lia.
    - case_if; [|done]. zb. by rewrite ld32_st32_ne by lia. }
  apply (file_frame B B own (<[fb := Some (i, nb)]> own) fb (fb + 1)) in F; [|by intros ?? Ho; split; [|apply (e_own _ _ _ _ _ (ext_own i B own fb nb C))]|lia].
  constructor; try done; try lia.
  - by rewrite length_st32.
  - intros k Hk. rewrite Ha by lia. case_decide as Hkn; [|by apply F; lia]. subst k. split; [lia|]. apply fn_lookup_insert.
  - intros k Hk. rewrite Ha by lia. case_decide; [lia|]. apply F. lia.
  - rewrite ld32_st32_ne by lia. apply F.
  - intros j Hj. destruct (div1024 j) as [Hd Hm]. rewrite Ha by lia. case_decide as Hjn; [|apply F; lia].
    rewrite (c_zero _ _ _ C), nth_overflow by lia. apply lookup_replicate_2. lia.
Qed.

(** ... as its indirect block ... *)
Lemma ld32_zeros n o : 0 <= o -> o + 4 <= Z.of_nat n -> ld32 (replicate n 0) o = 0.
Proof.
  intros H1 H2. unfold ld32, ld. rewrite drop_replicate, take_replicate.
  replace (4 `min` (n - Z.to_nat o))%nat with 4%nat by lia. done.
Qed.

Lemma file_indirect B own fb i din nb c :
  common B own fb -> stored B own fb i din false nb c -> fb < 2000 ->
  stored B (<[fb := Some (i, -1)]> own) (fb + 1) i (st32 din 60 fb) true nb c.
Proof.
  intros C F Hfb. pose proof (c_fb _ _ _ C). pose proof F as [].
  assert (ld32 (st32 din 60 fb) 60 = fb) as Ei by (rewrite ld32_st32 by lia; rewrite u32_small; lia).
  assert (forall k, 0 <= k < 268 -> baddr B (st32 din 60 fb) k = baddr B din k) as Ha.
  { intros k Hk. unfold baddr. rewrite Ei, f_ind0. case_if; zb; [by rewrite ld32_st32_ne by lia|].
    destruct (Z.eqb_spec fb 0); [lia|]. cbn. rewrite (c_zero _ _ _ C) by lia. unfold zeros. by rewrite ld32_zeros by lia. }
  assert (nb <= 12) by (destruct (decide (12 < nb)) as [Hgt|]; [by specialize (f_hi0 Hgt)|lia]).
  apply (file_frame B B own (<[fb := Some (i, -1)]> own) fb (fb + 1)) in F; [|by intros ?? Ho; split; [|apply (e_own _ _ _ _ _ (ext_own i B own fb (-1) C))]|lia].
  constructor; try done; try lia.
  - by rewrite length_st32.
  - intros k Hk. rewrite Ha by lia. by apply F.
  - intros k Hk. rewrite Ha by lia. by apply F.
  - rewrite Ei. split; [lia|]. apply fn_lookup_insert.
  - intros j Hj. destruct (div1024 j). rewrite Ha by lia. by apply F.
Qed.

(** ... or as the next entry of its indirect block. *)
Lemma file_entry B own fb i din nb c :
  common B own fb -> stored B own fb i din true nb c -> 12 <= nb < 268 -> fb < 2000 -> length (B (ld32 din 60)) = 1024%nat ->
  stored (<[ld32 din 60 := st32 (B (ld32 din 60)) ((nb - 12) * 4) fb]> B) (<[fb := Some (i, nb)]> own) (fb + 1) i din true (nb + 1) c.
Proof.
  intros C F Hnb Hfb Hl. pose proof (c_fb _ _ _ C). destruct F.
  destruct f_ind0 as [Hi Hio]. set (B' := <[_ := _]> B).
  assert (forall k, 0 <= k < 268 -> baddr B' din k = if decide (k = nb) then fb else baddr B din k) as Ha.
  { intros k Hk. unfold baddr, B'. rewrite fn_lookup_insert. destruct (Z.eqb_spec (ld32 din 60) 0); [lia|].
    destruct (Z.ltb_spec k 12); [by rewrite decide_False by lia|]. case_decide as Hkn.
    - subst k. rewrite ld32_st32 by lia. rewrite u32_small; lia.
    - by rewrite ld32_st32_ne by lia. }
  assert (forall b k, k <> -1 -> own b = Some (i, k) -> B' b = B b /\ (<[fb := Some (i, nb)]> own) b = Some (i, k)) as Hfr.
  { intros b k Hk Ho. split; [apply fn_lookup_insert_ne; congruence|]. by apply (ext_own i B own fb nb C). }
  constructor; try done; try lia.
  - intros k Hk. rewrite Ha by lia. case_decide as Hkn.
    + subst k. split; [lia|]. apply fn_lookup_insert.
    + destruct (f_addr0 k) as [? Ho]; [lia|]. split; [lia|]. apply (Hfr _ k); [lia|done].
  - intros k Hk. rewrite Ha by lia. case_decide; [lia|]. apply f_none0. lia.
  - split; [lia|]. by apply (ext_own i B own fb nb C).
  - intros j Hj. destruct (div1024 j) as [Hd Hm]. rewrite Ha by lia. case_decide as Hjn.
    + rewrite nth_overflow by lia. unfold B'. rewrite fn_lookup_insert_ne, (c_zero _ _ _ C) by lia. apply lookup_replicate_2. lia.
    + rewrite <- f_data0 by lia. destruct (f_addr0 (Z.of_nat j / 1024)) as [_ Ho]; [lia|].
      apply Hfr in Ho as [-> _]; [done|lia].
Qed.

(** Writing behind the end of the content, within its last block. *)
Lemma file_write B own fb i din hi nb c q (x fbn : Z) :
  stored B own fb i din hi nb c -> fbn = Z.of_nat (length c) / 1024 -> fbn < nb -> x = baddr B din fbn ->
  Z.of_nat (length c + length q) <= (fbn + 1) * 1024 -> length (B x) = 1024%nat ->
  stored (<[x := list_inserts (length c - Z.to_nat (fbn * 1024))%nat q (B x)]> B) own fb i din hi nb (c ++ q).
Proof.
  intros F Hfbn Hlt Hx Hq Hl. pose proof (Z.div_mod (Z.of_nat (length c)) 1024 ltac:(lia)) as Hdm.
  pose proof (Z.mod_pos_bound (Z.of_nat (length c)) 1024 ltac:(lia)) as Hm. rewrite <- Hfbn in Hdm.
  assert (0 <= fbn) by (subst; apply Z.div_pos; lia). destruct F.
  destruct (f_addr0 fbn) as [Hxr Hxo]; [lia|]. rewrite <- Hx in Hxr, Hxo. set (B' := <[_ := _]> B).
  assert (forall k, baddr B' din k = baddr B din k) as Ha.
  { intros k. unfold baddr. destruct hi; [|by rewrite f_ind0]. destruct f_ind0 as [_ Ho]. unfold B'.
    rewrite (fn_lookup_insert_ne B x) by (intros ->; rewrite Hxo in Ho; simplify_eq; lia). done. }
  constructor; try done.
  - rewrite length_app. nia.
  - intros k Hk. rewrite Ha. by apply f_addr0.
  - intros k Hk. rewrite Ha. by apply f_none0.
  - intros j Hj. rewrite Ha. destruct (div1024 j) as (Hd1 & Hd2 & Hd3 & Hd4).
    destruct (decide (Z.of_nat j / 1024 = fbn)) as [Hjf|Hjf].
    + rewrite Hjf, <- Hx. unfold B'. rewrite fn_lookup_insert. specialize (f_data0 j Hj). rewrite Hjf, <- Hx in f_data0.
      destruct (decide (j < length c)%nat) as [Hjc|Hjc].
      * rewrite list_lookup_inserts_lt by lia. by rewrite app_nth1.
      * rewrite app_nth2 by lia. destruct (decide (j - length c < length q)%nat) as [Hjq|Hjq].
        -- rewrite list_lookup_inserts by lia. destruct (lookup_lt_is_Some_2 q (j - length c)) as [v Hv]; [lia|].
           rewrite (nth_lookup_Some _ _ _ _ Hv), <- Hv. f_equal. lia.
        -- rewrite list_lookup_inserts_ge by lia. rewrite f_data0. rewrite !nth_overflow by lia. done.
    + transitivity (B (baddr B din (Z.of_nat j / 1024)) !! (j `mod` 1024)%nat).
      * f_equal. destruct (f_addr0 (Z.of_nat j / 1024)) as [_ Ho]; [lia|]. unfold B'. apply fn_lookup_insert_ne.
        intros E. rewrite <- E, Hxo in Ho. simplify_eq.
      * rewrite f_data0 by done. f_equal. destruct (decide (j < length c)%nat); [by rewrite app_nth1|]. rewrite !nth_overflow; [done|..]; rewrite ?length_app; lia.
Qed.

(** ** Appending to a file *)

(** The header of an inode that [iappend] keeps. *)
Definition hdr (din : list Z) : Z * Z := (ld 2 din 0, ld 2 din 6).

Lemma hdr_st32 din o v : 8 <= o -> hdr (st32 din o v) = hdr din.
Proof. intros Ho. unfold hdr, st32. by rewrite !ld_st_ne by lia. Qed.

(** The blocks that [nb] data blocks take. *)
Definition need (nb : Z) : Z := nb + (if 12 <? nb then 1 else 0).

Section append.
Context `{HO : HostOk}.
Variables (fd : Z) (files : list Z -> option (list Z)) (rest : gmap Z (list Z * Z)) (fi i : Z).

(** The state while file [i] is worked on. *)
Record work B own fb din hi nb c (s : mkfs) : Prop := {
  w_holds : holds fd files rest B fi fb s;
  w_common : common B own fb;
  w_file : stored B own fb i din hi nb c;
}.

Lemma wp_newblock B fb s (Q : Z -> mkfs -> Prop) :
  holds fd files rest B fi fb s -> 46 <= fb < 2000 ->
  (forall s', holds fd files rest B fi (fb + 1) s' -> Q fb s') -> wp newblock Q s.
Proof.
  intros [] Hfb HQ. unfold newblock. wp_steps. subst fb. apply HQ. constructor; rsimpl; try done. rewrite u32_small; lia.
Qed.

Lemma di_addr_direct k : 0 <= k -> di_addr 0 (Z.to_nat k) = 12 + 4 * k.
Proof. unfold di_addr. lia. Qed.

Lemma block_direct B own fb din nb c s fbn :
  work B own fb din (12 <? nb) nb c s -> 0 <= fbn <= nb -> fbn < 12 -> fb + need (Z.max nb (fbn + 1)) - need nb <= 2000 ->
  wp (iappend_block din fbn) (fun '(din', x) s' => exists own',
    let nb' := Z.max nb (fbn + 1) in let fb' := fb + need nb' - need nb in
    work B own' fb' din' (12 <? nb') nb' c s' /\ x = baddr B din' fbn /\ ext i B own B own' /\ hdr din' = hdr din) s.
Proof.
  intros [Hh C F] Hfbn Hlt Hcap. unfold iappend_block. change (Z.of_nat NDIRECT) with 12. destruct (Z.ltb_spec fbn 12); [|lia].
  rewrite di_addr_direct by lia. pose proof (c_fb _ _ _ C).
  assert (forall d, ld32 d (12 + 4 * fbn) = baddr B d fbn) as Ea by (intros d; unfold baddr; by destruct (Z.ltb_spec fbn 12); [|lia]).
  apply wp_bind. destruct (decide (fbn < nb)) as [Hnb|Hnb].
  - rewrite Ea. destruct (f_addr _ _ _ _ _ _ _ _ F fbn) as [Hr _]; [lia|]. rewrite xint_u32, u32_small by lia.
    destruct (Z.eqb_spec (baddr B din fbn) 0); [lia|]. wp_steps. exists own. rewrite Z.max_l by lia.
    replace (fb + need nb - need nb) with fb by lia. split_and!; [done|by rewrite Ea, xint_u32, u32_small by lia|apply ext_refl|done].
  - assert (fbn = nb) as -> by lia. rewrite Z.max_r in * by lia. unfold need in Hcap |- *.
    destruct (Z.ltb_spec 12 nb); [lia|]. destruct (Z.ltb_spec 12 (nb + 1)); [lia|].
    rewrite Ea, (f_none _ _ _ _ _ _ _ _ F nb) by lia. change (xint 0 =? 0) with true. apply wp_bind, (wp_newblock _ _ _ _ Hh); [lia|]. intros s' Hh'. wp_steps.
    exists (<[fb := Some (i, nb)]> own). rewrite !xint_u32, !(u32_small fb) by lia.
    replace (fb + (nb + 1 + 0) - (nb + 0)) with (fb + 1) by lia. split_and!.
    + constructor; [done|apply common_own; [done|lia]|]. apply file_direct; auto; lia.
    + rewrite Ea. apply u32_small. rewrite <- Ea, ld32_st32 by (rewrite ?(f_din _ _ _ _ _ _ _ _ F); lia). rewrite u32_small; lia.
    + by apply ext_own.
    + apply hdr_st32. lia.
Qed.

(** The inode once it has an indirect block. *)
Lemma block_indirect B own fb din nb c s :
  work B own fb din (12 <? nb) nb c s -> 12 <= nb -> fb + (if 12 <? nb then 0 else 1) <= 2000 ->
  wp (if xint (ld32 din 60) =? 0 then b ← newblock; mret (st32 din 60 (xint b)) else mret din) (fun din' s' => exists own',
    let fb' := fb + (if 12 <? nb then 0 else 1) in
    work B own' fb' din' true nb c s' /\ ext i B own B own' /\ hdr din' = hdr din) s.
Proof.
  intros [Hh C F] Hnb Hcap. pose proof (c_fb _ _ _ C). pose proof (f_ind _ _ _ _ _ _ _ _ F) as Hi.
  destruct (Z.ltb_spec 12 nb).
  - rewrite xint_u32, u32_small by lia. destruct (Z.eqb_spec (ld32 din 60) 0); [lia|]. wp_steps. exists own.
    rewrite Z.add_0_r. split_and!; [done|apply ext_refl|done].
  - rewrite Hi. change (xint 0 =? 0) with true. apply wp_bind, (wp_newblock _ _ _ _ Hh); [lia|]. intros s' Hh'. wp_steps.
    exists (<[fb := Some (i, -1)]> own). rewrite xint_u32, u32_small by lia.
    split_and!; [constructor; [done|apply common_own; [done|lia]|apply file_indirect; auto; lia]|by apply ext_own|apply hdr_st32; lia].
Qed.

Lemma block_entry B own fb din nb c s fbn (Q : list Z * Z -> mkfs -> Prop) :
  work B own fb din true nb c s -> 12 <= fbn <= nb -> fbn < 268 -> fb + (Z.max nb (fbn + 1) - nb) <= 2000 ->
  (forall B' own' s', let nb' := Z.max nb (fbn + 1) in
    work B' own' (fb + (nb' - nb)) din true nb' c s' -> ext i B own B' own' -> Q (din, baddr B' din fbn) s') ->
  wp (indirect ← rsect (xint (ld32 din 60));
      indirect ← (if ld32 indirect ((fbn - 12) * 4) =? 0 then
                    b ← newblock;
                    let indirect := st32 indirect ((fbn - 12) * 4) (xint b) in
                    wsect (xint (ld32 din 60)) indirect;;
                    mret indirect
                  else mret indirect);
      mret (din, xint (ld32 indirect ((fbn - 12) * 4)))) Q s.
Proof.
  intros [Hh C F] Hfbn Hlt Hcap HQ. cbv zeta in HQ. pose proof (c_fb _ _ _ C). destruct (f_ind _ _ _ _ _ _ _ _ F) as [Hi Hio].
  rewrite !xint_u32, !(u32_small (ld32 din 60)) by lia.
  assert (forall B', ld32 (B' (ld32 din 60)) ((fbn - 12) * 4) = baddr B' din fbn) as Ea.
  { intros B'. unfold baddr. destruct (Z.ltb_spec fbn 12); [lia|]. by destruct (Z.eqb_spec (ld32 din 60) 0); [lia|]. }
  apply wp_bind. eapply wp_rsect; [exact Hh|lia|]. clear s Hh. intros s Hh. apply wp_bind.
  destruct (decide (fbn < nb)) as [Hnb|Hnb].
  - rewrite Ea. destruct (f_addr _ _ _ _ _ _ _ _ F fbn) as [Hr _]; [lia|].
    destruct (Z.eqb_spec (baddr B din fbn) 0); [lia|]. wp_steps. rewrite Ea, xint_u32, u32_small by lia.
    rewrite Z.max_l in HQ by lia. replace (fb + (nb - nb)) with fb in HQ by lia. apply (HQ B own); [by constructor|apply ext_refl].
  - assert (fbn = nb) as -> by lia. rewrite Z.max_r in * by lia. replace (fb + (nb + 1 - nb)) with (fb + 1) in * by lia.
    rewrite Ea, (f_none _ _ _ _ _ _ _ _ F nb) by lia. rewrite Z.eqb_refl.
    assert (length (B (ld32 din 60)) = 1024%nat) as Hl by (eapply holds_len; [exact Hh|lia]).
    apply wp_bind, (wp_newblock _ _ _ _ Hh); [lia|]. clear s Hh. intros s Hh. apply wp_bind.
    rewrite !xint_u32, !(u32_small fb) by lia.
    eapply wp_mono; [apply (wp_wsect _ _ _ _ _ _ _ _ _ Hh); [lia|by rewrite length_st32]|]. clear Hh. intros [] s2 Hh. cbv beta in Hh. wp_steps.
    rewrite xint_u32, ld32_st32, !(u32_small fb) by lia.
    pose proof (file_entry _ _ _ _ _ _ _ C F) as F'. specialize (F' ltac:(lia) ltac:(lia) Hl).
    set (B' := <[ld32 din 60 := _]> B) in *. replace fb with (baddr B' din nb) at 1.
    2:{ rewrite <- Ea. unfold B'. rewrite fn_lookup_insert, ld32_st32 by lia. apply u32_small. lia. }
    pose proof (ext_own i B own fb nb C) as E. apply (HQ B' (<[fb := Some (i, nb)]> own)).
    + constructor; [done| |done]. eapply common_write; [apply common_own; [done|lia]|]. by apply E.
    + eapply ext_trans; [exact E|]. eapply ext_write; [|lia]. by apply E.
Qed.

Lemma wp_iappend_block B own fb din nb c s fbn (Q : list Z * Z -> mkfs -> Prop) :
  work B own fb din (12 <? nb) nb c s -> 0 <= fbn <= nb -> fbn < 268 -> fb + need (Z.max nb (fbn + 1)) - need nb <= 2000 ->
  (forall B' own' din' s', let nb' := Z.max nb (fbn + 1) in
    work B' own' (fb + need nb' - need nb) din' (12 <? nb') nb' c s' -> ext i B own B' own' -> hdr din' = hdr din ->
    Q (din', baddr B' din' fbn) s') ->
  wp (iappend_block din fbn) Q s.
Proof.
  intros W Hfbn Hlt Hcap HQ. cbv zeta in HQ. destruct (decide (fbn < 12)) as [Hd|Hd].
  - eapply wp_mono; [by apply (block_direct _ _ _ _ _ _ _ _ W)|]. intros [din' x] s' (own' & W' & -> & E & Hh). by apply (HQ B own').
  - unfold iappend_block. change (Z.of_nat NDIRECT) with 12. change (di_addr 0 NDIRECT) with 60. destruct (Z.ltb_spec fbn 12); [lia|].
    set (nb' := Z.max nb (fbn + 1)) in *.
    assert (fb + need nb' - need nb = fb + (if 12 <? nb then 0 else 1) + (nb' - nb)) as Efb.
    { unfold need. destruct (Z.ltb_spec 12 nb'); [|lia]. destruct (Z.ltb_spec 12 nb); lia. }
    apply wp_bind. eapply wp_mono; [apply (block_indirect _ _ _ _ _ _ _ W); [lia|]|].
    { rewrite Efb in Hcap. lia. }
    intros din' s' (own1 & W1 & E1 & Hh). cbv zeta in W1.
    eapply block_entry; [exact W1|lia|done|lia|]. cbv zeta. fold nb'. intros B' own' s2 W2 E2. rewrite Efb in HQ.
    apply (HQ B' own' din'); [|by eapply ext_trans|done]. by replace (12 <? nb') with true by (symmetry; apply Z.ltb_lt; lia).
Qed.

(** Blocks of a content. *)
Definition nblk (c : list Z) : Z := (Z.of_nat (length c) + 1023) / 1024.

Lemma nblk_bounds c : (nblk c - 1) * 1024 < Z.of_nat (length c) <= nblk c * 1024.
Proof.
  unfold nblk. pose proof (Z.div_mod (Z.of_nat (length c) + 1023) 1024 ltac:(lia)).
  pose proof (Z.mod_pos_bound (Z.of_nat (length c) + 1023) 1024 ltac:(lia)). lia.
Qed.

Lemma nblk_eq c k : (k - 1) * 1024 < Z.of_nat (length c) <= k * 1024 -> nblk c = k.
Proof. pose proof (nblk_bounds c). lia. Qed.

Lemma need_mono a b : a <= b -> need a <= need b.
Proof. unfold need. intros. destruct (Z.ltb_spec 12 a), (Z.ltb_spec 12 b); lia. Qed.

(** One turn of the loop appends the bytes that fit into the last block. *)
Lemma append_turn B own fb din c p tl s :
  work B own fb din (12 <? nblk c) (nblk c) c s -> p <> [] -> Z.of_nat (length (c ++ p)) <= 268 * 1024 ->
  fb + need (nblk (c ++ p)) - need (nblk c) <= 2000 ->
  wp (iappend_body (din, Z.of_nat (length c), p ++ tl, Z.of_nat (length p))) (fun r s' => exists B' own' din' c' p',
    r = inl (din', Z.of_nat (length c'), p' ++ tl, Z.of_nat (length p')) /\
    (length p' < length p)%nat /\ c' ++ p' = c ++ p /\
    work B' own' (fb + need (nblk c') - need (nblk c)) din' (12 <? nblk c') (nblk c') c' s' /\
    ext i B own B' own' /\ hdr din' = hdr din) s.
Proof.
  intros W Hp Hmax Hcap. unfold iappend_body. change BSIZE with 1024. change MAXFILE with 268.
  assert (0 < length p)%nat by (destruct p; [done|cbn; lia]). rewrite length_app in Hmax.
  destruct (Z.ltb_spec 0 (Z.of_nat (length p))); [|lia]. cbn [negb].
  set (fbn := Z.of_nat (length c) / 1024) in *.
  assert (fbn * 1024 <= Z.of_nat (length c) < (fbn + 1) * 1024) as Hfbn.
  { pose proof (Z.div_mod (Z.of_nat (length c)) 1024 ltac:(lia)). pose proof (Z.mod_pos_bound (Z.of_nat (length c)) 1024 ltac:(lia)). lia. }
  pose proof (nblk_bounds c) as Hnb. destruct (Z.ltb_spec fbn 268); [|lia]. unfold assert. apply wp_bind, wp_ret.
  rewrite (u32_small ((fbn + 1) * 1024 - _)) by lia. set (n1 := Z.min _ _).
  rewrite take_app_le, drop_app_le by lia. set (q := take (Z.to_nat n1) p). assert (length q = Z.to_nat n1) as Hq by (unfold q; rewrite length_take; lia).
  assert (nblk (c ++ q) = fbn + 1) as Hnq by (apply nblk_eq; rewrite length_app; lia).
  assert (Z.max (nblk c) (fbn + 1) = fbn + 1) as Hmx by lia.
  assert (need (fbn + 1) <= need (nblk (c ++ p))) as Hne.
  { rewrite <- Hnq. apply need_mono. pose proof (nblk_bounds (c ++ p)) as Hb. pose proof (nblk_bounds (c ++ q)) as Hb'.
    rewrite length_app in Hb, Hb'. lia. }
  apply wp_bind. apply (wp_iappend_block _ _ _ _ _ _ _ _ _ W); [lia|lia|rewrite Hmx; lia|]. rewrite Hmx. cbv zeta.
  intros B' own' din' s' [Hh C F] E Hd. pose proof (c_fb _ _ _ C).
  destruct (f_addr _ _ _ _ _ _ _ _ F fbn) as [Hr Ho]; [lia|]. set (x := baddr B' din' fbn) in *.
  apply wp_bind. eapply wp_rsect; [exact Hh|lia|]. clear s' Hh. intros s' Hh. apply wp_bind.
  assert (length (B' x) = 1024%nat) as Hl by (eapply holds_len; [exact Hh|lia]).
  eapply wp_mono; [apply (wp_wsect _ _ _ _ _ _ _ _ _ Hh); [lia|by rewrite length_inserts]|]. clear Hh. intros [] s2 Hh. cbv beta in Hh.
  apply wp_ret. exists (<[x := list_inserts (Z.to_nat (Z.of_nat (length c) - fbn * 1024)) q (B' x)]> B'), own', din', (c ++ q), (drop (Z.to_nat n1) p).
  rewrite Hnq. split_and!.
  - rewrite length_app, length_drop, u32_small by lia.
    replace (Z.of_nat (length p - Z.to_nat n1)) with (Z.of_nat (length p) - n1) by lia.
    by replace (Z.of_nat (length c + length q)) with (Z.of_nat (length c) + n1) by lia.
  - rewrite length_drop. lia.
  - unfold q. by rewrite <- app_assoc, take_drop.
  - constructor; [done|by eapply common_write|].
    replace (Z.to_nat (Z.of_nat (length c) - fbn * 1024)) with (length c - Z.to_nat (fbn * 1024))%nat by lia.
    apply (file_write _ _ _ _ _ _ _ _ _ _ fbn F); try done; lia.
  - eapply ext_trans; [exact E|]. eapply ext_write; [exact Ho|lia].
  - done.
Qed.

Lemma append_loop B own fb din c p tl s (Q : list Z * Z -> mkfs -> Prop) :
  work B own fb din (12 <? nblk c) (nblk c) c s -> Z.of_nat (length (c ++ p)) <= 268 * 1024 ->
  fb + need (nblk (c ++ p)) - need (nblk c) <= 2000 ->
  (forall B' own' din' s', let c' := c ++ p in
    work B' own' (fb + need (nblk c') - need (nblk c)) din' (12 <? nblk c') (nblk c') c' s' ->
    ext i B own B' own' -> hdr din' = hdr din -> Q (din', Z.of_nat (length c')) s') ->
  wp (while iappend_body (din, Z.of_nat (length c), p ++ tl, Z.of_nat (length p))) Q s.
Proof.
  intros W Hmax Hcap HQ. cbv zeta in HQ.
  apply (wp_while_idx (fun k '(din', off, xp, n) s' => exists B' own' c' p', xp = p' ++ tl /\ k = length p' /\ off = Z.of_nat (length c') /\
    n = Z.of_nat (length p') /\ c' ++ p' = c ++ p /\
    work B' own' (fb + need (nblk c') - need (nblk c)) din' (12 <? nblk c') (nblk c') c' s' /\
    ext i B own B' own' /\ hdr din' = hdr din) _ _ (length p)).
  - intros k [[[din' off] xp] n] s' (B' & own' & c' & p' & -> & -> & -> & -> & Ec & W' & E & Hd). destruct (decide (p' = [])) as [->|Hp'].
    { rewrite app_nil_r in Ec. subst c'. cbn. by apply (HQ B' own'). }
    eapply wp_mono; [apply (append_turn _ _ _ _ _ _ _ _ W' Hp')|].
    + by rewrite Ec.
    + rewrite Ec. lia.
    + intros r s2 (B2 & own2 & din2 & c2 & p2 & -> & Hlt & Ec2 & W2 & E2 & Hd2). exists (length p2). split; [done|].
      exists B2, own2, c2, p2. split_and!; try done; [by rewrite Ec2| |by eapply ext_trans|by rewrite Hd2].
      by replace (fb + need (nblk c2) - need (nblk c)) with
        (fb + need (nblk c') - need (nblk c) + need (nblk c2) - need (nblk c')) by lia.
  - exists B, own, c, p. split_and!; try done. by replace (fb + need (nblk c) - need (nblk c)) with fb by lia.
  - apply lt_fuel. rewrite length_app in Hmax. lia.
Qed.

End append.

(** ** Inodes *)

Definition slot (B : Z -> list Z) (i : Z) : list Z := take 64 (drop (Z.to_nat (dinode_off i)) (B (32 + i / 16))).
Definition put_slot (B : Z -> list Z) (i : Z) (ip : list Z) : Z -> list Z :=
  <[32 + i / 16 := list_inserts (Z.to_nat (dinode_off i)) ip (B (32 + i / 16))]> B.

Lemma div16 i : 0 <= i < 208 -> 0 <= i / 16 < 13 /\ i = 16 * (i / 16) + i mod 16 /\ 0 <= i mod 16 < 16.
Proof.
  intros Hi. pose proof (Z.div_mod i 16 ltac:(lia)). pose proof (Z.mod_pos_bound i 16 ltac:(lia)). lia.
Qed.

Lemma dinode_off_eq i : dinode_off i = i mod 16 * 64.
Proof. done. Qed.

Lemma slot_put B i ip : 0 <= i < 208 -> length (B (32 + i / 16)) = 1024%nat -> length ip = 64%nat -> slot (put_slot B i ip) i = ip.
Proof.
  intros Hi Hl Hip. destruct (div16 i Hi) as (_ & _ & Hm). unfold slot, put_slot. rewrite fn_lookup_insert, dinode_off_eq.
  apply list_eq. intros k. destruct (decide (k < 64)%nat) as [Hk|Hk].
  - rewrite lookup_take_lt, lookup_drop by done. rewrite list_lookup_inserts by lia. f_equal. lia.
  - rewrite lookup_take_ge by lia. symmetry. apply lookup_ge_None_2. lia.
Qed.

Lemma slot_put_ne B i j ip : 0 <= i < 208 -> 0 <= j < 208 -> i <> j -> length ip = 64%nat -> slot (put_slot B i ip) j = slot B j.
Proof.
  intros Hi Hj Hne Hip. destruct (div16 i Hi) as (Hi1 & Hi2 & Hi3), (div16 j Hj) as (Hj1 & Hj2 & Hj3). unfold slot, put_slot.
  destruct (decide (i / 16 = j / 16)) as [E|E]; [|by rewrite fn_lookup_insert_ne by lia].
  rewrite <- E, fn_lookup_insert, !dinode_off_eq. apply list_eq. intros k. destruct (decide (k < 64)%nat) as [Hk|Hk].
  - rewrite !lookup_take_lt, !lookup_drop by done. assert (i mod 16 < j mod 16 \/ j mod 16 < i mod 16) as [Hlt|Hlt] by lia.
    + apply list_lookup_inserts_ge. lia.
    + apply list_lookup_inserts_lt. lia.
  - by rewrite !lookup_take_ge by lia.
Qed.

(** Inode [i] is a file of type [ty] with content [c]. *)
Record node (B : Z -> list Z) (own : Z -> option (Z * Z)) (fb i ty : Z) (c : list Z) : Prop := {
  n_file : stored B own fb i (slot B i) (12 <? nblk c) (nblk c) c;
  n_size : ld32 (slot B i) 8 = Z.of_nat (length c);
  n_hdr : hdr (slot B i) = (ty, 1);
}.

(** The image: inodes [1, ..., fi - 1] have the types and contents [T]. *)
Record image (B : Z -> list Z) (own : Z -> option (Z * Z)) (fi fb : Z) (T : Z -> Z * list Z) : Prop := {
  v_common : common B own fb;
  v_node i : 1 <= i < fi -> node B own fb i (T i).1 (T i).2;
  v_sb : B 1 = list_inserts 0 (encode_sb the_sb) zeros;
}.

Lemma node_ext B own fb B' own' fb' i j ty c :
  ext i B own B' own' -> j <> i -> fb <= fb' -> 1 <= j < 200 -> node B own fb j ty c -> node B' own' fb' j ty c.
Proof.
  intros E Hj Hfb Hr [N1 N2 N3].
  assert (slot B' j = slot B j) as Es.
  { unfold slot. destruct (div16 j ltac:(lia)) as [? _]. by rewrite (e_meta _ _ _ _ _ E) by lia. }
  constructor; rewrite Es; try done. eapply file_frame; [exact N1| |done]. intros b k Ho. split; [exact (e_other _ _ _ _ _ E _ _ _ Ho Hj)|exact (e_own _ _ _ _ _ E _ _ _ Ho)].
Qed.

(** Writing an inode does not touch the files. *)
Lemma file_put B own fb i j ip din hi nb c :
  common B own fb -> 0 <= j < 208 -> stored B own fb i din hi nb c -> stored (put_slot B j ip) own fb i din hi nb c.
Proof.
  intros C Hj F. eapply file_frame; [exact F| |lia]. intros b k Ho. split; [|done]. unfold put_slot.
  apply fn_lookup_insert_ne. pose proof (c_own _ _ _ C _ _ _ Ho). destruct (div16 j Hj). lia.
Qed.

(** Nor does its size matter to where they are. *)
Lemma file_size B own fb i din hi nb c v : stored B own fb i din hi nb c -> stored B own fb i (st32 din 8 v) hi nb c.
Proof.
  intros [].
  assert (forall k, 0 <= k -> baddr B (st32 din 8 v) k = baddr B din k) as Ha.
  { intros k Hk. unfold baddr. by rewrite !ld32_st32_ne by lia. }
  constructor; try done.
  - by rewrite length_st32.
  - intros k Hk. rewrite Ha by lia. auto.
  - intros k Hk. rewrite Ha by lia. auto.
  - by rewrite ld32_st32_ne by lia.
  - intros j Hj. destruct (div1024 j). rewrite Ha by lia. auto.
Qed.

Lemma common_put B own fb j ip : common B own fb -> 0 <= j < 208 -> common (put_slot B j ip) own fb.
Proof.
  intros [C1 C2 C3] Hj. constructor; [done..|]. intros b Hb. unfold put_slot. destruct (div16 j Hj).
  rewrite fn_lookup_insert_ne by lia. by apply C3.
Qed.

Lemma node_put B own fb i j ip ty c :
  common B own fb -> 0 <= i < 208 -> 0 <= j < 208 -> i <> j -> length ip = 64%nat ->
  node B own fb i ty c -> node (put_slot B j ip) own fb i ty c.
Proof.
  intros C Hi Hj Hne Hip [N1 N2 N3]. constructor; rewrite slot_put_ne by done; try done. by apply file_put.
Qed.

Section inodes.
Context `{HO : HostOk}.
Variables (fd : Z) (files : list Z -> option (list Z)) (rest : gmap Z (list Z * Z)).

Lemma wp_rinode i B fi fb s (Q : list Z -> mkfs -> Prop) :
  holds fd files rest B fi fb s -> 0 <= i < 208 -> (forall s', holds fd files rest B fi fb s' -> Q (slot B i) s') ->
  wp (rinode i) Q s.
Proof.
  intros Hh Hi HQ. unfold rinode. destruct (div16 i Hi) as [? _]. apply wp_bind, wp_gets. rewrite (h_sb _ _ _ _ _ _ _ Hh), IBLOCK_sb by done.
  apply wp_bind. eapply wp_rsect; [exact Hh|lia|]. intros s' Hh'. apply wp_ret. by apply HQ.
Qed.

Lemma wp_winode i ip B fi fb s :
  holds fd files rest B fi fb s -> 0 <= i < 208 -> wp (winode i ip) (fun _ => holds fd files rest (put_slot B i ip) fi fb) s.
Proof.
  intros Hh Hi. unfold winode. destruct (div16 i Hi) as [? _]. apply wp_bind, wp_gets. rewrite (h_sb _ _ _ _ _ _ _ Hh), IBLOCK_sb by done.
  apply wp_bind. eapply wp_rsect; [exact Hh|lia|]. intros s' Hh'. apply wp_wsect; [done|lia|].
  rewrite length_inserts. eapply holds_len; [exact Hh'|lia].
Qed.

(** The inode of file [i] is written: the image is whole again. *)
Lemma image_put B own fi fb T i ty c ip :
  common B own fb -> (forall j, 1 <= j < fi -> j <> i -> node B own fb j (T j).1 (T j).2) ->
  B 1 = list_inserts 0 (encode_sb the_sb) zeros -> 1 <= i < 200 -> fi <= 200 -> length (B (32 + i / 16)) = 1024%nat ->
  stored B own fb i ip (12 <? nblk c) (nblk c) c -> ld32 ip 8 = Z.of_nat (length c) -> hdr ip = (ty, 1) ->
  image (put_slot B i ip) own fi fb (<[i := (ty, c)]> T).
Proof.
  intros C N Hsb Hi Hfi Hl F Hs Hd. pose proof (f_din _ _ _ _ _ _ _ _ F) as Hip. constructor.
  - apply common_put; [done|lia].
  - intros j Hj. destruct (decide (j = i)) as [->|Hne].
    + rewrite fn_lookup_insert. constructor; rewrite slot_put by (try done; lia); try done. apply file_put; [done|lia|done].
    + rewrite fn_lookup_insert_ne by done. apply node_put; auto; lia.
  - unfold put_slot. destruct (div16 i ltac:(lia)) as [? _]. rewrite fn_lookup_insert_ne by lia. done.
Qed.

(** [iappend] appends [p] to file [i] and leaves the other files alone. *)
Lemma wp_iappend i p tl B own fi fb T s :
  holds fd files rest B fi fb s -> image B own fi fb T -> 1 <= i < fi -> fi <= 200 ->
  Z.of_nat (length ((T i).2 ++ p)) <= 268 * 1024 -> fb + need (nblk ((T i).2 ++ p)) - need (nblk (T i).2) <= 2000 ->
  wp (iappend i (p ++ tl) (Z.of_nat (length p))) (fun _ s' => exists B' own',
    let fb' := fb + need (nblk ((T i).2 ++ p)) - need (nblk (T i).2) in
    holds fd files rest B' fi fb' s' /\ image B' own' fi fb' (<[i := ((T i).1, (T i).2 ++ p)]> T)) s.
Proof.
  intros Hh V Hi Hfi Hmax Hcap. destruct (V.(v_node _ _ _ _ _) i Hi) as [N1 N2 N3]. set (c := (T i).2) in *.
  unfold iappend. apply wp_bind. eapply wp_rinode; [exact Hh|lia|]. clear s Hh. intros s Hh. rewrite N2.
  rewrite length_app in Hmax. rewrite xint_u32, u32_small by lia. apply wp_bind.
  apply (append_loop fd files rest fi i B own fb (slot B i) c p tl s); [constructor; [done|apply V|done]|rewrite length_app; lia|done|].
  cbv zeta. intros B' own' din' s' [Hh' C F] E Hd. set (fb' := fb + _ - _) in *. pose proof (f_din _ _ _ _ _ _ _ _ F) as Hl.
  pose proof (c_fb _ _ _ C). assert (fb <= fb') as Hfb.
  { assert (need (nblk c) <= need (nblk (c ++ p))); [|lia]. apply need_mono. pose proof (nblk_bounds c). pose proof (nblk_bounds (c ++ p)) as Hb.
    rewrite length_app in Hb. lia. }
  rewrite xint_u32, u32_small by (rewrite length_app; lia).
  eapply wp_mono; [apply (wp_winode _ _ _ _ _ _ Hh'); lia|]. intros [] s2 Hh2. cbv beta in Hh2.
  eexists _, own'. split; [exact Hh2|]. destruct (div16 i ltac:(lia)) as [? _]. apply image_put; auto; try lia.
  - intros j Hj Hne. eapply node_ext; [exact E|done|done|lia|]. by apply V.
  - rewrite (e_meta _ _ _ _ _ E) by lia. apply V.
  - eapply holds_len; [exact Hh'|lia].
  - by apply file_size.
  - rewrite ld32_st32 by lia. apply u32_small. rewrite length_app. lia.
  - rewrite hdr_st32 by lia. by rewrite Hd.
Qed.

(** A new inode: an empty file. *)
Lemma wp_ialloc ty B own fi fb T s (Q : Z -> mkfs -> Prop) :
  holds fd files rest B fi fb s -> image B own fi fb T -> 1 <= fi < 200 -> 0 <= ty < 2 ^ 16 ->
  (forall B' s', holds fd files rest B' (fi + 1) fb s' -> image B' own (fi + 1) fb (<[fi := (ty, [])]> T) -> Q fi s') ->
  wp (ialloc ty) Q s.
Proof.
  intros Hh V Hfi Hty HQ. pose proof (h_fi _ _ _ _ _ _ _ Hh) as Ef. unfold ialloc. apply wp_bind, wp_gets. rewrite Ef.
  apply wp_bind, wp_modify. change (Z.to_nat DINODE_SIZE) with 64%nat. set (ip := st32 _ 8 _).
  assert (holds fd files rest B (fi + 1) fb (s <| m_freeinode := u32 (fi + 1) |>)) as Hh'.
  { destruct Hh. constructor; rsimpl; try done. apply u32_small. lia. }
  apply wp_bind. eapply wp_mono; [apply (wp_winode _ _ _ _ _ _ Hh'); lia|]. intros [] s' Hh2. cbv beta in Hh2. apply wp_ret.
  eapply HQ; [exact Hh2|]. destruct (div16 fi ltac:(lia)) as [? _].
  assert (forall o, 12 <= o -> o + 4 <= 64 -> ld32 ip o = 0) as Hz.
  { intros o Ho1 Ho2. unfold ip. rewrite ld32_st32_ne by lia. unfold ld32. rewrite !ld_st_ne by lia. apply (ld32_zeros 64); lia. }
  assert (forall k, 0 <= k -> baddr B ip k = 0) as Ha.
  { intros k Hk. unfold baddr. destruct (Z.ltb_spec k 12); [apply Hz; lia|]. by rewrite (Hz 60) by lia. }
  assert (length ip = 64%nat) as Hl by (unfold ip; by rewrite length_st32, !length_st, length_replicate).
  apply image_put; try lia; try apply V.
  - intros j Hj Hne. apply V. lia.
  - eapply holds_len; [exact Hh|lia].
  - constructor; try done; try lia.
    + intros k Hk. change (nblk []) with 0 in Hk. lia.
    + intros k Hk. apply Ha. change (nblk []) with 0 in Hk. lia.
    + intros j Hj. change (nblk []) with 0 in Hj. lia.
  - unfold ip. rewrite ld32_st32 by (try lia; rewrite !length_st, length_replicate; lia). done.
  - unfold ip. rewrite hdr_st32 by lia. unfold hdr. rewrite (ld_st_ne 2 _ 0), !ld_st by (rewrite ?length_st, ?length_replicate; cbn; lia).
    rewrite !xshort_u16. unfold u16. change (256 ^ Z.of_nat 2) with (2 ^ 16). by rewrite !Z.mod_mod, (Z.mod_small ty) by lia.
Qed.

End inodes.
