(* ===== verification/MkfsImage.v ===== *)
(** * MkfsImage: the files on the image that [mkfs] builds

    The files named on the command line, the root directory, the superblock
    and the bitmap, seen by a reader that follows [kernel/fs.h]. *)

From stdpp Require Import base list gmap functions strings.
From Stdlib Require Import ZArith Lia.
From S2P Require Import User Ulib Prelude CMem Riscv Spinlock Kalloc Vm Que KState Printf Proc Bio Log BlockData Fs Mkfs MkfsSpec.

(** The directory entry of the file [path] with inode [inum]. *)
Definition dir_entry (inum : Z) (path : list Z) : list Z :=
  dirent inum (arr_strncpy (replicate 14 0) (skip_underscore (basename path)) DIRSIZ).

Lemma length_entry inum path : length (dir_entry inum path) = 16%nat.
Proof. unfold dir_entry, dirent. rewrite length_app, length_le_bytes. unfold arr_strncpy. by rewrite length_rdbytes. Qed.

Lemma image_T B own fi fb T T' : image B own fi fb T -> (forall i, 1 <= i < fi -> T' i = T i) -> image B own fi fb T'.
Proof. intros [] HT. constructor; try done. intros i Hi. rewrite HT by done. auto. Qed.

Section files.
Context `{HO : HostOk}.
Variables (fd : Z) (files : list Z -> option (list Z)).

(** A call that leaves the image alone. *)
Lemma holds_host rest B fi fb s w' rest' :
  holds fd files rest B fi fb s -> h_fds w' !! fd = h_fds (m_host s) !! fd -> delete fd (h_fds w') = rest' ->
  h_files w' = h_files (m_host s) -> holds fd files rest' B fi fb (s <| m_host := w' |>).
Proof.
  intros [] Hf Hr Hfs. constructor; rsimpl; try done; [by rewrite Hfs|]. destruct h_img as (im & pos & Him & ?). exists im, pos. by rewrite Hf.
Qed.

Lemma wp_input fd2 c pos rest B fi fb s (Q : Z * list Z -> mkfs -> Prop) :
  holds fd files rest B fi fb s -> rest !! fd2 = Some (c, pos) -> 0 <= pos ->
  (let bs := take 1024 (drop (Z.to_nat pos) c) in
   forall s', holds fd files (<[fd2 := (c, pos + Z.of_nat (length bs))]> rest) B fi fb s' -> Q (Z.of_nat (length bs), bs) s') ->
  wp (host (HRead fd2 BSIZE)) Q s.
Proof.
  intros Hh Hr Hpos HQ. pose proof (h_rest _ _ _ _ _ _ _ Hh) as Er. rewrite <- Er in Hr. apply lookup_delete_Some in Hr as [Hne Hf].
  destruct (host_read fd2 BSIZE c pos (m_host s) Hf) as (w' & E & Hw & Hfs); [done..|].
  eapply wp_host; [exact E|]. apply HQ. eapply holds_host; [exact Hh|..|done]; rewrite Hw.
  - by rewrite lookup_insert_ne.
  - by rewrite delete_insert_ne, Er.
Qed.

(** The loop that copies a file of the host into file [i]. *)
Lemma wp_copy_file fd2 i ty c buf rest B own fi fb T s :
  holds fd files (<[fd2 := (c, 0)]> rest) B fi fb s -> image B own fi fb T -> T i = (ty, []) -> 1 <= i < fi -> fi <= 200 ->
  Z.of_nat (length c) <= 268 * 1024 -> fb + need (nblk c) <= 2000 -> length buf = 1024%nat ->
  wp (copy_file fd2 i buf) (fun buf' s' => length buf' = 1024%nat /\ exists B' own',
    holds fd files (<[fd2 := (c, Z.of_nat (length c))]> rest) B' fi (fb + need (nblk c)) s' /\
    image B' own' fi (fb + need (nblk c)) (<[i := (ty, c)]> T)) s.
Proof.
  intros Hh V HT Hi Hfi Hmax Hcap Hbuf.
  assert (forall p, need (nblk (take p c)) <= need (nblk c)) as Hmono.
  { intros p. apply need_mono. pose proof (nblk_bounds (take p c)) as Hb. pose proof (nblk_bounds c). rewrite length_take in Hb. lia. }
  apply (wp_while_idx (fun k buf s => length buf = 1024%nat /\ exists B own (pos : nat), k = (length c - pos)%nat /\ (pos <= length c)%nat /\
    holds fd files (<[fd2 := (c, Z.of_nat pos)]> rest) B fi (fb + need (nblk (take pos c))) s /\
    image B own fi (fb + need (nblk (take pos c))) (<[i := (ty, take pos c)]> T)) _ _ (length c)).
  2:{ split; [done|]. exists B, own, 0%nat. rewrite take_0. change (need (nblk [])) with 0. rewrite Z.add_0_r.
      split_and!; [lia|lia|done|]. eapply image_T; [exact V|]. intros j Hj. unfold insert, fn_insert. case_decide; congruence. }
  2:{ apply lt_fuel. lia. }
  clear s Hh B own V buf Hbuf. intros k buf s (Hbuf & B & own & pos & -> & Hpos & Hh & V).
  apply wp_bind. eapply wp_input; [exact Hh|apply lookup_insert_eq|lia|]. cbv zeta. rewrite Nat2Z.id, insert_insert_eq.
  clear s Hh. intros s Hh. set (bs := take 1024 (drop pos c)) in *.
  assert (length bs = Nat.min 1024 (length c - pos)) as Hbs by (unfold bs; by rewrite length_take, length_drop).
  destruct (Z.ltb_spec 0 (Z.of_nat (length bs))) as [Hlt|Hge]; cbn [negb].
  2:{ apply wp_ret. assert (pos = length c) as -> by lia. split; [by rewrite length_inserts|]. exists B, own.
      rewrite (take_ge c) in * by lia. by replace (Z.of_nat (length c) + Z.of_nat (length bs)) with (Z.of_nat (length c)) in Hh by lia. }
  assert (take pos c ++ bs = take (pos + length bs) c) as Et.
  { unfold bs at 1. rewrite take_take_drop. destruct (decide (length c <= pos + 1024)%nat).
    - rewrite !take_ge by lia. done.
    - by replace (pos + length bs)%nat with (pos + 1024)%nat by lia. }
  replace (list_inserts 0 bs buf) with (bs ++ drop (length bs) buf).
  2:{ apply list_eq. intros n. destruct (decide (n < length bs)%nat).
      - rewrite lookup_app_l, list_lookup_inserts by lia. f_equal. lia.
      - rewrite lookup_app_r, lookup_drop, list_lookup_inserts_ge by lia. f_equal. lia. }
  assert ((<[i := (ty, take pos c)]> T) i = (ty, take pos c)) as Ei by apply fn_lookup_insert.
  pose proof (Hmono (pos + length bs)%nat) as Hm. rewrite <- Et in Hm.
  apply wp_bind. eapply wp_mono.
  { apply (wp_iappend _ _ _ _ _ _ _ _ _ _ _ _ Hh V Hi Hfi); rewrite Ei; cbn [fst snd]; [|lia]. rewrite Et, length_take. lia. }
  rewrite Ei. cbn [fst snd]. rewrite Et. intros [] s' (B' & own' & Hh' & V'). apply wp_ret. exists (length c - (pos + length bs))%nat.
  split; [lia|]. split; [rewrite length_app, length_drop; lia|]. exists B', own', (pos + length bs)%nat.
  replace (fb + need (nblk (take pos c)) + need (nblk (take (pos + length bs) c)) - need (nblk (take pos c)))
    with (fb + need (nblk (take (pos + length bs) c))) in * by lia.
  split_and!; [done|lia|by rewrite Nat2Z.inj_add|]. eapply image_T; [exact V'|]. intros j Hj. unfold insert, fn_insert. by case_decide.
Qed.

(** One file of the command line: a new inode, its entry in the root
    directory and its content. *)
Lemma wp_add_file path c root buf rest B own fi fb T s :
  holds fd files rest B fi fb s -> image B own fi fb T -> T 1 = (T_DIR, root) -> 2 <= fi < 200 ->
  files path = Some c -> SLASH ∉ basename path -> Z.of_nat (length c) <= 268 * 1024 -> length buf = 1024%nat ->
  let root' := root ++ dir_entry fi path in
  let fb' := fb + need (nblk root') - need (nblk root) + need (nblk c) in
  Z.of_nat (length root') <= 268 * 1024 -> fb' <= 2000 ->
  wp (add_file 1 path buf) (fun buf' s' => length buf' = 1024%nat /\ exists B' own',
    holds fd files rest B' (fi + 1) fb' s' /\ image B' own' (fi + 1) fb' (<[fi := (T_FILE, c)]> (<[1 := (T_DIR, root')]> T))) s.
Proof.
  intros Hh V HT Hfi Hf Hsl Hmax Hbuf root' fb' Hroot Hcap. unfold add_file. cbv zeta. unfold assert.
  rewrite bool_decide_eq_true_2 by done. apply wp_bind, wp_ret.
  destruct (host_open path c (m_host s) (h_fs _ _ _ _ _ _ _ Hh _ _ Hf)) as (fd2 & w & E & Hfd2 & Hno & Hw & Hfs).
  apply wp_bind. eapply wp_host; [exact E|]. destruct (Z.ltb_spec fd2 0); [lia|]. apply wp_bind, wp_ret.
  pose proof (h_img _ _ _ _ _ _ _ Hh) as (im & pos & Him & _). assert (fd2 <> fd) as Hne by congruence.
  pose proof (h_rest _ _ _ _ _ _ _ Hh) as Er.
  assert (rest !! fd2 = None) as Hrn by (rewrite <- Er; by rewrite lookup_delete_ne).
  eapply (holds_host _ _ _ _ _ w (<[fd2 := (c, 0)]> rest)) in Hh; [|by rewrite Hw, lookup_insert_ne|by rewrite Hw, delete_insert_ne, Er|done].
  apply wp_bind. eapply wp_ialloc; [exact Hh|exact V|lia|done|]. clear s Hh B V E Hno Hw Hfs Him Er. intros B s Hh V.
  apply wp_bind. replace DIRENT_SIZE with (Z.of_nat (length (dir_entry fi path))) by by rewrite length_entry.
  change (dirent fi _) with (dir_entry fi path). rewrite <- (app_nil_r (dir_entry fi path)) at 1.
  assert ((<[fi := (T_FILE, [])]> T) 1 = (T_DIR, root)) as E1 by (rewrite fn_lookup_insert_ne by lia; done).
  assert (0 <= need (nblk c)) as Hn by (apply (need_mono 0), Z.div_pos; lia).
  eapply wp_mono; [apply (wp_iappend _ _ _ _ _ _ _ _ _ _ _ _ Hh V); rewrite ?E1; cbn [fst snd]; fold root'; lia|].
  rewrite E1. cbn [fst snd]. fold root'. clear s Hh B V. intros [] s (B & own1 & Hh & V).
  apply wp_bind. eapply wp_mono.
  { apply (wp_copy_file fd2 fi T_FILE c buf _ _ _ _ _ _ _ Hh V); [|lia..|done].
    rewrite fn_lookup_insert_ne by lia. apply fn_lookup_insert. }
  clear s Hh B V. intros buf' s (Hbuf' & B & own2 & Hh & V). apply wp_bind.
  destruct (host_close fd2 (m_host s)) as (r & w2 & Ec & Hw2 & Hfs2). eapply wp_host; [exact Ec|]. apply wp_ret. split; [done|].
  exists B, own2. split.
  - eapply holds_host; [exact Hh|by rewrite Hw2, lookup_delete_ne| |done].
    rewrite Hw2, delete_delete, (h_rest _ _ _ _ _ _ _ Hh), delete_insert_id by done. done.
  - eapply image_T; [exact V|]. intros j Hj. unfold insert, fn_insert. repeat case_decide; done.
Qed.

(** What the files [fs] of the command line make of an image. *)
Fixpoint built (fi : Z) (root : list Z) (fs : list (list Z * list Z)) (T : Z -> Z * list Z) : Z -> Z * list Z :=
  match fs with
  | [] => T
  | (path, c) :: fs' =>
      let root' := root ++ dir_entry fi path in
      built (fi + 1) root' fs' (<[fi := (T_FILE, c)]> (<[1 := (T_DIR, root')]> T))
  end.

(** The entries of the root directory for them, and the blocks of their
    content. *)
Fixpoint entries (fi : Z) (fs : list (list Z * list Z)) : list Z :=
  match fs with [] => [] | (path, _) :: fs' => dir_entry fi path ++ entries (fi + 1) fs' end.
Fixpoint demand (fs : list (list Z * list Z)) : Z :=
  match fs with [] => 0 | (_, c) :: fs' => need (nblk c) + demand fs' end.

Lemma length_entries fi fs : length (entries fi fs) = (16 * length fs)%nat.
Proof. revert fi. induction fs as [|[path c] fs IH]; intros fi; [done|]. cbn [entries length]. rewrite length_app, length_entry, IH. lia. Qed.

Lemma demand_pos fs : 0 <= demand fs.
Proof.
  induction fs as [|[path c] fs IH]; [done|]. cbn [demand]. assert (0 <= need (nblk c)); [|lia].
  apply (need_mono 0), Z.div_pos; lia.
Qed.

(** A file that can be put on the image. *)
Definition input_ok (f : list Z * list Z) : Prop :=
  files f.1 = Some f.2 /\ SLASH ∉ basename f.1 /\ Z.of_nat (length f.2) <= 268 * 1024.

Lemma wp_add_files fs root buf rest B own fi fb T s :
  holds fd files rest B fi fb s -> image B own fi fb T -> T 1 = (T_DIR, root) -> 2 <= fi -> fi + Z.of_nat (length fs) <= 200 ->
  Forall input_ok fs -> length buf = 1024%nat ->
  let fb' := fb + need (nblk (root ++ entries fi fs)) - need (nblk root) + demand fs in
  Z.of_nat (length (root ++ entries fi fs)) <= 268 * 1024 -> fb' <= 2000 ->
  wp (add_files 1 (fst <$> fs) buf) (fun _ s' => exists B' own',
    holds fd files rest B' (fi + Z.of_nat (length fs)) fb' s' /\
    image B' own' (fi + Z.of_nat (length fs)) fb' (built fi root fs T)) s.
Proof.
  revert root buf B own fi fb T s. induction fs as [|[path c] fs IH]; intros root buf B own fi fb T s Hh V HT Hfi Hn Hok Hbuf fb' Hroot Hcap.
  - unfold fb'. cbn. apply wp_ret. exists B, own. rewrite app_nil_r, !Z.add_0_r. replace (fb + _ - _) with fb by lia. done.
  - apply Forall_cons in Hok as [(Hf & Hsl & Hmax) Hok]. unfold fb' in *. clear fb'. cbn [fst snd] in *. cbn [length] in Hn.
    pose proof (demand_pos fs) as Hdp. change (entries fi ((path, c) :: fs)) with (dir_entry fi path ++ entries (fi + 1) fs) in *.
    change (demand ((path, c) :: fs)) with (need (nblk c) + demand fs) in *. rewrite app_assoc in *. set (root' := root ++ dir_entry fi path) in *.
    assert (need (nblk root') <= need (nblk (root' ++ entries (fi + 1) fs))) as Hmono.
    { apply need_mono. pose proof (nblk_bounds root'). pose proof (nblk_bounds (root' ++ entries (fi + 1) fs)) as Hb.
      rewrite length_app in Hb. lia. }
    rewrite fmap_cons. apply wp_bind. eapply wp_mono.
    { apply (wp_add_file path c root buf _ _ _ _ _ _ _ Hh V HT); try done; [lia| |fold root'; lia].
      fold root'. rewrite length_app in Hroot. lia. }
    cbv beta. fold root'. intros buf' s' (Hbuf' & B' & own' & Hh' & V'). eapply wp_mono.
    { apply (IH root' buf' B' own' _ _ _ _ Hh' V'); try done; try lia.
      rewrite fn_lookup_insert_ne by lia. apply fn_lookup_insert. }
    cbv beta. intros [] s2 (B2 & own2 & Hh2 & V2). exists B2, own2. cbn [length].
    replace (fi + Z.of_nat (S (length fs))) with (fi + 1 + Z.of_nat (length fs)) by lia.
    replace (fb + need (nblk (root' ++ entries (fi + 1) fs)) - need (nblk root) + (need (nblk c) + demand fs)) with
      (fb + need (nblk root') - need (nblk root) + need (nblk c) + need (nblk (root' ++ entries (fi + 1) fs)) - need (nblk root') + demand fs) by lia.
    done.
Qed.

End files.

(** ** The bitmap *)

Definition bitmap (used : Z) : list Z :=
  foldl (fun buf i => setb buf (i / 8) (Z.lor (getb buf (i / 8)) (Z.shiftl 1 (i mod 8)))) (replicate (Z.to_nat BSIZE) 0) (seqZ 0 used).

Definition marked (bm : list Z) (b : Z) : bool := Z.testbit (getb bm (b / 8)) (b mod 8).

Lemma bitmap_succ n : 0 <= n -> bitmap (n + 1) = setb (bitmap n) (n / 8) (Z.lor (getb (bitmap n) (n / 8)) (Z.shiftl 1 (n mod 8))).
Proof.
  intros Hn. unfold bitmap at 1. rewrite seqZ_app by lia. rewrite foldl_app. cbn [foldl]. by rewrite Z.add_0_l.
Qed.

Lemma bitmap_spec n : 0 <= n <= 8192 ->
  length (bitmap n) = 1024%nat /\ forall b, 0 <= b < 8192 -> marked (bitmap n) b = (b <? n).
Proof.
  intros [Hn Hmax]. revert Hmax. pattern n. apply natlike_ind; [| |done].
  - intros _. split; [apply length_replicate|]. intros b Hb. unfold marked. replace (getb (bitmap 0) (b / 8)) with 0.
    { rewrite Z.testbit_0_l. symmetry. apply Z.ltb_ge. lia. }
    unfold getb, bitmap. cbn [foldl seqZ]. destruct (nth_in_or_default (Z.to_nat (b / 8)) (replicate (Z.to_nat BSIZE) 0) 0) as [Hin|E]; [|done].
    apply list_elem_of_In, elem_of_replicate_inv in Hin. done.
  - clear n Hn. intros n Hn IH Hmax. destruct IH as [Hl Hb]; [lia|]. change (Z.succ n) with (n + 1). rewrite bitmap_succ by done. unfold setb.
    split; [by rewrite length_insert|]. intros b Hr. specialize (Hb b Hr). unfold marked, getb in Hb |- *.
    pose proof (Z.div_mod b 8 ltac:(lia)). pose proof (Z.mod_pos_bound b 8 ltac:(lia)).
    pose proof (Z.div_mod n 8 ltac:(lia)). pose proof (Z.mod_pos_bound n 8 ltac:(lia)).
    destruct (decide (b / 8 = n / 8)) as [E|E].
    + rewrite E in Hb |- *. erewrite nth_lookup_Some; [|apply list_lookup_insert_eq; lia].
      unfold u8. rewrite Z.mod_pow2_bits_low, Z.lor_spec, Hb, Z.shiftl_1_l, Z.pow2_bits_eqb by lia.
      destruct (Z.ltb_spec b n), (Z.eqb_spec (n mod 8) (b mod 8)), (Z.ltb_spec b (n + 1)); try done; lia.
    + rewrite nth_lookup, list_lookup_insert_ne, <- nth_lookup, Hb by lia.
      destruct (Z.ltb_spec b n), (Z.ltb_spec b (n + 1)); try done; lia.
Qed.

(** ** The empty image *)

Section init.
Context `{HO : HostOk}.
Variables (fd : Z) (files : list Z -> option (list Z)) (rest : gmap Z (list Z * Z)).

(** The image file while it is filled with zeros: [n] blocks so far. *)
Record filling (n : nat) (s : mkfs) : Prop := {
  g_fd : m_fsfd s = fd;
  g_sb : m_sb s = the_sb;
  g_fi : m_freeinode s = 1;
  g_fb : m_freeblock s = 46;
  g_rest : delete fd (h_fds (m_host s)) = rest;
  g_fs : forall p c, files p = Some c -> h_files (m_host s) p = Some c;
  g_img : exists pos, h_fds (m_host s) !! fd = Some (replicate (n * 1024) 0, pos);
}.

Lemma wp_fill_image n s : filling n s -> (n < 2000)%nat -> wp (wsect (Z.of_nat n) zeros) (fun _ => filling (S n)) s.
Proof.
  intros [E1 E2 E3 E4 E5 E6 [pos E7]] Hn. unfold wsect. apply wp_bind, wp_gets.
  eapply wp_seek; [by rewrite E1|lia|]. intros w' Hw Hfs. rewrite E1 in *. apply wp_bind. rewrite take_ge by done.
  destruct (host_write fd zeros (replicate (n * 1024) 0) (Z.of_nat n * 1024) w') as (w2 & Ew & Hw2 & Hfs2);
    [rewrite Hw; apply lookup_insert_eq|rewrite length_replicate; lia|].
  eapply wp_host; [exact Ew|]. cbn [length zeros replicate]. change (Z.of_nat (length zeros)) with 1024. cbn [negb Z.eqb]. apply wp_ret.
  constructor; rsimpl; try done.
  - by rewrite Hw2, Hw, !delete_insert_eq.
  - intros p c Hp. rewrite Hfs2, Hfs. by apply E6.
  - eexists. rewrite Hw2, lookup_insert_eq. do 2 f_equal. unfold zeros. rewrite take_replicate, drop_replicate, length_replicate, <- !replicate_add.
    f_equal. lia.
Qed.

Lemma wp_fill_all s : filling 0 s ->
  wp (for_each (seqZ 0 FSSIZE) (fun i => wsect i (replicate (Z.to_nat BSIZE) 0))) (fun _ => holds fd files rest (fun _ => zeros) 1 46) s.
Proof.
  intros G. eapply wp_mono; [apply (wp_for_each (fun dn s => dn = seqZ 0 (Z.of_nat (length dn)) /\ filling (length dn) s) (seqZ 0 FSSIZE))|].
  - intros dn x todo s' El [Ed G']. assert (length (seqZ 0 FSSIZE) = 2000%nat) as Hl by (rewrite length_seqZ; done).
    rewrite El, length_app in Hl. cbn in Hl.
    assert (x = Z.of_nat (length dn)) as ->.
    { assert (seqZ 0 FSSIZE !! length dn = Some x) as Hx by (rewrite El; by apply list_lookup_middle). apply lookup_seqZ in Hx. lia. }
    rewrite length_app. cbn [length]. rewrite Nat.add_1_r. eapply wp_mono; [apply (wp_fill_image _ _ G'); lia|]. intros [] s2 G2. split; [|done].
    rewrite Nat2Z.inj_succ, <- Z.add_1_r, seqZ_app by lia. by rewrite <- Ed.
  - done.
  - cbv beta. intros [] s' [_ G']. rewrite length_seqZ in G'. change (Z.to_nat FSSIZE) with 2000%nat in G'.
    destruct G' as [E1 E2 E3 E4 E5 E6 [pos E7]]. constructor; try done. eexists _, pos. split; [exact E7|]. split.
    { rewrite length_replicate, Nat2Z.inj_mul. done. }
    intros b Hb. unfold blk. rewrite drop_replicate, take_replicate. unfold zeros. f_equal. lia.
Qed.

End init.

(** ** A reader of images

    It knows [kernel/fs.h] only: the superblock in block 1, inodes in the
    blocks it names, block addresses as [bmap] uses them.  An address 0 is a
    hole, which reads as zeros. *)
Definition inode_of (im : list Z) (i : Z) : list Z :=
  take 64 (drop (Z.to_nat (dinode_off i)) (blk im (IBLOCK i (decode_sb (blk im 1))))).
Definition file_byte (im din : list Z) (j : Z) : Z :=
  let a := baddr (blk im) din (j / 1024) in if a =? 0 then 0 else nth (Z.to_nat (j mod 1024)) (blk im a) 0.
Definition content (im : list Z) (i : Z) : list Z := file_byte im (inode_of im i) <$> seqZ 0 (ld32 (inode_of im i) 8).

(** Type and number of links of inode [i]. *)
Definition kind_of (im : list Z) (i : Z) : Z * Z := hdr (inode_of im i).

Lemma content_file im own fb i hi nb c n :
  stored (blk im) own fb i (inode_of im i) hi nb c -> ld32 (inode_of im i) 8 = Z.of_nat (length c) + Z.of_nat n ->
  Z.of_nat (length c) + Z.of_nat n <= (nb + 1) * 1024 -> nb < 268 \/ n = 0%nat ->
  content im i = c ++ replicate n 0.
Proof.
  intros F Hs Hn Hnb. unfold content. rewrite Hs. apply list_eq. intros j. destruct (decide (j < length c + n)%nat) as [Hj|Hj].
  2:{ rewrite (lookup_ge_None_2 (c ++ _)) by (rewrite length_app, length_replicate; lia).
      apply lookup_ge_None_2. rewrite length_fmap, length_seqZ. lia. }
  rewrite list_lookup_fmap, lookup_seqZ_lt by lia. cbn [fmap option_fmap option_map]. rewrite Z.add_0_l.
  assert ((c ++ replicate n 0) !! j = Some (nth j c 0)) as ->.
  { destruct (decide (j < length c)%nat) as [Hc|Hc].
    - rewrite lookup_app_l by done. destruct (lookup_lt_is_Some_2 c j Hc) as [v Hv]. by rewrite (nth_lookup_Some _ _ _ _ Hv).
    - rewrite lookup_app_r, nth_overflow by lia. apply lookup_replicate_2. lia. }
  f_equal. unfold file_byte. pose proof (f_nb _ _ _ _ _ _ _ _ F). destruct (div1024 j) as (Hd1 & Hd2 & Hd3 & Hd4).
  pose proof (f_len _ _ _ _ _ _ _ _ F). destruct (decide (Z.of_nat j < nb * 1024)) as [Hlt|Hge].
  - pose proof (f_data _ _ _ _ _ _ _ _ F j Hlt) as Hb. destruct (f_addr _ _ _ _ _ _ _ _ F (Z.of_nat j / 1024)) as [Hr _]; [lia|].
    destruct (Z.eqb_spec (baddr (blk im) (inode_of im i) (Z.of_nat j / 1024)) 0); [lia|].
    replace (Z.to_nat (Z.of_nat j mod 1024)) with (j `mod` 1024)%nat by (change 1024 with (Z.of_nat 1024); rewrite <- Nat2Z.inj_mod; lia).
    apply nth_lookup_Some, Hb.
  - rewrite (f_none _ _ _ _ _ _ _ _ F) by lia. rewrite Z.eqb_refl. symmetry. apply nth_overflow. lia.
Qed.

Lemma file_blk im B own fb i din hi nb c :
  common B own fb -> (forall b, 0 <= b < 2000 -> B b = blk im b) -> stored B own fb i din hi nb c -> stored (blk im) own fb i din hi nb c.
Proof.
  intros C HB F. eapply file_frame; [exact F| |lia]. intros b k Ho. split; [|done]. pose proof (c_own _ _ _ C _ _ _ Ho).
  pose proof (c_fb _ _ _ C). symmetry. apply HB. lia.
Qed.

Lemma sb_of_image (B : Z -> list Z) (im : list Z) : (forall b, 0 <= b < 2000 -> B b = blk im b) -> B 1 = list_inserts 0 (encode_sb the_sb) zeros ->
  decode_sb (blk im 1) = the_sb.
Proof. intros HB H1. rewrite <- HB, H1 by lia. vm_compute. done. Qed.

Lemma inode_of_slot B im i : (forall b, 0 <= b < 2000 -> B b = blk im b) -> decode_sb (blk im 1) = the_sb -> 0 <= i < 208 ->
  inode_of im i = slot B i.
Proof.
  intros HB Hsb Hi. unfold inode_of, slot. destruct (div16 i Hi). rewrite Hsb, IBLOCK_sb by done. by rewrite HB by lia.
Qed.

(** ** [main] *)

Lemma built_root fi root fs T : 2 <= fi -> T 1 = (T_DIR, root) -> built fi root fs T 1 = (T_DIR, root ++ entries fi fs).
Proof.
  revert fi root T. induction fs as [|[path c] fs IH]; intros fi root T Hfi HT; cbn [built entries]; [by rewrite app_nil_r|].
  rewrite IH; [by rewrite app_assoc|lia|]. rewrite fn_lookup_insert_ne by lia. apply fn_lookup_insert.
Qed.

Lemma built_old fi root fs T i : 2 <= i < fi -> built fi root fs T i = T i.
Proof.
  revert fi root T. induction fs as [|[path c] fs IH]; intros fi root T Hi; cbn [built]; [done|].
  rewrite IH by lia. by rewrite !fn_lookup_insert_ne by lia.
Qed.

Lemma built_file fi root fs T (k : nat) path c : 2 <= fi -> fs !! k = Some (path, c) -> built fi root fs T (fi + Z.of_nat k) = (T_FILE, c).
Proof.
  revert fi root T k. induction fs as [|[path' c'] fs IH]; intros fi root T k Hfi Hk; [done|]. cbn [built]. destruct k as [|k].
  - cbn in Hk. simplify_eq. rewrite Z.add_0_r, built_old by lia. apply fn_lookup_insert.
  - rewrite Nat2Z.inj_succ, <- Z.add_1_l, Z.add_assoc. apply IH; [lia|done].
Qed.

(** The root directory, and the blocks that are used in the end. *)
Definition dots : list Z := dirent 1 (bzero_name (lit ".")) ++ dirent 1 (bzero_name (lit "..")).
Definition root_dir (fs : list (list Z * list Z)) : list Z := dots ++ entries 2 fs.
Definition used (fs : list (list Z * list Z)) : Z := 46 + need (nblk (root_dir fs)) + demand fs.

Lemma length_root_dir fs : length (root_dir fs) = (32 + 16 * length fs)%nat.
Proof. unfold root_dir. by rewrite length_app, length_entries. Qed.

Section main.
Context `{HO : HostOk}.

Lemma wx_seq {A C} (m : M mkfs A) (f : A -> M mkfs C) Q s : wp m (fun a => wx (f a) Q) s -> wx (m ≫= f) Q s.
Proof. intros Hm. by apply wx_bind, wx_wp. Qed.

Lemma wp_balloc fd files rest B fi fb s n : holds fd files rest B fi fb s -> 0 <= n < 8192 ->
  wp (balloc n) (fun _ => holds fd files rest (<[45 := bitmap n]> B) fi fb) s.
Proof.
  intros Hh Hn. unfold balloc. fold (bitmap n). destruct (host_printf ("balloc: first %d blocks have been allocated" +:+ newline) [n] (m_host s)) as (r & w & E & Hw & Hf).
  apply wp_bind. eapply wp_host; [exact E|].
  eapply (holds_host _ _ _ _ _ _ _ w rest) in Hh; [|by rewrite Hw|rewrite Hw; apply Hh|done].
  set (s1 := s <| m_host := w |>) in *. clearbody s1. clear s E Hw Hf. unfold assert. change (BSIZE * 8) with 8192.
  destruct (Z.ltb_spec n 8192); [|lia]. apply wp_bind, wp_ret, wp_bind, wp_gets. rewrite (h_sb _ _ _ _ _ _ _ Hh).
  destruct (host_printf ("balloc: write bitmap block at sector %d" +:+ newline) [sb_bmapstart the_sb] (m_host s1)) as (r2 & w2 & E2 & Hw2 & Hf2).
  apply wp_bind. eapply wp_host; [exact E2|].
  eapply (holds_host _ _ _ _ _ _ _ w2 rest) in Hh; [|by rewrite Hw2|rewrite Hw2; apply Hh|done].
  change (sb_bmapstart the_sb) with 45. apply wp_wsect; [done|lia|]. apply bitmap_spec. lia.
Qed.

(** The bitmap is in a block that no file uses. *)
Lemma image_bitmap B own fi fb T d : image B own fi fb T -> fi <= 200 -> image (<[45 := d]> B) own fi fb T.
Proof.
  intros [[C1 C2 C3] N Hsb] Hfi.
  assert (forall b, b <> 45 -> (<[45 := d]> B : Z -> list Z) b = B b) as HB by (intros; by apply fn_lookup_insert_ne).
  constructor; [constructor; [done..|]| |by rewrite HB].
  - intros b Hb. rewrite HB by lia. auto.
  - intros i Hi. destruct (N i Hi) as [N1 N2 N3]. destruct (div16 i ltac:(lia)).
    assert (slot (<[45 := d]> B) i = slot B i) as Es by (unfold slot; by rewrite HB by lia).
    constructor; rewrite Es; try done. eapply file_frame; [exact N1| |lia]. intros b k Ho. split; [|done]. apply HB.
    pose proof (C2 _ _ _ Ho). lia.
Qed.

Lemma image_holds_ext fd files rest B B' fi fb s :
  holds fd files rest B fi fb s -> (forall b, B' b = B b) -> holds fd files rest B' fi fb s.
Proof. intros [] HB. constructor; try done. destruct h_img as (im & pos & ? & ? & Him). exists im, pos. split_and!; [done..|]. intros b Hb. rewrite HB. auto. Qed.

Definition nofiles : Z -> Z * list Z := fun _ => (0, []).

Lemma wp_format path files s :
  m_freeinode s = 1 -> (forall p c, files p = Some c -> p <> path /\ h_files (m_host s) p = Some c) ->
  wp (format path) (fun _ s' => exists fd rest, holds fd files rest (fun _ => zeros) 1 46 s') s.
Proof.
  intros Hfi Hfiles. unfold format, assert. change (BSIZE mod DINODE_SIZE =? 0) with true. change (BSIZE mod DIRENT_SIZE =? 0) with true.
  apply wp_bind, wp_ret, wp_bind, wp_ret, wp_bind.
  destruct (host_create path (m_host s)) as (fd & w & E & Hfd & Hw & Hf). eapply wp_host; [exact E|].
  apply wp_bind, wp_modify. destruct (Z.ltb_spec fd 0); [lia|]. apply wp_bind, wp_ret. cbv zeta. apply wp_bind, wp_modify, wp_bind.
  match goal with |- wp (host (HPrintf ?f ?a)) _ ?s1 => destruct (host_printf f a (m_host s1)) as (r & w2 & E2 & Hw2 & Hf2) end.
  eapply wp_host; [exact E2|]. apply wp_bind, wp_modify. rsimpl_in Hw2. rsimpl_in Hf2.
  eapply wp_mono; [apply (wp_fill_all fd files (delete fd (h_fds w)))|].
  - constructor; rsimpl; try done.
    + by rewrite Hw2.
    + intros p c Hp. destruct (Hfiles p c Hp) as [Hne Hs]. by rewrite Hf2, Hf.
    + exists 0. rewrite Hw2, Hw. apply lookup_insert_eq.
  - intros [] s' Hh. by exists fd, (delete fd (h_fds w)).
Qed.

(** What [main] leaves: the image of the files, with the size of the root
    directory rounded up. *)
Definition finished (fs : list (list Z * list Z)) (s : mkfs) : Prop :=
  let n := Z.of_nat (length (root_dir fs)) in
  exists fd files rest B own, let ip := st32 (slot B 1) 8 ((n / 1024 + 1) * 1024) in
    holds fd files rest (put_slot B 1 ip) (2 + Z.of_nat (length fs)) (used fs) s /\
    image B own (2 + Z.of_nat (length fs)) (used fs) (built 2 dots fs (<[1 := (T_DIR, dots)]> nofiles)) /\
    B 45 = bitmap (used fs).

(** [iappend] of one directory entry to the root directory. *)
Lemma wp_dot fd files rest B own fi fb T root e s (Q : unit -> mkfs -> Prop) :
  holds fd files rest B fi fb s -> image B own fi fb T -> T 1 = (T_DIR, root) -> 1 < fi <= 200 ->
  length e = 16%nat -> Z.of_nat (length (root ++ e)) <= 1024 -> fb + need (nblk (root ++ e)) - need (nblk root) <= 2000 ->
  (forall B' own' s', holds fd files rest B' fi (fb + need (nblk (root ++ e)) - need (nblk root)) s' ->
     image B' own' fi (fb + need (nblk (root ++ e)) - need (nblk root)) (<[1 := (T_DIR, root ++ e)]> T) -> Q tt s') ->
  wp (iappend 1 e DIRENT_SIZE) Q s.
Proof.
  intros Hh V HT Hfi He Hmax Hcap HQ. replace DIRENT_SIZE with (Z.of_nat (length e)) by by rewrite He.
  rewrite <- (app_nil_r e) at 1.
  eapply wp_mono; [apply (wp_iappend fd files rest 1 e [] _ _ _ _ _ _ Hh V); rewrite ?HT; cbn [fst snd]; lia|].
  rewrite HT. cbn [fst snd]. intros [] s' (B' & own' & Hh' & V'). by eapply HQ.
Qed.

Lemma main_finishes path fs s :
  m_freeinode s = 1 -> Forall (fun f => f.1 <> path /\ input_ok (h_files (m_host s)) f) fs ->
  (length fs <= 198)%nat -> used fs <= 2000 ->
  wx (main (path :: (fst <$> fs))) (fun r s' => r = inr 0 /\ finished fs s') s.
Proof.
  intros Hfi Hok Hn Hused. set (files := fun p => if decide (p = path) then None else h_files (m_host s) p).
  assert (Forall (input_ok files) fs) as Hin.
  { eapply Forall_impl; [exact Hok|]. intros f (Hne & Hf & Hs & Hl). split_and!; [|done..]. unfold files. by rewrite decide_False. }
  pose proof (demand_pos fs) as Hdp. pose proof (length_root_dir fs) as Hlr.
  apply wx_seq. eapply wp_mono; [apply (wp_format path files); [done|]|].
  { intros p c. unfold files. case_decide; [done|]. by intros. }
  clearbody files. clear s Hfi Hok. cbv beta. intros [] s (fd & rest & Hh). apply wx_seq, wp_gets. rewrite (h_sb _ _ _ _ _ _ _ Hh).
  change (replicate (Z.to_nat BSIZE) 0) with zeros. set (buf := list_inserts 0 (encode_sb the_sb) zeros).
  assert (length buf = 1024%nat) as Hbuf by (unfold buf; rewrite length_inserts; apply length_replicate).
  cbv zeta. apply wx_seq. eapply wp_mono; [apply (wp_wsect _ _ _ _ _ _ _ _ _ Hh); [lia|done]|]. clear s Hh. intros [] s Hh. cbv beta in Hh.
  assert (image (<[1 := buf]> (fun _ => zeros)) (fun _ => None) 1 46 nofiles) as V.
  { constructor; [constructor; [lia|done|]|lia|apply fn_lookup_insert]. intros b Hb. by rewrite fn_lookup_insert_ne by lia. }
  apply wx_seq. eapply wp_ialloc; [exact Hh|exact V|lia|done|]. clear s Hh V. intros B s Hh V. unfold assert at 1.
  change (1 =? ROOTINO) with true. apply wx_seq, wp_ret.
  apply wx_seq. eapply (wp_dot _ _ _ _ _ _ _ _ []); [exact Hh|exact V|apply fn_lookup_insert|lia|done..|].
  clear s B Hh V. intros B own s Hh V. apply wx_seq.
  eapply (wp_dot _ _ _ _ _ _ _ _ _ (dirent 1 (bzero_name (lit "..")))); [exact Hh|exact V|apply fn_lookup_insert|lia|done..|].
  clear s B own Hh V. intros B own s Hh V. rewrite app_nil_l in *. fold dots in *. change (1 + 1) with 2 in *.
  replace (46 + _ - _ + _ - _) with (46 + need (nblk dots)) in * by done.
  eapply (image_T _ _ _ _ _ (<[1 := (T_DIR, dots)]> nofiles)) in V; [|intros j _; unfold insert, fn_insert; by case_decide].
  apply wx_seq. eapply wp_mono.
  { apply (wp_add_files fd files fs dots buf rest _ _ _ _ _ _ Hh V); try done; [lia| |]; fold (root_dir fs); unfold used in *; lia. }
  fold (root_dir fs). replace (46 + need (nblk dots) + need (nblk (root_dir fs)) - need (nblk dots) + demand fs) with (used fs) by (unfold used; lia).
  clear s B own Hh V. cbv beta. intros [] s (B & own & Hh & V). set (T := built _ _ _ _) in *.
  assert (T 1 = (T_DIR, root_dir fs)) as HT by (apply built_root; [done|apply fn_lookup_insert]).
  destruct (V.(v_node _ _ _ _ _) 1 ltac:(lia)) as [N1 N2 N3]. rewrite HT in N1, N2, N3. cbn [fst snd] in N1, N2, N3.
  apply wx_seq. eapply wp_rinode; [exact Hh|lia|]. clear s Hh. intros s Hh. rewrite N2, !xint_u32. change BSIZE with 1024.
  pose proof (div1024 (length (root_dir fs))) as Hd. rewrite (u32_small (Z.of_nat _)), !u32_small by (rewrite ?u32_small; lia).
  apply wx_seq. eapply wp_mono; [apply (wp_winode _ _ _ _ _ _ _ _ _ Hh); lia|]. clear s Hh. intros [] s Hh. cbv beta in Hh.
  apply wx_seq, wp_gets. rewrite (h_fb _ _ _ _ _ _ _ Hh).
  assert (46 <= used fs) by (apply (c_fb _ _ _ (v_common _ _ _ _ _ V))). rewrite i32_small by (unfold INT_MIN, INT_MAX; lia).
  apply wx_seq. eapply wp_mono; [apply (wp_balloc _ _ _ _ _ _ _ _ Hh); lia|]. clear s Hh. intros [] s Hh. cbv beta in Hh.
  apply wx_leave. split; [done|]. exists fd, files, rest, (<[45 := bitmap (used fs)]> B), own. cbv zeta. split_and!.
  - eapply image_holds_ext; [exact Hh|]. intros b. unfold put_slot. change (32 + 1 / 16) with 32. unfold slot. change (32 + 1 / 16) with 32.
    rewrite (fn_lookup_insert_ne B 45 32) by lia. destruct (decide (b = 32)) as [->|]; [by rewrite fn_lookup_insert, fn_lookup_insert_ne, fn_lookup_insert by lia|].
    unfold insert, fn_insert. repeat case_decide; try done; lia.
  - apply image_bitmap; [done|lia].
  - apply fn_lookup_insert.
Qed.

(** What the reader finds in the end. *)
Lemma finished_reads fs s : finished fs s -> (length fs <= 198)%nat ->
  exists im pos, h_fds (m_host s) !! m_fsfd s = Some (im, pos) /\ Z.of_nat (length im) = FSSIZE * BSIZE /\
    decode_sb (blk im 1) = the_sb /\
    (forall b, 0 <= b < BPB -> marked (blk im (BBLOCK b the_sb)) b = (b <? used fs)) /\
    kind_of im ROOTINO = (T_DIR, 1) /\ (exists n, content im ROOTINO = root_dir fs ++ replicate n 0) /\
    (forall k path c, fs !! k = Some (path, c) -> kind_of im (2 + Z.of_nat k) = (T_FILE, 1) /\ content im (2 + Z.of_nat k) = c) /\
    (forall i k, 1 <= i < 2 + Z.of_nat (length fs) -> 0 <= k < MAXFILE ->
       let a := baddr (blk im) (inode_of im i) k in a = 0 \/ 46 <= a < used fs).
Proof.
  intros (fd & files & rest & B & own & Hh & V & Hbm) Hn. set (n := length (root_dir fs)) in *. set (ip := st32 _ 8 _) in Hh.
  pose proof (length_root_dir fs) as Hlr. pose proof (div1024 n) as Hd. fold n in Hlr.
  assert (built 2 dots fs (<[1 := (T_DIR, dots)]> nofiles) 1 = (T_DIR, root_dir fs)) as HT by (apply built_root; [done|apply fn_lookup_insert]).
  destruct (V.(v_node _ _ _ _ _) 1 ltac:(lia)) as [N1 N2 N3]. rewrite HT in N1, N2, N3. cbn [fst snd] in N1, N2, N3.
  pose proof (v_common _ _ _ _ _ V) as C. pose proof (f_din _ _ _ _ _ _ _ _ N1) as Hl1.
  apply (file_size _ _ _ _ _ _ _ _ ((Z.of_nat n / 1024 + 1) * 1024)) in N1. fold ip in N1.
  destruct (h_img _ _ _ _ _ _ _ Hh) as (im & pos & Him & Hlen & HB). exists im, pos. set (B' := put_slot B 1 ip) in *.
  assert (length (B 32) = 1024%nat) as Hl32.
  { pose proof (holds_len _ _ _ _ _ _ _ 32 Hh ltac:(lia)) as Hl. unfold B', put_slot in Hl. change (32 + 1 / 16) with 32 in Hl.
    by rewrite fn_lookup_insert, length_inserts in Hl. }
  assert (decode_sb (blk im 1) = the_sb) as Hsb by (eapply sb_of_image; [exact HB|apply V]).
  assert (common B' own (used fs)) as C' by (apply common_put; [done|lia]).
  assert (forall i, 0 <= i < 208 -> inode_of im i = slot B' i) as Hino by (intros; by apply inode_of_slot).
  assert (length ip = 64%nat) as Hlip by (unfold ip; by rewrite length_st32).
  assert (inode_of im 1 = ip) as Hip by (rewrite Hino by lia; apply slot_put; [lia|done|done]).
  assert (stored (blk im) own (used fs) 1 (inode_of im 1) (12 <? nblk (root_dir fs)) (nblk (root_dir fs)) (root_dir fs)) as F1.
  { rewrite Hip. eapply file_blk; [exact C'|exact HB|]. apply file_put; [done|lia|done]. }
  assert (forall i, 2 <= i < 2 + Z.of_nat (length fs) -> let c := (built 2 dots fs (<[1 := (T_DIR, dots)]> nofiles) i).2 in
    node B' own (used fs) i (built 2 dots fs (<[1 := (T_DIR, dots)]> nofiles) i).1 c /\
    stored (blk im) own (used fs) i (inode_of im i) (12 <? nblk c) (nblk c) c) as HN.
  { intros i Hi c. assert (node B' own (used fs) i (built 2 dots fs (<[1 := (T_DIR, dots)]> nofiles) i).1 c) as N.
    { apply node_put; try done; try lia. apply V. lia. }
    split; [done|]. rewrite Hino by lia. eapply file_blk; [exact C'|exact HB|apply N]. }
  split_and!; try done.
  - by rewrite (h_fd _ _ _ _ _ _ _ Hh).
  - intros b Hb. change BPB with 8192 in Hb. unfold BBLOCK. change BPB with 8192. rewrite Z.div_small by done. change (u32 (0 + sb_bmapstart the_sb)) with 45.
    rewrite <- HB by lia. unfold B', put_slot. change (32 + 1 / 16) with 32. rewrite fn_lookup_insert_ne, Hbm by lia. apply bitmap_spec; [|done].
    pose proof (c_fb _ _ _ C). lia.
  - unfold kind_of. change ROOTINO with 1. rewrite Hip. unfold ip. by rewrite hdr_st32 by lia.
  - exists (Z.to_nat ((Z.of_nat n / 1024 + 1) * 1024 - Z.of_nat n)). pose proof (nblk_bounds (root_dir fs)).
    eapply content_file; [exact F1| |lia|left; lia]. change ROOTINO with 1. rewrite Hip. unfold ip. rewrite ld32_st32, u32_small by lia. lia.
  - intros k path c Hk. pose proof (lookup_lt_Some _ _ _ Hk). destruct (HN (2 + Z.of_nat k)) as [N F]; [lia|].
    rewrite (built_file 2 dots fs _ k path c) in N, F by done. cbn [fst snd] in N, F. split.
    + unfold kind_of. rewrite Hino by lia. apply N.
    + pose proof (nblk_bounds c). rewrite <- (app_nil_r c). eapply (content_file _ _ _ _ _ _ _ 0); [exact F| |lia|by right].
      rewrite Hino by lia. rewrite (n_size _ _ _ _ _ _ N). lia.
  - intros i k Hi Hk. change MAXFILE with 268 in Hk. cbv zeta.
    assert (exists hi nb c, stored (blk im) own (used fs) i (inode_of im i) hi nb c) as (hi & nb & c & F).
    { destruct (decide (i = 1)) as [->|]; [eauto|]. destruct (HN i) as [_ F]; [lia|]. eauto. }
    destruct (decide (k < nb)); [right; apply F; lia|left; apply F; lia].
Qed.

End main.

(** C9: On a host whose files are arrays of bytes, [mkfs] ends with status 0
    and leaves an image of [FSSIZE] blocks.  A reader that follows
    [kernel/fs.h] finds the superblock, a root directory with [.], [..] and
    an entry for every file followed by empty entries, and every file, in
    the inode its entry names, with its type, one link and exactly its
    content.  The bitmap marks the blocks below [used fs] and no other, and
    every block of a file is behind the metadata and marked.  The files must
    fit: 198 of them at most, none longer than [MAXFILE] blocks, [FSSIZE]
    blocks in all. *)
Theorem mkfs_builds_image `{HO : HostOk} (path : list Z) (fs : list (list Z * list Z)) (s : mkfs) :
  m_freeinode s = 1 ->
  Forall (fun f => f.1 <> path /\ input_ok (h_files (m_host s)) f) fs -> (length fs <= 198)%nat -> used fs <= FSSIZE ->
  exists s' im pos, main (path :: (fst <$> fs)) s = Gone 0 s' /\
    h_fds (m_host s') !! m_fsfd s' = Some (im, pos) /\ Z.of_nat (length im) = FSSIZE * BSIZE /\
    decode_sb (blk im 1) = the_sb /\
    (forall b, 0 <= b < BPB -> marked (blk im (BBLOCK b the_sb)) b = (b <? used fs)) /\
    kind_of im ROOTINO = (T_DIR, 1) /\ (exists n, content im ROOTINO = root_dir fs ++ replicate n 0) /\
    (forall k path c, fs !! k = Some (path, c) -> kind_of im (2 + Z.of_nat k) = (T_FILE, 1) /\ content im (2 + Z.of_nat k) = c) /\
    (forall i k, 1 <= i < 2 + Z.of_nat (length fs) -> 0 <= k < MAXFILE ->
       let a := baddr (blk im) (inode_of im i) k in a = 0 \/ 46 <= a < used fs).
Proof.
  intros Hfi Hok Hn Hused. pose proof (main_finishes path fs s Hfi Hok Hn Hused) as Hm. unfold wx in Hm.
  destruct (main (path :: (fst <$> fs)) s) as [a s'|msg| |c s'|]; try done; destruct Hm as [E Hf]; [done|].
  injection E as ->. destruct (finished_reads _ _ Hf Hn) as (im & pos & HR). by exists s', im, pos.
Qed.

(** ** A host *)

Module MkfsDemo.

Record hw := mkHw { w_fds : gmap Z (list Z * Z); w_files : list Z -> option (list Z) }.

(** A descriptor that is not in use. *)
Definition newfd (m : gmap Z (list Z * Z)) : Z := 1 + foldr Z.max 0 (fst <$> map_to_list m).

Lemma newfd_pos m : 0 <= newfd m.
Proof. unfold newfd. assert (0 <= foldr Z.max 0 (fst <$> map_to_list m)); [|lia]. induction (fst <$> map_to_list m); cbn; lia. Qed.

Lemma newfd_free m : m !! newfd m = None.
Proof.
  destruct (m !! newfd m) as [x|] eqn:E; [|done]. apply elem_of_map_to_list in E. apply (list_elem_of_fmap_2 fst) in E. cbn in E.
  assert (forall l : list Z, 1 + foldr Z.max 0 l ∈ l -> False) as Hl; [|by apply Hl in E].
  intros l. assert (forall x, x ∈ l -> x <= foldr Z.max 0 l) as Hm.
  { clear. induction l as [|y l IH]; intros x Hx; [by apply elem_of_nil in Hx|]. cbn. apply elem_of_cons in Hx as [->|Hx]; [lia|].
    specialize (IH x Hx). lia. }
  intros Hx%Hm. lia.
Qed.

Definition demo_call (c : hcall) (w : hw) : Z * list Z * hw :=
  let at_fd fd (f : list Z -> Z -> Z * list Z * hw) :=
    match w_fds w !! fd with Some (d, pos) => f d pos | None => (-1, [], w) end in
  match c with
  | HCreate path => let fd := newfd (w_fds w) in
      (fd, [], mkHw (<[fd := ([], 0)]> (w_fds w)) (fun p => if decide (p = path) then Some [] else w_files w p))
  | HOpen path =>
      match w_files w path with
      | Some d => let fd := newfd (w_fds w) in (fd, [], mkHw (<[fd := (d, 0)]> (w_fds w)) (w_files w))
      | None => (-1, [], w)
      end
  | HLseek fd off => at_fd fd (fun d _ => (off, [], mkHw (<[fd := (d, off)]> (w_fds w)) (w_files w)))
  | HRead fd n => at_fd fd (fun d pos =>
      let bs := take (Z.to_nat n) (drop (Z.to_nat pos) d) in
      (Z.of_nat (length bs), bs, mkHw (<[fd := (d, pos + Z.of_nat (length bs))]> (w_fds w)) (w_files w)))
  | HWrite fd bs => at_fd fd (fun d pos =>
      (Z.of_nat (length bs), [],
       mkHw (<[fd := (take (Z.to_nat pos) d ++ bs ++ drop (Z.to_nat pos + length bs) d, pos + Z.of_nat (length bs))]> (w_fds w)) (w_files w)))
  | HClose fd => (0, [], mkHw (delete fd (w_fds w)) (w_files w))
  | HPrintf _ _ | HUsage | HPerror _ => (0, [], w)
  end.

#[export] Instance demo_host : Host := {| HWorld := hw; hostcall := demo_call |}.

#[export] Program Instance demo_host_ok : HostOk := {| h_fds := w_fds; h_files := w_files |}.
Next Obligation. intros path w. eexists _, _. split; [done|]. split; [apply newfd_pos|]. split; [done|]. intros p Hp. cbn. by rewrite decide_False. Qed.
Next Obligation.
  intros path c w Hf. eexists _, _. cbn. rewrite Hf. split; [done|]. split; [apply newfd_pos|]. split; [apply newfd_free|done].
Qed.
Next Obligation. intros fd off c pos w Hf _. eexists. cbn. rewrite Hf. done. Qed.
Next Obligation. intros fd n c pos w Hf _ _ bs. eexists. cbn. rewrite Hf. done. Qed.
Next Obligation. intros fd bs c pos w Hf _. eexists. cbn. rewrite Hf. done. Qed.
Next Obligation. intros fd w. by eexists _, _. Qed.
Next Obligation. intros fmt args w. by eexists _, _. Qed.

Definition demo_files : list (list Z * list Z) := [(lit "user/_echo", lit "hello"); (lit "README", [])].

Definition demo_state : mkfs :=
  mkMkfs _ (mkHw ∅ (fun p => if decide (p = lit "user/_echo") then Some (lit "hello") else if decide (p = lit "README") then Some [] else None))
    0 (mkSb 0 0 0 0 0 0 0 0) 0 0 1 0.

Lemma mkfs_builds_image_witness :
  exists s' im pos, main (lit "fs.img" :: (fst <$> demo_files)) demo_state = Gone 0 s' /\
    h_fds (m_host s') !! m_fsfd s' = Some (im, pos) /\ content im 2 = lit "hello" /\ content im 3 = [].
Proof.
  destruct (mkfs_builds_image (lit "fs.img") demo_files demo_state) as (s' & im & pos & E & Him & _ & _ & _ & _ & _ & Hf & _).
  - done.
  - unfold demo_files. rewrite !Forall_cons. split_and!; try done; try (apply (bool_decide_unpack _); vm_compute; exact I).
    all: vm_compute; done.
  - cbn. lia.
  - vm_compute. discriminate.
  - exists s', im, pos. split_and!; [exact E|exact Him| |].
    + apply (Hf 0%nat (lit "user/_echo")). done.
    + apply (Hf 1%nat (lit "README")). done.
Defined.

End MkfsDemo.
