(* ===== verification/UtBasic.v ===== *)
(** * UtBasic: [user/usertests.c], tests of pointers, files and [exec]

    Every test is a program of its own: the driver runs it in a child
    process and looks at the status it exits with.  A test that returns is
    followed by [exit(0)].  [s] is the address of the name of the test.
    Arrays and variables whose address a test takes are at the addresses
    given to the section. *)

From stdpp Require Import base list gmap strings.
From Stdlib Require Import ZArith Lia.
From S2P Require Import Prelude CMem Riscv Spinlock Kalloc Vm Que KState User Ulib Programs.

(** The constants of the tests are those of the kernel's headers. *)
Definition BUFSZ : Z := (MAXOPBLOCKS + 2) * BSIZE.

Section basic.
Context `{Sys}.

(** ** What the tests have in common *)

(** [printf(fmt "\n", ...); exit(1);] *)
Definition fail {A} (fmt : string) (ap : list Z) : M U A := printf (fmt +:+ newline) ap;; exit 1.
Definition fail_if (b : bool) (fmt : string) (ap : list Z) : M U unit := when b (fail fmt ap).

(** An [int] in memory. *)
Definition ldi (p : Z) : M U Z := s ← get; mret (i32 (load32 (u_mem s) p)).
Definition sti (p v : Z) : M U unit := modify (fun s => s <| u_mem ::= fun m => store32 m p v |>).

(** An [int] in memory that the program need not have. *)
Definition load_int (p : Z) : M U Z :=
  b0 ← load_byte p; b1 ← load_byte (p + 1); b2 ← load_byte (p + 2); b3 ← load_byte (p + 3);
  mret (i32 (b0 + 256 * (b1 + 256 * (b2 + 256 * b3)))).
Definition store_int (p v : Z) : M U unit :=
  for_each (seqZ 0 4) (fun i => store_byte (p + i) (Z.shiftr v (8 * i))).

(** A pointer in memory. *)
Definition ldp (p : Z) : M U Z := s ← get; mret (load64 (u_mem s) p).
Definition stp (p v : Z) : M U unit := modify (fun s => s <| u_mem ::= fun m => store64 m p v |>).

(** [for(i = 0; i < n; i++)] *)
Definition upto (n : Z) (body : Z -> M U unit) : M U unit := for_each (seqZ 0 n) body.

(** [for(;;)] *)
Definition forever (m : M U unit) : M U unit := while (fun _ : unit => m;; mret (inl tt)) tt.

(** The memory from [p] on holds [n] times the byte [c]. *)
Definition fill (p c n : Z) : M U unit := upto n (fun i => st8 (p + i) c).

(** Calls on the string at an address. *)
Definition open_at (p omode : Z) : M U Z := path ← getstr p; open path omode.
Definition unlink_at (p : Z) : M U Z := path ← getstr p; unlink path.
Definition mkdir_at (p : Z) : M U Z := path ← getstr p; mkdir path.
Definition chdir_at (p : Z) : M U Z := path ← getstr p; chdir path.
Definition link_at (old new : Z) : M U Z := a ← getstr old; b ← getstr new; link a b.

(** [close] and [unlink] whose result is not looked at. *)
Definition close_ (fd : Z) : M U unit := close fd;; mret tt.
Definition unlink_ (path : list Z) : M U unit := unlink path;; mret tt.

(** [wait(&xstatus)], and the status it stored. *)
Definition wait_status (xstatus : Z) : M U Z := wait xstatus;; ldi xstatus.

(** ** Pointers *)

(** The global [buf], the locals [fds], [xstatus] and the local array [b],
    the static array [big], and the array of arguments [args]. *)
Variables (buf fds xstatus b big args : Z).

Definition addrs : list Z := [0x80000000; 0xffffffffffffffff].

Definition copyin (s : Z) : M U unit :=
  for_each addrs (fun addr =>
    fd ← open (lit "copyin1") (Z.lor O_CREATE O_WRONLY);
    fail_if (fd <? 0) "open(copyin1) failed" [];;
    n ← raw "write" [fd; addr; 8192];
    fail_if (0 <=? n) "write(fd, %p, 8192) returned %d, not -1" [addr; n];;
    close_ fd;;
    unlink_ (lit "copyin1");;
    n ← raw "write" [1; addr; 8192];
    fail_if (0 <? n) "write(1, %p, 8192) returned %d, not -1 or 0" [addr; n];;
    r ← pipe fds;
    fail_if (r <? 0) "pipe() failed" [];;
    fd1 ← ldi (fds + 4);
    n ← raw "write" [fd1; addr; 8192];
    fail_if (0 <? n) "write(pipe, %p, 8192) returned %d, not -1 or 0" [addr; n];;
    fd0 ← ldi fds;
    close_ fd0;;
    fd1 ← ldi (fds + 4);
    close_ fd1).

Definition copyout (s : Z) : M U unit :=
  for_each addrs (fun addr =>
    fd ← open (lit "README") 0;
    fail_if (fd <? 0) "open(README) failed" [];;
    n ← raw "read" [fd; addr; 8192];
    fail_if (0 <? n) "read(fd, %p, 8192) returned %d, not -1 or 0" [addr; n];;
    close_ fd;;
    r ← pipe fds;
    fail_if (r <? 0) "pipe() failed" [];;
    fd1 ← ldi (fds + 4);
    n ← writes fd1 (lit "x");
    fail_if (negb (n =? 1)) "pipe write failed" [];;
    fd0 ← ldi fds;
    n ← raw "read" [fd0; addr; 8192];
    fail_if (0 <? n) "read(pipe, %p, 8192) returned %d, not -1 or 0" [addr; n];;
    fd0 ← ldi fds;
    close_ fd0;;
    fd1 ← ldi (fds + 4);
    close_ fd1).

Definition copyinstr1 (s : Z) : M U unit :=
  for_each addrs (fun addr =>
    fd ← raw "open" [addr; Z.lor O_CREATE O_WRONLY];
    fail_if (0 <=? fd) "open(%p) returned %d, not -1" [addr; fd]).

Definition copyinstr2 (s : Z) : M U unit :=
  fill b 120 MAXPATH;;
  st8 (b + MAXPATH) 0;;
  ret ← unlink_at b;
  fail_if (negb (ret =? -1)) "unlink(%s) returned %d, not -1" [b; ret];;
  fd ← open_at b (Z.lor O_CREATE O_WRONLY);
  fail_if (negb (fd =? -1)) "open(%s) returned %d, not -1" [b; fd];;
  ret ← link_at b b;
  fail_if (negb (ret =? -1)) "link(%s, %s) returned %d, not -1" [b; b; ret];;
  path ← getstr b;
  ret ← exec path [lit "xx"];
  fail_if (negb (ret =? -1)) "exec(%s) returned %d, not -1" [b; fd];;
  pid ← fork;
  fail_if (pid <? 0) "fork failed" [];;
  when (pid =? 0) (
    fill big 120 PGSIZE;;
    st8 (big + PGSIZE) 0;;
    str ← getstr big;
    ret ← exec (lit "echo") [str; str; str];
    fail_if (negb (ret =? -1)) "exec(echo, BIG) returned %d, not -1" [fd];;
    exit 747);;
  sti xstatus 0;;
  st ← wait_status xstatus;
  fail_if (negb (st =? 747)) "exec(echo, BIG) succeeded, should have failed" [].

(** The string at [b] goes on behind the last page of the program. *)
Definition copyinstr3 (s : Z) : M U unit :=
  sbrk 8192;;
  top ← sbrk 0;
  when (negb (u64 top mod PGSIZE =? 0)) (sbrk (PGSIZE - u64 top mod PGSIZE);; mret tt);;
  top ← sbrk 0;
  fail_if (negb (u64 top mod PGSIZE =? 0)) "oops" [];;
  let b := u64 (top - 1) in
  store_byte b 120;;
  ret ← raw "unlink" [b];
  fail_if (negb (ret =? -1)) "unlink(%s) returned %d, not -1" [b; ret];;
  fd ← raw "open" [b; Z.lor O_CREATE O_WRONLY];
  fail_if (negb (fd =? -1)) "open(%s) returned %d, not -1" [b; fd];;
  ret ← raw "link" [b; b];
  fail_if (negb (ret =? -1)) "link(%s, %s) returned %d, not -1" [b; b; ret];;
  ret ← raw_exec b args;
  fail_if (negb (ret =? -1)) "exec(%s) returned %d, not -1" [b; fd].

Definition SBRK_FAILED : Z := 0xffffffffffffffff.

Definition rwsbrk (s : Z) : M U unit :=
  a ← sbrk 8192;
  let a := u64 a in
  fail_if (a =? SBRK_FAILED) "sbrk(rwsbrk) failed" [];;
  r ← sbrk (-8192);
  fail_if (u64 r =? SBRK_FAILED) "sbrk(rwsbrk) shrink failed" [];;
  fd ← open (lit "rwsbrk") (Z.lor O_CREATE O_WRONLY);
  fail_if (fd <? 0) "open(rwsbrk) failed" [];;
  n ← raw "write" [fd; u64 (a + 4096); 1024];
  fail_if (0 <=? n) "write(fd, %p, 1024) returned %d, not -1" [u64 (a + 4096); n];;
  close_ fd;;
  unlink_ (lit "rwsbrk");;
  fd ← open (lit "README") O_RDONLY;
  fail_if (fd <? 0) "open(rwsbrk) failed" [];;
  n ← raw "read" [fd; u64 (a + 4096); 10];
  fail_if (0 <=? n) "read(fd, %p, 10) returned %d, not -1" [u64 (a + 4096); n];;
  close_ fd;;
  exit 0.

(** ** [O_TRUNC] *)

(** [b] is the local [char buf[32]]. *)
Definition truncate1 (s : Z) : M U unit :=
  unlink_ (lit "truncfile");;
  fd1 ← open (lit "truncfile") (Z.lor (Z.lor O_CREATE O_WRONLY) O_TRUNC);
  writes fd1 (lit "abcd");;
  close_ fd1;;
  fd2 ← open (lit "truncfile") O_RDONLY;
  n ← read fd2 b 32;
  fail_if (negb (n =? 4)) "%s: read %d bytes, wanted 4" [s; n];;
  fd1 ← open (lit "truncfile") (Z.lor O_WRONLY O_TRUNC);
  fd3 ← open (lit "truncfile") O_RDONLY;
  n ← read fd3 b 32;
  when (negb (n =? 0)) (
    printf ("aaa fd3=%d" +:+ newline) [fd3];;
    fail "%s: read %d bytes, wanted 0" [s; n]);;
  n ← read fd2 b 32;
  when (negb (n =? 0)) (
    printf ("bbb fd2=%d" +:+ newline) [fd2];;
    fail "%s: read %d bytes, wanted 0" [s; n]);;
  writes fd1 (lit "abcdef");;
  n ← read fd3 b 32;
  fail_if (negb (n =? 6)) "%s: read %d bytes, wanted 6" [s; n];;
  n ← read fd2 b 32;
  fail_if (negb (n =? 2)) "%s: read %d bytes, wanted 2" [s; n];;
  unlink_ (lit "truncfile");;
  close_ fd1;;
  close_ fd2;;
  close_ fd3.

Definition truncate2 (s : Z) : M U unit :=
  unlink_ (lit "truncfile");;
  fd1 ← open (lit "truncfile") (Z.lor (Z.lor O_CREATE O_TRUNC) O_WRONLY);
  writes fd1 (lit "abcd");;
  fd2 ← open (lit "truncfile") (Z.lor O_TRUNC O_WRONLY);
  n ← writes fd1 (lit "x");
  fail_if (negb (n =? -1)) "%s: write returned %d, expected -1" [s; n];;
  unlink_ (lit "truncfile");;
  close_ fd1;;
  close_ fd2.

Definition truncate3 (s : Z) : M U unit :=
  fd ← open (lit "truncfile") (Z.lor (Z.lor O_CREATE O_TRUNC) O_WRONLY);
  close_ fd;;
  pid ← fork;
  fail_if (pid <? 0) "%s: fork failed" [s];;
  when (pid =? 0) (
    upto 100 (fun _ =>
      fd ← open (lit "truncfile") O_WRONLY;
      fail_if (fd <? 0) "%s: open failed" [s];;
      n ← writes fd (lit "1234567890");
      fail_if (negb (n =? 10)) "%s: write got %d, expected 10" [s; n];;
      close_ fd;;
      fd ← open (lit "truncfile") O_RDONLY;
      read fd b 32;;
      close_ fd);;
    exit 0);;
  upto 150 (fun _ =>
    fd ← open (lit "truncfile") (Z.lor (Z.lor O_CREATE O_WRONLY) O_TRUNC);
    fail_if (fd <? 0) "%s: open failed" [s];;
    n ← writes fd (lit "xxx");
    fail_if (negb (n =? 3)) "%s: write got %d, expected 3" [s; n];;
    close_ fd);;
  st ← wait_status xstatus;
  unlink_ (lit "truncfile");;
  exit st.

(** ** Directories of processes *)

Definition iputtest (s : Z) : M U unit :=
  r ← mkdir (lit "iputdir");
  fail_if (r <? 0) "%s: mkdir failed" [s];;
  r ← chdir (lit "iputdir");
  fail_if (r <? 0) "%s: chdir iputdir failed" [s];;
  r ← unlink (lit "../iputdir");
  fail_if (r <? 0) "%s: unlink ../iputdir failed" [s];;
  r ← chdir (lit "/");
  fail_if (r <? 0) "%s: chdir / failed" [s].

Definition exitiputtest (s : Z) : M U unit :=
  pid ← fork;
  fail_if (pid <? 0) "%s: fork failed" [s];;
  when (pid =? 0) (
    r ← mkdir (lit "iputdir");
    fail_if (r <? 0) "%s: mkdir failed" [s];;
    r ← chdir (lit "iputdir");
    fail_if (r <? 0) "%s: child chdir failed" [s];;
    r ← unlink (lit "../iputdir");
    fail_if (r <? 0) "%s: unlink ../iputdir failed" [s];;
    exit 0);;
  st ← wait_status xstatus;
  exit st.

Definition openiputtest (s : Z) : M U unit :=
  r ← mkdir (lit "oidir");
  fail_if (r <? 0) "%s: mkdir oidir failed" [s];;
  pid ← fork;
  fail_if (pid <? 0) "%s: fork failed" [s];;
  when (pid =? 0) (
    fd ← open (lit "oidir") O_RDWR;
    fail_if (0 <=? fd) "%s: open directory for write succeeded" [s];;
    exit 0);;
  sleep 1;;
  r ← unlink (lit "oidir");
  fail_if (negb (r =? 0)) "%s: unlink failed" [s];;
  st ← wait_status xstatus;
  exit st.

(** ** Simple files *)

Definition opentest (s : Z) : M U unit :=
  fd ← open (lit "echo") 0;
  fail_if (fd <? 0) "%s: open echo failed!" [s];;
  close_ fd;;
  fd ← open (lit "doesnotexist") 0;
  fail_if (0 <=? fd) "%s: open doesnotexist succeeded!" [s].

Definition writetest (s : Z) : M U unit :=
  let N := 100 in
  let SZ := 10 in
  fd ← open (lit "small") (Z.lor O_CREATE O_RDWR);
  fail_if (fd <? 0) "%s: error: creat small failed!" [s];;
  upto N (fun i =>
    r ← writes fd (lit "aaaaaaaaaa");
    fail_if (negb (r =? SZ)) "%s: error: write aa %d new file failed" [s; i];;
    r ← writes fd (lit "bbbbbbbbbb");
    fail_if (negb (r =? SZ)) "%s: error: write bb %d new file failed" [s; i]);;
  close_ fd;;
  fd ← open (lit "small") O_RDONLY;
  fail_if (fd <? 0) "%s: error: open small failed!" [s];;
  i ← read fd buf (N * SZ * 2);
  fail_if (negb (i =? N * SZ * 2)) "%s: read failed" [s];;
  close_ fd;;
  r ← unlink (lit "small");
  fail_if (r <? 0) "%s: unlink small failed" [s].

Definition writebig (s : Z) : M U unit :=
  fd ← open (lit "big") (Z.lor O_CREATE O_RDWR);
  fail_if (fd <? 0) "%s: error: creat big failed!" [s];;
  upto MAXFILE (fun i =>
    sti buf i;;
    r ← write fd buf BSIZE;
    fail_if (negb (r =? BSIZE)) "%s: error: write big file failed" [s; i]);;
  close_ fd;;
  fd ← open (lit "big") O_RDONLY;
  fail_if (fd <? 0) "%s: error: open big failed!" [s];;
  while (fun n =>
    i ← read fd buf BSIZE;
    if i =? 0 then
      when (n =? MAXFILE - 1) (printf "%s: read only %d blocks from big" [s; n];; exit 1);;
      mret (inr tt)
    else
      fail_if (negb (i =? BSIZE)) "%s: read failed %d" [s; i];;
      x ← ldi buf;
      fail_if (negb (x =? n)) "%s: read content of block %d is %d" [s; n; x];;
      n ← int_op (n + 1);
      mret (inl n)) 0;;
  close_ fd;;
  r ← unlink (lit "big");
  fail_if (r <? 0) "%s: unlink big failed" [s].

(** [b] is the local [char name[3]]. *)
Definition createtest (s : Z) : M U unit :=
  let N := 52 in
  let name := b in
  st8 name 97;;
  st8 (name + 2) 0;;
  upto N (fun i =>
    st8 (name + 1) (48 + i);;
    fd ← open_at name (Z.lor O_CREATE O_RDWR);
    close_ fd);;
  st8 name 97;;
  st8 (name + 2) 0;;
  upto N (fun i =>
    st8 (name + 1) (48 + i);;
    unlink_at name;;
    mret tt).

Definition dirtest (s : Z) : M U unit :=
  r ← mkdir (lit "dir0");
  fail_if (r <? 0) "%s: mkdir failed" [s];;
  r ← chdir (lit "dir0");
  fail_if (r <? 0) "%s: chdir dir0 failed" [s];;
  r ← chdir (lit "..");
  fail_if (r <? 0) "%s: chdir .. failed" [s];;
  r ← unlink (lit "dir0");
  fail_if (r <? 0) "%s: unlink dir0 failed" [s].

(** [b] is the local [char buf[3]]. *)
Definition exectest (s : Z) : M U unit :=
  unlink_ (lit "echo-ok");;
  pid ← fork;
  fail_if (pid <? 0) "%s: fork failed" [s];;
  when (pid =? 0) (
    close_ 1;;
    fd ← open (lit "echo-ok") (Z.lor O_CREATE O_WRONLY);
    fail_if (fd <? 0) "%s: create failed" [s];;
    fail_if (negb (fd =? 1)) "%s: wrong fd" [s];;
    r ← exec (lit "echo") [lit "echo"; lit "OK"];
    fail_if (r <? 0) "%s: exec echo failed" [s]);;
  r ← wait xstatus;
  when (negb (r =? pid)) (printf ("%s: wait failed!" +:+ newline) [s]);;
  st ← ldi xstatus;
  when (negb (st =? 0)) (exit st);;
  fd ← open (lit "echo-ok") O_RDONLY;
  fail_if (fd <? 0) "%s: open failed" [s];;
  r ← read fd b 2;
  fail_if (negb (r =? 2)) "%s: read failed" [s];;
  unlink_ (lit "echo-ok");;
  c0 ← ld8 b;
  c1 ← ld8 (b + 1);
  if (c0 =? 79) && (c1 =? 75) then exit 0
  else fail "%s: wrong output" [s].

End basic.
