(* ===== verification/UtProc.v ===== *)
(** * UtProc: [user/usertests.c], tests of processes and pipes *)

From stdpp Require Import base list gmap strings.
From Stdlib Require Import ZArith Lia.
From S2P Require Import Prelude CMem Riscv Spinlock Kalloc Vm Que KState User Ulib Umalloc Programs UtBasic.

Section procs.
Context `{Sys}.

(** The global [buf], the locals [fds] and [xstatus], and the static
    variables of the allocator. *)
Variables (buf fds xstatus base freep : Z).

(** [for(;;);] *)
Definition spin : M U unit := forever (mret tt).

(** The parent of [pipe1]: bytes that are not the sequence end the test
    early. *)
Definition pipe1_read (s : Z) : M U (option Z) :=
  while (fun '(seq, cc, total) =>
    fd0 ← ldi fds;
    n ← read fd0 buf cc;
    if negb (0 <? n) then mret (inr (Some total)) else
    r ← for_st (seqZ 0 n) (fun i seq =>
      c ← ld8 (buf + i);
      if negb (c =? Z.land seq 0xff) then
        printf ("%s: pipe1 oops 2" +:+ newline) [s];;
        mret (inr tt)
      else mret (inl (seq + 1))) seq;
    match r with
    | inr _ => mret (inr None)
    | inl seq =>
        total ← int_op (total + n);
        cc ← int_op (cc * 2);
        let cc := if BUFSZ <? cc then BUFSZ else cc in
        mret (inl (seq, cc, total))
    end) (0, 1, 0).

Definition pipe1 (s : Z) : M U unit :=
  let N := 5 in
  let SZ := 1033 in
  r ← pipe fds;
  fail_if (negb (r =? 0)) "%s: pipe() failed" [s];;
  pid ← fork;
  if pid =? 0 then
    fd0 ← ldi fds;
    close_ fd0;;
    upto N (fun n =>
      upto SZ (fun i => st8 (buf + i) (n * SZ + i));;
      fd1 ← ldi (fds + 4);
      r ← write fd1 buf SZ;
      fail_if (negb (r =? SZ)) "%s: pipe1 oops 1" [s]);;
    exit 0
  else if 0 <? pid then
    fd1 ← ldi (fds + 4);
    close_ fd1;;
    r ← pipe1_read s;
    match r with
    | None => mret tt
    | Some total =>
        fail_if (negb (total =? N * SZ)) "%s: pipe1 oops 3 total %d" [total];;
        fd0 ← ldi fds;
        close_ fd0;;
        st ← wait_status xstatus;
        exit st
    end
  else fail "%s: fork() failed" [s].

Definition killstatus (s : Z) : M U unit :=
  upto 100 (fun _ =>
    pid1 ← fork;
    fail_if (pid1 <? 0) "%s: fork failed" [s];;
    when (pid1 =? 0) (
      forever (getpid;; mret tt);;
      exit 0);;
    sleep 1;;
    kill pid1;;
    xst ← wait_status xstatus;
    fail_if (negb (xst =? -1)) "%s: status should be -1" [s]);;
  exit 0.

Definition preempt (s : Z) : M U unit :=
  pid1 ← fork;
  when (pid1 <? 0) (printf "%s: fork failed" [s];; exit 1);;
  when (pid1 =? 0) spin;;
  pid2 ← fork;
  fail_if (pid2 <? 0) "%s: fork failed" [s];;
  when (pid2 =? 0) spin;;
  pipe fds;;
  pid3 ← fork;
  fail_if (pid3 <? 0) "%s: fork failed" [s];;
  when (pid3 =? 0) (
    fd0 ← ldi fds;
    close_ fd0;;
    fd1 ← ldi (fds + 4);
    r ← writes fd1 (lit "x");
    when (negb (r =? 1)) (printf "%s: preempt write error" [s]);;
    fd1 ← ldi (fds + 4);
    close_ fd1;;
    spin);;
  fd1 ← ldi (fds + 4);
  close_ fd1;;
  fd0 ← ldi fds;
  r ← read fd0 buf BUFSZ;
  if negb (r =? 1) then printf "%s: preempt read error" [s] else
  fd0 ← ldi fds;
  close_ fd0;;
  printf "kill... " [];;
  kill pid1;;
  kill pid2;;
  kill pid3;;
  printf "wait... " [];;
  wait 0;;
  wait 0;;
  wait 0;;
  mret tt.

Definition exitwait (s : Z) : M U unit :=
  upto 100 (fun i =>
    pid ← fork;
    fail_if (pid <? 0) "%s: fork failed" [s];;
    if negb (pid =? 0) then
      r ← wait xstatus;
      fail_if (negb (r =? pid)) "%s: wait wrong pid" [s];;
      xstate ← ldi xstatus;
      fail_if (negb (i =? xstate)) "%s: wait wrong exit status" [s]
    else exit i).

Definition reparent (s : Z) : M U unit :=
  master_pid ← getpid;
  upto 200 (fun _ =>
    pid ← fork;
    fail_if (pid <? 0) "%s: fork failed" [s];;
    if negb (pid =? 0) then
      r ← wait 0;
      fail_if (negb (r =? pid)) "%s: wait wrong pid" [s]
    else
      pid2 ← fork;
      when (pid2 <? 0) (kill master_pid;; exit 1);;
      exit 0);;
  exit 0.

Definition twochildren (s : Z) : M U unit :=
  upto 1000 (fun _ =>
    pid1 ← fork;
    fail_if (pid1 <? 0) "%s: fork failed" [s];;
    if pid1 =? 0 then exit 0
    else
      pid2 ← fork;
      fail_if (pid2 <? 0) "%s: fork failed" [s];;
      if pid2 =? 0 then exit 0
      else wait 0;; wait 0;; mret tt).

Definition forkfork (s : Z) : M U unit :=
  let N := 2 in
  upto N (fun _ =>
    pid ← fork;
    when (pid <? 0) (printf "%s: fork failed" [s];; exit 1);;
    when (pid =? 0) (
      upto 200 (fun _ =>
        pid1 ← fork;
        when (pid1 <? 0) (exit 1);;
        when (pid1 =? 0) (exit 0);;
        wait 0;;
        mret tt);;
      exit 0));;
  upto N (fun _ =>
    st ← wait_status xstatus;
    when (negb (st =? 0)) (printf "%s: fork in child failed" [s];; exit 1)).

(** [close(open("stopforking", O_CREATE|O_RDWR));] *)
Definition stopforking : M U unit := fd ← open (lit "stopforking") (Z.lor O_CREATE O_RDWR); close_ fd.

Definition forkforkfork (s : Z) : M U unit :=
  unlink_ (lit "stopforking");;
  pid ← fork;
  when (pid <? 0) (printf "%s: fork failed" [s];; exit 1);;
  when (pid =? 0) (
    forever (
      fd ← open (lit "stopforking") 0;
      when (0 <=? fd) (exit 0);;
      r ← fork;
      when (r <? 0) stopforking);;
    exit 0);;
  sleep 20;;
  stopforking;;
  wait 0;;
  sleep 10;;
  mret tt.

Definition reparent2 (s : Z) : M U unit :=
  upto 800 (fun _ =>
    pid1 ← fork;
    fail_if (pid1 <? 0) "fork failed" [];;
    when (pid1 =? 0) (fork;; fork;; exit 0);;
    wait 0;;
    mret tt);;
  exit 0.

Definition mem (s : Z) : M U unit :=
  pid ← fork;
  if pid =? 0 then
    m1 ← while (fun m1 =>
      m2 ← malloc base freep 10001;
      if m2 =? 0 then mret (inr m1) else
      stp m2 m1;;
      mret (inl m2)) 0;
    while (fun m1 =>
      if m1 =? 0 then mret (inr tt) else
      m2 ← ldp m1;
      free freep m1;;
      mret (inl m2)) m1;;
    m1 ← malloc base freep (1024 * 20);
    fail_if (m1 =? 0) "couldn't allocate mem?!!" [s];;
    free freep m1;;
    exit 0
  else
    st ← wait_status xstatus;
    when (st =? -1) (exit 0);;
    exit st.

End procs.
