(* ===== verification/UtFiles.v ===== *)
(** * UtFiles: [user/usertests.c], tests of files, links and directories *)

From stdpp Require Import base list gmap strings.
From Stdlib Require Import ZArith Lia.
From S2P Require Import Prelude CMem Riscv Spinlock Kalloc Vm Que KState User Ulib Programs UtBasic.

Section files.
Context `{Sys}.

(** The global [buf], the locals [xstatus], [name] (or [file], or the local
    array [buf]), [fa] and [de]. *)
Variables (buf xstatus name fa de : Z).

(** [(n = read(fd, p, size)) > 0], again and again: [body n] is the body of
    the loop, on the state [st]. *)
Definition reading {St} (fd p size : Z) (body : Z -> St -> M U St) (st : St) : M U St :=
  while (fun st =>
    n ← read fd p size;
    if negb (0 <? n) then mret (inr st) else
    st ← body n st;
    mret (inl st)) st.

(** [name] is the local [char buf[SZ]]. *)
Definition sharedfd (s : Z) : M U unit :=
  let N := 1000 in
  let SZ := 10 in
  unlink_ (lit "sharedfd");;
  fd ← open (lit "sharedfd") (Z.lor O_CREATE O_RDWR);
  when (fd <? 0) (printf "%s: cannot open sharedfd for writing" [s];; exit 1);;
  pid ← fork;
  memset name (if pid =? 0 then 99 else 112) SZ;;
  upto N (fun _ =>
    r ← write fd name SZ;
    fail_if (negb (r =? SZ)) "%s: write sharedfd failed" [s]);;
  (if pid =? 0 then exit 0
   else
     st ← wait_status xstatus;
     when (negb (st =? 0)) (exit st));;
  close_ fd;;
  fd ← open (lit "sharedfd") 0;
  fail_if (fd <? 0) "%s: cannot open sharedfd for reading" [s];;
  '(nc, np) ← reading fd name SZ (fun _ cp =>
    r ← for_st (seqZ 0 SZ) (fun i '(nc, np) =>
      c ← ld8 (name + i);
      nc ← (if c =? 99 then int_op (nc + 1) else mret nc);
      np ← (if c =? 112 then int_op (np + 1) else mret np);
      mret (inl (nc, np) : Z * Z + unit)) cp;
    mret (match r with inl cp' => cp' | inr _ => cp end)) (0, 0);
  close_ fd;;
  unlink_ (lit "sharedfd");;
  if (nc =? N * SZ) && (np =? N * SZ) then exit 0
  else fail "%s: nc/np test fails" [s].

Definition fourfiles (s : Z) : M U unit :=
  let names := [(0, lit "f0"); (1, lit "f1"); (2, lit "f2"); (3, lit "f3")] in
  let N := 12 in
  let NCHILD := 4 in
  let SZ := 500 in
  for_each names (fun '(pi, fname) =>
    unlink_ fname;;
    pid ← fork;
    fail_if (pid <? 0) "fork failed" [s];;
    when (pid =? 0) (
      fd ← open fname (Z.lor O_CREATE O_RDWR);
      fail_if (fd <? 0) "create failed" [s];;
      memset buf (48 + pi) SZ;;
      upto N (fun _ =>
        n ← write fd buf SZ;
        fail_if (negb (n =? SZ)) "write failed %d" [n]);;
      exit 0));;
  upto NCHILD (fun _ =>
    st ← wait_status xstatus;
    when (negb (st =? 0)) (exit st));;
  for_each names (fun '(i, fname) =>
    fd ← open fname 0;
    total ← reading fd buf BUFSZ (fun n total =>
      upto n (fun j =>
        c ← ld8 (buf + j);
        fail_if (negb (c =? 48 + i)) "wrong char" [s]);;
      int_op (total + n)) 0;
    close_ fd;;
    fail_if (negb (total =? N * SZ)) "wrong length %d" [total];;
    unlink_ fname).

Definition createdelete (s : Z) : M U unit :=
  let N := 20 in
  let NCHILD := 4 in
  upto NCHILD (fun pi =>
    pid ← fork;
    fail_if (pid <? 0) "fork failed" [s];;
    when (pid =? 0) (
      st8 name (112 + pi);;
      st8 (name + 2) 0;;
      upto N (fun i =>
        st8 (name + 1) (48 + i);;
        fd ← open_at name (Z.lor O_CREATE O_RDWR);
        fail_if (fd <? 0) "%s: create failed" [s];;
        close_ fd;;
        when ((0 <? i) && (i mod 2 =? 0)) (
          st8 (name + 1) (48 + i / 2);;
          r ← unlink_at name;
          fail_if (r <? 0) "%s: unlink failed" [s]));;
      exit 0));;
  upto NCHILD (fun _ =>
    st ← wait_status xstatus;
    when (negb (st =? 0)) (exit 1));;
  st8 (name + 2) 0;;
  st8 (name + 1) 0;;
  st8 name 0;;
  upto N (fun i => upto NCHILD (fun pi =>
    st8 name (112 + pi);;
    st8 (name + 1) (48 + i);;
    fd ← open_at name 0;
    (if ((i =? 0) || (N / 2 <=? i)) && (fd <? 0) then fail "%s: oops createdelete %s didn't exist" [s; name]
     else if ((1 <=? i) && (i <? N / 2)) && (0 <=? fd) then fail "%s: oops createdelete %s did exist" [s; name]
     else mret tt);;
    when (0 <=? fd) (close_ fd)));;
  upto N (fun i => upto NCHILD (fun pi =>
    st8 name (112 + i);;
    st8 (name + 1) (48 + i);;
    unlink_at name;;
    mret tt)).

Definition unlinkread (s : Z) : M U unit :=
  let SZ := 5 in
  fd ← open (lit "unlinkread") (Z.lor O_CREATE O_RDWR);
  fail_if (fd <? 0) "%s: create unlinkread failed" [s];;
  writes fd (lit "hello");;
  close_ fd;;
  fd ← open (lit "unlinkread") O_RDWR;
  fail_if (fd <? 0) "%s: open unlinkread failed" [s];;
  r ← unlink (lit "unlinkread");
  fail_if (negb (r =? 0)) "%s: unlink unlinkread failed" [s];;
  fd1 ← open (lit "unlinkread") (Z.lor O_CREATE O_RDWR);
  writes fd1 (lit "yyy");;
  close_ fd1;;
  r ← read fd buf BUFSZ;
  when (negb (r =? SZ)) (printf "%s: unlinkread read failed" [s];; exit 1);;
  c ← ld8 buf;
  fail_if (negb (c =? 104)) "%s: unlinkread wrong data" [s];;
  r ← write fd buf 10;
  fail_if (negb (r =? 10)) "%s: unlinkread write failed" [s];;
  close_ fd;;
  unlink_ (lit "unlinkread").

Definition linktest (s : Z) : M U unit :=
  let SZ := 5 in
  unlink_ (lit "lf1");;
  unlink_ (lit "lf2");;
  fd ← open (lit "lf1") (Z.lor O_CREATE O_RDWR);
  fail_if (fd <? 0) "%s: create lf1 failed" [s];;
  r ← writes fd (lit "hello");
  fail_if (negb (r =? SZ)) "%s: write lf1 failed" [s];;
  close_ fd;;
  r ← link (lit "lf1") (lit "lf2");
  fail_if (r <? 0) "%s: link lf1 lf2 failed" [s];;
  unlink_ (lit "lf1");;
  r ← open (lit "lf1") 0;
  fail_if (0 <=? r) "%s: unlinked lf1 but it is still there!" [s];;
  fd ← open (lit "lf2") 0;
  fail_if (fd <? 0) "%s: open lf2 failed" [s];;
  r ← read fd buf BUFSZ;
  fail_if (negb (r =? SZ)) "%s: read lf2 failed" [s];;
  close_ fd;;
  r ← link (lit "lf2") (lit "lf2");
  fail_if (0 <=? r) "%s: link lf2 lf2 succeeded! oops" [s];;
  unlink_ (lit "lf2");;
  r ← link (lit "lf2") (lit "lf1");
  fail_if (0 <=? r) "%s: link non-existent succeeded! oops" [s];;
  r ← link (lit ".") (lit "lf1");
  fail_if (0 <=? r) "%s: link . lf1 succeeded! oops" [s].

(** The second loop of [concreate]: the files that the directory lists. *)
Definition concreate_list (s N fd : Z) : M U Z :=
  reading fd de 16 (fun _ n =>
    m ← get;
    if rdle (u_mem m) de 2 =? 0 then mret n else
    c0 ← ld8 (de + 2);
    c2 ← ld8 (de + 4);
    if (c0 =? 67) && (c2 =? 0) then
      c1 ← ld8 (de + 3);
      let i := c1 - 48 in
      fail_if ((i <? 0) || (N <=? i)) "%s: concreate weird file %s" [s; de + 2];;
      f ← ld8 (fa + i);
      fail_if (negb (f =? 0)) "%s: concreate duplicate file %s" [s; de + 2];;
      st8 (fa + i) 1;;
      int_op (n + 1)
    else mret n) 0.

(** [name] is the local [char file[3]]. *)
Definition concreate (s : Z) : M U unit :=
  let N := 40 in
  let file := name in
  st8 file 67;;
  st8 (file + 2) 0;;
  upto N (fun i =>
    st8 (file + 1) (48 + i);;
    unlink_at file;;
    pid ← fork;
    path ← getstr file;
    (if negb (pid =? 0) && (i mod 3 =? 1) then link (lit "C0") path;; mret tt
     else if (pid =? 0) && (i mod 5 =? 1) then link (lit "C0") path;; mret tt
     else
       fd ← open path (Z.lor O_CREATE O_RDWR);
       fail_if (fd <? 0) "concreate create %s failed" [file];;
       close_ fd);;
    if pid =? 0 then exit 0
    else
      st ← wait_status xstatus;
      when (negb (st =? 0)) (exit 1));;
  memset fa 0 N;;
  fd ← open (lit ".") 0;
  n ← concreate_list s N fd;
  close_ fd;;
  fail_if (negb (n =? N)) "%s: concreate not enough files in directory listing" [s];;
  upto N (fun i =>
    st8 (file + 1) (48 + i);;
    pid ← fork;
    fail_if (pid <? 0) "%s: fork failed" [s];;
    (if ((i mod 3 =? 0) && (pid =? 0)) || ((i mod 3 =? 1) && negb (pid =? 0)) then
       upto 6 (fun _ => fd ← open_at file 0; close_ fd)
     else
       upto 6 (fun _ => unlink_at file;; mret tt));;
    if pid =? 0 then exit 0 else wait 0;; mret tt).

Definition linkunlink (s : Z) : M U unit :=
  unlink_ (lit "x");;
  pid ← fork;
  fail_if (pid <? 0) "%s: fork failed" [s];;
  for_st (seqZ 0 100) (fun _ x =>
    let x := u32 (x * 1103515245 + 12345) in
    (if x mod 3 =? 0 then fd ← open (lit "x") (Z.lor O_RDWR O_CREATE); close_ fd
     else if x mod 3 =? 1 then link (lit "cat") (lit "x");; mret tt
     else unlink_ (lit "x"));;
    mret (inl x : Z + unit)) (if negb (pid =? 0) then 1 else 97);;
  if negb (pid =? 0) then wait 0;; mret tt else exit 0.

(** The calls of [subdir] after its second [chdir] back: all but the last
    five must fail. *)
Definition subdir_errors (s : Z) : M U unit :=
  r ← open (lit "dd/dd/ff") O_RDONLY;
  fail_if (0 <=? r) "%s: open (unlinked) dd/dd/ff succeeded!" [s];;
  r ← open (lit "dd/ff/ff") (Z.lor O_CREATE O_RDWR);
  fail_if (0 <=? r) "%s: create dd/ff/ff succeeded!" [s];;
  r ← open (lit "dd/xx/ff") (Z.lor O_CREATE O_RDWR);
  fail_if (0 <=? r) "%s: create dd/xx/ff succeeded!" [s];;
  r ← open (lit "dd") O_CREATE;
  fail_if (0 <=? r) "%s: create dd succeeded!" [s];;
  r ← open (lit "dd") O_RDWR;
  fail_if (0 <=? r) "%s: open dd rdwr succeeded!" [s];;
  r ← open (lit "dd") O_WRONLY;
  fail_if (0 <=? r) "%s: open dd wronly succeeded!" [s];;
  r ← link (lit "dd/ff/ff") (lit "dd/dd/xx");
  fail_if (r =? 0) "%s: link dd/ff/ff dd/dd/xx succeeded!" [s];;
  r ← link (lit "dd/xx/ff") (lit "dd/dd/xx");
  fail_if (r =? 0) "%s: link dd/xx/ff dd/dd/xx succeeded!" [s];;
  r ← link (lit "dd/ff") (lit "dd/dd/ffff");
  fail_if (r =? 0) "%s: link dd/ff dd/dd/ffff succeeded!" [s];;
  r ← mkdir (lit "dd/ff/ff");
  fail_if (r =? 0) "%s: mkdir dd/ff/ff succeeded!" [s];;
  r ← mkdir (lit "dd/xx/ff");
  fail_if (r =? 0) "%s: mkdir dd/xx/ff succeeded!" [s];;
  r ← mkdir (lit "dd/dd/ffff");
  fail_if (r =? 0) "%s: mkdir dd/dd/ffff succeeded!" [s];;
  r ← unlink (lit "dd/xx/ff");
  fail_if (r =? 0) "%s: unlink dd/xx/ff succeeded!" [s];;
  r ← unlink (lit "dd/ff/ff");
  fail_if (r =? 0) "%s: unlink dd/ff/ff succeeded!" [s];;
  r ← chdir (lit "dd/ff");
  fail_if (r =? 0) "%s: chdir dd/ff succeeded!" [s];;
  r ← chdir (lit "dd/xx");
  fail_if (r =? 0) "%s: chdir dd/xx succeeded!" [s];;
  r ← unlink (lit "dd/dd/ffff");
  fail_if (negb (r =? 0)) "%s: unlink dd/dd/ff failed" [s];;
  r ← unlink (lit "dd/ff");
  fail_if (negb (r =? 0)) "%s: unlink dd/ff failed" [s];;
  r ← unlink (lit "dd");
  fail_if (r =? 0) "%s: unlink non-empty dd succeeded!" [s];;
  r ← unlink (lit "dd/dd");
  fail_if (r <? 0) "%s: unlink dd/dd failed" [s];;
  r ← unlink (lit "dd");
  fail_if (r <? 0) "%s: unlink dd failed" [s].

Definition subdir (s : Z) : M U unit :=
  unlink_ (lit "ff");;
  r ← mkdir (lit "dd");
  fail_if (negb (r =? 0)) "%s: mkdir dd failed" [s];;
  fd ← open (lit "dd/ff") (Z.lor O_CREATE O_RDWR);
  fail_if (fd <? 0) "%s: create dd/ff failed" [s];;
  writes fd (lit "ff");;
  close_ fd;;
  r ← unlink (lit "dd");
  fail_if (0 <=? r) "%s: unlink dd (non-empty dir) succeeded!" [s];;
  r ← mkdir (lit "/dd/dd");
  fail_if (negb (r =? 0)) "subdir mkdir dd/dd failed" [s];;
  fd ← open (lit "dd/dd/ff") (Z.lor O_CREATE O_RDWR);
  fail_if (fd <? 0) "%s: create dd/dd/ff failed" [s];;
  writes fd (lit "FF");;
  close_ fd;;
  fd ← open (lit "dd/dd/../ff") 0;
  fail_if (fd <? 0) "%s: open dd/dd/../ff failed" [s];;
  cc ← read fd buf BUFSZ;
  c ← ld8 buf;
  fail_if (negb (cc =? 2) || negb (c =? 102)) "%s: dd/dd/../ff wrong content" [s];;
  close_ fd;;
  r ← link (lit "dd/dd/ff") (lit "dd/dd/ffff");
  fail_if (negb (r =? 0)) "link dd/dd/ff dd/dd/ffff failed" [s];;
  r ← unlink (lit "dd/dd/ff");
  fail_if (negb (r =? 0)) "%s: unlink dd/dd/ff failed" [s];;
  r ← open (lit "dd/dd/ff") O_RDONLY;
  fail_if (0 <=? r) "%s: open (unlinked) dd/dd/ff succeeded" [s];;
  r ← chdir (lit "dd");
  fail_if (negb (r =? 0)) "%s: chdir dd failed" [s];;
  r ← chdir (lit "dd/../../dd");
  fail_if (negb (r =? 0)) "%s: chdir dd/../../dd failed" [s];;
  r ← chdir (lit "dd/../../../dd");
  fail_if (negb (r =? 0)) "chdir dd/../../dd failed" [s];;
  r ← chdir (lit "./..");
  fail_if (negb (r =? 0)) "%s: chdir ./.. failed" [s];;
  fd ← open (lit "dd/dd/ffff") 0;
  fail_if (fd <? 0) "%s: open dd/dd/ffff failed" [s];;
  r ← read fd buf BUFSZ;
  fail_if (negb (r =? 2)) "%s: read dd/dd/ffff wrong len" [s];;
  close_ fd;;
  subdir_errors s.

Definition bigwrite (s : Z) : M U unit :=
  unlink_ (lit "bigwrite");;
  while (fun sz =>
    if negb (sz <? (MAXOPBLOCKS + 2) * BSIZE) then mret (inr tt) else
    fd ← open (lit "bigwrite") (Z.lor O_CREATE O_RDWR);
    fail_if (fd <? 0) "%s: cannot create bigwrite" [s];;
    upto 2 (fun _ =>
      cc ← write fd buf sz;
      fail_if (negb (cc =? sz)) "%s: write(%d) ret %d" [s; sz; cc]);;
    close_ fd;;
    unlink_ (lit "bigwrite");;
    mret (inl (sz + 471))) 499.

Definition bigfile (s : Z) : M U unit :=
  let N := 20 in
  let SZ := 600 in
  unlink_ (lit "bigfile.dat");;
  fd ← open (lit "bigfile.dat") (Z.lor O_CREATE O_RDWR);
  when (fd <? 0) (printf "%s: cannot create bigfile" [s];; exit 1);;
  upto N (fun i =>
    memset buf i SZ;;
    r ← write fd buf SZ;
    fail_if (negb (r =? SZ)) "%s: write bigfile failed" [s]);;
  close_ fd;;
  fd ← open (lit "bigfile.dat") 0;
  fail_if (fd <? 0) "%s: cannot open bigfile" [s];;
  total ← while (fun '(i, total) =>
    cc ← read fd buf (SZ / 2);
    fail_if (cc <? 0) "%s: read bigfile failed" [s];;
    if cc =? 0 then mret (inr total) else
    fail_if (negb (cc =? SZ / 2)) "%s: short read bigfile" [s];;
    c0 ← ld8 buf;
    c1 ← ld8 (buf + SZ / 2 - 1);
    fail_if (negb (c0 =? i / 2) || negb (c1 =? i / 2)) "%s: read bigfile wrong data" [s];;
    total ← int_op (total + cc);
    i ← int_op (i + 1);
    mret (inl (i, total))) (0, 0);
  close_ fd;;
  fail_if (negb (total =? N * SZ)) "%s: read bigfile wrong total" [s];;
  unlink_ (lit "bigfile.dat").

Definition fourteen (s : Z) : M U unit :=
  r ← mkdir (lit "12345678901234");
  fail_if (negb (r =? 0)) "%s: mkdir 12345678901234 failed" [s];;
  r ← mkdir (lit "12345678901234/123456789012345");
  fail_if (negb (r =? 0)) "%s: mkdir 12345678901234/123456789012345 failed" [s];;
  fd ← open (lit "123456789012345/123456789012345/123456789012345") O_CREATE;
  fail_if (fd <? 0) "%s: create 123456789012345/123456789012345/123456789012345 failed" [s];;
  close_ fd;;
  fd ← open (lit "12345678901234/12345678901234/12345678901234") 0;
  fail_if (fd <? 0) "%s: open 12345678901234/12345678901234/12345678901234 failed" [s];;
  close_ fd;;
  r ← mkdir (lit "12345678901234/12345678901234");
  fail_if (r =? 0) "%s: mkdir 12345678901234/12345678901234 succeeded!" [s];;
  r ← mkdir (lit "123456789012345/12345678901234");
  fail_if (r =? 0) "%s: mkdir 12345678901234/123456789012345 succeeded!" [s];;
  unlink_ (lit "123456789012345/12345678901234");;
  unlink_ (lit "12345678901234/12345678901234");;
  unlink_ (lit "12345678901234/12345678901234/12345678901234");;
  unlink_ (lit "123456789012345/123456789012345/123456789012345");;
  unlink_ (lit "12345678901234/123456789012345");;
  unlink_ (lit "12345678901234").

Definition rmdot (s : Z) : M U unit :=
  r ← mkdir (lit "dots");
  fail_if (negb (r =? 0)) "%s: mkdir dots failed" [s];;
  r ← chdir (lit "dots");
  fail_if (negb (r =? 0)) "%s: chdir dots failed" [s];;
  r ← unlink (lit ".");
  fail_if (r =? 0) "%s: rm . worked!" [s];;
  r ← unlink (lit "..");
  fail_if (r =? 0) "%s: rm .. worked!" [s];;
  r ← chdir (lit "/");
  fail_if (negb (r =? 0)) "%s: chdir / failed" [s];;
  r ← unlink (lit "dots/.");
  fail_if (r =? 0) "%s: unlink dots/. worked!" [s];;
  r ← unlink (lit "dots/..");
  fail_if (r =? 0) "%s: unlink dots/.. worked!" [s];;
  r ← unlink (lit "dots");
  fail_if (negb (r =? 0)) "%s: unlink dots failed!" [s].

Definition dirfile (s : Z) : M U unit :=
  fd ← open (lit "dirfile") O_CREATE;
  fail_if (fd <? 0) "%s: create dirfile failed" [s];;
  close_ fd;;
  r ← chdir (lit "dirfile");
  fail_if (r =? 0) "%s: chdir dirfile succeeded!" [s];;
  fd ← open (lit "dirfile/xx") 0;
  fail_if (0 <=? fd) "%s: create dirfile/xx succeeded!" [s];;
  fd ← open (lit "dirfile/xx") O_CREATE;
  fail_if (0 <=? fd) "%s: create dirfile/xx succeeded!" [s];;
  r ← mkdir (lit "dirfile/xx");
  fail_if (r =? 0) "%s: mkdir dirfile/xx succeeded!" [s];;
  r ← unlink (lit "dirfile/xx");
  fail_if (r =? 0) "%s: unlink dirfile/xx succeeded!" [s];;
  r ← link (lit "README") (lit "dirfile/xx");
  fail_if (r =? 0) "%s: link to dirfile/xx succeeded!" [s];;
  r ← unlink (lit "dirfile");
  fail_if (negb (r =? 0)) "%s: unlink dirfile failed!" [s];;
  fd ← open (lit ".") O_RDWR;
  fail_if (0 <=? fd) "%s: open . for writing succeeded!" [s];;
  fd ← open (lit ".") 0;
  r ← writes fd (lit "x");
  fail_if (0 <? r) "%s: write . succeeded!" [s];;
  close_ fd.

(** Some of the paths are empty. *)
Definition iref (s : Z) : M U unit :=
  upto (Z.of_nat NINODE + 1) (fun _ =>
    r ← mkdir (lit "irefd");
    fail_if (negb (r =? 0)) "%s: mkdir irefd failed" [s];;
    r ← chdir (lit "irefd");
    fail_if (negb (r =? 0)) "%s: chdir irefd failed" [s];;
    mkdir [];;
    link (lit "README") [];;
    fd ← open [] O_CREATE;
    when (0 <=? fd) (close_ fd);;
    fd ← open (lit "xx") O_CREATE;
    when (0 <=? fd) (close_ fd);;
    unlink_ (lit "xx"));;
  upto (Z.of_nat NINODE + 1) (fun _ =>
    chdir (lit "..");;
    unlink_ (lit "irefd"));;
  chdir (lit "/");;
  mret tt.

Definition forktest (s : Z) : M U unit :=
  let N := 1000 in
  n ← while (fun n =>
    if negb (n <? N) then mret (inr n) else
    pid ← fork;
    if pid <? 0 then mret (inr n) else
    when (pid =? 0) (exit 0);;
    mret (inl (n + 1))) 0;
  fail_if (n =? 0) "%s: no fork at all!" [s];;
  fail_if (n =? N) "%s: fork claimed to work 1000 times!" [s];;
  upto n (fun _ =>
    r ← wait 0;
    fail_if (r <? 0) "%s: wait stopped early" [s]);;
  r ← wait 0;
  fail_if (negb (r =? -1)) "%s: wait got too many" [s].

End files.
