(* ===== verification/UtMem.v ===== *)
(** * UtMem: [user/usertests.c], tests of memory and of wild addresses

    Memory that [sbrk] gives and takes, and addresses that are no memory of
    the program, are reached with [load_byte], [store_byte] and [raw]: it is the kernel
    that decides what is there. *)

From stdpp Require Import base list gmap strings.
From Stdlib Require Import ZArith Lia.
From S2P Require Import Prelude CMem Riscv Spinlock Kalloc Vm Que KState User Ulib Programs UtBasic.

Definition BIG : Z := 100 * 1024 * 1024.
Definition big_pointer : Z := 0xeaeb0b5b00002f5e.

Section memory.
Context `{Sys}.

(** The locals [fds], [xstatus], [scratch] and [argv], the global [uninit],
    the string ["nosuchfile"], the stack pointer, and the address of the next
    instruction. *)
Variables (buf fds xstatus scratch argv uninit nosuchfile sp pc name : Z).

(** [sbrk] takes an [int] and returns a pointer. *)
Definition sbrkp (n : Z) : M U Z := r ← sbrk (i32 n); mret (u64 r).

(** [for(p = a; p < b; p += 4096) *p = v;] *)
Definition store_pages (a b v : Z) : M U unit :=
  while (fun p =>
    if negb (p <? b) then mret (inr tt) else
    store_byte p v;;
    mret (inl (u64 (p + 4096)))) a.

Definition sbrkbasic (s : Z) : M U unit :=
  let TOOMUCH := 1024 * 1024 * 1024 in
  pid ← fork;
  fail_if (pid <? 0) "fork failed in sbrkbasic" [];;
  when (pid =? 0) (
    a ← sbrkp TOOMUCH;
    when (a =? SBRK_FAILED) (exit 0);;
    store_pages a (u64 (a + TOOMUCH)) 99;;
    exit 1);;
  st ← wait_status xstatus;
  fail_if (st =? 1) "%s: too much memory allocated!" [s];;
  a ← sbrkp 0;
  r ← for_st (seqZ 0 5000) (fun i a =>
    b ← sbrkp 1;
    fail_if (negb (b =? a)) "%s: sbrk test failed %d %x %x" [s; i; a; b];;
    store_byte b 1;;
    mret (inl (u64 (b + 1)) : Z + unit)) a;
  let a := match r with inl a' => a' | inr _ => a end in
  pid ← fork;
  fail_if (pid <? 0) "%s: sbrk test fork failed" [s];;
  sbrkp 1;;
  c ← sbrkp 1;
  fail_if (negb (c =? u64 (a + 1))) "%s: sbrk test failed post-fork" [s];;
  when (pid =? 0) (exit 0);;
  st ← wait_status xstatus;
  exit st.

Definition sbrkmuch (s : Z) : M U unit :=
  oldbrk ← sbrkp 0;
  a ← sbrkp 0;
  p ← sbrkp (u64 (BIG - a));
  fail_if (negb (p =? a)) "%s: sbrk test failed to grow big address space; enough phys mem?" [s];;
  eee ← sbrkp 0;
  store_pages a eee 1;;
  let lastaddr := BIG - 1 in
  store_byte lastaddr 99;;
  a ← sbrkp 0;
  c ← sbrkp (- PGSIZE);
  fail_if (c =? SBRK_FAILED) "%s: sbrk could not deallocate" [s];;
  c ← sbrkp 0;
  fail_if (negb (c =? u64 (a - PGSIZE))) "%s: sbrk deallocation produced wrong address, a %x c %x" [s; a; c];;
  a ← sbrkp 0;
  c ← sbrkp PGSIZE;
  bad ← (if negb (c =? a) then mret true else r ← sbrkp 0; mret (negb (r =? u64 (a + PGSIZE))));
  fail_if bad "%s: sbrk re-allocation failed, a %x c %x" [s; a; c];;
  x ← load_byte lastaddr;
  fail_if (x =? 99) "%s: sbrk de-allocation didn't really deallocate" [s];;
  a ← sbrkp 0;
  r ← sbrkp 0;
  c ← sbrkp (- (r - oldbrk));
  fail_if (negb (c =? a)) "%s: sbrk downsize failed, a %x c %x" [s; a; c].

Definition kernmem (s : Z) : M U unit :=
  while (fun a =>
    if negb (a <? KERNBASE + 2000000) then mret (inr tt) else
    pid ← fork;
    fail_if (pid <? 0) "%s: fork failed" [s];;
    when (pid =? 0) (
      x ← load_byte a;
      fail "%s: oops could read %x = %x" [s; a; x]);;
    st ← wait_status xstatus;
    when (negb (st =? -1)) (exit 1);;
    mret (inl (a + 50000))) KERNBASE.

Definition MAXVAplus (s : Z) : M U unit :=
  while (fun a =>
    if a =? 0 then mret (inr tt) else
    pid ← fork;
    fail_if (pid <? 0) "%s: fork failed" [s];;
    when (pid =? 0) (
      store_byte a 99;;
      fail "%s: oops wrote %x" [s; a]);;
    st ← wait_status xstatus;
    when (negb (st =? -1)) (exit 1);;
    mret (inl (u64 (Z.shiftl a 1)))) MAXVA.

(** The children of [sbrkfail]: their process ids. *)
Fixpoint sbrkfail_forks (n : nat) : M U (list Z) :=
  match n with
  | O => mret []
  | S n' =>
      pid ← fork;
      when (pid =? 0) (
        r ← sbrkp 0;
        sbrkp (u64 (BIG - r));;
        fd1 ← ldi (fds + 4);
        writes fd1 (lit "x");;
        forever (sleep 1000;; mret tt));;
      when (negb (pid =? -1)) (fd0 ← ldi fds; read fd0 scratch 1;; mret tt);;
      pids ← sbrkfail_forks n';
      mret (pid :: pids)
  end.

Definition sbrkfail (s : Z) : M U unit :=
  r ← pipe fds;
  fail_if (negb (r =? 0)) "%s: pipe() failed" [s];;
  pids ← sbrkfail_forks 10;
  c ← sbrkp PGSIZE;
  for_each pids (fun pid =>
    if pid =? -1 then mret tt else
    kill pid;;
    wait 0;;
    mret tt);;
  fail_if (c =? SBRK_FAILED) "%s: failed sbrk leaked memory" [s];;
  pid ← fork;
  fail_if (pid <? 0) "%s: fork failed" [s];;
  when (pid =? 0) (
    a ← sbrkp 0;
    sbrkp (10 * BIG);;
    n ← while (fun '(i, n) =>
      if negb (i <? 10 * BIG) then mret (inr n) else
      x ← load_byte (u64 (a + i));
      n ← int_op (n + x);
      mret (inl (i + PGSIZE, n))) (0, 0);
    fail "%s: allocate a lot of memory succeeded %d" [s; n]);;
  st ← wait_status xstatus;
  when (negb (st =? -1) && negb (st =? 2)) (exit 1).

Definition sbrkarg (s : Z) : M U unit :=
  a ← sbrkp PGSIZE;
  fd ← open (lit "sbrk") (Z.lor O_CREATE O_WRONLY);
  unlink_ (lit "sbrk");;
  fail_if (fd <? 0) "%s: open sbrk failed" [s];;
  n ← raw "write" [fd; a; PGSIZE];
  fail_if (n <? 0) "%s: write sbrk failed" [s];;
  close_ fd;;
  a ← sbrkp PGSIZE;
  r ← raw "pipe" [a];
  fail_if (negb (r =? 0)) "%s: pipe() failed" [s].

Definition validatetest (s : Z) : M U unit :=
  let hi := 1100 * 1024 in
  while (fun p =>
    if negb (p <=? hi) then mret (inr tt) else
    r ← raw "link" [nosuchfile; p];
    fail_if (negb (r =? -1)) "%s: link should not succeed" [s];;
    mret (inl (p + PGSIZE))) 0.

Definition bsstest (s : Z) : M U unit :=
  upto 10000 (fun i =>
    c ← ld8 (uninit + i);
    fail_if (negb (c =? 0)) "%s: bss test failed" [s]).

(** The 31 arguments of [bigargtest]: a line and 199 spaces. *)
Definition bigarg : list Z := lit ("bigargs test: failed" +:+ newline) ++ replicate 199 32.

Definition bigargtest (s : Z) : M U unit :=
  unlink_ (lit "bigarg-ok");;
  pid ← fork;
  (if pid =? 0 then
     exec (lit "echo") (replicate (Z.to_nat MAXARG - 1) bigarg);;
     fd ← open (lit "bigarg-ok") O_CREATE;
     close_ fd;;
     exit 0
   else fail_if (pid <? 0) "%s: bigargtest: fork failed" [s]);;
  st ← wait_status xstatus;
  when (negb (st =? 0)) (exit st);;
  fd ← open (lit "bigarg-ok") 0;
  fail_if (fd <? 0) "%s: bigarg test failed!" [s];;
  close_ fd.

(** [name[0] = 'f'; ...; name[5] = '\0';] *)
Definition fsfull_name (nfiles : Z) : M U unit :=
  st8 name 102;;
  st8 (name + 1) (48 + Z.quot nfiles 1000);;
  st8 (name + 2) (48 + Z.quot (Z.rem nfiles 1000) 100);;
  st8 (name + 3) (48 + Z.quot (Z.rem nfiles 100) 10);;
  st8 (name + 4) (48 + Z.rem nfiles 10);;
  st8 (name + 5) 0.

(** Nothing reads the count [fsblocks]. *)
Definition fsfull (s : Z) : M U unit :=
  printf ("fsfull test" +:+ newline) [];;
  nfiles ← while (fun nfiles =>
    fsfull_name nfiles;;
    printf ("writing %s" +:+ newline) [name];;
    fd ← open_at name (Z.lor O_CREATE O_RDWR);
    if fd <? 0 then printf ("open %s failed" +:+ newline) [name];; mret (inr nfiles) else
    total ← while (fun total =>
      cc ← write fd buf BSIZE;
      if cc <? BSIZE then mret (inr total) else
      total ← int_op (total + cc);
      mret (inl total)) 0;
    printf ("wrote %d bytes" +:+ newline) [total];;
    close_ fd;;
    if total =? 0 then mret (inr nfiles) else
    nfiles ← int_op (nfiles + 1);
    mret (inl nfiles)) 0;
  while (fun nfiles =>
    if negb (0 <=? nfiles) then mret (inr tt) else
    fsfull_name nfiles;;
    unlink_at name;;
    mret (inl (nfiles - 1))) nfiles;;
  printf ("fsfull test finished" +:+ newline) [].

Definition argptest (s : Z) : M U unit :=
  fd ← open (lit "init") O_RDONLY;
  fail_if (fd <? 0) "%s: open failed" [s];;
  a ← sbrkp 0;
  raw "read" [fd; u64 (a - 1); -1];;
  close_ fd.

Definition stacktest (s : Z) : M U unit :=
  pid ← fork;
  (if pid =? 0 then
     x ← load_byte (u64 (sp - PGSIZE));
     fail "%s: stacktest: read below stack %p" [s; x]
   else fail_if (pid <? 0) "%s: fork failed" [s]);;
  st ← wait_status xstatus;
  if st =? -1 then exit 0 else exit st.

Definition textwrite (s : Z) : M U unit :=
  pid ← fork;
  (if pid =? 0 then
     store_int 0 10;;
     exit 1
   else fail_if (pid <? 0) "%s: fork failed" [s]);;
  st ← wait_status xstatus;
  if st =? -1 then exit 0
  else
    printf ("exit status: %d" +:+ newline) [st];;
    exit st.

Definition pgbug (s : Z) : M U unit :=
  stp argv 0;;
  raw_exec big_pointer argv;;
  raw "pipe" [big_pointer];;
  exit 0.

(** [pid = fork();] and what the child does; the parent waits. *)
Definition sbrkbugs_child (child : M U unit) : M U unit :=
  pid ← fork;
  fail_if (pid <? 0) "fork failed" [];;
  when (pid =? 0) child;;
  wait 0;;
  mret tt.

(** The first child has no memory left to fetch its next instruction from. *)
Definition sbrkbugs (s : Z) : M U unit :=
  sbrkbugs_child (
    r ← sbrkp 0;
    let sz := i32 r in
    sbrkp (- sz);;
    load_byte pc;;
    exit 0);;
  sbrkbugs_child (
    r ← sbrkp 0;
    let sz := i32 r in
    sbrkp (- (sz - 3500));;
    exit 0);;
  sbrkbugs_child (
    r ← sbrkp 0;
    sbrkp (u64 (10 * 4096 + 2048 - r));;
    sbrkp (-10);;
    exit 0);;
  exit 0.

Definition sbrklast (s : Z) : M U unit :=
  top ← sbrkp 0;
  when (negb (top mod 4096 =? 0)) (sbrkp (4096 - top mod 4096);; mret tt);;
  sbrkp 4096;;
  sbrkp 10;;
  sbrkp (-20);;
  top ← sbrkp 0;
  let p := u64 (top - 64) in
  store_byte p 120;;
  store_byte (p + 1) 0;;
  fd ← raw "open" [p; Z.lor O_RDWR O_CREATE];
  raw "write" [fd; p; 1];;
  close_ fd;;
  fd ← raw "open" [p; O_RDWR];
  store_byte p 0;;
  raw "read" [fd; p; 1];;
  c ← load_byte p;
  when (negb (c =? 120)) (exit 1).

Definition sbrk8000 (s : Z) : M U unit :=
  sbrkp 0x80000004;;
  top ← sbrkp 0;
  x ← load_byte (u64 (top - 1));
  store_byte (u64 (top - 1)) (x + 1).

(** [echo] is the address of the name. *)
Definition badarg (echo s : Z) : M U unit :=
  upto 50000 (fun _ =>
    stp argv 0xffffffff;;
    stp (argv + 8) 0;;
    raw_exec echo argv;;
    mret tt);;
  exit 0.

End memory.
