(* ===== verification/UtDriver.v ===== *)
(** * UtDriver: [user/usertests.c], the slow tests and the driver *)

From stdpp Require Import base list gmap strings.
From Stdlib Require Import ZArith Lia.
From S2P Require Import Prelude CMem Riscv Spinlock Kalloc Vm Que KState User Ulib Programs UtBasic UtProc UtFiles UtMem.

Section slow.
Context `{Sys}.

(** The global [buf], and the locals [name], [xstatus] and [blockbuf] (the
    [buf] of [diskfull]). *)
Variables (buf name xstatus blockbuf : Z).

(** The name of file [i] of [bigdir]. *)
Definition bigdir_name (i : Z) : M U unit :=
  st8 name 120;;
  st8 (name + 1) (48 + i / 64);;
  st8 (name + 2) (48 + i mod 64);;
  st8 (name + 3) 0.

Definition bigdir (s : Z) : M U unit :=
  let N := 500 in
  unlink_ (lit "bd");;
  fd ← open (lit "bd") O_CREATE;
  fail_if (fd <? 0) "%s: bigdir create failed" [s];;
  close_ fd;;
  upto N (fun i =>
    bigdir_name i;;
    path ← getstr name;
    r ← link (lit "bd") path;
    fail_if (negb (r =? 0)) "%s: bigdir link(bd, %s) failed" [s; name]);;
  unlink_ (lit "bd");;
  upto N (fun i =>
    bigdir_name i;;
    r ← unlink_at name;
    when (negb (r =? 0)) (printf "%s: bigdir unlink failed" [s];; exit 1)).

Definition manywrites (s : Z) : M U unit :=
  let nchildren := 4 in
  let howmany := 30 in
  upto nchildren (fun ci =>
    pid ← fork;
    fail_if (pid <? 0) "fork failed" [];;
    when (pid =? 0) (
      st8 name 98;;
      st8 (name + 1) (97 + ci);;
      st8 (name + 2) 0;;
      unlink_at name;;
      upto howmany (fun _ =>
        upto (ci + 1) (fun _ =>
          fd ← open_at name (Z.lor O_CREATE O_RDWR);
          fail_if (fd <? 0) "%s: cannot create %s" [s; name];;
          cc ← write fd buf BUFSZ;
          fail_if (negb (cc =? BUFSZ)) "%s: write(%d) ret %d" [s; BUFSZ; cc];;
          close_ fd);;
        unlink_at name;;
        mret tt);;
      unlink_at name;;
      exit 0));;
  upto nchildren (fun _ =>
    sti xstatus 0;;
    st ← wait_status xstatus;
    when (negb (st =? 0)) (exit st));;
  exit 0.

Definition badwrite (s : Z) : M U unit :=
  let assumed_free := 600 in
  unlink_ (lit "junk");;
  upto assumed_free (fun _ =>
    fd ← open (lit "junk") (Z.lor O_CREATE O_WRONLY);
    fail_if (fd <? 0) "open junk failed" [];;
    raw "write" [fd; 0xffffffffff; 1];;
    close_ fd;;
    unlink_ (lit "junk"));;
  fd ← open (lit "junk") (Z.lor O_CREATE O_WRONLY);
  fail_if (fd <? 0) "open junk failed" [];;
  r ← writes fd (lit "x");
  fail_if (negb (r =? 1)) "write failed" [];;
  close_ fd;;
  unlink_ (lit "junk");;
  exit 0.

Definition execout (s : Z) : M U unit :=
  upto 15 (fun avail =>
    pid ← fork;
    if pid <? 0 then fail "fork failed" []
    else if pid =? 0 then
      while (fun _ : unit =>
        a ← sbrkp 4096;
        if a =? SBRK_FAILED then mret (inr tt) else
        store_byte (u64 (a + 4096 - 1)) 1;;
        mret (inl tt)) tt;;
      upto avail (fun i =>
        printf "freeing %d" [i];;
        sbrkp (-4096);;
        mret tt);;
      close_ 1;;
      exec (lit "echo") [lit "echo"; lit "x"];;
      exit 0
    else wait 0;; mret tt);;
  exit 0.

(** The names of the files of [diskfull] and [outofinodes]. *)
Definition big_name (fi : Z) : M U unit :=
  st8 name 98;;
  st8 (name + 1) 105;;
  st8 (name + 2) 103;;
  st8 (name + 3) (48 + fi);;
  st8 (name + 4) 0.
Definition zz_name (i : Z) : M U unit :=
  st8 name 122;;
  st8 (name + 1) 122;;
  st8 (name + 2) (48 + i / 32);;
  st8 (name + 3) (48 + i mod 32);;
  st8 (name + 4) 0.

(** [for(i = 0; i < nzz; i++)]: create the file, until that fails. *)
Definition zz_create (nzz : Z) : M U unit :=
  for_first (seqZ 0 nzz) (fun i =>
    zz_name i;;
    unlink_at name;;
    fd ← open_at name (Z.lor (Z.lor O_CREATE O_RDWR) O_TRUNC);
    if fd <? 0 then mret (Some tt) else
    close_ fd;;
    mret None);;
  mret tt.
Definition zz_unlink (nzz : Z) : M U unit :=
  upto nzz (fun i => zz_name i;; unlink_at name;; mret tt).

(** The first loop of [diskfull]: the number of its files.  A file that
    could not be created is not counted, the one that filled the disk is. *)
Definition diskfull_fill (s : Z) : M U Z :=
  while (fun fi =>
    big_name fi;;
    unlink_at name;;
    fd ← open_at name (Z.lor (Z.lor O_CREATE O_RDWR) O_TRUNC);
    if fd <? 0 then
      printf ("%s: could not create file %s" +:+ newline) [s; name];;
      mret (inr fi)
    else
    full ← for_first (seqZ 0 MAXFILE) (fun _ =>
      r ← write fd blockbuf BSIZE;
      if negb (r =? BSIZE) then close_ fd;; mret (Some tt) else mret None);
    close_ fd;;
    fi ← int_op (fi + 1);
    mret (match full with Some _ => inr fi | None => inl fi end)) 0.

(** One message has a [%s] without an argument. *)
Definition diskfull (s : Z) : M U unit :=
  unlink_ (lit "diskfulldir");;
  fi ← diskfull_fill s;
  let nzz := 128 in
  zz_create nzz;;
  r ← mkdir (lit "diskfulldir");
  when (r =? 0) (printf ("%s: mkdir(diskfulldir) unexpectedly succeeded!" +:+ newline) []);;
  unlink_ (lit "diskfulldir");;
  zz_unlink nzz;;
  upto fi (fun i => big_name i;; unlink_at name;; mret tt).

Definition outofinodes (s : Z) : M U unit :=
  let nzz := 32 * 32 in
  zz_create nzz;;
  zz_unlink nzz.

End slow.

(** ** The driver *)

Section driver.
Context `{Sys}.

(** The locals [xstatus], [fds] and [c], and where the string literals are. *)
Variables (xstatus fds c : Z) (str : string -> Z).

(** [struct test] *)
Record test := mkTest { t_f : Z -> M U unit; t_s : Z }.

(** In the child, [run] does not return. *)
Definition run (f : Z -> M U unit) (s : Z) : M U bool :=
  printf "test %s: " [s];;
  pid ← fork;
  fail_if (pid <? 0) "runtest: fork error" [];;
  if pid =? 0 then
    f s;;
    exit 0
  else
    st ← wait_status xstatus;
    (if negb (st =? 0) then printf ("FAILED" +:+ newline) [] else printf ("OK" +:+ newline) []);;
    mret (st =? 0).

(** The array of tests ends with a null pointer. *)
Fixpoint runtests (tests : list test) (justone : Z) : M U Z :=
  match tests with
  | [] => mret 0
  | t :: tests' =>
      selected ← (if justone =? 0 then mret true else r ← strcmp (t_s t) justone; mret (r =? 0));
      if selected : bool then
        ok ← run (t_f t) (t_s t);
        if negb ok then
          printf ("SOME TESTS FAILED" +:+ newline) [];;
          mret (-11)
        else runtests tests' justone
      else runtests tests' justone
  end.

Definition countfree : M U Z :=
  r ← pipe fds;
  fail_if (r <? 0) "pipe() failed in countfree()" [];;
  pid ← fork;
  fail_if (pid <? 0) "fork failed in countfree()" [];;
  when (pid =? 0) (
    fd0 ← ldi fds;
    close_ fd0;;
    while (fun _ : unit =>
      a ← sbrkp 4096;
      if a =? SBRK_FAILED then mret (inr tt) else
      store_byte (u64 (a + 4096 - 1)) 1;;
      fd1 ← ldi (fds + 4);
      r ← writes fd1 (lit "x");
      fail_if (negb (r =? 1)) "write() failed in countfree()" [];;
      mret (inl tt)) tt;;
    exit 0);;
  fd1 ← ldi (fds + 4);
  close_ fd1;;
  n ← while (fun n =>
    fd0 ← ldi fds;
    cc ← read fd0 c 1;
    fail_if (cc <? 0) "read() failed in countfree()" [];;
    if cc =? 0 then mret (inr n) else
    n ← int_op (n + 1);
    mret (inl n)) 0;
  fd0 ← ldi fds;
  close_ fd0;;
  wait 0;;
  mret n.

Section drivetests.
Variables (quicktests slowtests : list test).

(** One turn of the loop: [inl] goes on. *)
Definition drive_turn (quick : bool) (continuous justone : Z) : M U (unit + Z) :=
  printf ("usertests starting" +:+ newline) [];;
  free0 ← countfree;
  r ← runtests quicktests justone;
  if negb (r =? 0) && negb (continuous =? 2) then mret (inr 1) else
  r ← (if negb quick then
         when (justone =? 0) (printf ("usertests slow tests starting" +:+ newline) []);;
         runtests slowtests justone
       else mret 0);
  if negb (r =? 0) && negb (continuous =? 2) then mret (inr 1) else
  free1 ← countfree;
  lost ← (if free1 <? free0 then
            printf ("FAILED -- lost some free pages %d (out of %d)" +:+ newline) [free1; free0];;
            mret true
          else mret false);
  if lost && negb (continuous =? 2) then mret (inr 1) else
  mret (if negb (continuous =? 0) then inl tt else inr 0).

Definition drivetests (quick : bool) (continuous justone : Z) : M U Z :=
  while (fun (_ : unit) => drive_turn quick continuous justone) tt.

Definition usertests_main (argv : list Z) : M U unit :=
  let argc := Z.of_nat (length argv) in
  let is_arg (o : string) : M U bool := if argc =? 2 then a ← arg argv 1; r ← strcmp a (str o); mret (r =? 0) else mret false in
  q ← is_arg "-q";
  c1 ← (if q : bool then mret false else is_arg "-c");
  c2 ← (if q || c1 then mret false else is_arg "-C");
  justone ← (if q || c1 || c2 then mret 0
             else if argc =? 2 then
               a ← arg argv 1;
               ch ← ld8 a;
               if negb (ch =? 45) then mret a
               else printf ("Usage: usertests [-c] [-C] [-q] [testname]" +:+ newline) [];; exit 1
             else if 1 <? argc then printf ("Usage: usertests [-c] [-C] [-q] [testname]" +:+ newline) [];; exit 1
             else mret 0);
  r ← drivetests q (if c1 : bool then 1 else if c2 : bool then 2 else 0) justone;
  when (negb (r =? 0)) (exit 1);;
  printf ("ALL TESTS PASSED" +:+ newline) [];;
  exit 0.
End drivetests.

End driver.

(** ** The tests *)

Section tables.
Context `{Sys}.
Variables (buf fds xstatus c b big args base freep name fa de scratch argv uninit nosuchfile sp pc echo blockbuf : Z).
Variable str : string -> Z.

Definition quicktests : list test :=
  [mkTest (copyin fds) (str "copyin");
   mkTest (copyout fds) (str "copyout");
   mkTest copyinstr1 (str "copyinstr1");
   mkTest (copyinstr2 xstatus b big) (str "copyinstr2");
   mkTest (copyinstr3 args) (str "copyinstr3");
   mkTest rwsbrk (str "rwsbrk");
   mkTest (truncate1 b) (str "truncate1");
   mkTest truncate2 (str "truncate2");
   mkTest (truncate3 xstatus b) (str "truncate3");
   mkTest (openiputtest xstatus) (str "openiput");
   mkTest (exitiputtest xstatus) (str "exitiput");
   mkTest iputtest (str "iput");
   mkTest opentest (str "opentest");
   mkTest (writetest buf) (str "writetest");
   mkTest (writebig buf) (str "writebig");
   mkTest (createtest b) (str "createtest");
   mkTest dirtest (str "dirtest");
   mkTest (exectest xstatus b) (str "exectest");
   mkTest (pipe1 buf fds xstatus) (str "pipe1");
   mkTest (killstatus xstatus) (str "killstatus");
   mkTest (exitwait xstatus) (str "exitwait");
   mkTest reparent (str "reparent");
   mkTest twochildren (str "twochildren");
   mkTest (forkfork xstatus) (str "forkfork");
   mkTest forkforkfork (str "forkforkfork");
   mkTest reparent2 (str "reparent2");
   mkTest (mem xstatus base freep) (str "mem");
   mkTest (sharedfd xstatus name) (str "sharedfd");
   mkTest (fourfiles buf xstatus) (str "fourfiles");
   mkTest (createdelete xstatus name) (str "createdelete");
   mkTest (unlinkread buf) (str "unlinkread");
   mkTest (linktest buf) (str "linktest");
   mkTest (concreate xstatus name fa de) (str "concreate");
   mkTest linkunlink (str "linkunlink");
   mkTest (subdir buf) (str "subdir");
   mkTest (bigwrite buf) (str "bigwrite");
   mkTest (bigfile buf) (str "bigfile");
   mkTest fourteen (str "fourteen");
   mkTest rmdot (str "rmdot");
   mkTest dirfile (str "dirfile");
   mkTest iref (str "iref");
   mkTest forktest (str "forktest");
   mkTest (sbrkbasic xstatus) (str "sbrkbasic");
   mkTest sbrkmuch (str "sbrkmuch");
   mkTest (kernmem xstatus) (str "kernmem");
   mkTest (MAXVAplus xstatus) (str "MAXVAplus");
   mkTest (sbrkfail fds xstatus scratch) (str "sbrkfail");
   mkTest sbrkarg (str "sbrkarg");
   mkTest (validatetest nosuchfile) (str "validatetest");
   mkTest (bsstest uninit) (str "bsstest");
   mkTest (bigargtest xstatus) (str "bigargtest");
   mkTest argptest (str "argptest");
   mkTest (stacktest xstatus sp) (str "stacktest");
   mkTest (textwrite xstatus) (str "textwrite");
   mkTest (pgbug argv) (str "pgbug");
   mkTest (sbrkbugs pc) (str "sbrkbugs");
   mkTest sbrklast (str "sbrklast");
   mkTest sbrk8000 (str "sbrk8000");
   mkTest (badarg argv echo) (str "badarg")].

Definition slowtests : list test :=
  [mkTest (bigdir name) (str "bigdir");
   mkTest (manywrites buf name xstatus) (str "manywrites");
   mkTest badwrite (str "badwrite");
   mkTest execout (str "execout");
   mkTest (diskfull name blockbuf) (str "diskfull");
   mkTest (outofinodes name) (str "outofinodes")].

Definition usertests (av : list Z) : M U unit :=
  usertests_main xstatus fds c str quicktests slowtests av.

End tables.
