(* ===== verification/UtStress.v ===== *)
(** * UtStress: [user/cowtest.c] and [user/grind.c]

    [cowtest] writes to memory that [fork] shares; [grind] makes random
    system calls.  The memory that [sbrk] gives is reached with [load_int] and
    [store_int]. *)

From stdpp Require Import base list gmap strings.
From Stdlib Require Import ZArith Lia.
From S2P Require Import Prelude CMem Riscv Spinlock Kalloc Vm Que KState User Ulib Programs UtBasic UtMem.

(** ** [user/cowtest.c] *)

Section cowtest.
Context `{Sys}.

(** The globals [fds] and [buf], the loop variable [i] of [filetest], and
    [xstatus]. *)
Variables (fds buf i xstatus : Z).

Definition phys_size : Z := 128 * 1024 * 1024.

(** [printf(...); exit(-1);] *)
Definition give {A} (fmt : string) (ap : list Z) : M U A := printf (fmt +:+ newline) ap;; exit (-1).

(** [for(char *q = p; q < top; q += 4096)] *)
Definition pages (p top : Z) (body : Z -> M U unit) : M U unit :=
  while (fun q =>
    if negb (q <? top) then mret (inr tt) else
    body q;;
    mret (inl (q + 4096))) p.

(** Every page gets the process id, and still has it. *)
Definition mark_pages (p top : Z) : M U unit := pages p top (fun q => pid ← getpid; store_int q pid).
Definition check_pages (p top : Z) : M U unit :=
  pages p top (fun q =>
    x ← load_int q;
    pid ← getpid;
    when (negb (x =? pid)) (give "wrong content" [])).

Definition simpletest : M U unit :=
  let sz := phys_size / 3 * 2 in
  printf "simple: " [];;
  p ← sbrkp sz;
  when (p =? SBRK_FAILED) (give "sbrk(%d) failed" [sz]);;
  mark_pages p (p + sz);;
  pid ← fork;
  when (pid <? 0) (give "fork() failed" []);;
  when (pid =? 0) (exit 0);;
  wait 0;;
  r ← sbrkp (- sz);
  when (r =? SBRK_FAILED) (give "sbrk(-%d) failed" [sz]);;
  printf ("ok" +:+ newline) [].

Definition threetest : M U unit :=
  let sz := phys_size / 4 in
  printf "three: " [];;
  p ← sbrkp sz;
  when (p =? SBRK_FAILED) (give "sbrk(%d) failed" [sz]);;
  pid1 ← fork;
  when (pid1 <? 0) (give "fork failed" []);;
  when (pid1 =? 0) (
    pid2 ← fork;
    when (pid2 <? 0) (printf "fork failed" [];; exit (-1));;
    when (pid2 =? 0) (
      mark_pages p (p + sz / 5 * 4);;
      check_pages p (p + sz / 5 * 4);;
      exit (-1));;
    pages p (p + sz / 2) (fun q => store_int q 9999);;
    exit 0);;
  mark_pages p (p + sz);;
  wait 0;;
  sleep 1;;
  check_pages p (p + sz);;
  r ← sbrkp (- sz);
  when (r =? SBRK_FAILED) (give "sbrk(-%d) failed" [sz]);;
  printf ("ok" +:+ newline) [].

Definition filetest : M U unit :=
  printf "file: " [];;
  st8 buf 99;;
  upto 4 (fun k =>
    sti i k;;
    r ← pipe fds;
    when (negb (r =? 0)) (give "pipe() failed" []);;
    pid ← fork;
    when (pid <? 0) (give "fork failed" []);;
    when (pid =? 0) (
      sleep 1;;
      fd0 ← ldi fds;
      r ← read fd0 buf 4;
      fail_if (negb (r =? 4)) "error: read failed" [];;
      sleep 1;;
      j ← ldi buf;
      v ← ldi i;
      fail_if (negb (j =? v)) "error: read the wrong value" [];;
      exit 0);;
    fd1 ← ldi (fds + 4);
    r ← write fd1 i 4;
    when (negb (r =? 4)) (give "error: write failed" []));;
  sti xstatus 0;;
  upto 4 (fun _ =>
    st ← wait_status xstatus;
    when (negb (st =? 0)) (exit 1));;
  c ← ld8 buf;
  fail_if (negb (c =? 99)) "error: child overwrote parent" [];;
  printf ("ok" +:+ newline) [].

Definition cowtest_main : M U unit :=
  simpletest;;
  simpletest;;
  threetest;;
  threetest;;
  threetest;;
  filetest;;
  printf ("ALL COW TESTS PASSED" +:+ newline) [];;
  exit 0.

End cowtest.

(** ** [user/grind.c] *)

(** [x / y] and [x % y] of C. *)
Definition do_rand (ctx : Z) : Z :=
  let x := ctx mod 0x7ffffffe + 1 in
  let hi := Z.quot x 127773 in
  let lo := Z.rem x 127773 in
  let x := 16807 * lo - 2836 * hi in
  let x := if x <? 0 then x + 0x7fffffff else x in
  x - 1.

(** Schrage's method: the product modulo [2^31 - 1], without overflowing it. *)
Lemma do_rand_mod ctx : 0 <= ctx -> do_rand ctx = 16807 * (ctx mod 0x7ffffffe + 1) mod 0x7fffffff - 1.
Proof.
  intros Hc. unfold do_rand. pose proof (Z.mod_pos_bound ctx 0x7ffffffe ltac:(lia)) as Hx.
  set (x := ctx mod 0x7ffffffe + 1) in *. rewrite Z.quot_div_nonneg, Z.rem_mod_nonneg by lia.
  pose proof (Z.div_mod x 127773 ltac:(lia)) as Hd. pose proof (Z.mod_pos_bound x 127773 ltac:(lia)) as Hm.
  set (hi := x / 127773) in *. set (lo := x mod 127773) in *.
  assert (0 <= hi <= 16807) as Hhi by lia.
  assert (16807 * x = 0x7fffffff * hi + (16807 * lo - 2836 * hi)) as E by lia.
  destruct (Z.ltb_spec (16807 * lo - 2836 * hi) 0).
  - f_equal. apply (Z.mod_unique_pos _ _ (hi - 1)); lia.
  - f_equal. apply (Z.mod_unique_pos _ _ hi); lia.
Qed.

(** The quotation mark. *)
Definition quote : string := String (Ascii.ascii_of_nat 34) EmptyString.

Section grind.
Context `{Sys}.

(** The static [buf], the locals [fds], [ch], [st], [aa], [bb], [hibuf] and
    [status], and the global [rand_next]. *)
Variables (buf fds ch st aa bb hibuf status rand_next : Z).

(** [rand_next] is an [unsigned long]. *)
Definition rand : M U Z :=
  x ← ldp rand_next;
  let r := do_rand x in
  stp rand_next (u64 r);;
  mret (i32 r).

(** [close(open(path, O_CREATE|O_RDWR));] *)
Definition touch_file (path : list Z) : M U unit := fd ← open path (Z.lor O_CREATE O_RDWR); close_ fd.

Definition chdir_or_exit (path : list Z) (msg : string) : M U unit :=
  r ← chdir path;
  fail_if (negb (r =? 0)) msg [].

(** A child that does [m]; [after] is what the parent does before it waits. *)
Definition with_child (m : M U unit) (after : Z -> M U unit) : M U unit :=
  pid ← fork;
  (if pid =? 0 then m
   else fail_if (pid <? 0) "grind: fork failed" []);;
  after pid;;
  wait 0;;
  mret tt.

(** The pipe of case 19, after [pipe(fds)]. *)
Definition grind_pipe : M U unit :=
  r ← pipe fds;
  fail_if (r <? 0) "grind: pipe failed" [];;
  with_child (
    fork;;
    fork;;
    fd1 ← ldi (fds + 4);
    r ← writes fd1 (lit "x");
    when (negb (r =? 1)) (printf ("grind: pipe write failed" +:+ newline) []);;
    fd0 ← ldi fds;
    r ← read fd0 ch 1;
    when (negb (r =? 1)) (printf ("grind: pipe read failed" +:+ newline) []);;
    exit 0)
  (fun _ =>
    fd0 ← ldi fds;
    close_ fd0;;
    fd1 ← ldi (fds + 4);
    close_ fd1).

(** Case 21: a new file can be created, written and examined. *)
Definition grind_file : M U unit :=
  unlink_ (lit "c");;
  fd1 ← open (lit "c") (Z.lor O_CREATE O_RDWR);
  fail_if (fd1 <? 0) "grind: create c failed" [];;
  r ← writes fd1 (lit "x");
  fail_if (negb (r =? 1)) "grind: write c failed" [];;
  r ← fstat fd1 st;
  fail_if (negb (r =? 0)) "grind: fstat failed" [];;
  size ← st_size st;
  fail_if (negb (size =? 1)) "grind: fstat reports wrong size %d" [i32 size];;
  ino ← st_ino st;
  fail_if (200 <? ino) "grind: fstat reports crazy i-number %d" [ino];;
  close_ fd1;;
  unlink_ (lit "c").

(** [fprintf(2, ...); exit(n);] *)
Definition die (n : Z) (msg : string) {A} : M U A := fprintf 2 (msg +:+ newline) [];; exit n.

Definition close_at (p : Z) : M U unit := fd ← ldi p; close_ fd.

(** The children of case 22. *)
Definition grind_echo : M U unit :=
  close_at bb;;
  close_at (bb + 4);;
  close_at aa;;
  close_ 1;;
  fd ← ldi (aa + 4);
  r ← dup fd;
  when (negb (r =? 1)) (die 1 "grind: dup failed");;
  close_at (aa + 4);;
  exec (lit "grindir/../echo") [lit "echo"; lit "hi"];;
  die 2 "grind: echo: not found".

Definition grind_cat : M U unit :=
  close_at (aa + 4);;
  close_at bb;;
  close_ 0;;
  fd ← ldi aa;
  r ← dup fd;
  when (negb (r =? 0)) (die 4 "grind: dup failed");;
  close_at aa;;
  close_ 1;;
  fd ← ldi (bb + 4);
  r ← dup fd;
  when (negb (r =? 1)) (die 5 "grind: dup failed");;
  close_at (bb + 4);;
  exec (lit "/cat") [lit "cat"];;
  die 6 "grind: cat: not found".

(** Case 22: [echo hi | cat].  [hi] is the address of the string that must
    come back; [status] has room for both statuses. *)
Definition grind_pipeline (hi : Z) : M U unit :=
  r ← pipe aa;
  when (r <? 0) (die 1 "grind: pipe failed");;
  r ← pipe bb;
  when (r <? 0) (die 1 "grind: pipe failed");;
  pid1 ← fork;
  (if pid1 =? 0 then grind_echo else when (pid1 <? 0) (die 3 "grind: fork failed"));;
  pid2 ← fork;
  (if pid2 =? 0 then grind_cat else when (pid2 <? 0) (die 7 "grind: fork failed"));;
  close_at aa;;
  close_at (aa + 4);;
  close_at (bb + 4);;
  upto 4 (fun k => st8 (hibuf + k) 0);;
  upto 3 (fun k => fd ← ldi bb; read fd (hibuf + k) 1;; mret tt);;
  close_at bb;;
  wait status;;
  wait (status + 4);;
  st1 ← ldi status;
  st2 ← ldi (status + 4);
  bad ← (if negb (st1 =? 0) || negb (st2 =? 0) then mret true else r ← strcmp hibuf hi; mret (negb (r =? 0)));
  fail_if bad ("grind: exec pipeline failed %d %d " +:+ quote +:+ "%s" +:+ quote) [st1; st2; hibuf].

(** One iteration of the loop of [go] does [what]; [fd] is the descriptor it
    keeps, [break0] the break it started with. *)
Definition go_step (hi break0 what fd : Z) : M U Z :=
  if what =? 5 then close_ fd;; open (lit "/grindir/../a") (Z.lor O_CREATE O_RDWR)
  else if what =? 6 then close_ fd;; open (lit "/./grindir/./../b") (Z.lor O_CREATE O_RDWR)
  else
  match what with
  | 1 => touch_file (lit "grindir/../a")
  | 2 => touch_file (lit "grindir/../grindir/../b")
  | 3 => unlink_ (lit "grindir/../a")
  | 4 =>
      chdir_or_exit (lit "grindir") "grind: chdir grindir failed";;
      unlink_ (lit "../b");;
      chdir (lit "/");;
      mret tt
  | 7 => write fd buf 999;; mret tt
  | 8 => read fd buf 999;; mret tt
  | 9 => mkdir (lit "grindir/../a");; touch_file (lit "a/../a/./a");; unlink_ (lit "a/a")
  | 10 => mkdir (lit "/../b");; touch_file (lit "grindir/../b/b");; unlink_ (lit "b/b")
  | 11 => unlink_ (lit "b");; link (lit "../grindir/./../a") (lit "../b");; mret tt
  | 12 => unlink_ (lit "../grindir/../a");; link (lit ".././b") (lit "/grindir/../a");; mret tt
  | 13 => with_child (exit 0) (fun _ => mret tt)
  | 14 => with_child (fork;; fork;; exit 0) (fun _ => mret tt)
  | 15 => sbrkp 6011;; mret tt
  | 16 =>
      top ← sbrkp 0;
      when (break0 <? top) (top ← sbrkp 0; sbrkp (- (top - break0));; mret tt)
  | 17 =>
      with_child (touch_file (lit "a");; exit 0)
        (fun pid => chdir_or_exit (lit "../grindir/..") "grind: chdir failed";; kill pid;; mret tt)
  | 18 => with_child (pid ← getpid; kill pid;; exit 0) (fun _ => mret tt)
  | 19 => grind_pipe
  | 20 =>
      with_child (
        unlink_ (lit "a");;
        mkdir (lit "a");;
        chdir (lit "a");;
        unlink_ (lit "../a");;
        open (lit "x") (Z.lor O_CREATE O_RDWR);;
        unlink_ (lit "x");;
        exit 0) (fun _ => mret tt)
  | 21 => grind_file
  | 22 => grind_pipeline hi
  | _ => mret tt
  end;;
  mret fd.

Definition go (hi which_child : Z) : M U unit :=
  break0 ← sbrkp 0;
  mkdir (lit "grindir");;
  chdir_or_exit (lit "grindir") "grind: chdir grindir failed";;
  chdir (lit "/");;
  while (fun '(fd, iters) =>
    let iters := u64 (iters + 1) in
    when (iters mod 500 =? 0) (writes 1 (lit (if negb (which_child =? 0) then "B" else "A"));; mret tt);;
    r ← rand;
    fd ← go_step hi break0 (Z.rem r 23) fd;
    mret (inl (fd, iters))) (-1, 0).

Definition iter (hi : Z) : M U unit :=
  unlink_ (lit "a");;
  unlink_ (lit "b");;
  pid1 ← fork;
  fail_if (pid1 <? 0) "grind: fork failed" [];;
  when (pid1 =? 0) (
    x ← ldp rand_next;
    stp rand_next (Z.lxor x 31);;
    go hi 0;;
    exit 0);;
  pid2 ← fork;
  fail_if (pid2 <? 0) "grind: fork failed" [];;
  when (pid2 =? 0) (
    x ← ldp rand_next;
    stp rand_next (Z.lxor x 7177);;
    go hi 1;;
    exit 0);;
  sti status (-1);;
  st1 ← wait_status status;
  when (negb (st1 =? 0)) (kill pid1;; kill pid2;; mret tt);;
  sti (status + 4) (-1);;
  wait (status + 4);;
  exit 0.

Definition grind_main (hi : Z) : M U unit :=
  forever (
    pid ← fork;
    when (pid =? 0) (iter hi;; exit 0);;
    when (0 <? pid) (wait 0;; mret tt);;
    sleep 20;;
    x ← ldp rand_next;
    stp rand_next (u64 (x + 1))).

End grind.
